(* ===== verification/_CoqProject ===== *)
-Q . S2P
Prelude.v
GifTypes.v
GifHash.v
GifAlloc.v
GifCopy.v
GifDecode.v
GifSafety.v
GifEncode.v
GifBlocks.v
Lzw.v
GifCompress.v
GifDecompress.v
GifLines.v
GifImages.v
GifFormat.v
GifSpew.v
GifReadBack.v
NeuQuant.v
NeuQuantNet.v
NeuQuantIndex.v
NeuQuantSpec.v
Gifflen.v
GifflenCode.v
GifflenImage.v
GifflenDecode.v
GifflenFile.v
GifflenRecord.v
GifflenLimits.v
Relocate.v
ArmExec.v
RelocateLoops.v
InlineHook.v
HookTable.v
HookSteps.v
HookProps.v
HookCycle.v
ProcMaps.v
HookWitness.v
FrameSequence.v
FrameDraw.v
FrameSpec.v
FrameMake.v
FrameWitness.v
Stream.v
WebP.v
WebPDraw.v
WebPFrames.v
WebPOpen.v
WebPWitness.v
Exidx.v
ExidxFrame.v
ExidxTable.v
ExidxLimits.v
Dwarf.v
Leb.v
DwarfRows.v
DwarfStep.v
DwarfLimits.v
ElfHook.v
ElfProps.v
ElfRedirect.v
Utf.v
MemCheck.v
CrashExidx.v
CrashReport.v
CrashWhole.v
ReportWriter.v
EventQueue.v
Anr.v
CrashSetup.v
DumpJava.v
MemLeak.v
