(* ===== verification/Prelude.v ===== *)
(** * Verification of the native libraries of AndroidWork

    AndroidWork is an Android application with native libraries of its own.
    This development models the ones that hold program logic and proves what
    they promise:

    - giflib, the GIF codec (src/libframesequence/giflib/src);
    - libframesequence, animated GIF and WebP files drawn into a bitmap
      (src/libframesequence);
    - libmemcheck, inline hooks of native functions and the unwinding of
      native stacks (src/libmemcheck);
    - libcrash_collect, which writes a report when a native crash happens
      and saves the stacks of an application that does not respond
      (src/libcrash_collect).

    ** How the code is modelled

    A routine is a function in the state-and-error monad [M] below.  [Returns]
    is the normal return, [Fails] the error return of a routine that has one
    (the state keeps what was changed until then), [Stuck] is undefined
    behaviour: an access outside an array, a null or unset pointer, a word of
    memory that is not mapped, or a loop that runs out of fuel.  That [Stuck]
    is not reached is part of every correctness theorem, since those say what
    the call returns; [wp] is the tool for that.  A C array is a list whose
    accesses are checked ([aget], [aset], [blit]); a pointer to owned memory is
    an [option]; two pointers that may be the same are names of parts of one
    state (the pixel buffers of WebP, the memory of the process).  Integers are
    [Z], with the wrap-around of their type ([u8], [u32], [i32], ...) where the
    code computes in it.

    ** The files and the code they model

    giflib.  GifTypes (gif_lib.h, gif_lib_private.h), GifHash (gif_hash.c),
    GifAlloc (gifalloc.c), GifDecode (dgif_lib.c) and GifEncode (egif_lib.c)
    have one definition for each C function, under its name; loops and repeated
    pieces of a function have names of their own.  [GifFileType] carries the
    input, the output, the room in the output and the outcomes of the coming
    allocations.  GifSafety: no file, however malformed, makes the decoder
    leave an array or loop forever.  GifBlocks and Lzw specify the image data
    (sub-blocks of bit strings, and the codes both sides have to agree on; the
    number of codes after which an encoder starts anew is a parameter, the
    class [CodeLimit]);
    GifCompress, GifDecompress, GifLines and GifImages show that the encoder
    and the decoder implement them, so that the pixels come back.  GifFormat,
    GifSpew and GifReadBack do the same for a whole file: what [EGifSpew]
    writes, [DGifOpen] and [DGifSlurp] read back.  GifAlloc has images that own
    their parts; GifCopy has [GifMakeSavedImage] and what it calls on a heap of
    blocks, since a copy begins with the pointers of its source, and reads it
    through a pointer into an array that may have been moved.

    libframesequence.  Stream (Stream.cpp, Registry.cpp, FrameSequence.cpp): a
    stream with its peek buffer over any [Source], a class of which memory,
    file and Java streams are instances.  FrameSequence (FrameSequence_gif.cpp)
    has the constructor and [drawFrame]; it calls the decoder of GifDecode.
    FrameDraw proves that its loops implement functions on pictures, FrameSpec
    compares these with the frames a GIF defines, FrameMake shows that the
    constructor makes what they assume, from the bytes of any file.  WebP
    (FrameSequence_webp.cpp) is over libwebp as the class [Demux]; WebPDraw has
    the frames a file defines, blending included, WebPFrames the refinement, WebPOpen the way from
    a stream through the registry to the sequence.

    libframesequence, recording.  NeuQuant (libwebp/src/generate/neuquant.cpp)
    is the quantiser: NeuQuantNet bounds the network while it learns,
    NeuQuantIndex proves the sorted index and the search in it, NeuQuantSpec
    says what a quantised picture is and that [quantise] makes one.  Gifflen
    (Gifflen.cpp) writes animated GIFs with it and a compressor of its own.
    GifflenCode proves the bit buffer, sub-blocks and hash table, GifflenImage
    the loop: the codes are those of Lzw with another limit than giflib has.
    GifflenDecode lets the decoder of giflib read its images, GifflenFile
    describes the files byte for byte and lets giflib read them, GifflenRecord
    follows a recording from the pixels to the pixels giflib reads; GifflenLimits shows
    the images that cannot be written.

    libmemcheck, inline hooks.  Relocate (relocate.c) moves the first
    instructions of a function to a trampoline; ArmExec is an executable
    subset of the ARM instruction set, against which each relocated ARM
    instruction is proved; RelocateLoops has the two loops and the tables of
    instruction boundaries.  InlineHook (inlineHook.c) has the table of hooks
    and the process it works on: memory, threads, the results of the coming
    system calls.  HookTable has the invariant, HookSteps the steps, HookProps
    the refinement of a map from functions to hook states; HookCycle follows a
    hook from registration to removal and runs the code it leaves; ProcMaps has
    the parser of /proc/self/maps.

    libmemcheck, stack unwinding.  Exidx (stacktrace.cpp, exidxstep.cpp) has
    the whole step from a frame to its caller.  ExidxFrame specifies prologues
    of functions and the unwind instructions that undo them, ExidxTable the
    exception index of a module, and ExidxLimits what the unwinder cannot do.

    libmemcheck, hooks of imported functions.  ElfHook (elfhook.cpp,
    elfutils.cpp, elfio.cpp) finds a library in the memory of the process, reads
    its dynamic section, looks a symbol up and replaces its relocation slots;
    ElfProps proves the lookup in the hash table and the loops over the slots,
    ElfRedirect the whole, from the ELF header on.

    libmemcheck, leaks.  MemLeak (backtrace.cpp, memcheck_jni.cpp): the hooks
    of [malloc], [realloc] and [free] walk up the stack with the unwinder of
    Exidx and keep the table of leaks.

    libcrash_collect, crash reports.  MemCheck (memcheck.cpp) has the table of
    readable mappings and the address of the call before a return address.
    CrashExidx (arm/exidxstep.cpp, arm/backtrace.cpp) is the unwinder of the
    reports on ARM: what it shares with Exidx is used from there.  CrashReport
    (crash_handler.cpp) writes the registers, the memory around them and the
    backtrace with both, as a list of lines; CrashWhole puts a report together,
    on ARM and on ARM64; ReportWriter (report_writer.cpp) has the text of the
    lines and the buffer it is formatted in.

    libcrash_collect, the watcher and the set-up.  EventQueue (event_queue.cpp)
    is a linked list in a heap, Anr (inotify_utils.cpp) the watcher that reads
    events from the kernel into it and copies the trace of an ANR.  Utf
    (utf.cpp) converts the strings that Java sets; CrashSetup
    (exception_handler.cpp) has the setters, which use it, and the signal
    handlers.  DumpJava has the two threads of a crash, the one that crashed and
    the one that asks Java for its stack, as a transition system whose runs are
    the interleavings of their steps.

    libcrash_collect, the ARM64 unwinder.  Dwarf (eh_frame.cpp, ehstep.cpp, backtrace.cpp,
    leb128.cpp) has the step of the ARM64 unwinder with its interpreter of call
    frame information.  Leb reads back the numbers as DWARF encodes them;
    DwarfRows gives the rule the standard defines for a location and shows when
    the interpreter finds the registers of that rule; DwarfStep puts a step
    together from the bytes of a module, DwarfLimits shows what it loses.

    FrameWitness, HookWitness and WebPWitness hold concrete inputs at which the
    theorems with hypotheses are applied.

    ** What the theorems show

    Round trips: whole GIF files, image data, recordings of Gifflen read by
    giflib, program counters of stopped threads, memory maps, hooking and
    unhooking, a prologue and its unwinding; UTF-16 strings become the UTF-8
    of the same characters.
    Refinement: the hash table of a map, the hook table of a map, [drawFrame]
    of the frames a file defines (GIF and WebP), streams of the input of the
    decoder, the unwinders of the step to the caller, the hook of an imported
    function of a change of its slots alone, the backtrace of the frames that
    are walked through, the text of a report of its lines, the event queue of a list, the table of leaks of the
    history of calls.  Safety on every input: decoding, drawing, reading memory
    for a report.  Termination: every loop is a recursion on data or has
    fuel that is proved to be enough.  Limits: the tables that overflow, the
    reads and writes that go wrong, each at a concrete input.  A theorem that
    needs more than well-formed input says so in its comment, and a limit shows
    what happens without: [tidy] files and [first_frame_not_removed], [supported]
    instructions and [relocated_condition_lost], and so on.

    ** Bounds and fuel

    The probe loops of the hash table have one round for each slot (8192): the
    theorems assume a table that is not full, which the encoder keeps by
    clearing it; that of Gifflen (11003) likewise.  The compressor of Gifflen
    has one round for each pixel and two more, the quantiser one for each sample
    and the search in it one for each colour.  Loops over input have the length of the input as fuel, the
    loops of the decompressor the size of the stack and tables (4096); reading
    past the end fails, so the safety theorem shows that neither runs out.
    [inlineUnHookAll] has one round for each item and one more; the loops over
    the instructions of a function have one for each half-word.  The search in
    the exception index has one round for each entry and one more, since each
    round narrows the range.  An interpreter of unwind instructions has one
    round for each byte and one more.  The backtrace of a report has 31 rounds,
    and every one writes one of at most 30 lines.  The loops over the event
    queue have a round for each block of the heap and one more, those over the
    bytes of events and of a trace one for each byte.  The ARM64 step has a fuel of its own for
    the entries of a module and the augmentation string: the theorems ask for
    more than their number and length.

    ** Assumptions

    The libraries are built for [armeabi-v7a] (app/build.gradle): [int], [long],
    [size_t] and pointers have 32 bits, but for the ARM64 unwinder, which is
    compiled for 64-bit targets only.  Hooks are called from one thread, which
    the library itself assumes.  Code outside the repository's own sources is a
    parameter with its documented behaviour as hypotheses: [InputStream.read],
    the demuxer and decoder of libwebp ([webp_file]), [dladdr] and the loader's
    memory for the unwinders, the lines of /proc/self/maps; [mmap], [ptrace],
    [fork], [malloc], [sigaction], [select], [read] and the opening of files
    have arbitrary outcomes, which are part of the state or arguments.

    ** What is not modelled

    The error strings, the font and the quantiser of giflib, which the
    application does not call; the JNI functions (handles, bitmap locks); the
    parts of the ELF hook that read a library from its file or print it, which
    nothing calls; the build of libcrash_collect with breakpad.  libwebp and libbreakpad are
    third-party.  Partial transparency is not blended by the WebP state, which
    the code marks as open, and neither by its model; the specification does
    blend, so that the theorem is about files without it ([no_partial_alpha]) and
    [partial_alpha_replaces] shows a file with it. *)

From stdpp Require Import base numbers list list_numbers.
From Stdlib Require Import Lia ZArith.

#[local] Open Scope Z_scope.

(** ** Machine integers

    The libraries are built for [armeabi-v7a] (app/build.gradle), an ILP32
    target: [int], [long] and [size_t] have 32 bits.  A C integer is a [Z]
    together with the wrap-around of its type. *)

Definition u8 (z : Z) : Z := z mod 256.
Definition u16 (z : Z) : Z := z mod 65536.
Definition u32 (z : Z) : Z := z mod 4294967296.
Definition u64 (z : Z) : Z := z mod 18446744073709551616.
Definition i32 (z : Z) : Z := (z + 2147483648) mod 4294967296 - 2147483648.

(** [bit_and z m], [bit_or], ... are written with the operators of [Z]; this
    is the test [x & m] of a C condition. *)
Definition test (x m : Z) : bool := negb (Z.land x m =? 0).

Create HintDb c_ints.

Lemma u8_range z : 0 <= u8 z < 256.
Proof. apply Z.mod_pos_bound; lia. Qed.

Lemma u16_range z : 0 <= u16 z < 65536.
Proof. apply Z.mod_pos_bound; lia. Qed.

Lemma u32_range z : 0 <= u32 z < 4294967296.
Proof. apply Z.mod_pos_bound; lia. Qed.

Lemma u64_range z : 0 <= u64 z < 18446744073709551616.
Proof. apply Z.mod_pos_bound; lia. Qed.

Lemma i32_range z : -2147483648 <= i32 z < 2147483648.
Proof. unfold i32. pose proof (Z.mod_pos_bound (z + 2147483648) 4294967296). lia. Qed.

Lemma u8_small z : 0 <= z < 256 -> u8 z = z.
Proof. apply Z.mod_small. Qed.

Lemma u16_small z : 0 <= z < 65536 -> u16 z = z.
Proof. apply Z.mod_small. Qed.

Lemma u32_small z : 0 <= z < 4294967296 -> u32 z = z.
Proof. apply Z.mod_small. Qed.

Lemma u64_small z : 0 <= z < 18446744073709551616 -> u64 z = z.
Proof. apply Z.mod_small. Qed.

Lemma i32_small z : -2147483648 <= z < 2147483648 -> i32 z = z.
Proof. intros. unfold i32. rewrite Z.mod_small; lia. Qed.

Lemma u32_add_l a b : u32 (u32 a + b) = u32 (a + b).
Proof. unfold u32. by rewrite Zplus_mod_idemp_l. Qed.

Lemma u32_sub_l a b : u32 (u32 a - b) = u32 (a - b).
Proof. unfold u32. by rewrite Zminus_mod_idemp_l. Qed.

#[export] Hint Resolve u8_range u16_range u32_range i32_range : c_ints.

(** Bits put above the [s] bits of a number. *)
Lemma lor_shiftl a s c : 0 <= s -> 0 <= a < 2 ^ s -> Z.lor a (Z.shiftl c s) = a + 2 ^ s * c.
Proof.
  intros Hs Ha.
  assert (Z.land a (Z.shiftl c s) = 0) as Hd.
  { apply Z.bits_inj'. intros i Hi. rewrite Z.land_spec, Z.bits_0.
    destruct (Z.lt_ge_cases i s).
    - rewrite Z.shiftl_spec_low by lia. by rewrite andb_false_r.
    - rewrite <- (Z.mod_small a (2 ^ s)) by lia. by rewrite Z.mod_pow2_bits_high by lia. }
  rewrite <- Z.lxor_lor, <- Z.add_nocarry_lxor by done.
  rewrite Z.shiftl_mul_pow2 by lia. lia.
Qed.

(** Masking with the upper [n] of [k + n] bits. *)
Lemma land_high_bits c k n : 0 <= k -> 0 <= n -> 0 <= c < 2 ^ (k + n) -> Z.land c (Z.shiftl (Z.ones n) k) = 2 ^ k * (c / 2 ^ k).
Proof.
  intros Hk Hn Hc. rewrite (Z.mul_comm (2 ^ k)), <- Z.shiftl_mul_pow2, <- Z.shiftr_div_pow2 by done.
  apply Z.bits_inj'. intros i Hi. rewrite Z.land_spec. destruct (decide (i < k)).
  - rewrite !Z.shiftl_spec_low by done. by rewrite andb_false_r.
  - rewrite !Z.shiftl_spec by lia. rewrite Z.shiftr_spec by lia. replace (i - k + k) with i by lia.
    destruct (decide (i < k + n)).
    + by rewrite Z.ones_spec_low, andb_true_r by lia.
    + assert (Z.testbit c i = false) as ->; [|done].
      destruct (decide (c = 0)) as [->|]; [apply Z.bits_0|]. apply Z.bits_above_log2; [lia|].
      apply Z.log2_lt_pow2; [lia|]. apply Z.lt_le_trans with (2 ^ (k + n)); [lia|]. apply Z.pow_le_mono_r; lia.
Qed.

(** ** Arrays

    A C array is a list; an access out of range is undefined behaviour, which
    the models report ([None] here, [Stuck] in the monad below). *)

Definition aget {A} (l : list A) (i : Z) : option A :=
  if decide (0 <= i) then l !! Z.to_nat i else None.

Definition aset {A} (l : list A) (i : Z) (v : A) : option (list A) :=
  if decide (0 <= i < Z.of_nat (length l)) then Some (<[Z.to_nat i := v]> l) else None.

(** [blit l i vs] copies [vs] into [l] from index [i] on ([memcpy]). *)
Fixpoint blit {A} (l : list A) (i : Z) (vs : list A) : option (list A) :=
  match vs with
  | [] => Some l
  | v :: vs =>
      match aset l i v with
      | Some l' => blit l' (i + 1) vs
      | None => None
      end
  end.

Lemma aget_Some {A} (l : list A) i :
  0 <= i < Z.of_nat (length l) -> exists v, aget l i = Some v.
Proof.
  intros H. unfold aget. rewrite decide_True by lia.
  apply lookup_lt_is_Some_2. lia.
Qed.

Lemma aget_lt {A} (l : list A) i v : aget l i = Some v -> 0 <= i < Z.of_nat (length l).
Proof.
  unfold aget. destruct (decide (0 <= i)); [|done].
  intros Hl%lookup_lt_Some. lia.
Qed.

Lemma aset_Some {A} (l : list A) i v :
  0 <= i < Z.of_nat (length l) -> aset l i v = Some (<[Z.to_nat i := v]> l).
Proof. intros H. unfold aset. by rewrite decide_True by lia. Qed.

Lemma aset_behind {A} (l l' : list A) (x y : A) i : i = Z.of_nat (length l) -> aset (l ++ x :: l') i y = Some (l ++ y :: l').
Proof.
  intros ->. unfold aset. rewrite decide_True by (rewrite length_app; cbn [length]; lia).
  rewrite Nat2Z.id. by rewrite insert_app_r_alt, Nat.sub_diag by lia.
Qed.

Lemma aset_inv {A} (l l' : list A) i v :
  aset l i v = Some l' ->
  0 <= i < Z.of_nat (length l) /\ l' = <[Z.to_nat i := v]> l.
Proof. unfold aset. destruct (decide _); [|done]. intros [= <-]. done. Qed.

Lemma aset_length {A} (l l' : list A) i v : aset l i v = Some l' -> length l' = length l.
Proof. intros [_ ->]%aset_inv. apply length_insert. Qed.

Lemma aset_exists {A} (l : list A) i v :
  0 <= i < Z.of_nat (length l) -> exists l', aset l i v = Some l' /\ length l' = length l.
Proof. intros Hi. rewrite aset_Some by done. eexists. split; [done|]. by rewrite length_insert. Qed.

Lemma aget_aset_eq {A} (l l' : list A) i v : aset l i v = Some l' -> aget l' i = Some v.
Proof.
  intros [? ->]%aset_inv. unfold aget. rewrite decide_True by lia.
  apply list_lookup_insert_eq. lia.
Qed.

Lemma aget_aset_ne {A} (l l' : list A) i j v :
  aset l i v = Some l' -> i <> j -> aget l' j = aget l j.
Proof.
  intros [? ->]%aset_inv ?. unfold aget. destruct (decide (0 <= j)); [|done].
  apply list_lookup_insert_ne. lia.
Qed.

Lemma aget_Forall {A} (P : A -> Prop) (l : list A) i v :
  Forall P l -> aget l i = Some v -> P v.
Proof.
  unfold aget. destruct (decide (0 <= i)); [|done].
  intros HF Hl. by eapply Forall_lookup_1.
Qed.

Lemma aset_Forall {A} (P : A -> Prop) (l l' : list A) i v :
  Forall P l -> P v -> aset l i v = Some l' -> Forall P l'.
Proof. intros HF Hv [_ ->]%aset_inv. by apply Forall_insert. Qed.

Lemma aget_lookup {A} (l : list A) i v : 0 <= i -> l !! Z.to_nat i = Some v -> aget l i = Some v.
Proof. intros Hi Hl. unfold aget. by rewrite decide_True. Qed.

Lemma blit_spec {A} (vs : list A) : forall l i, 0 <= i -> i + Z.of_nat (length vs) <= Z.of_nat (length l) ->
  exists l', blit l i vs = Some l' /\ length l' = length l /\
    forall j, l' !! j = if decide (i <= Z.of_nat j < i + Z.of_nat (length vs)) then vs !! Z.to_nat (Z.of_nat j - i) else l !! j.
Proof.
  induction vs as [|v vs IH]; intros l i Hi Hl; cbn [blit length] in *.
  - exists l. split; [done|]. split; [done|]. intros j. by rewrite decide_False by lia.
  - rewrite aset_Some by lia. destruct (IH (<[Z.to_nat i := v]> l) (i + 1)) as (l' & Hb & Hlen & Hlk).
    { lia. } { rewrite length_insert. lia. }
    exists l'. split; [done|]. split; [by rewrite Hlen, length_insert|]. intros j. rewrite Hlk.
    destruct (decide (Z.of_nat j = i)) as [<-|Hne].
    + rewrite decide_False by lia. rewrite Nat2Z.id, list_lookup_insert_eq by lia.
      rewrite decide_True by lia. by rewrite Z.sub_diag.
    + rewrite list_lookup_insert_ne by lia.
      destruct (decide (i + 1 <= Z.of_nat j < i + 1 + Z.of_nat (length vs))), (decide (i <= Z.of_nat j < i + Z.of_nat (S (length vs)))); try lia; [|done].
      replace (Z.to_nat (Z.of_nat j - i)) with (S (Z.to_nat (Z.of_nat j - (i + 1)))) by lia. done.
Qed.

Lemma aget_replicate {A} n (x : A) i :
  0 <= i < Z.of_nat n -> aget (replicate n x) i = Some x.
Proof.
  intros H. unfold aget. rewrite decide_True by lia. apply lookup_replicate_2. lia.
Qed.

Lemma filter_all {A} (P : A -> Prop) `{forall x, Decision (P x)} (l : list A) :
  Forall P l -> filter P l = l.
Proof.
  induction 1 as [|x l Hx _ IH]; [done|]. rewrite filter_cons_True by done. by f_equal.
Qed.

(** ** Outcomes and the state monad

    A C routine that returns [GIF_OK] / [GIF_ERROR] (or a flag of the same
    kind) and mutates its structure through a pointer is a function from the
    state before to an outcome and the state after.  [Fails] is the error
    return: the state keeps the changes made until then.  [Stuck] is undefined
    behaviour (an access out of an array's bounds, a null pointer) or a loop
    that exhausts its fuel: the safety theorems say that it is not reached. *)

Inductive outcome (A : Type) : Type :=
| Returns (a : A)
| Fails
| Stuck.
Arguments Returns {A} a.
Arguments Fails {A}.
Arguments Stuck {A}.

Definition M (S A : Type) : Type := S -> outcome A * S.

Section Monad.
Context {S : Type}.

Definition ret {A} (a : A) : M S A := fun s => (Returns a, s).
Definition fail {A} : M S A := fun s => (Fails, s).
Definition stuck {A} : M S A := fun s => (Stuck, s).

Definition bind {A B} (m : M S A) (k : A -> M S B) : M S B :=
  fun s =>
    match m s with
    | (Returns a, s') => k a s'
    | (Fails, s') => (Fails, s')
    | (Stuck, s') => (Stuck, s')
    end.

Definition gets {A} (f : S -> A) : M S A := fun s => (Returns (f s), s).
Definition modify (f : S -> S) : M S unit := fun s => (Returns tt, f s).

(** The result of a call whose error return is only recorded. *)
Definition attempt {A} (m : M S A) : M S (option A) :=
  fun s =>
    match m s with
    | (Returns a, s') => (Returns (Some a), s')
    | (Fails, s') => (Returns None, s')
    | (Stuck, s') => (Stuck, s')
    end.

(** [(void) f(...)] *)
Definition ignore {A} (m : M S A) : M S unit :=
  bind (attempt m) (fun _ => ret tt).

Definition of_option {A} (o : option A) : M S A :=
  match o with Some a => ret a | None => stuck end.

(** A loop: [inl] goes round again, [inr] leaves. *)
Fixpoint loop {A B} (fuel : nat) (body : A -> M S (A + B)) (a : A) : M S B :=
  match fuel with
  | O => stuck
  | Datatypes.S fuel =>
      bind (body a) (fun r =>
        match r with
        | inl a' => loop fuel body a'
        | inr b => ret b
        end)
  end.

Fixpoint for_each {A} (body : A -> M S unit) (l : list A) : M S unit :=
  match l with
  | [] => ret tt
  | a :: l => bind (body a) (fun _ => for_each body l)
  end.

(** A [for] loop over the elements of [l] that carries a local value. *)
Fixpoint foldM {A B} (body : B -> A -> M S B) (l : list A) (b : B) : M S B :=
  match l with
  | [] => ret b
  | a :: l => bind (body b a) (foldM body l)
  end.
End Monad.

Declare Scope c_scope.
Delimit Scope c_scope with c.
Notation "'let!' x ':=' m 'in' k" := (bind m (fun x => k))
  (at level 10, x name, m at level 100, k at level 200) : c_scope.
Notation "'let!' ' p ':=' m 'in' k" := (bind m (fun x => match x with p => k end))
  (at level 10, p pattern, m at level 100, k at level 200) : c_scope.
Notation "m ;;! k" := (bind m (fun _ => k)) (at level 100, k at level 200, right associativity) : c_scope.

(** ** Weakest preconditions

    [wp m Q E s]: run from [s], [m] is not stuck; when it returns [a] the
    result and the state satisfy [Q], when it fails the state satisfies [E]. *)

Section Wp.
Context {S : Type}.

Definition wp {A} (m : M S A) (Q : A -> S -> Prop) (E : S -> Prop) (s : S) : Prop :=
  match m s with
  | (Returns a, s') => Q a s'
  | (Fails, s') => E s'
  | (Stuck, _) => False
  end.

Lemma wp_bind {A B} (m : M S A) (k : A -> M S B) Q E s :
  wp m (fun a s' => wp (k a) Q E s') E s -> wp (bind m k) Q E s.
Proof. unfold wp, bind. destruct (m s) as [[a| |] s']; done. Qed.

Lemma wp_ret {A} (a : A) Q (E : S -> Prop) s : Q a s -> wp (ret a) Q E s.
Proof. done. Qed.

Lemma wp_fail {A} (Q : A -> S -> Prop) (E : S -> Prop) s : E s -> wp fail Q E s.
Proof. done. Qed.

Lemma wp_gets {A} (f : S -> A) Q E s : Q (f s) s -> wp (gets f) Q E s.
Proof. done. Qed.

Lemma wp_modify (f : S -> S) Q E s : Q tt (f s) -> wp (modify f) Q E s.
Proof. done. Qed.

Lemma wp_of_option {A} (o : option A) (a : A) Q (E : S -> Prop) s :
  o = Some a -> Q a s -> wp (of_option o) Q E s.
Proof. by intros ->. Qed.

Lemma wp_attempt {A} (m : M S A) Q (E : S -> Prop) s :
  wp m (fun a s' => Q (Some a) s') (fun s' => Q None s') s -> wp (attempt m) Q E s.
Proof. unfold wp, attempt. destruct (m s) as [[a| |] s']; done. Qed.

Lemma wp_ignore {A} (m : M S A) Q (E : S -> Prop) s :
  wp m (fun _ s' => Q tt s') (fun s' => Q tt s') s -> wp (ignore m) Q E s.
Proof. intros H. apply wp_bind, wp_attempt. exact H. Qed.

Lemma wp_mono {A} (m : M S A) (Q Q' : A -> S -> Prop) (E E' : S -> Prop) s :
  wp m Q E s -> (forall a s', Q a s' -> Q' a s') -> (forall s', E s' -> E' s') ->
  wp m Q' E' s.
Proof. unfold wp. destruct (m s) as [[a| |] s']; auto. Qed.

Lemma wp_and {A} (m : M S A) (Q Q' : A -> S -> Prop) (E E' : S -> Prop) s :
  wp m Q E s -> wp m Q' E' s -> wp m (fun a s' => Q a s' /\ Q' a s') (fun s' => E s' /\ E' s') s.
Proof. unfold wp. destruct (m s) as [[a| |] s']; auto. Qed.

Lemma wp_if {A} (b : bool) (m1 m2 : M S A) Q E s :
  (b = true -> wp m1 Q E s) -> (b = false -> wp m2 Q E s) ->
  wp (if b then m1 else m2) Q E s.
Proof. destruct b; auto. Qed.

(** The loop rule: an invariant indexed by a measure that every further
    round decreases, below the fuel. *)
Lemma wp_loop {A B} (Inv : nat -> A -> S -> Prop) (body : A -> M S (A + B)) Q E fuel :
  (forall n a s, Inv n a s ->
     wp (body a)
       (fun r s' =>
          match r with
          | inl a' => exists n', (n' < n)%nat /\ Inv n' a' s'
          | inr b => Q b s'
          end) E s) ->
  forall n a s, Inv n a s -> (n < fuel)%nat -> wp (loop fuel body a) Q E s.
Proof.
  intros Hbody. induction fuel as [|fuel IH]; [lia|].
  intros n a s HI Hn. cbn [loop]. apply wp_bind.
  eapply wp_mono; [by apply (Hbody n)| |done].
  intros [a'|b] s'; [|done].
  intros (n' & ? & ?). apply (IH n'); [done|lia].
Qed.

Lemma wp_for_each {A} (Inv : list A -> S -> Prop) (body : A -> M S unit) (Q : unit -> S -> Prop) E :
  (forall a l s, Inv (a :: l) s -> wp (body a) (fun _ s' => Inv l s') E s) ->
  (forall s, Inv [] s -> Q tt s) ->
  forall l s, Inv l s -> wp (for_each body l) Q E s.
Proof.
  intros Hb Hq l. induction l as [|a l IH]; intros s HI; cbn [for_each].
  - apply wp_ret; auto.
  - apply wp_bind. eapply wp_mono; [by apply Hb| |done]. intros; apply IH; done.
Qed.

Lemma wp_foldM {A B} (Inv : list A -> B -> S -> Prop) (body : B -> A -> M S B) Q E :
  (forall a l b s, Inv (a :: l) b s -> wp (body b a) (fun b' s' => Inv l b' s') E s) ->
  (forall b s, Inv [] b s -> Q b s) ->
  forall l b s, Inv l b s -> wp (foldM body l b) Q E s.
Proof.
  intros Hb Hq l. induction l as [|a l IH]; intros b s HI; cbn [foldM].
  - apply wp_ret; auto.
  - apply wp_bind. eapply wp_mono; [by apply Hb| |done]. intros; apply IH; done.
Qed.

(** [for (k = a; k < a + n; k++)], by an invariant on the counter. *)
Lemma wp_for_seqZ (Inv : Z -> S -> Prop) (body : Z -> M S unit) a n (Q : unit -> S -> Prop) E s :
  Inv a s ->
  (forall k s', a <= k < a + n -> Inv k s' -> wp (body k) (fun _ s'' => Inv (k + 1) s'') E s') ->
  (forall s', Inv (a + Z.max 0 n) s' -> Q tt s') ->
  wp (for_each body (seqZ a n)) Q E s.
Proof.
  intros Hs Hb HQ.
  apply (wp_for_each (fun l s' => exists k, l = seqZ k (a + n - k) /\ a <= k <= a + Z.max 0 n /\ Inv k s')).
  - intros k' l s' (k & Hl & Hk & HI). destruct (decide (0 < a + n - k)) as [Hlt|]; [|by rewrite seqZ_nil in Hl by lia].
    rewrite seqZ_cons in Hl by lia. injection Hl as -> ->. eapply wp_mono; [apply Hb; [lia|exact HI]| |done].
    intros [] s'' HI'. exists (k + 1). split; [f_equal; lia|]. split; [lia|exact HI'].
  - intros s' (k & Hl & Hk & HI). destruct (decide (0 < a + n - k)); [by rewrite seqZ_cons in Hl by lia|].
    apply HQ. by replace (a + Z.max 0 n) with k by lia.
  - exists a. split; [f_equal; lia|]. split; [lia|done].
Qed.

(** Back from [wp] to the run of the routine. *)
Lemma wp_not_stuck {A} (m : M S A) Q E s : wp m Q E s -> fst (m s) <> Stuck.
Proof. unfold wp. by destruct (m s) as [[a| |] s']. Qed.

Lemma wp_returns {A} (m : M S A) Q s :
  wp m Q (fun _ => False) s -> exists a s', m s = (Returns a, s') /\ Q a s'.
Proof. unfold wp. destruct (m s) as [[a| |] s']; [eauto|done|done]. Qed.

Lemma wp_exact {A} (m : M S A) a s s' :
  wp m (fun b t => b = a /\ t = s') (fun _ => False) s -> m s = (Returns a, s').
Proof. unfold wp. destruct (m s) as [[b| |] t]; [by intros [-> ->]|done|done]. Qed.
End Wp.

(** Runs that read or write out of bounds, or have no end. *)
Definition stuck_at {S A} (m : M S A) (s : S) : Prop := fst (m s) = Stuck.

Lemma stuck_bind {S A B} (m : M S A) (k : A -> M S B) s : stuck_at m s -> stuck_at (bind m k) s.
Proof. unfold stuck_at, bind. by destruct (m s) as [[| |] ?]. Qed.

Lemma stuck_bind_later {S A B} (m : M S A) (k : A -> M S B) (P : A -> S -> Prop) s :
  wp m P (fun _ => False) s -> (forall a s', P a s' -> stuck_at (k a) s') -> stuck_at (bind m k) s.
Proof.
  intros Hm Hk. destruct (wp_returns _ _ _ Hm) as (a & s' & Hrun & HP). unfold stuck_at, bind. rewrite Hrun. by apply Hk.
Qed.

Create HintDb wp.

#[export] Hint Resolve wp_ret wp_fail wp_gets wp_modify : wp.

(** One step of symbolic execution. *)
Ltac wp_step :=
  lazymatch goal with
  | |- wp (bind _ _) _ _ _ => apply wp_bind
  | |- wp (ret _) _ _ _ => apply wp_ret
  | |- wp fail _ _ _ => apply wp_fail
  | |- wp (gets _) _ _ _ => apply wp_gets
  | |- wp (modify _) _ _ _ => apply wp_modify
  | |- wp (attempt _) _ _ _ => apply wp_attempt
  | |- wp (ignore _) _ _ _ => apply wp_ignore
  | |- wp (if ?b then _ else _) _ _ _ => apply wp_if; intro
  end.

Ltac wp_steps := repeat wp_step; cbv beta.

(** ** Properties of the state that a routine keeps

    Whatever the outcome of the routine. *)

Definition keeps {S A} (P : S -> Prop) (m : M S A) : Prop := forall s, P s -> P (m s).2.

Lemma keeps_bind {S A B} (P : S -> Prop) (m : M S A) (k : A -> M S B) :
  keeps P m -> (forall a, keeps P (k a)) -> keeps P (bind m k).
Proof.
  intros Hm Hk s Hs. pose proof (Hm s Hs). unfold bind. destruct (m s) as [[a| |] s']; [by apply Hk|done|done].
Qed.

Lemma keeps_ret {S A} (P : S -> Prop) (a : A) : keeps P (ret a).
Proof. by intros s. Qed.

Lemma keeps_of_option {S A} (P : S -> Prop) (o : option A) : keeps P (of_option o).
Proof. by destruct o; intros s. Qed.

Lemma keeps_loop {S A B} (P : S -> Prop) (body : A -> M S (A + B)) n :
  (forall a, keeps P (body a)) -> forall a, keeps P (loop n body a).
Proof.
  intros Hb. induction n as [|n IH]; intros a; cbn [loop]; [by intros s|].
  apply keeps_bind; [done|]. intros [a'|b]; [apply IH|apply keeps_ret].
Qed.

Lemma keeps_foldM {S A B} (P : S -> Prop) (body : B -> A -> M S B) l :
  (forall b a, keeps P (body b a)) -> forall b, keeps P (foldM body l b).
Proof. intros Hb. induction l as [|a l IH]; intros b; cbn [foldM]; [apply keeps_ret|by apply keeps_bind]. Qed.

Lemma keeps_for_each {S A} (P : S -> Prop) (body : A -> M S unit) l :
  (forall a, keeps P (body a)) -> keeps P (for_each body l).
Proof. intros Hb. induction l as [|a l IH]; cbn [for_each]; [apply keeps_ret|by apply keeps_bind]. Qed.

Lemma keeps_attempt {S A} (P : S -> Prop) (m : M S A) : keeps P m -> keeps P (attempt m).
Proof. intros Hm s Hs. pose proof (Hm s Hs). unfold attempt. by destruct (m s) as [[a| |] s']. Qed.

Lemma keeps_modify {S} (P : S -> Prop) f : (forall s, P s -> P (f s)) -> keeps P (modify f).
Proof. done. Qed.

(** With what the routine does when it is not stuck. *)
Lemma wp_keeps {S A} (P : S -> Prop) (m : M S A) Q E s :
  keeps P m -> P s -> wp m Q E s -> wp m (fun a s' => Q a s' /\ P s') (fun s' => E s' /\ P s') s.
Proof. intros Hm Hs. pose proof (Hm s Hs) as Hk. unfold wp. destruct (m s) as [[a| |] s']; cbn in Hk; tauto. Qed.

Create HintDb keeps.

(** Descends through a routine; lemmas on the routines it calls come from the
    database. *)
Ltac keep :=
  intros;
  first
    [ solve [auto 2 with keeps nocore]
    | lazymatch goal with
      | |- keeps _ (bind _ _) => apply keeps_bind; keep
      | |- keeps _ (ret _) => apply keeps_ret
      | |- keeps _ (of_option _) => apply keeps_of_option
      | |- keeps _ (modify _) => apply keeps_modify; intros; solve [assumption | auto 3 with keeps nocore]
      | |- keeps _ (attempt _) => apply keeps_attempt; keep
      | |- keeps _ (loop _ _ _) => apply keeps_loop; keep
      | |- keeps _ (foldM _ _ _) => apply keeps_foldM; keep
      | |- keeps _ (for_each _ _) => apply keeps_for_each; keep
      | |- keeps _ (match ?x with _ => _ end) => destruct x; keep
      | |- keeps _ (let _ := _ in _) => cbv zeta; keep
      | |- keeps _ (gets _) => intros ? ?; assumption
      | |- keeps _ fail => intros ? ?; assumption
      | |- keeps _ stuck => intros ? ?; assumption
      end ].
