(* ===== verification/GifTypes.v ===== *)
(** * giflib: the structures of gif_lib.h and gif_lib_private.h

    Records keep the field names of the C structures ([cm_] and [sp_] prefixes
    where two structures share one).  A pointer to owned heap memory is an
    [option]: [None] is the null pointer.  An array with a separate element
    count keeps both, so that an index past the allocation is visible.

    [GifFileType] also carries what the structure reaches through [Private]
    and [UserData]: the private record, the bytes still to be read, the bytes
    written, the room left in the output and the outcomes of the coming
    allocations. *)

From stdpp Require Import base numbers list.
From Stdlib Require Import Lia ZArith.
From S2P Require Import Prelude.

#[local] Open Scope Z_scope.

(** ** Constants *)

Definition EXTENSION_INTRODUCER := 0x21.
Definition DESCRIPTOR_INTRODUCER := 0x2c.
Definition TERMINATOR_INTRODUCER := 0x3b.

Definition LZ_MAX_CODE := 4095.
Definition LZ_BITS := 12.

Definition FLUSH_OUTPUT := 4096.
Definition FIRST_CODE := 4097.
Definition NO_SUCH_CODE := 4098.

Definition FILE_STATE_WRITE := 1.
Definition FILE_STATE_SCREEN := 2.
Definition FILE_STATE_IMAGE := 4.
Definition FILE_STATE_READ := 8.

Definition CONTINUE_EXT_FUNC_CODE := 0x00.
Definition COMMENT_EXT_FUNC_CODE := 0xfe.
Definition GRAPHICS_EXT_FUNC_CODE := 0xf9.
Definition PLAINTEXT_EXT_FUNC_CODE := 0x01.
Definition APPLICATION_EXT_FUNC_CODE := 0xff.

Definition DISPOSAL_UNSPECIFIED := 0.
Definition NO_TRANSPARENT_COLOR := -1.

(** "GIF87a", "GIF89a" and the length and version position of the stamp. *)
Definition GIF87_STAMP : list Z := [71; 73; 70; 56; 55; 97].
Definition GIF89_STAMP : list Z := [71; 73; 70; 56; 57; 97].
Definition GIF_STAMP_LEN := 6.
Definition GIF_VERSION_POS := 3.

Definition E_GIF_ERR_OPEN_FAILED := 1.
Definition E_GIF_ERR_WRITE_FAILED := 2.
Definition E_GIF_ERR_HAS_SCRN_DSCR := 3.
Definition E_GIF_ERR_HAS_IMAG_DSCR := 4.
Definition E_GIF_ERR_NO_COLOR_MAP := 5.
Definition E_GIF_ERR_DATA_TOO_BIG := 6.
Definition E_GIF_ERR_NOT_ENOUGH_MEM := 7.
Definition E_GIF_ERR_DISK_IS_FULL := 8.
Definition E_GIF_ERR_CLOSE_FAILED := 9.
Definition E_GIF_ERR_NOT_WRITEABLE := 10.

Definition D_GIF_ERR_OPEN_FAILED := 101.
Definition D_GIF_ERR_READ_FAILED := 102.
Definition D_GIF_ERR_NOT_GIF_FILE := 103.
Definition D_GIF_ERR_NO_SCRN_DSCR := 104.
Definition D_GIF_ERR_NO_IMAG_DSCR := 105.
Definition D_GIF_ERR_NO_COLOR_MAP := 106.
Definition D_GIF_ERR_WRONG_RECORD := 107.
Definition D_GIF_ERR_DATA_TOO_BIG := 108.
Definition D_GIF_ERR_NOT_ENOUGH_MEM := 109.
Definition D_GIF_ERR_CLOSE_FAILED := 110.
Definition D_GIF_ERR_NOT_READABLE := 111.
Definition D_GIF_ERR_IMAGE_DEFECT := 112.
Definition D_GIF_ERR_EOF_TOO_SOON := 113.

Inductive GifRecordType : Type :=
| UNDEFINED_RECORD_TYPE
| SCREEN_DESC_RECORD_TYPE
| IMAGE_DESC_RECORD_TYPE
| EXTENSION_RECORD_TYPE
| TERMINATE_RECORD_TYPE.

#[export] Instance GifRecordType_eq_dec : EqDecision GifRecordType.
Proof. solve_decision. Defined.

(** ** Structures *)

Record GifColorType : Type := mkGifColorType {
  Red : Z;
  Green : Z;
  Blue : Z
}.

#[export] Instance GifColorType_eq_dec : EqDecision GifColorType.
Proof. solve_decision. Defined.

Record ColorMapObject : Type := mkColorMapObject {
  ColorCount : Z;
  cm_BitsPerPixel : Z;
  SortFlag : bool;
  Colors : list GifColorType
}.

Definition set_ColorCount (v : Z) (r : ColorMapObject) : ColorMapObject :=
  mkColorMapObject v (r.(cm_BitsPerPixel)) (r.(SortFlag)) (r.(Colors)).
Definition set_cm_BitsPerPixel (v : Z) (r : ColorMapObject) : ColorMapObject :=
  mkColorMapObject (r.(ColorCount)) v (r.(SortFlag)) (r.(Colors)).
Definition set_SortFlag (v : bool) (r : ColorMapObject) : ColorMapObject :=
  mkColorMapObject (r.(ColorCount)) (r.(cm_BitsPerPixel)) v (r.(Colors)).
Definition set_Colors (v : list GifColorType) (r : ColorMapObject) : ColorMapObject :=
  mkColorMapObject (r.(ColorCount)) (r.(cm_BitsPerPixel)) (r.(SortFlag)) v.

Record GifImageDesc : Type := mkGifImageDesc {
  Left : Z;
  Top : Z;
  Width : Z;
  Height : Z;
  Interlace : bool;
  ColorMap : option ColorMapObject
}.

Definition set_Left (v : Z) (r : GifImageDesc) : GifImageDesc :=
  mkGifImageDesc v (r.(Top)) (r.(Width)) (r.(Height)) (r.(Interlace)) (r.(ColorMap)).
Definition set_Top (v : Z) (r : GifImageDesc) : GifImageDesc :=
  mkGifImageDesc (r.(Left)) v (r.(Width)) (r.(Height)) (r.(Interlace)) (r.(ColorMap)).
Definition set_Width (v : Z) (r : GifImageDesc) : GifImageDesc :=
  mkGifImageDesc (r.(Left)) (r.(Top)) v (r.(Height)) (r.(Interlace)) (r.(ColorMap)).
Definition set_Height (v : Z) (r : GifImageDesc) : GifImageDesc :=
  mkGifImageDesc (r.(Left)) (r.(Top)) (r.(Width)) v (r.(Interlace)) (r.(ColorMap)).
Definition set_Interlace (v : bool) (r : GifImageDesc) : GifImageDesc :=
  mkGifImageDesc (r.(Left)) (r.(Top)) (r.(Width)) (r.(Height)) v (r.(ColorMap)).
Definition set_ColorMap (v : option ColorMapObject) (r : GifImageDesc) : GifImageDesc :=
  mkGifImageDesc (r.(Left)) (r.(Top)) (r.(Width)) (r.(Height)) (r.(Interlace)) v.

Record ExtensionBlock : Type := mkExtensionBlock {
  ByteCount : Z;
  Bytes : option (list Z);
  Function : Z
}.

Definition set_ByteCount (v : Z) (r : ExtensionBlock) : ExtensionBlock :=
  mkExtensionBlock v (r.(Bytes)) (r.(Function)).
Definition set_Bytes (v : option (list Z)) (r : ExtensionBlock) : ExtensionBlock :=
  mkExtensionBlock (r.(ByteCount)) v (r.(Function)).
Definition set_Function (v : Z) (r : ExtensionBlock) : ExtensionBlock :=
  mkExtensionBlock (r.(ByteCount)) (r.(Bytes)) v.

Record SavedImage : Type := mkSavedImage {
  ImageDesc : GifImageDesc;
  RasterBits : option (list Z);
  sp_ExtensionBlockCount : Z;
  sp_ExtensionBlocks : option (list ExtensionBlock)
}.

Definition set_ImageDesc (v : GifImageDesc) (r : SavedImage) : SavedImage :=
  mkSavedImage v (r.(RasterBits)) (r.(sp_ExtensionBlockCount)) (r.(sp_ExtensionBlocks)).
Definition set_RasterBits (v : option (list Z)) (r : SavedImage) : SavedImage :=
  mkSavedImage (r.(ImageDesc)) v (r.(sp_ExtensionBlockCount)) (r.(sp_ExtensionBlocks)).
Definition set_sp_ExtensionBlockCount (v : Z) (r : SavedImage) : SavedImage :=
  mkSavedImage (r.(ImageDesc)) (r.(RasterBits)) v (r.(sp_ExtensionBlocks)).
Definition set_sp_ExtensionBlocks (v : option (list ExtensionBlock)) (r : SavedImage) : SavedImage :=
  mkSavedImage (r.(ImageDesc)) (r.(RasterBits)) (r.(sp_ExtensionBlockCount)) v.

Record GraphicsControlBlock : Type := mkGraphicsControlBlock {
  DisposalMode : Z;
  UserInputFlag : bool;
  DelayTime : Z;
  TransparentColor : Z
}.

Record GifFilePrivateType : Type := mkGifFilePrivateType {
  FileState : Z;
  BitsPerPixel : Z; (** codes use at least this + 1 *)
  ClearCode : Z;
  EOFCode : Z;
  RunningCode : Z; (** the next code the algorithm can generate *)
  RunningBits : Z; (** bits required to represent RunningCode *)
  MaxCode1 : Z; (** 1 bigger than the largest code of RunningBits bits *)
  LastCode : Z;
  CrntCode : Z;
  StackPtr : Z;
  CrntShiftState : Z; (** number of bits in CrntShiftDWord *)
  CrntShiftDWord : Z;
  PixelCount : Z;
  Buf : list Z; (** 256 bytes *)
  Stack : list Z; (** LZ_MAX_CODE bytes *)
  Suffix : list Z; (** LZ_MAX_CODE + 1 bytes *)
  Prefix : list Z; (** LZ_MAX_CODE + 1 codes *)
  HashTable : list Z; (** HT_SIZE words *)
  gif89 : bool
}.

Definition set_FileState (v : Z) (r : GifFilePrivateType) : GifFilePrivateType :=
  mkGifFilePrivateType v (r.(BitsPerPixel)) (r.(ClearCode)) (r.(EOFCode)) (r.(RunningCode))
    (r.(RunningBits)) (r.(MaxCode1)) (r.(LastCode)) (r.(CrntCode)) (r.(StackPtr))
    (r.(CrntShiftState)) (r.(CrntShiftDWord)) (r.(PixelCount)) (r.(Buf)) (r.(Stack))
    (r.(Suffix)) (r.(Prefix)) (r.(HashTable)) (r.(gif89)).
Definition set_BitsPerPixel (v : Z) (r : GifFilePrivateType) : GifFilePrivateType :=
  mkGifFilePrivateType (r.(FileState)) v (r.(ClearCode)) (r.(EOFCode)) (r.(RunningCode)) (r.(RunningBits))
    (r.(MaxCode1)) (r.(LastCode)) (r.(CrntCode)) (r.(StackPtr)) (r.(CrntShiftState))
    (r.(CrntShiftDWord)) (r.(PixelCount)) (r.(Buf)) (r.(Stack)) (r.(Suffix))
    (r.(Prefix)) (r.(HashTable)) (r.(gif89)).
Definition set_ClearCode (v : Z) (r : GifFilePrivateType) : GifFilePrivateType :=
  mkGifFilePrivateType (r.(FileState)) (r.(BitsPerPixel)) v (r.(EOFCode)) (r.(RunningCode))
    (r.(RunningBits)) (r.(MaxCode1)) (r.(LastCode)) (r.(CrntCode)) (r.(StackPtr))
    (r.(CrntShiftState)) (r.(CrntShiftDWord)) (r.(PixelCount)) (r.(Buf)) (r.(Stack))
    (r.(Suffix)) (r.(Prefix)) (r.(HashTable)) (r.(gif89)).
Definition set_EOFCode (v : Z) (r : GifFilePrivateType) : GifFilePrivateType :=
  mkGifFilePrivateType (r.(FileState)) (r.(BitsPerPixel)) (r.(ClearCode)) v (r.(RunningCode))
    (r.(RunningBits)) (r.(MaxCode1)) (r.(LastCode)) (r.(CrntCode)) (r.(StackPtr))
    (r.(CrntShiftState)) (r.(CrntShiftDWord)) (r.(PixelCount)) (r.(Buf)) (r.(Stack))
    (r.(Suffix)) (r.(Prefix)) (r.(HashTable)) (r.(gif89)).
Definition set_RunningCode (v : Z) (r : GifFilePrivateType) : GifFilePrivateType :=
  mkGifFilePrivateType (r.(FileState)) (r.(BitsPerPixel)) (r.(ClearCode)) (r.(EOFCode)) v
    (r.(RunningBits)) (r.(MaxCode1)) (r.(LastCode)) (r.(CrntCode)) (r.(StackPtr))
    (r.(CrntShiftState)) (r.(CrntShiftDWord)) (r.(PixelCount)) (r.(Buf)) (r.(Stack))
    (r.(Suffix)) (r.(Prefix)) (r.(HashTable)) (r.(gif89)).
Definition set_RunningBits (v : Z) (r : GifFilePrivateType) : GifFilePrivateType :=
  mkGifFilePrivateType (r.(FileState)) (r.(BitsPerPixel)) (r.(ClearCode)) (r.(EOFCode)) (r.(RunningCode))
    v (r.(MaxCode1)) (r.(LastCode)) (r.(CrntCode)) (r.(StackPtr)) (r.(CrntShiftState))
    (r.(CrntShiftDWord)) (r.(PixelCount)) (r.(Buf)) (r.(Stack)) (r.(Suffix))
    (r.(Prefix)) (r.(HashTable)) (r.(gif89)).
Definition set_MaxCode1 (v : Z) (r : GifFilePrivateType) : GifFilePrivateType :=
  mkGifFilePrivateType (r.(FileState)) (r.(BitsPerPixel)) (r.(ClearCode)) (r.(EOFCode)) (r.(RunningCode))
    (r.(RunningBits)) v (r.(LastCode)) (r.(CrntCode)) (r.(StackPtr))
    (r.(CrntShiftState)) (r.(CrntShiftDWord)) (r.(PixelCount)) (r.(Buf)) (r.(Stack))
    (r.(Suffix)) (r.(Prefix)) (r.(HashTable)) (r.(gif89)).
Definition set_LastCode (v : Z) (r : GifFilePrivateType) : GifFilePrivateType :=
  mkGifFilePrivateType (r.(FileState)) (r.(BitsPerPixel)) (r.(ClearCode)) (r.(EOFCode)) (r.(RunningCode))
    (r.(RunningBits)) (r.(MaxCode1)) v (r.(CrntCode)) (r.(StackPtr))
    (r.(CrntShiftState)) (r.(CrntShiftDWord)) (r.(PixelCount)) (r.(Buf)) (r.(Stack))
    (r.(Suffix)) (r.(Prefix)) (r.(HashTable)) (r.(gif89)).
Definition set_CrntCode (v : Z) (r : GifFilePrivateType) : GifFilePrivateType :=
  mkGifFilePrivateType (r.(FileState)) (r.(BitsPerPixel)) (r.(ClearCode)) (r.(EOFCode)) (r.(RunningCode))
    (r.(RunningBits)) (r.(MaxCode1)) (r.(LastCode)) v (r.(StackPtr))
    (r.(CrntShiftState)) (r.(CrntShiftDWord)) (r.(PixelCount)) (r.(Buf)) (r.(Stack))
    (r.(Suffix)) (r.(Prefix)) (r.(HashTable)) (r.(gif89)).
Definition set_StackPtr (v : Z) (r : GifFilePrivateType) : GifFilePrivateType :=
  mkGifFilePrivateType (r.(FileState)) (r.(BitsPerPixel)) (r.(ClearCode)) (r.(EOFCode)) (r.(RunningCode))
    (r.(RunningBits)) (r.(MaxCode1)) (r.(LastCode)) (r.(CrntCode)) v
    (r.(CrntShiftState)) (r.(CrntShiftDWord)) (r.(PixelCount)) (r.(Buf)) (r.(Stack))
    (r.(Suffix)) (r.(Prefix)) (r.(HashTable)) (r.(gif89)).
Definition set_CrntShiftState (v : Z) (r : GifFilePrivateType) : GifFilePrivateType :=
  mkGifFilePrivateType (r.(FileState)) (r.(BitsPerPixel)) (r.(ClearCode)) (r.(EOFCode)) (r.(RunningCode))
    (r.(RunningBits)) (r.(MaxCode1)) (r.(LastCode)) (r.(CrntCode)) (r.(StackPtr)) v
    (r.(CrntShiftDWord)) (r.(PixelCount)) (r.(Buf)) (r.(Stack)) (r.(Suffix))
    (r.(Prefix)) (r.(HashTable)) (r.(gif89)).
Definition set_CrntShiftDWord (v : Z) (r : GifFilePrivateType) : GifFilePrivateType :=
  mkGifFilePrivateType (r.(FileState)) (r.(BitsPerPixel)) (r.(ClearCode)) (r.(EOFCode)) (r.(RunningCode))
    (r.(RunningBits)) (r.(MaxCode1)) (r.(LastCode)) (r.(CrntCode)) (r.(StackPtr))
    (r.(CrntShiftState)) v (r.(PixelCount)) (r.(Buf)) (r.(Stack)) (r.(Suffix))
    (r.(Prefix)) (r.(HashTable)) (r.(gif89)).
Definition set_PixelCount (v : Z) (r : GifFilePrivateType) : GifFilePrivateType :=
  mkGifFilePrivateType (r.(FileState)) (r.(BitsPerPixel)) (r.(ClearCode)) (r.(EOFCode)) (r.(RunningCode))
    (r.(RunningBits)) (r.(MaxCode1)) (r.(LastCode)) (r.(CrntCode)) (r.(StackPtr))
    (r.(CrntShiftState)) (r.(CrntShiftDWord)) v (r.(Buf)) (r.(Stack)) (r.(Suffix))
    (r.(Prefix)) (r.(HashTable)) (r.(gif89)).
Definition set_Buf (v : list Z) (r : GifFilePrivateType) : GifFilePrivateType :=
  mkGifFilePrivateType (r.(FileState)) (r.(BitsPerPixel)) (r.(ClearCode)) (r.(EOFCode)) (r.(RunningCode))
    (r.(RunningBits)) (r.(MaxCode1)) (r.(LastCode)) (r.(CrntCode)) (r.(StackPtr))
    (r.(CrntShiftState)) (r.(CrntShiftDWord)) (r.(PixelCount)) v (r.(Stack))
    (r.(Suffix)) (r.(Prefix)) (r.(HashTable)) (r.(gif89)).
Definition set_Stack (v : list Z) (r : GifFilePrivateType) : GifFilePrivateType :=
  mkGifFilePrivateType (r.(FileState)) (r.(BitsPerPixel)) (r.(ClearCode)) (r.(EOFCode)) (r.(RunningCode))
    (r.(RunningBits)) (r.(MaxCode1)) (r.(LastCode)) (r.(CrntCode)) (r.(StackPtr))
    (r.(CrntShiftState)) (r.(CrntShiftDWord)) (r.(PixelCount)) (r.(Buf)) v (r.(Suffix))
    (r.(Prefix)) (r.(HashTable)) (r.(gif89)).
Definition set_Suffix (v : list Z) (r : GifFilePrivateType) : GifFilePrivateType :=
  mkGifFilePrivateType (r.(FileState)) (r.(BitsPerPixel)) (r.(ClearCode)) (r.(EOFCode)) (r.(RunningCode))
    (r.(RunningBits)) (r.(MaxCode1)) (r.(LastCode)) (r.(CrntCode)) (r.(StackPtr))
    (r.(CrntShiftState)) (r.(CrntShiftDWord)) (r.(PixelCount)) (r.(Buf)) (r.(Stack)) v
    (r.(Prefix)) (r.(HashTable)) (r.(gif89)).
Definition set_Prefix (v : list Z) (r : GifFilePrivateType) : GifFilePrivateType :=
  mkGifFilePrivateType (r.(FileState)) (r.(BitsPerPixel)) (r.(ClearCode)) (r.(EOFCode)) (r.(RunningCode))
    (r.(RunningBits)) (r.(MaxCode1)) (r.(LastCode)) (r.(CrntCode)) (r.(StackPtr))
    (r.(CrntShiftState)) (r.(CrntShiftDWord)) (r.(PixelCount)) (r.(Buf)) (r.(Stack))
    (r.(Suffix)) v (r.(HashTable)) (r.(gif89)).
Definition set_HashTable (v : list Z) (r : GifFilePrivateType) : GifFilePrivateType :=
  mkGifFilePrivateType (r.(FileState)) (r.(BitsPerPixel)) (r.(ClearCode)) (r.(EOFCode)) (r.(RunningCode))
    (r.(RunningBits)) (r.(MaxCode1)) (r.(LastCode)) (r.(CrntCode)) (r.(StackPtr))
    (r.(CrntShiftState)) (r.(CrntShiftDWord)) (r.(PixelCount)) (r.(Buf)) (r.(Stack))
    (r.(Suffix)) (r.(Prefix)) v (r.(gif89)).
Definition set_gif89 (v : bool) (r : GifFilePrivateType) : GifFilePrivateType :=
  mkGifFilePrivateType (r.(FileState)) (r.(BitsPerPixel)) (r.(ClearCode)) (r.(EOFCode)) (r.(RunningCode))
    (r.(RunningBits)) (r.(MaxCode1)) (r.(LastCode)) (r.(CrntCode)) (r.(StackPtr))
    (r.(CrntShiftState)) (r.(CrntShiftDWord)) (r.(PixelCount)) (r.(Buf)) (r.(Stack))
    (r.(Suffix)) (r.(Prefix)) (r.(HashTable)) v.

Record GifFileType : Type := mkGifFileType {
  SWidth : Z;
  SHeight : Z;
  SColorResolution : Z;
  SBackGroundColor : Z;
  AspectByte : Z;
  SColorMap : option ColorMapObject;
  ImageCount : Z;
  Image : GifImageDesc;
  SavedImages : option (list SavedImage);
  ExtensionBlockCount : Z;
  ExtensionBlocks : option (list ExtensionBlock);
  Error : Z;
  Priv : GifFilePrivateType; (** the structure behind Private *)
  In : list Z; (** bytes READ has still to deliver *)
  Out : list Z; (** bytes written so far *)
  Space : Z; (** bytes the output still accepts *)
  Alloc : list bool (** outcomes of the next allocations; success when used up *)
}.

Definition set_SWidth (v : Z) (r : GifFileType) : GifFileType :=
  mkGifFileType v (r.(SHeight)) (r.(SColorResolution)) (r.(SBackGroundColor)) (r.(AspectByte))
    (r.(SColorMap)) (r.(ImageCount)) (r.(Image)) (r.(SavedImages))
    (r.(ExtensionBlockCount)) (r.(ExtensionBlocks)) (r.(Error)) (r.(Priv)) (r.(In))
    (r.(Out)) (r.(Space)) (r.(Alloc)).
Definition set_SHeight (v : Z) (r : GifFileType) : GifFileType :=
  mkGifFileType (r.(SWidth)) v (r.(SColorResolution)) (r.(SBackGroundColor)) (r.(AspectByte))
    (r.(SColorMap)) (r.(ImageCount)) (r.(Image)) (r.(SavedImages))
    (r.(ExtensionBlockCount)) (r.(ExtensionBlocks)) (r.(Error)) (r.(Priv)) (r.(In))
    (r.(Out)) (r.(Space)) (r.(Alloc)).
Definition set_SColorResolution (v : Z) (r : GifFileType) : GifFileType :=
  mkGifFileType (r.(SWidth)) (r.(SHeight)) v (r.(SBackGroundColor)) (r.(AspectByte))
    (r.(SColorMap)) (r.(ImageCount)) (r.(Image)) (r.(SavedImages))
    (r.(ExtensionBlockCount)) (r.(ExtensionBlocks)) (r.(Error)) (r.(Priv)) (r.(In))
    (r.(Out)) (r.(Space)) (r.(Alloc)).
Definition set_SBackGroundColor (v : Z) (r : GifFileType) : GifFileType :=
  mkGifFileType (r.(SWidth)) (r.(SHeight)) (r.(SColorResolution)) v (r.(AspectByte))
    (r.(SColorMap)) (r.(ImageCount)) (r.(Image)) (r.(SavedImages))
    (r.(ExtensionBlockCount)) (r.(ExtensionBlocks)) (r.(Error)) (r.(Priv)) (r.(In))
    (r.(Out)) (r.(Space)) (r.(Alloc)).
Definition set_AspectByte (v : Z) (r : GifFileType) : GifFileType :=
  mkGifFileType (r.(SWidth)) (r.(SHeight)) (r.(SColorResolution)) (r.(SBackGroundColor)) v
    (r.(SColorMap)) (r.(ImageCount)) (r.(Image)) (r.(SavedImages))
    (r.(ExtensionBlockCount)) (r.(ExtensionBlocks)) (r.(Error)) (r.(Priv)) (r.(In))
    (r.(Out)) (r.(Space)) (r.(Alloc)).
Definition set_SColorMap (v : option ColorMapObject) (r : GifFileType) : GifFileType :=
  mkGifFileType (r.(SWidth)) (r.(SHeight)) (r.(SColorResolution)) (r.(SBackGroundColor))
    (r.(AspectByte)) v (r.(ImageCount)) (r.(Image)) (r.(SavedImages))
    (r.(ExtensionBlockCount)) (r.(ExtensionBlocks)) (r.(Error)) (r.(Priv)) (r.(In))
    (r.(Out)) (r.(Space)) (r.(Alloc)).
Definition set_ImageCount (v : Z) (r : GifFileType) : GifFileType :=
  mkGifFileType (r.(SWidth)) (r.(SHeight)) (r.(SColorResolution)) (r.(SBackGroundColor))
    (r.(AspectByte)) (r.(SColorMap)) v (r.(Image)) (r.(SavedImages))
    (r.(ExtensionBlockCount)) (r.(ExtensionBlocks)) (r.(Error)) (r.(Priv)) (r.(In))
    (r.(Out)) (r.(Space)) (r.(Alloc)).
Definition set_Image (v : GifImageDesc) (r : GifFileType) : GifFileType :=
  mkGifFileType (r.(SWidth)) (r.(SHeight)) (r.(SColorResolution)) (r.(SBackGroundColor))
    (r.(AspectByte)) (r.(SColorMap)) (r.(ImageCount)) v (r.(SavedImages))
    (r.(ExtensionBlockCount)) (r.(ExtensionBlocks)) (r.(Error)) (r.(Priv)) (r.(In))
    (r.(Out)) (r.(Space)) (r.(Alloc)).
Definition set_SavedImages (v : option (list SavedImage)) (r : GifFileType) : GifFileType :=
  mkGifFileType (r.(SWidth)) (r.(SHeight)) (r.(SColorResolution)) (r.(SBackGroundColor))
    (r.(AspectByte)) (r.(SColorMap)) (r.(ImageCount)) (r.(Image)) v
    (r.(ExtensionBlockCount)) (r.(ExtensionBlocks)) (r.(Error)) (r.(Priv)) (r.(In))
    (r.(Out)) (r.(Space)) (r.(Alloc)).
Definition set_ExtensionBlockCount (v : Z) (r : GifFileType) : GifFileType :=
  mkGifFileType (r.(SWidth)) (r.(SHeight)) (r.(SColorResolution)) (r.(SBackGroundColor))
    (r.(AspectByte)) (r.(SColorMap)) (r.(ImageCount)) (r.(Image)) (r.(SavedImages)) v
    (r.(ExtensionBlocks)) (r.(Error)) (r.(Priv)) (r.(In)) (r.(Out)) (r.(Space))
    (r.(Alloc)).
Definition set_ExtensionBlocks (v : option (list ExtensionBlock)) (r : GifFileType) : GifFileType :=
  mkGifFileType (r.(SWidth)) (r.(SHeight)) (r.(SColorResolution)) (r.(SBackGroundColor))
    (r.(AspectByte)) (r.(SColorMap)) (r.(ImageCount)) (r.(Image)) (r.(SavedImages))
    (r.(ExtensionBlockCount)) v (r.(Error)) (r.(Priv)) (r.(In)) (r.(Out)) (r.(Space))
    (r.(Alloc)).
Definition set_Error (v : Z) (r : GifFileType) : GifFileType :=
  mkGifFileType (r.(SWidth)) (r.(SHeight)) (r.(SColorResolution)) (r.(SBackGroundColor))
    (r.(AspectByte)) (r.(SColorMap)) (r.(ImageCount)) (r.(Image)) (r.(SavedImages))
    (r.(ExtensionBlockCount)) (r.(ExtensionBlocks)) v (r.(Priv)) (r.(In)) (r.(Out))
    (r.(Space)) (r.(Alloc)).
Definition set_Priv (v : GifFilePrivateType) (r : GifFileType) : GifFileType :=
  mkGifFileType (r.(SWidth)) (r.(SHeight)) (r.(SColorResolution)) (r.(SBackGroundColor))
    (r.(AspectByte)) (r.(SColorMap)) (r.(ImageCount)) (r.(Image)) (r.(SavedImages))
    (r.(ExtensionBlockCount)) (r.(ExtensionBlocks)) (r.(Error)) v (r.(In)) (r.(Out))
    (r.(Space)) (r.(Alloc)).
Definition set_In (v : list Z) (r : GifFileType) : GifFileType :=
  mkGifFileType (r.(SWidth)) (r.(SHeight)) (r.(SColorResolution)) (r.(SBackGroundColor))
    (r.(AspectByte)) (r.(SColorMap)) (r.(ImageCount)) (r.(Image)) (r.(SavedImages))
    (r.(ExtensionBlockCount)) (r.(ExtensionBlocks)) (r.(Error)) (r.(Priv)) v (r.(Out))
    (r.(Space)) (r.(Alloc)).
Definition set_Out (v : list Z) (r : GifFileType) : GifFileType :=
  mkGifFileType (r.(SWidth)) (r.(SHeight)) (r.(SColorResolution)) (r.(SBackGroundColor))
    (r.(AspectByte)) (r.(SColorMap)) (r.(ImageCount)) (r.(Image)) (r.(SavedImages))
    (r.(ExtensionBlockCount)) (r.(ExtensionBlocks)) (r.(Error)) (r.(Priv)) (r.(In)) v
    (r.(Space)) (r.(Alloc)).
Definition set_Space (v : Z) (r : GifFileType) : GifFileType :=
  mkGifFileType (r.(SWidth)) (r.(SHeight)) (r.(SColorResolution)) (r.(SBackGroundColor))
    (r.(AspectByte)) (r.(SColorMap)) (r.(ImageCount)) (r.(Image)) (r.(SavedImages))
    (r.(ExtensionBlockCount)) (r.(ExtensionBlocks)) (r.(Error)) (r.(Priv)) (r.(In))
    (r.(Out)) v (r.(Alloc)).
Definition set_Alloc (v : list bool) (r : GifFileType) : GifFileType :=
  mkGifFileType (r.(SWidth)) (r.(SHeight)) (r.(SColorResolution)) (r.(SBackGroundColor))
    (r.(AspectByte)) (r.(SColorMap)) (r.(ImageCount)) (r.(Image)) (r.(SavedImages))
    (r.(ExtensionBlockCount)) (r.(ExtensionBlocks)) (r.(Error)) (r.(Priv)) (r.(In))
    (r.(Out)) (r.(Space)) v.

(** [calloc]ed structures. *)
Definition zero_color := mkGifColorType 0 0 0.
Definition zero_desc := mkGifImageDesc 0 0 0 0 false None.
Definition zero_ext := mkExtensionBlock 0 None 0.
Definition zero_saved := mkSavedImage zero_desc None 0 None.

Definition HT_SIZE := 8192.

Definition zero_private : GifFilePrivateType :=
  mkGifFilePrivateType 0 0 0 0 0 0 0 0 0 0 0 0 0
    (replicate 256 0) (replicate (Z.to_nat LZ_MAX_CODE) 0)
    (replicate (Z.to_nat (LZ_MAX_CODE + 1)) 0) (replicate (Z.to_nat (LZ_MAX_CODE + 1)) 0)
    (replicate (Z.to_nat HT_SIZE) 0) false.

(** ** State access *)

Abbreviation GifM := (M GifFileType).

Definition upd_priv (f : GifFilePrivateType -> GifFilePrivateType) (g : GifFileType) : GifFileType :=
  set_Priv (f g.(Priv)) g.

Definition upd_Image (f : GifImageDesc -> GifImageDesc) (g : GifFileType) : GifFileType :=
  set_Image (f g.(Image)) g.

(** [GifFile->Error = e; return GIF_ERROR;] *)
Definition err {A} (e : Z) : GifM A := (modify (set_Error e) ;;! fail)%c.

Definition IS_READABLE (p : GifFilePrivateType) : bool := test p.(FileState) FILE_STATE_READ.
Definition IS_WRITEABLE (p : GifFilePrivateType) : bool := test p.(FileState) FILE_STATE_WRITE.

(** ** The allocator

    Routines that allocate are written against this interface: the state knows
    whether the next allocation succeeds. *)

Class Allocator (S : Type) : Type := {
  next_alloc : S -> bool;
  drop_alloc : S -> S
}.

(** [plenty s]: no allocation fails from [s] on. *)
Class AllocatorLaws (S : Type) `{Allocator S} : Type := {
  plenty : S -> Prop;
  plenty_next : forall s, plenty s -> next_alloc s = true;
  plenty_drop : forall s, plenty s -> plenty (drop_alloc s)
}.

Definition malloc {S} `{Allocator S} : M S bool :=
  fun s => (Returns (next_alloc s), drop_alloc s).

#[export] Instance Allocator_list : Allocator (list bool) := {
  next_alloc l := match l with b :: _ => b | [] => true end;
  drop_alloc l := match l with _ :: l => l | [] => [] end
}.

#[export] Instance AllocatorLaws_list : AllocatorLaws (list bool).
Proof.
  refine {| plenty := Forall (fun b => b = true) |}.
  - by intros ? [|].
  - intros ? [|]; [constructor|done].
Defined.

#[export] Instance Allocator_GifFileType : Allocator GifFileType := {
  next_alloc g := next_alloc g.(Alloc);
  drop_alloc g := set_Alloc (drop_alloc g.(Alloc)) g
}.

#[export] Instance AllocatorLaws_GifFileType : AllocatorLaws GifFileType.
Proof.
  refine {| plenty g := plenty g.(Alloc) |}.
  - intros s Hs. exact (plenty_next s.(Alloc) Hs).
  - intros s Hs. exact (plenty_drop s.(Alloc) Hs).
Defined.

Lemma wp_malloc {S} `{AllocatorLaws S} (Q : bool -> S -> Prop) E s :
  Q (next_alloc s) (drop_alloc s) -> wp malloc Q E s.
Proof. done. Qed.
