(* ===== verification/GifHash.v ===== *)
(** * giflib: the hash table of the LZW encoder (gif_hash.c, gif_hash.h)

    An open-addressing table of 8192 words, each holding a 20-bit key and a
    12-bit code, the word of all ones being an empty slot.  The definitions
    follow the C loops; [table] is the abstraction relation to a finite map,
    and the theorems say that clear, insert and exists refine the operations
    of that map and that their probe loops end. *)

From stdpp Require Import base numbers list gmap.
From Stdlib Require Import Lia ZArith.
From S2P Require Import Prelude GifTypes.

#[local] Open Scope Z_scope.

Definition HT_KEY_MASK := 0x1FFF.
Definition HT_MAX_KEY := 8191.

Definition HT_GET_KEY (l : Z) : Z := Z.shiftr l 12.
Definition HT_GET_CODE (l : Z) : Z := Z.land l 0x0FFF.
Definition HT_PUT_KEY (l : Z) : Z := u32 (Z.shiftl l 12).
Definition HT_PUT_CODE (l : Z) : Z := Z.land l 0x0FFF.

(** The key of an empty slot. *)
Definition HT_NO_KEY := 0xFFFFF.

Definition KeyItem (Item : Z) : Z :=
  Z.land (Z.lxor (Z.shiftr Item 12) Item) HT_KEY_MASK.

(** [memset(HTable, 0xFF, HT_SIZE * sizeof(uint32_t))] *)
Definition _ClearHashTable : list Z := replicate (Z.to_nat HT_SIZE) 0xFFFFFFFF.

(** [_InitHashTable]: a cleared table, or none when [malloc] fails. *)
Definition _InitHashTable {S} `{Allocator S} : M S (option (list Z)) :=
  (let! ok := malloc in
   ret (if ok then Some _ClearHashTable else None))%c.

(** The loop of [_InsertHashTable]: the first empty slot from [HKey] on. *)
Fixpoint insert_probe (fuel : nat) (HTable : list Z) (HKey : Z) : option Z :=
  match fuel with
  | O => None
  | S fuel =>
      match aget HTable HKey with
      | None => None
      | Some w =>
          if HT_GET_KEY w =? HT_NO_KEY then Some HKey
          else insert_probe fuel HTable (Z.land (HKey + 1) HT_KEY_MASK)
      end
  end.

Definition _InsertHashTable (HTable : list Z) (Key Code : Z) : option (list Z) :=
  match insert_probe (Z.to_nat HT_SIZE) HTable (KeyItem Key) with
  | None => None
  | Some HKey => aset HTable HKey (Z.lor (HT_PUT_KEY Key) (HT_PUT_CODE Code))
  end.

(** The loop of [_ExistsHashTable]. *)
Fixpoint exists_probe (fuel : nat) (HTable : list Z) (Key HKey : Z) : option Z :=
  match fuel with
  | O => None
  | S fuel =>
      match aget HTable HKey with
      | None => None
      | Some w =>
          let HTKey := HT_GET_KEY w in
          if HTKey =? HT_NO_KEY then Some (-1)
          else if Key =? HTKey then Some (HT_GET_CODE w)
          else exists_probe fuel HTable Key (Z.land (HKey + 1) HT_KEY_MASK)
      end
  end.

Definition _ExistsHashTable (HTable : list Z) (Key : Z) : option Z :=
  exists_probe (Z.to_nat HT_SIZE) HTable Key (KeyItem Key).

(** ** Arithmetic of slots and words *)

(** The slot reached after [n] steps from [h]. *)
Definition pos (h n : Z) : Z := (h + n) mod HT_SIZE.

Lemma land_key_mask z : Z.land z HT_KEY_MASK = z mod HT_SIZE.
Proof. change HT_KEY_MASK with (Z.ones 13). by rewrite Z.land_ones. Qed.

Lemma KeyItem_range k : 0 <= KeyItem k < HT_SIZE.
Proof. unfold KeyItem. rewrite land_key_mask. apply Z.mod_pos_bound. done. Qed.

Lemma pos_range h n : 0 <= pos h n < HT_SIZE.
Proof. apply Z.mod_pos_bound. done. Qed.

Lemma pos_0 h : 0 <= h < HT_SIZE -> pos h 0 = h.
Proof. intros. unfold pos. rewrite Z.add_0_r. by apply Z.mod_small. Qed.

Lemma pos_succ h n : Z.land (pos h n + 1) HT_KEY_MASK = pos h (n + 1).
Proof.
  rewrite land_key_mask. unfold pos. rewrite Zplus_mod_idemp_l. f_equal. lia.
Qed.

Lemma pos_surj h e : 0 <= h < HT_SIZE -> 0 <= e < HT_SIZE ->
  exists n, 0 <= n < HT_SIZE /\ pos h n = e.
Proof.
  unfold pos, HT_SIZE. intros. exists ((e - h) mod 8192).
  split; [apply Z.mod_pos_bound; lia|].
  rewrite Zplus_mod_idemp_r. replace (h + (e - h)) with e by lia.
  by apply Z.mod_small.
Qed.

Definition word (k c : Z) : Z := Z.lor (HT_PUT_KEY k) (HT_PUT_CODE c).

Lemma HT_GET_KEY_word k c : 0 <= k < 2 ^ 20 -> HT_GET_KEY (word k c) = k.
Proof.
  intros Hk. unfold HT_GET_KEY, word, HT_PUT_KEY, HT_PUT_CODE.
  rewrite u32_small.
  2:{ rewrite Z.shiftl_mul_pow2 by lia. change (2 ^ 12) with 4096. lia. }
  rewrite Z.shiftr_lor, Z.shiftr_shiftl_l by lia. rewrite Z.shiftl_0_r.
  change 0x0FFF with (Z.ones 12). rewrite Z.land_ones by lia.
  rewrite (Z.shiftr_div_pow2 (c mod _)) by lia.
  rewrite Z.div_small; [apply Z.lor_0_r|]. apply Z.mod_pos_bound. lia.
Qed.

Lemma HT_GET_CODE_word k c : 0 <= k < 2 ^ 20 -> HT_GET_CODE (word k c) = Z.land c 0xFFF.
Proof.
  intros Hk. unfold HT_GET_CODE, word, HT_PUT_KEY, HT_PUT_CODE.
  rewrite u32_small.
  2:{ rewrite Z.shiftl_mul_pow2 by lia. change (2 ^ 12) with 4096. lia. }
  rewrite Z.land_lor_distr_l. rewrite <- Z.land_assoc, Z.land_diag.
  change 0x0FFF with (Z.ones 12). rewrite (Z.land_ones (Z.shiftl k 12)) by lia.
  rewrite Z.shiftl_mul_pow2, Z.mod_mul by lia. apply Z.lor_0_l.
Qed.

(** ** The abstraction relation *)

Definition slot_key (t : list Z) (i : Z) : option Z := HT_GET_KEY <$> aget t i.

Definition occupied (w : Z) : Prop := HT_GET_KEY w <> HT_NO_KEY.

#[export] Instance occupied_dec w : Decision (occupied w).
Proof. unfold occupied. apply _. Defined.

Record table (t : list Z) (m : gmap Z Z) : Prop := {
  table_length : Z.of_nat (length t) = HT_SIZE;
  table_sound : forall i w, aget t i = Some w -> occupied w ->
    m !! HT_GET_KEY w = Some (HT_GET_CODE w);
  table_complete : forall k c, m !! k = Some c ->
    exists n w, 0 <= n < HT_SIZE /\ aget t (pos (KeyItem k) n) = Some w /\
      HT_GET_KEY w = k /\ k <> HT_NO_KEY /\
      forall j v, 0 <= j < n -> aget t (pos (KeyItem k) j) = Some v -> occupied v;
  table_load : (length (filter occupied t) <= size m)%nat
}.

Lemma table_slot t m h n : table t m -> exists w, aget t (pos h n) = Some w.
Proof. intros Ht. apply aget_Some. rewrite (table_length _ _ Ht). apply pos_range. Qed.

(** Below the full load some slot is empty. *)
Lemma table_has_empty t m :
  table t m -> Z.of_nat (size m) < HT_SIZE ->
  exists e w, aget t e = Some w /\ HT_GET_KEY w = HT_NO_KEY /\ 0 <= e < HT_SIZE.
Proof.
  intros Ht Hs.
  destruct (decide (Forall occupied t)) as [Hall|Hn].
  - pose proof (table_load _ _ Ht) as Hl. pose proof (table_length _ _ Ht).
    rewrite filter_all in Hl by done. lia.
  - apply not_Forall_Exists in Hn; [|intros x; apply (occupied_dec x)].
    apply Exists_exists in Hn as (w & Hin & Hw).
    apply list_elem_of_lookup in Hin as [i Hi].
    exists (Z.of_nat i), w. unfold aget. rewrite decide_True, Nat2Z.id by lia.
    split; [done|]. split; [unfold occupied in Hw; simpl in Hw; lia|].
    apply lookup_lt_Some in Hi. pose proof (table_length _ _ Ht). lia.
Qed.

(** The first empty slot on the probe path of [h]. *)
Lemma first_empty t m h :
  table t m -> Z.of_nat (size m) < HT_SIZE -> 0 <= h < HT_SIZE ->
  exists n w, 0 <= n < HT_SIZE /\ aget t (pos h n) = Some w /\ HT_GET_KEY w = HT_NO_KEY /\
    forall j v, 0 <= j < n -> aget t (pos h j) = Some v -> occupied v.
Proof.
  intros Ht Hs Hh.
  destruct (table_has_empty _ _ Ht Hs) as (e & w & Hw & Hk & He).
  destruct (pos_surj h e Hh He) as (n & Hn & <-).
  revert w Hw Hk Hn. clear He. intros w Hw Hk Hn.
  assert (forall p : nat, Z.of_nat p <= n ->
    (exists n w, 0 <= n < HT_SIZE /\ aget t (pos h n) = Some w /\ HT_GET_KEY w = HT_NO_KEY /\
       forall j v, 0 <= j < n -> aget t (pos h j) = Some v -> occupied v) \/
    (forall j v, 0 <= j < Z.of_nat p -> aget t (pos h j) = Some v -> occupied v)) as Hp.
  { induction p as [|p IH]; intros Hp; [right; lia|].
    destruct IH as [IH|IH]; [lia|by left|].
    destruct (table_slot _ _ h (Z.of_nat p) Ht) as [x Hx].
    destruct (decide (occupied x)) as [Ho|Ho].
    - right. intros j v Hj Hv. destruct (decide (j = Z.of_nat p)) as [->|]; [congruence|].
      apply (IH j); [lia|done].
    - left. exists (Z.of_nat p), x. repeat split; try lia; try done.
      unfold occupied in Ho. lia. }
  destruct (Hp (Z.to_nat n)) as [?|Hj]; [lia|done|].
  exists n, w. repeat split; try lia; try done. intros j v ? ?. apply (Hj j); [lia|done].
Qed.

(** ** The probe loops *)

Lemma insert_probe_spec t h n w fuel j :
  aget t (pos h n) = Some w -> HT_GET_KEY w = HT_NO_KEY ->
  (forall j v, 0 <= j < n -> aget t (pos h j) = Some v -> occupied v) ->
  Z.of_nat (length t) = HT_SIZE ->
  0 <= j <= n -> n - j < Z.of_nat fuel ->
  insert_probe fuel t (pos h j) = Some (pos h n).
Proof.
  intros Hw Hk Hp Hl. revert j. induction fuel as [|fuel IH]; intros j Hj Hf; [lia|].
  cbn [insert_probe]. destruct (decide (j = n)) as [->|Hne].
  - rewrite Hw, Hk. by rewrite Z.eqb_refl.
  - destruct (aget_Some t (pos h j)) as [v Hv]; [rewrite Hl; apply pos_range|].
    rewrite Hv. assert (occupied v) as Ho by (apply (Hp j); [lia|done]).
    unfold occupied in Ho. apply Z.eqb_neq in Ho. rewrite Ho, pos_succ. apply IH; lia.
Qed.

Lemma exists_probe_spec t k n w r fuel j :
  aget t (pos (KeyItem k) n) = Some w ->
  ((HT_GET_KEY w = HT_NO_KEY /\ r = -1) \/
   (occupied w /\ HT_GET_KEY w = k /\ r = HT_GET_CODE w)) ->
  (forall j v, 0 <= j < n -> aget t (pos (KeyItem k) j) = Some v -> occupied v) ->
  (forall i v, aget t i = Some v -> occupied v -> HT_GET_KEY v = k -> HT_GET_CODE v = r) ->
  Z.of_nat (length t) = HT_SIZE ->
  0 <= j <= n -> n - j < Z.of_nat fuel ->
  exists_probe fuel t k (pos (KeyItem k) j) = Some r.
Proof.
  intros Hw Hr Hp Hu Hl. revert j. induction fuel as [|fuel IH]; intros j Hj Hf; [lia|].
  cbn [exists_probe].
  destruct (aget_Some t (pos (KeyItem k) j)) as [v Hv]; [rewrite Hl; apply pos_range|].
  rewrite Hv. destruct (decide (occupied v)) as [Ho|Ho].
  - pose proof Ho as Ho'. unfold occupied in Ho'. apply Z.eqb_neq in Ho'. rewrite Ho'.
    destruct (Z.eqb_spec k (HT_GET_KEY v)) as [He|He].
    + f_equal. by eapply Hu.
    + rewrite pos_succ. apply IH; [|lia]. destruct (decide (j = n)) as [->|]; [|lia].
      assert (v = w) as -> by congruence. destruct Hr as [[? _]|(_ & ? & _)]; [done|congruence].
  - assert (j = n) as ->.
    { destruct (decide (j = n)); [done|]. exfalso. apply Ho, (Hp j); [lia|done]. }
    assert (v = w) as -> by congruence.
    destruct Hr as [[-> ->]|(? & _)]; [by rewrite Z.eqb_refl|done].
Qed.

(** ** The operations refine those of a finite map *)

Lemma table_clear : table _ClearHashTable ∅.
Proof.
  assert (forall i w, aget _ClearHashTable i = Some w -> HT_GET_KEY w = HT_NO_KEY) as Hc.
  { intros i w. unfold aget, _ClearHashTable. destruct (decide _); [|done].
    intros Hl%lookup_replicate_1. destruct Hl as [-> _]. done. }
  constructor.
  - done.
  - intros i w Hi Ho. destruct Ho. by eapply Hc.
  - intros k c. by rewrite lookup_empty.
  - rewrite map_size_empty. unfold _ClearHashTable.
    induction (Z.to_nat HT_SIZE) as [|n IH]; [done|]. cbn [replicate].
    rewrite filter_cons_False; [done|]. intros Ho. by apply Ho.
Qed.

Lemma table_exists t m k :
  table t m -> Z.of_nat (size m) < HT_SIZE -> k <> HT_NO_KEY ->
  _ExistsHashTable t k = Some (default (-1) (m !! k)).
Proof.
  intros Ht Hs Hk. unfold _ExistsHashTable.
  pose proof (KeyItem_range k) as Hh. rewrite <- (pos_0 (KeyItem k) Hh).
  pose proof (table_length _ _ Ht) as Hl.
  destruct (m !! k) as [c|] eqn:Hm; cbn [default].
  - destruct (table_complete _ _ Ht k c Hm) as (n & w & Hn & Hw & Hwk & _ & Hp).
    assert (occupied w) as Ho by (unfold occupied; congruence).
    pose proof (table_sound _ _ Ht _ _ Hw Ho) as Hsd. rewrite Hwk, Hm in Hsd. injection Hsd as ->.
    apply (exists_probe_spec t k n w); try done; [by right| |lia|change (Z.of_nat (Z.to_nat HT_SIZE)) with HT_SIZE; lia].
    intros i v Hv Hov Hkv. pose proof (table_sound _ _ Ht _ _ Hv Hov) as Hsd.
    rewrite Hkv, Hm in Hsd. by injection Hsd.
  - destruct (first_empty t m (KeyItem k) Ht Hs Hh) as (n & w & Hn & Hw & Hwk & Hp).
    apply (exists_probe_spec t k n w); try done; [by left| |lia|change (Z.of_nat (Z.to_nat HT_SIZE)) with HT_SIZE; lia].
    intros i v Hv Hov Hkv. pose proof (table_sound _ _ Ht _ _ Hv Hov) as Hsd. congruence.
Qed.

Lemma filter_insert_length (t : list Z) i w v :
  t !! i = Some w -> ~ occupied w ->
  (length (filter occupied (<[i := v]> t)) <= S (length (filter occupied t)))%nat.
Proof.
  revert i. induction t as [|x t IH]; intros [|i] Hi Hw; try done.
  - change (<[O := v]> (x :: t)) with (v :: t). injection Hi as ->.
    rewrite (filter_cons_False _ w) by done.
    rewrite filter_cons. destruct (decide _); cbn [length]; lia.
  - change (<[S i := v]> (x :: t)) with (x :: <[i := v]> t).
    specialize (IH i Hi Hw).
    rewrite !filter_cons. destruct (decide _); cbn [length]; lia.
Qed.

Lemma table_insert t m k c :
  table t m -> Z.of_nat (size m) < HT_SIZE -> 0 <= k < HT_NO_KEY -> m !! k = None ->
  exists t', _InsertHashTable t k c = Some t' /\ table t' (<[k := Z.land c 0xFFF]> m).
Proof.
  intros Ht Hs Hk Hm. pose proof (KeyItem_range k) as Hh.
  pose proof (table_length _ _ Ht) as Hl.
  destruct (first_empty t m (KeyItem k) Ht Hs Hh) as (n & w & Hn & Hw & Hwk & Hp).
  assert (0 <= k < 2 ^ 20) as Hk20 by (unfold HT_NO_KEY in Hk; lia).
  unfold _InsertHashTable. rewrite <- (pos_0 (KeyItem k) Hh).
  rewrite (insert_probe_spec t (KeyItem k) n w _ 0); try done;
    [|lia|change (Z.of_nat (Z.to_nat HT_SIZE)) with HT_SIZE; lia].
  fold (word k c).
  assert (0 <= pos (KeyItem k) n < Z.of_nat (length t)) as Hpr by (rewrite Hl; apply pos_range).
  rewrite (aset_Some t _ (word k c) Hpr). eexists. split; [done|].
  set (t' := <[_ := _]> t).
  assert (aset t (pos (KeyItem k) n) (word k c) = Some t') as Hset by by apply aset_Some.
  assert (occupied (word k c)) as Hoc.
  { unfold occupied. rewrite HT_GET_KEY_word by done. lia. }
  constructor.
  - by rewrite (aset_length _ _ _ _ Hset).
  - intros i v Hi Ho. destruct (decide (pos (KeyItem k) n = i)) as [<-|Hne].
    + rewrite (aget_aset_eq _ _ _ _ Hset) in Hi. injection Hi as <-.
      rewrite HT_GET_KEY_word, HT_GET_CODE_word by done. apply lookup_insert_eq.
    + rewrite (aget_aset_ne _ _ _ _ _ Hset Hne) in Hi.
      pose proof (table_sound _ _ Ht _ _ Hi Ho) as Hsd.
      rewrite lookup_insert_ne; [done|congruence].
  - intros k' c' Hk'. destruct (decide (k' = k)) as [->|Hne].
    + exists n, (word k c). rewrite HT_GET_KEY_word by done. repeat split; try lia.
      * apply (aget_aset_eq _ _ _ _ Hset).
      * intros j v Hj Hv. destruct (decide (pos (KeyItem k) n = pos (KeyItem k) j)) as [He|He].
        { rewrite <- He, (aget_aset_eq _ _ _ _ Hset) in Hv. congruence. }
        rewrite (aget_aset_ne _ _ _ _ _ Hset He) in Hv. by apply (Hp j).
    + rewrite lookup_insert_ne in Hk' by done.
      destruct (table_complete _ _ Ht k' c' Hk') as (n' & w' & Hn' & Hw' & Hwk' & Hnk & Hp').
      exists n', w'. assert (occupied w') by (unfold occupied; congruence).
      assert (forall j, aget t (pos (KeyItem k') j) <> Some w -> pos (KeyItem k) n <> pos (KeyItem k') j) as Hd
        by (intros j Hj He; apply Hj; congruence).
      repeat split; try done; try lia.
      * rewrite (aget_aset_ne _ _ _ _ _ Hset); [done|]. apply Hd. rewrite Hw'. congruence.
      * intros j v Hj Hv.
        destruct (decide (pos (KeyItem k) n = pos (KeyItem k') j)) as [He|He].
        { rewrite <- He, (aget_aset_eq _ _ _ _ Hset) in Hv. congruence. }
        rewrite (aget_aset_ne _ _ _ _ _ Hset He) in Hv. by apply (Hp' j).
  - rewrite map_size_insert_None by done. unfold t'.
    etransitivity; [apply (filter_insert_length t _ w)|].
    + unfold aget in Hw. destruct (decide _); [done|lia].
    + unfold occupied. tauto.
    + pose proof (table_load _ _ Ht). lia.
Qed.

(** ** The table as the encoder uses it *)

(** Insertions in order, as the encoder makes them between two clears. *)
Fixpoint insert_all (t : list Z) (l : list (Z * Z)) : option (list Z) :=
  match l with
  | [] => Some t
  | (k, c) :: l =>
      match _InsertHashTable t k c with
      | Some t' => insert_all t' l
      | None => None
      end
  end.

Lemma insert_all_table l t m :
  table t m -> NoDup l.*1 -> Forall (fun kc => 0 <= kc.1 < HT_NO_KEY /\ m !! kc.1 = None) l ->
  Z.of_nat (size m + length l) < HT_SIZE ->
  exists t' m', insert_all t l = Some t' /\ table t' m' /\
    Z.of_nat (size m') < HT_SIZE /\
    forall k, m' !! k = match (list_to_map l : gmap Z Z) !! k with
                        | Some c => Some (Z.land c 0xFFF)
                        | None => m !! k
                        end.
Proof.
  revert t m. induction l as [|[k c] l IH]; intros t m Ht Hnd Hf Hs; cbn [insert_all].
  - exists t, m. split; [done|]. split; [done|]. cbn [length] in Hs. split; [lia|].
    intros k. cbn. by rewrite lookup_empty.
  - apply Forall_cons in Hf as [[Hk Hm] Hf]. cbn in Hk, Hm. cbn [fmap list_fmap] in Hnd.
    apply NoDup_cons in Hnd as [Hni Hnd]. cbn [length] in Hs.
    destruct (table_insert t m k c Ht ltac:(lia) Hk Hm) as (t1 & -> & Ht1).
    destruct (IH t1 _ Ht1 Hnd) as (t' & m' & -> & Ht' & Hs' & Hl).
    + apply Forall_forall. intros [k' c'] Hin. rewrite Forall_forall in Hf.
      destruct (Hf _ Hin) as [? ?]. split; [done|]. cbn in *. rewrite lookup_insert_ne; [done|].
      intros ->. apply Hni. apply list_elem_of_fmap. by exists (k', c').
    + rewrite map_size_insert_None by done. revert Hs. generalize (size m) (length l). lia.
    + exists t', m'. do 3 (split; [done|]). intros k'. rewrite Hl. cbn [list_to_map foldr].
      destruct (decide (k' = k)) as [->|Hne].
      * replace ((list_to_map l : gmap Z Z) !! k) with (@None Z)
          by (symmetry; by apply not_elem_of_list_to_map_1).
        cbn. by rewrite !lookup_insert_eq.
      * cbn. by rewrite !lookup_insert_ne by done.
Qed.

(** C7. After any sequence of fewer than 8192 insertions of distinct keys into a cleared
    table, insertion has not run out of slots and looking any key up ends and gives the low
    12 bits of the code inserted for it, or -1 for a key that was not inserted: the
    open-addressing table implements a finite map. *)
Theorem hash_table_refines_map (l : list (Z * Z)) :
  NoDup l.*1 -> Forall (fun kc => 0 <= kc.1 < HT_NO_KEY) l -> Z.of_nat (length l) < HT_SIZE ->
  exists t, insert_all _ClearHashTable l = Some t /\
    forall k, k <> HT_NO_KEY ->
      _ExistsHashTable t k =
        Some (match (list_to_map l : gmap Z Z) !! k with
              | Some c => Z.land c 0xFFF
              | None => -1
              end).
Proof.
  intros Hnd Hf Hl.
  destruct (insert_all_table l _ ∅ table_clear Hnd) as (t & m & Hi & Ht & Hs & Hm).
  - eapply Forall_impl; [exact Hf|]. intros x Hx. split; [exact Hx|apply lookup_empty].
  - rewrite map_size_empty. lia.
  - exists t. split; [done|]. intros k Hk. rewrite (table_exists _ _ _ Ht Hs Hk), Hm.
    by destruct (list_to_map l !! k).
Qed.

Lemma hash_table_refines_map_witness :
  exists t, insert_all _ClearHashTable [(0x101, 300); (0x102, 301); (0x2101, 302)] = Some t /\
    _ExistsHashTable t 0x102 = Some 301 /\ _ExistsHashTable t 0x103 = Some (-1).
Proof.
  destruct (hash_table_refines_map [(0x101, 300); (0x102, 301); (0x2101, 302)]) as (t & Hi & Hk).
  - apply (bool_decide_unpack _). vm_compute. exact I.
  - apply (bool_decide_unpack _). vm_compute. exact I.
  - reflexivity.
  - exists t. split; [exact Hi|]. split; rewrite Hk; [reflexivity|discriminate|reflexivity|discriminate].
Defined.
