(* ===== verification/GifAlloc.v ===== *)
(** * giflib: construction and release of in-core structures (gifalloc.c)

    Colour maps, their union, colour translation, extension blocks and saved
    images.  Routines that allocate run in the monad over any state with an
    [Allocator]; those that take a [GifFileType *] run over that record. *)

From stdpp Require Import base numbers list list_numbers.
From Stdlib Require Import Lia ZArith.
From S2P Require Import Prelude GifTypes.

#[local] Open Scope Z_scope.
#[local] Open Scope c_scope.

(** [for (i = 1; i <= 8; i++) if ((1 << i) >= n) break; return i;] *)
Definition GifBitSize (n : Z) : Z :=
  (fix go (ks : list Z) : Z :=
     match ks with
     | [] => 9
     | i :: ks => if n <=? Z.shiftl 1 i then i else go ks
     end) [1; 2; 3; 4; 5; 6; 7; 8].

Section Alloc.
Context {S : Type} `{Allocator S}.

Definition GifMakeMapObject (ColorCount : Z) (ColorMap : option (list GifColorType)) :
    M S (option ColorMapObject) :=
  if negb (ColorCount =? Z.shiftl 1 (GifBitSize ColorCount)) then ret None
  else
    let! ok := malloc in
    if negb ok then ret None
    else
      let! ok := malloc in
      if negb ok then ret None
      else
        let n := Z.to_nat ColorCount in
        let! colors :=
          match ColorMap with
          | None => ret (replicate n zero_color)
          | Some cs => if (length cs <? n)%nat then stuck else ret (take n cs)
          end in
        ret (Some (mkColorMapObject ColorCount (GifBitSize ColorCount) false colors)).

(** *** GifUnionColorMap *)

Definition is_black (c : GifColorType) : bool :=
  (c.(Red) =? 0) && (c.(Green) =? 0) && (c.(Blue) =? 0).

(** The copy of [ColorIn1] into the new map. *)
Definition copy_colors (from : list GifColorType) (n : Z) (to : list GifColorType) :
    M S (list GifColorType) :=
  foldM (fun to i =>
           let! c := of_option (aget from i) in
           of_option (aset to i c)) (seqZ 0 n) to.

(** [while (ColorIn1->Colors[CrntSlot - 1] is {0, 0, 0}) CrntSlot--;] *)
Definition back_down (colors : list GifColorType) (CrntSlot : Z) : M S Z :=
  loop (Datatypes.S (length colors))
    (fun slot =>
       let! c := of_option (aget colors (slot - 1)) in
       if is_black c then ret (inl (slot - 1)) else ret (inr slot)) CrntSlot.

(** The search for [c] among the first [n] colours, from index [j] on. *)
Fixpoint find_color (colors : list GifColorType) (n : nat) (j : Z) (c : GifColorType) : M S Z :=
  match n with
  | O => ret j
  | Datatypes.S n =>
      let! cj := of_option (aget colors j) in
      if decide (cj = c) then ret j else find_color colors n (j + 1) c
  end.

(** One round of the loop over [ColorIn2]: the state is the colours of the
    union, the translation table and the next free slot.  A round does
    nothing once the slots are used up (the loop condition). *)
Definition add_color (ColorIn1 ColorIn2 : ColorMapObject)
    (st : list GifColorType * list Z * Z) (i : Z) :
    M S (list GifColorType * list Z * Z) :=
  let '(colors, trans, CrntSlot) := st in
  if negb (CrntSlot <=? 256) then ret st
  else
    let! c := of_option (aget ColorIn2.(Colors) i) in
    let! j := find_color ColorIn1.(Colors) (Z.to_nat ColorIn1.(ColorCount)) 0 c in
    if j <? ColorIn1.(ColorCount) then
      let! trans := of_option (aset trans i (u8 j)) in
      ret (colors, trans, CrntSlot)
    else
      let! colors := of_option (aset colors CrntSlot c) in
      let! trans := of_option (aset trans i (u8 CrntSlot)) in
      ret (colors, trans, CrntSlot + 1).

Definition GifUnionColorMap (ColorIn1 ColorIn2 : ColorMapObject) (ColorTransIn2 : list Z) :
    M S (option ColorMapObject * list Z) :=
  let! u := GifMakeMapObject (Z.max ColorIn1.(ColorCount) ColorIn2.(ColorCount) * 2) None in
  match u with
  | None => ret (None, ColorTransIn2)
  | Some ColorUnion =>
      let! colors := copy_colors ColorIn1.(Colors) ColorIn1.(ColorCount) ColorUnion.(Colors) in
      let! CrntSlot := back_down ColorIn1.(Colors) ColorIn1.(ColorCount) in
      let! ' (colors, trans, CrntSlot) :=
        foldM (add_color ColorIn1 ColorIn2) (seqZ 0 ColorIn2.(ColorCount))
          (colors, ColorTransIn2, CrntSlot) in
      if 256 <? CrntSlot then ret (None, trans)
      else
        let NewGifBitSize := GifBitSize CrntSlot in
        let RoundUpTo := Z.shiftl 1 NewGifBitSize in
        let finish colors := ret (Some (mkColorMapObject RoundUpTo NewGifBitSize
                                         ColorUnion.(SortFlag) colors), trans) in
        if RoundUpTo =? ColorUnion.(ColorCount) then finish colors
        else
          let! colors :=
            foldM (fun colors j => of_option (aset colors j zero_color))
              (seqZ CrntSlot (RoundUpTo - CrntSlot)) colors in
          if RoundUpTo <? ColorUnion.(ColorCount) then
            let! ok := malloc in
            if negb ok then ret (None, trans)
            else finish (take (Z.to_nat RoundUpTo) colors)
          else finish colors
  end.

(** *** Extension blocks

    The count and the array pointer are passed by reference: the routine
    returns whether it succeeded together with their new values. *)

(** [reallocarray(l, n, ...)] on a live array. *)
Definition resize {A} (n : Z) (d : A) (l : list A) : list A :=
  list.resize (Z.to_nat n) d l.

Definition GifAddExtensionBlock (Count : Z) (Blocks : option (list ExtensionBlock))
    (Func Len : Z) (ExtData : option (list Z)) :
    M S (bool * Z * option (list ExtensionBlock)) :=
  let! ok := malloc in
  match Blocks, ok with
  | None, false => ret (false, Count, None)
  | Some l, false => ret (false, Count, Some l)
  | _, true =>
      let arr := match Blocks with
                 | None => [zero_ext]
                 | Some l => resize (Count + 1) zero_ext l
                 end in
      let! ok := malloc in
      let! bytes :=
        if negb ok then ret None
        else
          match ExtData with
          | None => ret (Some (replicate (Z.to_nat Len) 0))
          | Some d => if (Z.of_nat (length d) <? Len) then stuck else ret (Some (take (Z.to_nat Len) d))
          end in
      let! arr := of_option (aset arr Count (mkExtensionBlock Len bytes Func)) in
      ret (ok, Count + 1, Some arr)
  end.
End Alloc.

(** [GifFreeExtensions]: the new count and pointer. *)
Definition GifFreeExtensions (Count : Z) (Blocks : option (list ExtensionBlock)) :
    Z * option (list ExtensionBlock) :=
  match Blocks with
  | None => (Count, None)
  | Some _ => (0, None)
  end.

(** [for (i = 0; i < RasterSize; i++) RasterBits[i] = Translation[RasterBits[i]];] *)
Definition GifApplyTranslation {S} (Image : SavedImage) (Translation : list Z) : M S SavedImage :=
  let RasterSize := i32 (Image.(ImageDesc).(Height) * Image.(ImageDesc).(Width)) in
  let! raster :=
    foldM (fun r i =>
             let! raster := of_option r in
             let! p := of_option (aget raster i) in
             let! t := of_option (aget Translation p) in
             let! raster := of_option (aset raster i t) in
             ret (Some raster)) (seqZ 0 RasterSize) Image.(RasterBits) in
  ret (set_RasterBits raster Image).

(** [FreeLastSavedImage]: the slot stays allocated, its fields are released. *)
Definition FreeLastSavedImage : GifM unit :=
  let! images := gets SavedImages in
  match images with
  | None => ret tt
  | Some l =>
      let! n := gets ImageCount in
      modify (set_ImageCount (n - 1)) ;;!
      let! sp := of_option (aget l (n - 1)) in
      let '(cnt, blocks) := GifFreeExtensions sp.(sp_ExtensionBlockCount) sp.(sp_ExtensionBlocks) in
      let sp' := mkSavedImage (set_ColorMap None sp.(ImageDesc)) sp.(RasterBits) cnt blocks in
      let! l' := of_option (aset l (n - 1) sp') in
      modify (set_SavedImages (Some l'))
  end.

(** [GifFreeSavedImages]: every image, then the array. *)
Definition GifFreeSavedImages : GifM unit :=
  let! images := gets SavedImages in
  match images with
  | None => ret tt
  | Some l =>
      let! n := gets ImageCount in
      foldM (fun _ i => let! _ := of_option (aget l i) in ret tt) (seqZ 0 n) tt ;;!
      modify (set_SavedImages None)
  end.

(** ** Sizes *)

Lemma GifBitSize_spec n :
  1 <= n <= 256 ->
  1 <= GifBitSize n <= 8 /\ n <= 2 ^ GifBitSize n /\
  (1 < GifBitSize n -> 2 ^ (GifBitSize n - 1) < n).
Proof.
  intros Hn. unfold GifBitSize.
  repeat match goal with
  | |- context [n <=? Z.shiftl 1 ?k] =>
      let v := eval vm_compute in (Z.shiftl 1 k) in change (Z.shiftl 1 k) with v
  end.
  repeat match goal with
  | |- context [n <=? ?k] => destruct (Z.leb_spec n k)
  end; cbn; lia.
Qed.

Lemma GifBitSize_pow2 k : 1 <= k <= 9 -> GifBitSize (2 ^ k) = k.
Proof.
  intros Hk.
  assert (k = 1 \/ k = 2 \/ k = 3 \/ k = 4 \/ k = 5 \/ k = 6 \/ k = 7 \/ k = 8 \/ k = 9) as H by lia.
  by repeat destruct H as [->|H]; subst.
Qed.

(** Colour maps as [GifMakeMapObject] builds them. *)
Definition wf_map (c : ColorMapObject) : Prop :=
  1 <= c.(cm_BitsPerPixel) <= 8 /\ c.(ColorCount) = 2 ^ c.(cm_BitsPerPixel) /\
  Z.of_nat (length c.(Colors)) = c.(ColorCount).

Section AllocSpec.
Context {S : Type} `{AllocatorLaws S}.
Implicit Types (s : S).

Lemma GifMakeMapObject_ok k cs E s :
  1 <= k <= 9 -> plenty s ->
  match cs with None => True | Some l => 2 ^ k <= Z.of_nat (length l) end ->
  wp (GifMakeMapObject (2 ^ k) cs)
    (fun r s' => plenty s' /\
       r = Some (mkColorMapObject (2 ^ k) k false
                   match cs with
                   | None => replicate (Z.to_nat (2 ^ k)) zero_color
                   | Some l => take (Z.to_nat (2 ^ k)) l
                   end)) E s.
Proof.
  intros Hk Hs Hcs. unfold GifMakeMapObject.
  rewrite GifBitSize_pow2 by done.
  replace (Z.shiftl 1 k) with (2 ^ k) by (rewrite Z.shiftl_mul_pow2 by lia; lia).
  rewrite Z.eqb_refl. cbn [negb].
  apply wp_bind, wp_malloc. rewrite plenty_next by done. cbn [negb].
  apply wp_bind, wp_malloc. rewrite plenty_next by (by apply plenty_drop). cbn [negb].
  assert (plenty (drop_alloc (drop_alloc s))) by (by do 2 apply plenty_drop).
  destruct cs as [l|]; apply wp_bind; [|done].
  destruct (Nat.ltb_spec (length l) (Z.to_nat (2 ^ k))); [lia|done].
Qed.

(** A count that is no power of two (or over 512) gives no map. *)
Lemma GifMakeMapObject_refused n cs (Q : option ColorMapObject -> S -> Prop) E s :
  n <> 2 ^ GifBitSize n -> Q None s -> wp (GifMakeMapObject n cs) Q E s.
Proof.
  intros Hn HQ. unfold GifMakeMapObject.
  replace (Z.shiftl 1 (GifBitSize n)) with (2 ^ GifBitSize n).
  2:{ rewrite Z.shiftl_mul_pow2; [lia|]. unfold GifBitSize.
      repeat match goal with |- context [n <=? ?k] => destruct (n <=? k); [lia|] end. lia. }
  apply Z.eqb_neq in Hn. rewrite Hn. done.
Qed.

(** ** GifUnionColorMap *)

Lemma find_color_spec colors c (Q : Z -> S -> Prop) E n j s :
  0 <= j -> j + Z.of_nat n <= Z.of_nat (length colors) ->
  (forall j', j <= j' < j + Z.of_nat n -> aget colors j' = Some c -> Q j' s) ->
  ((forall j', j <= j' < j + Z.of_nat n -> aget colors j' <> Some c) ->
     Q (j + Z.of_nat n) s) ->
  wp (find_color colors n j c) Q E s.
Proof.
  revert j. induction n as [|n IH]; intros j Hj Hn Hfound Hmiss; cbn [find_color].
  - apply wp_ret. replace j with (j + Z.of_nat 0) by lia. apply Hmiss. lia.
  - destruct (aget_Some colors j) as [cj Hcj]; [lia|].
    apply wp_bind. apply (wp_of_option _ cj); [done|].
    destruct (decide (cj = c)) as [->|Hne].
    + apply wp_ret, Hfound; [lia|done].
    + apply IH; try lia.
      * intros j' Hj'. apply Hfound. lia.
      * intros Hno. replace (j + 1 + Z.of_nat n) with (j + Z.of_nat (Datatypes.S n)) by lia.
        apply Hmiss. intros j' Hj' Hc. destruct (decide (j' = j)) as [->|]; [congruence|].
        apply (Hno j'); [lia|done].
Qed.

Lemma copy_colors_spec from n to (Q : list GifColorType -> S -> Prop) E s :
  0 <= n <= Z.of_nat (length from) -> n <= Z.of_nat (length to) ->
  (forall to', length to' = length to ->
     (forall i, 0 <= i < n -> aget to' i = aget from i) -> Q to' s) ->
  wp (copy_colors from n to) Q E s.
Proof.
  intros Hn Hto HQ. unfold copy_colors.
  apply (wp_foldM (fun l to' s' => s' = s /\ exists i, 0 <= i <= n /\ l = seqZ i (n - i) /\
           length to' = length to /\ forall j, 0 <= j < i -> aget to' j = aget from j)).
  - intros a l b s' (-> & i & Hi & Hl & Hlen & Hpre).
    assert (i < n) by (destruct (decide (i = n)) as [->|]; [rewrite Z.sub_diag in Hl; done|lia]).
    rewrite seqZ_cons in Hl by lia. injection Hl as -> Hl.
    destruct (aget_Some from i) as [c Hc]; [lia|].
    apply wp_bind, (wp_of_option _ c); [done|].
    eapply wp_of_option; [apply aset_Some; lia|]. split; [done|].
    exists (i + 1). split; [lia|]. split; [rewrite Hl; f_equal; lia|].
    split; [by rewrite length_insert|]. intros j Hj.
    assert (aset b i c = Some (<[Z.to_nat i:=c]> b)) as Hset by (apply aset_Some; lia).
    destruct (decide (i = j)) as [<-|Hne].
    + rewrite (aget_aset_eq _ _ _ _ Hset). done.
    + rewrite (aget_aset_ne _ _ _ _ _ Hset Hne). apply Hpre. lia.
  - intros b s' (-> & i & Hi & Hl & Hlen & Hpre). apply HQ; [done|].
    destruct (decide (i = n)) as [->|]; [done|]. rewrite seqZ_cons in Hl by lia. done.
  - split; [done|]. exists 0. split; [lia|]. split; [f_equal; lia|]. split; [done|]. lia.
Qed.

Lemma zero_fill_spec colors a n (Q : list GifColorType -> S -> Prop) E s :
  0 <= a -> 0 <= n -> a + n <= Z.of_nat (length colors) ->
  (forall colors', length colors' = length colors ->
     (forall i, 0 <= i < a -> aget colors' i = aget colors i) -> Q colors' s) ->
  wp (foldM (fun colors j => of_option (aset colors j zero_color)) (seqZ a n) colors) Q E s.
Proof.
  intros Ha Hn Hle HQ.
  apply (wp_foldM (fun l cs s' => s' = s /\ exists i, a <= i <= a + n /\ l = seqZ i (a + n - i) /\
           length cs = length colors /\ forall j, 0 <= j < a -> aget cs j = aget colors j)).
  - intros j l b s' (-> & i & Hi & Hl & Hlen & Hpre).
    assert (i < a + n) by (destruct (decide (i = a + n)) as [->|]; [rewrite Z.sub_diag in Hl; done|lia]).
    rewrite seqZ_cons in Hl by lia. injection Hl as -> Hl.
    assert (aset b i zero_color = Some (<[Z.to_nat i:=zero_color]> b)) as Hset by (apply aset_Some; lia).
    eapply wp_of_option; [done|]. split; [done|].
    exists (i + 1). split; [lia|]. split; [rewrite Hl; f_equal; lia|].
    split; [by rewrite length_insert|]. intros j Hj.
    rewrite (aget_aset_ne _ _ _ _ _ Hset) by lia. apply Hpre. lia.
  - intros b s' (-> & i & Hi & Hl & Hlen & Hpre). by apply HQ.
  - split; [done|]. exists a. split; [lia|]. split; [f_equal; lia|]. split; [done|]. done.
Qed.
End AllocSpec.

Lemma map_bounds c : wf_map c -> 2 <= c.(ColorCount) <= 256.
Proof.
  intros (Hb & -> & _).
  split; [apply (Z.pow_le_mono_r 2 1)|change 256 with (2 ^ 8); apply Z.pow_le_mono_r]; lia.
Qed.

Lemma aget_not_in (l : list GifColorType) c n :
  (forall j, 0 <= j < n -> aget l j <> Some c) -> n = Z.of_nat (length l) -> c ∉ l.
Proof.
  intros Hno -> Hin. apply list_elem_of_lookup in Hin as [i Hi].
  apply (Hno (Z.of_nat i)); [apply lookup_lt_Some in Hi; lia|].
  unfold aget. rewrite decide_True, Nat2Z.id by lia. done.
Qed.

Lemma aget_in (l : list GifColorType) i c : aget l i = Some c -> c ∈ l.
Proof. unfold aget. destruct (decide _); [|done]. apply list_elem_of_lookup_2. Qed.

Section Union.
Context {S : Type} `{AllocatorLaws S}.
Context (c1 c2 : ColorMapObject).
Context (wf1 : wf_map c1) (wf2 : wf_map c2).

Let n1 := c1.(ColorCount).
Let n2 := c2.(ColorCount).
Let U := Z.max n1 n2 * 2.

(** The colours of a list that are not in [ColorIn1]. *)
Definition fresh (l : list GifColorType) : list GifColorType :=
  filter (fun c => c ∉ c1.(Colors)) l.

(** The state of the loop over [ColorIn2] before its round [i]. *)
Definition union_inv (trans : list Z) (i : Z) (st : list GifColorType * list Z * Z) : Prop :=
  let '(colors, tr, slot) := st in
  Z.of_nat (length colors) = U /\ length tr = length trans /\
  (forall t, 0 <= t < n1 -> aget colors t = aget c1.(Colors) t) /\
  let new := Z.of_nat (length (fresh (take (Z.to_nat i) c2.(Colors)))) in
  if slot <=? 256 then
    slot = n1 + new /\
    forall i', 0 <= i' < i -> exists t, aget tr i' = Some t /\ 0 <= t < slot /\
      aget colors t = aget c2.(Colors) i'
  else 256 < n1 + new.

Lemma fresh_mono i : 0 <= i ->
  (length (fresh (take (Z.to_nat i) c2.(Colors))) <= length (fresh (take (Z.to_nat (i + 1)) c2.(Colors))))%nat.
Proof.
  intros Hi. replace (Z.to_nat (i + 1)) with (Z.to_nat i + 1)%nat by lia.
  rewrite <- take_take_drop. unfold fresh. rewrite filter_app, length_app. lia.
Qed.

Lemma fresh_step i c : 0 <= i -> aget c2.(Colors) i = Some c ->
  fresh (take (Z.to_nat (i + 1)) c2.(Colors)) =
  fresh (take (Z.to_nat i) c2.(Colors)) ++ (if decide (c ∈ c1.(Colors)) then [] else [c]).
Proof.
  intros Hi Hc. replace (Z.to_nat (i + 1)) with (Datatypes.S (Z.to_nat i)) by lia.
  unfold aget in Hc. rewrite decide_True in Hc by lia.
  rewrite (take_S_r _ _ c) by done. unfold fresh. rewrite filter_app. f_equal.
  rewrite filter_cons, filter_nil. by repeat destruct (decide _).
Qed.

Lemma fresh_le i : 0 <= i -> Z.of_nat (length (fresh (take (Z.to_nat i) c2.(Colors)))) <= i.
Proof.
  intros Hi. pose proof (length_filter (fun c => c ∉ c1.(Colors)) (take (Z.to_nat i) c2.(Colors))) as Hl.
  rewrite length_take in Hl. unfold fresh. lia.
Qed.

Lemma add_color_spec trans i st E (s : S) :
  0 <= i < n2 -> n2 <= Z.of_nat (length trans) -> union_inv trans i st ->
  wp (add_color c1 c2 st i) (fun st' s' => s' = s /\ union_inv trans (i + 1) st') E s.
Proof.
  destruct st as [[colors tr] slot]. intros Hi Htr (Hlen & Hltr & Hpre & Hslot).
  pose proof (map_bounds _ wf1). pose proof (map_bounds _ wf2).
  destruct wf1 as (_ & _ & Hl1). destruct wf2 as (_ & _ & Hl2). fold n1 in Hl1. fold n2 in Hl2.
  unfold add_color. revert Hslot. destruct (Z.leb_spec slot 256) as [Hle|Hgt]; cbn [negb]; intros Hslot.
  2:{ apply wp_ret. split; [done|]. do 3 (split; [done|]).
      destruct (Z.leb_spec slot 256); [lia|]. pose proof (fresh_mono i ltac:(lia)). lia. }
  destruct Hslot as [Hs Hmap].
  destruct (aget_Some c2.(Colors) i) as [c Hc]; [lia|].
  apply wp_bind, (wp_of_option _ c); [done|]. apply wp_bind.
  pose proof (fresh_step i c ltac:(lia) Hc) as Hfs. pose proof (fresh_le i ltac:(lia)).
  apply find_color_spec; [lia|unfold n1 in *; lia| |].
  - intros j Hj Hcj. fold n1 in Hj. destruct (Z.ltb_spec j c1.(ColorCount)); [|unfold n1 in *; lia].
    apply wp_bind. eapply wp_of_option; [apply aset_Some; lia|].
    apply wp_ret. split; [done|]. do 2 (split; [by rewrite ?length_insert|]). split; [done|].
    rewrite (proj2 (Z.leb_le slot 256)) by done.
    rewrite decide_True in Hfs by (by eapply aget_in). rewrite app_nil_r in Hfs. rewrite Hfs.
    split; [done|]. intros i' Hi'.
    assert (aset tr i (u8 j) = Some (<[Z.to_nat i:=u8 j]> tr)) as Hset by (apply aset_Some; lia).
    destruct (decide (i = i')) as [<-|Hne].
    + rewrite (aget_aset_eq _ _ _ _ Hset). exists (u8 j). split; [done|].
      rewrite u8_small by (unfold n1 in *; lia). split; [unfold n1 in *; lia|].
      rewrite Hpre by (unfold n1 in *; lia). congruence.
    + rewrite (aget_aset_ne _ _ _ _ _ Hset Hne). apply Hmap. lia.
  - intros Hno. rewrite Z.add_0_l, Z2Nat.id by (unfold n1 in *; lia).
    rewrite Z.ltb_irrefl.
    assert (c ∉ c1.(Colors)) as Hni by (eapply aget_not_in; [|done]; intros j Hj; apply Hno; unfold n1 in *; lia).
    assert (aset colors slot c = Some (<[Z.to_nat slot:=c]> colors)) as Hset by (apply aset_Some; unfold U in *; lia).
    apply wp_bind. eapply wp_of_option; [done|].
    apply wp_bind. eapply wp_of_option; [apply aset_Some; lia|].
    apply wp_ret. split; [done|]. do 2 (split; [by rewrite ?length_insert|]).
    rewrite decide_False in Hfs by done. rewrite Hfs, length_app. cbn [length].
    split.
    { intros t Ht. rewrite (aget_aset_ne _ _ _ _ _ Hset) by lia. by apply Hpre. }
    destruct (Z.leb_spec (slot + 1) 256); [|lia]. split; [lia|]. intros i' Hi'.
    assert (aset tr i (u8 slot) = Some (<[Z.to_nat i:=u8 slot]> tr)) as Hset' by (apply aset_Some; lia).
    destruct (decide (i = i')) as [<-|Hne].
    + rewrite (aget_aset_eq _ _ _ _ Hset'). exists (u8 slot). split; [done|].
      rewrite u8_small by (unfold n1 in *; lia). split; [unfold n1 in *; lia|].
      rewrite (aget_aset_eq _ _ _ _ Hset). congruence.
    + rewrite (aget_aset_ne _ _ _ _ _ Hset' Hne). destruct (Hmap i') as (t & ? & ? & ?); [lia|].
      exists t. split; [done|]. split; [lia|]. rewrite (aget_aset_ne _ _ _ _ _ Hset) by lia. done.
Qed.
End Union.

(** The size of the first allocation of the union is itself a power of two. *)
Lemma union_size c1 c2 : wf_map c1 -> wf_map c2 ->
  exists k, 2 <= k <= 9 /\ 2 ^ k = Z.max c1.(ColorCount) c2.(ColorCount) * 2.
Proof.
  intros (Hb1 & Hc1 & _) (Hb2 & Hc2 & _).
  exists (Z.max c1.(cm_BitsPerPixel) c2.(cm_BitsPerPixel) + 1). split; [lia|].
  rewrite Z.pow_add_r by lia. change (2 ^ 1) with 2. rewrite Hc1, Hc2.
  destruct (Z.max_spec c1.(cm_BitsPerPixel) c2.(cm_BitsPerPixel)) as [[? ->]|[? ->]];
    [rewrite Z.max_r|rewrite Z.max_l]; try done; apply Z.pow_le_mono_r; lia.
Qed.

Lemma pow2_lub_le n k : 0 <= k <= 9 -> 1 <= n <= 256 -> n <= 2 ^ k -> 1 <= k -> 2 ^ GifBitSize n <= 2 ^ k.
Proof.
  intros Hk Hn Hle Hk1. destruct (GifBitSize_spec n Hn) as (Hr & _ & Hmin).
  apply Z.pow_le_mono_r; [lia|]. destruct (Z.le_gt_cases (GifBitSize n) k) as [|Hgt]; [done|].
  assert (2 ^ k <= 2 ^ (GifBitSize n - 1)) by (apply Z.pow_le_mono_r; lia). lia.
Qed.

(** What the union promises: colours of the first map keep their index, the translation
    sends every index of the second map to an equal colour, and there is no result exactly
    when more than 256 slots would be needed. *)
Definition union_post (c1 c2 : ColorMapObject) (r : option ColorMapObject * list Z) : Prop :=
  let needed := c1.(ColorCount) + Z.of_nat (length (fresh c1 c2.(Colors))) in
  match r with
  | (None, _) => 256 < needed
  | (Some u, tr) =>
      needed <= 256 /\ wf_map u /\
      (forall i, 0 <= i < c1.(ColorCount) -> aget u.(Colors) i = aget c1.(Colors) i) /\
      (forall i, 0 <= i < c2.(ColorCount) ->
         exists t, aget tr i = Some t /\ aget u.(Colors) t = aget c2.(Colors) i)
  end.

(** The end of the union: clear the slots up to the next power of two and shrink. *)
Lemma union_finish c1 c2 trans colors tr slot k :
  wf_map c1 -> wf_map c2 -> 1 <= k <= 9 -> 2 ^ k = Z.max c1.(ColorCount) c2.(ColorCount) * 2 ->
  union_inv c1 c2 trans c2.(ColorCount) (colors, tr, slot) -> slot <= 256 ->
  forall colors', length colors' = length colors ->
    (forall i, 0 <= i < slot -> aget colors' i = aget colors i) ->
    union_post c1 c2
      (Some (mkColorMapObject (2 ^ GifBitSize slot) (GifBitSize slot) false
               (take (Z.to_nat (2 ^ GifBitSize slot)) colors')), tr).
Proof.
  intros Hw1 Hw2 Hk HU (Hlen & _ & Hpre & Hslot) Hs colors' Hl' Hsame.
  rewrite (proj2 (Z.leb_le slot 256)) in Hslot by done. destruct Hslot as [Hsn Hmap].
  pose proof (map_bounds _ Hw1). pose proof (map_bounds _ Hw2). destruct Hw2 as (_ & _ & Hl2).
  rewrite take_ge in Hsn by lia. rewrite <- HU in Hlen.
  pose proof (length_filter (fun c => c ∉ c1.(Colors)) c2.(Colors)) as Hfl.
  fold (fresh c1 c2.(Colors)) in Hfl.
  destruct (GifBitSize_spec slot) as (Hb & Hbs & _); [lia|].
  assert (2 ^ GifBitSize slot <= 2 ^ k) by (apply pow2_lub_le; lia).
  assert (forall i, 0 <= i < slot ->
    aget (take (Z.to_nat (2 ^ GifBitSize slot)) colors') i = aget colors i) as Hget.
  { intros i Hi. rewrite <- Hsame by lia. unfold aget. rewrite !decide_True by lia.
    apply lookup_take_lt. lia. }
  split; [lia|]. split; [|split].
  - split; [done|]. split; [done|]. cbn [Colors ColorCount]. rewrite length_take. lia.
  - intros i Hi. cbn [Colors]. rewrite Hget by lia. by apply Hpre.
  - intros i Hi. destruct (Hmap i Hi) as (t & Ht & Htr & Htc). exists t. split; [done|].
    cbn [Colors]. by rewrite Hget.
Qed.

Section UnionSpec.
Context {S : Type} `{AllocatorLaws S}.
Implicit Types (s : S).

Lemma back_down_last colors n c (Q : Z -> S -> Prop) E s :
  aget colors (n - 1) = Some c -> is_black c = false -> Q n s ->
  wp (back_down colors n) Q E s.
Proof.
  intros Hc Hb HQ. unfold back_down. cbn [loop].
  apply wp_bind, wp_bind, (wp_of_option _ c); [done|]. rewrite Hb. done.
Qed.

Lemma union_loop c1 c2 colors trans s (Q : list GifColorType * list Z * Z -> S -> Prop) E :
  wf_map c1 -> wf_map c2 -> c2.(ColorCount) <= Z.of_nat (length trans) ->
  Z.of_nat (length colors) = Z.max c1.(ColorCount) c2.(ColorCount) * 2 ->
  (forall t, 0 <= t < c1.(ColorCount) -> aget colors t = aget c1.(Colors) t) ->
  (forall st, union_inv c1 c2 trans c2.(ColorCount) st -> Q st s) ->
  wp (foldM (add_color c1 c2) (seqZ 0 c2.(ColorCount)) (colors, trans, c1.(ColorCount))) Q E s.
Proof.
  intros Hw1 Hw2 Htr Hlen Hpre HQ. pose proof (map_bounds _ Hw1). pose proof (map_bounds _ Hw2).
  apply (wp_foldM (fun l st s' => s' = s /\ exists i, 0 <= i <= c2.(ColorCount) /\
           l = seqZ i (c2.(ColorCount) - i) /\ union_inv c1 c2 trans i st)).
  - intros a l st s' (-> & i & Hi & Hl & Hinv).
    assert (i < c2.(ColorCount)).
    { destruct (decide (i = c2.(ColorCount))) as [->|]; [rewrite Z.sub_diag in Hl; done|lia]. }
    rewrite seqZ_cons in Hl by lia. injection Hl as -> Hl.
    eapply wp_mono; [apply (add_color_spec c1 c2 Hw1 Hw2 trans i st); [lia|done|done]| |done].
    intros st' s' [-> Hinv']. split; [done|]. exists (i + 1). split; [lia|].
    split; [rewrite Hl; f_equal; lia|done].
  - intros st s' (-> & i & Hi & Hl & Hinv). apply HQ.
    destruct (decide (i = c2.(ColorCount))) as [->|]; [done|].
    rewrite seqZ_cons in Hl by lia. done.
  - split; [done|]. exists 0. split; [lia|]. split; [f_equal; lia|].
    split; [done|]. split; [done|]. split; [done|].
    rewrite (proj2 (Z.leb_le _ 256)) by lia.
    split; [|lia]. change (fresh c1 (take (Z.to_nat 0) c2.(Colors))) with (@nil GifColorType).
    cbn [length]. lia.
Qed.
End UnionSpec.

(** C8. GifUnionColorMap, on maps as GifMakeMapObject builds them and a first map whose last
    colour is not black, with no allocation failing: it never touches memory out of bounds,
    and either returns a well-formed map in which the colours of the first map keep their
    indices and the translation table sends every index of the second map to an equal colour,
    or returns no map, which happens exactly when more than 256 slots would be needed. *)
Theorem union_color_map_correct {S} `{AllocatorLaws S} (c1 c2 : ColorMapObject)
    (last : GifColorType) (trans : list Z) (s : S) :
  wf_map c1 -> wf_map c2 -> c2.(ColorCount) <= Z.of_nat (length trans) ->
  aget c1.(Colors) (c1.(ColorCount) - 1) = Some last -> is_black last = false -> plenty s ->
  wp (GifUnionColorMap c1 c2 trans) (fun r _ => union_post c1 c2 r) (fun _ => False) s.
Proof.
  intros Hw1 Hw2 Htr Hlast Hblack Hs.
  pose proof (map_bounds _ Hw1). pose proof (map_bounds _ Hw2).
  destruct (union_size c1 c2 Hw1 Hw2) as (k & Hk & HU).
  unfold GifUnionColorMap. rewrite <- HU. apply wp_bind.
  eapply wp_mono; [apply (GifMakeMapObject_ok k None (fun _ => False)); [lia|exact Hs|exact I]| |done].
  intros u s1 [Hs1 ->]. cbv beta match. cbn [Colors ColorCount SortFlag].
  pose proof Hw1 as (Hb1 & Hc1 & Hl1). pose proof Hw2 as (Hb2 & Hc2 & Hl2).
  apply wp_bind, copy_colors_spec; [lia|rewrite length_replicate; lia|].
  intros colors Hlen Hpre. rewrite length_replicate in Hlen.
  apply wp_bind. apply (back_down_last _ _ last); [done|done|].
  apply wp_bind. apply union_loop; try done; [lia|].
  intros [[colors' tr] slot] Hinv. pose proof Hinv as (Hlen' & _ & _ & Hslot).
  destruct (Z.ltb_spec 256 slot) as [Hgt|Hle].
  - apply wp_ret. unfold union_post. revert Hslot.
    rewrite (proj2 (Z.leb_gt slot 256)) by lia. by rewrite take_ge by lia.
  - pose proof (union_finish c1 c2 trans colors' tr slot k Hw1 Hw2 ltac:(lia) HU Hinv Hle) as Hfin.
    rewrite (proj2 (Z.leb_le slot 256)) in Hslot by lia. destruct Hslot as [Hsn _].
    pose proof (fresh_le c1 c2 c2.(ColorCount) ltac:(lia)).
    destruct (GifBitSize_spec slot) as (Hb & Hbs & _); [lia|].
    assert (2 ^ GifBitSize slot <= 2 ^ k) as Hle2 by (apply pow2_lub_le; lia).
    rewrite Z.shiftl_mul_pow2, Z.mul_1_l by lia.
    destruct (Z.eqb_spec (2 ^ GifBitSize slot) (2 ^ k)) as [He|Hne].
    + apply wp_ret. specialize (Hfin colors' eq_refl ltac:(done)).
      rewrite take_ge in Hfin by lia. done.
    + apply wp_bind, zero_fill_spec; [lia|lia|lia|]. intros colors'' Hl'' Hsame.
      rewrite (proj2 (Z.ltb_lt _ _)) by lia.
      apply wp_bind, wp_malloc. rewrite plenty_next by done. cbn [negb].
      apply wp_ret. by apply Hfin.
Qed.

Definition black := mkGifColorType 0 0 0.
Definition map2 (a b : GifColorType) : ColorMapObject := mkColorMapObject 2 1 false [a; b].

Lemma union_color_map_correct_witness :
  let c1 := map2 (mkGifColorType 1 2 3) (mkGifColorType 4 5 6) in
  let c2 := map2 (mkGifColorType 4 5 6) (mkGifColorType 7 8 9) in
  wp (GifUnionColorMap c1 c2 [0; 0]) (fun r _ => union_post c1 c2 r) (fun _ => False) (@nil bool).
Proof.
  apply (union_color_map_correct _ _ (mkGifColorType 4 5 6)).
  - vm_compute. intuition congruence.
  - vm_compute. intuition congruence.
  - vm_compute. congruence.
  - reflexivity.
  - reflexivity.
  - constructor.
Defined.

(** When the first map ends in black and the second map also has black, the colour that
    is new is stored over the black slot the translation already points to: with maps [a;
    black] and [black; b], index 0 of the second map (black) is translated to a slot that
    holds b. *)
Theorem union_color_map_black_overwritten (a b : GifColorType) :
  is_black a = false -> b <> a -> b <> black -> black <> a ->
  exists u tr, fst (GifUnionColorMap (map2 a black) (map2 black b) [0; 0] (@nil bool))
                 = Returns (Some u, tr) /\
    tr = [1; 1] /\ aget u.(Colors) 1 = Some b.
Proof.
  intros Ha Hba Hbb Hka.
  cut (wp (GifUnionColorMap (map2 a black) (map2 black b) [0; 0])
         (fun r _ => match r with
                     | (Some u, tr) => tr = [1; 1] /\ aget u.(Colors) 1 = Some b
                     | _ => False
                     end) (fun _ => False) (@nil bool)).
  { intros (r & s' & -> & Hr)%wp_returns. destruct r as [[u|] tr]; [|done].
    exists u, tr. done. }
  unfold GifUnionColorMap. apply wp_bind.
  eapply wp_mono; [apply (GifMakeMapObject_ok 2 None (fun _ => False)); [lia|constructor|done]| |done].
  intros u s1 [Hs1 ->]. cbn [map2 Colors ColorCount SortFlag].
  apply wp_bind, copy_colors_spec; [split; vm_compute; congruence|vm_compute; congruence|]. intros colors Hlen _.
  destruct colors as [|x0 [|x1 [|x2 [|x3 [|]]]]]; try discriminate Hlen.
  apply wp_bind. unfold back_down. cbn [loop length].
  apply wp_bind, wp_bind, (wp_of_option _ black); [done|]. apply wp_ret.
  apply wp_bind, wp_bind, (wp_of_option _ a); [done|]. rewrite Ha. apply wp_ret, wp_ret.
  apply wp_bind. change (seqZ 0 2) with [0; 1]. cbn [foldM].
  apply wp_bind, wp_bind, (wp_of_option _ black); [done|].
  apply wp_bind. apply wp_bind, (wp_of_option _ a); [done|]. rewrite decide_False by done.
  apply wp_bind, (wp_of_option _ black); [done|]. rewrite decide_True by done.
  apply wp_ret, wp_bind, (wp_of_option _ [1; 0]); [done|]. apply wp_ret.
  apply wp_bind, wp_bind, (wp_of_option _ b); [done|].
  apply wp_bind. apply wp_bind, (wp_of_option _ a); [done|]. rewrite decide_False by done.
  apply wp_bind, (wp_of_option _ black); [done|]. rewrite decide_False by done.
  apply wp_ret, wp_bind, (wp_of_option _ [x0; b; x2; x3]); [done|].
  apply wp_bind, (wp_of_option _ [1; 1]); [done|]. apply wp_ret, wp_ret.
  change (GifBitSize (1 + 1)) with 1.
  change (256 <? 1 + 1) with false. cbv iota. change (Z.shiftl 1 1 =? 2 ^ 2) with false. cbv iota.
  apply wp_bind. change (seqZ (1 + 1) (Z.shiftl 1 1 - (1 + 1))) with (@nil Z). apply wp_ret.
  change (Z.shiftl 1 1 <? 2 ^ 2) with true. cbv iota.
  apply wp_bind, wp_malloc. rewrite plenty_next by done. by apply wp_ret.
Qed.

Lemma union_color_map_black_overwritten_witness :
  exists u tr, fst (GifUnionColorMap (map2 (mkGifColorType 1 2 3) black)
                      (map2 black (mkGifColorType 4 5 6)) [0; 0] (@nil bool)) = Returns (Some u, tr) /\
    tr = [1; 1] /\ aget u.(Colors) 1 = Some (mkGifColorType 4 5 6).
Proof.
  apply (union_color_map_black_overwritten (mkGifColorType 1 2 3) (mkGifColorType 4 5 6));
    [reflexivity|discriminate|discriminate|discriminate].
Defined.

Lemma back_down_all_black {S} (colors : list GifColorType) (n : nat) (s : S) :
  Forall (fun c => is_black c = true) colors -> (n <= length colors)%nat ->
  fst (loop (Datatypes.S n)
         (fun slot => let! c := of_option (aget colors (slot - 1)) in
                      if is_black c then ret (inl (slot - 1)) else ret (inr slot)) (Z.of_nat n) s) =
  @Stuck Z.
Proof.
  intros Hb. induction n as [|n IH]; intros Hn; [done|].
  destruct (aget_Some colors (Z.of_nat (Datatypes.S n) - 1)) as [c Hc]; [lia|].
  cbn [loop]. unfold bind at 1 2, of_option. rewrite Hc. cbn [ret].
  rewrite (aget_Forall _ _ _ _ Hb Hc). unfold ret at 1.
  replace (Z.of_nat (Datatypes.S n) - 1) with (Z.of_nat n) by lia. apply IH. lia.
Qed.

(** On a first map all of whose colours are black the loop of GifUnionColorMap that
    backs down over trailing black slots leaves the array at its low end (it reads
    Colors[-1]): the routine has undefined behaviour for every such map, whatever the second
    map is. *)
Theorem union_color_map_all_black_stuck (c1 c2 : ColorMapObject) (trans : list Z) (allocs : list bool) :
  wf_map c1 -> wf_map c2 -> Forall (fun c => is_black c = true) c1.(Colors) ->
  Forall (fun b => b = true) allocs ->
  fst (GifUnionColorMap c1 c2 trans allocs) = Stuck.
Proof.
  intros Hw1 Hw2 Hb Hs. pose proof (map_bounds _ Hw1). pose proof (map_bounds _ Hw2).
  destruct (union_size c1 c2 Hw1 Hw2) as (k & Hk & HU). destruct Hw1 as (Hb1 & Hc1 & Hl1).
  pose proof (GifMakeMapObject_ok k None (fun _ => False) allocs ltac:(lia) Hs I) as Hmk.
  apply wp_returns in Hmk as (r & s1 & Hmk & Hs1 & ->).
  unfold GifUnionColorMap. rewrite <- HU. unfold bind at 1. rewrite Hmk. cbv iota beta.
  cbn [Colors].
  pose proof (copy_colors_spec c1.(Colors) c1.(ColorCount) (replicate (Z.to_nat (2 ^ k)) zero_color)
    (fun _ _ => True) (fun _ => False) s1) as Hcp.
  destruct (wp_returns _ _ _ (Hcp ltac:(lia) ltac:(rewrite length_replicate; lia) ltac:(done)))
    as (cs & s2 & Hcp' & _).
  unfold bind at 1. rewrite Hcp'. unfold bind at 1, back_down. rewrite <- Hl1.
  pose proof (back_down_all_black c1.(Colors) (length c1.(Colors)) s2 Hb ltac:(lia)) as Hst.
  destruct (loop _ _ _ s2) as [[| |] s3]; done.
Qed.

Lemma union_color_map_all_black_stuck_witness :
  fst (GifUnionColorMap (map2 black black) (map2 black (mkGifColorType 4 5 6)) [0; 0] []) = Stuck.
Proof.
  apply union_color_map_all_black_stuck.
  - vm_compute. intuition congruence.
  - vm_compute. intuition congruence.
  - repeat constructor.
  - constructor.
Defined.
