(* ===== verification/GifCopy.v ===== *)
(** * giflib: copying saved images (gifalloc.c)

    [GifMakeSavedImage] and what it calls, over a heap of blocks: a copy begins
    with the pointers of the image it is made from, so that what is shared and
    what is freed matters.  GifAlloc.v has the routines on images that own their
    parts. *)

From stdpp Require Import base numbers list list_numbers gmap.
From Stdlib Require Import Lia ZArith.
From S2P Require Import Prelude GifTypes GifAlloc.

#[local] Open Scope Z_scope.
#[local] Open Scope c_scope.

(** ** The heap *)

(** Pointers are addresses, zero the null pointer. *)
Record ext_ptr : Type := mkExt { e_ByteCount : Z; e_Bytes : Z; e_Function : Z }.

Record image_ptr : Type := mkImage {
  i_Left : Z; i_Top : Z; i_Width : Z; i_Height : Z; i_Interlace : bool;
  i_ColorMap : Z;
  i_RasterBits : Z;
  i_ExtensionBlockCount : Z;
  i_ExtensionBlocks : Z
}.

Definition with_map (v : Z) (i : image_ptr) : image_ptr :=
  mkImage i.(i_Left) i.(i_Top) i.(i_Width) i.(i_Height) i.(i_Interlace) v i.(i_RasterBits) i.(i_ExtensionBlockCount) i.(i_ExtensionBlocks).
Definition with_raster (v : Z) (i : image_ptr) : image_ptr :=
  mkImage i.(i_Left) i.(i_Top) i.(i_Width) i.(i_Height) i.(i_Interlace) i.(i_ColorMap) v i.(i_ExtensionBlockCount) i.(i_ExtensionBlocks).
Definition with_exts (n v : Z) (i : image_ptr) : image_ptr :=
  mkImage i.(i_Left) i.(i_Top) i.(i_Width) i.(i_Height) i.(i_Interlace) i.(i_ColorMap) i.(i_RasterBits) n v.

Definition zero_image : image_ptr := mkImage 0 0 0 0 false 0 0 0 0.

Inductive block : Type :=
| BMap (ColorCount BitsPerPixel : Z) (SortFlag : bool) (Colors : Z)
| BColors (l : list GifColorType)
| BBytes (l : list Z)
| BExts (l : list ext_ptr)
| BImages (l : list image_ptr).

(** The blocks, the addresses the coming allocations return (zero for one that
    fails), and the two fields of the [GifFileType]. *)
Record gif_heap : Type := mkGifHeap { blocks : gmap Z block; coming : list Z; g_ImageCount : Z; g_SavedImages : Z }.

Definition set_blocks (v : gmap Z block) (s : gif_heap) : gif_heap := mkGifHeap v s.(coming) s.(g_ImageCount) s.(g_SavedImages).
Definition set_count (v : Z) (s : gif_heap) : gif_heap := mkGifHeap s.(blocks) s.(coming) v s.(g_SavedImages).
Definition set_images (v : Z) (s : gif_heap) : gif_heap := mkGifHeap s.(blocks) s.(coming) s.(g_ImageCount) v.

Definition HM := M gif_heap.

Definition alloc (b : block) : HM Z := fun s =>
  match s.(coming) with
  | [] => (Stuck, s)
  | p :: l => (Returns p, mkGifHeap (if p =? 0 then s.(blocks) else <[p := b]> s.(blocks)) l s.(g_ImageCount) s.(g_SavedImages))
  end.

Definition load (p : Z) : HM block := let! h := gets blocks in of_option (h !! p).
Definition store (p : Z) (b : block) : HM unit := let! _ := load p in modify (fun s => set_blocks (<[p := b]> s.(blocks)) s).

(** A null pointer is fine; a block that is not there is not. *)
Definition free (p : Z) : HM unit :=
  if p =? 0 then ret tt else let! _ := load p in modify (fun s => set_blocks (delete p s.(blocks)) s).

Definition load_images (p : Z) : HM (list image_ptr) := let! b := load p in match b with BImages l => ret l | _ => stuck end.
Definition load_exts (p : Z) : HM (list ext_ptr) := let! b := load p in match b with BExts l => ret l | _ => stuck end.
Definition load_bytes (p : Z) : HM (list Z) := let! b := load p in match b with BBytes l => ret l | _ => stuck end.
Definition load_colors (p : Z) : HM (list GifColorType) := let! b := load p in match b with BColors l => ret l | _ => stuck end.

(** ** The routines *)

(** [Colors] is not null here. *)
Definition GifMakeMapObject (ColorCount Colors : Z) : HM Z :=
  if negb (ColorCount =? Z.shiftl 1 (GifBitSize ColorCount)) then ret 0
  else
    let! Object := alloc (BMap ColorCount (GifBitSize ColorCount) false 0) in
    if Object =? 0 then ret 0
    else
      let! colors := alloc (BColors (replicate (Z.to_nat ColorCount) zero_color)) in
      if colors =? 0 then free Object ;;! ret 0
      else
        store Object (BMap ColorCount (GifBitSize ColorCount) false colors) ;;!
        let! l := load_colors Colors in
        (if Z.of_nat (length l) <? ColorCount then stuck else store colors (BColors (take (Z.to_nat ColorCount) l))) ;;!
        ret Object.

Definition GifFreeMapObject (Object : Z) : HM unit :=
  if Object =? 0 then ret tt
  else
    let! b := load Object in
    match b with
    | BMap _ _ _ colors => free colors ;;! free Object
    | _ => stuck
    end.

(** The new count and pointer. *)
Definition GifFreeExtensions (Count Blocks : Z) : HM (Z * Z) :=
  if Blocks =? 0 then ret (Count, Blocks)
  else
    let! l := load_exts Blocks in
    for_each (fun i => let! ep := of_option (aget l i) in free ep.(e_Bytes)) (seqZ 0 Count) ;;!
    free Blocks ;;!
    ret (0, 0).

Definition get_image (i : Z) : HM image_ptr :=
  let! p := gets g_SavedImages in let! l := load_images p in of_option (aget l i).

Definition set_image (i : Z) (v : image_ptr) : HM unit :=
  let! p := gets g_SavedImages in
  let! l := load_images p in
  let! l := of_option (aset l i v) in
  store p (BImages l).

Definition FreeLastSavedImage : HM unit :=
  let! p := gets g_SavedImages in
  if p =? 0 then ret tt
  else
    let! n := gets g_ImageCount in
    modify (set_count (n - 1)) ;;!
    let! sp := get_image (n - 1) in
    (if negb (sp.(i_ColorMap) =? 0) then GifFreeMapObject sp.(i_ColorMap) ;;! set_image (n - 1) (with_map 0 sp) else ret tt) ;;!
    (if negb (sp.(i_RasterBits) =? 0) then free sp.(i_RasterBits) else ret tt) ;;!
    let! sp := get_image (n - 1) in
    let! ' (c, e) := GifFreeExtensions sp.(i_ExtensionBlockCount) sp.(i_ExtensionBlocks) in
    set_image (n - 1) (with_exts c e sp).

(** The array with a place for one more image; a failed [reallocarray] leaves
    the null pointer in the structure. *)
Definition grow_images : HM unit :=
  let! p := gets g_SavedImages in
  if p =? 0 then
    let! q := alloc (BImages [zero_image]) in modify (set_images q)
  else
    let! n := gets g_ImageCount in
    let! l := load_images p in
    let! q := alloc (BImages (list.resize (Z.to_nat (n + 1)) zero_image l)) in
    (if q =? 0 then ret tt else if q =? p then ret tt else free p) ;;!
    modify (set_images q).

(** A pointer to a saved image: the array it is in, and its number. *)
Record image_ref : Type := mkRef { ref_array : Z; ref_index : Z }.

(** The image it points to; the array may be gone. *)
Definition deref (p : image_ref) : HM image_ptr :=
  let! l := load_images p.(ref_array) in of_option (aget l p.(ref_index)).

(** The copies of the parts; [false] if one cannot be allocated. *)
Definition copy_map (n : Z) (CopyFrom : image_ref) : HM bool :=
  let! sp := get_image n in
  if sp.(i_ColorMap) =? 0 then ret true
  else
    let! from := deref CopyFrom in
    let! b := load from.(i_ColorMap) in
    match b with
    | BMap count _ _ colors =>
        let! m := GifMakeMapObject count colors in
        set_image n (with_map m sp) ;;!
        ret (negb (m =? 0))
    | _ => stuck
    end.

Definition copy_raster (n : Z) (CopyFrom : image_ref) : HM bool :=
  let! sp := get_image n in
  let! from := deref CopyFrom in
  let size := i32 (from.(i_Height) * from.(i_Width)) in
  let! r := alloc (BBytes (replicate (Z.to_nat size) 0)) in
  set_image n (with_raster r sp) ;;!
  if r =? 0 then ret false
  else
    let! from := deref CopyFrom in
    let! l := load_bytes from.(i_RasterBits) in
    let count := from.(i_Height) * from.(i_Width) in
    (if (Z.of_nat (length l) <? count) || (size <? count) then stuck else store r (BBytes (take (Z.to_nat count) l))) ;;!
    ret true.

Definition copy_exts (n : Z) (CopyFrom : image_ref) : HM bool :=
  let! sp := get_image n in
  if sp.(i_ExtensionBlocks) =? 0 then ret true
  else
    let! from := deref CopyFrom in
    let! e := alloc (BExts (replicate (Z.to_nat from.(i_ExtensionBlockCount)) (mkExt 0 0 0))) in
    set_image n (with_exts sp.(i_ExtensionBlockCount) e sp) ;;!
    if e =? 0 then ret false
    else
      let! from := deref CopyFrom in
      let! l := load_exts from.(i_ExtensionBlocks) in
      (if Z.of_nat (length l) <? from.(i_ExtensionBlockCount) then stuck
       else store e (BExts (take (Z.to_nat from.(i_ExtensionBlockCount)) l))) ;;!
      ret true.

(** All three, from the state where the last image of the array is the
    source's. *)
Definition copy_parts (n : Z) (from : image_ref) : HM (option Z) :=
  let! ok := copy_map n from in
  if negb ok then FreeLastSavedImage ;;! ret None
  else
    let! ok := copy_raster n from in
    if negb ok then FreeLastSavedImage ;;! ret None
    else
      let! ok := copy_exts n from in
      if negb ok then FreeLastSavedImage ;;! ret None
      else ret (Some n).

(** The result is the number of the new image, [None] the null pointer.
    [CopyFrom] is read through the pointer each time, after the array of the
    file may have moved. *)
Definition GifMakeSavedImage (CopyFrom : option image_ref) : HM (option Z) :=
  grow_images ;;!
  let! p := gets g_SavedImages in
  if p =? 0 then ret None
  else
    let! n := gets g_ImageCount in
    modify (set_count (n + 1)) ;;!
    set_image n zero_image ;;!
    match CopyFrom with
    | None => ret (Some n)
    | Some from => let! v := deref from in set_image n v ;;! copy_parts n from
    end.

Definition GifFreeSavedImages : HM unit :=
  let! p := gets g_SavedImages in
  if p =? 0 then ret tt
  else
    let! n := gets g_ImageCount in
    for_each (fun i =>
      let! sp := get_image i in
      (if negb (sp.(i_ColorMap) =? 0) then GifFreeMapObject sp.(i_ColorMap) ;;! set_image i (with_map 0 sp) else ret tt) ;;!
      (if negb (sp.(i_RasterBits) =? 0) then free sp.(i_RasterBits) else ret tt) ;;!
      let! sp := get_image i in
      let! ' (c, e) := GifFreeExtensions sp.(i_ExtensionBlockCount) sp.(i_ExtensionBlocks) in
      set_image i (with_exts c e sp)) (seqZ 0 n) ;;!
    free p ;;!
    modify (set_images 0).

(** ** Execution *)

Lemma wp_alloc b p l (Q : Z -> gif_heap -> Prop) E s : s.(coming) = p :: l -> p <> 0 ->
  Q p (mkGifHeap (<[p := b]> s.(blocks)) l s.(g_ImageCount) s.(g_SavedImages)) -> wp (alloc b) Q E s.
Proof. intros Hc Hp HQ. unfold wp, alloc. rewrite Hc. by rewrite (proj2 (Z.eqb_neq p 0)). Qed.

Lemma wp_load p b (Q : block -> gif_heap -> Prop) E s : s.(blocks) !! p = Some b -> Q b s -> wp (load p) Q E s.
Proof. intros Hb HQ. unfold load. wp_steps. by eapply wp_of_option. Qed.

Lemma wp_store_block p b b' (Q : unit -> gif_heap -> Prop) E s : s.(blocks) !! p = Some b' ->
  Q tt (set_blocks (<[p := b]> s.(blocks)) s) -> wp (store p b) Q E s.
Proof. intros Hb HQ. unfold store. apply wp_bind. eapply wp_load; [done|]. by wp_steps. Qed.

Lemma wp_free_block p b (Q : unit -> gif_heap -> Prop) E s : p <> 0 -> s.(blocks) !! p = Some b ->
  Q tt (set_blocks (delete p s.(blocks)) s) -> wp (free p) Q E s.
Proof. intros Hp Hb HQ. unfold free. rewrite (proj2 (Z.eqb_neq p 0)) by done. apply wp_bind. eapply wp_load; [done|]. by wp_steps. Qed.

Lemma wp_load_images p l (Q : list image_ptr -> gif_heap -> Prop) E s : s.(blocks) !! p = Some (BImages l) -> Q l s -> wp (load_images p) Q E s.
Proof. intros Hb HQ. unfold load_images. apply wp_bind. eapply wp_load; [done|]. by apply wp_ret. Qed.

Lemma wp_load_exts p l (Q : list ext_ptr -> gif_heap -> Prop) E s : s.(blocks) !! p = Some (BExts l) -> Q l s -> wp (load_exts p) Q E s.
Proof. intros Hb HQ. unfold load_exts. apply wp_bind. eapply wp_load; [done|]. by apply wp_ret. Qed.

Lemma wp_load_bytes p l (Q : list Z -> gif_heap -> Prop) E s : s.(blocks) !! p = Some (BBytes l) -> Q l s -> wp (load_bytes p) Q E s.
Proof. intros Hb HQ. unfold load_bytes. apply wp_bind. eapply wp_load; [done|]. by apply wp_ret. Qed.

Lemma wp_load_colors p l (Q : list GifColorType -> gif_heap -> Prop) E s : s.(blocks) !! p = Some (BColors l) -> Q l s -> wp (load_colors p) Q E s.
Proof. intros Hb HQ. unfold load_colors. apply wp_bind. eapply wp_load; [done|]. by apply wp_ret. Qed.

(** The images of the file are [l]. *)
Definition has_images (s : gif_heap) (l : list image_ptr) : Prop := s.(blocks) !! s.(g_SavedImages) = Some (BImages l).

Lemma wp_get_image i v l (Q : image_ptr -> gif_heap -> Prop) E s : has_images s l -> aget l i = Some v -> Q v s -> wp (get_image i) Q E s.
Proof. intros Hl Hi HQ. unfold get_image. wp_steps. eapply wp_load_images; [exact Hl|]. by eapply wp_of_option. Qed.

Lemma wp_set_image i v l l' (Q : unit -> gif_heap -> Prop) E s : has_images s l -> aset l i v = Some l' ->
  Q tt (set_blocks (<[s.(g_SavedImages) := BImages l']> s.(blocks)) s) -> wp (set_image i v) Q E s.
Proof.
  intros Hl Hi HQ. unfold set_image. wp_steps. eapply wp_load_images; [exact Hl|]. wp_steps. eapply wp_of_option; [exact Hi|].
  by eapply wp_store_block.
Qed.

Lemma wp_deref a i l v (Q : image_ptr -> gif_heap -> Prop) E s :
  s.(blocks) !! a = Some (BImages l) -> aget l i = Some v -> Q v s -> wp (deref (mkRef a i)) Q E s.
Proof. intros Hl Hi HQ. unfold deref. apply wp_bind. eapply wp_load_images; [exact Hl|]. by eapply wp_of_option. Qed.

(** ** A whole image *)

(** An image with all its parts. *)
Record whole (h : gmap Z block) (i : image_ptr) (colors : list GifColorType) (raster : list Z) (exts : list ext_ptr) : Prop := {
  wh_map : exists bits sort pc, h !! i.(i_ColorMap) = Some (BMap (Z.of_nat (length colors)) bits sort pc) /\ h !! pc = Some (BColors colors);
  wh_colors : Z.of_nat (length colors) = Z.shiftl 1 (GifBitSize (Z.of_nat (length colors)));
  wh_raster : h !! i.(i_RasterBits) = Some (BBytes raster);
  wh_size : i.(i_Height) * i.(i_Width) = Z.of_nat (length raster);
  wh_int : i32 (i.(i_Height) * i.(i_Width)) = i.(i_Height) * i.(i_Width);
  wh_exts : h !! i.(i_ExtensionBlocks) = Some (BExts exts);
  wh_count : i.(i_ExtensionBlockCount) = Z.of_nat (length exts);
  wh_null : i.(i_ColorMap) <> 0 /\ i.(i_ExtensionBlocks) <> 0
}.

(** Addresses for the array and the four parts of a copy. *)
Definition new_places (h : gmap Z block) (ps : list Z) : Prop := NoDup ps /\ Forall (fun p => p <> 0 /\ h !! p = None) ps.

(** The array of the file, if there is one, has the images [l]. *)
Definition file_images (s : gif_heap) (l : list image_ptr) : Prop :=
  s.(g_ImageCount) = Z.of_nat (length l) /\
  (s.(g_SavedImages) = 0 /\ l = [] /\ s.(blocks) !! 0 = None \/ s.(g_SavedImages) <> 0 /\ has_images s l).

Lemma wp_grow_images l q rest (Q : unit -> gif_heap -> Prop) E s : file_images s l -> s.(coming) = q :: rest -> q <> 0 -> s.(blocks) !! q = None ->
  Q tt (mkGifHeap (<[q := BImages (l ++ [zero_image])]> (delete s.(g_SavedImages) s.(blocks))) rest s.(g_ImageCount) q) -> wp grow_images Q E s.
Proof.
  intros [Hcount Hl] Hc Hq Hhq HQ. unfold grow_images. wp_steps.
  - destruct Hl as [(H0 & -> & Hn)|[? _]]; [|lia]. eapply wp_alloc; [exact Hc|done|]. wp_steps.
    rewrite H0, delete_id in HQ by done. exact HQ.
  - destruct Hl as [(H0 & _)|[H0 Hl]]; [lia|]. eapply wp_load_images; [exact Hl|]. wp_steps.
    eapply wp_alloc; [exact Hc|done|]. rewrite (proj2 (Z.eqb_neq q 0)) by done.
    assert (q <> g_SavedImages s) as Hne by (intros ->; unfold has_images in Hl; congruence). rewrite (proj2 (Z.eqb_neq q _)) by done.
    wp_steps. eapply wp_free_block; [done|cbn; rewrite lookup_insert_ne by done; exact Hl|]. wp_steps. unfold set_blocks, set_images.
    cbn [blocks coming g_ImageCount g_SavedImages]. rewrite delete_insert_ne by done.
    replace (list.resize (Z.to_nat (g_ImageCount s + 1)) zero_image l) with (l ++ [zero_image]); [exact HQ|].
    rewrite Hcount. rewrite resize_ge by lia. f_equal. by replace (Z.to_nat (Z.of_nat (length l) + 1) - length l)%nat with 1%nat by lia.
Qed.

Lemma aget_appended {A} (l : list A) a : aget (l ++ [a]) (Z.of_nat (length l)) = Some a.
Proof. apply aget_lookup; [lia|]. rewrite Nat2Z.id, lookup_app_r, Nat.sub_diag by lia. done. Qed.

Definition copy_of (from : image_ptr) (m r e : Z) : image_ptr :=
  with_exts from.(i_ExtensionBlockCount) e (with_raster r (with_map m from)).

Section Parts.
Context (a i : Z) (la : list image_ptr) (from : image_ptr) (Hai : aget la i = Some from).

Lemma wp_copy_own_map n l h q m c rest colors raster exts (Q : bool -> gif_heap -> Prop) E cnt :
  whole h from colors raster exts -> h !! q = Some (BImages l) -> aget l n = Some from -> h !! a = Some (BImages la) -> new_places h [m; c] ->
  (forall l', aset l n (with_map m from) = Some l' ->
    Q true (mkGifHeap (<[q := BImages l']> (<[c := BColors colors]> (<[m := BMap (Z.of_nat (length colors)) (GifBitSize (Z.of_nat (length colors))) false c]> h))) rest cnt q)) ->
  wp (copy_map n (mkRef a i)) Q E (mkGifHeap h (m :: c :: rest) cnt q).
Proof.
  intros [(bits & sort & pc & Hmap & Hpc) Hcol _ _ _ _ _ [Hm0 _]] Hq Hn Ha [Hnd Hf] HQ.
  apply NoDup_cons in Hnd as [Hmc _]. rewrite list_elem_of_singleton in Hmc.
  apply Forall_cons in Hf as [[Hm Hhm] Hf]. apply Forall_cons in Hf as [[Hc Hhc] _].
  assert (m <> pc /\ c <> pc /\ m <> q /\ c <> q) as (N1 & N2 & N3 & N4) by (repeat split; intros ->; congruence).
  unfold copy_map. apply wp_bind. eapply wp_get_image; [exact Hq|exact Hn|]. rewrite (proj2 (Z.eqb_neq (i_ColorMap from) 0)) by done.
  apply wp_bind. eapply wp_deref; [exact Ha|exact Hai|].
  apply wp_bind. eapply wp_load; [exact Hmap|]. apply wp_bind. unfold GifMakeMapObject. rewrite <- Hcol, Z.eqb_refl. cbn [negb].
  apply wp_bind. eapply wp_alloc; [reflexivity|done|]. rewrite (proj2 (Z.eqb_neq m 0)) by done. cbn [blocks g_ImageCount g_SavedImages].
  apply wp_bind. eapply wp_alloc; [reflexivity|done|]. rewrite (proj2 (Z.eqb_neq c 0)) by done. cbn [blocks g_ImageCount g_SavedImages].
  apply wp_bind. eapply wp_store_block; [cbn; by rewrite lookup_insert_ne, lookup_insert_eq by done|]. cbn [set_blocks blocks coming g_ImageCount g_SavedImages].
  apply wp_bind. eapply wp_load_colors; [cbn; by rewrite !lookup_insert_ne by done|]. rewrite Z.ltb_irrefl.
  apply wp_bind. eapply wp_store_block; [cbn; by rewrite lookup_insert_ne, lookup_insert_eq by done|]. cbn [set_blocks blocks coming g_ImageCount g_SavedImages].
  apply wp_ret. rewrite Nat2Z.id, firstn_all.
  pose proof (aget_lt _ _ _ Hn) as Hrange. destruct (aset_exists l n (with_map m from) Hrange) as (l' & Hl' & _).
  apply wp_bind. eapply wp_set_image; [unfold has_images; cbn; by rewrite !lookup_insert_ne by done|exact Hl'|].
  rewrite (proj2 (Z.eqb_neq m 0)) by done. apply wp_ret. cbn [negb set_blocks blocks coming g_ImageCount g_SavedImages].
  rewrite (insert_insert_ne _ m c), !insert_insert_eq by done. by apply HQ.
Qed.

Lemma wp_copy_raster n sp l h q r rest raster (Q : bool -> gif_heap -> Prop) E cnt :
  h !! q = Some (BImages l) -> aget l n = Some sp -> h !! a = Some (BImages la) -> a <> q -> h !! from.(i_RasterBits) = Some (BBytes raster) ->
  from.(i_Height) * from.(i_Width) = Z.of_nat (length raster) -> i32 (from.(i_Height) * from.(i_Width)) = from.(i_Height) * from.(i_Width) -> r <> 0 -> h !! r = None ->
  (forall l', aset l n (with_raster r sp) = Some l' -> Q true (mkGifHeap (<[q := BImages l']> (<[r := BBytes raster]> h)) rest cnt q)) ->
  wp (copy_raster n (mkRef a i)) Q E (mkGifHeap h (r :: rest) cnt q).
Proof.
  intros Hq Hn Ha Naq Hr Hsize Hint Hr0 Hhr HQ. assert (r <> q /\ r <> i_RasterBits from /\ q <> i_RasterBits from /\ r <> a) as (N1 & N2 & N3 & N4) by (repeat split; intros ->; congruence).
  unfold copy_raster. apply wp_bind. eapply wp_get_image; [exact Hq|exact Hn|].
  apply wp_bind. eapply wp_deref; [exact Ha|exact Hai|]. rewrite Hint, Hsize.
  apply wp_bind. eapply wp_alloc; [reflexivity|done|]. cbn [blocks g_ImageCount g_SavedImages].
  destruct (aset_exists l n (with_raster r sp) (aget_lt _ _ _ Hn)) as (l' & Hl' & _).
  apply wp_bind. eapply wp_set_image; [unfold has_images; cbn; by rewrite lookup_insert_ne by done|exact Hl'|].
  rewrite (proj2 (Z.eqb_neq r 0)) by done. cbn [set_blocks blocks coming g_ImageCount g_SavedImages].
  apply wp_bind. eapply wp_deref; [cbn; rewrite !lookup_insert_ne by done; exact Ha|exact Hai|]. cbv zeta. rewrite Hsize.
  apply wp_bind. eapply wp_load_bytes; [cbn; by rewrite !lookup_insert_ne by done|]. rewrite !Z.ltb_irrefl. cbn [orb].
  apply wp_bind. eapply wp_store_block; [cbn; by rewrite lookup_insert_ne, lookup_insert_eq by done|].
  apply wp_ret. cbn [set_blocks blocks coming g_ImageCount g_SavedImages]. rewrite Nat2Z.id, firstn_all.
  rewrite (insert_insert_ne _ r q), insert_insert_eq by done. by apply HQ.
Qed.

Lemma wp_copy_exts n sp l h q e rest exts (Q : bool -> gif_heap -> Prop) E cnt :
  h !! q = Some (BImages l) -> aget l n = Some sp -> h !! a = Some (BImages la) -> a <> q -> sp.(i_ExtensionBlocks) <> 0 ->
  h !! from.(i_ExtensionBlocks) = Some (BExts exts) -> from.(i_ExtensionBlockCount) = Z.of_nat (length exts) -> e <> 0 -> h !! e = None ->
  (forall l', aset l n (with_exts sp.(i_ExtensionBlockCount) e sp) = Some l' ->
    Q true (mkGifHeap (<[q := BImages l']> (<[e := BExts exts]> h)) rest cnt q)) ->
  wp (copy_exts n (mkRef a i)) Q E (mkGifHeap h (e :: rest) cnt q).
Proof.
  intros Hq Hn Ha Naq Hsp He Hcount He0 Hhe HQ. assert (e <> q /\ e <> i_ExtensionBlocks from /\ q <> i_ExtensionBlocks from /\ e <> a) as (N1 & N2 & N3 & N4) by (repeat split; intros ->; congruence).
  unfold copy_exts. apply wp_bind. eapply wp_get_image; [exact Hq|exact Hn|]. rewrite (proj2 (Z.eqb_neq _ 0)) by done.
  apply wp_bind. eapply wp_deref; [exact Ha|exact Hai|]. rewrite Hcount.
  apply wp_bind. eapply wp_alloc; [reflexivity|done|]. cbn [blocks g_ImageCount g_SavedImages].
  destruct (aset_exists l n (with_exts sp.(i_ExtensionBlockCount) e sp) (aget_lt _ _ _ Hn)) as (l' & Hl' & _).
  apply wp_bind. eapply wp_set_image; [unfold has_images; cbn; by rewrite lookup_insert_ne by done|exact Hl'|].
  rewrite (proj2 (Z.eqb_neq e 0)) by done. cbn [set_blocks blocks coming g_ImageCount g_SavedImages].
  apply wp_bind. eapply wp_deref; [cbn; rewrite !lookup_insert_ne by done; exact Ha|exact Hai|]. rewrite Hcount.
  apply wp_bind. eapply wp_load_exts; [cbn; by rewrite !lookup_insert_ne by done|]. rewrite Z.ltb_irrefl.
  apply wp_bind. eapply wp_store_block; [cbn; by rewrite lookup_insert_ne, lookup_insert_eq by done|].
  apply wp_ret. cbn [set_blocks blocks coming g_ImageCount g_SavedImages]. rewrite Nat2Z.id, firstn_all.
  rewrite (insert_insert_ne _ e q), insert_insert_eq by done. by apply HQ.
Qed.

Lemma wp_copy_parts l h q m c r e rest cnt colors raster exts (Q : option Z -> gif_heap -> Prop) E :
  whole h from colors raster exts -> h !! q = Some (BImages (l ++ [from])) -> h !! a = Some (BImages la) -> a <> q -> new_places h [m; c; r; e] ->
  (forall h', h' !! q = Some (BImages (l ++ [copy_of from m r e])) -> whole h' (copy_of from m r e) colors raster exts ->
    (forall x b, h !! x = Some b -> x <> q -> h' !! x = Some b) -> Q (Some (Z.of_nat (length l))) (mkGifHeap h' rest cnt q)) ->
  wp (copy_parts (Z.of_nat (length l)) (mkRef a i)) Q E (mkGifHeap h (m :: c :: r :: e :: rest) cnt q).
Proof.
  intros Hw Hq Ha Naq [Hnd Hf] HQ. pose proof Hw as [(bits & sort & pc & Hmap & Hpc) Hcol Hras Hsize Hint Hexts Hcount [Hm0' He0']].
  apply NoDup_cons in Hnd as [Nm Hnd]. apply NoDup_cons in Hnd as [Nc Hnd]. apply NoDup_cons in Hnd as [Nr _].
  apply Forall_cons in Hf as [[Hm0 Hm] Hf]. apply Forall_cons in Hf as [[Hc0 Hc] Hf]. apply Forall_cons in Hf as [[Hr0 Hr] Hf]. apply Forall_cons in Hf as [[He0 He] _].
  assert (m <> c /\ m <> r /\ m <> e /\ c <> r /\ c <> e /\ r <> e) as (Nmc & Nmr & Nme & Ncr & Nce & Nre) by (clear -Nm Nc Nr; set_solver).
  assert (forall x b, h !! x = Some b -> x <> m /\ x <> c /\ x <> r /\ x <> e) as Hold by (intros x b Hx; repeat split; intros ->; congruence).
  destruct (Hold _ _ Hq) as (? & ? & ? & ?).
  assert (forall a b, aset (l ++ [a]) (Z.of_nat (length l)) b = Some (l ++ [b])) as Hset by (intros; by apply aset_behind).
  assert (forall x b, h !! x = Some b -> (forall li, b <> BImages li) -> x <> q) as Hnq by (intros x b Hx Hb ->; rewrite Hq in Hx; injection Hx as <-; by eapply Hb).
  unfold copy_parts. apply wp_bind. eapply (wp_copy_own_map _ (l ++ [from]) h q m c (r :: e :: rest)); [exact Hw|exact Hq|apply aget_appended|exact Ha| |].
  { split; [apply NoDup_cons; split; [by rewrite list_elem_of_singleton|apply NoDup_singleton]|by repeat constructor]. }
  intros l1 Hl1. rewrite Hset in Hl1. injection Hl1 as <-. cbn [negb]. set (h2 := <[q := _]> (<[c := _]> (<[m := _]> h))).
  assert (forall x b, h !! x = Some b -> x <> q -> h2 !! x = Some b) as Hh2
    by (intros x b Hx Hxq; destruct (Hold x b Hx) as (? & ? & _); unfold h2; by rewrite !lookup_insert_ne by done).
  apply wp_bind. eapply (wp_copy_raster _ (with_map m from)); [apply lookup_insert_eq|apply aget_appended|by apply Hh2|exact Naq| |done|done|done| |].
  { apply Hh2; [done|by eapply Hnq]. }
  { unfold h2. by rewrite !lookup_insert_ne by done. }
  intros l2 Hl2. rewrite Hset in Hl2. injection Hl2 as <-. cbn [negb]. set (h3 := <[q := _]> (<[r := _]> h2)).
  assert (forall x b, h !! x = Some b -> x <> q -> h3 !! x = Some b) as Hh3
    by (intros x b Hx Hxq; destruct (Hold x b Hx) as (? & ? & ? & _); unfold h3; rewrite !lookup_insert_ne by done; by apply Hh2).
  apply wp_bind. eapply (wp_copy_exts _ (with_raster r (with_map m from))); [apply lookup_insert_eq|apply aget_appended|by apply Hh3|exact Naq|done| |done|done| |].
  { apply Hh3; [done|by eapply Hnq]. }
  { unfold h3, h2. by rewrite !lookup_insert_ne by done. }
  intros l3 Hl3. rewrite Hset in Hl3. injection Hl3 as <-. cbn [negb]. apply wp_ret, HQ.
  - apply lookup_insert_eq.
  - unfold copy_of, h3, h2. split; cbn; [|done| |done|done| |done|done].
    + exists (GifBitSize (Z.of_nat (length colors))), false, c. rewrite !(lookup_insert_ne _ _ c) by done. split; [|by rewrite lookup_insert_eq].
      rewrite !lookup_insert_ne by done. by rewrite lookup_insert_eq.
    + rewrite !lookup_insert_ne by done. by rewrite lookup_insert_eq.
    + rewrite !lookup_insert_ne by done. by rewrite lookup_insert_eq.
  - intros x b Hx Hxq. destruct (Hold x b Hx) as (? & ? & ? & ?). rewrite !lookup_insert_ne by done. by apply Hh3.
Qed.

End Parts.

(** C40. A copy of a saved image that is not in the array of the file (here: the
    image number [i] of the array [a]), has a colour map, a raster of its size
    and extension blocks, when all five allocations succeed.  It becomes the last
    image of the file; it has a colour map and a raster of its own with the same
    contents, and an array of extension blocks of its own, whose entries are those
    of the source: the bytes of each extension are not copied but shared with the
    source.  The source, and whatever else was allocated but the old array of the
    file, stays as it was. *)
Theorem GifMakeSavedImage_copies s l a i la from colors raster exts q m c r e rest :
  file_images s l -> s.(blocks) !! a = Some (BImages la) -> aget la i = Some from -> a <> s.(g_SavedImages) ->
  whole s.(blocks) from colors raster exts -> s.(coming) = q :: m :: c :: r :: e :: rest ->
  new_places s.(blocks) [q; m; c; r; e] ->
  exists s', GifMakeSavedImage (Some (mkRef a i)) s = (Returns (Some (Z.of_nat (length l))), s') /\
    file_images s' (l ++ [copy_of from m r e]) /\ whole s'.(blocks) (copy_of from m r e) colors raster exts /\
    forall p b, s.(blocks) !! p = Some b -> p <> s.(g_SavedImages) -> s'.(blocks) !! p = Some b.
Proof.
  intros Hl Ha Hai Hap Hw Hc [Hnd Hf]. apply NoDup_cons in Hnd as [Nq Hnd]. apply Forall_cons in Hf as [[Hq0 Hq] Hf].
  set (p := g_SavedImages s) in *.
  assert (forall x b, s.(blocks) !! x = Some b -> (forall li, b <> BImages li) -> x <> p) as Hnp.
  { intros x b Hx Hb Heq. rewrite Heq in Hx. unfold p in Hx. destruct Hl as [_ [(H0 & _ & Hn0)|[_ Hi]]]; unfold has_images in *; [congruence|].
    rewrite Hi in Hx. injection Hx as <-. by eapply Hb. }
  enough (wp (GifMakeSavedImage (Some (mkRef a i))) (fun o s' => o = Some (Z.of_nat (length l)) /\
    file_images s' (l ++ [copy_of from m r e]) /\ whole s'.(blocks) (copy_of from m r e) colors raster exts /\
    forall x b, s.(blocks) !! x = Some b -> x <> p -> s'.(blocks) !! x = Some b) (fun _ => False) s) as Hwp.
  { destruct (wp_returns _ _ _ Hwp) as (o & s' & Hrun & -> & H1 & H2 & H3). by exists s'. }
  unfold GifMakeSavedImage. apply wp_bind. eapply wp_grow_images; [exact Hl|exact Hc|done|done|]. fold p.
  apply wp_bind, wp_gets. cbn [g_SavedImages]. rewrite (proj2 (Z.eqb_neq q 0)) by done. apply wp_bind, wp_gets, wp_bind, wp_modify.
  pose proof Hl as [-> _]. cbn [set_count blocks coming g_ImageCount g_SavedImages].
  apply wp_bind. apply (wp_set_image _ zero_image (l ++ [zero_image]) (l ++ [zero_image])); [apply lookup_insert_eq|by apply aset_behind|].
  cbn [set_count set_blocks blocks coming g_ImageCount g_SavedImages]. rewrite insert_insert_eq.
  assert (a <> q) as Haq by (intros ->; congruence).
  apply wp_bind. eapply wp_deref; [cbn; rewrite lookup_insert_ne, lookup_delete_ne by done; exact Ha|exact Hai|].
  apply wp_bind. apply (wp_set_image _ from (l ++ [zero_image]) (l ++ [from])); [apply lookup_insert_eq|by apply aset_behind|].
  cbn [set_count set_blocks blocks coming g_ImageCount g_SavedImages]. rewrite insert_insert_eq.
  set (h1 := <[q := BImages (l ++ [from])]> (delete p (blocks s))).
  assert (forall x b, s.(blocks) !! x = Some b -> x <> p -> h1 !! x = Some b) as Hh1.
  { intros x b Hx Hxp. assert (x <> q) by (intros ->; congruence). unfold h1. by rewrite lookup_insert_ne, lookup_delete_ne by done. }
  eapply (wp_copy_parts a i la from Hai l h1 q m c r e rest); [|apply lookup_insert_eq|by apply Hh1|exact Haq| |].
  - destruct Hw as [(bits & sort & pc & Hmap & Hpc) ? ? ? ? ? ? ?]. split; try done; [exists bits, sort, pc; split|..];
      (apply Hh1; [done|by eapply Hnp]).
  - split; [done|]. apply Forall_forall. intros x Hx. apply (proj1 (Forall_forall _ _) Hf) in Hx as Hx'. split; [apply Hx'|].
    unfold h1. rewrite lookup_insert_ne by (intros ->; done). apply lookup_delete_None. right. apply Hx'.
  - intros h' Hq' Hw' Hkeep. split; [done|]. split; [split; [cbn; rewrite length_app; cbn; lia|]; right; by split|].
    split; [done|]. intros x b Hx Hxp. apply Hkeep; [by apply Hh1|intros ->; congruence].
Qed.

(** An image of two pixels with a colour map, and a comment of one block, in an
    array of its own. *)
Definition source : image_ptr := mkImage 0 0 2 1 false 1 3 1 4.
Definition sample_blocks : gmap Z block :=
  <[1 := BMap 2 1 false 2]> (<[2 := BColors [zero_color; zero_color]]> (<[3 := BBytes [7; 9]]> (<[4 := BExts [mkExt 2 5 254]]> (<[5 := BBytes [72; 105]]> {[6 := BImages [source]]})))).
Definition sample (l : list Z) : gif_heap := mkGifHeap sample_blocks l 0 0.

Lemma GifMakeSavedImage_copies_witness : exists s',
  GifMakeSavedImage (Some (mkRef 6 0)) (sample [10; 11; 12; 13; 14]) = (Returns (Some 0), s') /\
  file_images s' [copy_of source 11 13 14] /\ whole s'.(blocks) (copy_of source 11 13 14) [zero_color; zero_color] [7; 9] [mkExt 2 5 254] /\
  forall p b, sample_blocks !! p = Some b -> p <> 0 -> s'.(blocks) !! p = Some b.
Proof.
  refine (GifMakeSavedImage_copies (sample [10; 11; 12; 13; 14]) [] 6 0 [source] source [zero_color; zero_color] [7; 9] [mkExt 2 5 254] 10 11 12 13 14 [] _ eq_refl eq_refl _ _ eq_refl _).
  - split; [reflexivity|]. left. repeat split.
  - discriminate.
  - split; try reflexivity; [by exists 1, false, 2|done].
  - split; [|by repeat constructor]. by apply (bool_decide_unpack _).
Defined.

(** ** What a copy shares *)

(** An image of the same file cannot be copied when the array moves: [CopyFrom]
    is read after [reallocarray] has released the array it points into. *)
Theorem own_image_read_after_free s l i q rest : file_images s l -> s.(g_SavedImages) <> 0 -> s.(coming) = q :: rest -> q <> 0 -> s.(blocks) !! q = None ->
  fst (GifMakeSavedImage (Some (mkRef s.(g_SavedImages) i)) s) = Stuck.
Proof.
  intros Hl Hp Hc Hq Hhq. assert (q <> g_SavedImages s) as Hqp.
  { intros ->. destruct Hl as [_ [(H0 & _)|[_ Hi]]]; [done|]. unfold has_images in Hi. congruence. }
  unfold GifMakeSavedImage. apply (stuck_bind_later _ _ (fun _ s' =>
    s' = mkGifHeap (<[q := BImages (l ++ [zero_image])]> (delete s.(g_SavedImages) s.(blocks))) rest s.(g_ImageCount) q)).
  { eapply wp_grow_images; [exact Hl|exact Hc|done|done|done]. }
  intros [] s1 ->. set (s1 := mkGifHeap _ _ _ _).
  apply (stuck_bind_later _ _ (fun p s' => p = q /\ s' = s1)); [by apply wp_gets|]. intros ? ? [-> ->]. rewrite (proj2 (Z.eqb_neq q 0)) by done.
  apply (stuck_bind_later _ _ (fun n s' => n = Z.of_nat (length l) /\ s' = s1)); [apply wp_gets; split; [apply Hl|done]|]. intros ? ? [-> ->].
  apply (stuck_bind_later _ _ (fun _ s' => s' = set_count (Z.of_nat (length l) + 1) s1)); [by apply wp_modify|]. intros ? ? ->.
  apply (stuck_bind_later _ _ (fun _ s' => s'.(blocks) !! s.(g_SavedImages) = None)).
  { eapply (wp_set_image _ zero_image (l ++ [zero_image]) (l ++ [zero_image])); [apply lookup_insert_eq|by apply aset_behind|].
    cbn. by rewrite !lookup_insert_ne, lookup_delete_eq by done. }
  intros [] s2 Hgone. apply stuck_bind. unfold deref, load_images, load. cbn [ref_array]. do 2 apply stuck_bind.
  apply (stuck_bind_later _ _ (fun h s' => h = s2.(blocks))); [by apply wp_gets|]. intros ? ? ->. by rewrite Hgone.
Qed.

(** When the array does not move, the copy is made. *)
Example own_image_in_place :
  fst ((GifMakeSavedImage (Some (mkRef 6 0)) ;;! GifMakeSavedImage (Some (mkRef 10 0))) (sample [10; 11; 12; 13; 14; 10; 15; 16; 17; 18])) = Returns (Some 1).
Proof. vm_compute. reflexivity. Qed.

(** Of the extension blocks only the array is copied: the bytes of each belong
    to the source and to the copy.  Freeing the images of the file, and then the
    extensions of the source, frees them twice. *)
Example copy_shares_extension_bytes :
  fst ((GifMakeSavedImage (Some (mkRef 6 0)) ;;! GifFreeSavedImages ;;! GifFreeExtensions source.(i_ExtensionBlockCount) source.(i_ExtensionBlocks))
    (sample [10; 11; 12; 13; 14])) = Stuck.
Proof. vm_compute. reflexivity. Qed.

(** The two on their own are fine. *)
Example copy_freed_once :
  fst ((GifMakeSavedImage (Some (mkRef 6 0)) ;;! GifFreeSavedImages) (sample [10; 11; 12; 13; 14])) = Returns tt.
Proof. vm_compute. reflexivity. Qed.

(** When the colour map cannot be copied, the new image still has the raster
    and the extension blocks of the source, and clearing it frees them. *)
Example failed_copy_frees_source :
  let '(o, s') := GifMakeSavedImage (Some (mkRef 6 0)) (sample [10; 0]) in
  o = Returns None /\ s'.(blocks) !! source.(i_RasterBits) = None /\ s'.(blocks) !! source.(i_ExtensionBlocks) = None.
Proof. vm_compute. done. Qed.
