(* ===== verification/GifDecode.v ===== *)
(** * giflib: GIF decoding (dgif_lib.c)

    The decoder as routines over [GifFileType]: opening, the screen and image
    descriptors, records, extensions, the LZW decompressor (bit buffer, block
    buffer, code tables) and the slurp loop.  A pixel line is returned rather
    than written through a pointer; after an error return the pixels decoded
    so far are not observable.  Reading delivers the bytes of [In] and a short
    count at its end. *)

From stdpp Require Import base numbers list list_numbers.
From Stdlib Require Import Lia ZArith.
From S2P Require Import Prelude GifTypes GifAlloc.

#[local] Open Scope Z_scope.
#[local] Open Scope c_scope.

(** ** Input *)

(** [READ(gif, buf, len)]: the bytes delivered. *)
Definition READ (len : Z) : GifM (list Z) :=
  fun g =>
    let n := Z.to_nat len in
    (Returns (take n g.(In)), set_In (drop n g.(In)) g).

(** [if (READ(gif, buf, len) != len) { Error = D_GIF_ERR_READ_FAILED; return GIF_ERROR; }],
    with the work done on the way out. *)
Definition READ_or (len : Z) (cleanup : GifM unit) : GifM (list Z) :=
  let! bs := READ len in
  if Z.of_nat (length bs) =? len then ret bs
  else cleanup ;;! err D_GIF_ERR_READ_FAILED.

Definition READ_full (len : Z) : GifM (list Z) := READ_or len (ret tt).

Definition byte_at (bs : list Z) (i : nat) : GifM Z := of_option (bs !! i).

Definition READ_byte : GifM Z :=
  let! bs := READ_full 1 in byte_at bs 0.

Definition UNSIGNED_LITTLE_ENDIAN (lo hi : Z) : Z := Z.lor lo (Z.shiftl hi 8).

Definition DGifGetWord : GifM Z :=
  let! c := READ_full 2 in
  let! lo := byte_at c 0 in
  let! hi := byte_at c 1 in
  ret (UNSIGNED_LITTLE_ENDIAN lo hi).

(** [if (!IS_READABLE(Private)) ...] *)
Definition check_readable : GifM unit :=
  let! p := gets Priv in
  if IS_READABLE p then ret tt else err D_GIF_ERR_NOT_READABLE.

(** ** Screen descriptor *)

(** The loop that reads the colours of a map; [cleanup] is what the caller
    does before it reports a short read. *)
Definition read_colors (n : Z) (cleanup : GifM unit) : GifM (list GifColorType) :=
  foldM (fun cs _ =>
           let! b := READ_or 3 cleanup in
           let! r := byte_at b 0 in
           let! g := byte_at b 1 in
           let! bl := byte_at b 2 in
           ret (cs ++ [mkGifColorType r g bl])) (seqZ 0 n) [].

Definition DGifGetScreenDesc : GifM unit :=
  check_readable ;;!
  let! w := DGifGetWord in
  modify (set_SWidth w) ;;!
  let! h := DGifGetWord in
  modify (set_SHeight h) ;;!
  let! b := READ_or 3 (modify (set_SColorMap None)) in
  let! b0 := byte_at b 0 in
  let! b1 := byte_at b 1 in
  let! b2 := byte_at b 2 in
  modify (set_SColorResolution (Z.shiftr (Z.land b0 0x70 + 1) 4 + 1)) ;;!
  let sort := test b0 0x08 in
  let bpp := Z.land b0 0x07 + 1 in
  modify (set_SBackGroundColor b1) ;;!
  modify (set_AspectByte b2) ;;!
  if test b0 0x80 then
    let! m := GifMakeMapObject (Z.shiftl 1 bpp) None in
    modify (set_SColorMap m) ;;!
    match m with
    | None => err D_GIF_ERR_NOT_ENOUGH_MEM
    | Some m =>
        let m := set_SortFlag sort m in
        modify (set_SColorMap (Some m)) ;;!
        let! cs := read_colors m.(ColorCount) (modify (set_SColorMap None)) in
        modify (set_SColorMap (Some (set_Colors cs m)))
    end
  else modify (set_SColorMap None).

(** ** Records *)

Definition DGifGetRecordType : GifM GifRecordType :=
  check_readable ;;!
  let! b := READ_byte in
  if b =? DESCRIPTOR_INTRODUCER then ret IMAGE_DESC_RECORD_TYPE
  else if b =? EXTENSION_INTRODUCER then ret EXTENSION_RECORD_TYPE
  else if b =? TERMINATOR_INTRODUCER then ret TERMINATE_RECORD_TYPE
  else err D_GIF_ERR_WRONG_RECORD.

(** ** LZW decompression *)

Definition set_Buf_at (i v : Z) : GifM unit :=
  let! p := gets Priv in
  let! buf := of_option (aset p.(Buf) i v) in
  modify (upd_priv (set_Buf buf)).

Definition set_Stack_at (i v : Z) : GifM unit :=
  let! p := gets Priv in
  let! st := of_option (aset p.(Stack) i (u8 v)) in
  modify (upd_priv (set_Stack st)).

Definition set_Suffix_at (i v : Z) : GifM unit :=
  let! p := gets Priv in
  let! su := of_option (aset p.(Suffix) i (u8 v)) in
  modify (upd_priv (set_Suffix su)).

Definition set_Prefix_at (i v : Z) : GifM unit :=
  let! p := gets Priv in
  let! pr := of_option (aset p.(Prefix) i v) in
  modify (upd_priv (set_Prefix pr)).

Definition no_prefixes : list Z := replicate (Z.to_nat (LZ_MAX_CODE + 1)) NO_SUCH_CODE.

Definition DGifSetupDecompress : GifM unit :=
  let! bs := READ 1 in
  match bs with
  | [] => fail
  | CodeSize :: _ =>
      if 8 <? CodeSize then err D_GIF_ERR_READ_FAILED
      else
        set_Buf_at 0 0 ;;!
        modify (upd_priv (fun p =>
          let clear := Z.shiftl 1 CodeSize in
          set_Prefix no_prefixes
          (set_CrntShiftDWord 0
          (set_CrntShiftState 0
          (set_LastCode NO_SUCH_CODE
          (set_StackPtr 0
          (set_MaxCode1 (Z.shiftl 1 (CodeSize + 1))
          (set_RunningBits (CodeSize + 1)
          (set_RunningCode (clear + 2)
          (set_EOFCode (clear + 1)
          (set_ClearCode clear
          (set_BitsPerPixel CodeSize p))))))))))))
  end.

(** Write the bytes read into [Private->Buf] from index [i] on. *)
Definition store_buf (i : Z) (bs : list Z) : GifM unit :=
  let! p := gets Priv in
  let! buf := of_option (blit p.(Buf) i bs) in
  modify (upd_priv (set_Buf buf)).

(** [DGifBufferedInput(GifFile, Private->Buf, &NextByte)] *)
Definition DGifBufferedInput : GifM Z :=
  let! p := gets Priv in
  let! n := of_option (aget p.(Buf) 0) in
  if n =? 0 then
    let! bs := READ 1 in
    store_buf 0 bs ;;!
    (if Z.of_nat (length bs) =? 1 then ret tt else err D_GIF_ERR_READ_FAILED) ;;!
    let! n := byte_at bs 0 in
    (if n =? 0 then err D_GIF_ERR_IMAGE_DEFECT else ret tt) ;;!
    let! bs := READ n in
    store_buf 1 bs ;;!
    (if Z.of_nat (length bs) =? n then ret tt else err D_GIF_ERR_READ_FAILED) ;;!
    let! p := gets Priv in
    let! NextByte := of_option (aget p.(Buf) 1) in
    set_Buf_at 1 2 ;;!
    set_Buf_at 0 (n - 1) ;;!
    ret NextByte
  else
    let! k := of_option (aget p.(Buf) 1) in
    let! NextByte := of_option (aget p.(Buf) k) in
    set_Buf_at 1 (u8 (k + 1)) ;;!
    let! p := gets Priv in
    let! n := of_option (aget p.(Buf) 0) in
    set_Buf_at 0 (u8 (n - 1)) ;;!
    ret NextByte.

Definition CodeMasks : list Z :=
  [0x0000; 0x0001; 0x0003; 0x0007; 0x000f; 0x001f; 0x003f; 0x007f;
   0x00ff; 0x01ff; 0x03ff; 0x07ff; 0x0fff].

(** One round of the loop that fills [CrntShiftDWord]. *)
Definition fill_shift (_ : unit) : GifM (unit + unit) :=
  let! p := gets Priv in
  if p.(CrntShiftState) <? p.(RunningBits) then
    let! b := DGifBufferedInput in
    modify (upd_priv (fun p =>
      set_CrntShiftState (p.(CrntShiftState) + 8)
      (set_CrntShiftDWord (Z.lor p.(CrntShiftDWord) (u32 (Z.shiftl b p.(CrntShiftState)))) p))) ;;!
    ret (inl tt)
  else ret (inr tt).

Definition DGifDecompressInput : GifM Z :=
  let! p := gets Priv in
  if LZ_BITS <? p.(RunningBits) then err D_GIF_ERR_IMAGE_DEFECT
  else
    loop 14 fill_shift tt ;;!
    let! p := gets Priv in
    let! mask := of_option (aget CodeMasks p.(RunningBits)) in
    let Code := Z.land p.(CrntShiftDWord) mask in
    modify (upd_priv (fun p =>
      set_CrntShiftState (p.(CrntShiftState) - p.(RunningBits))
      (set_CrntShiftDWord (Z.shiftr p.(CrntShiftDWord) p.(RunningBits)) p))) ;;!
    let! p := gets Priv in
    (if p.(RunningCode) <? LZ_MAX_CODE + 2 then
       modify (upd_priv (set_RunningCode (p.(RunningCode) + 1))) ;;!
       if (p.(MaxCode1) <? p.(RunningCode) + 1) && (p.(RunningBits) <? LZ_BITS) then
         modify (upd_priv (fun p => set_RunningBits (p.(RunningBits) + 1)
                                      (set_MaxCode1 (Z.shiftl p.(MaxCode1) 1) p)))
       else ret tt
     else ret tt) ;;!
    ret Code.

(** [DGifGetPrefixChar]: at most [LZ_MAX_CODE + 1] steps along the prefixes. *)
Fixpoint get_prefix_char (n : nat) (Prefix : list Z) (Code ClearCode : Z) : option Z :=
  if Code <=? ClearCode then Some Code
  else
    match n with
    | O => Some Code
    | S n =>
        if LZ_MAX_CODE <? Code then Some NO_SUCH_CODE
        else
          match aget Prefix Code with
          | None => None
          | Some c => get_prefix_char n Prefix c ClearCode
          end
    end.

Definition DGifGetPrefixChar (Prefix : list Z) (Code ClearCode : Z) : option Z :=
  get_prefix_char (Z.to_nat (LZ_MAX_CODE + 1)) Prefix Code ClearCode.

(** [while (StackPtr != 0 && i < LineLen) Line[i++] = Stack[--StackPtr];] with
    [room = LineLen - i]: the pixels popped and the new [StackPtr]. *)
Fixpoint pop_stack (StackPtr : nat) (room : Z) (Stack : list Z) : option (list Z * Z) :=
  match StackPtr with
  | O => Some ([], 0)
  | S n =>
      if room <=? 0 then Some ([], Z.of_nat (S n))
      else
        match aget Stack (Z.of_nat n), pop_stack n (room - 1) Stack with
        | Some p, Some (ps, sp) => Some (p :: ps, sp)
        | _, _ => None
        end
  end.

Definition pop (StackPtr room : Z) : GifM (list Z * Z) :=
  let! p := gets Priv in
  if StackPtr <? 0 then stuck else of_option (pop_stack (Z.to_nat StackPtr) room p.(Stack)).

(** One round of the loop that pushes the suffixes of a code. *)
Definition trace_prefix (ClearCode : Z) (st : Z * Z) : GifM (Z * Z + Z * Z) :=
  let '(StackPtr, CrntPrefix) := st in
  if (StackPtr <? LZ_MAX_CODE) && (ClearCode <? CrntPrefix) && (CrntPrefix <=? LZ_MAX_CODE) then
    let! p := gets Priv in
    let! s := of_option (aget p.(Suffix) CrntPrefix) in
    set_Stack_at StackPtr s ;;!
    let! c := of_option (aget p.(Prefix) CrntPrefix) in
    ret (inl (StackPtr + 1, c))
  else ret (inr st).

(** For a code that is not a pixel: where its trace starts.  A code that is not
    in the table yet stands for the last code followed by its own first pixel,
    which is pushed (and entered as a suffix) at once. *)
Definition start_trace (ClearCode CrntCode LastCode StackPtr : Z) : GifM (Z * Z) :=
  let! p := gets Priv in
  let! pre := of_option (aget p.(Prefix) CrntCode) in
  if pre =? NO_SUCH_CODE then
    let from := if CrntCode =? p.(RunningCode) - 2 then LastCode else CrntCode in
    let! c := of_option (DGifGetPrefixChar p.(Prefix) from ClearCode) in
    set_Stack_at StackPtr c ;;!
    set_Suffix_at (p.(RunningCode) - 2) c ;;!
    ret (StackPtr + 1, LastCode)
  else ret (StackPtr, CrntCode).

(** The trace itself, and the first pixel on top of the stack. *)
Definition push_trace (ClearCode : Z) (st : Z * Z) : GifM Z :=
  let! ' (StackPtr, CrntPrefix) :=
    loop (Z.to_nat (LZ_MAX_CODE + 1)) (trace_prefix ClearCode) st in
  if (LZ_MAX_CODE <=? StackPtr) || (LZ_MAX_CODE <? CrntPrefix) then err D_GIF_ERR_IMAGE_DEFECT
  else
    set_Stack_at StackPtr CrntPrefix ;;!
    ret (StackPtr + 1).

(** The expansion of a code is pushed on the stack; the result is the new
    [StackPtr]. *)
Definition expand_code (ClearCode CrntCode LastCode StackPtr : Z) : GifM Z :=
  let! st := start_trace ClearCode CrntCode LastCode StackPtr in
  push_trace ClearCode st.

(** The part that enters the code before the current one into the tables. *)
Definition enter_code (ClearCode CrntCode LastCode : Z) : GifM unit :=
  let! p := gets Priv in
  if negb (LastCode =? NO_SUCH_CODE) then
    let! pre := of_option (aget p.(Prefix) (p.(RunningCode) - 2)) in
    if pre =? NO_SUCH_CODE then
      set_Prefix_at (p.(RunningCode) - 2) LastCode ;;!
      let! p := gets Priv in
      let from := if CrntCode =? p.(RunningCode) - 2 then LastCode else CrntCode in
      let! c := of_option (DGifGetPrefixChar p.(Prefix) from ClearCode) in
      set_Suffix_at (p.(RunningCode) - 2) c
    else ret tt
  else ret tt.

(** The reset on a clear code. *)
Definition clear_tables : GifM unit :=
  modify (upd_priv (fun p =>
    set_LastCode NO_SUCH_CODE
    (set_MaxCode1 (Z.shiftl 1 (p.(BitsPerPixel) + 1))
    (set_RunningBits (p.(BitsPerPixel) + 1)
    (set_RunningCode (p.(EOFCode) + 1)
    (set_Prefix no_prefixes p)))))).

(** One round of the loop of [DGifDecompressLine]; the locals are the line so
    far, [StackPtr] and [LastCode]. *)
Definition decompress_round (ClearCode EOFCode LineLen : Z) (st : list Z * Z * Z) :
    GifM (list Z * Z * Z + list Z * Z * Z) :=
  let '(Line, StackPtr, LastCode) := st in
  if negb (Z.of_nat (length Line) <? LineLen) then ret (inr st)
  else
    let! CrntCode := DGifDecompressInput in
    if CrntCode =? EOFCode then err D_GIF_ERR_EOF_TOO_SOON
    else if CrntCode =? ClearCode then
      clear_tables ;;!
      ret (inl (Line, StackPtr, NO_SUCH_CODE))
    else
      let! ' (Line, StackPtr) :=
        (if CrntCode <? ClearCode then ret (Line ++ [u8 CrntCode], StackPtr)
         else
           let! sp := expand_code ClearCode CrntCode LastCode StackPtr in
           let! ' (ps, sp) := pop sp (LineLen - Z.of_nat (length Line)) in
           ret (Line ++ ps, sp)) in
      enter_code ClearCode CrntCode LastCode ;;!
      ret (inl (Line, StackPtr, CrntCode)).

(** Rounds the loop can make: each takes at least one bit from the bit buffer,
    the block buffer or the input. *)
Definition decompress_fuel (g : GifFileType) : nat :=
  (8 * length g.(In) + 8 * 256 + Z.to_nat g.(Priv).(CrntShiftState) + 2)%nat.

Definition DGifDecompressLine (LineLen : Z) : GifM (list Z) :=
  let! p := gets Priv in
  if LZ_MAX_CODE <? p.(StackPtr) then fail
  else
    let! ' (Line, StackPtr) := pop p.(StackPtr) LineLen in
    let! fuel := gets decompress_fuel in
    let! ' (Line, StackPtr, LastCode) :=
      loop fuel (decompress_round p.(ClearCode) p.(EOFCode) LineLen)
        (Line, StackPtr, p.(LastCode)) in
    modify (upd_priv (fun p => set_StackPtr StackPtr (set_LastCode LastCode p))) ;;!
    ret Line.

(** ** Raw code blocks *)

(** [DGifGetCodeNext]: the bytes of the next sub-block, or [None] at the
    terminator. *)
Definition DGifGetCodeNext : GifM (option (list Z)) :=
  let! n := READ_byte in
  if 0 <? n then
    set_Buf_at 0 n ;;!
    let! bs := READ n in
    store_buf 1 bs ;;!
    if Z.of_nat (length bs) =? n then ret (Some bs) else err D_GIF_ERR_READ_FAILED
  else
    set_Buf_at 0 0 ;;!
    modify (upd_priv (set_PixelCount 0)) ;;!
    ret None.

(** [DGifGetCode]: the code size and the first block. *)
Definition DGifGetCode : GifM (Z * option (list Z)) :=
  check_readable ;;!
  let! p := gets Priv in
  let! b := DGifGetCodeNext in
  ret (p.(BitsPerPixel), b).

(** [do if (DGifGetCodeNext(GifFile, &Dummy) == GIF_ERROR) return GIF_ERROR; while (Dummy != NULL);] *)
Definition skip_blocks : GifM unit :=
  let! input := gets In in
  loop (S (length input))
    (fun _ : unit =>
       let! b := DGifGetCodeNext in
       ret (match b with Some _ => inl tt | None => inr tt end)) tt.

(** [DGifGetLZCodes]: the code, -1 for the end code. *)
Definition DGifGetLZCodes : GifM Z :=
  check_readable ;;!
  let! Code := DGifDecompressInput in
  let! p := gets Priv in
  if Code =? p.(EOFCode) then skip_blocks ;;! ret (-1)
  else if Code =? p.(ClearCode) then
    modify (upd_priv (fun p =>
      set_MaxCode1 (Z.shiftl 1 (p.(BitsPerPixel) + 1))
      (set_RunningBits (p.(BitsPerPixel) + 1)
      (set_RunningCode (p.(EOFCode) + 1) p)))) ;;!
    ret Code
  else ret Code.

(** ** Lines and pixels *)

Definition PIXEL_LIMIT := 0xffff0000.

(** The part of [DGifGetLine] and [DGifGetPixel] behind the pixel count. *)
Definition get_pixels (n : Z) : GifM (list Z) :=
  let! line := DGifDecompressLine n in
  let! p := gets Priv in
  (if p.(PixelCount) =? 0 then skip_blocks else ret tt) ;;!
  ret line.

Definition count_pixels (n : Z) : GifM unit :=
  modify (upd_priv (fun p => set_PixelCount (u32 (p.(PixelCount) - n)) p)) ;;!
  let! p := gets Priv in
  if PIXEL_LIMIT <? p.(PixelCount) then err D_GIF_ERR_DATA_TOO_BIG else ret tt.

Definition DGifGetLine (LineLen : Z) : GifM (list Z) :=
  check_readable ;;!
  let! g := gets (fun g => g) in
  let LineLen := if LineLen =? 0 then g.(Image).(Width) else LineLen in
  count_pixels LineLen ;;!
  get_pixels LineLen.

(** The C routine decodes into its own parameter: the pixel is lost to the
    caller and only the status is returned. *)
Definition DGifGetPixel : GifM unit :=
  check_readable ;;!
  count_pixels 1 ;;!
  let! _ := get_pixels 1 in
  ret tt.

(** ** Extensions *)

Definition DGifGetExtensionNext : GifM (option (list Z)) :=
  let! n := READ_byte in
  if 0 <? n then
    set_Buf_at 0 n ;;!
    let! bs := READ n in
    store_buf 1 bs ;;!
    if Z.of_nat (length bs) =? n then ret (Some bs) else err D_GIF_ERR_READ_FAILED
  else ret None.

Definition DGifGetExtension : GifM (Z * option (list Z)) :=
  check_readable ;;!
  let! code := READ_byte in
  let! ext := DGifGetExtensionNext in
  ret (code, ext).

(** [DGifExtensionToGCB]: [None] is the error return. *)
Definition DGifExtensionToGCB (GifExtensionLength : Z) (GifExtension : list Z) :
    option GraphicsControlBlock :=
  if negb (GifExtensionLength =? 4) then None
  else
    match GifExtension with
    | e0 :: e1 :: e2 :: e3 :: _ =>
        Some (mkGraphicsControlBlock (Z.land (Z.shiftr e0 2) 0x07) (test e0 0x02)
                (UNSIGNED_LITTLE_ENDIAN e1 e2)
                (if test e0 0x01 then e3 else NO_TRANSPARENT_COLOR))
    | _ => None
    end.

Definition default_GCB := mkGraphicsControlBlock DISPOSAL_UNSPECIFIED false 0 NO_TRANSPARENT_COLOR.

(** The first graphics control block among the first [n] extension blocks. *)
Fixpoint find_gcb (blocks : list ExtensionBlock) (n : nat) : GifM (bool * GraphicsControlBlock) :=
  match n, blocks with
  | O, _ => ret (false, default_GCB)
  | S n, ep :: blocks =>
      if ep.(Function) =? GRAPHICS_EXT_FUNC_CODE then
        let! bytes := of_option ep.(Bytes) in
        match DGifExtensionToGCB ep.(ByteCount) bytes with
        | Some gcb => ret (true, gcb)
        | None => ret (false, default_GCB)
        end
      else find_gcb blocks n
  | S _, [] => stuck
  end.

(** [DGifSavedExtensionToGCB]: whether it succeeds, and the block it leaves in
    [*GCB] ([None]: left alone). *)
Definition DGifSavedExtensionToGCB (ImageIndex : Z) : GifM (bool * option GraphicsControlBlock) :=
  let! g := gets (fun g => g) in
  if (ImageIndex <? 0) || (g.(ImageCount) - 1 <? ImageIndex) then ret (false, None)
  else
    let! images := of_option g.(SavedImages) in
    let! sp := of_option (aget images ImageIndex) in
    let n := Z.to_nat sp.(sp_ExtensionBlockCount) in
    let! r := (match sp.(sp_ExtensionBlocks) with
               | Some blocks => find_gcb blocks n
               | None => if (n =? 0)%nat then ret (false, default_GCB) else stuck
               end) in
    ret (fst r, Some (snd r)).

(** ** Images *)

(** [memcpy(&sp->ImageDesc, &GifFile->Image, ...)] and the fresh copy of the
    colour map. *)
Definition add_saved_image : GifM unit :=
  let! g := gets (fun g => g) in
  let! ok := malloc in
  if negb ok then err D_GIF_ERR_NOT_ENOUGH_MEM
  else
    let images := match g.(SavedImages) with
                  | Some l => resize (g.(ImageCount) + 1) zero_saved l
                  | None => [zero_saved]
                  end in
    modify (set_SavedImages (Some images)) ;;!
    let! copy :=
      (match g.(Image).(ColorMap) with
       | None => ret None
       | Some m => GifMakeMapObject m.(ColorCount) (Some m.(Colors))
       end) in
    let! _ := of_option (aget images g.(ImageCount)) in
    match g.(Image).(ColorMap), copy with
    | Some _, None => err D_GIF_ERR_NOT_ENOUGH_MEM
    | _, _ =>
        let sp := mkSavedImage (set_ColorMap copy g.(Image)) None 0 None in
        let! images := of_option (aset images g.(ImageCount) sp) in
        modify (set_SavedImages (Some images)) ;;!
        modify (set_ImageCount (g.(ImageCount) + 1))
    end.

Definition set_local_map (m : option ColorMapObject) : GifM unit :=
  modify (upd_Image (set_ColorMap m)).

Definition DGifGetImageDesc : GifM unit :=
  check_readable ;;!
  let! l := DGifGetWord in
  modify (upd_Image (set_Left l)) ;;!
  let! t := DGifGetWord in
  modify (upd_Image (set_Top t)) ;;!
  let! w := DGifGetWord in
  modify (upd_Image (set_Width w)) ;;!
  let! h := DGifGetWord in
  modify (upd_Image (set_Height h)) ;;!
  let! b := READ_or 1 (set_local_map None) in
  let! b0 := byte_at b 0 in
  let bpp := Z.land b0 0x07 + 1 in
  modify (upd_Image (set_Interlace (test b0 0x40))) ;;!
  set_local_map None ;;!
  (if test b0 0x80 then
     let! m := GifMakeMapObject (Z.shiftl 1 bpp) None in
     set_local_map m ;;!
     match m with
     | None => err D_GIF_ERR_NOT_ENOUGH_MEM
     | Some m =>
         let! cs := read_colors m.(ColorCount) (set_local_map None) in
         set_local_map (Some (set_Colors cs m))
     end
   else ret tt) ;;!
  add_saved_image ;;!
  modify (upd_priv (set_PixelCount (u32 (w * h)))) ;;!
  DGifSetupDecompress.

(** ** The slurp loop *)

(** The rows of an interlaced image in the order they are stored. *)
Definition interlace_passes : list (Z * Z) := [(0, 8); (4, 8); (2, 4); (1, 2)].

Definition pass_rows (Height : Z) (pass : Z * Z) : list Z :=
  (fun k => fst pass + snd pass * k) <$> seqZ 0 ((Height - fst pass + snd pass - 1) / snd pass).

Definition interlace_rows (Height : Z) : list Z :=
  flat_map (pass_rows Height) interlace_passes.

(** [sp->RasterBits]: the update of the last saved image. *)
Definition upd_saved (i : Z) (f : SavedImage -> option SavedImage) : GifM unit :=
  let! images := gets SavedImages in
  let! images := of_option images in
  let! sp := of_option (aget images i) in
  let! sp := of_option (f sp) in
  let! images := of_option (aset images i sp) in
  modify (set_SavedImages (Some images)).

Definition store_pixels (i off : Z) (line : list Z) : GifM unit :=
  upd_saved i (fun sp =>
    match sp.(RasterBits) with
    | None => None
    | Some r => option_map (fun r => set_RasterBits (Some r) sp) (blit r off line)
    end).

Definition INT_MAX := 2147483647.

Definition slurp_image : GifM unit :=
  DGifGetImageDesc ;;!
  let! g := gets (fun g => g) in
  let i := g.(ImageCount) - 1 in
  let! images := of_option g.(SavedImages) in
  let! sp := of_option (aget images i) in
  let w := sp.(ImageDesc).(Width) in
  let h := sp.(ImageDesc).(Height) in
  if (w <? 0) && (h <? 0) && (Z.quot INT_MAX h <? w) then fail
  else
    let ImageSize := u32 (w * h) in
    let! ok := malloc in
    if negb ok then upd_saved i (fun sp => Some (set_RasterBits None sp)) ;;! fail
    else
      upd_saved i (fun sp => Some (set_RasterBits (Some (replicate (Z.to_nat ImageSize) 0)) sp)) ;;!
      (if sp.(ImageDesc).(Interlace) then
         for_each (fun j =>
                     let! line := DGifGetLine w in
                     store_pixels i (j * w) line) (interlace_rows h)
       else
         let! line := DGifGetLine (i32 ImageSize) in
         store_pixels i 0 line) ;;!
      let! g := gets (fun g => g) in
      match g.(ExtensionBlocks) with
      | None => ret tt
      | Some blocks =>
          upd_saved i (fun sp => Some (set_sp_ExtensionBlocks (Some blocks)
                                        (set_sp_ExtensionBlockCount g.(ExtensionBlockCount) sp))) ;;!
          modify (set_ExtensionBlocks None) ;;!
          modify (set_ExtensionBlockCount 0)
      end.

Definition add_extension (Func : Z) (data : list Z) : GifM unit :=
  let! g := gets (fun g => g) in
  let! ' (ok, cnt, blocks) :=
    GifAddExtensionBlock g.(ExtensionBlockCount) g.(ExtensionBlocks) Func
      (Z.of_nat (length data)) (Some data) in
  modify (set_ExtensionBlockCount cnt) ;;!
  modify (set_ExtensionBlocks blocks) ;;!
  if ok : bool then ret tt else fail.

(** [while (ExtData != NULL) { ... }]: the continuation blocks. *)
Definition slurp_continuation (_ : unit) : GifM (unit + unit) :=
  let! ext := DGifGetExtensionNext in
  match ext with
  | None => ret (inr tt)
  | Some data => add_extension CONTINUE_EXT_FUNC_CODE data ;;! ret (inl tt)
  end.

Definition slurp_extension : GifM unit :=
  let! ' (code, ext) := DGifGetExtension in
  match ext with
  | None => ret tt
  | Some data =>
      add_extension code data ;;!
      let! input := gets In in
      loop (S (length input)) slurp_continuation tt
  end.

Definition slurp_record (_ : unit) : GifM (unit + unit) :=
  let! t := DGifGetRecordType in
  match t with
  | IMAGE_DESC_RECORD_TYPE => slurp_image ;;! ret (inl tt)
  | EXTENSION_RECORD_TYPE => slurp_extension ;;! ret (inl tt)
  | TERMINATE_RECORD_TYPE => ret (inr tt)
  | _ => ret (inl tt)
  end.

Definition DGifSlurp : GifM unit :=
  modify (set_ExtensionBlocks None) ;;!
  modify (set_ExtensionBlockCount 0) ;;!
  let! input := gets In in
  loop (S (length input)) slurp_record tt ;;!
  let! n := gets ImageCount in
  if n =? 0 then err D_GIF_ERR_NO_IMAG_DSCR else ret tt.

(** ** Opening and closing *)

(** The cleared structures of a new handle. *)
Definition fresh_gif (input : list Z) (allocs : list bool) : GifFileType :=
  mkGifFileType 0 0 0 0 0 None 0 zero_desc None 0 None 0 zero_private input [] 0 allocs.

(** The stamp: the first three bytes have to be "GIF"; the result is whether
    the version byte is a 9. *)
Definition read_stamp : GifM (option bool) :=
  let! bs := READ GIF_STAMP_LEN in
  if negb (Z.of_nat (length bs) =? GIF_STAMP_LEN) then fail
  else
    let! v := of_option (aget bs GIF_VERSION_POS) in
    ret (if decide (take 3 bs = take 3 GIF89_STAMP) then Some (v =? 57) else None).

(** [DGifOpen]: the handle, or the code stored in [*Error]. *)
Definition DGifOpen (input : list Z) (allocs : list bool) : GifM GifFileType :=
  fun _ =>
  let g0 := fresh_gif input allocs in
  let open :=
    (let! ok := malloc in
     if negb ok then err D_GIF_ERR_NOT_ENOUGH_MEM
     else
       let! ok := malloc in
       if negb ok then err D_GIF_ERR_NOT_ENOUGH_MEM
       else
         modify (upd_priv (set_FileState FILE_STATE_READ)) ;;!
         let! stamp := attempt read_stamp in
         match stamp with
         | None => err D_GIF_ERR_READ_FAILED
         | Some None => err D_GIF_ERR_NOT_GIF_FILE
         | Some (Some v89) =>
             let! ok := attempt DGifGetScreenDesc in
             match ok with
             | None => err D_GIF_ERR_NO_SCRN_DSCR
             | Some _ =>
                 modify (set_Error 0) ;;!
                 modify (upd_priv (set_gif89 v89)) ;;!
                 gets (fun g => g)
             end
         end) in
  open g0.

(** [DGifOpenFileHandle]: as [DGifOpen], except that a failure of the screen
    descriptor leaves [*Error] alone (here: 0). *)
Definition DGifOpenFileHandle (input : list Z) (allocs : list bool) : GifM GifFileType :=
  fun s =>
  match DGifOpen input allocs s with
  | (Fails, g) => (Fails, if g.(Error) =? D_GIF_ERR_NO_SCRN_DSCR then set_Error 0 g else g)
  | r => r
  end.

(** [DGifOpenFileName]: [file] is what [open] finds under the name. *)
Definition DGifOpenFileName (file : option (list Z)) (allocs : list bool) : GifM GifFileType :=
  match file with
  | None => err D_GIF_ERR_OPEN_FAILED
  | Some input => DGifOpenFileHandle input allocs
  end.

(** [DGifCloseFile]: the heap fields are released; the result is the status
    and the code for [*ErrorCode].  [fclose_ok]: there is no [File], or it
    closes without an error. *)
Definition DGifCloseFile (fclose_ok : bool) : GifM (bool * Z) :=
  set_local_map None ;;!
  modify (set_SColorMap None) ;;!
  GifFreeSavedImages ;;!
  let! g := gets (fun g => g) in
  let '(cnt, blocks) := GifFreeExtensions g.(ExtensionBlockCount) g.(ExtensionBlocks) in
  modify (set_ExtensionBlockCount cnt) ;;!
  modify (set_ExtensionBlocks blocks) ;;!
  if negb (IS_READABLE g.(Priv)) then ret (false, D_GIF_ERR_NOT_READABLE)
  else if negb fclose_ok then ret (false, D_GIF_ERR_CLOSE_FAILED)
  else ret (true, 0).
