(* ===== verification/GifSafety.v ===== *)
(** * giflib: the decoder is safe on every input

    The well-formedness invariant of the decoder's private structure, its
    preservation by every routine of dgif_lib.c, and the resulting theorems:
    no out-of-bounds access and no endless loop, whatever the bytes of the
    file and whichever allocations fail. *)

From stdpp Require Import base numbers list list_numbers.
From Stdlib Require Import Lia ZArith.
From S2P Require Import Prelude GifTypes GifAlloc GifDecode.

#[local] Open Scope Z_scope.

Definition byte (b : Z) : Prop := 0 <= b < 256.
Definition code_ok (c : Z) : Prop := 0 <= c <= LZ_MAX_CODE \/ c = NO_SUCH_CODE.

(** The arrays of the private structure. *)
Record arrays_wf (p : GifFilePrivateType) : Prop := {
  wf_Buf : length p.(Buf) = 256%nat /\ Forall byte p.(Buf);
  wf_Stack : Z.of_nat (length p.(Stack)) = LZ_MAX_CODE;
  wf_Stack_bytes : Forall byte p.(Stack);
  wf_Suffix : Z.of_nat (length p.(Suffix)) = LZ_MAX_CODE + 1;
  wf_Suffix_bytes : Forall byte p.(Suffix);
  wf_Prefix : Z.of_nat (length p.(Prefix)) = LZ_MAX_CODE + 1;
  wf_Prefix_codes : Forall code_ok p.(Prefix)
}.

(** The scalars between [DGifSetupDecompress] and the end of the image. *)
Record codes_wf (p : GifFilePrivateType) : Prop := {
  wf_bpp : 0 <= p.(BitsPerPixel) <= 8;
  wf_clear : p.(ClearCode) = 2 ^ p.(BitsPerPixel);
  wf_eof : p.(EOFCode) = p.(ClearCode) + 1;
  wf_rbits : p.(BitsPerPixel) + 1 <= p.(RunningBits) <= LZ_BITS;
  wf_rcode : p.(ClearCode) + 2 <= p.(RunningCode) <= LZ_MAX_CODE + 2;
  wf_sp : 0 <= p.(StackPtr) <= LZ_MAX_CODE;
  wf_last : code_ok p.(LastCode);
  wf_shift : 0 <= p.(CrntShiftState) < 20
}.

Definition bytes_in (g : GifFileType) : Prop := Forall byte g.(In).

Record dec_wf (g : GifFileType) : Prop := {
  dec_in : bytes_in g;
  dec_arrays : arrays_wf g.(Priv);
  dec_codes : codes_wf g.(Priv)
}.

Create HintDb gifwf.
#[export] Hint Resolve dec_in dec_arrays dec_codes wf_Buf wf_Stack wf_Suffix wf_Prefix : gifwf.

Lemma clear_range p : codes_wf p -> 1 <= p.(ClearCode) <= 256.
Proof.
  intros [Hb Hc]. rewrite Hc.
  split; [apply (Z.pow_le_mono_r 2 0)|change 256 with (2 ^ 8); apply Z.pow_le_mono_r]; lia.
Qed.

Lemma u8_byte z : byte (u8 z).
Proof. apply u8_range. Qed.
#[export] Hint Resolve u8_byte : gifwf.

Lemma code_ok_range c : code_ok c -> 0 <= c <= 4098.
Proof. unfold code_ok, LZ_MAX_CODE, NO_SUCH_CODE. lia. Qed.

(** ** Updates of single components *)

Definition put_buf (input buf : list Z) (g : GifFileType) : GifFileType :=
  set_In input (upd_priv (set_Buf buf) g).

Lemma dec_wf_put_buf g input buf :
  dec_wf g -> Forall byte input -> length buf = 256%nat -> Forall byte buf ->
  dec_wf (put_buf input buf g).
Proof. intros [Hi [] []] ? ? ?. by split; [done|split; done|split; done]. Qed.

Lemma dec_wf_Error e g : dec_wf g -> dec_wf (set_Error e g).
Proof. intros [Hi [] []]. by split; [done|split; done|split; done]. Qed.
#[export] Hint Resolve dec_wf_Error : gifwf.

Lemma wp_err {A} e (Q : A -> GifFileType -> Prop) (E : GifFileType -> Prop) g :
  E (set_Error e g) -> wp (err e) Q E g.
Proof. done. Qed.

Lemma aset_byte (l l' : list Z) i v n :
  length l = n -> Forall byte l -> byte v -> aset l i v = Some l' -> length l' = n /\ Forall byte l'.
Proof.
  intros Hn Hl Hv Ha. split; [by rewrite (aset_length _ _ _ _ Ha)|by eapply aset_Forall].
Qed.

Lemma blit_byte vs : forall (l : list Z) i n,
  length l = n -> Forall byte l -> Forall byte vs ->
  0 <= i -> i + Z.of_nat (length vs) <= Z.of_nat n ->
  exists l', blit l i vs = Some l' /\ length l' = n /\ Forall byte l' /\
    (forall j, 0 <= j < i -> aget l' j = aget l j) /\
    (forall j, 0 <= j < Z.of_nat (length vs) -> aget l' (i + j) = aget vs j).
Proof.
  induction vs as [|v vs IH]; intros l i n Hn Hl Hvs Hi Hle; cbn [blit].
  - exists l. repeat split; try done. cbn. lia.
  - cbn [length] in Hle. apply Forall_cons in Hvs as [Hv Hvs].
    destruct (aset l i v) as [l1|] eqn:Ha; [|rewrite aset_Some in Ha by lia; done].
    destruct (aset_byte _ _ _ _ n Hn Hl Hv Ha) as [Hn1 Hl1].
    destruct (IH l1 (i + 1) n Hn1 Hl1 Hvs ltac:(lia) ltac:(lia)) as (l' & -> & ? & ? & Hlo & Hhi).
    exists l'. split; [done|]. split; [done|]. split; [done|]. split.
    + intros j Hj. rewrite Hlo by lia. by apply (aget_aset_ne _ _ _ _ _ Ha); lia.
    + intros j Hj. destruct (decide (j = 0)) as [->|].
      * rewrite Hlo by lia. rewrite Z.add_0_r, (aget_aset_eq _ _ _ _ Ha). done.
      * replace (i + j) with (i + 1 + (j - 1)) by lia. cbn [length] in Hj. rewrite Hhi by lia.
        unfold aget. rewrite !decide_True by lia.
        replace (Z.to_nat j) with (S (Z.to_nat (j - 1))) by lia. done.
Qed.

(** ** The block buffer *)

Definition buf0 (g : GifFileType) : Z := nth 0 g.(Priv).(Buf) 0.

(** Bits the decompressor can still consume. *)
Definition bits_left (g : GifFileType) : Z :=
  8 * Z.of_nat (length g.(In)) + 8 * buf0 g + g.(Priv).(CrntShiftState).

Lemma buf0_aget g : dec_wf g -> aget g.(Priv).(Buf) 0 = Some (buf0 g).
Proof.
  intros Hwf. unfold buf0, aget. cbn. destruct (Priv g).(Buf) eqn:E; [|done].
  destruct (wf_Buf _ (dec_arrays _ Hwf)) as [Hl _]. by rewrite E in Hl.
Qed.

Lemma buf0_byte g : dec_wf g -> byte (buf0 g).
Proof.
  intros Hwf. destruct (wf_Buf _ (dec_arrays _ Hwf)) as [_ Hf].
  eapply aget_Forall; [exact Hf|]. by apply buf0_aget.
Qed.

Lemma bits_left_nonneg g : dec_wf g -> 0 <= bits_left g.
Proof.
  intros Hwf. pose proof (buf0_byte g Hwf). destruct (wf_shift _ (dec_codes _ Hwf)).
  unfold bits_left, byte in *. lia.
Qed.

Lemma wp_READ n (Q : list Z -> GifFileType -> Prop) E g :
  Q (take (Z.to_nat n) g.(In)) (set_In (drop (Z.to_nat n) g.(In)) g) -> wp (READ n) Q E g.
Proof. done. Qed.

Lemma bytes_take n l : Forall byte l -> Forall byte (take n l).
Proof. apply Forall_take. Qed.
Lemma bytes_drop n l : Forall byte l -> Forall byte (drop n l).
Proof. apply Forall_drop. Qed.
#[export] Hint Resolve bytes_take bytes_drop : gifwf.

Lemma dec_wf_set_In g l : dec_wf g -> Forall byte l -> dec_wf (set_In l g).
Proof. intros [Hi [] []] ?. by split; [done|split; done|split; done]. Qed.
#[export] Hint Resolve dec_wf_set_In : gifwf.

Lemma dec_wf_set_Buf g buf :
  dec_wf g -> length buf = 256%nat -> Forall byte buf -> dec_wf (upd_priv (set_Buf buf) g).
Proof. intros [Hi [] []] ? ?. by split; [done|split; done|split; done]. Qed.

Lemma wp_store_buf i bs (Q : unit -> GifFileType -> Prop) E g :
  arrays_wf g.(Priv) -> Forall byte bs -> 0 <= i -> i + Z.of_nat (length bs) <= 256 ->
  (forall buf, length buf = 256%nat -> Forall byte buf ->
     (forall j, 0 <= j < i -> aget buf j = aget g.(Priv).(Buf) j) ->
     (forall j, 0 <= j < Z.of_nat (length bs) -> aget buf (i + j) = aget bs j) ->
     Q tt (upd_priv (set_Buf buf) g)) ->
  wp (store_buf i bs) Q E g.
Proof.
  intros Hwf Hbs Hi Hle HQ. destruct (wf_Buf _ Hwf) as [Hl Hf].
  destruct (blit_byte bs g.(Priv).(Buf) i 256 Hl Hf Hbs Hi ltac:(lia)) as (l' & Hb & Hl' & Hf' & Hlo & Hhi).
  unfold store_buf. do 2 wp_step. apply wp_bind. apply (wp_of_option _ l'); [done|].
  wp_step. by apply HQ.
Qed.

Lemma wp_set_Buf_at i v (Q : unit -> GifFileType -> Prop) E g :
  arrays_wf g.(Priv) -> byte v -> 0 <= i < 256 ->
  (forall buf, length buf = 256%nat -> Forall byte buf -> aset g.(Priv).(Buf) i v = Some buf ->
     Q tt (upd_priv (set_Buf buf) g)) ->
  wp (set_Buf_at i v) Q E g.
Proof.
  intros Hwf Hv Hi HQ. destruct (wf_Buf _ Hwf) as [Hl Hf].
  assert (aset g.(Priv).(Buf) i v = Some (<[Z.to_nat i := v]> g.(Priv).(Buf))) as Ha
    by (apply aset_Some; lia).
  unfold set_Buf_at. do 2 wp_step. apply wp_bind. eapply wp_of_option; [done|].
  wp_step. destruct (aset_byte _ _ _ _ _ Hl Hf Hv Ha). by apply HQ.
Qed.

Lemma buf0_upd g buf b : aget buf 0 = Some b -> buf0 (upd_priv (set_Buf buf) g) = b.
Proof. unfold buf0, aget. cbn. destruct buf; [done|]. by intros [= ->]. Qed.

Lemma DGifBufferedInput_safe g :
  dec_wf g ->
  wp DGifBufferedInput
    (fun b g' => byte b /\ dec_wf g' /\ bits_left g' + 8 <= bits_left g /\
       exists input buf, g' = put_buf input buf g /\ (length input <= length g.(In))%nat)
    dec_wf g.
Proof.
  intros Hwf. pose proof (buf0_byte g Hwf) as Hb0. pose proof (dec_in _ Hwf) as Hin. unfold bytes_in in Hin.
  destruct (wf_Buf _ (dec_arrays _ Hwf)) as [Hl Hf].
  unfold DGifBufferedInput. do 2 wp_step. apply wp_bind.
  apply (wp_of_option _ (buf0 g)); [by apply buf0_aget|].
  destruct (Z.eqb_spec (buf0 g) 0) as [Hz|Hnz].
  - apply wp_bind, wp_READ. change (Z.to_nat 1) with 1%nat.
    set (g1 := set_In _ g). assert (dec_wf g1) as Hwf1 by eauto with gifwf.
    apply wp_bind, wp_store_buf; [by apply dec_arrays|eauto with gifwf|lia|rewrite length_take; lia|].
    intros b1 Hl1 Hf1 _ _. pose proof (dec_wf_set_Buf _ _ Hwf1 Hl1 Hf1) as Hwf2.
    apply wp_bind. destruct g.(In) as [|n input] eqn:Ein.
    { cbn. by apply dec_wf_Error. }
    cbn [take length]. change (Z.of_nat 1 =? 1) with true. cbv iota. apply wp_ret.
    apply Forall_cons in Hin as [Hn Hin]. cbn [drop] in g1.
    apply wp_bind. apply (wp_of_option _ n); [done|].
    apply wp_bind. destruct (Z.eqb_spec n 0) as [Hn0|Hn0].
    { apply wp_err. by apply dec_wf_Error. }
    apply wp_ret, wp_bind, wp_READ. set (g2 := upd_priv _ g1) in *.
    change (In g2) with input.
    apply wp_bind, wp_store_buf; [by apply dec_arrays; eauto with gifwf|eauto with gifwf|lia| |].
    { rewrite length_take. unfold byte in Hn. lia. }
    intros b2 Hl2 Hf2 _ Hhi. set (g3 := set_In (drop (Z.to_nat n) input) g2).
    assert (dec_wf g3) as Hwf3 by eauto with gifwf.
    pose proof (dec_wf_set_Buf _ _ Hwf3 Hl2 Hf2) as Hwf4.
    apply wp_bind. rewrite length_take. destruct (Z.eqb_spec (Z.of_nat (Z.to_nat n `min` length input)) n) as [He|He].
    2:{ apply wp_err. by apply dec_wf_Error. }
    apply wp_ret. do 2 wp_step. cbn [Priv upd_priv set_Priv Buf set_Buf].
    destruct (aget_Some b2 1) as [nb Hnb]; [lia|].
    apply wp_bind, (wp_of_option _ nb); [done|].
    apply wp_bind, wp_set_Buf_at; [by apply dec_arrays|by unfold byte|lia|]. intros b3 Hl3 Hf3 _.
    apply wp_bind, wp_set_Buf_at; [by apply dec_arrays, dec_wf_set_Buf|unfold byte in *; lia|lia|].
    intros b4 Hl4 Hf4 Ha4. apply wp_ret.
    split; [by eapply aget_Forall; [|exact Hnb]|]. split; [do 2 (apply dec_wf_set_Buf; try done)|].
    split.
    + unfold bits_left. rewrite (buf0_upd _ _ (n - 1)) by (by eapply aget_aset_eq).
      cbn [In upd_priv set_Priv Priv set_Buf CrntShiftState]. change (In g3) with (drop (Z.to_nat n) input).
      rewrite length_drop, Ein, Hz. cbn [length]. change (CrntShiftState (Priv g3)) with (CrntShiftState (Priv g)). lia.
    + exists (drop (Z.to_nat n) input), b4. split; [done|].
      rewrite length_drop. cbn [length]. lia.
  - destruct (aget_Some g.(Priv).(Buf) 1) as [k Hk]; [lia|].
    assert (byte k) as Hbk by (by eapply aget_Forall; [|exact Hk]).
    apply wp_bind, (wp_of_option _ k); [done|].
    destruct (aget_Some g.(Priv).(Buf) k) as [nb Hnb]; [unfold byte in Hbk; lia|].
    apply wp_bind, (wp_of_option _ nb); [done|].
    apply wp_bind, wp_set_Buf_at; [by apply dec_arrays|apply u8_byte|lia|]. intros b1 Hl1 Hf1 Ha1.
    do 2 wp_step. cbn [Priv upd_priv set_Priv Buf set_Buf].
    assert (aget b1 0 = Some (buf0 g)) as Hb1.
    { rewrite (aget_aset_ne _ _ _ _ _ Ha1) by lia. by apply buf0_aget. }
    apply wp_bind, (wp_of_option _ (buf0 g)); [done|].
    pose proof (dec_wf_set_Buf _ _ Hwf Hl1 Hf1) as Hwf1.
    apply wp_bind, wp_set_Buf_at; [by apply dec_arrays|apply u8_byte|lia|]. intros b2 Hl2 Hf2 Ha2. apply wp_ret.
    split; [by eapply aget_Forall; [|exact Hnb]|]. split; [by apply dec_wf_set_Buf|].
    split.
    + unfold bits_left. rewrite (buf0_upd _ _ (u8 (buf0 g - 1))) by (by eapply aget_aset_eq).
      rewrite u8_small by (unfold byte in *; lia). cbn. lia.
    + exists (In g), b2. split; [by destruct g|done].
Qed.

(** ** The bit buffer *)

(** The public fields the slurp loop works on. *)
Definition structure (g : GifFileType) :=
  (g.(ImageCount), g.(SavedImages), g.(ExtensionBlockCount), g.(ExtensionBlocks), g.(Image)).

(** What stays fixed while an image is decoded; the input only gets shorter. *)
Definition same_image (g g' : GifFileType) : Prop :=
  g'.(Priv).(ClearCode) = g.(Priv).(ClearCode) /\
  g'.(Priv).(EOFCode) = g.(Priv).(EOFCode) /\
  g'.(Priv).(BitsPerPixel) = g.(Priv).(BitsPerPixel) /\
  structure g' = structure g /\
  (length g'.(In) <= length g.(In))%nat.

#[export] Instance same_image_preorder : PreOrder same_image.
Proof.
  split; [done|]. intros x y z (?&?&?&?&?) (?&?&?&?&?). do 4 (split; [congruence|]). lia.
Qed.

(** Nothing but the bit buffer, its running width and the input moves. *)
Definition same_tables (g g' : GifFileType) : Prop :=
  same_image g g' /\
  g'.(Priv).(Prefix) = g.(Priv).(Prefix) /\ g'.(Priv).(Suffix) = g.(Priv).(Suffix) /\
  g'.(Priv).(Stack) = g.(Priv).(Stack) /\ g'.(Priv).(LastCode) = g.(Priv).(LastCode) /\
  g'.(Priv).(StackPtr) = g.(Priv).(StackPtr).

Lemma dec_wf_shift g s d :
  dec_wf g -> 0 <= s < 20 ->
  dec_wf (upd_priv (fun p => set_CrntShiftState s (set_CrntShiftDWord d p)) g).
Proof. intros [Hi [] []] ?. by split; [done|split; done|split; done]. Qed.

Lemma fill_shift_safe fuel g (Q : unit -> GifFileType -> Prop) :
  dec_wf g -> (14 <= fuel)%nat ->
  (forall g', dec_wf g' -> bits_left g' <= bits_left g -> same_tables g g' ->
     g'.(Priv).(RunningBits) = g.(Priv).(RunningBits) ->
     g'.(Priv).(RunningCode) = g.(Priv).(RunningCode) ->
     g'.(Priv).(MaxCode1) = g.(Priv).(MaxCode1) ->
     g'.(Priv).(RunningBits) <= g'.(Priv).(CrntShiftState) ->
     Q tt g') ->
  wp (loop fuel fill_shift tt) Q dec_wf g.
Proof.
  intros Hwf Hfuel HQ.
  apply (wp_loop (fun n _ g' => dec_wf g' /\ bits_left g' <= bits_left g /\ same_tables g g' /\
           g'.(Priv).(RunningBits) = g.(Priv).(RunningBits) /\
           g'.(Priv).(RunningCode) = g.(Priv).(RunningCode) /\
           g'.(Priv).(MaxCode1) = g.(Priv).(MaxCode1) /\
           (n = Z.to_nat (g'.(Priv).(RunningBits) - g'.(Priv).(CrntShiftState)))))
    with (n := Z.to_nat (g.(Priv).(RunningBits) - g.(Priv).(CrntShiftState))).
  2: split; [exact Hwf|]; split; [lia|]; by repeat split.
  2:{ pose proof (dec_codes _ Hwf) as [? ? ? ? ? ? ? ?]. unfold LZ_BITS in *. lia. }
  intros n [] g1 (Hwf1 & Hb & Hst & Hrb & Hrc & Hmc & Hn).
  unfold fill_shift. do 2 wp_step. cbv beta.
  destruct (Z.ltb_spec (CrntShiftState (Priv g1)) (RunningBits (Priv g1))).
  2:{ apply wp_ret. apply HQ; done. }
  apply wp_bind. eapply wp_mono; [by apply DGifBufferedInput_safe| |done].
  intros b g2 (Hbb & Hwf2 & Hb2 & input & buf & -> & Hin2). do 3 wp_step.
  pose proof (dec_codes _ Hwf1) as [? ? ? ? ? ? ? ?]. unfold LZ_BITS in *.
  eexists. split; [|split; [|split; [|split; [|split; [exact Hrb|split; [exact Hrc|split; [exact Hmc|reflexivity]]]]]]].
  - cbn. lia.
  - apply (dec_wf_shift (put_buf input buf g1)); [done|]. cbn. lia.
  - unfold bits_left in *. cbn in *. unfold buf0 in *. cbn in *. lia.
  - destruct Hst as [(? & ? & ? & ? & Hlen) Hrest]. split; [|exact Hrest].
    do 4 (split; [done|]). cbn. lia.
Qed.

Lemma DGifDecompressInput_safe g :
  dec_wf g ->
  wp DGifDecompressInput
    (fun code g' => 0 <= code <= LZ_MAX_CODE /\ dec_wf g' /\ bits_left g' + 1 <= bits_left g /\
       same_tables g g' /\ g.(Priv).(ClearCode) + 3 <= g'.(Priv).(RunningCode))
    dec_wf g.
Proof.
  intros Hwf. unfold DGifDecompressInput. do 2 wp_step.
  pose proof (dec_codes _ Hwf) as [? ? ? Hrb0 ? ? ? ?].
  destruct (Z.ltb_spec LZ_BITS (RunningBits (Priv g))); [lia|].
  apply wp_bind, fill_shift_safe; [done|lia|].
  intros g1 Hwf1 Hb1 Hst1 Hrb1 Hrc1 Hmc1 Hge. do 2 wp_step.
  unfold LZ_BITS in *.
  destruct (aget_Some CodeMasks (RunningBits (Priv g1))) as [mask Hmask]; [cbn; lia|].
  apply wp_bind, (wp_of_option _ mask); [done|]. do 2 wp_step. do 2 wp_step.
  set (code := Z.land _ mask).
  assert (0 <= code <= LZ_MAX_CODE) as Hcode.
  { assert (exists k, 0 <= k <= 12 /\ mask = Z.ones k) as (k & Hk & Hmk).
    { assert (Forall (fun m => exists k, 0 <= k <= 12 /\ m = Z.ones k) CodeMasks) as HF.
      { unfold CodeMasks. repeat (apply Forall_cons; split);
          [exists 0|exists 1|exists 2|exists 3|exists 4|exists 5|exists 6|exists 7|exists 8
          |exists 9|exists 10|exists 11|exists 12|by apply Forall_nil]; (split; [lia|done]). }
      by eapply (aget_Forall _ _ _ _ HF). }
    unfold code. rewrite Hmk, Z.land_ones by lia.
    pose proof (Z.mod_pos_bound (CrntShiftDWord (Priv g1)) (2 ^ k) ltac:(apply Z.pow_pos_nonneg; lia)).
    assert (2 ^ k <= 2 ^ 12) by (apply Z.pow_le_mono_r; lia).
    change (2 ^ 12) with 4096 in *. unfold LZ_MAX_CODE. lia. }
  set (g2 := upd_priv _ g1).
  pose proof (dec_codes _ Hwf1) as [? ? ? ? ? ? ? ?]. unfold LZ_BITS in *.
  assert (dec_wf g2) as Hwf2 by (apply (dec_wf_shift g1); [done|lia]).
  assert (bits_left g2 + 1 <= bits_left g1) as Hb2.
  { unfold g2, bits_left, buf0. cbn. lia. }
  apply wp_bind.
  assert (wp (ret tt) (fun _ g' => wp (ret code) (fun code g' => 0 <= code <= LZ_MAX_CODE /\ dec_wf g' /\
    bits_left g' + 1 <= bits_left g /\ same_tables g g' /\
    ClearCode (Priv g) + 3 <= RunningCode (Priv g')) dec_wf g') dec_wf g2 \/
    RunningCode (Priv g2) < LZ_MAX_CODE + 2) as Hret.
  { destruct (Z.lt_ge_cases (RunningCode (Priv g2)) (LZ_MAX_CODE + 2)) as [|Hge2]; [by right|left].
    do 2 apply wp_ret. split; [done|]. split; [done|]. split; [lia|]. split; [done|].
    pose proof (clear_range _ (dec_codes _ Hwf)). unfold LZ_MAX_CODE in *. lia. }
  destruct (Z.ltb_spec (RunningCode (Priv g2)) (LZ_MAX_CODE + 2)) as [Hlt|Hnlt].
  2:{ destruct Hret as [Hret|]; [exact Hret|lia]. }
  clear Hret. do 2 wp_step.
  assert (RunningCode (Priv g2) = RunningCode (Priv g)) as Hrc2 by (rewrite <- Hrc1; done).
  destruct ((MaxCode1 (Priv g2) <? RunningCode (Priv g2) + 1) && (RunningBits (Priv g2) <? 12)) eqn:Ew.
  - apply andb_true_iff in Ew as [_ Ew%Z.ltb_lt].
    do 2 wp_step. split; [done|]. split.
    { destruct Hwf2 as [Hi [] [Hq1 Hq2 Hq3 Hq4 Hq5 Hq6 Hq7 Hq8]].
      split; [done|split; done|split; try done].
      - cbn. unfold LZ_BITS. change (RunningBits (Priv g2)) with (RunningBits (Priv g1)) in *. cbn in Ew. lia.
      - cbn. cbn in Hq5, Hlt. lia. }
    split; [unfold bits_left in *; cbn in *; unfold buf0 in *; cbn in *; lia|].
    split; [done|]. cbn. cbn in Hrc2. lia.
  - do 2 wp_step. split; [done|]. split.
    { destruct Hwf2 as [Hi [] [Hq1 Hq2 Hq3 Hq4 Hq5 Hq6 Hq7 Hq8]].
      split; [done|split; done|split; try done]. cbn. cbn in Hq5, Hlt. lia. }
    split; [unfold bits_left in *; cbn in *; unfold buf0 in *; cbn in *; lia|].
    split; [done|]. cbn. cbn in Hrc2. lia.
Qed.

(** ** The code tables *)

Lemma get_prefix_char_safe n pre code clear :
  Z.of_nat (length pre) = LZ_MAX_CODE + 1 -> Forall code_ok pre -> 0 <= clear -> code_ok code ->
  exists c, get_prefix_char n pre code clear = Some c /\ code_ok c.
Proof.
  intros Hl Hf Hc. revert code. induction n as [|n IH]; intros code Hk; cbn [get_prefix_char];
    destruct (Z.leb_spec code clear); eauto.
  destruct (Z.ltb_spec LZ_MAX_CODE code); [eexists; split; [done|by right]|].
  destruct (aget_Some pre code) as [c Hg]; [lia|]. rewrite Hg. apply IH.
  by eapply aget_Forall; [exact Hf|].
Qed.

Lemma DGifGetPrefixChar_safe p code clear :
  arrays_wf p -> 0 <= clear -> code_ok code ->
  exists c, DGifGetPrefixChar p.(Prefix) code clear = Some c /\ code_ok c.
Proof. intros [] ? ?. by apply get_prefix_char_safe. Qed.

(** A store into one of the code arrays, within its bounds. *)
Lemma wp_set_Stack_at i v (Q : unit -> GifFileType -> Prop) E g :
  dec_wf g -> 0 <= i < LZ_MAX_CODE ->
  (forall st, dec_wf (upd_priv (set_Stack st) g) -> aset g.(Priv).(Stack) i (u8 v) = Some st ->
     Q tt (upd_priv (set_Stack st) g)) ->
  wp (set_Stack_at i v) Q E g.
Proof.
  intros [Hi [] []] Hr HQ.
  assert (aset g.(Priv).(Stack) i (u8 v) = Some (<[Z.to_nat i := u8 v]> g.(Priv).(Stack))) as Ha
    by (apply aset_Some; lia).
  unfold set_Stack_at. do 2 wp_step. apply wp_bind. eapply wp_of_option; [done|].
  wp_step. apply HQ; [|done].
  split; [done|split; try done|split; done].
  - cbn. by rewrite length_insert.
  - eapply aset_Forall; [| |exact Ha]; [done|apply u8_byte].
Qed.

Lemma wp_set_Suffix_at i v (Q : unit -> GifFileType -> Prop) E g :
  dec_wf g -> 0 <= i <= LZ_MAX_CODE ->
  (forall su, dec_wf (upd_priv (set_Suffix su) g) -> aset g.(Priv).(Suffix) i (u8 v) = Some su ->
     Q tt (upd_priv (set_Suffix su) g)) ->
  wp (set_Suffix_at i v) Q E g.
Proof.
  intros [Hi [] []] Hr HQ.
  assert (aset g.(Priv).(Suffix) i (u8 v) = Some (<[Z.to_nat i := u8 v]> g.(Priv).(Suffix))) as Ha
    by (apply aset_Some; lia).
  unfold set_Suffix_at. do 2 wp_step. apply wp_bind. eapply wp_of_option; [done|].
  wp_step. apply HQ; [|done].
  split; [done|split; try done|split; done].
  - cbn. by rewrite length_insert.
  - eapply aset_Forall; [| |exact Ha]; [done|apply u8_byte].
Qed.

Lemma wp_set_Prefix_at i v (Q : unit -> GifFileType -> Prop) E g :
  dec_wf g -> 0 <= i <= LZ_MAX_CODE -> code_ok v ->
  (forall pr, dec_wf (upd_priv (set_Prefix pr) g) -> aset g.(Priv).(Prefix) i v = Some pr ->
     Q tt (upd_priv (set_Prefix pr) g)) ->
  wp (set_Prefix_at i v) Q E g.
Proof.
  intros [Hi [] []] Hr Hv HQ.
  assert (aset g.(Priv).(Prefix) i v = Some (<[Z.to_nat i := v]> g.(Priv).(Prefix))) as Ha
    by (apply aset_Some; lia).
  unfold set_Prefix_at. do 2 wp_step. apply wp_bind. eapply wp_of_option; [done|].
  wp_step. apply HQ; [|done].
  split; [done|split; try done|split; done].
  - cbn. by rewrite length_insert.
  - eapply aset_Forall; [| |exact Ha]; done.
Qed.

(** What a round of decompression keeps once its code has been read. *)
Definition same_code (g g' : GifFileType) : Prop :=
  same_image g g' /\ g'.(Priv).(RunningCode) = g.(Priv).(RunningCode) /\ bits_left g' = bits_left g.

#[export] Instance same_code_preorder : PreOrder same_code.
Proof.
  split; [done|]. intros x y z (?&?&?) (?&?&?). split; [by etrans|]. split; congruence.
Qed.

Lemma trace_prefix_safe clear sp pre g (Q : Z * Z -> GifFileType -> Prop) :
  dec_wf g -> 0 <= clear -> 0 <= sp <= LZ_MAX_CODE -> code_ok pre ->
  (forall sp' pre' g', dec_wf g' -> same_code g g' -> 0 <= sp' <= LZ_MAX_CODE -> code_ok pre' ->
     Q (sp', pre') g') ->
  wp (loop (Z.to_nat (LZ_MAX_CODE + 1)) (trace_prefix clear) (sp, pre)) Q dec_wf g.
Proof.
  intros Hwf Hc Hsp Hpre HQ.
  apply (wp_loop (fun n st g' => dec_wf g' /\ same_code g g' /\ 0 <= st.1 <= LZ_MAX_CODE /\
           code_ok st.2 /\ n = Z.to_nat (LZ_MAX_CODE - st.1)))
    with (n := Z.to_nat (LZ_MAX_CODE - sp)).
  2: split; [done|]; split; [done|]; split; [cbn; lia|]; done.
  2: unfold LZ_MAX_CODE in *; lia.
  intros n [s c] g1 (Hwf1 & Hs1 & Hsr & Hcr & Hn). cbn in Hsr, Hcr, Hn. unfold trace_prefix.
  destruct ((s <? LZ_MAX_CODE) && (clear <? c) && (c <=? LZ_MAX_CODE)) eqn:E.
  2:{ apply wp_ret. by apply HQ. }
  apply andb_true_iff in E as [[E1%Z.ltb_lt E2%Z.ltb_lt]%andb_true_iff E3%Z.leb_le].
  do 2 wp_step. pose proof (dec_arrays _ Hwf1) as Ha.
  destruct (aget_Some g1.(Priv).(Suffix) c) as [x Hx]; [rewrite (wf_Suffix _ Ha); lia|].
  apply wp_bind, (wp_of_option _ x); [done|].
  apply wp_bind, wp_set_Stack_at; [done|lia|]. intros st Hwf2 _.
  destruct (aget_Some g1.(Priv).(Prefix) c) as [y Hy]; [rewrite (wf_Prefix _ Ha); lia|].
  apply wp_bind, (wp_of_option _ y); [done|]. apply wp_ret.
  eexists. split; [|split; [exact Hwf2|split; [by etrans; [exact Hs1|]|split; [|split; [|reflexivity]]]]].
  - cbn. unfold LZ_MAX_CODE in *. lia.
  - cbn. lia.
  - eapply aget_Forall; [apply (wf_Prefix_codes _ Ha)|exact Hy].
Qed.

Lemma push_trace_safe clear sp pre g (Q : Z -> GifFileType -> Prop) :
  dec_wf g -> 0 <= clear -> 0 <= sp <= LZ_MAX_CODE -> code_ok pre ->
  (forall sp' g', dec_wf g' -> same_code g g' -> 0 < sp' <= LZ_MAX_CODE -> Q sp' g') ->
  wp (push_trace clear (sp, pre)) Q dec_wf g.
Proof.
  intros Hwf Hc Hsp Hpre HQ. unfold push_trace. apply wp_bind.
  apply trace_prefix_safe; [done|lia|done|done|].
  intros sp' pre' g2 Hwf2 Hs2 Hsp' Hpre'.
  destruct ((LZ_MAX_CODE <=? sp') || (LZ_MAX_CODE <? pre')) eqn:E.
  { apply wp_err. by apply dec_wf_Error. }
  apply orb_false_iff in E as [E1%Z.leb_gt E2%Z.ltb_ge].
  apply wp_bind, wp_set_Stack_at; [done|lia|]. intros st Hwf3 _. apply wp_ret.
  apply HQ; [done| |lia]. by etrans; [exact Hs2|].
Qed.

Lemma expand_code_safe code last g (Q : Z -> GifFileType -> Prop) :
  dec_wf g -> 0 <= code <= LZ_MAX_CODE -> code_ok last ->
  g.(Priv).(ClearCode) + 3 <= g.(Priv).(RunningCode) ->
  (forall sp g', dec_wf g' -> same_code g g' -> 0 < sp <= LZ_MAX_CODE -> Q sp g') ->
  wp (expand_code g.(Priv).(ClearCode) code last 0) Q dec_wf g.
Proof.
  intros Hwf Hcode Hlast Hrc HQ. pose proof (clear_range _ (dec_codes _ Hwf)).
  pose proof (dec_arrays _ Hwf) as Ha. pose proof (wf_rcode _ (dec_codes _ Hwf)).
  unfold expand_code. apply wp_bind. unfold start_trace. do 2 wp_step.
  destruct (aget_Some g.(Priv).(Prefix) code) as [pre Hpre]; [rewrite (wf_Prefix _ Ha); lia|].
  apply wp_bind, (wp_of_option _ pre); [done|].
  destruct (Z.eqb_spec pre NO_SUCH_CODE).
  - destruct (DGifGetPrefixChar_safe g.(Priv)
      (if code =? RunningCode (Priv g) - 2 then last else code) (ClearCode (Priv g)) Ha)
      as (c & Hc & Hcok); [lia|destruct (_ =? _); [done|by left]|].
    apply wp_bind, (wp_of_option _ c); [done|].
    apply wp_bind, wp_set_Stack_at; [done|unfold LZ_MAX_CODE; lia|]. intros st Hwf1 _.
    apply wp_bind, wp_set_Suffix_at; [done|cbn; lia|]. intros su Hwf2 _. apply wp_ret.
    apply (push_trace_safe _ _ _ (upd_priv (set_Suffix su) (upd_priv (set_Stack st) g)));
      [done|lia|unfold LZ_MAX_CODE; lia|done|].
    intros sp g' ? Hs ?. apply HQ; [done|by etrans; [|exact Hs]|done].
  - apply wp_ret, push_trace_safe; [done|lia|unfold LZ_MAX_CODE; lia|by left|done].
Qed.

Lemma pop_stack_safe st n room :
  Z.of_nat n <= Z.of_nat (length st) -> Forall byte st ->
  exists ps sp, pop_stack n room st = Some (ps, sp) /\
    Z.of_nat (length ps) = Z.min (Z.of_nat n) (Z.max 0 room) /\
    sp = Z.of_nat n - Z.of_nat (length ps) /\ Forall byte ps.
Proof.
  intros Hn Hf. revert room Hn. induction n as [|n IH]; intros room Hn; cbn [pop_stack].
  - exists [], 0. repeat split; [cbn; lia|done].
  - destruct (Z.leb_spec room 0).
    + exists [], (Z.of_nat (S n)). split; [done|]. cbn [length]. split; [lia|]. split; [lia|done].
    + destruct (aget_Some st (Z.of_nat n)) as [p Hp]; [lia|]. rewrite Hp.
      destruct (IH (room - 1)) as (ps & sp & -> & Hl & -> & Hps); [lia|].
      exists (p :: ps), (Z.of_nat n - Z.of_nat (length ps)). split; [done|]. cbn [length].
      split; [lia|]. split; [lia|]. constructor; [|done]. eapply aget_Forall; [exact Hf|exact Hp].
Qed.

Lemma pop_safe sp room g (Q : list Z * Z -> GifFileType -> Prop) E :
  dec_wf g -> 0 <= sp <= LZ_MAX_CODE ->
  (forall ps sp', Z.of_nat (length ps) = Z.min sp (Z.max 0 room) ->
     sp' = sp - Z.of_nat (length ps) -> Forall byte ps -> Q (ps, sp') g) ->
  wp (pop sp room) Q E g.
Proof.
  intros Hwf Hsp HQ. unfold pop. do 2 wp_step.
  destruct (Z.ltb_spec sp 0); [lia|]. pose proof (dec_arrays _ Hwf) as Ha.
  destruct (pop_stack_safe g.(Priv).(Stack) (Z.to_nat sp) room) as (ps & sp' & Hp & Hl & -> & Hf).
  - rewrite (wf_Stack _ Ha). lia.
  - apply (wf_Stack_bytes _ Ha).
  - eapply wp_of_option; [done|]. rewrite Z2Nat.id in * by lia. by apply HQ.
Qed.

Lemma enter_code_safe code last g (Q : unit -> GifFileType -> Prop) :
  dec_wf g -> 0 <= code <= LZ_MAX_CODE -> code_ok last ->
  g.(Priv).(ClearCode) + 3 <= g.(Priv).(RunningCode) ->
  (forall g', dec_wf g' -> same_code g g' -> Q tt g') ->
  wp (enter_code g.(Priv).(ClearCode) code last) Q dec_wf g.
Proof.
  intros Hwf Hcode Hlast Hrc HQ. pose proof (clear_range _ (dec_codes _ Hwf)).
  pose proof (dec_arrays _ Hwf) as Ha. pose proof (wf_rcode _ (dec_codes _ Hwf)).
  unfold enter_code. do 2 wp_step.
  destruct (negb (last =? NO_SUCH_CODE)); [|by apply wp_ret, HQ].
  destruct (aget_Some g.(Priv).(Prefix) (g.(Priv).(RunningCode) - 2)) as [pre Hpre];
    [rewrite (wf_Prefix _ Ha); lia|].
  apply wp_bind, (wp_of_option _ pre); [done|].
  destruct (pre =? NO_SUCH_CODE); [|by apply wp_ret, HQ].
  apply wp_bind, wp_set_Prefix_at; [done|lia|done|]. intros pr Hwf1 _. do 2 wp_step.
  destruct (DGifGetPrefixChar_safe (upd_priv (set_Prefix pr) g).(Priv)
    (if code =? RunningCode (Priv g) - 2 then last else code) (ClearCode (Priv g)) (dec_arrays _ Hwf1))
    as (c & Hc & Hcok); [lia|destruct (_ =? _); [done|by left]|].
  apply wp_bind, (wp_of_option _ c); [done|].
  apply wp_set_Suffix_at; [done|cbn; lia|]. intros su Hwf2 _. by apply HQ.
Qed.

(** ** Lines *)

Lemma clear_tables_safe g (Q : unit -> GifFileType -> Prop) E :
  dec_wf g ->
  (forall g', dec_wf g' -> same_image g g' -> bits_left g' = bits_left g -> Q tt g') ->
  wp clear_tables Q E g.
Proof.
  intros [Hi [Hq1 Hq2 Hq3 Hq4 Hq5 Hq6 Hq7] [Hr1 Hr2 Hr3 Hr4 Hr5 Hr6 Hr7 Hr8]] HQ.
  unfold clear_tables. wp_step. apply HQ; [|done|done].
  split; [done|split; try done|split; try done].
  - cbn. apply Forall_replicate. by right.
  - cbn. lia.
  - cbn. rewrite Hr3. lia.
  - by right.
Qed.

(** The state of the loop of [DGifDecompressLine]. *)
Definition line_inv (n : Z) (st : list Z * Z * Z) : Prop :=
  let '(line, sp, last) := st in
  Z.of_nat (length line) <= Z.max 0 n /\ Forall byte line /\ 0 <= sp <= LZ_MAX_CODE /\
  code_ok last /\ (Z.of_nat (length line) < n -> sp = 0).

Lemma decompress_round_safe n st g :
  dec_wf g -> line_inv n st ->
  wp (decompress_round g.(Priv).(ClearCode) g.(Priv).(EOFCode) n st)
    (fun r g' => dec_wf g' /\ same_image g g' /\
       match r with
       | inl st' => line_inv n st' /\ bits_left g' < bits_left g
       | inr st' => line_inv n st' /\ n <= Z.of_nat (length st'.1.1)
       end) dec_wf g.
Proof.
  destruct st as [[line sp] last]. intros Hwf (Hlen & Hline & Hsp & Hlast & Hz).
  unfold decompress_round.
  destruct (Z.ltb_spec (Z.of_nat (length line)) n) as [Hlt|Hge]; cbn [negb].
  2:{ apply wp_ret. split; [done|]. split; [done|]. done. }
  rewrite Hz by done. clear Hz Hsp sp.
  apply wp_bind. eapply wp_mono; [by apply DGifDecompressInput_safe| |done].
  intros code g1 (Hcode & Hwf1 & Hb1 & [Hsi _] & Hrc). cbv beta.
  destruct (Z.eqb_spec code (EOFCode (Priv g))); [by apply wp_err, dec_wf_Error|].
  destruct (Z.eqb_spec code (ClearCode (Priv g))).
  { apply wp_bind, clear_tables_safe; [done|]. intros g2 Hwf2 Hs2 Hb2. apply wp_ret.
    split; [done|]. split; [by etrans|]. split; [|lia].
    split; [done|]. split; [done|]. split; [unfold LZ_MAX_CODE; lia|]. split; [by right|done]. }
  destruct Hsi as (Hcl & Hrest). rewrite <- Hcl.
  assert (forall line' sp' g2, dec_wf g2 -> same_code g1 g2 -> line_inv n (line', sp', code) ->
    wp (enter_code (ClearCode (Priv g1)) code last ;;! ret (inl (line', sp', code)))%c
      (fun r g' => dec_wf g' /\ same_image g g' /\
       match r with
       | inl st' => line_inv n st' /\ bits_left g' < bits_left g
       | inr st' => line_inv n st' /\ n <= Z.of_nat (length st'.1.1)
       end) dec_wf g2) as Henter.
  { intros line' sp' g2 Hwf2 (Hsi2 & Hrc2 & Hb2) Hinv.
    destruct Hsi2 as [Hcl2 Hsi2]. rewrite <- Hcl2.
    apply wp_bind, enter_code_safe; [done|done|done|rewrite Hcl2, Hrc2, Hcl; done|].
    intros g3 Hwf3 (Hsi3 & _ & Hb3). apply wp_ret. split; [done|].
    split; [etrans; [split; [exact Hcl|exact Hrest]|]; etrans; [split; [exact Hcl2|exact Hsi2]|exact Hsi3]|].
    split; [done|lia]. }
  apply wp_bind. destruct (Z.ltb_spec code (ClearCode (Priv g1))).
  - apply wp_ret. apply Henter; [done|done|].
    split; [rewrite length_app; cbn [length]; lia|]. split; [apply Forall_app; split; [done|repeat constructor; apply u8_range]|].
    split; [unfold LZ_MAX_CODE; lia|]. split; [by left|done].
  - apply wp_bind, expand_code_safe; [done|done|done|rewrite Hcl; done|].
    intros sp g2 Hwf2 Hs2 Hsp. apply wp_bind, pop_safe; [done|lia|].
    intros ps sp' Hps -> Hpb. apply wp_ret. apply Henter; [done|done|].
    split; [rewrite length_app; lia|]. split; [apply Forall_app; done|].
    split; [lia|]. split; [by left|rewrite length_app; lia].
Qed.

Lemma dec_wf_locals g sp last :
  dec_wf g -> 0 <= sp <= LZ_MAX_CODE -> code_ok last ->
  dec_wf (upd_priv (fun p => set_StackPtr sp (set_LastCode last p)) g).
Proof. intros [Hi [] []] ? ?. by split; [done|split; done|split; done]. Qed.

Lemma bits_left_fuel g : dec_wf g -> (Z.to_nat (bits_left g) < decompress_fuel g)%nat.
Proof.
  intros Hwf. pose proof (buf0_byte g Hwf). pose proof (wf_shift _ (dec_codes _ Hwf)).
  unfold bits_left, decompress_fuel, byte in *. lia.
Qed.

Lemma DGifDecompressLine_safe n g :
  dec_wf g ->
  wp (DGifDecompressLine n)
    (fun line g' => dec_wf g' /\ Z.of_nat (length line) = Z.max 0 n /\ Forall byte line /\
       same_image g g')
    dec_wf g.
Proof.
  intros Hwf. unfold DGifDecompressLine. do 2 wp_step.
  pose proof (wf_sp _ (dec_codes _ Hwf)) as Hsp.
  destruct (Z.ltb_spec LZ_MAX_CODE (StackPtr (Priv g))); [by apply wp_fail|].
  apply wp_bind, pop_safe; [done|done|]. intros ps sp' Hps Hsp' Hpb. do 2 wp_step. apply wp_bind.
  apply (wp_loop (fun m st g' => dec_wf g' /\ same_image g g' /\ line_inv n st /\ m = Z.to_nat (bits_left g')))
    with (n := Z.to_nat (bits_left g)); [| |by apply bits_left_fuel].
  - intros m st g1 (Hwf1 & Hs1 & Hinv & ->).
    pose proof (bits_left_nonneg _ Hwf1).
    destruct Hs1 as (Hc1 & He1 & Hr1). rewrite <- Hc1, <- He1.
    eapply wp_mono; [by apply decompress_round_safe| |done].
    intros [st'|st'] g2 (Hwf2 & Hs2 & Hinv2 & Hm).
    + pose proof (bits_left_nonneg _ Hwf2).
      exists (Z.to_nat (bits_left g2)). split; [lia|]. split; [done|].
      split; [etrans; [split; [exact Hc1|by split]|done]|done].
    + destruct st' as [[line2 sp2] last2]. destruct Hinv2 as (Hlen & Hline & Hsp2 & Hlast & _).
      do 3 wp_step. split; [by apply dec_wf_locals|]. cbn in Hm. split; [lia|].
      split; [done|]. transitivity g2; [|by split]. by transitivity g1; [split; [exact Hc1|by split]|].
  - split; [done|]. split; [done|]. split; [|done].
    split; [lia|]. split; [done|]. split; [lia|]. split; [apply (wf_last _ (dec_codes _ Hwf))|lia].
Qed.

(** ** Descriptors, blocks and extensions *)

(** A sub-block stored by the slurp loop. *)
Definition block_ok (b : ExtensionBlock) : Prop :=
  exists bs, b.(Bytes) = Some bs /\ Z.of_nat (length bs) = b.(ByteCount) /\
    1 <= b.(ByteCount) <= 255 /\ Forall byte bs /\ byte b.(Function).

(** A count and the array it counts. *)
Definition counted {A} (ok : A -> Prop) (cnt : Z) (arr : option (list A)) : Prop :=
  match arr with
  | None => cnt = 0
  | Some l => cnt = Z.of_nat (length l) /\ Forall ok l
  end.

Definition word16 (z : Z) : Prop := 0 <= z < 65536.

(** A colour map has the colours it counts. *)
Definition map_fits (m : option ColorMapObject) : Prop :=
  match m with None => True | Some m => m.(ColorCount) <= Z.of_nat (length m.(Colors)) end.

Definition place_ok (d : GifImageDesc) : Prop := word16 d.(Left) /\ word16 d.(Top) /\ map_fits d.(ColorMap).

(** A complete image: a raster of [Width * Height] pixels, its extension
    blocks, and a descriptor with a sound colour map. *)
Definition saved_ok (sp : SavedImage) : Prop :=
  word16 sp.(ImageDesc).(Width) /\ word16 sp.(ImageDesc).(Height) /\
  (exists r, sp.(RasterBits) = Some r /\ Forall byte r /\
     Z.of_nat (length r) = sp.(ImageDesc).(Width) * sp.(ImageDesc).(Height)) /\
  counted block_ok sp.(sp_ExtensionBlockCount) sp.(sp_ExtensionBlocks) /\ place_ok sp.(ImageDesc).

(** The invariant of the slurp loop. *)
Record gif_wf (g : GifFileType) : Prop := {
  gw_in : bytes_in g;
  gw_arrays : arrays_wf g.(Priv);
  gw_images : counted saved_ok g.(ImageCount) g.(SavedImages);
  gw_ext : counted block_ok g.(ExtensionBlockCount) g.(ExtensionBlocks)
}.

Definition any {S} (_ : S) : Prop := True.

(** A clean-up routine cannot get stuck. *)
Definition harmless (c : GifM unit) : Prop := forall g, wp c (fun _ => any) any g.

Lemma harmless_ret : harmless (ret tt).
Proof. done. Qed.
Lemma harmless_modify f : harmless (modify f).
Proof. done. Qed.
#[export] Hint Resolve harmless_ret harmless_modify : gifwf.

Lemma wp_READ_or len cleanup (Q : list Z -> GifFileType -> Prop) g :
  0 <= len -> bytes_in g -> harmless cleanup ->
  (forall bs input, g.(In) = bs ++ input -> Z.of_nat (length bs) = len -> Forall byte bs ->
     Forall byte input -> Q bs (set_In input g)) ->
  wp (READ_or len cleanup) Q any g.
Proof.
  intros Hn Hin Hc HQ. unfold READ_or. apply wp_bind, wp_READ.
  destruct (Z.eqb_spec (Z.of_nat (length (take (Z.to_nat len) (In g)))) len).
  - apply wp_ret, HQ; eauto with gifwf. by rewrite take_drop.
  - apply wp_bind. eapply wp_mono; [apply Hc| |done]. done.
Qed.

Lemma set_In_structure input g : structure (set_In input g) = structure g.
Proof. done. Qed.

(** What the descriptor readers preserve: the input gets no longer. *)
Lemma wp_READ_byte (Q : Z -> GifFileType -> Prop) g :
  bytes_in g ->
  (forall b input, g.(In) = b :: input -> byte b -> Forall byte input -> Q b (set_In input g)) ->
  wp READ_byte Q any g.
Proof.
  intros Hin HQ. unfold READ_byte. apply wp_bind, wp_READ_or; [lia|done|apply harmless_ret|].
  intros [|b [|]] input Hg Hl Hb Hi; try (cbn in Hl; lia).
  apply (wp_of_option _ b); [done|]. apply HQ; [done| |done]. by apply Forall_cons in Hb as [? _].
Qed.

Lemma wp_DGifGetWord (Q : Z -> GifFileType -> Prop) g :
  bytes_in g ->
  (forall lo hi input, g.(In) = lo :: hi :: input -> byte lo -> byte hi -> Forall byte input ->
     Q (UNSIGNED_LITTLE_ENDIAN lo hi) (set_In input g)) ->
  wp DGifGetWord Q any g.
Proof.
  intros Hin HQ. unfold DGifGetWord. apply wp_bind, wp_READ_or; [lia|done|apply harmless_ret|].
  intros [|lo [|hi [|]]] input Hg Hl Hb Hi; try (cbn in Hl; lia).
  apply wp_bind, (wp_of_option _ lo); [done|]. apply wp_bind, (wp_of_option _ hi); [done|].
  apply Forall_cons in Hb as [? Hb]. apply Forall_cons in Hb as [? _]. by apply wp_ret, HQ.
Qed.

Lemma le_word lo hi : byte lo -> byte hi -> UNSIGNED_LITTLE_ENDIAN lo hi = lo + 256 * hi.
Proof.
  unfold byte, UNSIGNED_LITTLE_ENDIAN. intros Hlo Hhi.
  assert (Z.land lo (Z.shiftl hi 8) = 0) as Hd.
  { apply Z.bits_inj'. intros i Hi. rewrite Z.land_spec, Z.bits_0.
    destruct (Z.lt_ge_cases i 8).
    + rewrite Z.shiftl_spec_low by lia. by rewrite andb_false_r.
    + rewrite <- (Z.mod_small lo (2 ^ 8)) by (change (2 ^ 8) with 256; lia).
      by rewrite Z.mod_pow2_bits_high by lia. }
  rewrite <- Z.lxor_lor by done. rewrite <- Z.add_nocarry_lxor by done.
  rewrite Z.shiftl_mul_pow2 by lia. change (2 ^ 8) with 256. lia.
Qed.

Lemma le_word_range lo hi : byte lo -> byte hi -> word16 (UNSIGNED_LITTLE_ENDIAN lo hi).
Proof. intros. rewrite le_word by done. unfold byte, word16 in *. lia. Qed.

(** What a step that only reads does to the handle. *)
Record moved (g g' : GifFileType) : Prop := {
  mv_in : bytes_in g -> bytes_in g';
  mv_arrays : arrays_wf g.(Priv) -> arrays_wf g'.(Priv);
  mv_codes : codes_wf g.(Priv) -> codes_wf g'.(Priv);
  mv_structure : structure g' = structure g;
  mv_len : (length g'.(In) <= length g.(In))%nat
}.

#[export] Instance moved_preorder : PreOrder moved.
Proof.
  split; [by split|]. intros x y z [] []. split; [auto|auto|auto|congruence|lia].
Qed.

Lemma moved_gif_wf g g' : moved g g' -> gif_wf g -> gif_wf g'.
Proof.
  intros [Hi Ha _ Hs _] [Hwi Hwa Hwim Hwe]. unfold structure in Hs. injection Hs as E1 E2 E3 E4 _.
  split; [auto|auto|by rewrite E1, E2|by rewrite E3, E4].
Qed.

Lemma moved_dec_wf g g' : moved g g' -> dec_wf g -> dec_wf g'.
Proof. intros [Hi Ha Hc _ _] []. split; auto. Qed.

Lemma moved_set_In g input :
  Forall byte input -> (length input <= length g.(In))%nat -> moved g (set_In input g).
Proof. intros. by split. Qed.

Lemma moved_set_Buf g buf :
  length buf = 256%nat -> Forall byte buf -> moved g (upd_priv (set_Buf buf) g).
Proof. intros. split; [done| | |done|done]; intros []; by split. Qed.
#[export] Hint Resolve moved_set_In moved_set_Buf : gifwf.

Lemma same_image_moved g g' : same_image g g' -> dec_wf g' -> moved g g'.
Proof. intros (_&_&_&?&?) []. by split. Qed.

(** A block of [n] bytes is read into the buffer. *)
Lemma read_block_safe {A} n (k : list Z -> GifM A) (Q : A -> GifFileType -> Prop) g :
  bytes_in g -> arrays_wf g.(Priv) -> byte n ->
  (forall bs g', moved g g' -> bytes_in g' -> arrays_wf g'.(Priv) -> Forall byte bs ->
     Z.of_nat (length bs) = n -> wp (k bs) Q any g') ->
  wp (set_Buf_at 0 n ;;! let! bs := READ n in store_buf 1 bs ;;!
      if Z.of_nat (length bs) =? n then k bs else err D_GIF_ERR_READ_FAILED)%c Q any g.
Proof.
  intros Hin Ha Hn HQ. apply wp_bind, wp_set_Buf_at; [done|done|lia|]. intros b1 Hl1 Hf1 _.
  set (g1 := upd_priv _ g). assert (moved g g1) as Hm1 by eauto with gifwf.
  assert (bytes_in g1) as Hin1 by done.
  apply wp_bind, wp_READ. set (g2 := set_In _ g1).
  assert (moved g1 g2) as Hm2.
  { apply moved_set_In; [by apply Forall_drop|rewrite length_drop; lia]. }
  assert (arrays_wf g2.(Priv)) by (by apply (mv_arrays _ _ Hm1)).
  apply wp_bind, wp_store_buf; [done|by apply Forall_take|lia| |].
  { rewrite length_take. unfold byte in Hn. lia. }
  intros b2 Hl2 Hf2 _ _. destruct (Z.eqb_spec (Z.of_nat (length (take (Z.to_nat n) (In g1)))) n); [|done].
  assert (moved g (upd_priv (set_Buf b2) g2)) as Hm.
  { etrans; [exact Hm1|]. etrans; [exact Hm2|]. by apply moved_set_Buf. }
  apply HQ; [done|by apply (mv_in _ _ Hm)|by apply (mv_arrays _ _ Hm)|by apply Forall_take|done].
Qed.

(** The next sub-block: one to 255 bytes, or the terminator. *)
Definition sub_block (r : option (list Z)) : Prop :=
  match r with
  | None => True
  | Some bs => 1 <= Z.of_nat (length bs) <= 255 /\ Forall byte bs
  end.

Lemma DGifGetExtensionNext_safe g :
  bytes_in g -> arrays_wf g.(Priv) ->
  wp DGifGetExtensionNext
    (fun r g' => sub_block r /\ moved g g' /\ (length g'.(In) < length g.(In))%nat) any g.
Proof.
  intros Hin Ha. unfold DGifGetExtensionNext.
  apply wp_bind, wp_READ_byte; [done|]. intros n input Hg Hn Hi.
  assert (moved g (set_In input g)) as Hm1 by (apply moved_set_In; [done|rewrite Hg; cbn; lia]).
  destruct (Z.ltb_spec 0 n).
  - apply read_block_safe; [done|done|done|]. intros bs g' Hm _ _ Hbs Hl. apply wp_ret.
    split; [unfold byte, sub_block in *; split; [lia|done]|]. split; [by etrans|].
    pose proof (mv_len _ _ Hm). rewrite Hg. cbn in *. lia.
  - apply wp_ret. split; [done|]. split; [done|]. rewrite Hg. cbn. lia.
Qed.

Lemma DGifGetCodeNext_safe g :
  bytes_in g -> arrays_wf g.(Priv) ->
  wp DGifGetCodeNext
    (fun r g' => sub_block r /\ moved g g' /\ (length g'.(In) < length g.(In))%nat) any g.
Proof.
  intros Hin Ha. unfold DGifGetCodeNext.
  apply wp_bind, wp_READ_byte; [done|]. intros n input Hg Hn Hi.
  assert (moved g (set_In input g)) as Hm1 by (apply moved_set_In; [done|rewrite Hg; cbn; lia]).
  destruct (Z.ltb_spec 0 n).
  - apply read_block_safe; [done|done|done|]. intros bs g' Hm _ _ Hbs Hl. apply wp_ret.
    split; [unfold byte, sub_block in *; split; [lia|done]|]. split; [by etrans|].
    pose proof (mv_len _ _ Hm). rewrite Hg. cbn in *. lia.
  - apply wp_bind, wp_set_Buf_at; [done|by unfold byte|lia|]. intros b1 Hl1 Hf1 _.
    do 2 wp_step. apply wp_ret. split; [done|].
    split; [|rewrite Hg; cbn; lia]. etrans; [exact Hm1|].
    etrans; [by apply moved_set_Buf|]. split; [done| | |done|done]; intros []; by split.
Qed.

Lemma skip_blocks_safe g :
  bytes_in g -> arrays_wf g.(Priv) ->
  wp skip_blocks (fun _ g' => moved g g') any g.
Proof.
  intros Hin Ha. unfold skip_blocks. do 2 wp_step.
  apply (wp_loop (fun n _ g' => moved g g' /\ n = length g'.(In))) with (n := length g.(In));
    [|done|lia].
  intros n [] g1 [Hm ->]. apply wp_bind.
  eapply wp_mono; [apply DGifGetCodeNext_safe; [by apply (mv_in _ _ Hm)|by apply (mv_arrays _ _ Hm)]| |done].
  intros r g2 (_ & Hm2 & Hlt). apply wp_ret. destruct r.
  - eexists. split; [exact Hlt|]. split; [by etrans|done].
  - by etrans.
Qed.

(** ** Lines of an image *)

Lemma wp_check_readable {A} (k : GifM A) Q g :
  wp k Q any g -> wp (check_readable ;;! k)%c Q any g.
Proof.
  intros Hk. apply wp_bind. unfold check_readable. do 2 wp_step.
  by destruct (IS_READABLE (Priv g)).
Qed.

Definition line_length (n : Z) (g : GifFileType) : Z :=
  if n =? 0 then g.(Image).(Width) else n.

Lemma dec_wf_PixelCount n g : dec_wf g -> dec_wf (upd_priv (set_PixelCount n) g).
Proof. intros [Hi [] []]. by split; [done|split; done|split; done]. Qed.

(** A line of the length asked for, which the pixel count still allowed. *)
Lemma DGifGetLine_safe n g :
  dec_wf g ->
  wp (DGifGetLine n)
    (fun line g' => dec_wf g' /\ moved g g' /\ Forall byte line /\
       Z.of_nat (length line) = Z.max 0 (line_length n g) /\
       u32 (g.(Priv).(PixelCount) - line_length n g) <= PIXEL_LIMIT) any g.
Proof.
  intros Hwf. unfold DGifGetLine. apply wp_check_readable. do 2 wp_step. cbv zeta beta.
  fold (line_length n g). set (m := line_length n g). apply wp_bind. unfold count_pixels.
  apply wp_bind, wp_modify, wp_bind, wp_gets. change (upd_priv _ g) with (upd_priv (set_PixelCount (u32 (PixelCount (Priv g) - m))) g).
  set (g1 := upd_priv _ g). assert (dec_wf g1) as Hwf1 by (by apply dec_wf_PixelCount).
  assert (moved g g1) as Hm1 by (split; [done| | |done|done]; intros []; by split).
  change (PixelCount (Priv g1)) with (u32 (PixelCount (Priv g) - m)).
  destruct (Z.ltb_spec PIXEL_LIMIT (u32 (PixelCount (Priv g) - m))); [done|]. apply wp_ret.
  unfold get_pixels. apply wp_bind. eapply wp_mono; [by apply DGifDecompressLine_safe| |done].
  intros line g2 (Hwf2 & Hl & Hb & Hs). do 2 wp_step. cbv beta.
  assert (moved g g2) as Hm2 by (etrans; [exact Hm1|by apply same_image_moved]).
  apply wp_bind. destruct (PixelCount (Priv g2) =? 0).
  - eapply wp_mono; [apply skip_blocks_safe; by apply Hwf2| |done].
    intros [] g3 Hm3. apply wp_ret. split; [by eapply moved_dec_wf|]. split; [by etrans|done].
  - apply wp_ret, wp_ret. done.
Qed.

(** ** Extension blocks of the slurp loop *)

Lemma length_resize_Z {A} (n : Z) (d : A) l : 0 <= n -> Z.of_nat (length (GifAlloc.resize n d l)) = n.
Proof. intros. unfold GifAlloc.resize. rewrite length_resize. lia. Qed.

(** The array grown by one element and its last slot set. *)
Lemma append_slot {A} (cnt : Z) (arr : option (list A)) (d : A) (ok : A -> Prop) :
  counted ok cnt arr ->
  exists l0, cnt = Z.of_nat (length l0) /\ Forall ok l0 /\
    (match arr with Some l => GifAlloc.resize (cnt + 1) d l | None => [d] end) = l0 ++ [d] /\
    (match arr with Some l => l = l0 | None => l0 = [] end).
Proof.
  destruct arr as [l|]; cbn; [intros [-> Hf]|intros ->].
  - exists l. split; [done|]. split; [done|]. split; [|done]. unfold GifAlloc.resize.
    rewrite resize_ge by lia. do 2 f_equal. by replace (Z.to_nat _ - length l)%nat with 1%nat by lia.
  - exists []. done.
Qed.

Lemma aset_last {A} (l0 : list A) d x : aset (l0 ++ [d]) (Z.of_nat (length l0)) x = Some (l0 ++ [x]).
Proof.
  rewrite aset_Some by (rewrite length_app; cbn; lia). rewrite Nat2Z.id. f_equal.
  by rewrite insert_app_r_alt, Nat.sub_diag by lia.
Qed.

Lemma aget_last {A} (l0 : list A) x : aget (l0 ++ [x]) (Z.of_nat (length l0)) = Some x.
Proof. unfold aget. rewrite decide_True by lia. rewrite Nat2Z.id. by apply list_lookup_middle. Qed.

Definition allocated {S} `{Allocator S} (s s' : S) : Prop :=
  s' = drop_alloc s \/ s' = drop_alloc (drop_alloc s).

Lemma GifAddExtensionBlock_safe {S} `{AllocatorLaws S} cnt blocks func data (s : S) :
  counted block_ok cnt blocks -> byte func -> 1 <= Z.of_nat (length data) <= 255 -> Forall byte data ->
  wp (GifAddExtensionBlock cnt blocks func (Z.of_nat (length data)) (Some data))
    (fun r s' => allocated s s' /\ (r.1.1 = true -> counted block_ok r.1.2 r.2)) any s.
Proof.
  intros He Hf Hl Hd. unfold GifAddExtensionBlock. apply wp_bind, wp_malloc.
  destruct (append_slot _ _ zero_ext _ He) as (l0 & -> & Hl0 & Harr & _).
  destruct (next_alloc s).
  2:{ destruct blocks; apply wp_ret; (split; [by left|done]). }
  destruct blocks as [l|]; rewrite Harr;
    apply wp_bind, wp_malloc; destruct (next_alloc (drop_alloc s)); cbn [negb];
    rewrite ?Z.ltb_irrefl; apply wp_bind, wp_ret, wp_bind; rewrite aset_last;
    apply wp_of_option with (1 := eq_refl), wp_ret; (split; [by right|]); try done; intros _; cbn;
    (split; [rewrite length_app; cbn; lia|]); apply Forall_app; (split; [done|]); constructor; try done;
    exists data; cbn; rewrite Nat2Z.id, firstn_all; done.
Qed.

Lemma add_extension_safe func data g :
  gif_wf g -> byte func -> 1 <= Z.of_nat (length data) <= 255 -> Forall byte data ->
  wp (add_extension func data) (fun _ g' => gif_wf g' /\ g'.(In) = g.(In)) any g.
Proof.
  intros [Hin Ha Him He] Hf Hl Hd. unfold add_extension. do 2 wp_step. apply wp_bind.
  eapply wp_mono; [by apply GifAddExtensionBlock_safe| |done].
  intros [[ok cnt] blocks] g1 [Hal Hok]. cbn in Hok. do 4 wp_step. destruct ok; [|done]. apply wp_ret.
  destruct Hal as [-> | ->]; (split; [|done]); split; try done; by apply Hok.
Qed.

(** A step of the slurp loop: the invariant holds again and the input is
    shorter. *)
Definition progress (g g' : GifFileType) : Prop :=
  gif_wf g' /\ (length g'.(In) < length g.(In))%nat.

Lemma DGifGetExtension_safe g :
  gif_wf g ->
  wp DGifGetExtension (fun r g' => byte r.1 /\ sub_block r.2 /\ progress g g') any g.
Proof.
  intros Hwf. unfold DGifGetExtension. apply wp_check_readable.
  apply wp_bind, wp_READ_byte; [apply Hwf|]. intros n input Hg Hn Hi.
  assert (moved g (set_In input g)) as Hm1 by (apply moved_set_In; [done|rewrite Hg; cbn; lia]).
  pose proof (moved_gif_wf _ _ Hm1 Hwf) as Hwf1.
  apply wp_bind. eapply wp_mono; [apply DGifGetExtensionNext_safe; apply Hwf1| |done].
  intros r g' (Hr & Hm & Hlt). apply wp_ret. do 2 (split; [done|]).
  split; [by eapply moved_gif_wf|]. rewrite Hg. cbn in *. lia.
Qed.

Lemma slurp_extension_safe g : gif_wf g -> wp slurp_extension (fun _ g' => progress g g') any g.
Proof.
  intros Hwf. unfold slurp_extension. apply wp_bind.
  eapply wp_mono; [by apply DGifGetExtension_safe| |done].
  intros [code [data|]] g1 (Hcode & Hext & Hwf1 & Hlt); [|by apply wp_ret].
  apply wp_bind. eapply wp_mono; [by apply add_extension_safe; try apply Hext| |done].
  intros _ g2 [Hwf2 Hin2]. do 2 wp_step.
  apply (wp_loop (fun n _ g' => gif_wf g' /\ n = length g'.(In) /\ (n < length g.(In))%nat))
    with (n := length g2.(In)); [|by rewrite Hin2|lia].
  intros n [] g3 (Hwf3 & -> & Hlt3). unfold slurp_continuation. apply wp_bind.
  eapply wp_mono; [apply DGifGetExtensionNext_safe; apply Hwf3| |done].
  intros [bs|] g4 (Hbs & Hm & Hlt4).
  - pose proof (moved_gif_wf _ _ Hm Hwf3). apply wp_bind.
    eapply wp_mono; [apply add_extension_safe; [done|done|apply Hbs|apply Hbs]| |done].
    intros _ g5 [Hwf5 Hin5]. apply wp_ret. eexists. rewrite Hin5. split; [done|].
    split; [done|]. split; [done|lia].
  - apply wp_ret. split; [by eapply moved_gif_wf|lia].
Qed.

(** ** Image descriptors *)

(** The saved images are [l0] followed by [sp]. *)
Definition at_last (l0 : list SavedImage) (sp : SavedImage) (g : GifFileType) : Prop :=
  g.(ImageCount) = Z.of_nat (length l0) + 1 /\ g.(SavedImages) = Some (l0 ++ [sp]).

Lemma wp_upd_saved l0 sp sp' f (Q : unit -> GifFileType -> Prop) E g :
  at_last l0 sp g -> f sp = Some sp' ->
  Q tt (set_SavedImages (Some (l0 ++ [sp'])) g) ->
  wp (upd_saved (Z.of_nat (length l0)) f) Q E g.
Proof.
  intros [_ Hi] Hf HQ. unfold upd_saved. do 2 wp_step. rewrite Hi.
  apply wp_bind, wp_of_option with (1 := eq_refl).
  apply wp_bind, wp_of_option with (1 := aget_last _ _).
  apply wp_bind, wp_of_option with (1 := Hf).
  apply wp_bind, wp_of_option with (1 := aset_last _ _ _). by apply wp_modify.
Qed.

Lemma DGifSetupDecompress_safe g :
  bytes_in g -> arrays_wf g.(Priv) ->
  wp DGifSetupDecompress
    (fun _ g' => dec_wf g' /\ structure g' = structure g /\
       (length g'.(In) <= length g.(In))%nat /\ g'.(Priv).(PixelCount) = g.(Priv).(PixelCount)) any g.
Proof.
  intros Hin Ha. unfold DGifSetupDecompress. apply wp_bind, wp_READ.
  unfold bytes_in in Hin. destruct (In g) as [|c input] eqn:Ei; [done|].
  apply Forall_cons in Hin as [Hc Hi]. change (take (Z.to_nat 1) (c :: input)) with [c]. change (drop (Z.to_nat 1) (c :: input)) with input. cbv iota.
  destruct (Z.ltb_spec 8 c); [by apply wp_err|].
  apply wp_bind, wp_set_Buf_at; [done|by unfold byte|lia|]. intros buf Hl Hf _.
  apply wp_modify. split; [|split; [done|split; [cbn; lia|done]]]. destruct Ha.
  assert (1 <= 2 ^ c) by (apply (Z.pow_le_mono_r 2 0); unfold byte in Hc; lia).
  assert (2 ^ c <= 2 ^ 8) as Hle by (apply Z.pow_le_mono_r; unfold byte in Hc; lia).
  change (2 ^ 8) with 256 in Hle.
  assert (Z.shiftl 1 c = 2 ^ c) as Hs by (rewrite Z.shiftl_mul_pow2 by apply Hc; lia).
  split; [done| |].
  - split; try done. cbn. apply Forall_replicate. by right.
  - unfold byte in Hc. split; cbn; rewrite ?Hs; unfold LZ_BITS, LZ_MAX_CODE; try lia. by right.
Qed.

(** ** Colour maps and image descriptors *)

Lemma GifMakeMapObject_safe n cs g :
  match cs with None => True | Some l => n <= Z.of_nat (length l) end ->
  wp (GifMakeMapObject n cs)
    (fun r g' => (exists al, g' = set_Alloc al g) /\
       match r with None => True | Some m => m.(ColorCount) = n end /\ map_fits r) any g.
Proof.
  intros Hcs. unfold GifMakeMapObject.
  destruct (negb _); [apply wp_ret; split; [by exists g.(Alloc); destruct g|done]|].
  apply wp_bind, wp_malloc. destruct (negb _); [apply wp_ret; split; [by eexists|done]|].
  apply wp_bind, wp_malloc. destruct (negb _); [apply wp_ret; split; [by eexists|done]|].
  destruct cs as [l|]; apply wp_bind.
  - destruct (Nat.ltb_spec (length l) (Z.to_nat n)); [lia|].
    apply wp_ret, wp_ret. split; [by eexists|]. split; [done|]. cbn. rewrite length_take. lia.
  - apply wp_ret, wp_ret. split; [by eexists|]. split; [done|]. cbn. rewrite length_replicate. lia.
Qed.

Lemma read_colors_safe n cleanup g :
  bytes_in g -> 0 <= n -> harmless cleanup ->
  wp (read_colors n cleanup) (fun cs g' => moved g g' /\ Z.of_nat (length cs) = n) any g.
Proof.
  intros Hin Hn Hc. unfold read_colors.
  apply (wp_foldM (fun l (cs : list GifColorType) g' => moved g g' /\
           Z.of_nat (length cs) + Z.of_nat (length l) = n)).
  - intros a l cs g1 [Hm Hl]. apply wp_bind, wp_READ_or; [lia|by apply (mv_in _ _ Hm)|done|].
    intros bs input Hg Hb Hbs Hi.
    destruct bs as [|b0 [|b1 [|b2 [|]]]]; cbn [length] in Hb; try lia.
    do 3 (apply wp_bind, wp_of_option with (1 := eq_refl)). apply wp_ret.
    split; [|rewrite length_app; cbn [length] in *; lia].
    etrans; [exact Hm|]. apply moved_set_In; [done|]. rewrite Hg, length_app. lia.
  - intros cs g1 [Hm Hl]. split; [done|]. cbn [length] in Hl. lia.
  - split; [done|]. rewrite length_seqZ. cbn [length]. lia.
Qed.

(** As [moved], for steps that also write [GifFile->Image] or the screen
    fields. *)
Record reading (g g' : GifFileType) : Prop := {
  rd_in : bytes_in g -> bytes_in g';
  rd_arrays : arrays_wf g.(Priv) -> arrays_wf g'.(Priv);
  rd_fields : (g'.(ImageCount), g'.(SavedImages), g'.(ExtensionBlockCount), g'.(ExtensionBlocks))
              = (g.(ImageCount), g.(SavedImages), g.(ExtensionBlockCount), g.(ExtensionBlocks));
  rd_len : (length g'.(In) <= length g.(In))%nat
}.

#[export] Instance reading_preorder : PreOrder reading.
Proof. split; [by split|]. intros x y z [] []. split; [auto|auto|congruence|lia]. Qed.

Lemma moved_reading g g' : moved g g' -> reading g g'.
Proof. intros [? ? ? Hs ?]. unfold structure in Hs. split; [done|done|congruence|done]. Qed.

Lemma reading_gif_wf g g' : reading g g' -> gif_wf g -> gif_wf g'.
Proof.
  intros [Hi Ha Hs _] [Hwi Hwa Hwim Hwe]. injection Hs as E1 E2 E3 E4.
  split; [auto|auto|by rewrite E1, E2|by rewrite E3, E4].
Qed.

Lemma wp_word {A} (k : Z -> GifM A) (Q : A -> GifFileType -> Prop) g g0 :
  gif_wf g -> reading g g0 ->
  (forall w g', reading g g' -> word16 w -> g'.(Image) = g0.(Image) ->
     (length g'.(In) < length g0.(In))%nat -> wp (k w) Q any g') ->
  wp (bind DGifGetWord k) Q any g0.
Proof.
  intros Hwf Hr HQ. apply wp_bind, wp_DGifGetWord; [by apply (rd_in _ _ Hr), Hwf|].
  intros lo hi input Hg Hlo Hhi Hi. apply HQ; [|by apply le_word_range|done|rewrite Hg; cbn; lia].
  etrans; [exact Hr|]. split; [done|done|done|rewrite Hg; cbn; lia].
Qed.

Lemma reading_upd_Image g g' f : reading g g' -> reading g (upd_Image f g').
Proof. by intros []. Qed.

(** The tail of [DGifGetImageDesc]: the copy of the descriptor becomes the
    last saved image. *)
Definition fresh_image (l0 : list SavedImage) (g : GifFileType) : Prop :=
  exists copy, map_fits copy /\ at_last l0 (mkSavedImage (set_ColorMap copy g.(Image)) None 0 None) g.

Lemma add_saved_image_safe g (Q : unit -> GifFileType -> Prop) :
  gif_wf g ->
  map_fits g.(Image).(ColorMap) ->
  (forall l0 g', Forall saved_ok l0 -> fresh_image l0 g' -> bytes_in g' -> arrays_wf g'.(Priv) ->
     g'.(Image) = g.(Image) -> counted block_ok g'.(ExtensionBlockCount) g'.(ExtensionBlocks) ->
     g'.(In) = g.(In) -> Q tt g') ->
  wp add_saved_image Q any g.
Proof.
  intros [Hin Ha Him He] Hmap HQ. unfold add_saved_image. do 2 wp_step.
  apply wp_bind, wp_malloc. destruct (negb _); [done|].
  destruct (append_slot _ _ zero_saved _ Him) as (l0 & Hc & Hl0 & -> & _).
  do 2 wp_step. set (g1 := set_SavedImages _ _).
  assert (wp (match (Image g).(ColorMap) with
              | None => ret None
              | Some m => GifMakeMapObject m.(ColorCount) (Some m.(Colors))
              end) (fun r g' => (exists al, g' = set_Alloc al g1) /\ map_fits r) any g1) as Hcopy.
  { destruct (Image g).(ColorMap) as [m|].
    - eapply wp_mono; [by apply GifMakeMapObject_safe| |done]. by intros r g' (? & _ & ?).
    - apply wp_ret. split; [by exists g1.(Alloc)|done]. }
  apply wp_bind. eapply wp_mono; [exact Hcopy| |done]. intros copy g2 [[al ->] Hfits].
  rewrite Hc. apply wp_bind, wp_of_option with (1 := aget_last _ _).
  assert (wp (let! images := of_option (aset (l0 ++ [zero_saved]) (Z.of_nat (length l0))
                                (mkSavedImage (set_ColorMap copy (Image g)) None 0 None)) in
              modify (set_SavedImages (Some images));;!
              modify (set_ImageCount (Z.of_nat (length l0) + 1)))%c Q any (set_Alloc al g1)) as Hend.
  { apply wp_bind, wp_of_option with (1 := aset_last _ _ _). do 3 wp_step.
    apply (HQ l0); try done. by exists copy. }
  destruct (Image g).(ColorMap); [|exact Hend]. by destruct copy.
Qed.

(** The local colour map of an image, behind the packed byte. *)
Lemma local_map_safe b0 bpp g (Q : unit -> GifFileType -> Prop) :
  gif_wf g -> 0 <= bpp ->
  (forall g', reading g g' -> g'.(Image).(Width) = g.(Image).(Width) ->
     g'.(Image).(Height) = g.(Image).(Height) ->
     g'.(Image).(Left) = g.(Image).(Left) -> g'.(Image).(Top) = g.(Image).(Top) ->
     map_fits g'.(Image).(ColorMap) -> Q tt g') ->
  wp (set_local_map None ;;!
      if test b0 0x80 then
        let! m := GifMakeMapObject (Z.shiftl 1 bpp) None in
        set_local_map m ;;!
        match m with
        | None => err D_GIF_ERR_NOT_ENOUGH_MEM
        | Some m =>
            let! cs := read_colors m.(ColorCount) (set_local_map None) in
            set_local_map (Some (set_Colors cs m))
        end
      else ret tt)%c Q any g.
Proof.
  intros Hwf Hb HQ. unfold set_local_map. do 2 wp_step. set (g1 := upd_Image _ g).
  assert (reading g g1) as Hr1 by done.
  destruct (test b0 128); [|apply wp_ret; by apply HQ].
  apply wp_bind. eapply wp_mono; [by apply GifMakeMapObject_safe| |done].
  intros [m|] g2 ([al ->] & Hm & _); do 2 wp_step; [|by apply wp_err].
  set (g3 := upd_Image _ _). assert (reading g g3) as Hr3 by done.
  apply wp_bind. eapply wp_mono; [apply read_colors_safe| |done].
  - by apply (rd_in _ _ Hr3), Hwf.
  - rewrite Hm, Z.shiftl_nonneg. lia.
  - done.
  - intros cs g4 [Hm4 Hl]. apply wp_modify. pose proof (mv_structure _ _ Hm4) as Hs.
    unfold structure in Hs. injection Hs as _ _ _ _ Himg.
    apply HQ; [|cbn; by rewrite Himg..|cbn; lia].
    apply reading_upd_Image. etrans; [exact Hr3|by apply moved_reading].
Qed.

(** The state in which the pixels of the new last image are decoded. *)
Record image_ready (l0 : list SavedImage) (g g' : GifFileType) : Prop := {
  ir_before : Forall saved_ok l0;
  ir_fresh : fresh_image l0 g';
  ir_dec : dec_wf g';
  ir_width : word16 g'.(Image).(Width);
  ir_height : word16 g'.(Image).(Height);
  ir_left : word16 g'.(Image).(Left);
  ir_top : word16 g'.(Image).(Top);
  ir_count : g'.(Priv).(PixelCount) = u32 (g'.(Image).(Width) * g'.(Image).(Height));
  ir_ext : counted block_ok g'.(ExtensionBlockCount) g'.(ExtensionBlocks);
  ir_len : (length g'.(In) <= length g.(In))%nat
}.

Lemma bind_assoc_wp {A B C} (m : GifM A) (k1 : A -> GifM B) (k2 : B -> GifM C) Q E g :
  wp (bind (bind m k1) k2) Q E g -> wp (bind m (fun a => bind (k1 a) k2)) Q E g.
Proof. unfold wp, bind. by destruct (m g) as [[]]. Qed.

Lemma DGifGetImageDesc_safe g :
  gif_wf g ->
  wp DGifGetImageDesc (fun _ g' => exists l0, image_ready l0 g g') any g.
Proof.
  intros Hwf. unfold DGifGetImageDesc. apply wp_check_readable.
  apply (wp_word _ _ g); [done|done|]. intros l g1 Hr1 Hl Hi1 _. do 2 wp_step.
  apply (wp_word _ _ g); [done|by apply reading_upd_Image|]. intros t g2 Hr2 Ht Hi2 _. do 2 wp_step.
  apply (wp_word _ _ g); [done|by apply reading_upd_Image|]. intros w g3 Hr3 Hw Hi3 _. do 2 wp_step.
  apply (wp_word _ _ g); [done|by apply reading_upd_Image|]. intros h g4 Hr4 Hh Hi4 _. do 2 wp_step.
  set (g5 := upd_Image (set_Height h) g4).
  assert (reading g g5) as Hr5 by (by apply reading_upd_Image).
  assert (Width (Image g5) = w) as Hw5 by (cbn; by rewrite Hi4).
  assert (Left (Image g5) = l) as Hl5 by (cbn; rewrite Hi4; cbn; rewrite Hi3; cbn; by rewrite Hi2).
  assert (Top (Image g5) = t) as Ht5 by (cbn; rewrite Hi4; cbn; by rewrite Hi3).
  apply wp_bind, wp_READ_or; [lia|by apply (rd_in _ _ Hr5), Hwf|done|].
  intros [|b0 [|]] input Hg Hb Hbs Hi; cbn [length] in Hb; try lia.
  apply wp_bind, wp_of_option with (1 := eq_refl). do 2 wp_step.
  set (g6 := upd_Image _ _).
  assert (reading g g6) as Hr6.
  { apply reading_upd_Image. etrans; [exact Hr5|]. split; [done|done|done|rewrite Hg; cbn; lia]. }
  apply bind_assoc_wp, wp_bind, local_map_safe; [by eapply reading_gif_wf| |].
  { assert (0 <= Z.land b0 7) by (apply Z.land_nonneg; lia). lia. }
  intros g7 Hr7 Hw7 Hh7 Hl7 Ht7 Hm7.
  apply wp_bind, add_saved_image_safe; [eapply reading_gif_wf; [|exact Hwf]; by etrans|done|].
  intros l0 g8 Hl0 Hf8 Hin8 Ha8 Hi8 He8 Hlen8. do 2 wp_step.
  eapply wp_mono; [apply DGifSetupDecompress_safe; [exact Hin8|by destruct Ha8]| |done].
  intros [] g9 (Hwf9 & Hs9 & Hlen9 & Hpc). unfold structure in Hs9.
  injection Hs9 as E1 E2 E3 E4 E5. cbn in E1, E2, E3, E4, E5, Hlen9, Hpc.
  assert (Width (Image g9) = w) as Hw9 by (rewrite E5, Hi8, Hw7; exact Hw5).
  assert (Height (Image g9) = h) as Hh9 by (rewrite E5, Hi8, Hh7; done).
  assert (Left (Image g9) = l) as Hl9 by (rewrite E5, Hi8, Hl7; exact Hl5).
  assert (Top (Image g9) = t) as Ht9 by (rewrite E5, Hi8, Ht7; exact Ht5).
  exists l0. split; try done.
  - destruct Hf8 as (copy & Hfit & Hc1 & Hc2). exists copy. split; [done|]. split; [by rewrite E1|by rewrite E2, E5].
  - by rewrite Hw9.
  - by rewrite Hh9.
  - by rewrite Hl9.
  - by rewrite Ht9.
  - by rewrite Hw9, Hh9.
  - by rewrite E3, E4.
  - pose proof (rd_len _ _ Hr6). pose proof (rd_len _ _ Hr7). rewrite <- Hlen8 in *. lia.
Qed.

(** ** Interlacing *)

Lemma elem_of_pass_rows h off step j :
  0 <= off < step ->
  j ∈ pass_rows h (off, step) <-> 0 <= j < h /\ j mod step = off.
Proof.
  intros Ho. unfold pass_rows. cbn [fst snd]. rewrite list_elem_of_fmap. split.
  - intros (k & -> & Hk%elem_of_seqZ).
    assert (k < (h - off + step - 1) / step) as Hk2 by lia.
    assert (step * ((h - off + step - 1) / step) <= h - off + step - 1) by (apply Z.mul_div_le; lia).
    split; [split; nia|]. rewrite Z.mul_comm, Z.mod_add by lia. by apply Z.mod_small.
  - intros [Hj Hm]. exists (j / step). pose proof (Z.div_mod j step ltac:(lia)).
    split; [lia|]. apply elem_of_seqZ. split; [apply Z.div_pos; lia|].
    assert (j / step + 1 <= (h - off + step - 1) / step); [|lia].
    apply Z.div_le_lower_bound; nia.
Qed.

Lemma NoDup_pass_rows h off step : 0 < step -> NoDup (pass_rows h (off, step)).
Proof.
  intros Hs. unfold pass_rows. apply NoDup_fmap_2_strong; [|apply NoDup_seqZ].
  intros x y _ _ H. cbn [fst snd] in H. nia.
Qed.

Lemma elem_of_interlace_rows h j : j ∈ interlace_rows h <-> 0 <= j < h.
Proof.
  unfold interlace_rows, interlace_passes. cbn [flat_map].
  rewrite !elem_of_app, !elem_of_pass_rows by lia.
  rewrite elem_of_nil. split; [tauto|]. intros Hj.
  pose proof (Z.mod_pos_bound j 8). pose proof (Z.mod_pos_bound j 4). pose proof (Z.mod_pos_bound j 2).
  pose proof (Z.div_mod j 8 ltac:(lia)). pose proof (Z.div_mod j 4 ltac:(lia)). pose proof (Z.div_mod j 2 ltac:(lia)).
  lia.
Qed.

Lemma NoDup_interlace_rows h : NoDup (interlace_rows h).
Proof.
  unfold interlace_rows, interlace_passes. cbn [flat_map].
  rewrite !NoDup_app. repeat split; try (apply NoDup_pass_rows; lia); try apply NoDup_nil_2;
    intros j Hj; rewrite ?elem_of_app, ?elem_of_nil;
    repeat match goal with
    | H : _ ∈ pass_rows _ _ |- _ => apply elem_of_pass_rows in H; [|lia]
    | |- context [_ ∈ pass_rows ?h (?a, ?b)] => rewrite (elem_of_pass_rows h a b) by lia
    end;
    pose proof (Z.div_mod j 8 ltac:(lia)); pose proof (Z.div_mod j 4 ltac:(lia));
    pose proof (Z.div_mod j 2 ltac:(lia)); lia.
Qed.

(** ** The raster of an image *)

Definition with_raster (r : list Z) (desc : GifImageDesc) : SavedImage :=
  mkSavedImage desc (Some r) 0 None.

(** While the lines of an image are stored. *)
Definition storing (l0 : list SavedImage) (desc : GifImageDesc) (g g' : GifFileType) : Prop :=
  dec_wf g' /\ g'.(Image) = g.(Image) /\
  (exists r, at_last l0 (with_raster r desc) g' /\ Forall byte r /\
     Z.of_nat (length r) = desc.(Width) * desc.(Height)) /\
  counted block_ok g'.(ExtensionBlockCount) g'.(ExtensionBlocks) /\
  (length g'.(In) <= length g.(In))%nat.

Lemma storing_moved l0 desc g g1 g2 : storing l0 desc g g1 -> moved g1 g2 -> storing l0 desc g g2.
Proof.
  intros (Hwf & Hi & (r & [Hc Hs] & Hr) & He & Hl) Hm. pose proof (mv_structure _ _ Hm) as Hst.
  unfold structure in Hst. injection Hst as E1 E2 E3 E4 E5.
  split; [by eapply moved_dec_wf|]. split; [by rewrite E5|].
  split; [exists r; split; [split; [by rewrite E1|by rewrite E2]|done]|].
  split; [by rewrite E3, E4|]. pose proof (mv_len _ _ Hm). lia.
Qed.

Lemma blit_bytes (l : list Z) off vs :
  Forall byte l -> Forall byte vs -> 0 <= off -> off + Z.of_nat (length vs) <= Z.of_nat (length l) ->
  exists l', blit l off vs = Some l' /\ length l' = length l /\ Forall byte l'.
Proof.
  intros Hl Hvs Ho Hle.
  destruct (blit_byte vs l off (length l)) as (l' & ? & ? & ? & _); eauto.
Qed.

Lemma store_pixels_safe l0 desc g g1 off line (Q : unit -> GifFileType -> Prop) E :
  storing l0 desc g g1 -> Forall byte line -> 0 <= off ->
  off + Z.of_nat (length line) <= desc.(Width) * desc.(Height) ->
  (forall g2, storing l0 desc g g2 -> Q tt g2) ->
  wp (store_pixels (Z.of_nat (length l0)) off line) Q E g1.
Proof.
  intros (Hwf & Hi & (r & Hat & Hrb & Hrl) & He & Hl) Hb Ho Hle HQ.
  destruct (blit_bytes r off line) as (r' & Hblit & Hlen & Hrb'); [done|done|done|lia|].
  unfold store_pixels. eapply (wp_upd_saved _ _ (with_raster r' desc)); [exact Hat| |].
  - cbn. by rewrite Hblit.
  - apply HQ. split; [by destruct Hwf|]. split; [done|]. split; [|done].
    exists r'. split; [split; [apply Hat|done]|]. split; [done|lia].
Qed.

Lemma store_rows_safe l0 desc g g1 (Q : unit -> GifFileType -> Prop) :
  storing l0 desc g g1 -> desc.(Width) = g.(Image).(Width) -> 0 <= desc.(Width) ->
  (forall g2, storing l0 desc g g2 -> Q tt g2) ->
  wp (for_each (fun j =>
        let! line := DGifGetLine desc.(Width) in
        store_pixels (Z.of_nat (length l0)) (j * desc.(Width)) line)%c (interlace_rows desc.(Height)))
     Q any g1.
Proof.
  intros Hst Hw Hw0 HQ.
  apply (wp_for_each (fun rows g' => storing l0 desc g g' /\ Forall (fun j => 0 <= j < desc.(Height)) rows)).
  - intros j rows g2 [Hst2 [Hj Hrows]%Forall_cons]. destruct Hst2 as (Hwf2 & Hi2 & Hrest2).
    apply wp_bind. eapply wp_mono; [by apply DGifGetLine_safe| |done].
    intros line g3 (Hwf3 & Hm3 & Hb3 & Hl3 & _).
    assert (storing l0 desc g g3) as Hst3 by (eapply storing_moved; [|exact Hm3]; done).
    assert (line_length desc.(Width) g2 = desc.(Width)) as Hll.
    { unfold line_length. destruct (Z.eqb_spec desc.(Width) 0); [|done]. by rewrite Hi2, <- Hw. }
    rewrite Hll in Hl3. eapply store_pixels_safe; [exact Hst3|done|nia|nia|]. intros g4 Hst4. done.
  - intros g2 [Hst2 _]. by apply HQ.
  - split; [done|]. apply Forall_forall. intros j. apply elem_of_interlace_rows.
Qed.

Lemma word_product w h : word16 w -> word16 h -> 0 <= w * h < 4294967296.
Proof. unfold word16. nia. Qed.

(** The single line that holds a whole image fits its raster. *)
Lemma whole_image_fits w h n pc :
  word16 w -> word16 h -> n = i32 (w * h) -> pc = u32 (w * h) ->
  let m := if n =? 0 then w else n in
  u32 (pc - m) <= PIXEL_LIMIT -> Z.max 0 m <= w * h.
Proof.
  intros Hw Hh -> -> m Hpc. pose proof (word_product w h Hw Hh).
  unfold m in *. clear m. unfold word16 in *.
  assert (i32 (w * h) = w * h \/ i32 (w * h) = w * h - 4294967296) as Hi.
  { unfold i32. destruct (Z.lt_ge_cases (w * h) 2147483648).
    - left. rewrite Z.mod_small by lia. lia.
    - right. rewrite <- (Z_mod_plus_full _ (-1)). rewrite Z.mod_small by lia. lia. }
  destruct (Z.eqb_spec (i32 (w * h)) 0); [|lia].
  assert (w * h = 0) as Hz by lia. rewrite Hz in *.
  destruct (Z.eq_dec w 0); [lia|]. exfalso.
  change (u32 0) with 0 in Hpc. unfold u32, PIXEL_LIMIT in Hpc.
  rewrite <- (Z_mod_plus_full _ 1), Z.mod_small in Hpc; lia.
Qed.

Lemma slurp_pixels_safe l0 desc g (Q : unit -> GifFileType -> Prop) :
  storing l0 desc g g -> desc.(Width) = g.(Image).(Width) -> desc.(Height) = g.(Image).(Height) ->
  word16 desc.(Width) -> word16 desc.(Height) ->
  g.(Priv).(PixelCount) = u32 (desc.(Width) * desc.(Height)) ->
  (forall g2, storing l0 desc g g2 -> Q tt g2) ->
  wp (if desc.(Interlace) then
        for_each (fun j =>
          let! line := DGifGetLine desc.(Width) in
          store_pixels (Z.of_nat (length l0)) (j * desc.(Width)) line) (interlace_rows desc.(Height))
      else
        let! line := DGifGetLine (i32 (u32 (desc.(Width) * desc.(Height)))) in
        store_pixels (Z.of_nat (length l0)) 0 line)%c Q any g.
Proof.
  intros Hst Hw Hh Hww Hwh Hpc HQ. destruct desc.(Interlace).
  { apply (store_rows_safe _ _ g); [done|done|apply Hww|done]. }
  pose proof (word_product _ _ Hww Hwh). rewrite (u32_small (Width desc * Height desc)) by done.
  apply wp_bind. eapply wp_mono; [apply DGifGetLine_safe; apply Hst| |done].
  intros line g3 (Hwf3 & Hm3 & Hb3 & Hl3 & Hlim).
  eapply store_pixels_safe; [by eapply storing_moved|done|lia| |done].
  rewrite Z.add_0_l, Hl3. unfold line_length in *. rewrite <- Hw in *.
  eapply whole_image_fits; done.
Qed.

Lemma storing_done l0 desc g g' :
  Forall saved_ok l0 -> word16 desc.(Width) -> word16 desc.(Height) -> place_ok desc -> storing l0 desc g g' ->
  wp (let! g := gets (fun g => g) in
      match g.(ExtensionBlocks) with
      | None => ret tt
      | Some blocks =>
          upd_saved (Z.of_nat (length l0)) (fun sp => Some (set_sp_ExtensionBlocks (Some blocks)
                                        (set_sp_ExtensionBlockCount g.(ExtensionBlockCount) sp))) ;;!
          modify (set_ExtensionBlocks None) ;;!
          modify (set_ExtensionBlockCount 0)
      end)%c (fun _ g2 => gif_wf g2 /\ (length g2.(In) <= length g.(In))%nat) any g'.
Proof.
  intros Hl0 Hw Hh Hplace (Hwf & Hi & (r & [Hc Hs] & Hrb & Hrl) & He & Hl). do 2 wp_step.
  assert (forall cnt b, counted block_ok cnt b -> Forall saved_ok (l0 ++ [mkSavedImage desc (Some r) cnt b])) as Hall.
  { intros cnt b Hb. apply Forall_app. split; [done|]. constructor; [|done].
    split; [done|]. split; [done|]. split; [by exists r|]. by split. }
  destruct (ExtensionBlocks g') as [blocks|] eqn:Eb.
  - apply wp_bind. eapply wp_upd_saved; [by split|done|]. do 3 wp_step.
    split; [|done]. split; [apply Hwf|apply Hwf| |done].
    cbn. split; [rewrite length_app; cbn; lia|]. by apply Hall.
  - apply wp_ret. split; [|done]. split; [apply Hwf|apply Hwf| |by rewrite Eb].
    rewrite Hs. cbn. split; [rewrite length_app; cbn; lia|]. by apply Hall.
Qed.

Lemma slurp_image_safe g :
  gif_wf g ->
  wp slurp_image (fun _ g' => gif_wf g' /\ (length g'.(In) <= length g.(In))%nat) any g.
Proof.
  intros Hwf. unfold slurp_image. apply wp_bind.
  eapply wp_mono; [by apply DGifGetImageDesc_safe| |done].
  intros _ g1 [l0 [Hl0 (copy & Hfit & Hc & Hs) Hdec Hw Hh Hleft Htop Hpc He Hlen]]. do 2 wp_step.
  rewrite Hc, Hs. replace (Z.of_nat (length l0) + 1 - 1) with (Z.of_nat (length l0)) by lia.
  apply wp_bind, wp_of_option with (1 := eq_refl).
  apply wp_bind, wp_of_option with (1 := aget_last _ _).
  set (desc := set_ColorMap copy (Image g1)). cbn [ImageDesc].
  assert ((Width desc <? 0) = false) as -> by (apply Z.ltb_ge; apply Hw). cbn [andb].
  apply wp_bind, wp_malloc. destruct (negb (next_alloc g1)).
  { apply wp_bind. eapply wp_upd_saved; [by split|done|done]. }
  apply wp_bind. eapply wp_upd_saved; [by split|done|].
  set (g2 := set_SavedImages _ _).
  apply wp_bind, (slurp_pixels_safe l0 desc g2); try done.
  - split; [by destruct Hdec|]. split; [done|]. split; [|done].
    eexists. split; [split; [done|reflexivity]|]. split; [apply Forall_replicate; by unfold byte|].
    rewrite length_replicate. pose proof (word_product _ _ Hw Hh) as Hp.
    rewrite Z2Nat.id by apply u32_range. by rewrite u32_small.
  - intros g3 Hst. eapply wp_mono; [apply (storing_done l0 desc g2); by try done| |done].
    intros [] g4 [Hwf4 Hl4]. split; [done|]. change (In g2) with (In g1) in Hl4. lia.
Qed.

Lemma DGifGetRecordType_safe g :
  gif_wf g -> wp DGifGetRecordType (fun _ g' => progress g g') any g.
Proof.
  intros Hwf. unfold DGifGetRecordType. apply wp_check_readable.
  apply wp_bind, wp_READ_byte; [apply Hwf|]. intros n input Hg Hn Hi.
  assert (moved g (set_In input g)) as Hm1 by (apply moved_set_In; [done|rewrite Hg; cbn; lia]).
  assert (progress g (set_In input g)).
  { split; [by eapply moved_gif_wf|rewrite Hg; cbn; lia]. }
  repeat (destruct (_ =? _); [by apply wp_ret|]). by apply wp_err.
Qed.

(** What a successful [DGifSlurp] leaves. *)
Definition slurped (g : GifFileType) : Prop :=
  0 < g.(ImageCount) /\ counted saved_ok g.(ImageCount) g.(SavedImages) /\
  counted block_ok g.(ExtensionBlockCount) g.(ExtensionBlocks).

Lemma DGifSlurp_safe g :
  gif_wf g -> wp DGifSlurp (fun _ g' => slurped g') any g.
Proof.
  intros Hwf. unfold DGifSlurp. do 6 wp_step. cbv beta.
  set (g1 := set_ExtensionBlockCount 0 _).
  assert (gif_wf g1) as Hwf1 by (by destruct Hwf).
  apply wp_bind.
  apply (wp_loop (fun n _ g' => gif_wf g' /\ n = length g'.(In))) with (n := length g1.(In));
    [|done|lia].
  - intros n [] g2 [Hwf2 ->]. unfold slurp_record. apply wp_bind.
    eapply wp_mono; [by apply DGifGetRecordType_safe| |done]. intros t g3 [Hwf3 Hlt3].
    destruct t.
    + by apply wp_ret; exists (length g3.(In)).
    + by apply wp_ret; exists (length g3.(In)).
    + apply wp_bind. eapply wp_mono; [by apply slurp_image_safe| |done].
      intros _ g4 [Hwf4 Hl4]. apply wp_ret. exists (length g4.(In)). split; [lia|done].
    + apply wp_bind. eapply wp_mono; [by apply slurp_extension_safe| |done].
      intros _ g4 [Hwf4 Hl4]. apply wp_ret. exists (length g4.(In)). split; [lia|done].
    + apply wp_ret. do 2 wp_step. destruct (Z.eqb_spec (ImageCount g3) 0); [by apply wp_err|].
      apply wp_ret. pose proof (gw_images _ Hwf3) as Him. split; [|by split; apply Hwf3].
      destruct (SavedImages g3); cbn in Him; lia.
Qed.

Lemma zero_arrays_wf : arrays_wf zero_private.
Proof.
  split; try (by vm_compute); cbn [Stack Suffix Prefix zero_private].
  - split; [done|]. apply Forall_replicate. by unfold byte.
  - apply Forall_replicate. by unfold byte.
  - apply Forall_replicate. by unfold byte.
  - apply Forall_replicate. left. by unfold LZ_MAX_CODE.
Qed.

Lemma DGifGetScreenDesc_safe g :
  gif_wf g -> wp DGifGetScreenDesc (fun _ g' => gif_wf g') any g.
Proof.
  intros Hwf. unfold DGifGetScreenDesc. apply wp_check_readable.
  apply (wp_word _ _ g); [done|done|]. intros w g1 Hr1 _ _ _. do 2 wp_step.
  apply (wp_word _ _ g); [done|by destruct Hr1|]. intros h g2 Hr2 _ _ _. do 2 wp_step.
  set (g3 := set_SHeight h g2). assert (reading g g3) as Hr3 by (by destruct Hr2).
  apply wp_bind, wp_READ_or; [lia|by apply (rd_in _ _ Hr3), Hwf|done|].
  intros bs input Hg Hb Hbs Hi. destruct bs as [|b0 [|b1 [|b2 [|]]]]; cbn [length] in Hb; try lia.
  do 3 (apply wp_bind, wp_of_option with (1 := eq_refl)).
  do 6 wp_step. cbv zeta. set (g4 := set_AspectByte _ _).
  assert (reading g g4) as Hr4.
  { destruct Hr3 as [? ? ? Hl]. split; [done|done|done|]. rewrite Hg, length_app in Hl. cbn in *. lia. }
  destruct (test b0 128).
  2:{ apply wp_modify. apply (reading_gif_wf g); [by destruct Hr4|done]. }
  apply wp_bind. eapply wp_mono; [by apply GifMakeMapObject_safe| |done].
  intros [m|] g5 ([al ->] & Hm & _); do 2 wp_step; [|by apply wp_err].
  do 2 wp_step. cbn [ColorCount set_SortFlag]. rewrite Hm. set (g6 := set_SColorMap _ _).
  assert (reading g g6) as Hr6 by (by destruct Hr4).
  apply wp_bind. eapply wp_mono; [apply read_colors_safe| |done].
  - by apply (rd_in _ _ Hr6), Hwf.
  - rewrite Z.shiftl_nonneg. lia.
  - done.
  - intros cs g7 [Hm7 _]. apply wp_modify. apply (reading_gif_wf g); [|done].
    apply moved_reading in Hm7. assert (reading g g7) by (by etrans). by destruct H.
Qed.

Lemma DGifOpen_safe input allocs s :
  Forall byte input -> wp (DGifOpen input allocs) (fun _ g => gif_wf g) any s.
Proof.
  intros Hin. unfold wp, DGifOpen. set (g0 := fresh_gif input allocs).
  assert (gif_wf g0) as Hwf0 by (split; [done|apply zero_arrays_wf|done|done]).
  clearbody g0. match goal with |- match ?m g0 with _ => _ end => change (wp m (fun _ g => gif_wf g) any g0) end.
  apply wp_bind, wp_malloc. destruct (negb _); [done|].
  apply wp_bind, wp_malloc. destruct (negb _); [done|]. do 2 wp_step.
  set (g1 := upd_priv _ _). assert (gif_wf g1) as Hwf1.
  { destruct Hwf0 as [? [] ? ?]. split; [done|by split|done|done]. }
  apply wp_bind, wp_attempt. unfold read_stamp. apply wp_bind, wp_READ.
  set (g2 := set_In _ g1). assert (gif_wf g2) as Hwf2.
  { destruct Hwf1 as [? [] ? ?]. split; [by apply Forall_drop|by split|done|done]. }
  destruct (Z.eqb_spec (Z.of_nat (length (take (Z.to_nat GIF_STAMP_LEN) (In g1)))) GIF_STAMP_LEN) as [Hl|];
    cbn [negb]; [|by apply wp_fail].
  destruct (aget_Some (take (Z.to_nat GIF_STAMP_LEN) (In g1)) GIF_VERSION_POS) as [v Hv].
  { rewrite Hl. unfold GIF_VERSION_POS, GIF_STAMP_LEN. lia. }
  apply wp_bind, wp_of_option with (1 := Hv), wp_ret.
  destruct (decide _); [|by apply wp_err].
  apply wp_bind, wp_attempt. eapply wp_mono; [by apply DGifGetScreenDesc_safe| |done].
  intros [] g3 Hwf3. do 4 wp_step. apply wp_gets. destruct Hwf3 as [? [] ? ?]. split; [done|by split|done|done].
Qed.

(** Opening and slurping a file that is given as its bytes. *)
Definition slurp_file (input : list Z) (allocs : list bool) : GifM unit :=
  (DGifOpen input allocs ;;! DGifSlurp)%c.

(** C5. Reading a whole file is safe for every sequence of bytes and every
    pattern of failing allocations: [DGifOpen] followed by [DGifSlurp] never
    accesses an array out of bounds, never follows a null pointer and always
    ends; when it succeeds there is at least one image, every saved image has
    a raster of exactly Width * Height bytes, and every extension block has
    the 1 to 255 bytes its count says. *)
Theorem slurp_file_safe (input : list Z) (allocs : list bool) (s : GifFileType) :
  Forall byte input ->
  match slurp_file input allocs s with
  | (Returns _, g) => slurped g
  | (Fails, _) => True
  | (Stuck, _) => False
  end.
Proof.
  intros Hin. change (wp (slurp_file input allocs) (fun _ g => slurped g) any s).
  unfold slurp_file. apply wp_bind. eapply wp_mono; [by apply DGifOpen_safe| |done].
  intros r g Hwf. by apply DGifSlurp_safe.
Qed.

(** A file with one white pixel and a comment. *)
Definition tiny_gif : list Z :=
  GIF89_STAMP ++ [1; 0; 1; 0; 0x80; 0; 0; 0; 0; 0; 255; 255; 255] ++
  [0x21; 0xfe; 2; 72; 105; 0] ++
  [0x2c; 0; 0; 0; 0; 1; 0; 1; 0; 0; 2; 2; 0x4c; 0x01; 0] ++ [0x3b].

Definition no_file : GifFileType := fresh_gif [] [].

Lemma slurp_file_safe_witness :
  Forall byte tiny_gif /\
  fst (slurp_file tiny_gif [] no_file) = Returns tt /\
  (RasterBits <$> default [] (snd (slurp_file tiny_gif [] no_file)).(SavedImages)) = [Some [1]] /\
  match slurp_file tiny_gif [] no_file with
  | (Returns _, g) => slurped g
  | (Fails, _) => True
  | (Stuck, _) => False
  end.
Proof.
  assert (Forall byte tiny_gif) as Hb by (repeat constructor; unfold byte; lia).
  split; [exact Hb|]. split; [by vm_compute|]. split; [by vm_compute|].
  apply (slurp_file_safe tiny_gif [] no_file). exact Hb.
Defined.

(** The handle of an opened file: the file starts with the stamp GIF, and
    the flag gif89 says whether the byte at GIF_VERSION_POS (the fourth one)
    is a 9.  For a file that starts with GIF89a that byte is the 8, so the
    flag is never set for the version it is named after. *)
Theorem open_stamp (input : list Z) (allocs : list bool) (s : GifFileType) :
  match DGifOpen input allocs s with
  | (Returns _, g) =>
      take 3 input = take 3 GIF89_STAMP /\
      gif89 g.(Priv) = bool_decide (input !! 3%nat = Some 57) /\
      (take 6 input = GIF89_STAMP -> gif89 g.(Priv) = false)
  | _ => True
  end.
Proof.
  assert (forall g, gif89 g.(Priv) = bool_decide (input !! 3%nat = Some 57) ->
    take 6 input = GIF89_STAMP -> gif89 g.(Priv) = false) as H89.
  { intros g -> Ht. apply bool_decide_eq_false. intros H.
    assert (take 6 input !! 3%nat = Some 57) as H' by (rewrite lookup_take_lt by lia; done).
    by rewrite Ht in H'. }
  unfold DGifOpen, read_stamp, READ, err, malloc. unfold bind, attempt, ret, modify, fail, gets.
  set (g0 := fresh_gif input allocs).
  destruct (negb (next_alloc g0)); [done|]. destruct (negb (next_alloc (drop_alloc g0))); [done|].
  change (In (upd_priv (set_FileState FILE_STATE_READ) (drop_alloc (drop_alloc g0)))) with input.
  destruct (negb (Z.of_nat (length (take (Z.to_nat GIF_STAMP_LEN) input)) =? GIF_STAMP_LEN)); [done|].
  unfold of_option. destruct (aget (take (Z.to_nat GIF_STAMP_LEN) input) GIF_VERSION_POS) as [v|] eqn:Hv; [|done].
  unfold ret. destruct (decide _) as [Ht|]; [|done].
  destruct (DGifGetScreenDesc _) as [[u| |] g1]; [|done|done].
  rewrite take_take in Ht. split; [exact Ht|].
  assert (input !! 3%nat = Some v) as Hv'.
  { unfold aget in Hv. rewrite decide_True in Hv by (by unfold GIF_VERSION_POS).
    change (Z.to_nat GIF_VERSION_POS) with 3%nat in Hv. change (Z.to_nat GIF_STAMP_LEN) with 6%nat in Hv.
    by rewrite lookup_take_lt in Hv by lia. }
  match goal with |- ?e = _ /\ _ => assert (e = bool_decide (input !! 3%nat = Some 57)) as Hg end.
  { cbn. rewrite Hv'. destruct (Z.eqb_spec v 57) as [->|Hn]; [by rewrite bool_decide_true|].
    symmetry. apply bool_decide_eq_false. congruence. }
  split; [exact Hg|]. by apply H89.
Qed.

(** C6. A line is decoded with its exact length: from every state the
    decompressor can be in, [DGifGetLine] either fails or returns as many
    pixels as were asked for (a row when 0 is asked for), each a byte, and
    leaves the decompressor well-formed for the next line.  The block buffer,
    the stack and the code tables are never accessed out of bounds. *)
Theorem get_line_exact (LineLen : Z) (g : GifFileType) :
  dec_wf g ->
  match DGifGetLine LineLen g with
  | (Returns line, g') =>
      Z.of_nat (length line) = Z.max 0 (line_length LineLen g) /\ Forall byte line /\ dec_wf g'
  | (Fails, _) => True
  | (Stuck, _) => False
  end.
Proof.
  intros Hwf.
  change (wp (DGifGetLine LineLen) (fun line g' =>
    Z.of_nat (length line) = Z.max 0 (line_length LineLen g) /\ Forall byte line /\ dec_wf g') any g).
  eapply wp_mono; [by apply DGifGetLine_safe| |done]. by intros line g' (? & _ & ? & ? & _).
Qed.

(** A decompressor at the start of three pixels: code size 2, the codes
    clear, 1, 1, 1, end. *)
Definition three_pixels : GifFileType :=
  snd (DGifSetupDecompress
    (upd_priv (fun p => set_FileState FILE_STATE_READ (set_PixelCount 3 p))
      (fresh_gif [2; 2; 0x4c; 0x52; 0; 0x3b] []))).

Lemma get_line_exact_witness :
  dec_wf three_pixels /\
  fst (DGifGetLine 3 three_pixels) = Returns [1; 1; 1] /\
  match DGifGetLine 3 three_pixels with
  | (Returns line, g') =>
      Z.of_nat (length line) = Z.max 0 (line_length 3 three_pixels) /\ Forall byte line /\ dec_wf g'
  | (Fails, _) => True
  | (Stuck, _) => False
  end.
Proof.
  assert (dec_wf three_pixels) as Hwf.
  { unfold three_pixels. match goal with |- dec_wf (snd (DGifSetupDecompress ?g)) =>
      pose proof (DGifSetupDecompress_safe g) as H; set (g0 := g) in * end.
    destruct H as [H _].
    - repeat constructor; unfold byte; lia.
    - pose proof zero_arrays_wf as []. by split.
    - exact H. }
  split; [exact Hwf|]. split; [by vm_compute|].
  apply (get_line_exact 3 three_pixels). exact Hwf.
Defined.

(** The four passes of an interlaced image store every row exactly once. *)
Theorem interlace_rows_permutation (Height : Z) :
  Permutation (interlace_rows Height) (seqZ 0 Height).
Proof.
  apply NoDup_Permutation; [apply NoDup_interlace_rows|apply NoDup_seqZ|].
  intros j. rewrite elem_of_interlace_rows, elem_of_seqZ. lia.
Qed.
