(* ===== verification/GifEncode.v ===== *)
(** * giflib: GIF encoding (egif_lib.c)

    The encoder as routines over [GifFileType]: opening, the screen and image
    descriptors, lines and pixels, comments and extensions, the LZW compressor
    (hash table, bit buffer, block buffer) and [EGifSpew].  Writing appends to
    [Out] as many bytes as [Space] allows and returns their number. *)

From stdpp Require Import base numbers list list_numbers.
From Stdlib Require Import Lia ZArith.
From S2P Require Import Prelude GifTypes GifHash GifAlloc GifDecode.

#[local] Open Scope Z_scope.
#[local] Open Scope c_scope.

Definition CodeMask : list Z := [0x00; 0x01; 0x03; 0x07; 0x0f; 0x1f; 0x3f; 0x7f; 0xff].

Definition LOBYTE (x : Z) : Z := Z.land x 0xff.
Definition HIBYTE (x : Z) : Z := Z.land (Z.shiftr x 8) 0xff.

(** ** Output *)

(** [InternalWrite(GifFileOut, buf, len)] with [buf] of exactly [len] bytes. *)
Definition InternalWrite (buf : list Z) : GifM Z :=
  fun g =>
    let n := Z.to_nat (Z.min (Z.of_nat (length buf)) (Z.max 0 g.(Space))) in
    (Returns (Z.of_nat n), set_Space (g.(Space) - Z.of_nat n) (set_Out (g.(Out) ++ take n buf) g)).

(** A call whose result is not looked at. *)
Definition write_ (buf : list Z) : GifM unit := InternalWrite buf ;;! ret tt.

(** [if (InternalWrite(...) != len) { Error = E_GIF_ERR_WRITE_FAILED; return GIF_ERROR; }] *)
Definition write_or_fail (buf : list Z) : GifM unit :=
  let! n := InternalWrite buf in
  if n =? Z.of_nat (length buf) then ret tt else err E_GIF_ERR_WRITE_FAILED.

(** [len] bytes from a pointer. *)
Definition write_from (ptr : option (list Z)) (len : Z) : GifM unit :=
  if len =? 0 then ret tt
  else
    let! bytes := of_option ptr in
    if (len <? 0) || (Z.of_nat (length bytes) <? len) then stuck
    else write_ (take (Z.to_nat len) bytes).

Definition check_writeable : GifM unit :=
  let! p := gets Priv in
  if IS_WRITEABLE p then ret tt else err E_GIF_ERR_NOT_WRITEABLE.

Definition EGifPutWord (Word : Z) : GifM unit :=
  let! n := InternalWrite [LOBYTE Word; HIBYTE Word] in
  if n =? 2 then ret tt else fail.

(** ** Version *)

Definition needs_gif89 (function : Z) : bool :=
  (function =? COMMENT_EXT_FUNC_CODE) || (function =? GRAPHICS_EXT_FUNC_CODE)
  || (function =? PLAINTEXT_EXT_FUNC_CODE) || (function =? APPLICATION_EXT_FUNC_CODE).

(** The loop over the first [n] blocks of an array: the flag after it. *)
Definition scan_extensions (blocks : option (list ExtensionBlock)) (n : Z) (flag : bool) : option bool :=
  match blocks with
  | None => if n <=? 0 then Some flag else None
  | Some l =>
      if Z.of_nat (length l) <? n then None
      else Some (flag || existsb (fun ep => needs_gif89 ep.(Function)) (take (Z.to_nat n) l))
  end.

Definition EGifGetGifVersion : GifM (list Z) :=
  let! g := gets (fun g => g) in
  let! flag := foldM (fun flag i =>
                  let! images := of_option g.(SavedImages) in
                  let! sp := of_option (aget images i) in
                  of_option (scan_extensions sp.(sp_ExtensionBlocks) sp.(sp_ExtensionBlockCount) flag))
                 (seqZ 0 g.(ImageCount)) (gif89 g.(Priv)) in
  let! flag := of_option (scan_extensions g.(ExtensionBlocks) g.(ExtensionBlockCount) flag) in
  modify (upd_priv (set_gif89 flag)) ;;!
  ret (if flag : bool then GIF89_STAMP else GIF87_STAMP).

Definition EGifSetGifVersion (gif89 : bool) : GifM unit := modify (upd_priv (set_gif89 gif89)).

(** ** The LZW compressor *)

(** [EGifBufferedOutput(GifFile, Private->Buf, c)] *)
Definition EGifBufferedOutput (c : Z) : GifM unit :=
  let! p := gets Priv in
  let! n := of_option (aget p.(Buf) 0) in
  if c =? FLUSH_OUTPUT then
    (if negb (n =? 0) then write_or_fail (take (Z.to_nat (n + 1)) p.(Buf)) else ret tt) ;;!
    set_Buf_at 0 0 ;;!
    write_or_fail [0]
  else
    (if n =? 255 then
       write_or_fail (take (Z.to_nat (n + 1)) p.(Buf)) ;;!
       set_Buf_at 0 0
     else ret tt) ;;!
    let! p := gets Priv in
    let! n := of_option (aget p.(Buf) 0) in
    set_Buf_at 0 (u8 (n + 1)) ;;!
    set_Buf_at (u8 (n + 1)) (u8 c).

(** A byte of [CrntShiftDWord] goes to the block buffer; the result is whether
    [EGifBufferedOutput] succeeded. *)
Definition emit_byte : GifM bool :=
  let! p := gets Priv in
  let! r := attempt (EGifBufferedOutput (Z.land p.(CrntShiftDWord) 0xff)) in
  modify (upd_priv (fun p => set_CrntShiftState (p.(CrntShiftState) - 8)
                               (set_CrntShiftDWord (Z.shiftr p.(CrntShiftDWord) 8) p))) ;;!
  ret (match r with Some _ => true | None => false end).

(** [while (CrntShiftState >= low) ...] around [emit_byte]. *)
Definition emit_bytes (low : Z) (retval : bool) : GifM bool :=
  loop 8 (fun retval : bool =>
            let! p := gets Priv in
            if low <=? p.(CrntShiftState) then
              let! ok := emit_byte in ret (inl (retval && ok))
            else ret (inr retval)) retval.

Definition EGifCompressOutput (Code : Z) : GifM unit :=
  let! retval :=
    (if Code =? FLUSH_OUTPUT then
       let! retval := emit_bytes 1 true in
       modify (upd_priv (set_CrntShiftState 0)) ;;!
       let! r := attempt (EGifBufferedOutput FLUSH_OUTPUT) in
       ret (retval && match r with Some _ => true | None => false end)
     else
       modify (upd_priv (fun p =>
         set_CrntShiftState (p.(CrntShiftState) + p.(RunningBits))
         (set_CrntShiftDWord (Z.lor p.(CrntShiftDWord) (u32 (Z.shiftl Code p.(CrntShiftState)))) p))) ;;!
       emit_bytes 8 true) in
  let! p := gets Priv in
  (if (p.(MaxCode1) <=? p.(RunningCode)) && (Code <=? 4095) then
     modify (upd_priv (fun p => set_MaxCode1 (Z.shiftl 1 (p.(RunningBits) + 1))
                                  (set_RunningBits (p.(RunningBits) + 1) p)))
   else ret tt) ;;!
  if retval : bool then ret tt else fail.

(** [if (EGifCompressOutput(...) == GIF_ERROR) { Error = E_GIF_ERR_DISK_IS_FULL; return GIF_ERROR; }] *)
Definition output_code (Code : Z) : GifM unit :=
  let! r := attempt (EGifCompressOutput Code) in
  match r with Some _ => ret tt | None => err E_GIF_ERR_DISK_IS_FULL end.

Definition EGifSetupCompress : GifM unit :=
  let! g := gets (fun g => g) in
  match g.(Image).(ColorMap), g.(SColorMap) with
  | None, None => err E_GIF_ERR_NO_COLOR_MAP
  | Some m, _ | None, Some m =>
      let BitsPerPixel := if m.(cm_BitsPerPixel) <? 2 then 2 else m.(cm_BitsPerPixel) in
      write_ [u8 BitsPerPixel] ;;!
      set_Buf_at 0 0 ;;!
      modify (upd_priv (fun p =>
        let clear := Z.shiftl 1 BitsPerPixel in
        set_HashTable _ClearHashTable
        (set_CrntShiftDWord 0
        (set_CrntShiftState 0
        (set_CrntCode FIRST_CODE
        (set_MaxCode1 (Z.shiftl 1 (BitsPerPixel + 1))
        (set_RunningBits (BitsPerPixel + 1)
        (set_RunningCode (clear + 2)
        (set_EOFCode (clear + 1)
        (set_ClearCode clear
        (set_BitsPerPixel BitsPerPixel p))))))))))) ;;!
      let! p := gets Priv in
      output_code p.(ClearCode)
  end.

(** One round of the loop of [EGifCompressLine]: the next [CrntCode]. *)
Definition compress_pixel (CrntCode Pixel : Z) : GifM Z :=
  let NewKey := u32 (u32 (Z.shiftl CrntCode 8) + Pixel) in
  let! p := gets Priv in
  let! NewCode := of_option (_ExistsHashTable p.(HashTable) NewKey) in
  if 0 <=? NewCode then ret NewCode
  else
    output_code CrntCode ;;!
    let! p := gets Priv in
    (if LZ_MAX_CODE <=? p.(RunningCode) then
       output_code p.(ClearCode) ;;!
       modify (upd_priv (fun p =>
         set_HashTable _ClearHashTable
         (set_MaxCode1 (Z.shiftl 1 (p.(BitsPerPixel) + 1))
         (set_RunningBits (p.(BitsPerPixel) + 1)
         (set_RunningCode (p.(EOFCode) + 1) p)))))
     else
       let! t := of_option (_InsertHashTable p.(HashTable) NewKey p.(RunningCode)) in
       modify (upd_priv (fun p => set_HashTable t (set_RunningCode (p.(RunningCode) + 1) p)))) ;;!
    ret Pixel.

(** The end of the image: the last code, the end code and the flush. *)
Definition finish_image (CrntCode : Z) : GifM unit :=
  output_code CrntCode ;;!
  let! p := gets Priv in
  output_code p.(EOFCode) ;;!
  output_code FLUSH_OUTPUT.

Definition EGifCompressLine (Line : list Z) (LineLen : Z) : GifM unit :=
  let! p := gets Priv in
  let! ' (CrntCode, i) :=
    (if p.(CrntCode) =? FIRST_CODE then
       let! c := of_option (aget Line 0) in ret (c, 1)
     else ret (p.(CrntCode), 0)) in
  let! CrntCode :=
    foldM (fun CrntCode i =>
             let! Pixel := of_option (aget Line i) in
             compress_pixel CrntCode Pixel) (seqZ i (LineLen - i)) CrntCode in
  modify (upd_priv (set_CrntCode CrntCode)) ;;!
  let! p := gets Priv in
  if p.(PixelCount) =? 0 then finish_image CrntCode else ret tt.

(** ** Descriptors *)

Definition color_bytes (c : GifColorType) : list Z := [c.(Red); c.(Green); c.(Blue)].

(** The loop that dumps a colour map. *)
Definition put_colors (m : ColorMapObject) : GifM unit :=
  for_each (fun i =>
              let! c := of_option (aget m.(Colors) i) in
              write_or_fail (color_bytes c)) (seqZ 0 m.(ColorCount)).

(** The copy of a map that is kept in the handle. *)
Definition copy_map (ColorMap : option ColorMapObject) (store : option ColorMapObject -> GifM unit) : GifM unit :=
  match ColorMap with
  | None => store None
  | Some m =>
      let! c := GifMakeMapObject m.(ColorCount) (Some m.(Colors)) in
      store c ;;!
      match c with None => err E_GIF_ERR_NOT_ENOUGH_MEM | Some _ => ret tt end
  end.

Definition flag (b : bool) (m : Z) : Z := if b then m else 0.
Definition is_Some {A} (o : option A) : bool := match o with Some _ => true | None => false end.

Definition screen_packed (ColorRes : Z) (ColorMap : option ColorMapObject) : Z :=
  u8 (Z.lor (Z.lor (Z.lor (flag (is_Some ColorMap) 0x80) (Z.shiftl (ColorRes - 1) 4))
               (match ColorMap with Some m => m.(cm_BitsPerPixel) - 1 | None => 0x07 end))
        (flag (match ColorMap with Some m => m.(SortFlag) | None => false end) 0x08)).

Definition EGifPutScreenDesc (Width Height ColorRes BackGround : Z) (ColorMap : option ColorMapObject) :
    GifM unit :=
  let! p := gets Priv in
  if test p.(FileState) FILE_STATE_SCREEN then err E_GIF_ERR_HAS_SCRN_DSCR
  else
    check_writeable ;;!
    let! write_version := EGifGetGifVersion in
    write_or_fail write_version ;;!
    modify (fun g => set_SBackGroundColor BackGround (set_SColorResolution ColorRes
                       (set_SHeight Height (set_SWidth Width g)))) ;;!
    copy_map ColorMap (fun m => modify (set_SColorMap m)) ;;!
    ignore (EGifPutWord Width) ;;!
    ignore (EGifPutWord Height) ;;!
    let! aspect := gets AspectByte in
    write_ [screen_packed ColorRes ColorMap; u8 BackGround; u8 aspect] ;;!
    (match ColorMap with Some m => put_colors m | None => ret tt end) ;;!
    modify (upd_priv (fun p => set_FileState (Z.lor p.(FileState) FILE_STATE_SCREEN) p)).

Definition image_packed (Interlace : bool) (ColorMap : option ColorMapObject) : Z :=
  u8 (Z.lor (Z.lor (flag (is_Some ColorMap) 0x80) (flag Interlace 0x40))
        (match ColorMap with Some m => m.(cm_BitsPerPixel) - 1 | None => 0 end)).

Definition EGifPutImageDesc (Left Top Width Height : Z) (Interlace : bool)
    (ColorMap : option ColorMapObject) : GifM unit :=
  let! p := gets Priv in
  if test p.(FileState) FILE_STATE_IMAGE && (PIXEL_LIMIT <? p.(PixelCount)) then err E_GIF_ERR_HAS_IMAG_DSCR
  else
    check_writeable ;;!
    modify (upd_Image (fun im => mkGifImageDesc Left Top Width Height Interlace im.(GifTypes.ColorMap))) ;;!
    copy_map ColorMap set_local_map ;;!
    write_ [DESCRIPTOR_INTRODUCER] ;;!
    ignore (EGifPutWord Left) ;;!
    ignore (EGifPutWord Top) ;;!
    ignore (EGifPutWord Width) ;;!
    ignore (EGifPutWord Height) ;;!
    write_ [image_packed Interlace ColorMap] ;;!
    (match ColorMap with Some m => put_colors m | None => ret tt end) ;;!
    let! g := gets (fun g => g) in
    (if negb (is_Some g.(SColorMap)) && negb (is_Some g.(Image).(GifTypes.ColorMap))
     then err E_GIF_ERR_NO_COLOR_MAP else ret tt) ;;!
    modify (upd_priv (fun p => set_PixelCount (u32 (Width * Height))
                                 (set_FileState (Z.lor p.(FileState) FILE_STATE_IMAGE) p))) ;;!
    ignore EGifSetupCompress.

(** ** Lines and pixels *)

(** [EGifPutLine] masks the caller's buffer in place; [write_back] stores the
    masked pixels there. *)
Definition EGifPutLine_at (write_back : list Z -> GifM unit) (Line : list Z) (LineLen : Z) : GifM unit :=
  check_writeable ;;!
  let! g := gets (fun g => g) in
  let LineLen := if LineLen =? 0 then g.(Image).(Width) else LineLen in
  if g.(Priv).(PixelCount) <? u32 LineLen then err E_GIF_ERR_DATA_TOO_BIG
  else
    modify (upd_priv (fun p => set_PixelCount (u32 (p.(PixelCount) - LineLen)) p)) ;;!
    let! Mask := of_option (aget CodeMask g.(Priv).(BitsPerPixel)) in
    if Z.of_nat (length Line) <? LineLen then stuck
    else
      let n := Z.to_nat LineLen in
      let Line := ((fun p => Z.land p Mask) <$> take n Line) ++ drop n Line in
      write_back Line ;;!
      EGifCompressLine Line LineLen.

Definition EGifPutLine (Line : list Z) (LineLen : Z) : GifM unit :=
  EGifPutLine_at (fun _ => ret tt) Line LineLen.

Definition EGifPutPixel (Pixel : Z) : GifM unit :=
  check_writeable ;;!
  let! p := gets Priv in
  if p.(PixelCount) =? 0 then err E_GIF_ERR_DATA_TOO_BIG
  else
    modify (upd_priv (fun p => set_PixelCount (u32 (p.(PixelCount) - 1)) p)) ;;!
    let! Mask := of_option (aget CodeMask p.(BitsPerPixel)) in
    EGifCompressLine [Z.land Pixel Mask] 1.

(** ** Extensions *)

Definition EGifPutExtensionLeader (ExtCode : Z) : GifM unit :=
  check_writeable ;;!
  write_ [EXTENSION_INTRODUCER; u8 ExtCode].

Definition EGifPutExtensionBlock (ExtLen : Z) (Extension : option (list Z)) : GifM unit :=
  check_writeable ;;!
  write_ [u8 ExtLen] ;;!
  write_from Extension ExtLen.

Definition EGifPutExtensionTrailer : GifM unit :=
  check_writeable ;;!
  write_ [0].

Definition EGifPutExtension (ExtCode ExtLen : Z) (Extension : option (list Z)) : GifM unit :=
  check_writeable ;;!
  (if ExtCode =? 0 then write_ [u8 ExtLen]
   else write_ [EXTENSION_INTRODUCER; u8 ExtCode; u8 ExtLen]) ;;!
  write_from Extension ExtLen ;;!
  write_ [0].

(** The loop over the full sub-blocks of a long comment. *)
Definition comment_block (buf : list Z) : GifM (list Z + list Z) :=
  if 255 <? Z.of_nat (length buf) then
    EGifPutExtensionBlock 255 (Some buf) ;;! ret (inl (drop 255 buf))
  else ret (inr buf).

(** [EGifPutComment] on the bytes of a C string. *)
Definition EGifPutComment (Comment : list Z) : GifM unit :=
  let length_ := Z.of_nat (length Comment) in
  if length_ <=? 255 then EGifPutExtension COMMENT_EXT_FUNC_CODE length_ (Some Comment)
  else
    EGifPutExtensionLeader COMMENT_EXT_FUNC_CODE ;;!
    let! buf := loop (S (length Comment)) comment_block Comment in
    (if 0 <? Z.of_nat (length buf) then
       EGifPutExtensionBlock (Z.of_nat (length buf)) (Some buf) else ret tt) ;;!
    EGifPutExtensionTrailer.

(** The four bytes [EGifGCBToExtension] writes. *)
Definition EGifGCBToExtension (GCB : GraphicsControlBlock) : list Z :=
  [Z.lor (Z.lor (flag (negb (GCB.(TransparentColor) =? NO_TRANSPARENT_COLOR)) 0x01)
            (flag GCB.(UserInputFlag) 0x02))
     (Z.shiftl (Z.land GCB.(DisposalMode) 0x07) 2);
   LOBYTE GCB.(DelayTime); HIBYTE GCB.(DelayTime); u8 GCB.(TransparentColor)].

(** The loop that replaces the first graphics control block among the first
    [n] blocks; [None]: there is none. *)
Fixpoint replace_gcb (bytes : list Z) (blocks : list ExtensionBlock) (n : nat) :
    GifM (option (list ExtensionBlock)) :=
  match n, blocks with
  | O, _ => ret None
  | S n, ep :: blocks =>
      if ep.(Function) =? GRAPHICS_EXT_FUNC_CODE then
        let! old := of_option ep.(Bytes) in
        let! new := of_option (blit old 0 bytes) in
        ret (Some (set_Bytes (Some new) ep :: blocks))
      else
        let! r := replace_gcb bytes blocks n in
        ret (option_map (cons ep) r)
  | S _, [] => stuck
  end.

Definition EGifGCBToSavedExtension (GCB : GraphicsControlBlock) (ImageIndex : Z) : GifM unit :=
  let! g := gets (fun g => g) in
  if (ImageIndex <? 0) || (g.(ImageCount) - 1 <? ImageIndex) then fail
  else
    let! images := of_option g.(SavedImages) in
    let! sp := of_option (aget images ImageIndex) in
    let n := Z.to_nat sp.(sp_ExtensionBlockCount) in
    let bytes := EGifGCBToExtension GCB in
    let! r := (match sp.(sp_ExtensionBlocks) with
               | Some blocks => replace_gcb bytes blocks n
               | None => if (n =? 0)%nat then ret None else stuck
               end) in
    match r with
    | Some blocks => upd_saved ImageIndex (fun sp => Some (set_sp_ExtensionBlocks (Some blocks) sp))
    | None =>
        let! ' (ok, cnt, blocks) :=
          GifAddExtensionBlock sp.(sp_ExtensionBlockCount) sp.(sp_ExtensionBlocks)
            GRAPHICS_EXT_FUNC_CODE 4 (Some bytes) in
        upd_saved ImageIndex (fun sp => Some (set_sp_ExtensionBlockCount cnt (set_sp_ExtensionBlocks blocks sp))) ;;!
        if ok : bool then ret tt else fail
    end.

(** ** Raw code blocks *)

(** [CodeBlock]: a block with its length in front, or the null pointer. *)
Definition EGifPutCodeNext (CodeBlock : option (list Z)) : GifM unit :=
  match CodeBlock with
  | Some b =>
      let! n := of_option (aget b 0) in
      if Z.of_nat (length b) <? n + 1 then stuck
      else write_or_fail (take (Z.to_nat (n + 1)) b)
  | None =>
      write_or_fail [0] ;;!
      modify (upd_priv (set_PixelCount 0))
  end.

Definition EGifPutCode (CodeSize : Z) (CodeBlock : option (list Z)) : GifM unit :=
  check_writeable ;;!
  EGifPutCodeNext CodeBlock.

(** ** Opening, closing and spewing *)

(** [EGifOpen]: the handle, or the code stored in [*Error]; [space] bytes can
    be written. *)
Definition EGifOpen (space : Z) (allocs : list bool) : GifM GifFileType :=
  fun _ =>
  let g0 := set_Space space (fresh_gif [] allocs) in
  let open :=
    (let! ok := malloc in
     if negb ok then err E_GIF_ERR_NOT_ENOUGH_MEM
     else
       let! ok := malloc in
       if negb ok then err E_GIF_ERR_NOT_ENOUGH_MEM
       else
         let! t := _InitHashTable in
         match t with
         | None => err E_GIF_ERR_NOT_ENOUGH_MEM
         | Some t =>
             modify (upd_priv (fun p => set_gif89 false (set_FileState FILE_STATE_WRITE (set_HashTable t p)))) ;;!
             modify (set_Error 0) ;;!
             gets (fun g => g)
         end) in
  open g0.

(** [EGifOpenFileHandle]: as [EGifOpen], except that a failure of the first
    allocation leaves [*Error] alone (here: 0). *)
Definition EGifOpenFileHandle (space : Z) (allocs : list bool) : GifM GifFileType :=
  fun s =>
  match EGifOpen space allocs s with
  | (Fails, g) => (Fails, if next_alloc allocs then g else set_Error 0 g)
  | r => r
  end.

(** [EGifOpenFileName]: [exists_] is whether the name is taken, [open_ok]
    whether [open] succeeds otherwise. *)
Definition EGifOpenFileName (exists_ open_ok TestExistence : bool) (space : Z) (allocs : list bool) :
    GifM GifFileType :=
  if negb open_ok || (TestExistence && exists_) then err E_GIF_ERR_OPEN_FAILED
  else EGifOpenFileHandle space allocs.

(** [EGifCloseFile]: the status and the code for [*ErrorCode].  [fclose_ok]:
    there is no [File], or it closes without an error. *)
Definition EGifCloseFile (fclose_ok : bool) : GifM (bool * Z) :=
  let! p := gets Priv in
  if negb (IS_WRITEABLE p) then ret (false, E_GIF_ERR_NOT_WRITEABLE)
  else
    write_ [TERMINATOR_INTRODUCER] ;;!
    set_local_map None ;;!
    modify (set_SColorMap None) ;;!
    if negb fclose_ok then ret (false, E_GIF_ERR_CLOSE_FAILED) else ret (true, 0).

(** One round of [EGifWriteExtensions]. *)
Definition write_extension (blocks : list ExtensionBlock) (count j : Z) : GifM unit :=
  let! ep := of_option (aget blocks j) in
  (if negb (ep.(Function) =? CONTINUE_EXT_FUNC_CODE) then EGifPutExtensionLeader ep.(Function) else ret tt) ;;!
  EGifPutExtensionBlock ep.(ByteCount) ep.(Bytes) ;;!
  let! last :=
    (if j =? count - 1 then ret true
     else
       let! next := of_option (aget blocks (j + 1)) in
       ret (negb (next.(Function) =? CONTINUE_EXT_FUNC_CODE))) in
  if last : bool then EGifPutExtensionTrailer else ret tt.

Definition EGifWriteExtensions (blocks : option (list ExtensionBlock)) (count : Z) : GifM unit :=
  match blocks with
  | None => ret tt
  | Some blocks => for_each (write_extension blocks count) (seqZ 0 count)
  end.

(** The line of image [i] that starts at raster index [off]. *)
Definition put_row (i off w : Z) : GifM unit :=
  let! images := gets SavedImages in
  let! images := of_option images in
  let! sp := of_option (aget images i) in
  let! r := of_option sp.(RasterBits) in
  EGifPutLine_at (store_pixels i off) (drop (Z.to_nat off) r) w.

Definition spew_image (i : Z) : GifM unit :=
  let! images := gets SavedImages in
  let! images := of_option images in
  let! sp := of_option (aget images i) in
  match sp.(RasterBits) with
  | None => ret tt
  | Some _ =>
      let im := sp.(ImageDesc) in
      EGifWriteExtensions sp.(sp_ExtensionBlocks) sp.(sp_ExtensionBlockCount) ;;!
      EGifPutImageDesc im.(Left) im.(Top) im.(Width) im.(Height) im.(Interlace) im.(ColorMap) ;;!
      for_each (fun j => put_row i (j * im.(Width)) im.(Width))
        (if im.(Interlace) then interlace_rows im.(Height) else seqZ 0 im.(Height))
  end.

Definition EGifSpew (fclose_ok : bool) : GifM unit :=
  let! g := gets (fun g => g) in
  EGifPutScreenDesc g.(SWidth) g.(SHeight) g.(SColorResolution) g.(SBackGroundColor) g.(SColorMap) ;;!
  for_each spew_image (seqZ 0 g.(ImageCount)) ;;!
  let! g := gets (fun g => g) in
  EGifWriteExtensions g.(ExtensionBlocks) g.(ExtensionBlockCount) ;;!
  let! ' (ok, _) := EGifCloseFile fclose_ok in
  if ok : bool then ret tt else fail.
