(* ===== verification/GifBlocks.v ===== *)
(** * Sub-blocks and bit strings of a GIF image

    The encoding between the codes and the file: codes of varying width are
    packed into bytes, least significant bits first, and the bytes are cut
    into blocks of at most 255 with their length in front, an empty block at
    the end.  A string of codes is compared with a string of bytes through the
    numbers both are the digits of. *)

From stdpp Require Import base numbers list.
From Stdlib Require Import Lia ZArith.
From S2P Require Import Prelude.

#[local] Open Scope Z_scope.

(** ** Numbers *)

Fixpoint bytes_val (bs : list Z) : Z :=
  match bs with
  | [] => 0
  | b :: bs => b + 256 * bytes_val bs
  end.

Fixpoint codes_val (cs : list (Z * Z)) : Z :=
  match cs with
  | [] => 0
  | (c, w) :: cs => c + 2 ^ w * codes_val cs
  end.

Fixpoint codes_bits (cs : list (Z * Z)) : Z :=
  match cs with
  | [] => 0
  | (_, w) :: cs => w + codes_bits cs
  end.

Definition code_fits (cw : Z * Z) : Prop := 0 <= cw.1 < 2 ^ cw.2 /\ 1 <= cw.2 <= 12.

Lemma bytes_val_app a b : bytes_val (a ++ b) = bytes_val a + 256 ^ Z.of_nat (length a) * bytes_val b.
Proof.
  induction a as [|x a IH]; cbn [bytes_val app length]; [lia|].
  rewrite IH, Nat2Z.inj_succ, Z.pow_succ_r by lia. lia.
Qed.

Lemma codes_bits_nonneg cs : Forall code_fits cs -> 0 <= codes_bits cs.
Proof. induction 1 as [|[c w] cs [_ Hw] _ IH]; cbn in *; lia. Qed.

Lemma codes_bits_app a b : codes_bits (a ++ b) = codes_bits a + codes_bits b.
Proof. induction a as [|[c w] a IH]; cbn [codes_bits app]; lia. Qed.

Lemma codes_val_app a b : Forall code_fits a ->
  codes_val (a ++ b) = codes_val a + 2 ^ codes_bits a * codes_val b.
Proof.
  induction 1 as [|[c w] a [_ Hw] Ha IH]; cbn [codes_val codes_bits app]; [lia|].
  pose proof (codes_bits_nonneg a Ha). cbn in Hw. rewrite IH, Z.pow_add_r by lia. lia.
Qed.

Lemma codes_val_nonneg cs : Forall code_fits cs -> 0 <= codes_val cs < 2 ^ codes_bits cs.
Proof.
  induction 1 as [|[c w] cs [Hc Hw] Ha IH]; cbn [codes_val codes_bits fst snd] in *; [lia|].
  pose proof (codes_bits_nonneg cs Ha). rewrite Z.pow_add_r by lia. nia.
Qed.

Lemma bytes_val_nonneg bs : Forall (fun b => 0 <= b < 256) bs ->
  0 <= bytes_val bs < 256 ^ Z.of_nat (length bs).
Proof.
  induction 1 as [|b bs Hb Ha IH]; cbn [bytes_val length]; [lia|].
  rewrite Nat2Z.inj_succ, Z.pow_succ_r by lia. lia.
Qed.

Lemma pow_256 n : 0 <= n -> 256 ^ n = 2 ^ (8 * n).
Proof. intros. rewrite Z.pow_mul_r by lia. done. Qed.

(** ** Blocks *)

Definition block (c : list Z) : list Z := Z.of_nat (length c) :: c.
Definition blocks (chunks : list (list Z)) : list Z := concat (block <$> chunks).
Definition chunk_ok (c : list Z) : Prop := 1 <= Z.of_nat (length c) <= 255 /\ Forall (fun b => 0 <= b < 256) c.

(** The bytes of a chain of blocks with the empty block at its end. *)
Definition framed (payload encoded : list Z) : Prop :=
  exists chunks, Forall chunk_ok chunks /\ payload = concat chunks /\ encoded = blocks chunks ++ [0].

Lemma blocks_snoc chunks c : blocks (chunks ++ [c]) = blocks chunks ++ block c.
Proof. unfold blocks. rewrite fmap_app, concat_app. cbn. by rewrite app_nil_r. Qed.

Lemma concat_snoc {A} (l : list (list A)) c : concat (l ++ [c]) = concat l ++ c.
Proof. rewrite concat_app. cbn. by rewrite app_nil_r. Qed.

Lemma framed_bytes payload encoded : framed payload encoded -> Forall (fun b => 0 <= b < 256) payload.
Proof.
  intros (chunks & Hok & -> & _). induction Hok as [|c l [_ Hc] _ IH]; [done|].
  cbn. by apply Forall_app.
Qed.
