(* ===== verification/Lzw.v ===== *)
(** * The LZW code stream of a GIF image

    The specification the compressor of egif_lib.c and the decompressor of
    dgif_lib.c share: the table of strings both build, the codes the
    compressor sends for a sequence of pixels, with their widths, and the
    pixels those codes stand for.  GifCompress.v shows that the compressor
    sends these codes, GifDecompress.v that the decompressor turns them back
    into the pixels. *)

From stdpp Require Import base numbers list.
From Stdlib Require Import Lia ZArith.
From S2P Require Import Prelude GifTypes.

#[local] Open Scope Z_scope.

(** An entry of the table: the code of a string and the pixel appended to it.
    Entry [i] defines the code [clear + 2 + i]. *)
Abbreviation entry := (Z * Z)%type.

(** The first code the compressor does not enter: when it has no other code for
    an entry, it sends the clear code and starts with an empty table.  A decoder
    follows any compressor whose limit it has room for. *)
Class CodeLimit := { code_limit : Z; code_limit_le : code_limit <= LZ_MAX_CODE + 1 }.

(** The compressor of giflib. *)
#[export] Instance giflib_limit : CodeLimit.
Proof. refine {| code_limit := LZ_MAX_CODE |}. unfold LZ_MAX_CODE. lia. Defined.

Section Lzw.
Context (clear : Z) `{limit : CodeLimit}.

Definition code_of (i : nat) : Z := clear + 2 + Z.of_nat i.

Definition find_entry (tbl : list entry) (e : entry) : option Z :=
  match list_find (fun e' => e' = e) tbl with
  | Some (i, _) => Some (code_of i)
  | None => None
  end.

(** The string a code stands for, given the strings of the table's entries. *)
Definition str_of (ss : list (list Z)) (c : Z) : list Z :=
  if c <? clear then [c] else ss !!! Z.to_nat (c - clear - 2).

Definition add_string (ss : list (list Z)) (e : entry) : list (list Z) :=
  ss ++ [str_of ss e.1 ++ [e.2]].

Definition strings (tbl : list entry) : list (list Z) := fold_left add_string tbl [].

Definition expand (tbl : list entry) (c : Z) : list Z := str_of (strings tbl) c.

(** Codes that have a string. *)
Definition valid (n : nat) (c : Z) : Prop :=
  0 <= c < clear \/ clear + 2 <= c < clear + 2 + Z.of_nat n.

Definition tbl_wf (tbl : list entry) : Prop :=
  forall i e, tbl !! i = Some e -> valid i e.1 /\ 0 <= e.2 < clear.

(** The width of the codes sent while the table has [j] entries: what the codes
    need, and [LZ_BITS] at most. *)
Definition width (j : nat) : Z := Z.min LZ_BITS (Z.log2 (clear + 1 + Z.of_nat j) + 1).

(** The codes sent for the pixels [ps] when [cur] is the code of the string read
    so far, to the end of the image. *)
Fixpoint enc (tbl : list entry) (cur : Z) (ps : list Z) : list (Z * Z) :=
  match ps with
  | [] => [(cur, width (length tbl))]
  | p :: ps =>
      match find_entry tbl (cur, p) with
      | Some c => enc tbl c ps
      | None =>
          (cur, width (length tbl)) ::
          (if code_limit <=? code_of (length tbl)
           then (clear, width (S (length tbl))) :: enc [] p ps
           else enc (tbl ++ [(cur, p)]) p ps)
      end
  end.

(** The code behind them, which ends the image. *)
Definition end_code (tbl : list entry) : Z * Z := (clear + 1, width (S (length tbl))).

(** The same while the image goes on: what is sent for the pixels, and the table
    and the code after them. *)
Fixpoint enc_line (tbl : list entry) (cur : Z) (ps : list Z) : list (Z * Z) * list entry * Z :=
  match ps with
  | [] => ([], tbl, cur)
  | p :: ps =>
      match find_entry tbl (cur, p) with
      | Some c => enc_line tbl c ps
      | None =>
          let '(pre, tbl') :=
            if code_limit <=? code_of (length tbl)
            then ([(cur, width (length tbl)); (clear, width (S (length tbl)))], [])
            else ([(cur, width (length tbl))], tbl ++ [(cur, p)]) in
          let '(cs, tbl'', cur') := enc_line tbl' p ps in
          (pre ++ cs, tbl'', cur')
      end
  end.

(** The next code and the pixels that are left when it is sent. *)
Fixpoint next_code (tbl : list entry) (cur : Z) (ps : list Z) : Z * list Z :=
  match ps with
  | [] => (cur, [])
  | p :: ps' =>
      match find_entry tbl (cur, p) with
      | Some c => next_code tbl c ps'
      | None => (cur, ps)
      end
  end.

Lemma enc_app l : forall tbl cur ps,
  enc tbl cur (l ++ ps) =
    (enc_line tbl cur l).1.1 ++ enc (enc_line tbl cur l).1.2 (enc_line tbl cur l).2 ps.
Proof.
  induction l as [|p l IH]; intros tbl cur ps; [done|]. cbn [app enc enc_line].
  destruct (find_entry tbl (cur, p)); [apply IH|].
  destruct (code_limit <=? code_of (length tbl)); rewrite IH;
    destruct (enc_line _ p l) as [[cs tbl'] cur']; done.
Qed.

Lemma enc_line_app l : forall tbl cur ps,
  enc_line tbl cur (l ++ ps) =
    let a := enc_line tbl cur l in
    let b := enc_line a.1.2 a.2 ps in
    (a.1.1 ++ b.1.1, b.1.2, b.2).
Proof.
  induction l as [|p l IH]; intros tbl cur ps; cbn [app enc_line].
  - cbn. by destruct (enc_line tbl cur ps) as [[? ?] ?].
  - destruct (find_entry tbl (cur, p)); [apply IH|].
    destruct (code_limit <=? code_of (length tbl)); rewrite IH;
      destruct (enc_line _ p l) as [[cs t] c]; cbn; by rewrite <- ?app_assoc.
Qed.

Lemma enc_next ps : forall tbl cur,
  enc tbl cur ps =
    let '(c, rest) := next_code tbl cur ps in
    (c, width (length tbl)) ::
      match rest with
      | [] => []
      | p :: ps' =>
          if code_limit <=? code_of (length tbl)
          then (clear, width (S (length tbl))) :: enc [] p ps'
          else enc (tbl ++ [(c, p)]) p ps'
      end.
Proof.
  induction ps as [|p ps IH]; intros tbl cur; [done|]. cbn [enc next_code].
  destruct (find_entry tbl (cur, p)); [apply IH|done].
Qed.

(** *** Strings *)

Lemma strings_snoc tbl e : strings (tbl ++ [e]) = add_string (strings tbl) e.
Proof. unfold strings. by rewrite fold_left_app. Qed.

Lemma length_strings tbl : length (strings tbl) = length tbl.
Proof.
  induction tbl as [|e tbl IH] using rev_ind; [done|].
  rewrite strings_snoc. unfold add_string. rewrite !length_app, IH. done.
Qed.

Lemma str_of_app ss ss' c : valid (length ss) c -> str_of (ss ++ ss') c = str_of ss c.
Proof.
  intros Hv. unfold str_of. destruct (Z.ltb_spec c clear); [done|].
  apply lookup_total_app_l. destruct Hv; lia.
Qed.

Lemma expand_snoc tbl e c : valid (length tbl) c -> expand (tbl ++ [e]) c = expand tbl c.
Proof.
  intros Hv. unfold expand. rewrite strings_snoc. apply str_of_app. by rewrite length_strings.
Qed.

Lemma expand_new tbl e : expand (tbl ++ [e]) (code_of (length tbl)) = expand tbl e.1 ++ [e.2].
Proof.
  unfold expand, code_of. rewrite strings_snoc. unfold add_string, str_of at 1.
  destruct (Z.ltb_spec (clear + 2 + Z.of_nat (length tbl)) clear); [lia|].
  rewrite lookup_total_app_r by (rewrite length_strings; lia).
  rewrite length_strings. by replace (_ - _)%nat with 0%nat by lia.
Qed.

Lemma tbl_wf_snoc tbl e :
  tbl_wf tbl -> valid (length tbl) e.1 -> 0 <= e.2 < clear -> tbl_wf (tbl ++ [e]).
Proof.
  intros Hwf Hv Hp i e' [Hl|[Hi Hl]]%lookup_app_Some; [by apply Hwf|].
  apply list_lookup_singleton_Some in Hl as [Hi' <-].
  replace i with (length tbl) by lia. done.
Qed.

Lemma tbl_wf_prefix tbl l : tbl_wf (tbl ++ l) -> tbl_wf tbl.
Proof. intros Hwf i e Hl. apply Hwf. by apply lookup_app_l_Some. Qed.

Lemma valid_mono n m c : valid n c -> (n <= m)%nat -> valid m c.
Proof. intros [] ?; [by left|right; lia]. Qed.

Lemma expand_entry tbl i e :
  tbl_wf tbl -> tbl !! i = Some e -> expand tbl (code_of i) = expand tbl e.1 ++ [e.2].
Proof.
  induction tbl as [|e' tbl IH] using rev_ind; [done|]. intros Hwf Hl.
  pose proof (tbl_wf_prefix _ _ Hwf) as Hwf'.
  destruct (Hwf i e Hl) as [Hv _]. pose proof (lookup_lt_Some _ _ _ Hl) as Hlt.
  rewrite length_app in Hlt. cbn [length] in Hlt.
  apply lookup_app_Some in Hl as [Hl|[Hi Hl]].
  - pose proof (lookup_lt_Some _ _ _ Hl). rewrite !expand_snoc.
    + by apply IH.
    + apply (valid_mono i); [done|lia].
    + right. unfold code_of. lia.
  - apply list_lookup_singleton_Some in Hl as [Hi' <-].
    replace i with (length tbl) in * by lia. rewrite expand_new, expand_snoc; done.
Qed.

Lemma expand_pixel tbl c : c < clear -> expand tbl c = [c].
Proof. intros Hc. unfold expand, str_of. by destruct (Z.ltb_spec c clear); [|lia]. Qed.

Lemma valid_cases n c : 0 <= clear -> valid n c -> c < clear \/ exists i, (i < n)%nat /\ c = code_of i.
Proof.
  intros Hc [|Hv]; [left; lia|right]. exists (Z.to_nat (c - clear - 2)). unfold code_of. lia.
Qed.

(** Strings are not empty, and at most as long as their code allows. *)
Lemma expand_length tbl c : 0 <= clear ->
  tbl_wf tbl -> valid (length tbl) c -> 1 <= Z.of_nat (length (expand tbl c)) <= Z.max 1 (c - clear).
Proof.
  intros Hclear. revert c. induction tbl as [|e tbl IH] using rev_ind; intros c Hwf Hv.
  - destruct Hv as [Hv|Hv]; [|cbn in Hv; lia]. rewrite expand_pixel by lia. cbn. lia.
  - pose proof (tbl_wf_prefix _ _ Hwf) as Hwf'.
    destruct (Hwf (length tbl) e) as [Hve Hp]; [by apply list_lookup_middle|].
    destruct (valid_cases _ _ Hclear Hv) as [Hc|(i & Hi & ->)].
    + rewrite expand_pixel by done. cbn. lia.
    + rewrite length_app in Hi. cbn [length] in Hi. destruct (decide (i = length tbl)) as [->|].
      * rewrite expand_new, length_app. cbn [length]. specialize (IH e.1 Hwf' Hve).
        unfold code_of. destruct Hve; lia.
      * assert (valid (length tbl) (code_of i)) by (right; unfold code_of; lia).
        rewrite expand_snoc by done. by apply IH.
Qed.

Lemma expand_nonempty tbl c : 0 <= clear -> tbl_wf tbl -> valid (length tbl) c -> expand tbl c <> [].
Proof. intros H1 H2 H3 E. pose proof (expand_length tbl c H1 H2 H3). rewrite E in *. cbn in *. lia. Qed.

Lemma expand_pixels tbl c : 0 <= clear -> tbl_wf tbl -> valid (length tbl) c ->
  Forall (fun p => 0 <= p < clear) (expand tbl c).
Proof.
  intros Hclear. revert c. induction tbl as [|e tbl IH] using rev_ind; intros c Hwf Hv.
  - destruct Hv as [Hv|Hv]; [|cbn in Hv; lia]. rewrite expand_pixel by lia. by constructor; [|constructor].
  - pose proof (tbl_wf_prefix _ _ Hwf) as Hwf'.
    destruct (Hwf (length tbl) e) as [Hve Hp]; [by apply list_lookup_middle|].
    destruct Hv as [Hv|Hv]; [rewrite expand_pixel by lia; by constructor; [|constructor]|].
    destruct (decide (c = code_of (length tbl))) as [->|Hne].
    + rewrite expand_new. apply Forall_app. split; [by apply IH|by constructor; [|constructor]].
    + assert (valid (length tbl) c).
      { right. unfold code_of in Hne. rewrite length_app in Hv. cbn [length] in Hv. lia. }
      rewrite expand_snoc by done. by apply IH.
Qed.

(** *** Matching *)

Lemma find_entry_Some tbl e c :
  find_entry tbl e = Some c -> exists i, tbl !! i = Some e /\ c = code_of i.
Proof.
  unfold find_entry. destruct (list_find _ tbl) as [[i e']|] eqn:E; [|done].
  intros [= <-]. apply list_find_Some in E as (Hl & -> & _). eauto.
Qed.

Lemma find_entry_None tbl e : find_entry tbl e = None -> e ∉ tbl.
Proof.
  unfold find_entry. destruct (list_find _ tbl) as [[i e']|] eqn:E; [done|].
  intros _ Hin. apply list_find_None in E. rewrite Forall_forall in E. by apply (E e).
Qed.

Lemma find_entry_valid tbl e c : find_entry tbl e = Some c -> valid (length tbl) c.
Proof.
  intros (i & Hl & ->)%find_entry_Some. apply lookup_lt_Some in Hl. right. unfold code_of. lia.
Qed.

Lemma find_entry_snoc tbl e e' :
  find_entry (tbl ++ [e]) e' =
    match find_entry tbl e' with
    | Some c => Some c
    | None => if decide (e = e') then Some (code_of (length tbl)) else None
    end.
Proof.
  unfold find_entry. destruct (list_find (fun e0 => e0 = e') tbl) as [[i x]|] eqn:E1.
  - by rewrite (list_find_app_l _ _ _ _ _ E1).
  - rewrite (list_find_app_r _ _ _ E1). cbn. destruct (decide (e = e')); cbn; [|done].
    done.
Qed.

(** The next code stands for the current string and the pixels it takes. *)
Lemma next_code_spec ps : forall tbl cur c rest,
  0 <= clear -> tbl_wf tbl -> valid (length tbl) cur -> next_code tbl cur ps = (c, rest) ->
  valid (length tbl) c /\ expand tbl cur ++ ps = expand tbl c ++ rest /\
  hd_error (expand tbl c) = hd_error (expand tbl cur) /\
  match rest with [] => True | p :: _ => find_entry tbl (c, p) = None end.
Proof.
  induction ps as [|p ps IH]; intros tbl cur c rest Hclear Hwf Hv Hn; cbn [next_code] in Hn.
  - injection Hn as <- <-. done.
  - destruct (find_entry tbl (cur, p)) as [c1|] eqn:Ef; [|by injection Hn as <- <-].
    destruct (find_entry_Some _ _ _ Ef) as (i & Hl & Hc1).
    pose proof (find_entry_valid _ _ _ Ef) as Hv1.
    destruct (IH tbl c1 c rest Hclear Hwf Hv1 Hn) as (Hvc & He & Hh & Hf).
    pose proof (expand_entry tbl i (cur, p) Hwf Hl) as Hx. rewrite <- Hc1 in Hx. cbn in Hx.
    split; [done|]. split; [by rewrite <- He, Hx, <- app_assoc|]. split; [|done].
    rewrite Hh, Hx. pose proof (expand_nonempty tbl cur Hclear Hwf Hv). by destruct (expand tbl cur).
Qed.

(** *** Widths *)

Lemma width_range j : 1 <= width j <= LZ_BITS.
Proof. unfold width, LZ_BITS. pose proof (Z.log2_nonneg (clear + 1 + Z.of_nat j)). lia. Qed.

Lemma width_spec j : 4 <= clear -> clear + 1 + Z.of_nat j < 4096 ->
  clear + 1 + Z.of_nat j < 2 ^ width j /\ 2 ^ (width j - 1) <= clear + 1 + Z.of_nat j.
Proof.
  intros Hc Hj. assert (Z.log2 (clear + 1 + Z.of_nat j) < 12) by (apply Z.log2_lt_pow2; [lia|exact Hj]).
  unfold width, LZ_BITS. rewrite Z.min_r by lia. replace (_ + 1 - 1) with (Z.log2 (clear + 1 + Z.of_nat j)) by lia.
  destruct (Z.log2_spec (clear + 1 + Z.of_nat j) ltac:(lia)) as [? Hs].
  rewrite <- Z.add_1_r in Hs. done.
Qed.

Lemma width_0 b : 2 <= b <= 8 -> clear = 2 ^ b -> width 0 = b + 1.
Proof.
  intros Hb ->. unfold width, LZ_BITS. replace (2 ^ b + 1 + Z.of_nat 0) with (2 ^ b + 1) by lia.
  assert (2 ^ 2 <= 2 ^ b) by (apply Z.pow_le_mono_r; lia).
  rewrite (Z.log2_unique _ b); [lia|lia|]. rewrite Z.pow_succ_r by lia. lia.
Qed.

(** One more entry widens the codes exactly when it fills the current width. *)
Lemma width_succ j : 4 <= clear -> clear + 1 + Z.of_nat j < 4096 ->
  width (S j) = if (2 ^ width j <=? clear + 2 + Z.of_nat j) && (width j <? LZ_BITS) then width j + 1 else width j.
Proof.
  intros Hc Hj. destruct (width_spec j Hc Hj) as [Hlt Hge].
  assert (0 <= Z.log2 (clear + 1 + Z.of_nat j) < 12) as Hlog.
  { split; [apply Z.log2_nonneg|]. apply Z.log2_lt_pow2; [lia|exact Hj]. }
  assert (width j = Z.log2 (clear + 1 + Z.of_nat j) + 1) as Hw by (unfold width, LZ_BITS; lia).
  unfold width at 1. replace (clear + 1 + Z.of_nat (S j)) with (clear + 2 + Z.of_nat j) by lia.
  destruct (Z.leb_spec (2 ^ width j) (clear + 2 + Z.of_nat j)) as [Hle|Hgt]; cbn [andb].
  - rewrite (Z.log2_unique _ (width j)); [|lia|rewrite Z.pow_succ_r by lia; lia].
    unfold LZ_BITS in *. destruct (Z.ltb_spec (width j) 12); lia.
  - rewrite (Z.log2_unique _ (width j - 1)); [unfold LZ_BITS; lia|lia|].
    replace (Z.succ (width j - 1)) with (width j) by lia. lia.
Qed.

(** *** The number of codes *)

Lemma enc_line_length ps : forall tbl cur,
  Z.of_nat (length (enc_line tbl cur ps).1.1) <= 2 * Z.of_nat (length ps).
Proof.
  induction ps as [|p ps IH]; intros tbl cur; cbn [enc_line length]; [cbn; lia|].
  destruct (find_entry tbl (cur, p)) as [c|]; [specialize (IH tbl c); lia|].
  destruct (code_limit <=? code_of (length tbl)).
  - specialize (IH [] p). destruct (enc_line [] p ps) as [[cs t] c]. cbn in *. lia.
  - specialize (IH (tbl ++ [(cur, p)]) p). destruct (enc_line _ p ps) as [[cs t] c]. cbn in *. lia.
Qed.

(** The codes of an image: the clear code and the pixels; and with its end. *)
Definition pixel_codes (ps : list Z) : list (Z * Z) :=
  match ps with
  | [] => []
  | p :: ps => (clear, width 0) :: enc [] p ps
  end.

Definition image_codes (ps : list Z) : list (Z * Z) :=
  match ps with
  | [] => []
  | p :: ps => (clear, width 0) :: enc [] p ps ++ [end_code (enc_line [] p ps).1.2]
  end.

End Lzw.
