(* ===== verification/GifCompress.v ===== *)
(** * giflib: the compressor sends the codes of Lzw.v

    The state of the encoder related to the specification of Lzw.v: the bytes
    written and buffered are those of the codes sent so far, and the hash
    table holds the table of strings.  [EGifPutLine] extends the codes by
    those of its pixels and never fails while the output has room. *)

From stdpp Require Import base numbers list list_numbers gmap.
From Stdlib Require Import Lia ZArith.
From S2P Require Import Prelude GifTypes GifHash GifAlloc GifDecode GifSafety GifEncode GifBlocks Lzw.

#[local] Open Scope Z_scope.

(** ** The block buffer *)

(** Everything but the output, the block buffer and the bit buffer. *)
Definition io (out : list Z) (space : Z) (buf : list Z) (st dw : Z) (g : GifFileType) : GifFileType :=
  set_Space space (set_Out out
    (upd_priv (fun p => set_CrntShiftState st (set_CrntShiftDWord dw (set_Buf buf p))) g)).

(** [payload] has been written behind [base], its last [q] bytes still being
    in the block buffer. *)
Definition buffered (base payload : list Z) (g : GifFileType) : Prop :=
  exists chunks q junk,
    Forall chunk_ok chunks /\ payload = concat chunks ++ q /\ Forall byte q /\
    g.(Out) = base ++ blocks chunks /\
    g.(Priv).(Buf) = Z.of_nat (length q) :: q ++ junk /\ length g.(Priv).(Buf) = 256%nat.

(** Four times the room that is left once the buffers are written. *)
Definition room (g : GifFileType) : Z :=
  4 * g.(Space) - 8 * buf0 g - g.(Priv).(CrntShiftState).

Definition nofail {S} (_ : S) : Prop := False.

Lemma wp_InternalWrite bs (Q : Z -> GifFileType -> Prop) E g :
  Z.of_nat (length bs) <= g.(Space) ->
  Q (Z.of_nat (length bs)) (set_Space (g.(Space) - Z.of_nat (length bs)) (set_Out (g.(Out) ++ bs) g)) ->
  wp (InternalWrite bs) Q E g.
Proof.
  intros Hs HQ. unfold wp, InternalWrite.
  rewrite Z.max_r, Z.min_l, Nat2Z.id, firstn_all by lia. exact HQ.
Qed.

Lemma wp_write_or_fail bs (Q : unit -> GifFileType -> Prop) E g :
  Z.of_nat (length bs) <= g.(Space) ->
  Q tt (set_Space (g.(Space) - Z.of_nat (length bs)) (set_Out (g.(Out) ++ bs) g)) ->
  wp (write_or_fail bs) Q E g.
Proof.
  intros Hs HQ. unfold write_or_fail. apply wp_bind, wp_InternalWrite; [done|].
  rewrite Z.eqb_refl. by apply wp_ret.
Qed.

Lemma wp_write_ bs (Q : unit -> GifFileType -> Prop) E g :
  Z.of_nat (length bs) <= g.(Space) ->
  Q tt (set_Space (g.(Space) - Z.of_nat (length bs)) (set_Out (g.(Out) ++ bs) g)) ->
  wp (write_ bs) Q E g.
Proof. intros Hs HQ. unfold write_. apply wp_bind, wp_InternalWrite; [done|]. by apply wp_ret. Qed.

Lemma wp_put_Buf i v (Q : unit -> GifFileType -> Prop) E g buf :
  aset g.(Priv).(Buf) i v = Some buf -> Q tt (upd_priv (set_Buf buf) g) -> wp (set_Buf_at i v) Q E g.
Proof.
  intros Ha HQ. unfold set_Buf_at. do 2 wp_step. apply wp_bind, wp_of_option with (1 := Ha).
  by apply wp_modify.
Qed.

Lemma put_io out space buf buf' st dw g :
  upd_priv (set_Buf buf') (io out space buf st dw g) = io out space buf' st dw g.
Proof. done. Qed.

Lemma io_id g : io g.(Out) g.(Space) g.(Priv).(Buf) g.(Priv).(CrntShiftState) g.(Priv).(CrntShiftDWord) g = g.
Proof. by destruct g as [? ? ? ? ? ? ? ? ? ? ? ? [] ? ? ? ?]. Qed.

(** The buffer with its parts in sight. *)
Definition parts (base : list Z) (chunks : list (list Z)) (q junk : list Z) (g : GifFileType) : Prop :=
  Forall chunk_ok chunks /\ Forall byte q /\ g.(Out) = base ++ blocks chunks /\
  g.(Priv).(Buf) = Z.of_nat (length q) :: q ++ junk /\ (length q + length junk = 255)%nat.

Lemma buffered_parts base payload g :
  buffered base payload g <-> exists chunks q junk, payload = concat chunks ++ q /\ parts base chunks q junk g.
Proof.
  split; intros (chunks & q & junk & H); exists chunks, q, junk.
  - destruct H as (? & ? & ? & ? & Hb & Hl). rewrite Hb in Hl. cbn [length] in Hl.
    rewrite length_app in Hl. do 5 (split; [done|]). lia.
  - destruct H as (? & ? & ? & ? & Hb & Hl). do 5 (split; [done|]). rewrite Hb. cbn [length].
    rewrite length_app. lia.
Qed.

Lemma parts_buf0 base chunks q junk g : parts base chunks q junk g -> buf0 g = Z.of_nat (length q).
Proof. intros (_ & _ & _ & Hb & _). unfold buf0. by rewrite Hb. Qed.

(** The bit buffer and everything outside the buffers stay. *)
Definition io_only (g g' : GifFileType) : Prop :=
  exists out space buf, g' = io out space buf g.(Priv).(CrntShiftState) g.(Priv).(CrntShiftDWord) g.

#[export] Instance io_only_preorder : PreOrder io_only.
Proof.
  split.
  - intros g. do 3 eexists. symmetry. apply io_id.
  - intros g1 g2 g3 (o & s & b & ->) (o' & s' & b' & ->). by do 3 eexists.
Qed.

Lemma io_only_set_Buf buf g : io_only g (upd_priv (set_Buf buf) g).
Proof. by do 3 eexists. Qed.

(** A full buffer is written. *)
Lemma wp_write_buffer base chunks q junk g (Q : unit -> GifFileType -> Prop) E :
  parts base chunks q junk g -> q <> [] -> Z.of_nat (length q) + 1 <= g.(Space) ->
  (forall g', parts base (chunks ++ [q]) [] (q ++ junk) g' -> io_only g g' ->
     g'.(Space) = g.(Space) - Z.of_nat (length q) - 1 -> Q tt g') ->
  wp (write_or_fail (take (Z.to_nat (Z.of_nat (length q) + 1)) g.(Priv).(Buf)) ;;! set_Buf_at 0 0)%c Q E g.
Proof.
  intros (Hch & Hq & Hout & Hbuf & Hlen) Hne Hs HQ.
  assert (take (Z.to_nat (Z.of_nat (length q) + 1)) g.(Priv).(Buf) = block q) as ->.
  { rewrite Hbuf. replace (Z.to_nat (Z.of_nat (length q) + 1)) with (S (length q)) by lia.
    cbn [take]. by rewrite take_app_length. }
  apply wp_bind, wp_write_or_fail; [unfold block; cbn [length]; lia|].
  eapply wp_put_Buf; [cbn; by rewrite Hbuf|]. apply HQ; [|by do 3 eexists|cbn; lia].
  split; [|split; [done|split; [|split]]].
  - apply Forall_app. split; [done|]. constructor; [|done]. split; [|done]. destruct q; [done|]. cbn in *. lia.
  - cbn. by rewrite Hout, blocks_snoc, <- app_assoc.
  - done.
  - cbn. rewrite length_app. lia.
Qed.

Lemma room_parts base chunks q junk g :
  parts base chunks q junk g ->
  room g = 4 * g.(Space) - 8 * Z.of_nat (length q) - g.(Priv).(CrntShiftState).
Proof. intros Hp. unfold room. by rewrite (parts_buf0 _ _ _ _ _ Hp). Qed.

Lemma wp_append_byte base chunks q junk c g (Q : unit -> GifFileType -> Prop) E :
  parts base chunks q junk g -> byte c -> Z.of_nat (length q) < 255 ->
  (forall junk' g', parts base chunks (q ++ [c]) junk' g' -> io_only g g' -> g'.(Space) = g.(Space) -> Q tt g') ->
  wp (let! p := gets Priv in
      let! n := of_option (aget p.(Buf) 0) in
      set_Buf_at 0 (u8 (n + 1)) ;;! set_Buf_at (u8 (n + 1)) (u8 c))%c Q E g.
Proof.
  intros (Hch & Hq & Hout & Hbuf & Hlen) Hc Hlt HQ.
  do 2 wp_step. apply wp_bind, wp_of_option with (a := Z.of_nat (length q)); [by rewrite Hbuf|].
  destruct junk as [|j junk]; [cbn in Hlen; lia|]. cbn [length] in Hlen.
  rewrite u8_small by lia. apply wp_bind. eapply wp_put_Buf; [by rewrite Hbuf|].
  eapply wp_put_Buf.
  { cbn [Priv upd_priv set_Priv Buf set_Buf]. rewrite u8_small by exact Hc.
    change (<[Z.to_nat 0 := ?x]> (?y :: ?l)) with (x :: l).
    pose proof (aset_behind (Z.of_nat (length q) + 1 :: q) junk j c _ eq_refl) as Ha.
    replace (Z.of_nat (length (Z.of_nat (length q) + 1 :: q))) with (Z.of_nat (length q) + 1) in Ha
      by (cbn [length]; lia). exact Ha. }
  apply (HQ junk); [|etrans; apply io_only_set_Buf|done].
  split; [done|]. split; [apply Forall_app; split; [done|]; by constructor|]. split; [exact Hout|]. cbn.
  rewrite <- app_assoc, length_app. cbn. split; [f_equal; lia|]. lia.
Qed.

Lemma wp_BufferedOutput c base payload g E :
  byte c -> buffered base payload g -> 0 <= g.(Priv).(CrntShiftState) -> 0 <= room g ->
  wp (EGifBufferedOutput c)
    (fun _ g' => io_only g g' /\ buffered base (payload ++ [c]) g' /\ room g - 8 <= room g') E g.
Proof.
  intros Hc (chunks & q & junk & -> & Hp)%buffered_parts Hst Hroom.
  pose proof (room_parts _ _ _ _ _ Hp) as Hr. pose proof Hp as (_ & _ & _ & Hbuf & Hlen).
  unfold EGifBufferedOutput. do 2 wp_step.
  apply wp_bind, wp_of_option with (a := Z.of_nat (length q)); [by rewrite Hbuf|].
  destruct (Z.eqb_spec c FLUSH_OUTPUT) as [->|_]; [unfold byte, FLUSH_OUTPUT in Hc; lia|].
  apply wp_bind. destruct (Z.eqb_spec (Z.of_nat (length q)) 255) as [Hfull|Hn].
  - eapply wp_write_buffer; [exact Hp|by destruct q|lia|]. intros g1 Hp1 Hio1 Hs1.
    eapply wp_append_byte; [exact Hp1|done|cbn; lia|]. intros junk' g2 Hp2 Hio2 Hs2.
    pose proof (room_parts _ _ _ _ _ Hp2) as Hr2. split; [by etrans|]. split.
    + apply buffered_parts. do 3 eexists. split; [|exact Hp2]. by rewrite concat_snoc.
    + destruct Hio1 as (? & ? & ? & ->), Hio2 as (? & ? & ? & ->). cbn in *. lia.
  - apply wp_ret. eapply wp_append_byte; [exact Hp|done|lia|]. intros junk' g2 Hp2 Hio2 Hs2.
    pose proof (room_parts _ _ _ _ _ Hp2) as Hr2. split; [done|]. split.
    + apply buffered_parts. do 3 eexists. split; [|exact Hp2]. by rewrite <- app_assoc.
    + rewrite Hr2, Hr, length_app. destruct Hio2 as (? & ? & ? & ->). cbn in *. lia.
Qed.

(** ** The bit buffer *)

(** The codes [cs] have been sent behind [base]: they are the bits of the
    bytes written and buffered, followed by those of [CrntShiftDWord]. *)
Definition sent (base : list Z) (cs : list (Z * Z)) (g : GifFileType) : Prop :=
  Forall code_fits cs /\
  exists payload, buffered base payload g /\
    0 <= g.(Priv).(CrntShiftState) /\
    0 <= g.(Priv).(CrntShiftDWord) < 2 ^ g.(Priv).(CrntShiftState) /\
    8 * Z.of_nat (length payload) + g.(Priv).(CrntShiftState) = codes_bits cs /\
    bytes_val payload + 256 ^ Z.of_nat (length payload) * g.(Priv).(CrntShiftDWord) = codes_val cs.

(** Only the output and the buffers differ. *)
Definition io_like (g g' : GifFileType) : Prop := io [] 0 [] 0 0 g = io [] 0 [] 0 0 g'.

#[export] Instance io_like_equiv : Equivalence io_like.
Proof. unfold io_like. split; [by intros x|by intros x y|]. intros x y z -> ->. done. Qed.

Lemma io_only_like g g' : io_only g g' -> io_like g g'.
Proof. by intros (o & s & b & ->). Qed.

Lemma io_like_shift st dw g :
  io_like g (upd_priv (fun p => set_CrntShiftState st (set_CrntShiftDWord dw p)) g).
Proof. done. Qed.

(** An update of the private fields outside the buffers. *)
Definition no_buffers (p : GifFilePrivateType) : GifFilePrivateType :=
  set_CrntShiftState 0 (set_CrntShiftDWord 0 (set_Buf [] p)).

Lemma io_like_upd f g g' :
  io_like g g' -> (forall p, no_buffers (f p) = f (no_buffers p)) ->
  io_like (upd_priv f g) (upd_priv f g').
Proof.
  intros H Hf. unfold io_like.
  assert (forall g, io [] 0 [] 0 0 (upd_priv f g) = upd_priv f (io [] 0 [] 0 0 g)) as Hc.
  { intros g0. unfold io, upd_priv, set_Priv, set_Space, set_Out. cbn. f_equal. apply Hf. }
  by rewrite !Hc, H.
Qed.

(** A field outside the buffers. *)
Lemma io_like_priv {A} (f : GifFilePrivateType -> A) g g' :
  io_like g g' ->
  (forall p, f (no_buffers p) = f p) ->
  f g'.(Priv) = f g.(Priv).
Proof.
  intros H Hf. unfold io_like in H. apply (f_equal (fun g => f g.(Priv))) in H.
  change (f (no_buffers g.(Priv)) = f (no_buffers g'.(Priv))) in H. by rewrite !Hf in H.
Qed.

Lemma buffered_shift base payload st dw g :
  buffered base payload g ->
  buffered base payload (upd_priv (fun p => set_CrntShiftState st (set_CrntShiftDWord dw p)) g).
Proof. done. Qed.

Lemma land_255 z : Z.land z 255 = z mod 256.
Proof. change 255 with (Z.ones 8). by rewrite Z.land_ones. Qed.

Lemma shiftr_8 z : Z.shiftr z 8 = z / 256.
Proof. by rewrite Z.shiftr_div_pow2. Qed.

Lemma wp_emit_byte base cs g E :
  sent base cs g -> 8 <= g.(Priv).(CrntShiftState) -> 0 <= room g ->
  wp emit_byte (fun ok g' => ok = true /\ sent base cs g' /\ io_like g g' /\
       g'.(Priv).(CrntShiftState) = g.(Priv).(CrntShiftState) - 8 /\ room g <= room g') E g.
Proof.
  intros (Hfit & payload & Hbuf & Hst0 & Hdw & Hlen & Hval) Hst Hroom.
  unfold emit_byte. do 2 wp_step. rewrite land_255. apply wp_bind, wp_attempt.
  set (d := CrntShiftDWord (Priv g)) in *. set (st := CrntShiftState (Priv g)) in *.
  assert (byte (d mod 256)) as Hb by (apply Z.mod_pos_bound; lia).
  eapply wp_mono; [by apply wp_BufferedOutput| |done].
  intros _ g1 (Hio & Hbuf1 & Hr1). apply wp_bind, wp_modify, wp_ret.
  assert (CrntShiftState (Priv g1) = st /\ CrntShiftDWord (Priv g1) = d) as [Es Ed]
    by (destruct Hio as (? & ? & ? & ->); done).
  set (g2 := upd_priv _ g1).
  assert (g2 = upd_priv (fun p => set_CrntShiftState (st - 8) (set_CrntShiftDWord (d / 256) p)) g1) as Hg2.
  { unfold g2, upd_priv. by rewrite Es, Ed, shiftr_8. }
  clearbody g2. subst g2. split; [done|]. split; [|split; [|split; [done|]]].
  - split; [done|]. exists (payload ++ [d mod 256]). split; [by apply buffered_shift|].
    cbn [Priv upd_priv set_Priv CrntShiftState CrntShiftDWord set_CrntShiftState set_CrntShiftDWord].
    pose proof (Z.div_mod d 256 ltac:(lia)).
    split; [lia|]. split.
    { split; [apply Z.div_pos; lia|]. apply Z.div_lt_upper_bound; [lia|].
      change 256 with (2 ^ 8). rewrite <- Z.pow_add_r by lia. replace (8 + (st - 8)) with st by lia. lia. }
    rewrite length_app. cbn [length]. split; [lia|].
    rewrite bytes_val_app. cbn [bytes_val].
    replace (Z.of_nat (length payload + 1)) with (Z.of_nat (length payload) + 1) by lia.
    rewrite Z.pow_add_r by lia. rewrite <- Hval. set (P := 256 ^ Z.of_nat (length payload)).
    change (256 ^ 1) with 256.
    assert (P * d = P * (256 * (d / 256) + d mod 256)) as -> by (f_equal; lia). lia.
  - etrans; [by apply io_only_like|apply io_like_shift].
  - unfold room, buf0 in *. cbn. rewrite Es in Hr1. lia.
Qed.

Lemma wp_emit_bytes base cs r g E :
  sent base cs g -> g.(Priv).(CrntShiftState) < 56 -> 0 <= room g ->
  wp (emit_bytes 8 r) (fun r' g' => r' = r /\ sent base cs g' /\ io_like g g' /\
       g'.(Priv).(CrntShiftState) < 8 /\ room g <= room g') E g.
Proof.
  intros Hs Hst Hroom. unfold emit_bytes.
  apply (wp_loop (fun n r' g' => r' = r /\ sent base cs g' /\ io_like g g' /\ room g <= room g' /\
           Z.of_nat n = Z.max 0 (g'.(Priv).(CrntShiftState) / 8)))
    with (n := Z.to_nat (g.(Priv).(CrntShiftState) / 8)).
  - intros n r' g1 (-> & Hs1 & Hio1 & Hr1 & Hn). do 2 wp_step.
    destruct (Z.leb_spec 8 (CrntShiftState (Priv g1))) as [Hle|Hgt].
    + apply wp_bind. eapply wp_mono; [apply wp_emit_byte; [done|done|lia]| |done].
      intros ok g2 (-> & Hs2 & Hio2 & Hst2 & Hr2). apply wp_ret.
      assert (CrntShiftState (Priv g1) / 8 = CrntShiftState (Priv g2) / 8 + 1) as Hdiv.
      { rewrite Hst2. rewrite <- Z.div_add by lia. f_equal. lia. }
      pose proof Hs2 as (_ & ? & _ & H0 & _). pose proof (Z.div_pos (CrntShiftState (Priv g2)) 8 H0 ltac:(lia)).
      exists (Z.to_nat (CrntShiftState (Priv g2) / 8)). split; [lia|].
      rewrite andb_true_r. split; [done|]. split; [done|]. split; [by etrans|]. split; [lia|lia].
    + apply wp_ret. split; [done|]. split; [done|]. split; [done|]. split; [done|lia].
  - pose proof Hs as (_ & ? & _ & H0 & _). pose proof (Z.div_pos (CrntShiftState (Priv g)) 8 H0 ltac:(lia)).
    split; [done|]. split; [done|]. split; [done|]. split; [lia|lia].
  - assert (CrntShiftState (Priv g) / 8 < 7) by (apply Z.div_lt_upper_bound; lia). lia.
Qed.

(** The width of the codes after a code is sent. *)
Definition widened (g : GifFileType) : GifFileType :=
  if g.(Priv).(MaxCode1) <=? g.(Priv).(RunningCode) then
    upd_priv (fun p => set_MaxCode1 (Z.shiftl 1 (p.(RunningBits) + 1))
                         (set_RunningBits (p.(RunningBits) + 1) p)) g
  else g.

Lemma sent_code base cs c w g :
  sent base cs g -> g.(Priv).(CrntShiftState) < 8 -> 1 <= w <= 12 -> 0 <= c < 2 ^ w ->
  sent base (cs ++ [(c, w)])
    (upd_priv (fun p => set_CrntShiftState (p.(CrntShiftState) + w)
       (set_CrntShiftDWord (Z.lor p.(CrntShiftDWord) (u32 (Z.shiftl c p.(CrntShiftState)))) p)) g).
Proof.
  intros (Hfit & payload & Hbuf & Hst0 & Hdw & Hlen & Hval) Hst Hw Hc.
  split; [apply Forall_app; split; [done|]; by constructor|]. exists payload.
  cbn [Priv upd_priv set_Priv CrntShiftState CrntShiftDWord set_CrntShiftState set_CrntShiftDWord].
  set (st := CrntShiftState (Priv g)) in *. set (d := CrntShiftDWord (Priv g)) in *.
  assert (2 ^ w <= 2 ^ 12) by (apply Z.pow_le_mono_r; lia).
  assert (2 ^ st <= 2 ^ 8) by (apply Z.pow_le_mono_r; lia).
  assert (0 < 2 ^ st) by (apply Z.pow_pos_nonneg; lia).
  change (2 ^ 12) with 4096 in *. change (2 ^ 8) with 256 in *.
  assert (Z.shiftl c st = 2 ^ st * c) as Hsh by (rewrite Z.shiftl_mul_pow2 by lia; lia).
  rewrite u32_small by (rewrite Hsh; nia). rewrite lor_shiftl by lia.
  split; [by apply buffered_shift|]. split; [lia|]. split.
  { rewrite Z.pow_add_r by lia. nia. }
  rewrite codes_bits_app. cbn [codes_bits]. split; [lia|].
  rewrite codes_val_app by done. cbn [codes_val]. rewrite <- Hval, <- Hlen.
  rewrite Z.pow_add_r by lia. rewrite <- pow_256 by lia. lia.
Qed.

Lemma room_code c w g :
  room (upd_priv (fun p => set_CrntShiftState (p.(CrntShiftState) + w)
       (set_CrntShiftDWord (Z.lor p.(CrntShiftDWord) (u32 (Z.shiftl c p.(CrntShiftState)))) p)) g)
  = room g - w.
Proof. unfold room, buf0. cbn. lia. Qed.

Lemma sent_widened base cs g : sent base cs g -> sent base cs (widened g).
Proof. unfold widened. by destruct (_ <=? _). Qed.

Lemma room_widened g : room (widened g) = room g.
Proof. unfold widened. by destruct (_ <=? _). Qed.

Lemma shift_widened g : (widened g).(Priv).(CrntShiftState) = g.(Priv).(CrntShiftState).
Proof. unfold widened. by destruct (_ <=? _). Qed.

Lemma io_like_widened g g' : io_like g g' -> io_like (widened g) (widened g').
Proof.
  intros H. unfold widened.
  rewrite (io_like_priv MaxCode1 g g'), (io_like_priv RunningCode g g') by done.
  destruct (_ <=? _); [|done]. by apply io_like_upd.
Qed.

Lemma wp_widen c g (k : GifM unit) Q E :
  c <= 4095 -> wp k Q E (widened g) ->
  wp ((if (MaxCode1 (Priv g) <=? RunningCode (Priv g)) && (c <=? 4095) then
     modify (upd_priv (fun p => set_MaxCode1 (Z.shiftl 1 (p.(RunningBits) + 1))
                                  (set_RunningBits (p.(RunningBits) + 1) p)))
   else ret tt) ;;! k)%c Q E g.
Proof.
  intros Hc Hk. apply wp_bind. destruct (Z.leb_spec c 4095); [|lia]. rewrite andb_true_r.
  unfold widened in Hk. destruct (_ <=? _); [by apply wp_modify|by apply wp_ret].
Qed.

(** Sending a code. *)
Lemma wp_CompressOutput base cs c g E :
  sent base cs g -> g.(Priv).(CrntShiftState) < 8 -> 12 <= room g ->
  1 <= g.(Priv).(RunningBits) <= 12 -> 0 <= c < 2 ^ g.(Priv).(RunningBits) ->
  wp (EGifCompressOutput c)
    (fun _ g' => sent base (cs ++ [(c, g.(Priv).(RunningBits))]) g' /\
       g'.(Priv).(CrntShiftState) < 8 /\ room g - 12 <= room g' /\ io_like (widened g) g') E g.
Proof.
  intros Hs Hst Hroom Hw Hc.
  assert (c < 4096) as Hc12.
  { assert (2 ^ RunningBits (Priv g) <= 2 ^ 12) by (apply Z.pow_le_mono_r; lia).
    change (2 ^ 12) with 4096 in *. lia. }
  unfold EGifCompressOutput. apply wp_bind.
  destruct (Z.eqb_spec c FLUSH_OUTPUT) as [->|_]; [unfold FLUSH_OUTPUT in Hc12; lia|].
  do 2 wp_step. set (w := RunningBits (Priv g)) in *.
  pose proof (sent_code base cs c w g Hs Hst Hw Hc) as Hs1.
  pose proof (room_code c w g) as Hr1.
  match goal with |- wp _ _ _ ?x => change x with
    (upd_priv (fun p => set_CrntShiftState (p.(CrntShiftState) + w)
       (set_CrntShiftDWord (Z.lor p.(CrntShiftDWord) (u32 (Z.shiftl c p.(CrntShiftState)))) p)) g) end.
  set (g1 := upd_priv _ g) in *.
  assert (io_like g g1) as Hio1.
  { done. }
  eapply wp_mono; [apply wp_emit_bytes; [done|cbn; lia|lia]| |done].
  intros r g2 (-> & Hs2 & Hio2 & Hst2 & Hr2). do 2 wp_step.
  assert (io_like g g2) as Hio by (by etrans).
  apply wp_widen; [lia|]. apply wp_ret. split; [by apply sent_widened|]. rewrite shift_widened, room_widened.
  split; [done|]. split; [lia|]. by apply io_like_widened.
Qed.

Lemma wp_output_code base cs c g E :
  sent base cs g -> g.(Priv).(CrntShiftState) < 8 -> 12 <= room g ->
  1 <= g.(Priv).(RunningBits) <= 12 -> 0 <= c < 2 ^ g.(Priv).(RunningBits) ->
  wp (output_code c)
    (fun _ g' => sent base (cs ++ [(c, g.(Priv).(RunningBits))]) g' /\
       g'.(Priv).(CrntShiftState) < 8 /\ room g - 12 <= room g' /\ io_like (widened g) g') E g.
Proof.
  intros. unfold output_code. apply wp_bind, wp_attempt.
  eapply wp_mono; [by apply (wp_CompressOutput base cs c g nofail)| |intros ? []].
  intros [] g' H'. by apply wp_ret.
Qed.

(** Flushing: the last byte is padded with zero bits, the buffer is written
    and the chain of blocks is closed. *)
Lemma wp_pad base cs g E :
  sent base cs g -> g.(Priv).(CrntShiftState) < 8 -> 0 <= room g ->
  wp (emit_bytes 1 true)
    (fun r g' => r = true /\ io_like g g' /\ exists payload,
       buffered base payload g' /\ bytes_val payload = codes_val cs /\
       codes_bits cs <= 8 * Z.of_nat (length payload) /\ room g - 8 <= 4 * g'.(Space) - 8 * buf0 g') E g.
Proof.
  intros (Hfit & payload & Hbuf & Hst0 & Hdw & Hlen & Hval) Hst Hroom.
  set (st := CrntShiftState (Priv g)) in *. set (d := CrntShiftDWord (Priv g)) in *.
  unfold emit_bytes. cbn [loop]. apply wp_bind, wp_bind, wp_gets. fold st.
  destruct (Z.leb_spec 1 st) as [Hpos|Hz].
  - assert (2 ^ st <= 2 ^ 8) as Hp by (apply Z.pow_le_mono_r; lia). change (2 ^ 8) with 256 in Hp.
    apply wp_bind. unfold emit_byte. apply wp_bind, wp_gets. rewrite land_255. fold d.
    rewrite Z.mod_small by lia. apply wp_bind, wp_attempt.
    eapply wp_mono; [apply wp_BufferedOutput; [split; lia|exact Hbuf|exact Hst0|done]| |done].
    intros [] g1 (Hio & Hbuf1 & Hr1). do 2 wp_step. do 2 apply wp_ret. apply wp_bind, wp_bind, wp_gets.
    cbn [Priv upd_priv set_Priv CrntShiftState set_CrntShiftState].
    assert (CrntShiftState (Priv g1) = st) as Es by (destruct Hio as (? & ? & ? & ->); done).
    rewrite Es. destruct (Z.leb_spec 1 (st - 8)); [lia|]. apply wp_ret, wp_ret. split; [done|].
    split.
    { etrans; [by apply io_only_like|done]. }
    exists (payload ++ [d]). split; [exact Hbuf1|]. rewrite bytes_val_app, length_app. cbn [bytes_val length].
    split; [lia|]. split; [lia|]. unfold room, buf0 in *. cbn. lia.
  - assert (st = 0) as Hz0 by lia. rewrite Hz0 in *. change (2 ^ 0) with 1 in Hdw.
    apply wp_ret, wp_ret. split; [done|]. split; [done|]. exists payload. split; [done|].
    replace d with 0 in Hval by lia. split; [lia|]. split; [lia|]. unfold room. fold st. lia.
Qed.

Lemma wp_close base payload g E :
  buffered base payload g -> 8 <= 4 * g.(Space) - 8 * buf0 g ->
  wp (EGifBufferedOutput FLUSH_OUTPUT)
    (fun _ g' => io_like g g' /\ 4 * g.(Space) - 8 * buf0 g - 8 <= 4 * g'.(Space) /\
       exists encoded, framed payload encoded /\ g'.(Out) = base ++ encoded) E g.
Proof.
  intros (chunks & q & junk & -> & Hp)%buffered_parts Hroom.
  rewrite (parts_buf0 _ _ _ _ _ Hp) in *. pose proof Hp as (Hch & Hq & Hout & Hbuf & Hlen).
  unfold EGifBufferedOutput. do 2 wp_step.
  apply wp_bind, wp_of_option with (a := Z.of_nat (length q)); [by rewrite Hbuf|].
  rewrite Z.eqb_refl.
  assert (forall g1 chunks', Forall chunk_ok chunks' -> g1.(Out) = base ++ blocks chunks' ->
    concat chunks ++ q = concat chunks' -> 1 <= g1.(Space) -> 4 * g.(Space) - 8 * Z.of_nat (length q) - 4 <= 4 * g1.(Space) ->
    io_like g g1 ->
    wp (write_or_fail [0]) (fun _ g' => io_like g g' /\ 4 * g.(Space) - 8 * Z.of_nat (length q) - 8 <= 4 * g'.(Space) /\ exists encoded,
      framed (concat chunks ++ q) encoded /\ g'.(Out) = base ++ encoded) E g1) as Hend.
  { intros g1 chunks' Hch1 Hout1 Hcc Hs1 Hs2 Hio1. apply wp_write_or_fail; [cbn; lia|].
    split; [by etrans; [exact Hio1|]|]. split; [cbn; lia|].
    exists (blocks chunks' ++ [0]). split; [by exists chunks'|]. cbn. by rewrite Hout1, app_assoc. }
  destruct (decide (q = [])) as [->|Hne].
  - apply wp_bind, wp_ret, wp_bind. eapply wp_put_Buf; [by rewrite Hbuf|].
    apply (Hend _ chunks); [done|done|by rewrite app_nil_r|cbn in *; lia|cbn in *; lia|done].
  - destruct (Z.eqb_spec (Z.of_nat (length q)) 0) as [H0|_]; [by destruct q|].
    apply bind_assoc_wp, wp_bind.
    eapply wp_write_buffer; [exact Hp|done|destruct q; [done|cbn [length] in *; lia]|].
    intros g1 (Hch1 & _ & Hout1 & _) Hio1 Hs1.
    apply (Hend _ (chunks ++ [q])); [done|done|by rewrite concat_snoc| | |by apply io_only_like];
      (destruct q; [done|cbn [length] in *; lia]).
Qed.

Lemma wp_flush base cs g E :
  sent base cs g -> g.(Priv).(CrntShiftState) < 8 -> 16 <= room g ->
  wp (output_code FLUSH_OUTPUT)
    (fun _ g' => io_like g g' /\ room g - 16 <= 4 * g'.(Space) /\ exists payload encoded,
       framed payload encoded /\ g'.(Out) = base ++ encoded /\
       bytes_val payload = codes_val cs /\ codes_bits cs <= 8 * Z.of_nat (length payload)) E g.
Proof.
  intros Hs Hst Hroom. unfold output_code, EGifCompressOutput. rewrite Z.eqb_refl.
  apply wp_bind, wp_attempt, wp_bind, wp_bind.
  eapply wp_mono; [apply wp_pad with (E := nofail); [done|done|lia]| |intros ? []].
  intros r g1 (-> & Hio1 & payload & Hbuf & Hval & Hlen & Hr). do 2 wp_step.
  apply wp_bind, wp_attempt.
  eapply wp_mono; [apply (wp_close base payload _ nofail); [exact Hbuf|]| |intros ? []].
  { unfold buf0 in *. cbn. lia. }
  intros [] g2 (Hio2 & Hs2 & encoded & Hfr & Hout). apply wp_ret. do 2 wp_step.
  rewrite andb_false_r. apply wp_bind, wp_ret, wp_ret, wp_ret. split; [|split; [|eauto 10]].
  - etrans; [exact Hio1|]. etrans; [|exact Hio2]. done.
  - unfold buf0 in *. cbn in Hs2. lia.
Qed.

(** ** The table of strings *)

(** The hash table maps the key of a prefix and a pixel to the code of the
    entry. *)
Definition dict (clear : Z) (tbl : list entry) (m : gmap Z Z) : Prop :=
  forall k, m !! k = find_entry clear tbl (k / 256, k mod 256).

(** The compressor's fields for the table [tbl], the codes being as wide as
    after [n] entries. *)
Record enc_tbl (n : nat) (tbl : list entry) (p : GifFilePrivateType) : Prop := {
  et_bpp : 2 <= p.(BitsPerPixel) <= 8;
  et_clear : p.(ClearCode) = 2 ^ p.(BitsPerPixel);
  et_eof : p.(EOFCode) = p.(ClearCode) + 1;
  et_rcode : p.(RunningCode) = code_of p.(ClearCode) (length tbl);
  et_full : p.(RunningCode) <= LZ_MAX_CODE;
  et_rbits : p.(RunningBits) = width p.(ClearCode) n;
  et_max : p.(MaxCode1) = 2 ^ width p.(ClearCode) n;
  et_table : exists m, table p.(HashTable) m /\ dict p.(ClearCode) tbl m /\ (size m <= length tbl)%nat;
  et_wf : tbl_wf p.(ClearCode) tbl
}.

Lemma enc_tbl_io n tbl g g' : io_like g g' -> enc_tbl n tbl g.(Priv) -> enc_tbl n tbl g'.(Priv).
Proof.
  intros Hio H. unfold io_like in Hio. apply (f_equal Priv) in Hio.
  change (no_buffers g.(Priv) = no_buffers g'.(Priv)) in Hio.
  assert (enc_tbl n tbl (no_buffers g.(Priv))) as H1 by (by destruct H). rewrite Hio in H1.
  by destruct H1.
Qed.

Lemma clear_range_enc n tbl p : enc_tbl n tbl p -> 4 <= p.(ClearCode) <= 256.
Proof.
  intros [Hb Hc]. rewrite Hc. split.
  - change 4 with (2 ^ 2). apply Z.pow_le_mono_r; lia.
  - change 256 with (2 ^ 8). apply Z.pow_le_mono_r; lia.
Qed.

Lemma tbl_length n tbl p : enc_tbl n tbl p -> p.(ClearCode) + 2 + Z.of_nat (length tbl) <= LZ_MAX_CODE.
Proof. intros H. pose proof (et_rcode _ _ _ H). pose proof (et_full _ _ _ H). unfold code_of in *. lia. Qed.

(** Sending a code moves the width on by one entry. *)
Lemma enc_tbl_widened tbl g :
  enc_tbl (length tbl) tbl g.(Priv) -> enc_tbl (S (length tbl)) tbl (widened g).(Priv).
Proof.
  intros H. pose proof (clear_range_enc _ _ _ H) as Hc. pose proof (tbl_length _ _ _ H) as Hlen. pose proof H as [].
  unfold LZ_MAX_CODE in Hlen. pose proof (width_succ (ClearCode (Priv g)) (length tbl) ltac:(lia) ltac:(lia)) as Hw.
  pose proof (width_range (ClearCode (Priv g)) (length tbl)) as Hwr. unfold LZ_BITS in Hwr. unfold widened.
  rewrite et_max0, et_rcode0. unfold code_of.
  destruct (Z.leb_spec (2 ^ width (ClearCode (Priv g)) (length tbl))
    (ClearCode (Priv g) + 2 + Z.of_nat (length tbl))) as [Hle|Hgt]; cbn [andb] in Hw.
  - assert (width (ClearCode (Priv g)) (length tbl) < LZ_BITS) as Hlt.
    { apply (Z.pow_lt_mono_r_iff 2); [lia|unfold LZ_BITS; lia|]. unfold LZ_BITS. change (2 ^ 12) with 4096. lia. }
    rewrite (proj2 (Z.ltb_lt _ _) Hlt) in Hw.
    split; try done; cbn [Priv upd_priv set_Priv RunningBits MaxCode1 ClearCode set_MaxCode1 set_RunningBits];
      rewrite Hw; [lia|]. rewrite et_rbits0, Z.shiftl_mul_pow2 by lia. lia.
  - split; try done; by rewrite Hw.
Qed.

Lemma code_lt_width n tbl p c : (n <= S (length tbl))%nat ->
  enc_tbl n tbl p -> 0 <= c <= p.(ClearCode) + 1 + Z.of_nat n -> 0 <= c < 2 ^ p.(RunningBits).
Proof.
  intros Hn H Hc. pose proof (clear_range_enc _ _ _ H). pose proof (tbl_length _ _ _ H) as Hlen. unfold LZ_MAX_CODE in Hlen.
  rewrite (et_rbits _ _ _ H). pose proof (width_spec p.(ClearCode) n ltac:(lia) ltac:(lia)). lia.
Qed.

Lemma key_div_mod cur p : 0 <= p < 256 -> (cur * 256 + p) / 256 = cur /\ (cur * 256 + p) mod 256 = p.
Proof.
  intros Hp. rewrite (Z.add_comm _ p). rewrite Z.div_add, Z.mod_add by lia.
  rewrite Z.div_small, Z.mod_small by lia. lia.
Qed.

Lemma dict_empty clear : dict clear [] ∅.
Proof. intros k. by rewrite lookup_empty. Qed.

Lemma dict_snoc clear tbl m cur p :
  dict clear tbl m -> 0 <= p < 256 -> find_entry clear tbl (cur, p) = None ->
  dict clear (tbl ++ [(cur, p)]) (<[cur * 256 + p := code_of clear (length tbl)]> m).
Proof.
  intros Hd Hp Hf k. rewrite find_entry_snoc, <- Hd.
  destruct (key_div_mod cur p Hp) as [Hdiv Hmod].
  destruct (decide (k = cur * 256 + p)) as [->|Hne].
  - rewrite lookup_insert_eq, Hdiv, Hmod, decide_True by done.
    assert (m !! (cur * 256 + p) = None) as -> by (by rewrite Hd, Hdiv, Hmod). done.
  - rewrite lookup_insert_ne by done. destruct (m !! k); [done|].
    rewrite decide_False; [done|]. intros [= E1 E2]. apply Hne.
    pose proof (Z.div_mod k 256 ltac:(lia)). lia.
Qed.

(** The state between two pixels: the codes [cs] have been sent. *)
Record comp (base : list Z) (cs : list (Z * Z)) (tbl : list entry) (g : GifFileType) : Prop := {
  cp_sent : sent base cs g;
  cp_shift : g.(Priv).(CrntShiftState) < 8;
  cp_tbl : enc_tbl (length tbl) tbl g.(Priv)
}.

(** What the routines of the compressor leave alone. *)
Definition outside (g : GifFileType) :=
  (set_Priv zero_private (set_Out [] (set_Space 0 g)),
   (g.(Priv).(FileState), g.(Priv).(PixelCount), gif89 g.(Priv),
    (g.(Priv).(ClearCode), g.(Priv).(EOFCode), g.(Priv).(BitsPerPixel), g.(Priv).(CrntCode)))).

Lemma io_like_outside g g' : io_like g g' -> outside g' = outside g.
Proof.
  intros H. unfold outside. f_equal.
  - unfold io_like in H. apply (f_equal (set_Priv zero_private)) in H. symmetry. exact H.
  - by rewrite (io_like_priv FileState g g'), (io_like_priv PixelCount g g'), (io_like_priv gif89 g g'),
      (io_like_priv ClearCode g g'), (io_like_priv EOFCode g g'), (io_like_priv BitsPerPixel g g'),
      (io_like_priv CrntCode g g').
Qed.

Lemma outside_codes g g' :
  outside g' = outside g ->
  g'.(Priv).(ClearCode) = g.(Priv).(ClearCode) /\ g'.(Priv).(EOFCode) = g.(Priv).(EOFCode) /\
  g'.(Priv).(BitsPerPixel) = g.(Priv).(BitsPerPixel) /\ g'.(Priv).(CrntCode) = g.(Priv).(CrntCode) /\
  g'.(Priv).(PixelCount) = g.(Priv).(PixelCount).
Proof. intros H. apply (f_equal snd) in H. cbn in H. by injection H as ? ? ? ? ? ? ?. Qed.

Lemma widened_outside g : outside (widened g) = outside g.
Proof. unfold widened. by destruct (_ <=? _). Qed.

(** A code from the table is sent. *)
Lemma wp_send base cs tbl c g E :
  comp base cs tbl g -> 12 <= room g ->
  0 <= c <= g.(Priv).(ClearCode) + 1 + Z.of_nat (length tbl) ->
  wp (output_code c)
    (fun _ g' => sent base (cs ++ [(c, width g.(Priv).(ClearCode) (length tbl))]) g' /\
       g'.(Priv).(CrntShiftState) < 8 /\ enc_tbl (S (length tbl)) tbl g'.(Priv) /\
       room g - 12 <= room g' /\ outside g' = outside g) E g.
Proof.
  intros [Hs Hst Ht] Hroom Hc. pose proof (width_range g.(Priv).(ClearCode) (length tbl)) as Hw. unfold LZ_BITS in Hw.
  rewrite <- (et_rbits _ _ _ Ht) in *.
  eapply wp_mono; [apply wp_output_code; try done; by (eapply (code_lt_width (length tbl) tbl); [lia|exact Ht|exact Hc])| |done].
  intros _ g' (Hs' & Hst' & Hr' & Hio). split; [done|]. split; [done|].
  split; [eapply enc_tbl_io; [exact Hio|by apply enc_tbl_widened]|]. split; [done|].
  rewrite (io_like_outside _ _ Hio). apply widened_outside.
Qed.

Lemma valid_range clear n c : 0 <= clear -> valid clear n c -> 0 <= c <= clear + 1 + Z.of_nat n.
Proof. intros ? []; lia. Qed.

(** The table is cleared when it is full. *)
Lemma clear_table base cs g :
  sent base cs g -> g.(Priv).(CrntShiftState) < 8 -> 2 <= g.(Priv).(BitsPerPixel) <= 8 ->
  g.(Priv).(ClearCode) = 2 ^ g.(Priv).(BitsPerPixel) -> g.(Priv).(EOFCode) = g.(Priv).(ClearCode) + 1 ->
  comp base cs [] (upd_priv (fun p =>
         set_HashTable _ClearHashTable
         (set_MaxCode1 (Z.shiftl 1 (p.(BitsPerPixel) + 1))
         (set_RunningBits (p.(BitsPerPixel) + 1)
         (set_RunningCode (p.(EOFCode) + 1) p)))) g).
Proof.
  intros Hs Hst Hb Hc Heof. set (g' := upd_priv _ g).
  assert (width (ClearCode (Priv g)) 0 = BitsPerPixel (Priv g) + 1) as Hw by (apply width_0; [lia|done]).
  assert (ClearCode (Priv g) <= 256).
  { rewrite Hc. change 256 with (2 ^ 8). apply Z.pow_le_mono_r; lia. }
  split; [exact Hs|exact Hst|]. split; try done.
  - cbn. unfold code_of. cbn. lia.
  - cbn. unfold LZ_MAX_CODE. lia.
  - cbn [Priv g' upd_priv set_Priv MaxCode1 ClearCode set_HashTable set_MaxCode1 set_RunningBits set_RunningCode length].
    rewrite Hw, Z.shiftl_mul_pow2 by lia. lia.
  - exists ∅. split; [apply table_clear|]. split; [apply dict_empty|]. by rewrite map_size_empty.
Qed.

(** The other way out of a mismatch: a new entry. *)
Lemma add_entry base cs tbl cur p g :
  sent base cs g -> g.(Priv).(CrntShiftState) < 8 -> enc_tbl (S (length tbl)) tbl g.(Priv) ->
  g.(Priv).(RunningCode) < LZ_MAX_CODE -> valid g.(Priv).(ClearCode) (length tbl) cur ->
  0 <= p < g.(Priv).(ClearCode) -> find_entry g.(Priv).(ClearCode) tbl (cur, p) = None ->
  exists t, _InsertHashTable g.(Priv).(HashTable) (cur * 256 + p) g.(Priv).(RunningCode) = Some t /\
    comp base cs (tbl ++ [(cur, p)])
      (upd_priv (fun q => set_HashTable t (set_RunningCode (q.(RunningCode) + 1) q)) g).
Proof.
  intros Hs Hst Ht Hlt Hv Hp Hf. pose proof (clear_range_enc _ _ _ Ht) as Hc.
  pose proof (et_table _ _ _ Ht) as (m & Hm & Hd & Hsz).
  pose proof (tbl_length _ _ _ Ht) as Hlen. pose proof (valid_range (ClearCode (Priv g)) (length tbl) cur ltac:(lia) Hv) as Hcur.
  pose proof (et_rcode _ _ _ Ht) as Hrc. unfold code_of in Hrc. unfold LZ_MAX_CODE in *.
  destruct (key_div_mod cur p ltac:(lia)) as [Hdiv Hmod].
  assert (m !! (cur * 256 + p) = None) as Hnone by (by rewrite Hd, Hdiv, Hmod).
  destruct (table_insert _ _ (cur * 256 + p) (RunningCode (Priv g)) Hm) as (t & -> & Ht').
  - unfold HT_SIZE. lia.
  - unfold HT_NO_KEY. lia.
  - done.
  - exists t. split; [done|].
    assert (Z.land (RunningCode (Priv g)) 4095 = RunningCode (Priv g)) as Hland.
    { change 4095 with (Z.ones 12). rewrite Z.land_ones, Z.mod_small by (change (2 ^ 12) with 4096; lia). done. }
    rewrite Hland in Ht'. destruct Ht.
    split; [exact Hs|exact Hst|]. split; try done; rewrite ?length_app; cbn [length];
      rewrite ?(Nat.add_comm _ 1); try done.
    + cbn -[code_of]. rewrite et_rcode0. unfold code_of. lia.
    + cbn. unfold LZ_MAX_CODE. lia.
    + eexists. split; [exact Ht'|]. split.
      * rewrite et_rcode0. by apply dict_snoc; [|lia|].
      * rewrite map_size_insert_None by done. lia.
    + by apply tbl_wf_snoc.
Qed.

(** One pixel. *)
Lemma wp_compress_pixel base cs tbl cur p g E :
  comp base cs tbl g -> 24 <= room g -> valid g.(Priv).(ClearCode) (length tbl) cur ->
  0 <= p < g.(Priv).(ClearCode) ->
  wp (compress_pixel cur p)
    (fun cur' g' =>
       let '(cs', tbl', cur'') := enc_line g.(Priv).(ClearCode) tbl cur [p] in
       cur' = cur'' /\ comp base (cs ++ cs') tbl' g' /\ room g - 24 <= room g' /\
       outside g' = outside g /\ valid g.(Priv).(ClearCode) (length tbl') cur') E g.
Proof.
  intros Hcp Hroom Hv Hp. pose proof Hcp as [Hs Hst Ht]. pose proof (clear_range_enc _ _ _ Ht) as Hc.
  pose proof (et_table _ _ _ Ht) as (m & Hm & Hd & Hsz).
  pose proof (tbl_length _ _ _ Ht) as Hlen. pose proof (valid_range (ClearCode (Priv g)) (length tbl) cur ltac:(lia) Hv) as Hcur.
  unfold LZ_MAX_CODE in Hlen.
  assert (u32 (u32 (Z.shiftl cur 8) + p) = cur * 256 + p) as Hkey.
  { rewrite Z.shiftl_mul_pow2 by lia. change (2 ^ 8) with 256. rewrite !u32_small; try lia.
    rewrite u32_small; lia. }
  unfold compress_pixel. rewrite Hkey. do 2 wp_step.
  destruct (key_div_mod cur p ltac:(lia)) as [Hdiv Hmod].
  pose proof (table_exists _ _ (cur * 256 + p) Hm ltac:(unfold HT_SIZE; lia) ltac:(unfold HT_NO_KEY; lia)) as Hex.
  rewrite Hd, Hdiv, Hmod in Hex. apply wp_bind, wp_of_option with (1 := Hex). cbn [enc_line].
  destruct (find_entry (ClearCode (Priv g)) tbl (cur, p)) as [c|] eqn:Ef; cbn [default id].
  - pose proof (find_entry_valid _ _ _ _ Ef) as Hvc. pose proof (valid_range (ClearCode (Priv g)) (length tbl) c ltac:(lia) Hvc).
    destruct (Z.leb_spec 0 c); [|lia]. apply wp_ret. rewrite app_nil_r. split; [done|].
    split; [done|]. split; [lia|done].
  - change (0 <=? -1) with false. cbv iota. apply wp_bind.
    eapply wp_mono; [apply wp_send; [done|lia|done]| |done].
    intros _ g1 (Hs1 & Hst1 & Ht1 & Hr1 & Ho1). do 2 wp_step.
    assert (ClearCode (Priv g1) = ClearCode (Priv g)) as Hcl by apply (outside_codes _ _ Ho1).
    pose proof (et_rcode _ _ _ Ht1) as Hrc1. rewrite Hcl in Hrc1. rewrite Hrc1.
    change (@code_limit giflib_limit) with LZ_MAX_CODE. apply wp_bind. destruct (Z.leb_spec LZ_MAX_CODE (code_of (ClearCode (Priv g)) (length tbl))) as [Hfull|Hnf].
    + apply wp_bind. pose proof (width_range g1.(Priv).(ClearCode) (S (length tbl))) as Hw. unfold LZ_BITS in Hw.
      rewrite Hcl in Hw. rewrite Hcl. pose proof (et_rbits _ _ _ Ht1) as Hrb. rewrite Hcl in Hrb.
      eapply wp_mono; [apply wp_output_code; [exact Hs1|done|lia|lia|]| |done].
      { rewrite <- Hcl. eapply code_lt_width; [|exact Ht1|lia]; lia. }
      intros _ g2 (Hs2 & Hst2 & Hr2 & Hio2). apply wp_modify, wp_ret. cbn.
      rewrite Hrb in Hs2. rewrite <- app_assoc in Hs2.
      assert (outside g2 = outside g) as Ho2.
      { rewrite (io_like_outside _ _ Hio2), widened_outside. done. }
      destruct (outside_codes _ _ Ho2) as (Hcl2 & Heof2 & Hbpp2 & _).
      split; [done|]. split; [|split; [|split; [exact Ho2|by left]]].
      * apply clear_table; [exact Hs2|done|by rewrite Hbpp2; apply Ht|by rewrite Hcl2, Hbpp2; apply Ht|].
        rewrite Heof2, Hcl2. apply Ht.
      * unfold room, buf0 in *. cbn. lia.
    + destruct (add_entry base (cs ++ [(cur, width (ClearCode (Priv g)) (length tbl))]) tbl cur p g1)
        as (t & Hins & Hcp2); try done; rewrite ?Hcl; try done; [lia|].
      rewrite <- Hrc1. apply wp_bind, wp_of_option with (1 := Hins), wp_modify, wp_ret. cbn.
      split; [done|]. split; [exact Hcp2|]. split; [unfold room, buf0 in *; cbn; lia|].
      split; [exact Ho1|]. by left.
Qed.

(** ** Lines *)

(** A loop over the indices of an array as a loop over its elements. *)
Lemma foldM_index {A} (f : A -> Z -> GifM A) (l : list Z) n : forall i a g,
  (i + n <= length l)%nat ->
  foldM (fun a i => let! x := of_option (aget l i) in f a x)%c (seqZ (Z.of_nat i) (Z.of_nat n)) a g =
  foldM f (take n (drop i l)) a g.
Proof.
  induction n as [|n IH]; intros i a g Hl; [by rewrite take_0|].
  rewrite seqZ_cons by lia. destruct (lookup_lt_is_Some_2 l i) as [x Hx]; [lia|].
  rewrite (drop_S _ _ _ Hx). cbn [take foldM].
  assert (aget l (Z.of_nat i) = Some x) as Ha.
  { unfold aget. rewrite decide_True by lia. by rewrite Nat2Z.id. }
  unfold bind at 1 2 4. rewrite Ha. cbn [of_option]. unfold ret at 1. destruct (f a x g) as [[a'| |] g']; [|done|done].
  replace (Z.succ (Z.of_nat i)) with (Z.of_nat (S i)) by lia.
  replace (Z.pred (Z.of_nat (S n))) with (Z.of_nat n) by lia. apply IH. lia.
Qed.

Lemma wp_compress_pixels base ps E : forall cs tbl cur g,
  comp base cs tbl g -> 24 * Z.of_nat (length ps) <= room g ->
  valid g.(Priv).(ClearCode) (length tbl) cur -> Forall (fun p => 0 <= p < g.(Priv).(ClearCode)) ps ->
  wp (foldM compress_pixel ps cur)
    (fun cur' g' =>
       let r := enc_line g.(Priv).(ClearCode) tbl cur ps in
       cur' = r.2 /\ comp base (cs ++ r.1.1) r.1.2 g' /\
       room g - 24 * Z.of_nat (length ps) <= room g' /\
       outside g' = outside g /\ valid g.(Priv).(ClearCode) (length r.1.2) cur') E g.
Proof.
  induction ps as [|p ps IH]; intros cs tbl cur g Hcp Hroom Hv Hps; cbn [foldM length] in *.
  - apply wp_ret. cbn. rewrite app_nil_r. split; [done|]. split; [done|]. split; [lia|done].
  - apply Forall_cons in Hps as [Hp Hps]. apply wp_bind.
    eapply wp_mono; [apply wp_compress_pixel; [done|lia|done|done]| |done]. intros cur1 g1.
    cbv zeta. change (p :: ps) with ([p] ++ ps). rewrite (enc_line_app (ClearCode (Priv g)) [p] tbl cur ps).
    destruct (enc_line (ClearCode (Priv g)) tbl cur [p]) as [[cs1 tbl1] cur2].
    intros (-> & Hcp1 & Hr1 & Ho1 & Hv1). destruct (outside_codes _ _ Ho1) as (Hcl1 & _).
    cbn [fst snd]. rewrite <- Hcl1 in Hv1, Hps |- *.
    eapply wp_mono; [apply (IH _ _ _ _ Hcp1); [lia|done|done]| |done].
    intros cur' g' (-> & Hcp' & Hr' & Ho' & Hv'). rewrite <- app_assoc in Hcp'.
    split; [done|]. split; [done|]. split; [lia|]. split; [by rewrite Ho'|done].
Qed.

(** Between two lines, [done_] being the pixels before. *)
Definition line_state (base done_ : list Z) (g : GifFileType) : Prop :=
  let clear := g.(Priv).(ClearCode) in
  match done_ with
  | [] => g.(Priv).(CrntCode) = FIRST_CODE /\ comp base [(clear, width clear 0)] [] g
  | p :: ps =>
      let r := enc_line clear [] p ps in
      g.(Priv).(CrntCode) = r.2 /\ valid clear (length r.1.2) r.2 /\
      comp base ((clear, width clear 0) :: r.1.1) r.1.2 g
  end.

(** The whole image has been written behind [base]. *)
Definition image_written (base pixels : list Z) (clear : Z) (g : GifFileType) : Prop :=
  exists payload encoded,
    framed payload encoded /\ g.(Out) = base ++ encoded /\
    bytes_val payload = codes_val (image_codes clear pixels) /\
    codes_bits (image_codes clear pixels) <= 8 * Z.of_nat (length payload).

Lemma wp_finish_image base cs tbl cur g E :
  comp base cs tbl g -> 40 <= room g -> valid g.(Priv).(ClearCode) (length tbl) cur ->
  wp (finish_image cur)
    (fun _ g' => outside g' = outside g /\ room g - 40 <= 4 * g'.(Space) /\ exists payload encoded,
       framed payload encoded /\ g'.(Out) = base ++ encoded /\
       bytes_val payload = codes_val (cs ++ enc g.(Priv).(ClearCode) tbl cur [] ++ [end_code g.(Priv).(ClearCode) tbl]) /\
       codes_bits (cs ++ enc g.(Priv).(ClearCode) tbl cur [] ++ [end_code g.(Priv).(ClearCode) tbl]) <= 8 * Z.of_nat (length payload)) E g.
Proof.
  intros Hcp Hroom Hv. pose proof (clear_range_enc _ _ _ (cp_tbl _ _ _ _ Hcp)) as Hc.
  pose proof (valid_range (ClearCode (Priv g)) (length tbl) cur ltac:(lia) Hv) as Hcur.
  unfold finish_image. apply wp_bind. eapply wp_mono; [apply wp_send; [done|lia|done]| |done].
  intros _ g1 (Hs1 & Hst1 & Ht1 & Hr1 & Ho1). do 2 wp_step.
  destruct (outside_codes _ _ Ho1) as (Hcl1 & Heof1 & _).
  pose proof (width_range g1.(Priv).(ClearCode) (S (length tbl))) as Hw. unfold LZ_BITS in Hw. pose proof (et_rbits _ _ _ Ht1) as Hrb.
  apply wp_bind. eapply wp_mono; [apply wp_output_code; [exact Hs1|done|lia|by rewrite Hrb|]| |done].
  { rewrite (et_eof _ _ _ Ht1). eapply code_lt_width; [|exact Ht1|lia]; lia. }
  intros _ g2 (Hs2 & Hst2 & Hr2 & Hio2).
  eapply wp_mono; [apply wp_flush; [exact Hs2|done|lia]| |done].
  intros _ g3 (Hio3 & Hs3 & payload & encoded & Hfr & Hout & Hval & Hbits).
  split; [|split; [lia|]]. { by rewrite (io_like_outside _ _ Hio3), (io_like_outside _ _ Hio2), widened_outside. }
  exists payload, encoded. split; [done|]. split; [done|].
  rewrite <- app_assoc, Hrb, (et_eof _ _ _ Ht1), Hcl1 in Hval, Hbits. done.
Qed.

(** Everything but the output, the buffers, the table and [CrntCode]. *)
Definition kept (g g' : GifFileType) : Prop :=
  exists c, outside g' = outside (upd_priv (set_CrntCode c) g).

Lemma outside_CrntCode c g g' :
  outside g' = outside g -> outside (upd_priv (set_CrntCode c) g') = outside (upd_priv (set_CrntCode c) g).
Proof.
  intros H. pose proof (f_equal fst H) as H1. apply (f_equal snd) in H. cbn in H, H1.
  injection H as E1 E2 E3 E4 E5 E6 E7. unfold outside. f_equal; [exact H1|]. cbn. by rewrite E1, E2, E3, E4, E5, E6.
Qed.

#[export] Instance kept_preorder : PreOrder kept.
Proof.
  split.
  - intros g. exists g.(Priv).(CrntCode). done.
  - intros x y z [c H1] [d H2]. exists d. rewrite H2.
    change (upd_priv (set_CrntCode d) x) with (upd_priv (set_CrntCode d) (upd_priv (set_CrntCode c) x)).
    by apply outside_CrntCode.
Qed.

Lemma kept_codes g g' :
  kept g g' -> g'.(Priv).(ClearCode) = g.(Priv).(ClearCode) /\
    g'.(Priv).(BitsPerPixel) = g.(Priv).(BitsPerPixel) /\ g'.(Priv).(PixelCount) = g.(Priv).(PixelCount) /\
    g'.(Priv).(FileState) = g.(Priv).(FileState) /\ g'.(Image) = g.(Image).
Proof.
  intros [c H]. pose proof (f_equal (fun x => Image x.1) H) as Hi. cbn in Hi.
  apply (f_equal snd) in H. cbn in H. by injection H as ? ? ? ? ? ?.
Qed.

Lemma comp_CrntCode base cs tbl c g : comp base cs tbl g -> comp base cs tbl (upd_priv (set_CrntCode c) g).
Proof. intros [Hs Hst Ht]. split; [exact Hs|exact Hst|by destruct Ht]. Qed.

(** The pixels behind the first one. *)
Lemma wp_line_body base cs tbl cur ps g (Q : unit -> GifFileType -> Prop) E :
  comp base cs tbl g -> 24 * Z.of_nat (length ps) + 40 <= room g ->
  valid g.(Priv).(ClearCode) (length tbl) cur -> Forall (fun p => 0 <= p < g.(Priv).(ClearCode)) ps ->
  (forall g' r, r = enc_line g.(Priv).(ClearCode) tbl cur ps -> kept g g' ->
     room g - 24 * Z.of_nat (length ps) - 40 <= 4 * g'.(Space) ->
     (if g.(Priv).(PixelCount) =? 0 then
       exists payload encoded,
         framed payload encoded /\ g'.(Out) = base ++ encoded /\
         bytes_val payload = codes_val (cs ++ enc g.(Priv).(ClearCode) tbl cur ps ++ [end_code g.(Priv).(ClearCode) r.1.2]) /\
         codes_bits (cs ++ enc g.(Priv).(ClearCode) tbl cur ps ++ [end_code g.(Priv).(ClearCode) r.1.2]) <= 8 * Z.of_nat (length payload)
     else
       g'.(Priv).(CrntCode) = r.2 /\ valid g.(Priv).(ClearCode) (length r.1.2) r.2 /\
       comp base (cs ++ r.1.1) r.1.2 g' /\ room g - 24 * Z.of_nat (length ps) <= room g')
     -> Q tt g') ->
  wp (let! CrntCode := foldM compress_pixel ps cur in
      modify (upd_priv (set_CrntCode CrntCode)) ;;!
      let! p := gets Priv in
      if p.(PixelCount) =? 0 then finish_image CrntCode else ret tt)%c Q E g.
Proof.
  intros Hcp Hroom Hv Hps HQ. apply wp_bind.
  eapply wp_mono; [apply wp_compress_pixels; [done|lia|done|done]| |done].
  intros cur' g1 (-> & Hcp1 & Hr1 & Ho1 & Hv1). do 4 wp_step. set (r := enc_line _ _ _ _) in *.
  destruct (outside_codes _ _ Ho1) as (Hcl1 & _ & _ & _ & Hpc1).
  set (g2 := upd_priv _ g1). pose proof (comp_CrntCode _ _ _ r.2 _ Hcp1) as Hcp2. fold g2 in Hcp2.
  assert (kept g g2) as Hk by (exists r.2; by apply outside_CrntCode).
  change (PixelCount (Priv g2)) with (PixelCount (Priv g1)). rewrite Hpc1.
  destruct (PixelCount (Priv g) =? 0) eqn:Epc.
  - eapply wp_mono; [apply (wp_finish_image base _ _ r.2 g2 E Hcp2)| |done].
    + unfold room, buf0 in *. cbn in *. lia.
    + change (ClearCode (Priv g2)) with (ClearCode (Priv g1)). by rewrite Hcl1.
    + intros [] g3 (Ho3 & Hs3 & payload & encoded & Hfr & Hout & Hval & Hbits).
      change (ClearCode (Priv g2)) with (ClearCode (Priv g1)) in *. rewrite Hcl1 in *.
      apply (HQ g3 r eq_refl); [etrans; [exact Hk|]; exists (CrntCode (Priv g2)); rewrite Ho3; done| |].
      { unfold room, buf0 in *. cbn in *. lia. }
      pose proof (enc_app (ClearCode (Priv g)) ps tbl cur []) as He. rewrite app_nil_r in He. fold r in He.
      rewrite He. rewrite (app_assoc cs), <- !app_assoc in *. eauto 10.
  - assert (0 <= CrntShiftState (Priv g1) /\ 0 <= buf0 g1) as [H1 H2].
    { destruct Hcp1 as [(_ & payload & Hb & ? & _) _ _]. split; [done|]. apply buffered_parts in Hb as (? & ? & ? & ? & Hp).
      rewrite (parts_buf0 _ _ _ _ _ Hp). lia. }
    apply wp_ret, (HQ g2 r eq_refl); [done|unfold room, buf0 in *; cbn in *; lia|]. split; [done|]. split; [done|].
    split; [exact Hcp2|]. unfold room, buf0 in *. cbn. lia.
Qed.

(** What a call with the pixels [l] leaves. *)
Definition line_post (base done_ : list Z) (g g' : GifFileType) : Prop :=
  if g.(Priv).(PixelCount) =? 0 then image_written base done_ g.(Priv).(ClearCode) g'
  else line_state base done_ g'.

Lemma take_seqZ {A} (f : A -> Z -> GifM A) (Line : list Z) (i n : nat) a g :
  (i <= n <= length Line)%nat ->
  foldM (fun a i => let! x := of_option (aget Line i) in f a x)%c (seqZ (Z.of_nat i) (Z.of_nat n - Z.of_nat i)) a g
  = foldM f (drop i (take n Line)) a g.
Proof.
  intros Hi. rewrite <- Nat2Z.inj_sub by lia. rewrite foldM_index by lia.
  by rewrite skipn_firstn_comm.
Qed.

Lemma wp_fun_eq {A} (m m' : GifM A) Q E g : m g = m' g -> wp m' Q E g -> wp m Q E g.
Proof. unfold wp. by intros ->. Qed.

Lemma wp_CompressLine base done_ Line n g E :
  line_state base done_ g -> (n <= length Line)%nat -> done_ ++ take n Line <> [] ->
  24 * Z.of_nat n + 40 <= room g -> Forall (fun p => 0 <= p < g.(Priv).(ClearCode)) (take n Line) ->
  wp (EGifCompressLine Line (Z.of_nat n))
    (fun _ g' => line_post base (done_ ++ take n Line) g g' /\ kept g g' /\
       room g - 24 * Z.of_nat n - 40 <= 4 * g'.(Space) /\
       (g.(Priv).(PixelCount) <> 0 -> room g - 24 * Z.of_nat n <= room g')) E g.
Proof.
  intros Hst Hn Hne Hroom Hps. unfold EGifCompressLine. do 2 wp_step.
  destruct done_ as [|p0 ps0].
  - destruct Hst as [Hfirst Hcp]. rewrite Hfirst. apply wp_bind.
    change (FIRST_CODE =? FIRST_CODE) with true. cbv iota.
    destruct n as [|n]; [by rewrite take_0 in Hne|].
    destruct Line as [|p Line]; [cbn in Hn; lia|]. cbn [take] in *.
    apply Forall_cons in Hps as [Hp Hps]. apply wp_bind, wp_of_option with (a := p); [done|]. apply wp_ret.
    apply wp_fun_eq with (m' := (let! CrntCode := foldM compress_pixel (take n Line) p in
      modify (upd_priv (set_CrntCode CrntCode)) ;;!
      let! p := gets Priv in
      if p.(PixelCount) =? 0 then finish_image CrntCode else ret tt)%c).
    { unfold bind at 1 4. by rewrite (take_seqZ compress_pixel (p :: Line) 1 (S n)) by lia. }
    cbn [length] in Hn.
    eapply wp_line_body; [exact Hcp|rewrite length_take; lia|by left|done|].
    intros g' r' Hr' Hk Hsp Hpost. subst r'. rewrite length_take in Hsp, Hpost. split; [|split; [done|split; [lia|]]].
    + unfold line_post. destruct (_ =? 0); [exact Hpost|].
      destruct Hpost as (H1 & H2 & H3 & _). destruct (kept_codes _ _ Hk) as (Hcl & _).
      unfold line_state. cbn [app]. rewrite Hcl. done.
    + intros Hpc. apply Z.eqb_neq in Hpc. rewrite Hpc in Hpost. destruct Hpost as (_ & _ & _ & H4). lia.
  - destruct Hst as (Hcur & Hv & Hcp). cbv zeta in *. set (r := enc_line _ _ _ _) in *.
    pose proof (clear_range_enc _ _ _ (cp_tbl _ _ _ _ Hcp)) as Hc.
    pose proof (tbl_length _ _ _ (cp_tbl _ _ _ _ Hcp)) as Hlen. unfold LZ_MAX_CODE in Hlen.
    apply wp_bind. destruct (Z.eqb_spec (CrntCode (Priv g)) FIRST_CODE) as [He|_].
    { exfalso. rewrite Hcur in He. destruct Hv as [Hv|Hv]; rewrite He in Hv; unfold FIRST_CODE in Hv; lia. }
    apply wp_ret. rewrite Hcur.
    apply wp_fun_eq with (m' := (let! CrntCode := foldM compress_pixel (take n Line) r.2 in
      modify (upd_priv (set_CrntCode CrntCode)) ;;!
      let! p := gets Priv in
      if p.(PixelCount) =? 0 then finish_image CrntCode else ret tt)%c).
    { unfold bind at 1 4. by rewrite (take_seqZ compress_pixel Line 0 n) by lia. }
    eapply wp_line_body; [exact Hcp|rewrite length_take; lia|done|done|].
    intros g' r' Hr' Hk Hsp Hpost. subst r'. rewrite length_take in Hsp, Hpost. split; [|split; [done|split; [lia|]]].
    + unfold line_post. destruct (_ =? 0).
      * destruct Hpost as (payload & encoded & Hfr & Hout & Hval & Hbits). exists payload, encoded.
        unfold image_codes. cbn [app]. rewrite enc_app, enc_line_app. fold r. cbv zeta. cbn [fst snd]. rewrite <- !app_assoc. done.
      * destruct Hpost as (H1 & H2 & H3 & _). destruct (kept_codes _ _ Hk) as (Hcl & _).
        unfold line_state. cbn [app]. rewrite Hcl, enc_line_app. fold r. done.
    + intros Hpc. apply Z.eqb_neq in Hpc. rewrite Hpc in Hpost. destruct Hpost as (_ & _ & _ & H4). lia.
Qed.
