(* ===== verification/GifDecompress.v ===== *)
(** * giflib: the decompressor inverts the codes of Lzw.v

    The state of the decoder related to the specification of Lzw.v: the codes
    still to come are those of the remaining pixels, and the decoder's tables
    hold all entries of the compressor's table but the last, whose second
    component is the first pixel of the next code.  [DGifDecompressLine]
    delivers the pixels in pieces of any length. *)

From stdpp Require Import base numbers list list_numbers.
From Stdlib Require Import Lia ZArith.
From S2P Require Import Prelude GifTypes GifAlloc GifDecode GifSafety GifBlocks Lzw.

#[local] Open Scope Z_scope.

(** ** The block buffer *)

(** The bytes [cur] are left in the buffer of the current block. *)
Definition in_buffer (cur buf : list Z) : Prop :=
  length buf = 256%nat /\ aget buf 0 = Some (Z.of_nat (length cur)) /\
  (cur <> [] -> exists k, aget buf 1 = Some k /\ 2 <= k /\ k + Z.of_nat (length cur) <= 256 /\
     forall j, 0 <= j < Z.of_nat (length cur) -> aget buf (k + j) = aget cur j).

(** [bytes] are the bytes of the image still to come, [rest] what follows the
    image in the file. *)
Definition bstream (bytes rest : list Z) (g : GifFileType) : Prop :=
  exists cur later encoded,
    bytes = cur ++ later /\ in_buffer cur g.(Priv).(Buf) /\ Forall byte cur /\
    framed later encoded /\ g.(In) = encoded ++ rest.

Lemma aget_cons {A} (x : A) l j : 0 <= j -> aget (x :: l) (j + 1) = aget l j.
Proof.
  intros Hj. unfold aget. rewrite !decide_True by lia.
  by replace (Z.to_nat (j + 1)) with (S (Z.to_nat j)) by lia.
Qed.

Lemma framed_cons b bs encoded :
  framed (b :: bs) encoded ->
  exists c later encoded', bs = c ++ later /\ framed later encoded' /\
    encoded = Z.of_nat (S (length c)) :: (b :: c) ++ encoded' /\ chunk_ok (b :: c).
Proof.
  intros (chunks & Hok & Hp & ->). destruct chunks as [|c chunks]; [done|].
  apply Forall_cons in Hok as [Hc Hok]. destruct c as [|b' c]; [destruct Hc as [Hc _]; cbn in Hc; lia|].
  cbn in Hp. injection Hp as <- ->. exists c, (concat chunks), (blocks chunks ++ [0]).
  split; [done|]. split; [by exists chunks|]. split; [|done].
  change (blocks ((b :: c) :: chunks)) with (block (b :: c) ++ blocks chunks). unfold block. cbn.
  by rewrite <- app_assoc.
Qed.

(** Only the input and the buffers differ. *)
Definition quiet (p : GifFilePrivateType) : GifFilePrivateType :=
  set_CrntShiftState 0 (set_CrntShiftDWord 0 (set_Buf [] p)).

Definition dec_like (g g' : GifFileType) : Prop :=
  set_In [] (upd_priv quiet g) = set_In [] (upd_priv quiet g').

#[export] Instance dec_like_equiv : Equivalence dec_like.
Proof. unfold dec_like. split; [by intros x|by intros x y|]. intros x y z -> ->. done. Qed.

Lemma wp_put_Buf_at i v (Q : unit -> GifFileType -> Prop) E g buf :
  aset g.(Priv).(Buf) i v = Some buf -> Q tt (upd_priv (set_Buf buf) g) -> wp (set_Buf_at i v) Q E g.
Proof.
  intros Ha HQ. unfold set_Buf_at. do 2 wp_step. apply wp_bind, wp_of_option with (1 := Ha).
  by apply wp_modify.
Qed.

Lemma blit_get {A} (vs : list A) : forall l i,
  0 <= i -> i + Z.of_nat (length vs) <= Z.of_nat (length l) ->
  exists l', blit l i vs = Some l' /\ length l' = length l /\
    (forall j, 0 <= j < i -> aget l' j = aget l j) /\
    (forall j, 0 <= j < Z.of_nat (length vs) -> aget l' (i + j) = aget vs j).
Proof.
  induction vs as [|v vs IH]; intros l i Hi Hle; cbn [blit length] in *.
  - exists l. repeat split; try done. lia.
  - destruct (aset_exists l i v) as (l1 & Ha & Hl1); [lia|]. rewrite Ha.
    destruct (IH l1 (i + 1)) as (l' & -> & Hl' & Hlo & Hhi); [lia|lia|].
    exists l'. split; [done|]. split; [congruence|]. split.
    + intros j Hj. rewrite Hlo by lia. apply (aget_aset_ne _ _ _ _ _ Ha). lia.
    + intros j Hj. destruct (decide (j = 0)) as [->|].
      * rewrite Hlo by lia. by rewrite Z.add_0_r, (aget_aset_eq _ _ _ _ Ha).
      * replace (i + j) with (i + 1 + (j - 1)) by lia. rewrite Hhi by lia.
        rewrite <- (aget_cons v vs (j - 1)) by lia. f_equal. lia.
Qed.

Lemma wp_store i bs (Q : unit -> GifFileType -> Prop) E g :
  0 <= i -> i + Z.of_nat (length bs) <= Z.of_nat (length g.(Priv).(Buf)) ->
  (forall buf, length buf = length g.(Priv).(Buf) ->
     (forall j, 0 <= j < i -> aget buf j = aget g.(Priv).(Buf) j) ->
     (forall j, 0 <= j < Z.of_nat (length bs) -> aget buf (i + j) = aget bs j) ->
     Q tt (upd_priv (set_Buf buf) g)) ->
  wp (store_buf i bs) Q E g.
Proof.
  intros Hi Hle HQ. destruct (blit_get bs g.(Priv).(Buf) i Hi Hle) as (l' & Hb & Hl & Hlo & Hhi).
  unfold store_buf. do 2 wp_step. apply wp_bind, wp_of_option with (1 := Hb). wp_step. by apply HQ.
Qed.

(** The next byte of the image. *)
Lemma wp_BufferedInput b bs rest g E :
  bstream (b :: bs) rest g ->
  wp DGifBufferedInput
    (fun b' g' => b' = b /\ bstream bs rest g' /\ dec_like g g' /\
       g'.(Priv).(CrntShiftState) = g.(Priv).(CrntShiftState) /\
       g'.(Priv).(CrntShiftDWord) = g.(Priv).(CrntShiftDWord)) E g.
Proof.
  intros (cur & later & encoded & Hb & (Hl & Hc0 & Hcur) & Hbc & Hfr & Hin).
  unfold DGifBufferedInput. do 2 wp_step. apply wp_bind, wp_of_option with (1 := Hc0).
  destruct cur as [|b' cur].
  - cbn in Hb. subst later. apply framed_cons in Hfr as (c & later & encoded' & -> & Hfr & -> & [Hcl Hcb]).
    cbn [length] in *. change (Z.of_nat 0 =? 0) with true. cbv iota.
    apply wp_bind, wp_READ. rewrite Hin. change (Z.to_nat 1) with 1%nat. cbn [take drop app].
    apply wp_bind, wp_store; [lia|cbn [length Priv set_In]; lia|]. intros b1 Hl1 _ _.
    apply wp_bind. cbn [length]. change (Z.of_nat 1 =? 1) with true. cbv iota.
    apply wp_ret, wp_bind, wp_of_option with (1 := eq_refl), wp_bind.
    destruct (Z.eqb_spec (Z.of_nat (S (length c))) 0); [lia|].
    apply wp_ret, wp_bind, wp_READ. cbn [In set_In upd_priv set_Priv]. rewrite Nat2Z.id.
    change (take (S (length c)) (b :: (c ++ encoded') ++ rest)) with (b :: take (length c) ((c ++ encoded') ++ rest)).
    change (drop (S (length c)) (b :: (c ++ encoded') ++ rest)) with (drop (length c) ((c ++ encoded') ++ rest)).
    rewrite <- app_assoc, take_app_length, drop_app_length.
    apply wp_bind, wp_store; [lia|cbn in *; lia|]. intros b2 Hl2 _ Hb2.
    cbn [length] in *. rewrite Z.eqb_refl. apply wp_bind, wp_ret. do 2 wp_step.
    cbn [Priv set_In upd_priv set_Priv Buf set_Buf] in *.
    assert (aget b2 1 = Some b) as Hb21 by (apply (Hb2 0); lia).
    apply wp_bind, wp_of_option with (1 := Hb21).
    destruct (aset_exists b2 1 2) as (b3 & Hb3 & Hl3); [lia|].
    apply wp_bind. eapply wp_put_Buf_at; [exact Hb3|].
    destruct (aset_exists b3 0 (Z.of_nat (S (length c)) - 1)) as (b4 & Hb4 & Hl4); [lia|].
    apply wp_bind. eapply wp_put_Buf_at; [exact Hb4|]. apply wp_ret. split; [done|]. split; [|done].
    apply Forall_cons in Hcb as [_ Hcb].
    exists c, later, encoded'. split; [done|]. split; [|done]. split; [cbn; congruence|]. cbn.
    split; [rewrite (aget_aset_eq _ _ _ _ Hb4); f_equal; lia|]. intros _. exists 2.
    rewrite (aget_aset_ne _ _ _ _ _ Hb4), (aget_aset_eq _ _ _ _ Hb3) by lia.
    do 3 (split; [lia || done|]). intros j Hj.
    rewrite (aget_aset_ne _ _ _ _ _ Hb4), (aget_aset_ne _ _ _ _ _ Hb3) by lia.
    replace (2 + j) with (1 + (j + 1)) by lia. rewrite Hb2 by lia. apply aget_cons. lia.
  - injection Hb as <- ->. destruct Hcur as (k & Hk & Hk2 & Hkl & Hkc); [done|]. cbn [length] in *.
    destruct (Z.eqb_spec (Z.of_nat (S (length cur))) 0); [lia|].
    apply wp_bind, wp_of_option with (1 := Hk).
    assert (aget g.(Priv).(Buf) k = Some b) as Hkb.
    { rewrite <- (Z.add_0_r k), Hkc by lia. done. }
    apply wp_bind, wp_of_option with (1 := Hkb).
    destruct (aset_exists g.(Priv).(Buf) 1 (u8 (k + 1))) as (b1 & Hb1 & Hl1); [lia|].
    apply wp_bind. eapply wp_put_Buf_at; [exact Hb1|]. do 2 wp_step. cbn [Priv upd_priv set_Priv Buf set_Buf].
    apply wp_bind, wp_of_option with (a := Z.of_nat (S (length cur))).
    { by rewrite (aget_aset_ne _ _ _ _ _ Hb1) by lia. }
    destruct (aset_exists b1 0 (u8 (Z.of_nat (S (length cur)) - 1))) as (b2 & Hb2 & Hl2); [lia|].
    apply wp_bind. eapply wp_put_Buf_at; [exact Hb2|]. apply wp_ret. split; [done|]. split; [|done].
    apply Forall_cons in Hbc as [_ Hbc].
    exists cur, later, encoded. split; [done|]. split; [|done]. split; [cbn; congruence|]. cbn.
    split.
    { rewrite (aget_aset_eq _ _ _ _ Hb2), u8_small by lia. f_equal. lia. }
    intros Hne. exists (k + 1). assert (0 < Z.of_nat (length cur)) by (destruct cur; [done|cbn; lia]).
    rewrite (aget_aset_ne _ _ _ _ _ Hb2), (aget_aset_eq _ _ _ _ Hb1), u8_small by lia.
    do 3 (split; [lia || done|]). intros j Hj.
    rewrite (aget_aset_ne _ _ _ _ _ Hb2), (aget_aset_ne _ _ _ _ _ Hb1) by lia.
    replace (k + 1 + j) with (k + (j + 1)) by lia. rewrite Hkc by lia. apply aget_cons. lia.
Qed.

(** ** The bit buffer *)

(** The codes still to come, followed by anything. *)
Definition dbits (cs : list (Z * Z)) (rest : list Z) (g : GifFileType) : Prop :=
  Forall code_fits cs /\
  exists bytes, bstream bytes rest g /\
    0 <= g.(Priv).(CrntShiftState) < 20 /\
    0 <= g.(Priv).(CrntShiftDWord) < 2 ^ g.(Priv).(CrntShiftState) /\
    (exists tail, g.(Priv).(CrntShiftDWord) + 2 ^ g.(Priv).(CrntShiftState) * bytes_val bytes = codes_val cs + 2 ^ codes_bits cs * tail) /\
    codes_bits cs <= g.(Priv).(CrntShiftState) + 8 * Z.of_nat (length bytes).

Lemma bstream_bytes bytes rest g : bstream bytes rest g -> Forall byte bytes.
Proof.
  intros (cur & later & encoded & -> & _ & Hc & Hf & _). apply Forall_app. split; [done|].
  by eapply framed_bytes.
Qed.

(** A field outside the buffers. *)
Lemma dec_like_priv {A} (f : GifFilePrivateType -> A) g g' :
  dec_like g g' -> (forall p, f (quiet p) = f p) -> f g'.(Priv) = f g.(Priv).
Proof.
  intros H Hf. unfold dec_like in H. apply (f_equal (fun g => f g.(Priv))) in H.
  change (f (quiet g.(Priv)) = f (quiet g'.(Priv))) in H. by rewrite !Hf in H.
Qed.

Lemma dec_like_upd f g g' :
  dec_like g g' -> (forall p, quiet (f p) = f (quiet p)) -> dec_like (upd_priv f g) (upd_priv f g').
Proof.
  intros H Hf. unfold dec_like.
  assert (forall g, set_In [] (upd_priv quiet (upd_priv f g)) = upd_priv f (set_In [] (upd_priv quiet g))) as Hc.
  { intros g0. unfold upd_priv, set_Priv, set_In. cbn. f_equal. apply Hf. }
  by rewrite !Hc, H.
Qed.

Lemma wp_fill_shift c w cs rest g E :
  dbits ((c, w) :: cs) rest g -> g.(Priv).(RunningBits) = w ->
  wp (loop 14 fill_shift tt)
    (fun _ g' => dbits ((c, w) :: cs) rest g' /\ dec_like g g' /\ w <= g'.(Priv).(CrntShiftState)) E g.
Proof.
  intros Hd Hw.
  apply (wp_loop (fun n _ g' => dbits ((c, w) :: cs) rest g' /\ dec_like g g' /\
           n = Z.to_nat (w - g'.(Priv).(CrntShiftState)))) with (n := Z.to_nat (w - g.(Priv).(CrntShiftState))).
  - intros n [] g1 (Hd1 & Hl1 & ->). unfold fill_shift. do 2 wp_step.
    assert (RunningBits (Priv g1) = w) as Hw1 by (by rewrite (dec_like_priv RunningBits g g1)).
    rewrite Hw1. destruct (Z.ltb_spec (CrntShiftState (Priv g1)) w) as [Hlt|Hge]; [|by apply wp_ret].
    destruct Hd1 as (Hfit & bytes & Hbs & Hst & Hdw & [tail Hval] & Hbits).
    pose proof Hfit as [[_ Hw12] Hfit']%Forall_cons. cbn in Hw12. pose proof (codes_bits_nonneg cs Hfit').
    destruct bytes as [|b bytes]; [cbn in Hbits; lia|].
    pose proof (bstream_bytes _ _ _ Hbs) as [Hb _]%Forall_cons.
    apply wp_bind. eapply wp_mono; [by apply wp_BufferedInput| |done].
    intros b' g2 (-> & Hbs2 & Hl2 & Est & Edw). apply wp_bind, wp_modify, wp_ret.
    set (st := CrntShiftState (Priv g1)) in *. set (d := CrntShiftDWord (Priv g1)) in *.
    assert (2 ^ st <= 2 ^ 12) as Hp by (apply Z.pow_le_mono_r; lia). change (2 ^ 12) with 4096 in Hp.
    assert (0 < 2 ^ st) by (apply Z.pow_pos_nonneg; lia). unfold byte in Hb.
    assert (u32 (Z.shiftl b st) = Z.shiftl b st) as Hu.
    { rewrite u32_small; [done|]. rewrite Z.shiftl_mul_pow2 by lia. nia. }
    eexists. split; [|split; [|split; [etrans; [exact Hl1|]; etrans; [exact Hl2|]; done|reflexivity]]].
    { cbn. rewrite Est. lia. }
    split; [done|]. exists bytes. split; [exact Hbs2|]. cbn. rewrite Est, Edw, Hu, lor_shiftl by lia.
    rewrite Z.pow_add_r by lia. change (2 ^ 8) with 256. split; [lia|]. split; [split; nia|].
    cbn [bytes_val length] in Hval, Hbits |- *. split; [exists tail|cbn [codes_bits] in *; lia]. cbn [codes_val codes_bits] in Hval. rewrite <- Hval. lia.
  - done.
  - destruct Hd as (Hfit & _ & _ & Hst & _). apply Forall_cons in Hfit as [[_ Hw12] _]. cbn in Hw12. lia.
Qed.

Lemma CodeMasks_get w : 0 <= w <= 12 -> aget CodeMasks w = Some (2 ^ w - 1).
Proof.
  intros Hw. assert (w = 0 \/ w = 1 \/ w = 2 \/ w = 3 \/ w = 4 \/ w = 5 \/ w = 6 \/ w = 7 \/ w = 8 \/
    w = 9 \/ w = 10 \/ w = 11 \/ w = 12) as H by lia.
  by repeat destruct H as [->|H]; subst.
Qed.

(** The running code and width after a code is read. *)
Definition advance (p : GifFilePrivateType) : GifFilePrivateType :=
  if p.(RunningCode) <? LZ_MAX_CODE + 2 then
    if (p.(MaxCode1) <? p.(RunningCode) + 1) && (p.(RunningBits) <? LZ_BITS) then
      set_RunningBits (p.(RunningBits) + 1)
        (set_MaxCode1 (Z.shiftl p.(MaxCode1) 1) (set_RunningCode (p.(RunningCode) + 1) p))
    else set_RunningCode (p.(RunningCode) + 1) p
  else p.

Lemma wp_DecompressInput c w cs rest g E :
  dbits ((c, w) :: cs) rest g -> g.(Priv).(RunningBits) = w ->
  wp DGifDecompressInput
    (fun c' g' => c' = c /\ dbits cs rest g' /\ dec_like (upd_priv advance g) g') E g.
Proof.
  intros Hd Hw. pose proof Hd as ([[Hcw Hw12] Hfit]%Forall_cons & _). cbn [fst snd] in Hcw, Hw12.
  unfold DGifDecompressInput. do 2 wp_step. rewrite Hw.
  destruct (Z.ltb_spec LZ_BITS w) as [Hlt|_]; [unfold LZ_BITS in Hlt; lia|].
  apply wp_bind. eapply wp_mono; [by apply (wp_fill_shift c w cs rest)| |done].
  intros _ g1 ((_ & bytes & Hbs & Hst & Hdw & [tail Hval] & Hbits) & Hl1 & Hge). do 2 wp_step.
  rewrite (dec_like_priv RunningBits g g1 Hl1), Hw by done.
  apply wp_bind, wp_of_option with (1 := CodeMasks_get w ltac:(lia)). do 4 wp_step.
  set (st := CrntShiftState (Priv g1)) in *. set (d := CrntShiftDWord (Priv g1)) in *.
  assert (0 < 2 ^ w) by (apply Z.pow_pos_nonneg; lia).
  assert (2 ^ st = 2 ^ w * 2 ^ (st - w)) as Hpow by (rewrite <- Z.pow_add_r by lia; f_equal; lia).
  assert (0 < 2 ^ (st - w)) by (apply Z.pow_pos_nonneg; lia).
  pose proof (codes_bits_nonneg cs Hfit). cbn [codes_val codes_bits] in Hval, Hbits. rewrite Z.pow_add_r in Hval by lia. rewrite Hpow in Hval, Hdw.
  set (V := codes_val cs + 2 ^ codes_bits cs * tail) in *.
  assert (d = c + 2 ^ w * (V - 2 ^ (st - w) * bytes_val bytes)) as Hd1 by lia.
  assert (d mod 2 ^ w = c /\ d / 2 ^ w = V - 2 ^ (st - w) * bytes_val bytes) as [Hmod Hdiv].
  { rewrite Hd1. rewrite (Z.mul_comm (2 ^ w)), Z.mod_add, Z.div_add, Z.mod_small, Z.div_small by lia. lia. }
  assert (Z.land d (2 ^ w - 1) = c) as ->.
  { rewrite <- Hmod, <- Z.land_ones by lia. f_equal. rewrite Z.ones_equiv. lia. }
  set (g2 := upd_priv _ g1).
  assert (dbits cs rest g2) as Hd2.
  { split; [done|]. exists bytes. split; [exact Hbs|]. cbn.
    rewrite (dec_like_priv RunningBits g g1 Hl1), Hw by done. fold st d.
    rewrite Z.shiftr_div_pow2, Hdiv by lia. split; [lia|].
    split; [rewrite <- Hdiv; split; [apply Z.div_pos; lia|apply Z.div_lt_upper_bound; lia]|].
    split; [exists tail; fold V; lia|lia]. }
  assert (dec_like g g2) as Hl2 by (etrans; [exact Hl1|done]).
  assert (forall f, (forall p, quiet (f p) = f (quiet p)) -> f g.(Priv) = advance g.(Priv) ->
    dbits cs rest (upd_priv f g2) -> c = c /\ dbits cs rest (upd_priv f g2) /\
      dec_like (upd_priv advance g) (upd_priv f g2)) as Hend.
  { intros f Hf Hadv Hdf. split; [done|]. split; [done|].
    transitivity (upd_priv f g); [|by apply dec_like_upd]. unfold upd_priv. by rewrite Hadv. }
  assert (RunningCode (Priv g2) = RunningCode (Priv g)) as Erc by (by apply (dec_like_priv RunningCode g g2)).
  assert (MaxCode1 (Priv g2) = MaxCode1 (Priv g)) as Emx by (by apply (dec_like_priv MaxCode1 g g2)).
  assert (RunningBits (Priv g2) = RunningBits (Priv g)) as Erb by (by apply (dec_like_priv RunningBits g g2)).
  rewrite Erc, Emx, Erb. apply wp_bind.
  destruct (RunningCode (Priv g) <? LZ_MAX_CODE + 2) eqn:E1.
  - do 2 wp_step.
    destruct ((MaxCode1 (Priv g) <? RunningCode (Priv g) + 1) && (RunningBits (Priv g) <? LZ_BITS)) eqn:E2.
    + apply wp_modify, wp_ret.
      apply (Hend (fun p => set_RunningBits (p.(RunningBits) + 1)
        (set_MaxCode1 (Z.shiftl p.(MaxCode1) 1) (set_RunningCode (RunningCode (Priv g) + 1) p)))); [done| |exact Hd2].
      unfold advance. by rewrite E1, E2.
    + apply wp_ret, wp_ret. apply (Hend (set_RunningCode (RunningCode (Priv g) + 1))); [done| |exact Hd2].
      unfold advance. by rewrite E1, E2.
  - apply wp_ret, wp_ret. split; [done|]. split; [done|].
    replace (upd_priv advance g) with g; [done|]. unfold upd_priv, advance. rewrite E1. by destruct g.
Qed.

(** ** The tables *)

(** The first [m] entries of [tbl] are in the decoder's tables, and no
    others. *)
Record dec_entries (clear : Z) (tbl : list entry) (m : nat) (p : GifFilePrivateType) : Prop := {
  de_prefix_len : Z.of_nat (length p.(Prefix)) = LZ_MAX_CODE + 1;
  de_suffix_len : Z.of_nat (length p.(Suffix)) = LZ_MAX_CODE + 1;
  de_stack_len : Z.of_nat (length p.(Stack)) = LZ_MAX_CODE;
  de_entry : forall i e, (i < m)%nat -> tbl !! i = Some e ->
    aget p.(Prefix) (code_of clear i) = Some e.1 /\ aget p.(Suffix) (code_of clear i) = Some e.2;
  de_free : forall i, (m <= i)%nat -> code_of clear i <= LZ_MAX_CODE ->
    aget p.(Prefix) (code_of clear i) = Some NO_SUCH_CODE
}.

(** The pixels [pend] wait on the stack, the first one on top. *)
Definition stacked (st : list Z) (sp : Z) (pend : list Z) : Prop :=
  sp = Z.of_nat (length pend) /\ take (length pend) st = rev pend.

Lemma stacked_push st sp pend x st' :
  stacked st sp pend -> aset st sp x = Some st' -> stacked st' (sp + 1) (x :: pend).
Proof.
  intros [-> Ht] (Hr & ->)%aset_inv. rewrite Nat2Z.id. split; [cbn [length]; lia|].
  cbn [length rev]. rewrite <- Ht.
  rewrite (take_S_r _ _ x) by (apply list_lookup_insert_eq; lia).
  by rewrite take_insert_ge by lia.
Qed.

Lemma pop_stacked st : forall pend room,
  take (length pend) st = rev pend ->
  pop_stack (length pend) room st =
    Some (take (Z.to_nat room) pend, Z.of_nat (length (drop (Z.to_nat room) pend))).
Proof.
  induction pend as [|x pend IH]; intros room Ht; cbn [length pop_stack].
  - by rewrite take_nil, drop_nil.
  - destruct (Z.leb_spec room 0).
    + by replace (Z.to_nat room) with 0%nat by lia.
    + cbn [length rev] in Ht.
      assert (st !! length pend = Some x) as Hx.
      { assert (take (S (length pend)) st !! length pend = Some x) as H'.
        { rewrite Ht. apply list_lookup_middle. by rewrite length_rev. }
        by rewrite lookup_take_lt in H' by lia. }
      rewrite (take_S_r _ _ x) in Ht by done. apply app_inj_tail in Ht as [Ht _].
      unfold aget. rewrite decide_True by lia. rewrite Nat2Z.id, Hx, (IH (room - 1) Ht).
      by replace (Z.to_nat room) with (S (Z.to_nat (room - 1))) by lia.
Qed.

Lemma stacked_drop st sp pend n :
  stacked st sp pend -> stacked st (Z.of_nat (length (drop n pend))) (drop n pend).
Proof.
  intros [_ Ht]. split; [done|]. rewrite length_drop.
  rewrite <- (take_drop n pend) in Ht at 2. rewrite rev_app_distr in Ht.
  apply (f_equal (take (length pend - n))) in Ht. rewrite take_take in Ht.
  rewrite Nat.min_l in Ht by lia. rewrite Ht.
  apply take_app_length'. rewrite length_rev, length_drop. done.
Qed.

(** The string of a code, its last pixel first. *)
Lemma expand_unfold clear tbl c :
  0 <= clear -> tbl_wf clear tbl -> valid clear (length tbl) c ->
  (c < clear /\ expand clear tbl c = [c]) \/
  exists i e, (i < length tbl)%nat /\ c = code_of clear i /\ tbl !! i = Some e /\
    valid clear i e.1 /\ expand clear tbl c = expand clear tbl e.1 ++ [e.2].
Proof.
  intros Hc Hwf Hv. destruct (valid_cases clear _ _ Hc Hv) as [Hlt|(i & Hi & ->)].
  - left. split; [done|]. by apply expand_pixel.
  - right. destruct (lookup_lt_is_Some_2 tbl i Hi) as [e He]. exists i, e.
    split; [done|]. split; [done|]. split; [done|]. split; [by apply (Hwf i e)|].
    by apply expand_entry.
Qed.

Lemma get_prefix_char_expand clear tbl m prefix n : forall c,
  4 <= clear -> tbl_wf clear tbl -> (m <= length tbl)%nat -> clear + 2 + Z.of_nat (length tbl) <= LZ_MAX_CODE + 1 ->
  (forall i e, (i < m)%nat -> tbl !! i = Some e -> aget prefix (code_of clear i) = Some e.1) ->
  valid clear m c -> (length (expand clear tbl c) <= n)%nat ->
  get_prefix_char n prefix c clear = hd_error (expand clear tbl c).
Proof.
  induction n as [|n IH]; intros c Hc Hwf Hm Hmax Hde Hv Hn.
  - destruct (expand clear tbl c) eqn:E; [|cbn in Hn; lia].
    exfalso. eapply (expand_nonempty clear tbl c); [lia|done|by eapply valid_mono|done].
  - cbn [get_prefix_char].
    destruct (expand_unfold clear tbl c) as [[Hlt He]|(i & e & Hi & -> & Hl & Hve & He)];
      [lia|done|by eapply valid_mono| |].
    + destruct (Z.leb_spec c clear); [by rewrite He|lia].
    + assert (i < m)%nat as Him by (destruct Hv as [Hv|Hv]; unfold code_of in Hv; lia).
      unfold code_of in *. unfold LZ_MAX_CODE in *.
      destruct (Z.leb_spec (clear + 2 + Z.of_nat i) clear); [lia|].
      destruct (Z.ltb_spec 4095 (clear + 2 + Z.of_nat i)); [lia|].
      pose proof (Hde i e Him Hl) as Hp. unfold code_of in Hp. rewrite Hp.
      rewrite He in Hn |- *. rewrite length_app in Hn. cbn [length] in Hn.
      assert (valid clear (length tbl) e.1) as Hv1 by (eapply valid_mono; [done|lia]).
      rewrite (IH e.1 Hc Hwf Hm Hmax Hde); [|eapply (valid_mono clear i); [exact Hve|lia]|lia].
      pose proof (expand_nonempty clear tbl e.1 ltac:(lia) Hwf Hv1).
      by destruct (expand clear tbl e.1).
Qed.

(** Only the stack and the suffix of the entry that is being made differ:
    what the expansion of a code does. *)
Definition put_tables (st su : list Z) (g : GifFileType) : GifFileType :=
  upd_priv (fun p => set_Stack st (set_Suffix su p)) g.

Definition stack_only (g g' : GifFileType) : Prop :=
  exists st, length st = length g.(Priv).(Stack) /\ g' = put_tables st g.(Priv).(Suffix) g.

#[export] Instance stack_only_preorder : PreOrder stack_only.
Proof.
  split.
  - intros g. exists g.(Priv).(Stack). split; [done|].
    by destruct g as [? ? ? ? ? ? ? ? ? ? ? ? [] ? ? ? ?].
  - intros x y z (s1 & H1 & ->) (s2 & H2 & ->). exists s2. split; [by rewrite H2|done].
Qed.

Lemma stack_only_entries clear tbl m g g' :
  stack_only g g' -> dec_entries clear tbl m g.(Priv) -> dec_entries clear tbl m g'.(Priv).
Proof. intros (st & Hl & ->) []. split; try done. cbn. by rewrite Hl. Qed.

Lemma wp_push x sp pend g (Q : unit -> GifFileType -> Prop) E :
  Z.of_nat (length g.(Priv).(Stack)) = LZ_MAX_CODE -> stacked g.(Priv).(Stack) sp pend ->
  sp < LZ_MAX_CODE -> 0 <= x < 256 ->
  (forall g', stack_only g g' -> stacked g'.(Priv).(Stack) (sp + 1) (x :: pend) -> Q tt g') ->
  wp (set_Stack_at sp x) Q E g.
Proof.
  intros Hl Hst Hlt Hx HQ. pose proof Hst as [Hsp _].
  destruct (aset_exists g.(Priv).(Stack) sp x) as (st & Ha & Hl'); [lia|].
  unfold set_Stack_at. do 2 wp_step. rewrite u8_small by done.
  apply wp_bind, wp_of_option with (1 := Ha), wp_modify, HQ.
  - exists st. split; [done|]. by destruct g as [? ? ? ? ? ? ? ? ? ? ? ? [] ? ? ? ?].
  - by eapply stacked_push.
Qed.

Lemma wp_trace clear tbl m E fuel : forall c sp pend g (Q : Z * Z -> GifFileType -> Prop),
  4 <= clear <= 256 -> tbl_wf clear tbl -> (m <= length tbl)%nat ->
  clear + 2 + Z.of_nat (length tbl) <= LZ_MAX_CODE + 1 ->
  dec_entries clear tbl m g.(Priv) -> valid clear m c -> stacked g.(Priv).(Stack) sp pend ->
  sp + Z.of_nat (length (expand clear tbl c)) <= LZ_MAX_CODE ->
  (length (expand clear tbl c) <= fuel)%nat ->
  (forall x l g', expand clear tbl c ++ pend = x :: l -> 0 <= x < clear ->
     stack_only g g' -> stacked g'.(Priv).(Stack) (Z.of_nat (length l)) l -> Q (Z.of_nat (length l), x) g') ->
  wp (loop fuel (trace_prefix clear) (sp, c)) Q E g.
Proof.
  induction fuel as [|fuel IH]; intros c sp pend g Q Hc Hwf Hm Hmax Hde Hv Hst Hsp Hf HQ.
  { destruct (expand clear tbl c) eqn:E1; [|cbn in Hf; lia].
    exfalso. eapply (expand_nonempty clear tbl c); [lia|done|by eapply valid_mono|done]. }
  cbn [loop]. apply wp_bind. unfold trace_prefix.
  destruct (expand_unfold clear tbl c) as [[Hlt He]|(i & e & Hi & -> & Hl & Hve & He)];
    [lia|done|by eapply valid_mono| |].
  - destruct (Z.ltb_spec clear c); [lia|]. rewrite andb_false_r. cbn [andb]. apply wp_ret, wp_ret.
    pose proof Hst as [-> _]. eapply HQ; [by rewrite He| | |done]; [destruct Hv; lia|done].
  - assert (i < m)%nat as Him by (destruct Hv as [Hv|Hv]; unfold code_of in Hv; lia).
    destruct (Hwf i e Hl) as [_ He2].
    assert (valid clear (length tbl) e.1) as Hv1 by (eapply valid_mono; [done|lia]).
    destruct (de_entry _ _ _ _ Hde i e Him Hl) as [Hp Hs].
    assert (0 < Z.of_nat (length (expand clear tbl e.1))) as Hpos.
    { pose proof (expand_length clear tbl e.1 ltac:(lia) Hwf Hv1). lia. }
    rewrite He, length_app in Hsp. rewrite He, length_app in Hf. cbn [length] in Hsp, Hf.
    assert ((sp <? LZ_MAX_CODE) && (clear <? code_of clear i) && (code_of clear i <=? LZ_MAX_CODE) = true) as ->.
    { unfold code_of. rewrite !andb_true_iff, !Z.ltb_lt, Z.leb_le. lia. }
    do 2 wp_step. apply wp_bind, wp_of_option with (1 := Hs).
    apply wp_bind. eapply wp_push; [by destruct Hde|exact Hst|lia|lia|]. intros g1 Hso Hst1.
    apply wp_bind, wp_of_option with (1 := Hp), wp_ret.
    apply (IH e.1 (sp + 1) (e.2 :: pend) g1); try done.
    + by eapply stack_only_entries.
    + eapply (valid_mono clear i); [done|lia].
    + lia.
    + lia.
    + intros x l g' Hx Hr Hso' Hst'. eapply HQ; [|done|by etrans; [exact Hso|]|done].
      rewrite He, <- app_assoc. done.
Qed.

Lemma wp_push_trace clear tbl m c sp pend g (Q : Z -> GifFileType -> Prop) E :
  4 <= clear <= 256 -> tbl_wf clear tbl -> (m <= length tbl)%nat ->
  clear + 2 + Z.of_nat (length tbl) <= LZ_MAX_CODE + 1 ->
  dec_entries clear tbl m g.(Priv) -> valid clear m c -> stacked g.(Priv).(Stack) sp pend ->
  sp + Z.of_nat (length (expand clear tbl c)) <= LZ_MAX_CODE ->
  (forall g', stack_only g g' ->
     stacked g'.(Priv).(Stack) (Z.of_nat (length (expand clear tbl c ++ pend))) (expand clear tbl c ++ pend) ->
     Q (Z.of_nat (length (expand clear tbl c ++ pend))) g') ->
  wp (push_trace clear (sp, c)) Q E g.
Proof.
  intros Hc Hwf Hm Hmax Hde Hv Hst Hsp HQ. unfold push_trace. apply wp_bind.
  assert (0 <= sp) as Hsp0 by (destruct Hst as [-> _]; lia).
  eapply wp_trace; try done; [unfold LZ_MAX_CODE in *; lia|].
  intros x l g1 Hx Hr Hso Hst1.
  assert (Z.of_nat (length l) + 1 = sp + Z.of_nat (length (expand clear tbl c))) as Hlen.
  { pose proof (f_equal length Hx) as Hlx. rewrite length_app in Hlx. cbn [length] in Hlx.
    destruct Hst as [-> _]. lia. }
  assert ((LZ_MAX_CODE <=? Z.of_nat (length l)) || (LZ_MAX_CODE <? x) = false) as ->.
  { rewrite orb_false_iff, Z.leb_gt, Z.ltb_ge. unfold LZ_MAX_CODE in *. lia. }
  apply wp_bind. eapply wp_push; [|exact Hst1|lia|lia|].
  { apply (stack_only_entries clear tbl m g g1 Hso) in Hde. by destruct Hde. }
  intros g2 Hso2 Hst2. apply wp_ret. rewrite Hx in HQ. cbn [length] in HQ.
  replace (Z.of_nat (length l) + 1) with (Z.of_nat (S (length l))) in * by lia.
  apply HQ; [by etrans|done].
Qed.

(** ** Codes *)

(** What decoding leaves alone. *)
Definition frame (g : GifFileType) :=
  (set_In [] (set_Priv zero_private g),
   (g.(Priv).(FileState), g.(Priv).(PixelCount), gif89 g.(Priv),
    (g.(Priv).(ClearCode), g.(Priv).(EOFCode), g.(Priv).(BitsPerPixel)))).

Lemma frame_upd f g :
  (forall p, ((f p).(FileState), (f p).(PixelCount), gif89 (f p),
              ((f p).(ClearCode), (f p).(EOFCode), (f p).(BitsPerPixel))) =
             (p.(FileState), p.(PixelCount), gif89 p, (p.(ClearCode), p.(EOFCode), p.(BitsPerPixel)))) ->
  frame (upd_priv f g) = frame g.
Proof. intros Hf. unfold frame. f_equal. apply Hf. Qed.

Lemma frame_like g g' : dec_like g g' -> frame g' = frame g.
Proof.
  intros H. unfold frame. f_equal.
  - unfold dec_like in H. apply (f_equal (set_Priv zero_private)) in H. symmetry. exact H.
  - by rewrite (dec_like_priv FileState g g'), (dec_like_priv PixelCount g g'), (dec_like_priv gif89 g g'),
      (dec_like_priv ClearCode g g'), (dec_like_priv EOFCode g g'), (dec_like_priv BitsPerPixel g g').
Qed.

Lemma frame_codes g g' :
  frame g' = frame g ->
  g'.(Priv).(ClearCode) = g.(Priv).(ClearCode) /\ g'.(Priv).(EOFCode) = g.(Priv).(EOFCode) /\
  g'.(Priv).(BitsPerPixel) = g.(Priv).(BitsPerPixel) /\ g'.(Priv).(PixelCount) = g.(Priv).(PixelCount) /\
  g'.(Priv).(FileState) = g.(Priv).(FileState).
Proof. intros H. apply (f_equal snd) in H. cbn in H. by injection H as ? ? ? ? ? ?. Qed.

(** The parameters of the image. *)
Definition dec_params (p : GifFilePrivateType) : Prop :=
  2 <= p.(BitsPerPixel) <= 8 /\ p.(ClearCode) = 2 ^ p.(BitsPerPixel) /\ p.(EOFCode) = p.(ClearCode) + 1.

Lemma dec_params_clear p : dec_params p -> 4 <= p.(ClearCode) <= 256.
Proof.
  intros (Hb & -> & _). split.
  - change 4 with (2 ^ 2). apply Z.pow_le_mono_r; lia.
  - change 256 with (2 ^ 8). apply Z.pow_le_mono_r; lia.
Qed.

(** The decoder between two codes, when the compressor has the table [tbl] and
    has read the string of [cur]. *)
Record dec_table (tbl : list entry) (cur last : Z) (p : GifFilePrivateType) : Prop := {
  dt_params : dec_params p;
  dt_rcode : p.(RunningCode) = code_of p.(ClearCode) (length tbl);
  dt_full : p.(ClearCode) + 2 + Z.of_nat (length tbl) <= LZ_MAX_CODE + 1;
  dt_rbits : p.(RunningBits) = width p.(ClearCode) (length tbl);
  dt_max : p.(MaxCode1) = 2 ^ width p.(ClearCode) (length tbl);
  dt_wf : tbl_wf p.(ClearCode) tbl;
  dt_cur : valid p.(ClearCode) (length tbl) cur;
  dt_entries : dec_entries p.(ClearCode) tbl (pred (length tbl)) p;
  dt_last : match list.last tbl with
            | None => last = NO_SUCH_CODE
            | Some e => last = e.1 /\ hd_error (expand p.(ClearCode) tbl cur) = Some e.2
            end
}.

(** Reading a code moves the decoder on as sending it moves the compressor. *)
Lemma advance_table tbl cur last p :
  dec_table tbl cur last p ->
  (advance p).(RunningCode) = p.(ClearCode) + 3 + Z.of_nat (length tbl) /\
  (advance p).(RunningBits) = width p.(ClearCode) (S (length tbl)) /\
  (advance p).(MaxCode1) = 2 ^ width p.(ClearCode) (S (length tbl)).
Proof.
  intros [Hpar Hrc Hfull Hrb Hmax _ _ _ _]. pose proof (dec_params_clear _ Hpar) as Hc.
  unfold code_of in Hrc. unfold LZ_MAX_CODE in Hfull.
  pose proof (width_succ p.(ClearCode) (length tbl) ltac:(lia) ltac:(lia)) as Hw.
  unfold advance. destruct (Z.ltb_spec (RunningCode p) (LZ_MAX_CODE + 2)) as [_|Hn]; [|unfold LZ_MAX_CODE in Hn; lia].
  pose proof (width_range (ClearCode p) (length tbl)) as Hw0.
  assert ((MaxCode1 p <? RunningCode p + 1) && (RunningBits p <? LZ_BITS) =
    (2 ^ width (ClearCode p) (length tbl) <=? ClearCode p + 2 + Z.of_nat (length tbl)) && (width (ClearCode p) (length tbl) <? LZ_BITS)) as ->.
  { rewrite Hmax, Hrc, Hrb. f_equal. apply eq_true_iff_eq. rewrite Z.ltb_lt, Z.leb_le. lia. }
  rewrite Hw. destruct (_ && _); cbn; rewrite Hrc, Hrb, Hmax.
  - split; [lia|]. split; [done|]. rewrite Z.shiftl_mul_pow2, Z.pow_add_r by lia. done.
  - split; [lia|done].
Qed.

(** The state after a code has been read and before it is expanded. *)
Record dec_read (tbl : list entry) (c last : Z) (p : GifFilePrivateType) : Prop := {
  dr_params : dec_params p;
  dr_rcode : p.(RunningCode) - 2 = p.(ClearCode) + 1 + Z.of_nat (length tbl);
  dr_full : p.(ClearCode) + 2 + Z.of_nat (length tbl) <= LZ_MAX_CODE + 1;
  dr_wf : tbl_wf p.(ClearCode) tbl;
  dr_code : valid p.(ClearCode) (length tbl) c;
  dr_entries : dec_entries p.(ClearCode) tbl (pred (length tbl)) p;
  dr_last : match list.last tbl with
            | None => last = NO_SUCH_CODE
            | Some e => last = e.1 /\ hd_error (expand p.(ClearCode) tbl c) = Some e.2
            end
}.

Lemma last_lookup_pred {A} (l : list A) e : list.last l = Some e -> l !! pred (length l) = Some e.
Proof. by rewrite last_lookup. Qed.

Lemma hd_error_app {A} (a b : list A) : a <> [] -> hd_error (a ++ b) = hd_error a.
Proof. by destruct a. Qed.

(** The newest entry: its prefix is the last code, its string repeats the
    first pixel of that code at the end. *)
Lemma newest_entry tbl c last p :
  dec_read tbl c last p -> p.(ClearCode) <= c -> c = code_of p.(ClearCode) (pred (length tbl)) -> tbl <> [] ->
  exists x, hd_error (expand p.(ClearCode) tbl last) = Some x /\ valid p.(ClearCode) (pred (length tbl)) last /\
    expand p.(ClearCode) tbl c = expand p.(ClearCode) tbl last ++ [x] /\ 0 <= x < p.(ClearCode).
Proof.
  intros [Hpar _ _ Hwf Hv _ Hlast] Hc -> Hne. pose proof (dec_params_clear _ Hpar) as Hcl.
  destruct (list.last tbl) as [e|] eqn:El; [|by apply last_None in El].
  destruct Hlast as [-> Hhd]. pose proof (last_lookup_pred _ _ El) as Hl.
  destruct (Hwf _ _ Hl) as [Hve He2].
  pose proof (expand_entry _ _ _ _ Hwf Hl) as Hx. rewrite Hx in Hhd |- *.
  assert (valid (ClearCode p) (length tbl) e.1) as Hv1 by (eapply valid_mono; [done|lia]).
  rewrite hd_error_app in Hhd by (apply expand_nonempty; [lia|done|done]).
  by exists e.2.
Qed.

(** The expansion of a code that is not a pixel. *)
Definition expanded (g : GifFileType) (m : nat) (g' : GifFileType) : Prop :=
  exists st su, g' = put_tables st su g /\ length st = length g.(Priv).(Stack) /\
    length su = length g.(Priv).(Suffix) /\
    forall i, (i < m)%nat -> aget su (code_of g.(Priv).(ClearCode) i) =
                       aget g.(Priv).(Suffix) (code_of g.(Priv).(ClearCode) i).

Lemma stack_only_expanded g m g' : stack_only g g' -> expanded g m g'.
Proof. intros (st & Hl & ->). by exists st, g.(Priv).(Suffix). Qed.

Lemma stacked_nil st : stacked st 0 [].
Proof. done. Qed.

(** Entries [0 .. length tbl - 1] are the complete ones while the newest is
    still missing. *)
Lemma dec_read_lengths tbl c last p :
  dec_read tbl c last p ->
  4 <= p.(ClearCode) <= 256 /\ Z.of_nat (length (expand p.(ClearCode) tbl c)) <= 4092.
Proof.
  intros [Hpar _ Hfull Hwf Hv _ _]. pose proof (dec_params_clear _ Hpar) as Hcl.
  pose proof (expand_length p.(ClearCode) tbl c ltac:(lia) Hwf Hv). unfold LZ_MAX_CODE in *.
  split; [done|]. destruct Hv; lia.
Qed.

Lemma wp_expand_old tbl c last g (Q : Z -> GifFileType -> Prop) E i :
  dec_read tbl c last g.(Priv) -> c = code_of g.(Priv).(ClearCode) i -> (i < pred (length tbl))%nat ->
  (forall g', expanded g (pred (length tbl)) g' ->
     stacked g'.(Priv).(Stack) (Z.of_nat (length (expand g.(Priv).(ClearCode) tbl c)))
       (expand g.(Priv).(ClearCode) tbl c) ->
     Q (Z.of_nat (length (expand g.(Priv).(ClearCode) tbl c))) g') ->
  wp (expand_code g.(Priv).(ClearCode) c last 0) Q E g.
Proof.
  intros Hdr Hc Hi HQ. destruct (dec_read_lengths _ _ _ _ Hdr) as [Hcl Hlen].
  pose proof Hdr as [Hpar Hrc Hfull Hwf Hv Hde Hlast].
  destruct (lookup_lt_is_Some_2 tbl i) as [e He]; [lia|]. destruct (Hwf i e He) as [Hve _].
  destruct (de_entry _ _ _ _ Hde i e Hi He) as [Hp _].
  unfold expand_code. apply wp_bind. unfold start_trace. do 2 wp_step. rewrite Hc.
  apply wp_bind, wp_of_option with (1 := Hp).
  assert ((e.1 =? NO_SUCH_CODE) = false) as ->.
  { apply Z.eqb_neq. unfold NO_SUCH_CODE. unfold LZ_MAX_CODE in Hfull. destruct Hve; lia. }
  apply wp_ret. rewrite <- Hc.
  eapply wp_push_trace; [done|done| |done|exact Hde| |apply stacked_nil|unfold LZ_MAX_CODE; lia|].
  - lia.
  - rewrite Hc. right. unfold code_of. lia.
  - rewrite app_nil_r. intros g' Hso Hst. apply HQ; [by apply stack_only_expanded|done].
Qed.

Lemma wp_expand_new tbl c last g (Q : Z -> GifFileType -> Prop) E :
  dec_read tbl c last g.(Priv) -> g.(Priv).(ClearCode) <= c ->
  c = code_of g.(Priv).(ClearCode) (pred (length tbl)) -> tbl <> [] ->
  (forall g', expanded g (pred (length tbl)) g' ->
     stacked g'.(Priv).(Stack) (Z.of_nat (length (expand g.(Priv).(ClearCode) tbl c)))
       (expand g.(Priv).(ClearCode) tbl c) ->
     Q (Z.of_nat (length (expand g.(Priv).(ClearCode) tbl c))) g') ->
  wp (expand_code g.(Priv).(ClearCode) c last 0) Q E g.
Proof.
  intros Hdr Hcc Hc Hne HQ. destruct (dec_read_lengths _ _ _ _ Hdr) as [Hcl Hlen].
  destruct (newest_entry _ _ _ _ Hdr Hcc Hc Hne) as (x & Hhd & Hvl & Hx & Hxr).
  pose proof Hdr as [Hpar Hrc Hfull Hwf Hv Hde Hlast].
  assert (0 < length tbl)%nat as Hpos by (destruct tbl; [done|cbn; lia]).
  unfold LZ_MAX_CODE in Hfull.
  assert (RunningCode (Priv g) - 2 = c) as Hrc2 by (rewrite Hrc, Hc; unfold code_of; lia).
  unfold expand_code. apply wp_bind. unfold start_trace. do 2 wp_step. rewrite Hrc2.
  assert (aget (Prefix (Priv g)) c = Some NO_SUCH_CODE) as Hp.
  { rewrite Hc. apply (de_free _ _ _ _ Hde); [lia|]. unfold code_of, LZ_MAX_CODE. lia. }
  apply wp_bind, wp_of_option with (1 := Hp). change (NO_SUCH_CODE =? NO_SUCH_CODE) with true.
  rewrite Z.eqb_refl. cbv iota zeta.
  assert (DGifGetPrefixChar (Prefix (Priv g)) last (ClearCode (Priv g)) = Some x) as Hpc.
  { unfold DGifGetPrefixChar. rewrite <- Hhd.
    apply (get_prefix_char_expand _ tbl (pred (length tbl))); try done; try lia.
    { intros i e Hi He. by apply (de_entry _ _ _ _ Hde). }
    rewrite Hx, length_app in Hlen. cbn [length] in Hlen. unfold LZ_MAX_CODE. lia. }
  apply wp_bind, wp_of_option with (1 := Hpc).
  apply wp_bind. eapply wp_push; [apply Hde|apply stacked_nil|done|lia|]. intros g1 Hso1 Hst1.
  destruct Hso1 as (st1 & Hl1 & ->). apply wp_bind. unfold set_Suffix_at. do 2 wp_step.
  cbn [Priv put_tables upd_priv set_Priv Suffix set_Suffix set_Stack].
  assert (0 <= c) as Hc0 by lia.
  pose proof (de_suffix_len _ _ _ _ Hde) as Hsl. unfold LZ_MAX_CODE in Hsl.
  assert (c <= 4095) as Hc1 by (rewrite Hc; unfold code_of; lia).
  destruct (aset_exists (Suffix (Priv g)) c (u8 x)) as (su & Hsu & Hls); [lia|].
  apply wp_bind, wp_of_option with (1 := Hsu), wp_modify, wp_ret.
  set (g2 := upd_priv (set_Suffix su) _).
  assert (dec_entries (ClearCode (Priv g)) tbl (pred (length tbl)) (Priv g2)) as Hde2.
  { destruct Hde as [L1 L2 L3 He Hf]. split; try done; cbn; try congruence.
    intros i e Hi Hl. destruct (He i e Hi Hl) as [? Hs]. split; [done|].
    rewrite (aget_aset_ne _ _ _ _ _ Hsu); [done|]. rewrite Hc. unfold code_of. lia. }
  eapply wp_push_trace; [done|done| |done|exact Hde2|exact Hvl|exact Hst1| |].
  - lia.
  - rewrite Hx, length_app in Hlen. cbn [length] in Hlen. unfold LZ_MAX_CODE. lia.
  - rewrite <- Hx. intros g3 (st3 & Hl3 & ->) Hst3. apply HQ; [|done].
    exists st3, su. split; [done|]. split; [cbn in Hl3; congruence|]. split; [done|].
    intros i Hi. apply (aget_aset_ne _ _ _ _ _ Hsu). rewrite Hc. unfold code_of. lia.
Qed.

Lemma wp_expand_code tbl c last g (Q : Z -> GifFileType -> Prop) E :
  dec_read tbl c last g.(Priv) -> g.(Priv).(ClearCode) <= c ->
  (forall g', expanded g (pred (length tbl)) g' ->
     stacked g'.(Priv).(Stack) (Z.of_nat (length (expand g.(Priv).(ClearCode) tbl c)))
       (expand g.(Priv).(ClearCode) tbl c) ->
     Q (Z.of_nat (length (expand g.(Priv).(ClearCode) tbl c))) g') ->
  wp (expand_code g.(Priv).(ClearCode) c last 0) Q E g.
Proof.
  intros Hdr Hcc HQ. destruct (dec_read_lengths _ _ _ _ Hdr) as [Hcl _].
  destruct (valid_cases g.(Priv).(ClearCode) (length tbl) c ltac:(lia) (dr_code _ _ _ _ Hdr)) as [Hlt|(i & Hi & Hc)]; [lia|].
  destruct (decide (i = pred (length tbl))) as [->|].
  - eapply wp_expand_new; try done. by destruct tbl; [cbn in Hi; lia|].
  - eapply (wp_expand_old _ _ _ _ _ _ i); try done. lia.
Qed.

Lemma expanded_dec_read tbl c last g g' :
  expanded g (pred (length tbl)) g' -> dec_read tbl c last g.(Priv) -> dec_read tbl c last g'.(Priv).
Proof.
  intros (st & su & -> & Hst & Hsu & Hsame) [Hpar Hrc Hfull Hwf Hv [L1 L2 L3 He Hf] Hlast].
  split; try done. split; try done; cbn; try congruence.
  intros i e Hi Hl. rewrite Hsame by done. by apply He.
Qed.

(** The first pixel of the code just read, which completes the newest entry. *)
Lemma completing_pixel tbl c last p e prefix :
  dec_read tbl c last p -> list.last tbl = Some e ->
  (forall i e, (i < pred (length tbl))%nat -> tbl !! i = Some e -> aget prefix (code_of p.(ClearCode) i) = Some e.1) ->
  DGifGetPrefixChar prefix (if c =? p.(RunningCode) - 2 then last else c) p.(ClearCode) = Some e.2.
Proof.
  intros Hdr El Hpre. destruct (dec_read_lengths _ _ _ _ Hdr) as [Hcl Hlen].
  pose proof Hdr as [Hpar Hrc Hfull Hwf Hv Hde Hlast]. rewrite El in Hlast. destruct Hlast as [Hl Hhd].
  assert (tbl <> []) as Hne by (by intros ->). unfold LZ_MAX_CODE in Hfull.
  assert (0 < length tbl)%nat as Hpos by (destruct tbl; [done|cbn; lia]).
  unfold DGifGetPrefixChar. rewrite Hrc.
  destruct (Z.eqb_spec c (ClearCode p + 1 + Z.of_nat (length tbl))) as [Hc|Hc].
  - assert (c = code_of (ClearCode p) (pred (length tbl))) as Hc' by (unfold code_of; lia).
    destruct (newest_entry _ _ _ _ Hdr ltac:(lia) Hc' Hne) as (x & Hx & Hvl & Hex & _).
    rewrite (get_prefix_char_expand _ tbl (pred (length tbl))); try done; try lia.
    + rewrite Hex, hd_error_app in Hhd; [by rewrite Hx in Hhd |- *|].
      intros E0. by rewrite E0 in Hx.
    + rewrite Hex, length_app in Hlen. cbn [length] in Hlen. unfold LZ_MAX_CODE. lia.
  - rewrite (get_prefix_char_expand _ tbl (pred (length tbl))); try done; try lia.
    + destruct Hv as [Hv|Hv]; [by left|right; lia].
    + unfold LZ_MAX_CODE. lia.
Qed.

(** The newest entry is completed. *)
Lemma wp_enter_code tbl c last g (Q : unit -> GifFileType -> Prop) E :
  dec_read tbl c last g.(Priv) ->
  (forall pr su, let g' := upd_priv (fun p => set_Prefix pr (set_Suffix su p)) g in
     dec_entries g.(Priv).(ClearCode) tbl (length tbl) g'.(Priv) -> Q tt g') ->
  wp (enter_code g.(Priv).(ClearCode) c last) Q E g.
Proof.
  intros Hdr HQ. destruct (dec_read_lengths _ _ _ _ Hdr) as [Hcl _].
  pose proof Hdr as [Hpar Hrc Hfull Hwf Hv Hde Hlast]. unfold LZ_MAX_CODE in Hfull.
  unfold enter_code. do 2 wp_step. destruct (list.last tbl) as [e|] eqn:El.
  2:{ subst last. change (NO_SUCH_CODE =? NO_SUCH_CODE) with true. cbn [negb]. apply wp_ret.
      apply last_None in El. subst tbl.
      specialize (HQ g.(Priv).(Prefix) g.(Priv).(Suffix)).
      destruct g as [? ? ? ? ? ? ? ? ? ? ? ? [] ? ? ? ?]. by apply HQ. }
  pose proof (last_lookup_pred _ _ El) as Hl. destruct (Hwf _ _ Hl) as [Hve He2].
  assert (0 < length tbl)%nat as Hpos by (destruct tbl; [done|cbn; lia]).
  destruct Hlast as [-> Hhd].
  assert ((e.1 =? NO_SUCH_CODE) = false) as ->.
  { apply Z.eqb_neq. unfold NO_SUCH_CODE. destruct Hve; lia. }
  cbn [negb].
  assert (RunningCode (Priv g) - 2 = code_of (ClearCode (Priv g)) (pred (length tbl))) as Hrc2.
  { rewrite Hrc. unfold code_of. lia. }
  pose proof Hde as [L1 L2 L3 He Hf]. unfold LZ_MAX_CODE in L1, L2.
  assert (0 <= code_of (ClearCode (Priv g)) (pred (length tbl)) <= 4095) as Hcr by (unfold code_of; lia).
  apply wp_bind. eapply wp_of_option; [rewrite Hrc2; apply Hf; [lia|unfold LZ_MAX_CODE; lia]|].
  change (NO_SUCH_CODE =? NO_SUCH_CODE) with true. cbv iota.
  destruct (aset_exists (Prefix (Priv g)) (RunningCode (Priv g) - 2) e.1) as (pr & Hpr & Hlp); [lia|].
  apply wp_bind. unfold set_Prefix_at. do 2 wp_step. apply wp_bind, wp_of_option with (1 := Hpr), wp_modify.
  do 2 wp_step. cbn [Priv upd_priv set_Priv Prefix set_Prefix RunningCode].
  assert (forall i e', (i < pred (length tbl))%nat -> tbl !! i = Some e' ->
    aget pr (code_of (ClearCode (Priv g)) i) = Some e'.1) as Hpre.
  { intros i e' Hi Hl'. rewrite (aget_aset_ne _ _ _ _ _ Hpr) by (rewrite Hrc2; unfold code_of; lia).
    by apply He. }
  apply wp_bind, wp_of_option with (1 := completing_pixel _ _ _ _ _ _ Hdr El Hpre).
  unfold set_Suffix_at. do 2 wp_step. cbn [Priv upd_priv set_Priv Suffix set_Prefix].
  destruct (aset_exists (Suffix (Priv g)) (RunningCode (Priv g) - 2) (u8 e.2)) as (su & Hsu & Hls); [lia|].
  apply wp_bind, wp_of_option with (1 := Hsu), wp_modify. apply (HQ pr su).
  rewrite u8_small in Hsu by lia. unfold LZ_MAX_CODE.
  split; cbn; unfold LZ_MAX_CODE in *; try congruence.
  - intros i e' Hi Hl'. destruct (decide (i = pred (length tbl))) as [->|Hne].
    + rewrite Hl in Hl'. injection Hl' as <-. rewrite <- Hrc2.
      by rewrite (aget_aset_eq _ _ _ _ Hpr), (aget_aset_eq _ _ _ _ Hsu).
    + split; [apply Hpre; [lia|done]|].
      rewrite (aget_aset_ne _ _ _ _ _ Hsu) by (rewrite Hrc2; unfold code_of; lia). apply He; [lia|done].
  - intros i Hi Hle. rewrite (aget_aset_ne _ _ _ _ _ Hpr) by (rewrite Hrc2; unfold code_of; lia).
    apply Hf; lia.
Qed.

(** ** Lines *)

Section Limit.
Context `{limit : CodeLimit}.

(** Where the decoder is in the code stream: within a table, before a clear
    code, or behind the last code of the pixels. *)
Inductive phase : Type :=
| InTable (tbl : list entry) (cur : Z) (ps : list Z)
| AtClear (w : Z) (p : Z) (ps : list Z)
| AtEnd.

Definition codes_left (clear : Z) (ph : phase) : list (Z * Z) :=
  match ph with
  | InTable tbl cur ps => enc clear tbl cur ps
  | AtClear w p ps => (clear, w) :: enc clear [] p ps
  | AtEnd => []
  end.

Definition pixels_left (clear : Z) (ph : phase) : list Z :=
  match ph with
  | InTable tbl cur ps => expand clear tbl cur ++ ps
  | AtClear _ p ps => p :: ps
  | AtEnd => []
  end.

Definition arrays_len (p : GifFilePrivateType) : Prop :=
  Z.of_nat (length p.(Prefix)) = LZ_MAX_CODE + 1 /\ Z.of_nat (length p.(Suffix)) = LZ_MAX_CODE + 1 /\
  Z.of_nat (length p.(Stack)) = LZ_MAX_CODE.

Definition pixel (clear p : Z) : Prop := 0 <= p < clear.

Definition phase_tables (ph : phase) (last : Z) (p : GifFilePrivateType) : Prop :=
  match ph with
  | InTable tbl cur ps => dec_table tbl cur last p /\ Forall (pixel p.(ClearCode)) ps
  | AtClear w q ps => dec_params p /\ arrays_len p /\ p.(RunningBits) = w /\
                        pixel p.(ClearCode) q /\ Forall (pixel p.(ClearCode)) ps
  | AtEnd => dec_params p /\ arrays_len p
  end.

(** The decoder has the pixels of [ph] before it, and [rest] behind them. *)
Definition dec_phase (ph : phase) (last : Z) (rest : list Z) (g : GifFileType) : Prop :=
  phase_tables ph last g.(Priv) /\ dbits (codes_left g.(Priv).(ClearCode) ph) rest g.

Lemma dec_entries_len clear tbl m p : dec_entries clear tbl m p -> arrays_len p.
Proof. by intros []. Qed.

(** The phase behind the code [c]. *)
Definition next_phase (clear : Z) (tbl : list entry) (c : Z) (rest_ps : list Z) : phase :=
  match rest_ps with
  | [] => AtEnd
  | p :: ps =>
      if code_limit <=? code_of clear (length tbl) then AtClear (width clear (S (length tbl))) p ps
      else InTable (tbl ++ [(c, p)]) p ps
  end.

Lemma codes_left_next clear tbl cur ps c rest_ps :
  next_code clear tbl cur ps = (c, rest_ps) ->
  enc clear tbl cur ps = (c, width clear (length tbl)) :: codes_left clear (next_phase clear tbl c rest_ps).
Proof.
  intros Hn. rewrite enc_next, Hn. unfold next_phase. destruct rest_ps as [|p ps']; [done|].
  by destruct (_ <=? _).
Qed.

Lemma pixels_left_next clear tbl c rest_ps :
  Forall (pixel clear) rest_ps -> pixels_left clear (next_phase clear tbl c rest_ps) = rest_ps.
Proof.
  intros Hp. unfold next_phase. destruct rest_ps as [|p ps]; [done|].
  destruct (_ <=? _); [done|]. cbn. rewrite expand_pixel; [done|]. apply Forall_cons in Hp as [[_ ?] _]. done.
Qed.

(** The tables behind a code, once its entry is complete. *)
Lemma next_tables tbl c last rest_ps p p' :
  dec_read tbl c last p -> Forall (pixel p.(ClearCode)) rest_ps ->
  p'.(ClearCode) = p.(ClearCode) -> p'.(EOFCode) = p.(EOFCode) -> p'.(BitsPerPixel) = p.(BitsPerPixel) ->
  p'.(RunningCode) = p.(RunningCode) ->
  p'.(RunningBits) = width p.(ClearCode) (S (length tbl)) ->
  p'.(MaxCode1) = 2 ^ width p.(ClearCode) (S (length tbl)) ->
  dec_entries p.(ClearCode) tbl (length tbl) p' ->
  phase_tables (next_phase p.(ClearCode) tbl c rest_ps) c p'.
Proof.
  intros [Hpar Hrc Hfull Hwf Hv Hde Hlast] Hps E1 E2 E3 E4 E5 E6 Hde'.
  pose proof (dec_params_clear _ Hpar) as Hcl.
  assert (dec_params p') as Hpar' by (unfold dec_params; by rewrite E1, E2, E3).
  unfold next_phase. destruct rest_ps as [|q ps]; [split; [done|by eapply dec_entries_len]|].
  apply Forall_cons in Hps as [Hq Hps].
  destruct (Z.leb_spec code_limit (code_of (ClearCode p) (length tbl))) as [Hf|Hf]; cbn; rewrite E1.
  - split; [done|]. split; [by eapply dec_entries_len|done].
  - split; [|done]. unfold code_of in Hf. split; rewrite ?E1, ?length_app; cbn [length]; try done.
    + rewrite E4. unfold code_of. lia.
    + pose proof code_limit_le. lia.
    + by rewrite E5, Nat.add_comm.
    + by rewrite E6, Nat.add_comm.
    + by apply tbl_wf_snoc.
    + by left.
    + rewrite Nat.add_comm. cbn [Nat.add Nat.pred]. destruct Hde' as [L1 L2 L3 He Hfr]. split; try done.
      intros i e Hi Hl. apply He; [done|]. by rewrite lookup_app_l in Hl.
    + rewrite last_snoc. split; [done|]. rewrite expand_pixel by apply Hq. done.
Qed.

Lemma advance_other {A} (f : GifFilePrivateType -> A) p :
  (forall p rc rb mc, f (set_RunningBits rb (set_MaxCode1 mc (set_RunningCode rc p))) = f p) ->
  (forall p rc, f (set_RunningCode rc p) = f p) -> f (advance p) = f p.
Proof. intros H1 H2. unfold advance. destruct (_ <? _); [destruct (_ && _)|]; auto. Qed.

Lemma read_tables tbl cur last ps c rest_ps g g1 :
  dec_table tbl cur last g.(Priv) -> next_code g.(Priv).(ClearCode) tbl cur ps = (c, rest_ps) ->
  dec_like (upd_priv advance g) g1 ->
  dec_read tbl c last g1.(Priv) /\ g1.(Priv).(ClearCode) = g.(Priv).(ClearCode) /\
  g1.(Priv).(RunningBits) = width g.(Priv).(ClearCode) (S (length tbl)) /\
  g1.(Priv).(MaxCode1) = 2 ^ width g.(Priv).(ClearCode) (S (length tbl)) /\
  expand g.(Priv).(ClearCode) tbl cur ++ ps = expand g.(Priv).(ClearCode) tbl c ++ rest_ps /\
  frame g1 = frame g.
Proof.
  intros Hdt Hn Hl. destruct (advance_table _ _ _ _ Hdt) as (A1 & A2 & A3).
  assert (forall B (f : GifFilePrivateType -> B), (forall p, f (quiet p) = f p) ->
    (forall p rc rb mc, f (set_RunningBits rb (set_MaxCode1 mc (set_RunningCode rc p))) = f p) ->
    (forall p rc, f (set_RunningCode rc p) = f p) -> f g1.(Priv) = f g.(Priv)) as Hf.
  { intros B f H1 H2 H3. rewrite (dec_like_priv f _ _ Hl H1). by apply (advance_other f). }
  pose proof (Hf _ ClearCode ltac:(done) ltac:(done) ltac:(done)) as Ecl.
  pose proof (dec_like_priv RunningCode _ _ Hl ltac:(done)) as Erc.
  pose proof (dec_like_priv RunningBits _ _ Hl ltac:(done)) as Erb.
  pose proof (dec_like_priv MaxCode1 _ _ Hl ltac:(done)) as Emx.
  change (Priv (upd_priv advance g)) with (advance (Priv g)) in Erc, Erb, Emx.
  pose proof Hdt as [Hpar Hrc Hfull Hrb Hmax Hwf Hcur Hde Hlast]. pose proof (dec_params_clear _ Hpar) as Hcl.
  destruct (next_code_spec g.(Priv).(ClearCode) ps tbl cur c rest_ps ltac:(lia) Hwf Hcur Hn) as (Hvc & Hex & Hhd & _).
  split; [|split; [done|split; [by rewrite Erb|split; [by rewrite Emx|split; [done|]]]]].
  - split; rewrite ?Ecl; try done.
    + unfold dec_params. rewrite Ecl, (Hf _ EOFCode), (Hf _ BitsPerPixel) by done. done.
    + rewrite Erc, A1. lia.
    + destruct Hde as [L1 L2 L3 He Hfr].
      split; rewrite ?(Hf _ Prefix), ?(Hf _ Suffix), ?(Hf _ Stack) by done; done.
    + by rewrite Hhd.
  - rewrite (frame_like _ _ Hl). apply frame_upd. intros p. unfold advance.
    by destruct (_ <? _); [destruct (_ && _)|].
Qed.

(** What a round leaves, given the pixels [X] of the code it has read. *)
Definition round_post (n : Z) (Line X : list Z) (ph : phase) (rest : list Z) (g : GifFileType)
    (r : list Z * Z * Z + list Z * Z * Z) (g' : GifFileType) : Prop :=
  exists Line' sp' last' pend', r = inl (Line', sp', last') /\
    Line' ++ pend' = Line ++ X /\ (Z.of_nat (length Line') < n -> pend' = []) /\
    Z.of_nat (length Line') <= n /\ stacked g'.(Priv).(Stack) sp' pend' /\
    dec_phase ph last' rest g' /\ frame g' = frame g.

Lemma dbits_upd cs rest f g :
  (forall p, (f p).(Buf) = p.(Buf) /\ (f p).(CrntShiftState) = p.(CrntShiftState) /\
             (f p).(CrntShiftDWord) = p.(CrntShiftDWord)) ->
  dbits cs rest g -> dbits cs rest (upd_priv f g).
Proof.
  intros Hf (Hfit & bytes & (cur & later & enc & Hb & Hbuf & Hc & Hfr & Hin) & Hrest).
  destruct (Hf g.(Priv)) as (E1 & E2 & E3). split; [done|]. exists bytes.
  cbn [Priv upd_priv set_Priv]. rewrite E2, E3. split; [|done].
  exists cur, later, enc. cbn [Priv upd_priv set_Priv In]. by rewrite E1.
Qed.

Lemma take_room (X : list Z) (k n : Z) :
  0 <= k < n ->
  (Z.of_nat (length (take (Z.to_nat (n - k)) X)) <= n - k) /\
  (Z.of_nat (length (take (Z.to_nat (n - k)) X)) < n - k -> drop (Z.to_nat (n - k)) X = []).
Proof.
  intros Hk. rewrite length_take. split; [lia|]. intros H. apply drop_ge. lia.
Qed.

(** The pixels of a code go to the line as far as it has room. *)
Lemma wp_deliver tbl c last n Line g (Q : list Z * Z -> GifFileType -> Prop) E :
  dec_read tbl c last g.(Priv) -> Z.of_nat (length Line) < n ->
  (forall Line' sp' pend' g', expanded g (pred (length tbl)) g' ->
     Line' ++ pend' = Line ++ expand g.(Priv).(ClearCode) tbl c ->
     (Z.of_nat (length Line') < n -> pend' = []) -> Z.of_nat (length Line') <= n ->
     stacked g'.(Priv).(Stack) sp' pend' -> Q (Line', sp') g') ->
  wp (if c <? g.(Priv).(ClearCode) then ret (Line ++ [u8 c], 0)
      else
        let! sp := expand_code g.(Priv).(ClearCode) c last 0 in
        let! ' (ps, sp) := pop sp (n - Z.of_nat (length Line)) in
        ret (Line ++ ps, sp))%c Q E g.
Proof.
  intros Hdr Hlt HQ. destruct (dec_read_lengths _ _ _ _ Hdr) as [Hcl _].
  destruct (Z.ltb_spec c (ClearCode (Priv g))) as [Hc|Hc].
  - assert (0 <= c) by (destruct (dr_code _ _ _ _ Hdr); lia).
    rewrite u8_small by lia. apply wp_ret. eapply (HQ _ _ []).
    + apply stack_only_expanded. done.
    + by rewrite expand_pixel, app_nil_r.
    + done.
    + rewrite length_app. cbn. lia.
    + apply stacked_nil.
  - apply wp_bind. eapply wp_expand_code; [exact Hdr|done|]. intros g1 Hex Hst.
    set (X := expand _ _ _) in *. apply wp_bind. unfold pop. do 2 wp_step.
    destruct (Z.ltb_spec (Z.of_nat (length X)) 0); [lia|]. rewrite Nat2Z.id.
    eapply wp_of_option; [by apply pop_stacked, Hst|]. apply wp_ret.
    destruct (take_room X (Z.of_nat (length Line)) n ltac:(lia)) as [H1 H2].
    eapply HQ; [exact Hex| | | |by eapply stacked_drop].
    + by rewrite <- app_assoc, take_drop.
    + rewrite length_app. intros. apply H2. lia.
    + rewrite length_app. lia.
Qed.

Lemma put_tables_frame st su g : frame (put_tables st su g) = frame g.
Proof. done. Qed.

Lemma expanded_props g m g' :
  expanded g m g' -> frame g' = frame g /\ g'.(Priv).(ClearCode) = g.(Priv).(ClearCode) /\
    g'.(Priv).(RunningBits) = g.(Priv).(RunningBits) /\ g'.(Priv).(MaxCode1) = g.(Priv).(MaxCode1) /\
    forall cs rest, dbits cs rest g -> dbits cs rest g'.
Proof.
  intros (st & su & -> & _). do 4 (split; [done|]). intros cs rest Hb. unfold put_tables. by apply dbits_upd.
Qed.

(** Between reading a code and the next round. *)
Lemma wp_round_tail tbl c last rest_ps rest n Line g (Q : list Z * Z * Z + list Z * Z * Z -> GifFileType -> Prop) E :
  dec_read tbl c last g.(Priv) -> Forall (pixel g.(Priv).(ClearCode)) rest_ps ->
  g.(Priv).(RunningBits) = width g.(Priv).(ClearCode) (S (length tbl)) ->
  g.(Priv).(MaxCode1) = 2 ^ width g.(Priv).(ClearCode) (S (length tbl)) ->
  dbits (codes_left g.(Priv).(ClearCode) (next_phase g.(Priv).(ClearCode) tbl c rest_ps)) rest g ->
  Z.of_nat (length Line) < n ->
  (forall r g', round_post n Line (expand g.(Priv).(ClearCode) tbl c)
      (next_phase g.(Priv).(ClearCode) tbl c rest_ps) rest g r g' -> Q r g') ->
  wp (let! ' (Line, StackPtr) :=
        (if c <? g.(Priv).(ClearCode) then ret (Line ++ [u8 c], 0)
         else
           let! sp := expand_code g.(Priv).(ClearCode) c last 0 in
           let! ' (ps, sp) := pop sp (n - Z.of_nat (length Line)) in
           ret (Line ++ ps, sp)) in
      enter_code g.(Priv).(ClearCode) c last ;;!
      ret (inl (Line, StackPtr, c)))%c Q E g.
Proof.
  intros Hdr Hps Hrb Hmx Hbits Hlt HQ. apply wp_bind. eapply wp_deliver; [exact Hdr|done|].
  intros Line' sp' pend' g1 Hex Hline Hfull Hle Hst.
  pose proof (expanded_dec_read _ _ _ _ _ Hex Hdr) as Hdr1.
  destruct (expanded_props _ _ _ Hex) as (Hfr & Ecl & Erb & Emx & Hd).
  apply wp_bind. rewrite <- Ecl. eapply wp_enter_code; [exact Hdr1|]. cbv zeta.
  intros pr su Hde. apply wp_ret, HQ. exists Line', sp', c, pend'. split; [done|].
  split; [done|]. split; [done|]. split; [done|]. split; [done|]. split; [|exact Hfr].
  split.
  - rewrite <- Ecl. eapply next_tables; [exact Hdr1|by rewrite Ecl|reflexivity|reflexivity|reflexivity|reflexivity| | |exact Hde].
    + rewrite Ecl, <- Hrb. exact Erb.
    + rewrite Ecl, <- Hmx. exact Emx.
  - apply dbits_upd; [intros ?; split_and!; reflexivity|]. cbn [Priv upd_priv set_Priv ClearCode set_Prefix set_Suffix].
    rewrite Ecl. by apply Hd.
Qed.

Lemma next_code_rest clear ps : forall tbl cur c rest_ps P,
  next_code clear tbl cur ps = (c, rest_ps) -> Forall P ps -> Forall P rest_ps.
Proof.
  induction ps as [|p ps IH]; intros tbl cur c rest_ps P Hn Hf; cbn [next_code] in Hn.
  - by injection Hn as _ <-.
  - destruct (find_entry _ _ _); [|by injection Hn as _ <-].
    apply Forall_cons in Hf as [_ Hf]. by eapply IH.
Qed.

Lemma wp_round_table tbl cur ps last rest n Line g E :
  dec_phase (InTable tbl cur ps) last rest g -> Z.of_nat (length Line) < n ->
  wp (decompress_round g.(Priv).(ClearCode) g.(Priv).(EOFCode) n (Line, 0, last))
    (fun r g' => exists ph X, round_post n Line X ph rest g r g' /\
       pixels_left g.(Priv).(ClearCode) (InTable tbl cur ps) = X ++ pixels_left g.(Priv).(ClearCode) ph /\
       (length (codes_left g.(Priv).(ClearCode) ph) < length (enc g.(Priv).(ClearCode) tbl cur ps))%nat) E g.
Proof.
  intros [[Hdt Hps] Hbits] Hlt. unfold decompress_round.
  destruct (Z.ltb_spec (Z.of_nat (length Line)) n); [|lia]. cbn [negb].
  destruct (next_code (ClearCode (Priv g)) tbl cur ps) as [c rest_ps] eqn:Hn.
  pose proof (codes_left_next _ _ _ _ _ _ Hn) as Hcodes. cbn [codes_left] in Hbits. rewrite Hcodes in Hbits |- *.
  apply wp_bind. eapply wp_mono; [apply (wp_DecompressInput _ _ _ _ _ _ Hbits (dt_rbits _ _ _ _ Hdt))| |done].
  intros c' g1 (-> & Hbits1 & Hl).
  destruct (read_tables _ _ _ _ _ _ _ _ Hdt Hn Hl) as (Hdr & Ecl & Erb & Emx & Hpix & Hfr).
  destruct (dec_read_lengths _ _ _ _ Hdr) as [Hcl _]. pose proof (dr_params _ _ _ _ Hdr) as (_ & _ & Heof).
  destruct (frame_codes _ _ Hfr) as (_ & Eeof & _).
  assert (valid (ClearCode (Priv g)) (length tbl) c) as Hv by (rewrite <- Ecl; apply Hdr).
  destruct (Z.eqb_spec c (EOFCode (Priv g))); [destruct Hv; lia|].
  destruct (Z.eqb_spec c (ClearCode (Priv g))); [destruct Hv; lia|].
  pose proof (next_code_rest _ _ _ _ _ _ _ Hn Hps) as Hrest.
  rewrite <- Ecl in Hbits1, Hrest, Erb, Emx |- *.
  eapply wp_round_tail; [exact Hdr|exact Hrest|exact Erb|exact Emx|exact Hbits1|done|].
  intros r g' Hpost. exists (next_phase (ClearCode (Priv g1)) tbl c rest_ps), (expand (ClearCode (Priv g1)) tbl c).
  split; [|split; [|cbn [length]; lia]].
  - destruct Hpost as (L & sp & l & pend & H1 & H2 & H3 & H4 & H5 & H6 & H7).
    exists L, sp, l, pend. do 6 (split; [done|]). by rewrite H7.
  - rewrite pixels_left_next by done. cbn. by rewrite Ecl.
Qed.

Lemma no_entries clear p p' :
  0 <= clear -> p'.(Prefix) = no_prefixes -> p'.(Suffix) = p.(Suffix) -> p'.(Stack) = p.(Stack) ->
  arrays_len p -> dec_entries clear [] 0 p'.
Proof.
  intros Hcl E1 E2 E3 (L1 & L2 & L3). split; rewrite ?E1, ?E2, ?E3; [|done|done| |].
  - unfold no_prefixes. by rewrite length_replicate.
  - lia.
  - intros i _ Hi. apply aget_replicate. unfold code_of, LZ_MAX_CODE in *. lia.
Qed.

Lemma wp_round_clear w p ps last rest n Line g E :
  dec_phase (AtClear w p ps) last rest g -> Z.of_nat (length Line) < n ->
  wp (decompress_round g.(Priv).(ClearCode) g.(Priv).(EOFCode) n (Line, 0, last))
    (fun r g' => round_post n Line [] (InTable [] p ps) rest g r g') E g.
Proof.
  intros [(Hpar & Hlen & Hrb & Hp & Hps) Hbits] Hlt. unfold decompress_round.
  pose proof (dec_params_clear _ Hpar) as Hcl. pose proof Hpar as (Hbpp & Hclr & Heof).
  destruct (Z.ltb_spec (Z.of_nat (length Line)) n); [|lia]. cbn [negb].
  apply wp_bind. eapply wp_mono; [apply (wp_DecompressInput _ _ _ _ _ _ Hbits Hrb)| |done].
  intros c' g1 (-> & Hbits1 & Hl).
  destruct (Z.eqb_spec (ClearCode (Priv g)) (EOFCode (Priv g))); [lia|]. rewrite Z.eqb_refl.
  apply wp_bind. unfold clear_tables. apply wp_modify, wp_ret.
  assert (frame g1 = frame g) as Hfr.
  { rewrite (frame_like _ _ Hl). apply frame_upd. intros q. unfold advance.
    by destruct (_ <? _); [destruct (_ && _)|]. }
  destruct (frame_codes _ _ Hfr) as (Ecl & Eeof & Ebpp & _).
  assert (width (ClearCode (Priv g)) 0 = BitsPerPixel (Priv g) + 1) as Hw by (apply width_0; [lia|done]).
  exists Line, 0, NO_SUCH_CODE, []. split; [done|]. split; [done|]. split; [done|]. split; [lia|].
  split; [apply stacked_nil|]. split; [|exact Hfr]. split.
  - split; [|rewrite Forall_forall in Hps |- *; intros x Hx; unfold pixel in *; rewrite <- Ecl in Hps; by apply Hps].
    set (g2 := upd_priv _ g1).
    assert (ClearCode (Priv g2) = ClearCode (Priv g)) as Ecl2 by exact Ecl.
    assert (EOFCode (Priv g2) = EOFCode (Priv g)) as Eeof2 by exact Eeof.
    assert (BitsPerPixel (Priv g2) = BitsPerPixel (Priv g)) as Ebpp2 by exact Ebpp.
    assert (RunningCode (Priv g2) = EOFCode (Priv g1) + 1) as Erc2 by reflexivity.
    assert (RunningBits (Priv g2) = BitsPerPixel (Priv g1) + 1) as Erb2 by reflexivity.
    assert (MaxCode1 (Priv g2) = Z.shiftl 1 (BitsPerPixel (Priv g1) + 1)) as Emx2 by reflexivity.
    assert (Prefix (Priv g2) = no_prefixes) as Epre by reflexivity.
    assert (Suffix (Priv g2) = Suffix (Priv g)) as Esu.
    { change (Suffix (Priv g2)) with (Suffix (Priv g1)). rewrite (dec_like_priv Suffix _ _ Hl) by done.
      by apply (advance_other Suffix). }
    assert (Stack (Priv g2) = Stack (Priv g)) as Est.
    { change (Stack (Priv g2)) with (Stack (Priv g1)). rewrite (dec_like_priv Stack _ _ Hl) by done.
      by apply (advance_other Stack). }
    clearbody g2.
    split; rewrite ?Ecl2, ?Erc2, ?Erb2, ?Emx2, ?Eeof, ?Ebpp; cbn [length].
    + unfold dec_params. by rewrite Ecl2, Eeof2, Ebpp2.
    + rewrite Heof. unfold code_of. lia.
    + unfold LZ_MAX_CODE. lia.
    + by rewrite Hw.
    + rewrite Hw. rewrite Z.shiftl_mul_pow2 by lia. lia.
    + intros i e Hi. by rewrite lookup_nil in Hi.
    + left. exact Hp.
    + eapply no_entries; [lia|exact Epre|exact Esu|exact Est|exact Hlen].
    + done.
  - apply dbits_upd; [intros ?; split_and!; reflexivity|]. cbn -[enc]. by rewrite Ecl.
Qed.
End Limit.
