(* ===== verification/GifLines.v ===== *)
(** * giflib: the lines of an image, read back

    The rounds of [DGifDecompressLine] put together: a decoder that has the
    pixels [X] before it delivers any prefix of them and is left with the rest
    ([wp_DecompressLine], [wp_GetLine]); behind the last pixel the chain of
    blocks is read to its end. *)

From stdpp Require Import base numbers list list_numbers.
From Stdlib Require Import Lia ZArith.
From S2P Require Import Prelude GifTypes GifAlloc GifDecode GifSafety GifBlocks Lzw GifDecompress.

#[local] Open Scope Z_scope.

(** ** Reads of known bytes *)

Lemma wp_READ_exact bs rest n (Q : list Z -> GifFileType -> Prop) E g :
  g.(In) = bs ++ rest -> n = Z.of_nat (length bs) -> Q bs (set_In rest g) -> wp (READ n) Q E g.
Proof.
  intros Hin -> HQ. apply wp_READ. rewrite Hin, Nat2Z.id, take_app_length, drop_app_length. done.
Qed.

Lemma wp_READ_or_exact bs rest n c (Q : list Z -> GifFileType -> Prop) E g :
  g.(In) = bs ++ rest -> n = Z.of_nat (length bs) -> Q bs (set_In rest g) -> wp (READ_or n c) Q E g.
Proof.
  intros Hin Hn HQ. unfold READ_or. apply wp_bind. eapply wp_READ_exact; [done|done|].
  rewrite Hn, Z.eqb_refl. by apply wp_ret.
Qed.

Lemma wp_READ_byte_exact b rest (Q : Z -> GifFileType -> Prop) E g :
  g.(In) = b :: rest -> Q b (set_In rest g) -> wp READ_byte Q E g.
Proof.
  intros Hin HQ. unfold READ_byte, READ_full. apply wp_bind.
  eapply (wp_READ_or_exact [b]); [exact Hin|done|]. by apply (wp_of_option _ b).
Qed.

Lemma wp_word_exact lo hi rest (Q : Z -> GifFileType -> Prop) E g :
  g.(In) = lo :: hi :: rest -> Q (UNSIGNED_LITTLE_ENDIAN lo hi) (set_In rest g) -> wp DGifGetWord Q E g.
Proof.
  intros Hin HQ. unfold DGifGetWord, READ_full. apply wp_bind.
  eapply (wp_READ_or_exact [lo; hi]); [exact Hin|done|].
  apply wp_bind, (wp_of_option _ lo); [done|]. apply wp_bind, (wp_of_option _ hi); [done|]. by apply wp_ret.
Qed.

(** ** The rest of a chain of blocks *)

Definition arrays_full (p : GifFilePrivateType) : Prop := arrays_len p /\ length p.(Buf) = 256%nat.

Lemma store_buf_full i bs (Q : unit -> GifFileType -> Prop) E g :
  arrays_full g.(Priv) -> 0 <= i -> i + Z.of_nat (length bs) <= 256 ->
  (forall buf, length buf = 256%nat -> Q tt (upd_priv (set_Buf buf) g)) -> wp (store_buf i bs) Q E g.
Proof.
  intros [_ Hb] Hi Hle HQ. apply wp_store; [done|rewrite Hb; lia|]. intros buf Hl _ _. apply HQ. congruence.
Qed.

Lemma set_Buf_full i v (Q : unit -> GifFileType -> Prop) E g :
  arrays_full g.(Priv) -> 0 <= i < 256 ->
  (forall buf, length buf = 256%nat -> Q tt (upd_priv (set_Buf buf) g)) -> wp (set_Buf_at i v) Q E g.
Proof.
  intros [_ Hb] Hi HQ. destruct (aset_exists g.(Priv).(Buf) i v) as (l' & Ha & Hl); [lia|].
  eapply wp_put_Buf_at; [exact Ha|]. apply HQ. congruence.
Qed.

Lemma wp_GetCodeNext_block c rest g E :
  chunk_ok c -> g.(In) = block c ++ rest -> arrays_full g.(Priv) ->
  wp DGifGetCodeNext
    (fun r g' => r = Some c /\ g'.(In) = rest /\ arrays_full g'.(Priv) /\ frame g' = frame g) E g.
Proof.
  intros [Hc Hcb] Hin Ha. unfold DGifGetCodeNext. apply wp_bind.
  eapply wp_READ_byte_exact; [exact Hin|]. destruct (Z.ltb_spec 0 (Z.of_nat (length c))); [|lia].
  apply wp_bind, set_Buf_full; [exact Ha|lia|]. intros b1 Hb1.
  apply wp_bind. eapply wp_READ_exact; [reflexivity|done|].
  apply wp_bind, store_buf_full; [by split; [apply Ha|]|lia|lia|]. intros b2 Hb2. rewrite Z.eqb_refl. apply wp_ret.
  split; [done|]. split; [done|]. split; [by split; [apply Ha|]|done].
Qed.

(** The frame without the pixel count. *)
Definition frame0 (g : GifFileType) := frame (upd_priv (set_PixelCount 0) g).

Lemma frame0_frame g g' : frame g' = frame g -> frame0 g' = frame0 g.
Proof.
  intros H. pose proof (frame_codes _ _ H) as (E1 & E2 & E3 & _ & E5).
  pose proof (f_equal fst H) as H1. cbn in H1.
  pose proof (f_equal (fun f => f.2.1.2) H) as E6. cbn in E6.
  unfold frame0, frame. cbn. rewrite E1, E2, E3, E5, E6. f_equal. exact H1.
Qed.

Lemma wp_skip_blocks payload encoded rest g E :
  framed payload encoded -> g.(In) = encoded ++ rest -> arrays_full g.(Priv) ->
  wp skip_blocks (fun _ g' => g'.(In) = rest /\ arrays_full g'.(Priv) /\ frame0 g' = frame0 g /\
                    g'.(Priv).(PixelCount) = 0) E g.
Proof.
  intros (chunks & Hok & _ & ->) Hin Ha. unfold skip_blocks. do 2 wp_step.
  apply (wp_loop (fun n _ g' => exists chunks, Forall chunk_ok chunks /\ n = length chunks /\
     g'.(In) = (blocks chunks ++ [0]) ++ rest /\ arrays_full g'.(Priv) /\ frame0 g' = frame0 g))
    with (n := length chunks).
  - intros n [] g1 (cs & Hcs & -> & Hin1 & Ha1 & Hf1). destruct cs as [|c cs].
    + unfold DGifGetCodeNext. apply wp_bind, wp_bind. eapply wp_READ_byte_exact; [exact Hin1|].
      change (0 <? 0) with false. cbv iota. apply wp_bind, set_Buf_full; [exact Ha1|lia|]. intros b Hb.
      apply wp_bind, wp_modify, wp_ret, wp_ret. split; [done|]. split; [by split; [apply Ha1|]|]. by split.
    + apply Forall_cons in Hcs as [Hc Hcs]. apply wp_bind.
      eapply wp_mono; [apply (wp_GetCodeNext_block c ((blocks cs ++ [0]) ++ rest)); [done| |done]| |done].
      { rewrite Hin1. unfold blocks. cbn [fmap list_fmap concat]. by rewrite <- !app_assoc. }
      intros r g2 (-> & Hin2 & Ha2 & Hf2). apply wp_ret. exists (length cs). split; [cbn; lia|].
      exists cs. do 4 (split; [done|]). by rewrite (frame0_frame _ _ Hf2).
  - exists chunks. split; [done|]. split; [done|]. split; [exact Hin|]. by split.
  - assert (length chunks <= length (blocks chunks))%nat.
    { clear. unfold blocks. induction chunks as [|c cs IH]; [done|]. cbn. rewrite length_app. lia. }
    rewrite Hin, !length_app. lia.
Qed.

(** ** Lines *)

Section Limit.
Context `{limit : CodeLimit}.

(** The decoder has the pixels [X] before it and, behind the image, [rest]. *)
Definition dec_pixels (X rest : list Z) (g : GifFileType) : Prop :=
  exists pend ph, X = pend ++ pixels_left g.(Priv).(ClearCode) ph /\
    stacked g.(Priv).(Stack) g.(Priv).(StackPtr) pend /\ dec_phase ph g.(Priv).(LastCode) rest g.

Lemma phase_arrays ph last p : phase_tables ph last p -> arrays_len p.
Proof.
  destruct ph as [tbl cur ps|w q ps|]; cbn.
  - intros [H _]. eapply dec_entries_len, H.
  - by intros (_ & ? & _).
  - by intros [_ ?].
Qed.

Lemma phase_params ph last p : phase_tables ph last p -> dec_params p.
Proof.
  destruct ph as [tbl cur ps|w q ps|]; cbn.
  - intros [H _]. apply H.
  - by intros (? & _).
  - by intros [? _].
Qed.

Lemma dbits_full cs rest g : arrays_len g.(Priv) -> dbits cs rest g -> arrays_full g.(Priv).
Proof. intros Ha (_ & bytes & (cur & later & enc & _ & [Hl _] & _) & _). by split. Qed.

Lemma stacked_bound st sp pend :
  stacked st sp pend -> Z.of_nat (length st) = LZ_MAX_CODE -> 0 <= sp <= LZ_MAX_CODE.
Proof.
  intros [-> Ht] Hl. apply (f_equal length) in Ht. rewrite length_take, length_rev in Ht. lia.
Qed.

Lemma codes_count cs : Forall code_fits cs -> Z.of_nat (length cs) <= codes_bits cs.
Proof. induction 1 as [|[c w] cs [_ Hw] _ IH]; cbn [length codes_bits fst snd] in *; lia. Qed.

Lemma framed_length payload encoded : framed payload encoded -> (length payload < length encoded)%nat.
Proof.
  intros (chunks & _ & -> & ->). rewrite length_app. cbn [length].
  enough (length (concat chunks) <= length (blocks chunks))%nat by lia.
  unfold blocks. induction chunks as [|c cs IH]; [done|]. cbn. rewrite !length_app. lia.
Qed.

Lemma dbits_fuel cs rest g : dbits cs rest g -> (S (length cs) < decompress_fuel g)%nat.
Proof.
  intros (Hf & bytes & (cur & later & enc & -> & (_ & _ & Hcur) & _ & Hfr & Hin) & Hst & _ & _ & Hb).
  pose proof (codes_count _ Hf). pose proof (framed_length _ _ Hfr). unfold decompress_fuel.
  rewrite length_app in Hb. rewrite Hin, length_app.
  assert (Z.of_nat (length cur) <= 254).
  { destruct cur as [|b cur]; [cbn; lia|]. destruct Hcur as (k & _ & ? & ? & _); [done|]. lia. }
  lia.
Qed.

(** The stack pointer and the last code are kept for the next line. *)
Lemma phase_tables_ptr ph last p sp lc :
  phase_tables ph last p -> phase_tables ph last (set_StackPtr sp (set_LastCode lc p)).
Proof.
  destruct ph as [tbl cur ps|w q ps|]; cbn; [|done|done].
  intros [[H1 H2 H3 H4 H5 H6 H7 [L1 L2 L3 He Hf] H9] Hps]. split; [|exact Hps]. by do 2 (split; try assumption).
Qed.

(** One round, in any phase with pixels left. *)
Lemma wp_round ph last rest n Line g E :
  dec_phase ph last rest g -> pixels_left g.(Priv).(ClearCode) ph <> [] -> Z.of_nat (length Line) < n ->
  wp (decompress_round g.(Priv).(ClearCode) g.(Priv).(EOFCode) n (Line, 0, last))
    (fun r g' => exists ph' X, round_post n Line X ph' rest g r g' /\
       pixels_left g.(Priv).(ClearCode) ph = X ++ pixels_left g.(Priv).(ClearCode) ph' /\
       (length (codes_left g.(Priv).(ClearCode) ph') < length (codes_left g.(Priv).(ClearCode) ph))%nat) E g.
Proof.
  intros Hph Hne Hlt. destruct ph as [tbl cur ps|w q ps|].
  - by apply wp_round_table.
  - eapply wp_mono; [by apply (wp_round_clear w q ps)| |done]. intros r g' Hr. exists (InTable [] q ps), [].
    destruct Hph as [(_ & _ & _ & Hq & _) _]. split; [done|]. split; [|cbn [codes_left length]; lia].
    cbn. rewrite expand_pixel; [done|apply Hq].
  - done.
Qed.

Lemma round_loop X n rest g pend0 E fuel ph0 Line0 last0 sp0 :
  0 <= n -> n <= Z.of_nat (length X) ->
  Line0 ++ pend0 ++ pixels_left g.(Priv).(ClearCode) ph0 = X ->
  Z.of_nat (length Line0) <= n -> (Z.of_nat (length Line0) < n -> pend0 = []) ->
  stacked g.(Priv).(Stack) sp0 pend0 -> dec_phase ph0 last0 rest g ->
  (length (codes_left g.(Priv).(ClearCode) ph0) < fuel)%nat ->
  wp (loop fuel (decompress_round g.(Priv).(ClearCode) g.(Priv).(EOFCode) n) (Line0, sp0, last0))
    (fun r g' => exists ph pend, frame g' = frame g /\ r.1.1 = take (Z.to_nat n) X /\
       drop (Z.to_nat n) X = pend ++ pixels_left g.(Priv).(ClearCode) ph /\
       stacked g'.(Priv).(Stack) r.1.2 pend /\ dec_phase ph r.2 rest g') E g.
Proof.
  intros Hn HnX HX Hle Hfull Hst Hph Hfuel.
  apply (wp_loop (fun m st g' => exists ph pend, frame g' = frame g /\
     st.1.1 ++ pend ++ pixels_left g.(Priv).(ClearCode) ph = X /\ Z.of_nat (length st.1.1) <= n /\
     (Z.of_nat (length st.1.1) < n -> pend = []) /\ stacked g'.(Priv).(Stack) st.1.2 pend /\
     dec_phase ph st.2 rest g' /\ m = length (codes_left g.(Priv).(ClearCode) ph)))
    with (n := length (codes_left g.(Priv).(ClearCode) ph0)); [| |done].
  2:{ exists ph0, pend0. by split_and!. }
  intros m [[Line sp] last] g1 (ph & pend & Hfr & HX1 & Hle1 & Hfull1 & Hst1 & Hph1 & ->).
  cbn [fst snd] in *. pose proof (frame_codes _ _ Hfr) as (Ecl & Eeof & _).
  destruct (Z.lt_ge_cases (Z.of_nat (length Line)) n) as [Hlt|Hge].
  - rewrite (Hfull1 Hlt) in *. destruct Hst1 as [Hsp _]. cbn in Hsp. subst sp.
    rewrite <- Ecl, <- Eeof in *. eapply wp_mono; [apply (wp_round ph last rest n Line g1); [done| |done]| |done].
    { intros Hnil. rewrite Hnil in HX1. cbn in HX1. rewrite app_nil_r in HX1. rewrite <- HX1 in HnX. lia. }
    intros r g2 (ph' & Y & (L & sp & l & pend' & -> & HL & Hf & Hl & Hs & Hp & Hfr2) & HY & Hm).
    cbn. exists (length (codes_left (ClearCode (Priv g1)) ph')). split; [done|]. exists ph', pend'.
    split; [by rewrite Hfr2|]. cbn [fst snd]. split; [|by split_and!].
    rewrite app_assoc, HL, <- app_assoc, <- HY. exact HX1.
  - unfold decompress_round. destruct (Z.ltb_spec (Z.of_nat (length Line)) n); [lia|]. cbn [negb].
    apply wp_ret. cbn [fst snd]. exists ph, pend. split; [done|]. rewrite <- HX1.
    rewrite take_app_length' by lia. rewrite drop_app_length' by lia. by split_and!.
Qed.

Lemma wp_DecompressLine X rest n g E :
  0 <= n <= Z.of_nat (length X) -> dec_pixels X rest g ->
  wp (DGifDecompressLine n)
    (fun line g' => line = take (Z.to_nat n) X /\ dec_pixels (drop (Z.to_nat n) X) rest g' /\
       frame g' = frame g) E g.
Proof.
  intros Hn (pend & ph & HX & Hst & Hph). pose proof (phase_arrays _ _ _ (proj1 Hph)) as (_ & _ & Hls).
  pose proof (stacked_bound _ _ _ Hst Hls) as Hsp.
  unfold DGifDecompressLine. do 2 wp_step. destruct (Z.ltb_spec LZ_MAX_CODE (StackPtr (Priv g))); [lia|].
  apply wp_bind. unfold pop. do 2 wp_step. destruct (Z.ltb_spec (StackPtr (Priv g)) 0); [lia|].
  pose proof Hst as [Esp Htk]. eapply wp_of_option.
  { rewrite Esp, Nat2Z.id. by apply pop_stacked. }
  cbv beta iota. do 2 wp_step. apply wp_bind. eapply wp_mono; [eapply (round_loop X n rest g (drop (Z.to_nat n) pend)); [lia|lia| | | | |exact Hph|]| |done].
  - rewrite HX. by rewrite app_assoc, take_drop.
  - rewrite length_take. lia.
  - rewrite length_take. intros. apply drop_ge. lia.
  - eapply stacked_drop, Hst.
  - pose proof (dbits_fuel _ _ _ (proj2 Hph)). lia.
  - intros [[line sp] last] g' (ph' & pend' & Hfr & Hline & Hdrop & Hst' & Hph'). cbn [fst snd] in *.
    apply wp_bind, wp_modify, wp_ret. split; [done|]. split; [|by rewrite <- Hfr].
    pose proof (frame_codes _ _ Hfr) as (Ecl & _).
    exists pend', ph'. cbn [Priv upd_priv set_Priv ClearCode Stack StackPtr LastCode set_StackPtr set_LastCode].
    rewrite Ecl. split; [done|]. split; [done|]. destruct Hph' as [Ht Hb]. split.
    + by apply phase_tables_ptr.
    + apply dbits_upd; [intros ?; split_and!; reflexivity|exact Hb].
Qed.

(** What is left of an image of which the pixels [X] are still to come: the
    lines, or nothing but the file behind it. *)
Definition dec_image (X rest : list Z) (g : GifFileType) : Prop :=
  g.(Priv).(PixelCount) = Z.of_nat (length X) /\ arrays_full g.(Priv) /\
  match X with
  | [] => g.(In) = rest
  | _ => dec_pixels X rest g
  end.

Lemma dec_pixels_full X rest g : dec_pixels X rest g -> arrays_full g.(Priv).
Proof.
  intros (pend & ph & _ & _ & Ht & Hb). eapply dbits_full; [by eapply phase_arrays|exact Hb].
Qed.

Lemma dec_pixels_count c X rest g : dec_pixels X rest g -> dec_pixels X rest (upd_priv (set_PixelCount c) g).
Proof.
  intros (pend & ph & HX & Hst & Ht & Hb). exists pend, ph. split; [done|]. split; [done|]. split.
  - destruct ph as [tbl cur ps|w q ps|]; cbn in *; [|done|done].
    destruct Ht as [[H1 H2 H3 H4 H5 H6 H7 [L1 L2 L3 He Hf] H9] Hps]. split; [|exact Hps].
    by do 2 (split; try assumption).
  - apply dbits_upd; [intros ?; split_and!; reflexivity|exact Hb].
Qed.

Lemma dec_pixels_stream X rest g : dec_pixels X rest g ->
  exists payload encoded, framed payload encoded /\ g.(In) = encoded ++ rest.
Proof.
  intros (pend & ph & _ & _ & _ & _ & bytes & (cur & later & enc & _ & _ & _ & Hfr & Hin) & _). by exists later, enc.
Qed.

(** [DGifGetLine] delivers the next [n] pixels. *)
Lemma wp_GetLine A B rest n g E :
  A <> [] -> n = Z.of_nat (length A) -> IS_READABLE g.(Priv) = true ->
  Z.of_nat (length (A ++ B)) <= PIXEL_LIMIT -> dec_image (A ++ B) rest g ->
  wp (DGifGetLine n)
    (fun line g' => line = A /\ dec_image B rest g' /\ frame0 g' = frame0 g) E g.
Proof.
  intros HA -> Hrd Hlim (Hpc & Hfull & Hdec).
  assert (dec_pixels (A ++ B) rest g) as Hd by (by destruct A). clear Hdec.
  assert (0 < Z.of_nat (length A)) as HlA by (destruct A; [done|cbn; lia]).
  unfold DGifGetLine, check_readable. apply wp_bind. do 2 wp_step. rewrite Hrd. apply wp_ret. do 2 wp_step.
  destruct (Z.eqb_spec (Z.of_nat (length A)) 0); [lia|].
  rewrite length_app in Hlim, Hpc. unfold PIXEL_LIMIT in Hlim.
  apply wp_bind. unfold count_pixels. apply wp_bind, wp_modify. do 2 wp_step.
  cbn [Priv upd_priv set_Priv PixelCount set_PixelCount].
  rewrite Hpc, u32_small by lia. unfold PIXEL_LIMIT. destruct (Z.ltb_spec 0xffff0000 (Z.of_nat (length A + length B) - Z.of_nat (length A))); [lia|].
  apply wp_ret. unfold get_pixels.
  set (g1 := upd_priv _ g).
  assert (g1 = upd_priv (set_PixelCount (Z.of_nat (length B))) g) as Hg1.
  { unfold g1, upd_priv. rewrite ?Hpc, ?u32_small by lia. do 2 f_equal. lia. }
  clearbody g1. subst g1. apply wp_bind.
  eapply wp_mono; [apply (wp_DecompressLine (A ++ B) rest)| |done].
  { rewrite length_app. lia. }
  { by apply dec_pixels_count. }
  intros line g2 (-> & Hd2 & Hfr2). rewrite Nat2Z.id, take_app_length, drop_app_length in *.
  do 2 wp_step. pose proof (frame_codes _ _ Hfr2) as (_ & _ & _ & Epc & _). cbn in Epc. rewrite Epc.
  assert (frame0 g2 = frame0 g) as Hf0 by (by rewrite (frame0_frame _ _ Hfr2)).
  pose proof (dec_pixels_full _ _ _ Hd2) as Hfull2.
  destruct B as [|b B].
  - change (Z.of_nat (length []) =? 0) with true. cbv iota.
    destruct (dec_pixels_stream _ _ _ Hd2) as (payload & encoded & Hfr & Hin).
    apply wp_bind. eapply wp_mono; [by eapply wp_skip_blocks| |done].
    intros _ g3 (Hin3 & Hfull3 & Hfr3 & Hpc3). apply wp_ret. split; [done|]. split; [by split_and!|].
    by rewrite Hfr3.
  - destruct (Z.eqb_spec (Z.of_nat (length (b :: B))) 0); [cbn in *; lia|].
    apply wp_bind, wp_ret, wp_ret. split; [done|]. split; [by split_and!|done].
Qed.
End Limit.
