(* ===== verification/GifImages.v ===== *)
(** * giflib: the data of an image, written and read back

    [EGifSetupCompress] and calls of [EGifPutLine] write the code size and a
    chain of blocks with the codes of the pixels ([image_data]), whatever the
    length of the lines; [DGifSetupDecompress] and calls of [DGifGetLine] read
    the same pixels back, in lines that may be cut elsewhere. *)

From stdpp Require Import base numbers list list_numbers gmap.
From Stdlib Require Import Lia ZArith.
From S2P Require Import Prelude GifTypes GifHash GifAlloc GifDecode GifSafety GifEncode GifBlocks Lzw GifCompress GifDecompress GifLines.

#[local] Open Scope Z_scope.
#[local] Open Scope c_scope.

(** The bytes of an image's data: the code size [b] and blocks that start with
    the codes of the pixels. *)
Definition image_data `{CodeLimit} (b : Z) (pixels data : list Z) : Prop :=
  exists payload encoded tail, data = b :: encoded /\ framed payload encoded /\
    bytes_val payload = codes_val (pixel_codes (2 ^ b) pixels) + 2 ^ codes_bits (pixel_codes (2 ^ b) pixels) * tail /\
    codes_bits (pixel_codes (2 ^ b) pixels) <= 8 * Z.of_nat (length payload).

(** The data as giflib writes it, which is nothing but the codes of the image. *)
Definition image_coded (b : Z) (pixels data : list Z) : Prop :=
  exists payload encoded, data = b :: encoded /\ framed payload encoded /\
    bytes_val payload = codes_val (image_codes (2 ^ b) pixels) /\
    codes_bits (image_codes (2 ^ b) pixels) <= 8 * Z.of_nat (length payload).

(** ** Writing *)

(** The depth of the image's pixels: that of its own map or of the screen's. *)
Definition image_bits (g : GifFileType) : option Z :=
  match g.(Image).(ColorMap), g.(SColorMap) with
  | Some m, _ | None, Some m => Some (Z.max 2 m.(cm_BitsPerPixel))
  | None, None => None
  end.

Lemma buffered_fresh g junk :
  g.(Priv).(Buf) = 0 :: junk -> length g.(Priv).(Buf) = 256%nat -> buffered g.(Out) [] g.
Proof.
  intros Hb Hl. exists [], [], junk. split; [done|]. split; [done|]. split; [done|].
  split; [by rewrite app_nil_r|]. by rewrite Hb in Hl |- *.
Qed.

Lemma width_1 clear b : 2 <= b <= 8 -> clear = 2 ^ b -> width clear 1 = width clear 0.
Proof.
  intros Hb Hc. assert (4 <= clear <= 256) as H4.
  { rewrite Hc. split; [change 4 with (2 ^ 2)|change 256 with (2 ^ 8)]; apply Z.pow_le_mono_r; lia. }
  rewrite width_succ, (width_0 clear b) by (done || lia).
  destruct (Z.leb_spec (2 ^ (b + 1)) (clear + 2 + Z.of_nat 0)) as [H|_]; [|done].
  rewrite Z.pow_add_r, <- Hc in H by lia. lia.
Qed.

(** The state before the clear code is sent. *)
Lemma comp_fresh g :
  2 <= g.(Priv).(BitsPerPixel) <= 8 -> g.(Priv).(ClearCode) = 2 ^ g.(Priv).(BitsPerPixel) ->
  g.(Priv).(EOFCode) = g.(Priv).(ClearCode) + 1 -> g.(Priv).(RunningCode) = g.(Priv).(ClearCode) + 2 ->
  g.(Priv).(RunningBits) = g.(Priv).(BitsPerPixel) + 1 ->
  g.(Priv).(MaxCode1) = Z.shiftl 1 (g.(Priv).(BitsPerPixel) + 1) ->
  g.(Priv).(HashTable) = _ClearHashTable -> g.(Priv).(CrntShiftState) = 0 -> g.(Priv).(CrntShiftDWord) = 0 ->
  buffered g.(Out) [] g -> comp g.(Out) [] [] g.
Proof.
  intros Hb Hc He Hr Hrb Hm Hh Hst Hdw Hbuf.
  assert (ClearCode (Priv g) <= 256).
  { rewrite Hc. change 256 with (2 ^ 8). apply Z.pow_le_mono_r; lia. }
  split; [|rewrite Hst; lia|split; try done].
  - split; [done|]. exists []. split; [done|]. rewrite Hst, Hdw. cbn. lia.
  - rewrite Hr. unfold code_of. cbn. lia.
  - rewrite Hr. unfold LZ_MAX_CODE. lia.
  - rewrite Hrb. symmetry. by apply width_0; [lia|].
  - rewrite Hm. cbn [length]. rewrite (width_0 _ (BitsPerPixel (Priv g))), Z.shiftl_mul_pow2 by (done || lia). lia.
  - exists ∅. rewrite Hh. split; [apply table_clear|]. split; [apply dict_empty|]. by rewrite map_size_empty.
Qed.

(** The clear code does not widen the first code. *)
Lemma enc_tbl_first p : enc_tbl 1 [] p -> enc_tbl 0 [] p.
Proof.
  intros [H1 H2 H3 H4 H5 H6 H7 H8 H9]. rewrite (width_1 _ p.(BitsPerPixel)) in H6, H7 by (lia || exact H2).
  split; assumption.
Qed.

(** What [EGifSetupCompress] leaves alone. *)
Definition outside0 (g : GifFileType) :=
  (set_Priv zero_private (set_Out [] (set_Space 0 g)),
   (g.(Priv).(FileState), g.(Priv).(PixelCount), gif89 g.(Priv))).

Lemma outside0_outside g g' : outside g' = outside g -> outside0 g' = outside0 g.
Proof.
  intros H. unfold outside0. pose proof (f_equal fst H) as H1. apply (f_equal snd) in H. cbn in H1, H.
  f_equal; [exact H1|]. by injection H as -> -> -> _ _ _ _.
Qed.

Lemma outside0_count c g g' :
  outside0 g = outside0 g' -> outside0 (upd_priv (set_PixelCount c) g) = outside0 (upd_priv (set_PixelCount c) g').
Proof.
  intros H. unfold outside0. pose proof (f_equal fst H) as H1. apply (f_equal snd) in H. cbn in H1, H.
  f_equal; [exact H1|]. cbn. by injection H as -> _ ->.
Qed.

Lemma outside0_kept g g' : kept g g' -> outside0 g' = outside0 g.
Proof. intros [c H]. rewrite (outside0_outside _ _ H). done. Qed.

Lemma wp_SetupCompress b g E :
  image_bits g = Some b -> b <= 8 -> length g.(Priv).(Buf) = 256%nat -> 16 <= 4 * g.(Space) ->
  wp EGifSetupCompress
    (fun _ g' => line_state (g.(Out) ++ [b]) [] g' /\ g'.(Priv).(ClearCode) = 2 ^ b /\
       g'.(Priv).(BitsPerPixel) = b /\
       4 * g.(Space) - 16 <= room g' /\ outside0 g' = outside0 g) E g.
Proof.
  intros Hbits Hb8 Hbuf Hsp.
  assert (exists m, match g.(Image).(ColorMap), g.(SColorMap) with
    | None, None => None | Some m, _ | None, Some m => Some m end = Some m /\ b = Z.max 2 m.(cm_BitsPerPixel)) as (m & Hm & Hbm).
  { unfold image_bits in Hbits.
    destruct (g.(Image).(ColorMap)), (g.(SColorMap)); try discriminate Hbits; injection Hbits as <-; eauto. }
  unfold EGifSetupCompress. do 2 wp_step.
  eapply (wp_fun_eq _ (let BitsPerPixel := if m.(cm_BitsPerPixel) <? 2 then 2 else m.(cm_BitsPerPixel) in _)).
  { destruct (g.(Image).(ColorMap)), (g.(SColorMap)); try discriminate Hm; injection Hm as ->; reflexivity. }
  cbv zeta. assert ((if cm_BitsPerPixel m <? 2 then 2 else cm_BitsPerPixel m) = b) as ->.
  { destruct (Z.ltb_spec (cm_BitsPerPixel m) 2); lia. }
  rewrite u8_small by lia. apply wp_bind, wp_write_; [cbn; lia|]. cbn [length].
  set (g1 := set_Space _ _). destruct (Buf (Priv g)) as [|x junk] eqn:Eb; [done|].
  apply wp_bind. apply (wp_put_Buf _ _ _ _ _ (0 :: junk)); [cbn; by rewrite Eb|].
  apply wp_bind, wp_modify. do 2 wp_step. set (g2 := upd_priv _ (upd_priv _ g1)).
  assert (comp g2.(Out) [] [] g2) as Hcp.
  { assert (buffered g2.(Out) [] g2) as Hbf by (by apply (buffered_fresh _ junk)).
    apply comp_fresh; try done; cbn -[_ClearHashTable]; [lia|by rewrite Z.shiftl_1_l]. }
  assert (room g2 = 4 * g.(Space) - 4) as Hr2 by (unfold room, buf0; cbn -[_ClearHashTable]; lia).
  assert (outside0 g2 = outside0 g) as Ho2 by done.
  assert (BitsPerPixel (Priv g2) = b) as Eb2 by done.
  assert (ClearCode (Priv g2) = 2 ^ b) as Ec2 by (cbn -[_ClearHashTable]; by rewrite Z.shiftl_1_l).
  assert (CrntCode (Priv g2) = FIRST_CODE) as Ecr2 by done.
  assert (Out g2 = Out g ++ [b]) as Eo2 by done.
  clearbody g2. rewrite Eo2 in Hcp.
  assert (4 <= ClearCode (Priv g2)) by (eapply clear_range_enc, cp_tbl, Hcp).
  eapply wp_mono; [apply (wp_send _ _ _ _ _ _ Hcp); cbn; lia| |done].
  intros [] g3 (Hs & Hst & Ht & Hr & Ho). pose proof (outside_codes _ _ Ho) as (Ecl & Eeof & Ebpp & Ecr & Epc).
  split; [|split; [by rewrite Ecl|split; [by rewrite Ebpp|split; [lia|]]]].
  - split; [by rewrite Ecr|]. cbn [app length] in Hs. split; [by rewrite Ecl|done|].
    by apply (enc_tbl_first (Priv g3)).
  - by rewrite (outside0_outside _ _ Ho).
Qed.

(** While an image is written: the pixels [done_] are, [left] are still to
    come; at the end the data is complete, and there is still four times
    [spare] room. *)
Definition enc_image (spare : Z) (base : list Z) (b : Z) (done_ : list Z) (left : Z) (g : GifFileType) : Prop :=
  g.(Priv).(PixelCount) = left /\ g.(Priv).(BitsPerPixel) = b /\ g.(Priv).(ClearCode) = 2 ^ b /\
  IS_WRITEABLE g.(Priv) = true /\ 0 <= spare /\
  if left =? 0 then (exists data, g.(Out) = base ++ data /\ image_coded b done_ data) /\ spare <= 4 * g.(Space)
  else line_state (base ++ [b]) done_ g /\ 24 * left + 40 + spare <= room g.

(** The mask [EGifPutLine] applies. *)
Definition masked (b : Z) (ps : list Z) : list Z := (fun p => p mod 2 ^ b) <$> ps.

Lemma CodeMask_get b : 0 <= b <= 8 -> aget CodeMask b = Some (Z.ones b).
Proof.
  intros Hb. assert (b = 0 \/ b = 1 \/ b = 2 \/ b = 3 \/ b = 4 \/ b = 5 \/ b = 6 \/ b = 7 \/ b = 8) as H by lia.
  by repeat destruct H as [->|H]; subst.
Qed.

Lemma masked_land b ps : 0 <= b -> (fun p => Z.land p (Z.ones b)) <$> ps = masked b ps.
Proof. intros Hb. apply list_fmap_ext. intros _ p _. by apply Z.land_ones. Qed.

Lemma masked_range b ps : 0 <= b -> Forall (fun p => 0 <= p < 2 ^ b) (masked b ps).
Proof.
  intros Hb. apply Forall_forall. intros p (q & -> & _)%list_elem_of_fmap.
  apply Z.mod_pos_bound, Z.pow_pos_nonneg; lia.
Qed.

Lemma wp_PutLine spare base b done_ left ps extra n g E :
  enc_image spare base b done_ left g -> 2 <= b <= 8 -> ps <> [] -> n = Z.of_nat (length ps) -> n <= left < 2 ^ 31 ->
  wp (EGifPutLine (ps ++ extra) n)
    (fun _ g' => enc_image spare base b (done_ ++ masked b ps) (left - n) g' /\ outside0 g' = outside0 (upd_priv (set_PixelCount (left - n)) g)) E g.
Proof.
  intros (Hpc & Hbpp & Hcl & Hwr & Hspare & Himg) Hb Hne Hn Hleft. change (2 ^ 31) with 2147483648 in Hleft.
  assert (0 < n) as Hn0 by (destruct ps; [done|cbn in Hn; lia]).
  destruct (Z.eqb_spec left 0); [lia|]. destruct Himg as [Hst Hroom].
  unfold EGifPutLine, EGifPutLine_at, check_writeable. apply wp_bind. do 2 wp_step. rewrite Hwr. apply wp_ret.
  do 2 wp_step. destruct (Z.eqb_spec n 0); [lia|]. rewrite Hpc, (u32_small n) by lia.
  destruct (Z.ltb_spec left n); [lia|]. apply wp_bind, wp_modify.
  rewrite Hbpp. apply wp_bind, wp_of_option with (1 := CodeMask_get b ltac:(lia)).
  rewrite length_app. destruct (Z.ltb_spec (Z.of_nat (length ps + length extra)) n); [lia|].
  rewrite Hn, Nat2Z.id, take_app_length, drop_app_length, masked_land by lia. rewrite <- Hn.
  apply wp_bind, wp_ret.
  assert (upd_priv (fun p => set_PixelCount (u32 (p.(PixelCount) - n)) p) g =
          upd_priv (set_PixelCount (left - n)) g) as ->.
  { unfold upd_priv. by rewrite Hpc, u32_small by lia. }
  set (g1 := upd_priv (set_PixelCount (left - n)) g).
  assert (length (masked b ps) = length ps) as Hlm by (unfold masked; by rewrite length_fmap).
  assert (take (length ps) (masked b ps ++ extra) = masked b ps) as Htk by (rewrite <- Hlm; apply take_app_length).
  subst n. eapply wp_mono; [apply (wp_CompressLine (base ++ [b]) done_)| |done].
  - destruct done_ as [|p0 ps0]; cbn in Hst |- *.
    + destruct Hst as [H1 [H2 H3 H4]]. split; [exact H1|]. split; [exact H2|exact H3|by destruct H4].
    + destruct Hst as (H1 & H5 & [H2 H3 H4]). split; [exact H1|]. split; [exact H5|].
      split; [exact H2|exact H3|by destruct H4].
  - rewrite length_app. lia.
  - rewrite Htk. intros Hnil. apply app_eq_nil in Hnil as [_ Hnil]. rewrite Hnil in Hlm. cbn in Hlm. lia.
  - unfold room, buf0 in *. cbn. lia.
  - rewrite Htk. cbn. rewrite Hcl. by apply masked_range; lia.
  - intros _ g2 (Hpost & Hk & Hs2 & Hr2). rewrite Htk in Hpost.
    destruct (kept_codes _ _ Hk) as (Ecl & Ebpp & Epc & Efs & _). cbn in Ecl, Ebpp, Epc, Efs.
    split; [|by rewrite (outside0_kept _ _ Hk)].
    split; [by rewrite Epc|]. split; [by rewrite Ebpp|]. split; [by rewrite Ecl|].
    split; [unfold IS_WRITEABLE; by rewrite Efs|]. split; [done|]. unfold line_post in Hpost. cbn in Hpost, Hr2.
    destruct (Z.eqb_spec (left - Z.of_nat (length ps)) 0).
    + destruct Hpost as (payload & encoded & Hfr & Hout & Hv & Hbits). rewrite Hcl in Hv, Hbits.
      split; [|unfold room, buf0 in *; cbn in Hs2; lia].
      exists (b :: encoded). split; [by rewrite Hout, <- app_assoc|]. by exists payload, encoded.
    + split; [done|]. specialize (Hr2 ltac:(lia)). unfold room, buf0 in *. cbn in Hr2. lia.
Qed.

(** Lines of any lengths. *)
Definition put_lines (lines : list (list Z)) : GifM unit :=
  for_each (fun l => EGifPutLine l (Z.of_nat (length l))) lines.

Lemma wp_put_lines spare base b lines E : forall done_ left g,
  enc_image spare base b done_ left g -> 2 <= b <= 8 -> Forall (fun l => l <> []) lines ->
  Z.of_nat (length (concat lines)) <= left < 2 ^ 31 ->
  wp (put_lines lines)
    (fun _ g' => enc_image spare base b (done_ ++ masked b (concat lines)) (left - Z.of_nat (length (concat lines))) g' /\ outside0 g' = outside0 (upd_priv (set_PixelCount (left - Z.of_nat (length (concat lines)))) g)) E g.
Proof.
  induction lines as [|l lines IH]; intros done_ left g Himg Hb Hne Hlen; unfold put_lines in *; cbn [for_each concat] in *.
  - apply wp_ret. cbn. rewrite app_nil_r, Z.sub_0_r. split; [done|]. destruct Himg as [<- _].
    by destruct g as [? ? ? ? ? ? ? ? ? ? ? ? [] ? ? ? ?].
  - apply Forall_cons in Hne as [Hl Hne]. rewrite length_app in Hlen |- *. apply wp_bind.
    rewrite <- (app_nil_r l) at 1. eapply wp_mono; [apply (wp_PutLine spare base b done_ left l []); try done; lia| |done].
    intros _ g1 [Himg1 Ho1]. eapply wp_mono; [apply IH; [exact Himg1|done|done|lia]| |done].
    intros _ g2 [Himg2 Ho2]. unfold masked in *. rewrite fmap_app, app_assoc.
    replace (left - Z.of_nat (length l + length (concat lines)))
      with (left - Z.of_nat (length l) - Z.of_nat (length (concat lines))) by lia.
    split; [exact Himg2|]. by rewrite Ho2, (outside0_count _ _ _ Ho1).
Qed.

(** ** Reading *)

Section Limit.
Context `{limit : CodeLimit}.

Lemma depth_range b : 2 <= b <= 8 -> 4 <= 2 ^ b <= 256.
Proof.
  intros Hb. split; [change 4 with (2 ^ 2)|change 256 with (2 ^ 8)]; apply Z.pow_le_mono_r; lia.
Qed.

Lemma enc_fits clear b : 2 <= b <= 8 -> clear = 2 ^ b -> forall ps tbl cur,
  tbl_wf clear tbl -> clear + 2 + Z.of_nat (length tbl) <= LZ_MAX_CODE + 1 -> valid clear (length tbl) cur ->
  Forall (fun p => 0 <= p < clear) ps -> Forall code_fits (enc clear tbl cur ps).
Proof.
  intros Hb Hc. pose proof (depth_range b Hb) as Hr. rewrite <- Hc in Hr. pose proof code_limit_le as Hlim. unfold LZ_MAX_CODE in *.
  assert (forall j c, clear + 1 + Z.of_nat j < 4096 -> 0 <= c <= clear + 1 + Z.of_nat j -> code_fits (c, width clear j)) as Hfit.
  { intros j c Hj Hcj. pose proof (width_spec clear j ltac:(lia) Hj). pose proof (width_range clear j). by split; cbn; [lia|]. }
  assert (forall j c, 0 <= c <= clear + 1 -> code_fits (c, width clear (S j))) as Hctl.
  { intros j c Hcj. pose proof (width_range clear (S j)) as Hwr. unfold LZ_BITS in Hwr. split; cbn; [|lia]. split; [lia|].
    apply Z.lt_le_trans with (2 ^ width clear 0).
    - rewrite (width_0 clear b) by done. rewrite Z.pow_add_r, <- Hc by lia. lia.
    - apply Z.pow_le_mono_r; [lia|]. unfold width. pose proof (Z.log2_le_mono (clear + 1 + Z.of_nat 0) (clear + 1 + Z.of_nat (S j)) ltac:(lia)). lia. }
  induction ps as [|p ps IH]; intros tbl cur Hwf Hfull Hv Hps; cbn [enc];
    pose proof (valid_range clear _ _ ltac:(lia) Hv) as Hcur.
  - assert (cur < clear + 2 + Z.of_nat (length tbl)) by (destruct Hv; lia). constructor; [apply Hfit; lia|done].
  - apply Forall_cons in Hps as [Hp Hps]. destruct (find_entry clear tbl (cur, p)) as [c|] eqn:Ef.
    + apply IH; try done. by eapply find_entry_valid.
    + constructor; [apply Hfit; lia|].
      destruct (Z.leb_spec code_limit (code_of clear (length tbl))) as [|Hlt]; unfold code_of in *.
      * constructor; [apply Hctl; lia|]. apply IH; [by intros i e Hi|cbn; lia|by left|done].
      * apply IH; [by apply tbl_wf_snoc|rewrite length_app; cbn; lia|by left|done].
Qed.

(** The start of an image: the clear code comes first. *)
Lemma image_start b p ps last data rest g :
  2 <= b <= 8 -> Forall (fun q => 0 <= q < 2 ^ b) (p :: ps) ->
  g.(Priv).(BitsPerPixel) = b -> g.(Priv).(ClearCode) = 2 ^ b -> g.(Priv).(EOFCode) = 2 ^ b + 1 ->
  g.(Priv).(RunningBits) = b + 1 -> g.(Priv).(CrntShiftState) = 0 -> g.(Priv).(CrntShiftDWord) = 0 ->
  arrays_full g.(Priv) -> aget g.(Priv).(Buf) 0 = Some 0 -> image_data b (p :: ps) (b :: data) -> g.(In) = data ++ rest ->
  dec_phase (AtClear (b + 1) p ps) last rest g.
Proof.
  intros Hb Hps Eb Ec Ee Er Es Ed [Harr Hbuf] Hb0 (payload & encoded & tail & He & Hfr & Hval & Hbits) Hin.
  injection He as ->. pose proof (depth_range b Hb) as Hc.
  assert (width (2 ^ b) 0 = b + 1) as Hw by (apply width_0; [lia|done]).
  pose proof Hps as [Hp Hps']%Forall_cons. split.
  - split; [unfold dec_params; rewrite Eb, Ec, Ee; lia|]. split; [done|]. split; [done|]. by rewrite Ec.
  - rewrite Ec. cbn [codes_left]. cbn [pixel_codes] in Hval, Hbits. rewrite Hw in Hval, Hbits. split.
    + constructor.
      * split; cbn; [|lia]. rewrite Z.pow_add_r by lia. lia.
      * apply (enc_fits _ b); [done|done|by intros i e Hi|cbn; unfold LZ_MAX_CODE; lia|by left|done].
    + exists payload. split.
      { exists [], payload, encoded. split; [done|]. split; [by split_and!|]. by split_and!. }
      rewrite Es, Ed. cbn [Z.pow]. split; [lia|]. split; [lia|]. split; [exists tail; lia|lia].
Qed.

Lemma wp_SetupDecompress b p ps data rest g E :
  2 <= b <= 8 -> Forall (fun q => 0 <= q < 2 ^ b) (p :: ps) -> image_data b (p :: ps) data ->
  g.(In) = data ++ rest -> arrays_full g.(Priv) ->
  wp DGifSetupDecompress
    (fun _ g' => dec_pixels (p :: ps) rest g' /\ g'.(Priv).(PixelCount) = g.(Priv).(PixelCount) /\ outside0 (set_In [] g') = outside0 (set_In [] g)) E g.
Proof.
  intros Hb Hps Hdata Hin Hfull. pose proof Hdata as (payload & encoded & tail & He & _).
  unfold DGifSetupDecompress. apply wp_bind. eapply (wp_READ_exact [b] (encoded ++ rest)); [by rewrite Hin, He|done|].
  destruct (Z.ltb_spec 8 b); [lia|]. destruct Hfull as [Harr Hbuf].
  destruct (aset_exists g.(Priv).(Buf) 0 0) as (buf & Ha & Hl); [lia|].
  apply wp_bind. eapply wp_put_Buf_at; [exact Ha|]. apply wp_modify. set (g1 := upd_priv _ (upd_priv _ _)).
  assert (dec_phase (AtClear (b + 1) p ps) (LastCode (Priv g1)) rest g1) as Hph.
  { apply (image_start b p ps _ encoded); try done; cbn -[no_prefixes]; try by rewrite Z.shiftl_1_l.
    - split; [|cbn -[no_prefixes]; congruence]. destruct Harr as (L1 & L2 & L3).
      split; cbn -[no_prefixes]; [unfold no_prefixes; by rewrite length_replicate|done].
    - by apply (aget_aset_eq _ _ _ _ Ha).
    - by rewrite <- He. }
  split; [|split; done]. exists [], (AtClear (b + 1) p ps). split; [done|]. split; [done|exact Hph].
Qed.

(** What giflib writes is image data. *)
Lemma pixel_codes_fit b ps : 2 <= b <= 8 -> Forall (fun p => 0 <= p < 2 ^ b) ps -> Forall code_fits (pixel_codes (2 ^ b) ps).
Proof.
  intros Hb Hps. pose proof (depth_range b Hb) as Hr. destruct Hps as [|p ps Hp Hps]; [done|]. constructor.
  - rewrite (width_0 _ b) by done. split; cbn; [|lia]. rewrite Z.pow_add_r by lia. lia.
  - apply (enc_fits _ b); [done|done|by intros i e Hi|cbn; unfold LZ_MAX_CODE; lia|by left|done].
Qed.

(** Lines of any lengths. *)
Definition get_lines (lens : list Z) : GifM (list (list Z)) :=
  foldM (fun acc n => let! l := DGifGetLine n in ret (acc ++ [l])) lens [].

Lemma wp_get_lines rest E lines : forall acc g,
  dec_image (concat lines) rest g -> Forall (fun l => l <> []) lines -> IS_READABLE g.(Priv) = true ->
  Z.of_nat (length (concat lines)) <= PIXEL_LIMIT ->
  wp (foldM (fun acc n => let! l := DGifGetLine n in ret (acc ++ [l])) ((fun l => Z.of_nat (length l)) <$> lines) acc)
    (fun r g' => r = acc ++ lines /\ dec_image [] rest g' /\ frame0 g' = frame0 g) E g.
Proof.
  induction lines as [|l lines IH]; intros acc g Himg Hne Hrd Hlim; cbn [fmap list_fmap foldM concat] in *.
  - apply wp_ret. by rewrite app_nil_r.
  - apply Forall_cons in Hne as [Hl Hne]. apply wp_bind, wp_bind.
    eapply wp_mono; [by apply (wp_GetLine l (concat lines) rest)| |done].
    intros line g1 (-> & Himg1 & Hf1). apply wp_ret. pose proof (frame_codes _ _ Hf1) as (_ & _ & _ & _ & Efs).
    rewrite length_app in Hlim.
    eapply wp_mono; [apply IH; [exact Himg1|done| |lia]| |done].
    { unfold IS_READABLE in *. cbn in Efs. by rewrite Efs. }
    intros r g2 (-> & Himg2 & Hf2). rewrite <- app_assoc. split; [done|]. split; [done|]. by rewrite Hf2.
Qed.

(** A decoder that can read an image of [n] pixels. *)
Record ready_to_read (n : Z) (g : GifFileType) : Prop := {
  rr_readable : IS_READABLE g.(Priv) = true;
  rr_arrays : arrays_full g.(Priv);
  rr_count : g.(Priv).(PixelCount) = n;
  rr_limit : n <= PIXEL_LIMIT
}.

Definition read_image (lens : list Z) : GifM (list (list Z)) := DGifSetupDecompress ;;! get_lines lens.

Lemma wp_read_image b lines data rest g E :
  2 <= b <= 8 -> Forall (fun p => 0 <= p < 2 ^ b) (concat lines) -> Forall (fun l => l <> []) lines -> lines <> [] ->
  ready_to_read (Z.of_nat (length (concat lines))) g -> image_data b (concat lines) data -> g.(In) = data ++ rest ->
  wp (read_image ((fun l => Z.of_nat (length l)) <$> lines))
    (fun r g' => r = lines /\ g'.(In) = rest) E g.
Proof.
  intros Hb Hps Hne Hnil [Hrd Harr Hpc Hlim] Hdata Hin.
  destruct (concat lines) as [|p ps] eqn:Ec.
  { destruct lines as [|[|? ?] lines]; [done| |done]. by apply Forall_cons in Hne as [? _]. }
  unfold read_image. apply wp_bind. eapply wp_mono; [by apply (wp_SetupDecompress b p ps data rest)| |done].
  intros _ g1 (Hd & Epc & Ho). unfold get_lines. apply (f_equal snd) in Ho. cbn in Ho. injection Ho as Efs _ _.
  eapply wp_mono; [apply (wp_get_lines rest E lines [])| |done]; try done.
  - rewrite Ec. split; [by rewrite Epc|]. split; [by eapply dec_pixels_full|exact Hd].
  - unfold IS_READABLE in *. by rewrite Efs.
  - by rewrite Ec.
  - intros r g2 (-> & (_ & _ & Hin2) & _). done.
Qed.

End Limit.

Lemma image_coded_data b ps data : 2 <= b <= 8 -> Forall (fun p => 0 <= p < 2 ^ b) ps -> image_coded b ps data -> image_data b ps data.
Proof.
  intros Hb Hps (payload & encoded & He & Hfr & Hval & Hbits). pose proof (pixel_codes_fit b ps Hb Hps) as Hfit.
  assert (exists l, image_codes (2 ^ b) ps = pixel_codes (2 ^ b) ps ++ l /\ 0 <= codes_bits l) as (l & Hl & Hl0).
  { destruct ps as [|p ps]; [by exists []|]. eexists. split; [reflexivity|]. cbn. pose proof (width_range (2 ^ b) (S (length (enc_line (2 ^ b) [] p ps).1.2))). lia. }
  rewrite Hl in Hval, Hbits. rewrite codes_val_app in Hval by done. rewrite codes_bits_app in Hbits. exists payload, encoded, (codes_val l).
  split; [done|]. split; [done|]. split; [done|lia].
Qed.

(** ** The round trip *)

(** An encoder that can write an image of [n] pixels with [b]-bit codes. *)
Record ready_to_write (b n : Z) (g : GifFileType) : Prop := {
  rw_writeable : IS_WRITEABLE g.(Priv) = true;
  rw_bits : image_bits g = Some b;
  rw_depth : b <= 8;
  rw_buf : length g.(Priv).(Buf) = 256%nat;
  rw_count : g.(Priv).(PixelCount) = n;
  rw_pixels : 0 < n < 2 ^ 31;
  rw_space : 24 * n + 56 <= 4 * g.(Space)
}.

Definition write_image (lines : list (list Z)) : GifM unit := EGifSetupCompress ;;! put_lines lines.

Lemma image_bits_range g b : image_bits g = Some b -> 2 <= b.
Proof.
  unfold image_bits. destruct (ColorMap (Image g)), (SColorMap g); intros [= <-]; lia.
Qed.

(** Writing never fails while there is room. *)
Lemma wp_write_image b lines g E :
  ready_to_write b (Z.of_nat (length (concat lines))) g -> Forall (fun l => l <> []) lines ->
  wp (write_image lines)
    (fun _ g' => exists data, g'.(Out) = g.(Out) ++ data /\ image_coded b (masked b (concat lines)) data) E g.
Proof.
  intros [Hwr Hbits Hb Hbuf Hpc Hn Hsp] Hne. pose proof (image_bits_range _ _ Hbits).
  unfold write_image. apply wp_bind. eapply wp_mono; [apply (wp_SetupCompress b); try done; lia| |done].
  intros _ g1 (Hst & Hcl & Hbpp & Hroom & Ho). apply (f_equal snd) in Ho. cbn in Ho. injection Ho as Efs Epc _.
  eapply wp_mono; [apply (wp_put_lines 0 g.(Out) b lines E [] (PixelCount (Priv g1)) g1); [|lia|done|rewrite Epc; lia]| |done].
  - split; [done|]. split; [done|]. split; [done|]. split; [unfold IS_WRITEABLE; by rewrite Efs|]. split; [done|].
    rewrite Epc, Hpc. destruct (Z.eqb_spec (Z.of_nat (length (concat lines))) 0); [lia|]. split; [done|lia].
  - intros _ g2 [(_ & _ & _ & _ & _ & Himg) _]. rewrite Epc, Hpc, Z.sub_diag in Himg. apply Himg.
Qed.

(** C2. An image that is written with [EGifSetupCompress] and calls of
    [EGifPutLine] is read back with [DGifSetupDecompress] and calls of
    [DGifGetLine]: neither side fails, the pixels are those written (masked to
    the depth), however the image is cut into lines on either side, and the
    decoder is left exactly behind the image. *)
Theorem image_roundtrip b lines cuts ge :
  ready_to_write b (Z.of_nat (length (concat lines))) ge ->
  Forall (fun l => l <> []) lines -> Forall (fun l => l <> []) cuts -> concat cuts = masked b (concat lines) ->
  exists ge' data, write_image lines ge = (Returns tt, ge') /\ ge'.(Out) = ge.(Out) ++ data /\
    forall gd rest, ready_to_read (Z.of_nat (length (concat lines))) gd -> gd.(In) = data ++ rest ->
      exists gd', read_image ((fun l => Z.of_nat (length l)) <$> cuts) gd = (Returns cuts, gd') /\ gd'.(In) = rest.
Proof.
  intros Hw Hne Hcne Hcut. pose proof (image_bits_range _ _ (rw_bits _ _ _ Hw)).
  pose proof (rw_depth _ _ _ Hw). pose proof (rw_pixels _ _ _ Hw).
  destruct (wp_returns _ _ _ (wp_write_image b lines ge _ Hw Hne)) as ([] & ge' & Hrun & data & Hout & Hdata).
  exists ge', data. split; [done|]. split; [done|]. intros gd rest Hr Hin.
  assert (length (concat cuts) = length (concat lines)) as Hlen by (rewrite Hcut; unfold masked; apply length_fmap).
  apply image_coded_data in Hdata; [|lia|by apply masked_range; lia]. rewrite <- Hcut in Hdata. rewrite <- Hlen in Hr.
  assert (2 <= b <= 8) as Hb by lia.
  assert (Forall (fun p => 0 <= p < 2 ^ b) (concat cuts)) as Hps by (rewrite Hcut; apply masked_range; lia).
  assert (cuts <> []) as Hnil by (intros ->; cbn in Hlen; lia).
  destruct (wp_returns _ _ _ (wp_read_image b cuts data rest gd _ Hb Hps Hcne Hnil Hr Hdata Hin)) as (r & gd' & Hrun' & -> & Hin').
  eauto.
Qed.

(** A writer and a reader of six pixels with two bits each. *)
Definition demo_map : ColorMapObject :=
  mkColorMapObject 4 2 false
    [mkGifColorType 0 0 0; mkGifColorType 255 0 0; mkGifColorType 0 255 0; mkGifColorType 0 0 255].

Definition demo_writer : GifFileType :=
  upd_priv (fun p => set_PixelCount 6 (set_FileState FILE_STATE_WRITE p))
    (set_SColorMap (Some demo_map) (set_Space 1000 (fresh_gif [] []))).

Definition demo_reader (input : list Z) : GifFileType :=
  upd_priv (fun p => set_PixelCount 6 (set_FileState FILE_STATE_READ p)) (fresh_gif input []).

Lemma demo_writer_ready : ready_to_write 2 6 demo_writer.
Proof. by split; vm_compute. Qed.

Lemma demo_reader_ready input : ready_to_read 6 (demo_reader input).
Proof. split; [done| |done|done]. repeat split. Qed.

Lemma image_roundtrip_witness :
  exists ge' data, write_image [[0; 1; 2]; [3; 7; 1]] demo_writer = (Returns tt, ge') /\ ge'.(Out) = data /\
    exists gd', read_image [2; 4] (demo_reader (data ++ [59])) = (Returns [[0; 1]; [2; 3; 3; 1]], gd') /\ gd'.(In) = [59].
Proof.
  destruct (image_roundtrip 2 [[0; 1; 2]; [3; 7; 1]] [[0; 1]; [2; 3; 3; 1]] demo_writer) as (ge' & data & Hrun & Hout & Hread).
  - exact demo_writer_ready.
  - repeat constructor; discriminate.
  - repeat constructor; discriminate.
  - reflexivity.
  - exists ge', data. split; [exact Hrun|]. split; [exact Hout|].
    exact (Hread (demo_reader (data ++ [59])) [59] (demo_reader_ready _) eq_refl).
Defined.

Example image_bytes :
  (snd (write_image [[0; 1; 2]; [3; 7; 1]] demo_writer)).(Out) = [2; 4; 68; 52; 19; 5; 0].
Proof. vm_compute. reflexivity. Qed.
