(* ===== verification/GifFormat.v ===== *)
(** * giflib: the bytes of a GIF file

    What the encoder writes for the parts of a file, as functions from the
    structures to bytes, and the conditions under which the parts can be read
    back.  A run of the encoder that has room is [emit]: it appends bytes to
    [Out] and takes them from [Space]. *)

From stdpp Require Import base numbers list list_numbers.
From Stdlib Require Import Lia ZArith.
From S2P Require Import Prelude GifTypes GifHash GifAlloc GifDecode GifSafety GifEncode GifBlocks Lzw GifCompress GifDecompress GifLines GifImages.

#[local] Open Scope Z_scope.
#[local] Open Scope c_scope.

(** ** The parts of a file *)

Definition word_bytes (w : Z) : list Z := [LOBYTE w; HIBYTE w].
Definition map_bytes (m : option ColorMapObject) : list Z :=
  match m with None => [] | Some m => concat (color_bytes <$> m.(Colors)) end.

Definition screen_bytes (g : GifFileType) : list Z :=
  word_bytes g.(SWidth) ++ word_bytes g.(SHeight) ++
  [screen_packed g.(SColorResolution) g.(SColorMap); g.(SBackGroundColor); g.(AspectByte)] ++ map_bytes g.(SColorMap).

Definition desc_bytes (d : GifImageDesc) : list Z :=
  word_bytes d.(Left) ++ word_bytes d.(Top) ++ word_bytes d.(Width) ++ word_bytes d.(Height) ++
  [image_packed d.(Interlace) d.(ColorMap)] ++ map_bytes d.(ColorMap).

(** An extension: its first block, and the blocks that continue it. *)
Definition extension : Type := ExtensionBlock * list ExtensionBlock.
Definition blocks_of (es : list extension) : list ExtensionBlock := flat_map (fun e => e.1 :: e.2) es.

Definition sub_block (ep : ExtensionBlock) : list Z := ep.(ByteCount) :: default [] ep.(Bytes).
Definition extension_bytes (e : extension) : list Z :=
  [EXTENSION_INTRODUCER; e.1.(Function)] ++ sub_block e.1 ++ concat (sub_block <$> e.2) ++ [0].

(** ** Structures that a file can hold *)

Definition color_ok (c : GifColorType) : Prop := byte c.(Red) /\ byte c.(Green) /\ byte c.(Blue).

Record map_ok (m : ColorMapObject) : Prop := {
  mo_bits : 1 <= m.(cm_BitsPerPixel) <= 8;
  mo_count : m.(ColorCount) = 2 ^ m.(cm_BitsPerPixel);
  mo_colors : Z.of_nat (length m.(Colors)) = m.(ColorCount);
  mo_bytes : Forall color_ok m.(Colors)
}.

Definition maps_ok (m : option ColorMapObject) : Prop := match m with None => True | Some m => map_ok m end.

Definition continues (ep : ExtensionBlock) : bool := ep.(Function) =? CONTINUE_EXT_FUNC_CODE.

Definition extension_ok (e : extension) : Prop :=
  block_ok e.1 /\ continues e.1 = false /\ Forall (fun ep => block_ok ep /\ continues ep = true) e.2.

(** An array of blocks that starts with no continuation. *)
Definition blocks_ok (cnt : Z) (blocks : option (list ExtensionBlock)) : Prop :=
  match blocks with
  | None => cnt = 0
  | Some l => cnt = Z.of_nat (length l) /\ Forall block_ok l /\ exists ep l', l = ep :: l' /\ continues ep = false
  end.

Lemma group_blocks l : Forall block_ok l ->
  exists cs es, l = cs ++ blocks_of es /\ Forall (fun ep => block_ok ep /\ continues ep = true) cs /\ Forall extension_ok es.
Proof.
  induction 1 as [|ep l Hep _ (cs & es & -> & Hcs & Hes)]; [by exists [], []|].
  destruct (continues ep) eqn:E.
  - exists (ep :: cs), es. split; [done|]. split; [|done]. by constructor.
  - exists [], ((ep, cs) :: es). split; [done|]. split; [done|]. constructor; [|done]. by split_and!.
Qed.

Lemma blocks_extensions cnt blocks : blocks_ok cnt blocks ->
  exists es, default [] blocks = blocks_of es /\ Forall extension_ok es /\ cnt = Z.of_nat (length (blocks_of es)) /\
    (blocks = None <-> es = []).
Proof.
  destruct blocks as [l|]; cbn.
  - intros (-> & Hall & ep & l' & -> & Hc). destruct (group_blocks _ Hall) as ([|c cs] & es & Hl & Hcs & Hes).
    + exists es. cbn in Hl. rewrite Hl. split; [done|]. split; [done|]. split; [done|]. split; [done|]. intros ->. done.
    + cbn in Hl. injection Hl as -> _. apply Forall_cons in Hcs as [[_ Hcs] _]. congruence.
  - intros ->. exists []. done.
Qed.

(** ** Writing *)

Definition emit (bs : list Z) (g : GifFileType) : GifFileType :=
  set_Space (g.(Space) - Z.of_nat (length bs)) (set_Out (g.(Out) ++ bs) g).

Lemma emit_app a b g : emit b (emit a g) = emit (a ++ b) g.
Proof. unfold emit, set_Space, set_Out. destruct g. cbn. rewrite length_app, app_assoc. f_equal. lia. Qed.

Lemma emit_nil g : emit [] g = g.
Proof. unfold emit, set_Space, set_Out. destruct g. cbn. rewrite app_nil_r, Z.sub_0_r. done. Qed.

Lemma wp_emit bs (Q : unit -> GifFileType -> Prop) E g :
  Z.of_nat (length bs) <= g.(Space) -> Q tt (emit bs g) -> wp (write_ bs) Q E g.
Proof. apply wp_write_. Qed.

Lemma wp_emit_full bs (Q : unit -> GifFileType -> Prop) E g :
  Z.of_nat (length bs) <= g.(Space) -> Q tt (emit bs g) -> wp (write_or_fail bs) Q E g.
Proof. apply wp_write_or_fail. Qed.

Lemma wp_PutWord w (Q : unit -> GifFileType -> Prop) E g :
  2 <= g.(Space) -> Q tt (emit (word_bytes w) g) -> wp (ignore (EGifPutWord w)) Q E g.
Proof. intros Hs HQ. apply wp_ignore. unfold EGifPutWord. apply wp_bind, wp_InternalWrite; [done|]. by apply wp_ret. Qed.

(** A [for] loop that writes a list of pieces. *)
Lemma wp_pieces {A} (P : GifFileType -> Prop) (f : A -> list Z) (body : Z -> GifM unit) l (Q : unit -> GifFileType -> Prop) E :
  (forall bs g, P g -> P (emit bs g)) -> forall i g, P g ->
  (forall k x g, P g -> l !! k = Some x -> Z.of_nat (length (f x)) <= g.(Space) ->
     forall Q : unit -> GifFileType -> Prop, Q tt (emit (f x) g) -> wp (body (i + Z.of_nat k)) Q E g) ->
  Z.of_nat (length (concat (f <$> l))) <= g.(Space) -> Q tt (emit (concat (f <$> l)) g) ->
  wp (for_each body (seqZ i (Z.of_nat (length l)))) Q E g.
Proof.
  intros HP. induction l as [|x l IH]; intros i g Hg Hb Hs HQ; cbn [length fmap list_fmap concat] in *.
  - rewrite seqZ_nil by lia. apply wp_ret. by rewrite emit_nil in HQ.
  - rewrite length_app in Hs. rewrite seqZ_cons by lia. cbn [for_each]. apply wp_bind. rewrite <- (Z.add_0_r i) at 1.
    apply (Hb O x); [done|done|lia|]. replace (Z.pred _) with (Z.of_nat (length l)) by lia. rewrite <- Z.add_1_r. apply IH; [by apply HP| | |].
    + intros k y g' Hg' Hk. replace (i + 1 + Z.of_nat k) with (i + Z.of_nat (S k)) by lia. by apply Hb.
    + cbn. lia.
    + by rewrite emit_app.
Qed.

Lemma wp_put_colors m (Q : unit -> GifFileType -> Prop) E g : map_ok m ->
  Z.of_nat (length (map_bytes (Some m))) <= g.(Space) -> Q tt (emit (map_bytes (Some m)) g) -> wp (put_colors m) Q E g.
Proof.
  intros Hm Hs HQ. unfold put_colors. rewrite <- (mo_colors _ Hm). apply (wp_pieces any color_bytes); [done|done| |done|done].
  intros k c g' _ Hk Hs' Q' HQ'. apply wp_bind, (wp_of_option _ c); [apply aget_lookup; [lia|by rewrite Z.add_0_l, Nat2Z.id]|].
  by apply wp_emit_full.
Qed.

(** What one round of [EGifWriteExtensions] writes for a block before [rest]. *)
Definition lead (ep : ExtensionBlock) : list Z := if continues ep then [] else [EXTENSION_INTRODUCER; ep.(Function)].
Definition trail (rest : list ExtensionBlock) : list Z :=
  match rest with [] => [0] | ep :: _ => if continues ep then [] else [0] end.

Fixpoint pieces (l : list ExtensionBlock) : list (list Z) :=
  match l with [] => [] | ep :: l => (lead ep ++ sub_block ep ++ trail l) :: pieces l end.

Lemma length_pieces l : length (pieces l) = length l.
Proof. induction l; cbn; auto. Qed.

Lemma pieces_lookup l : forall k p, pieces l !! k = Some p ->
  exists ep, l !! k = Some ep /\ p = lead ep ++ sub_block ep ++ trail (drop (S k) l).
Proof.
  induction l as [|ep l IH]; intros [|k] p; cbn [pieces]; try done.
  - intros [= <-]. by exists ep.
  - intros Hk. by apply (IH k p).
Qed.

Lemma pieces_extension cs rest : Forall (fun ep => block_ok ep /\ continues ep = true) cs -> forall ep,
  concat (pieces (ep :: cs ++ rest)) =
    lead ep ++ sub_block ep ++ concat (sub_block <$> cs) ++ trail rest ++ concat (pieces rest).
Proof.
  induction 1 as [|c cs [_ Hc] _ IH]; intros ep.
  { change (pieces (ep :: [] ++ rest)) with ((lead ep ++ sub_block ep ++ trail rest) :: pieces rest).
    cbn [concat fmap list_fmap app]. by rewrite <- !app_assoc. }
  change (pieces (ep :: (c :: cs) ++ rest)) with ((lead ep ++ sub_block ep ++ trail (c :: cs ++ rest)) :: pieces (c :: cs ++ rest)).
  cbn [concat]. rewrite IH. unfold trail at 1, lead at 2. rewrite Hc. cbn [app fmap list_fmap concat]. by rewrite app_nil_r, <- !app_assoc.
Qed.

Lemma pieces_extensions es : Forall extension_ok es -> concat (pieces (blocks_of es)) = concat (extension_bytes <$> es).
Proof.
  induction 1 as [|[ep cs] es (_ & Hep & Hcs) Hes IH]; [done|]. cbn [fst snd] in *.
  change (blocks_of ((ep, cs) :: es)) with (ep :: cs ++ blocks_of es). rewrite pieces_extension by done. rewrite IH.
  assert (trail (blocks_of es) = [0]) as ->.
  { destruct Hes as [|[e l] es (_ & He & _) _]; [done|]. cbn in He |- *. by rewrite He. }
  unfold lead. rewrite Hep. cbn [fmap list_fmap concat]. unfold extension_bytes. cbn [fst snd]. by rewrite <- !app_assoc.
Qed.

Lemma block_sub ep : block_ok ep -> exists bs, ep.(Bytes) = Some bs /\ Z.of_nat (length bs) = ep.(ByteCount) /\
  1 <= ep.(ByteCount) <= 255 /\ sub_block ep = ep.(ByteCount) :: bs /\ byte ep.(Function).
Proof. intros (bs & Hb & Hl & Hr & _ & Hf). exists bs. unfold sub_block. by rewrite Hb. Qed.

Lemma wp_writeable (Q : unit -> GifFileType -> Prop) E g :
  IS_WRITEABLE g.(Priv) = true -> Q tt g -> wp check_writeable Q E g.
Proof. intros Hw HQ. unfold check_writeable. do 2 wp_step. rewrite Hw. by apply wp_ret. Qed.

Lemma wp_PutExtensionBlock n bs (Q : unit -> GifFileType -> Prop) E g :
  IS_WRITEABLE g.(Priv) = true -> Z.of_nat (length bs) = n -> 1 <= n <= 255 -> 1 + n <= g.(Space) ->
  Q tt (emit (n :: bs) g) -> wp (EGifPutExtensionBlock n (Some bs)) Q E g.
Proof.
  intros Hw Hl Hn Hs HQ. unfold EGifPutExtensionBlock. apply wp_bind, wp_writeable; [done|].
  rewrite u8_small by lia. apply wp_bind, wp_emit; [cbn; lia|]. unfold write_from.
  rewrite (proj2 (Z.eqb_neq n 0)) by lia. apply wp_bind, (wp_of_option _ bs); [done|].
  rewrite (proj2 (orb_false_iff _ _)) by (split; apply Z.ltb_ge; lia). rewrite take_ge by lia.
  apply wp_emit; [cbn; lia|]. by rewrite emit_app.
Qed.

(** [EGifWriteExtensions] *)
Lemma wp_write_extensions es cnt blocks (Q : unit -> GifFileType -> Prop) E g :
  IS_WRITEABLE g.(Priv) = true -> Forall extension_ok es -> default [] blocks = blocks_of es ->
  cnt = Z.of_nat (length (blocks_of es)) ->
  Z.of_nat (length (concat (extension_bytes <$> es))) <= g.(Space) -> Q tt (emit (concat (extension_bytes <$> es)) g) ->
  wp (EGifWriteExtensions blocks cnt) Q E g.
Proof.
  intros Hw Hes Hb -> Hs HQ. unfold EGifWriteExtensions. destruct blocks as [l|].
  2: { cbn in Hb. destruct es as [|[? ?] ?]; [|done]. apply wp_ret. by rewrite emit_nil in HQ. }
  cbn in Hb. subst l. rewrite <- pieces_extensions in Hs, HQ by done. rewrite <- length_pieces.
  set (l := blocks_of es) in *. assert (Forall block_ok l) as Hall.
  { unfold l. clear -Hes. induction Hes as [|[e cs] es (H1 & _ & H2) _ IH]; [constructor|]. cbn in *. constructor; [done|].
    apply Forall_app. split; [|done]. eapply Forall_impl; [exact H2|]. by intros ? []. }
  apply (wp_pieces (fun g => IS_WRITEABLE g.(Priv) = true) id (write_extension l (Z.of_nat (length (pieces l)))));
    [done|done| |by rewrite list_fmap_id|by rewrite list_fmap_id].
  intros k p g' Hw' Hk Hs' Q' HQ'. rewrite Z.add_0_l, length_pieces. unfold id in *.
  destruct (pieces_lookup _ _ _ Hk) as (ep & Hep & ->). clear Hk.
  assert (block_ok ep) as Hok by (by eapply Forall_lookup_1). destruct (block_sub ep Hok) as (bs & Hbs & Hl & Hr & Hsub & Hf).
  rewrite !length_app in Hs'. rewrite Hsub in *. cbn [length] in Hs'.
  unfold write_extension. apply wp_bind, (wp_of_option _ ep); [apply aget_lookup; [lia|by rewrite Nat2Z.id]|].
  fold (continues ep). apply wp_bind. apply (wp_mono _ (fun _ g1 => g1 = emit (lead ep) g') _ nofail); [| |done].
  { unfold lead in *. destruct (continues ep); cbn [negb]; [apply wp_ret; by rewrite emit_nil|].
    unfold EGifPutExtensionLeader. apply wp_bind, wp_writeable; [done|]. rewrite u8_small by done. apply wp_emit; [cbn in *; lia|done]. }
  intros [] g1 ->. apply wp_bind. apply (wp_mono _ (fun _ g1 => g1 = emit (lead ep ++ ep.(ByteCount) :: bs) g') _ nofail); [| |done].
  { rewrite Hbs. apply wp_PutExtensionBlock; [done|done|done|cbn in *; lia|]. by rewrite emit_app. }
  intros [] g1 ->. apply wp_bind.
  set (isLast := match drop (S k) l with [] => true | next :: _ => negb (continues next) end).
  apply (wp_mono _ (fun b g2 => b = isLast /\ g2 = emit (lead ep ++ ep.(ByteCount) :: bs) g') _ nofail); [| |done].
  { unfold isLast. destruct (Z.eqb_spec (Z.of_nat k) (Z.of_nat (length l) - 1)) as [He|He].
    - apply wp_ret. by rewrite drop_ge by lia.
    - apply lookup_lt_Some in Hep as Hlt. destruct (lookup_lt_is_Some_2 l (S k)) as [next Hnext]; [lia|].
      apply wp_bind, (wp_of_option _ next); [apply aget_lookup; [lia|by replace (Z.to_nat (Z.of_nat k + 1)) with (S k) by lia]|].
      apply wp_ret. by rewrite (drop_S _ _ _ Hnext). }
  intros b g2 [-> ->]. assert (lead ep ++ (ByteCount ep :: bs) ++ trail (drop (S k) l) =
    (lead ep ++ ByteCount ep :: bs) ++ trail (drop (S k) l)) as Heq by (by rewrite <- app_assoc). rewrite Heq in HQ'.
  rewrite <- emit_app in HQ'. unfold isLast, trail in *. destruct (drop (S k) l) as [|next rest].
  - unfold EGifPutExtensionTrailer. apply wp_bind, wp_writeable; [done|]. apply wp_emit; [|done].
    change (Space (emit ?a g')) with (Space g' - Z.of_nat (length a)). rewrite length_app. cbn [length] in *. lia.
  - destruct (continues next); cbn [negb]; [apply wp_ret; by rewrite emit_nil in HQ'|].
    unfold EGifPutExtensionTrailer. apply wp_bind, wp_writeable; [done|]. apply wp_emit; [|done].
    change (Space (emit ?a g')) with (Space g' - Z.of_nat (length a)). rewrite length_app. cbn [length] in *. lia.
Qed.
