(* ===== verification/GifSpew.v ===== *)
(** * giflib: a handle, written to a file (EGifSpew)

    [EGifSpew] writes the stamp, the screen, every image with its extensions
    and its pixels, the extensions behind the images and the terminator, for
    every handle a file can hold, when there is room. *)

From stdpp Require Import base numbers list list_numbers.
From Stdlib Require Import Lia ZArith.
From S2P Require Import Prelude GifTypes GifHash GifAlloc GifDecode GifSafety GifEncode GifBlocks Lzw GifCompress GifDecompress GifLines GifImages GifFormat.

#[local] Open Scope Z_scope.
#[local] Open Scope c_scope.

(** ** Colour maps of the handle *)

Definition unsorted (m : ColorMapObject) : ColorMapObject := set_SortFlag false m.

Lemma wp_make_map m (Q : option ColorMapObject -> GifFileType -> Prop) E g :
  map_ok m -> plenty g -> (forall al, plenty (set_Alloc al g) -> Q (Some (unsorted m)) (set_Alloc al g)) ->
  wp (GifMakeMapObject m.(ColorCount) (Some m.(Colors))) Q E g.
Proof.
  intros [Hk Hn Hl _] Hp HQ.
  assert (2 ^ cm_BitsPerPixel m <= Z.of_nat (length (Colors m))) as Hroom by lia.
  pose proof (GifMakeMapObject_ok (cm_BitsPerPixel m) (Some (Colors m)) nofail g ltac:(lia) Hp Hroom) as H1.
  pose proof (GifMakeMapObject_safe (2 ^ cm_BitsPerPixel m) (Some (Colors m)) g Hroom) as H2. rewrite Hn.
  eapply wp_mono; [exact (wp_and _ _ _ _ _ _ H1 H2)| |by intros ? []].
  intros r g' [[Hp' ->] [[al ->] _]]. rewrite take_ge by lia.
  assert (mkColorMapObject (2 ^ cm_BitsPerPixel m) (cm_BitsPerPixel m) false (Colors m) = unsorted m) as ->; [|by apply HQ].
  unfold unsorted, set_SortFlag. by rewrite Hn.
Qed.

Lemma wp_copy_map m store (Q : unit -> GifFileType -> Prop) E g :
  maps_ok m -> plenty g ->
  (forall al, plenty (set_Alloc al g) -> wp (store (unsorted <$> m)) Q E (set_Alloc al g)) -> wp (copy_map m store) Q E g.
Proof.
  intros Hm Hp HQ. unfold copy_map. destruct m as [m|].
  - apply wp_bind, wp_make_map; [done|done|]. intros al Hal. apply wp_bind.
    eapply wp_mono; [apply (HQ al Hal)| |done]. intros [] g' HQ'. by apply wp_ret.
  - specialize (HQ (Alloc g)). replace (set_Alloc (Alloc g) g) with g in HQ by (by destruct g). by apply HQ.
Qed.

(** ** The version *)

Definition stamp (b : bool) : list Z := if b then GIF89_STAMP else GIF87_STAMP.

Lemma scan_extensions_ok cnt blocks b : counted block_ok cnt blocks -> exists b', scan_extensions blocks cnt b = Some b'.
Proof.
  unfold counted, scan_extensions. destruct blocks as [l|].
  - intros [-> _]. rewrite (proj2 (Z.ltb_ge _ _)) by lia. by eexists.
  - intros ->. by eexists.
Qed.

Lemma wp_GetGifVersion (Q : list Z -> GifFileType -> Prop) E g :
  counted (fun sp => counted block_ok sp.(sp_ExtensionBlockCount) sp.(sp_ExtensionBlocks)) g.(ImageCount) g.(SavedImages) ->
  counted block_ok g.(ExtensionBlockCount) g.(ExtensionBlocks) ->
  (forall b, Q (stamp b) (upd_priv (set_gif89 b) g)) -> wp EGifGetGifVersion Q E g.
Proof.
  intros Hi He HQ. unfold EGifGetGifVersion. do 2 wp_step. apply wp_bind.
  apply (wp_foldM (fun is' (_ : bool) g' => g' = g /\ Forall (fun i => 0 <= i < g.(ImageCount)) is')).
  - intros i l b g' [-> [Hi' Hl]%Forall_cons]. unfold counted in Hi. destruct (SavedImages g) as [images|]; [|lia].
    destruct Hi as [Hn Hall]. destruct (aget_Some images i) as [sp Hsp]; [lia|].
    destruct (scan_extensions_ok _ _ b (aget_Forall _ _ _ _ Hall Hsp)) as [b' Hb'].
    apply wp_bind, wp_ret. apply wp_bind, (wp_of_option _ sp); [done|]. by apply (wp_of_option _ b').
  - intros b g' [-> _]. destruct (scan_extensions_ok _ _ b He) as [b' Hb'].
    apply wp_bind, (wp_of_option _ b'); [done|]. apply wp_bind, wp_modify, wp_ret. apply (HQ b').
  - split; [done|]. apply Forall_forall. intros i Hi'%elem_of_seqZ. lia.
Qed.

(** ** The invariant of the writer *)

(** What [EGifSpew] needs of a handle [g0] and keeps while it writes; [bits] is
    the depth of the screen's colours. *)
Record spewing (g0 g : GifFileType) : Prop := {
  sw_write : IS_WRITEABLE g.(Priv) = true;
  sw_buf : length g.(Priv).(Buf) = 256%nat;
  sw_count : g.(Priv).(PixelCount) = 0;
  sw_plenty : plenty g;
  sw_images : (g.(ImageCount), g.(SavedImages)) = (g0.(ImageCount), g0.(SavedImages));
  sw_blocks : (g.(ExtensionBlockCount), g.(ExtensionBlocks)) = (g0.(ExtensionBlockCount), g0.(ExtensionBlocks));
  sw_map : cm_BitsPerPixel <$> g.(SColorMap) = cm_BitsPerPixel <$> g0.(SColorMap)
}.

Lemma spewing_emit g0 bs g : spewing g0 g -> spewing g0 (emit bs g).
Proof. intros []. by constructor. Qed.

Lemma test_lor a b m : Z.land b m = 0 -> test (Z.lor a b) m = test a m.
Proof. intros Hb. unfold test. by rewrite Z.land_lor_distr_l, Hb, Z.lor_0_r. Qed.

(** A screen a file can hold. *)
Record screen_fits (g : GifFileType) : Prop := {
  sf_width : word16 g.(SWidth);
  sf_height : word16 g.(SHeight);
  sf_res : 1 <= g.(SColorResolution) <= 8;
  sf_back : byte g.(SBackGroundColor);
  sf_aspect : byte g.(AspectByte);
  sf_map : maps_ok g.(SColorMap)
}.

Lemma wp_PutScreenDesc g0 (Q : unit -> GifFileType -> Prop) E :
  screen_fits g0 -> spewing g0 g0 -> test g0.(Priv).(FileState) FILE_STATE_SCREEN = false ->
  counted (fun sp => counted block_ok sp.(sp_ExtensionBlockCount) sp.(sp_ExtensionBlocks)) g0.(ImageCount) g0.(SavedImages) ->
  counted block_ok g0.(ExtensionBlockCount) g0.(ExtensionBlocks) ->
  6 + Z.of_nat (length (screen_bytes g0)) <= g0.(Space) ->
  (forall b g, spewing g0 g -> g.(Out) = g0.(Out) ++ stamp b ++ screen_bytes g0 ->
     g.(Space) = g0.(Space) - 6 - Z.of_nat (length (screen_bytes g0)) -> Q tt g) ->
  wp (EGifPutScreenDesc g0.(SWidth) g0.(SHeight) g0.(SColorResolution) g0.(SBackGroundColor) g0.(SColorMap)) Q E g0.
Proof.
  intros [Hw Hh Hr Hbk Ha Hm] [Hwr Hbuf Hpc Hp Him Hbl Hmp] Hscr Hi He Hs HQ.
  unfold EGifPutScreenDesc. do 2 wp_step. rewrite Hscr. apply wp_bind, wp_writeable; [done|].
  apply wp_bind, wp_GetGifVersion; [done|done|]. intros b. set (g1 := upd_priv _ g0).
  assert (length (stamp b) = 6%nat) as Hst by (by destruct b).
  assert (length (screen_bytes g0) = 7 + length (map_bytes (SColorMap g0)))%nat as Hsc.
  { unfold screen_bytes. rewrite !length_app. cbn. lia. }
  apply wp_bind, wp_emit_full; [change (Space g1) with (Space g0); lia|]. do 2 wp_step. cbv beta.
  set (g2 := set_SBackGroundColor _ _).
  apply wp_bind, wp_copy_map; [done|exact Hp|]. intros al Hal. apply wp_modify. set (g3 := set_SColorMap _ _).
  assert (Space g3 = Space g0 - 6) as Hs3 by (cbn; lia).
  apply wp_bind, wp_PutWord; [lia|]. apply wp_bind, wp_PutWord; [cbn in *; lia|]. do 2 wp_step. cbv beta.
  rewrite (u8_small (SBackGroundColor g0)) by done.
  change (AspectByte _) with (AspectByte g0). rewrite (u8_small (AspectByte g0)) by done.
  rewrite emit_app. apply wp_bind, wp_emit; [cbn in *; lia|]. rewrite emit_app, <- app_assoc.
  apply wp_bind. apply (wp_mono _ (fun _ g => g = emit (screen_bytes g0) g3) _ nofail); [| |done].
  - unfold screen_bytes. destruct (SColorMap g0) as [m|] eqn:Em.
    + apply wp_put_colors; [done|cbn [length] in *; cbn in *; lia|]. by rewrite emit_app.
    + by apply wp_ret.
  - intros [] g ->. apply wp_modify. apply (HQ b).
    + constructor; try done.
      * unfold IS_WRITEABLE. cbn. by rewrite test_lor.
      * cbn. by destruct (SColorMap g0).
    + cbn. by rewrite <- app_assoc.
    + cbn in *. lia.
Qed.

(** ** Images *)

(** The depth of an image's pixels. *)
Definition depth (g0 : GifFileType) (d : GifImageDesc) : option Z :=
  Z.max 2 <$> (match d.(ColorMap) with Some m => Some m.(cm_BitsPerPixel) | None => cm_BitsPerPixel <$> g0.(SColorMap) end).

(** An image a file can hold.  The file has no sort flag for a local map. *)
Record image_fits (g0 : GifFileType) (sp : SavedImage) (b : Z) (r : list Z) : Prop := {
  if_place : word16 sp.(ImageDesc).(Left) /\ word16 sp.(ImageDesc).(Top);
  if_size : 0 < sp.(ImageDesc).(Width) < 65536 /\ 0 < sp.(ImageDesc).(Height) < 65536;
  if_area : sp.(ImageDesc).(Width) * sp.(ImageDesc).(Height) < 2 ^ 31;
  if_map : maps_ok sp.(ImageDesc).(ColorMap);
  if_sort : match sp.(ImageDesc).(ColorMap) with Some m => m.(SortFlag) = false | None => True end;
  if_depth : depth g0 sp.(ImageDesc) = Some b;
  if_raster : sp.(RasterBits) = Some r;
  if_length : Z.of_nat (length r) = sp.(ImageDesc).(Width) * sp.(ImageDesc).(Height);
  if_pixels : Forall (fun p => 0 <= p < 2 ^ b) r;
  if_blocks : blocks_ok sp.(sp_ExtensionBlockCount) sp.(sp_ExtensionBlocks)
}.

Lemma depth_range_fits g0 d b : maps_ok g0.(SColorMap) -> maps_ok d.(ColorMap) -> depth g0 d = Some b -> 2 <= b <= 8.
Proof.
  unfold depth. intros Hs Hd. destruct (ColorMap d) as [m|]; [|destruct (SColorMap g0) as [m|]; [|done]];
    intros [= <-]; [destruct Hd|destruct Hs]; lia.
Qed.

(** The block buffer keeps its size. *)
Definition buf_full (g : GifFileType) : Prop := length g.(Priv).(Buf) = 256%nat.

Lemma keeps_buf_set i v : keeps buf_full (set_Buf_at i v).
Proof.
  intros g Hg. unfold set_Buf_at, bind, gets, of_option, modify. destruct (aset (Buf (Priv g)) i v) as [buf|] eqn:E; [|done].
  apply aset_length in E. unfold buf_full in *. cbn. congruence.
Qed.

#[local] Hint Resolve keeps_buf_set : keeps.

Lemma keeps_buf_write bs : keeps buf_full (InternalWrite bs).
Proof. by intros g. Qed.

#[local] Hint Resolve keeps_buf_write : keeps.

Lemma keeps_buf_err {A} e : keeps buf_full (@err A e).
Proof. by intros g. Qed.

#[local] Hint Resolve keeps_buf_err : keeps.

Lemma keeps_buf_output c : keeps buf_full (EGifBufferedOutput c).
Proof. unfold EGifBufferedOutput, write_or_fail. keep. Qed.

#[local] Hint Resolve keeps_buf_output : keeps.

Lemma keeps_buf_code c : keeps buf_full (output_code c).
Proof. unfold output_code, EGifCompressOutput, emit_bytes, emit_byte. keep. Qed.

#[local] Hint Resolve keeps_buf_code : keeps.

Lemma keeps_buf_setup : keeps buf_full EGifSetupCompress.
Proof. unfold EGifSetupCompress, write_. keep. Qed.

Lemma keeps_buf_line Line n : keeps buf_full (EGifPutLine Line n).
Proof. unfold EGifPutLine, EGifPutLine_at, check_writeable, EGifCompressLine, compress_pixel, finish_image. keep. Qed.

(** The state behind the descriptor of an image. *)
Lemma wp_PutImageDesc g0 g sp b r spare (Q : unit -> GifFileType -> Prop) E :
  let d := sp.(ImageDesc) in
  maps_ok g0.(SColorMap) -> spewing g0 g -> image_fits g0 sp b r -> 0 <= spare ->
  4 * (1 + Z.of_nat (length (desc_bytes d))) + 24 * (d.(Width) * d.(Height)) + 56 + spare <= 4 * g.(Space) ->
  (forall g', enc_image spare (g.(Out) ++ [DESCRIPTOR_INTRODUCER] ++ desc_bytes d) b [] (d.(Width) * d.(Height)) g' ->
     length g'.(Priv).(Buf) = 256%nat -> plenty g' ->
     (g'.(ImageCount), g'.(SavedImages), (g'.(ExtensionBlockCount), g'.(ExtensionBlocks)), g'.(SColorMap)) =
     (g.(ImageCount), g.(SavedImages), (g.(ExtensionBlockCount), g.(ExtensionBlocks)), g.(SColorMap)) -> Q tt g') ->
  wp (EGifPutImageDesc d.(Left) d.(Top) d.(Width) d.(Height) d.(Interlace) d.(ColorMap)) Q E g.
Proof.
  intros d Hscreen [Hwr Hbuf Hpc Hp Him Hbl Hmp] [[Hl Ht] [Hw Hh] Harea Hm _ Hdep _ _ _ _] Hspare Hroom HQ. fold d in Hl, Ht, Hw, Hh, Harea, Hm, Hdep.
  pose proof (depth_range_fits _ _ _ Hscreen Hm Hdep) as Hb. change (2 ^ 31) with 2147483648 in Harea.
  assert (length (desc_bytes d) = 9 + length (map_bytes (ColorMap d)))%nat as Hlen.
  { unfold desc_bytes. rewrite !length_app. cbn. lia. }
  unfold EGifPutImageDesc. do 2 wp_step. rewrite Hpc. rewrite andb_false_r.
  apply wp_bind, wp_writeable; [done|]. apply wp_bind, wp_modify. set (g1 := upd_Image _ g).
  apply wp_bind, wp_copy_map; [done|exact Hp|]. intros al Hal. apply wp_modify. set (g2 := upd_Image _ (set_Alloc al g1)).
  assert (Space g2 = Space g) as Hs2 by done.
  apply wp_bind, wp_emit; [cbn in *; lia|]. do 4 (apply wp_bind, wp_PutWord; [cbn in *; lia|]). rewrite !emit_app.
  apply wp_bind, wp_emit; [cbn in *; lia|]. rewrite emit_app. apply wp_bind.
  apply (wp_mono _ (fun _ g' => g' = emit ([DESCRIPTOR_INTRODUCER] ++ desc_bytes d) g2) _ nofail); [| |done].
  { destruct (ColorMap d) as [m|] eqn:Em; unfold desc_bytes in *; rewrite Em in *.
    - apply wp_put_colors; [done|cbn in *; lia|]. by rewrite emit_app.
    - by apply wp_ret. }
  intros [] g3 ->. do 2 wp_step. set (g3 := emit _ g2).
  assert (image_bits g3 = Some b) as Hbits.
  { unfold image_bits, depth in *. change (ColorMap (Image g3)) with (unsorted <$> ColorMap d). change (SColorMap g3) with (SColorMap g).
    destruct (ColorMap d) as [m|]; [exact Hdep|]. cbn. destruct (SColorMap g) as [m|], (SColorMap g0) as [m0|]; try done.
    injection Hmp as Hmp. cbn in Hdep. rewrite Hmp. exact Hdep. }
  assert (is_Some (SColorMap g3) = false -> is_Some (ColorMap (Image g3)) = true) as Hone.
  { unfold image_bits in Hbits. by destruct (SColorMap g3), (ColorMap (Image g3)). }
  apply wp_bind. apply (wp_mono _ (fun _ g' => g' = g3) _ nofail); [| |done].
  { destruct (is_Some (SColorMap g3)); [by apply wp_ret|]. rewrite Hone by done. by apply wp_ret. }
  intros [] ? ->. apply wp_bind, wp_modify. rewrite u32_small by nia. set (g4 := upd_priv _ g3).
  assert (Space g4 = Space g - 1 - Z.of_nat (length (desc_bytes d))) as Hs4 by (cbn in *; lia).
  assert (buf_full g4) as Hb4 by done.
  assert (16 <= 4 * Space g4) as Hs16 by lia. assert (b <= 8) as Hb8 by lia.
  pose proof (wp_keeps buf_full _ _ _ g4 keeps_buf_setup Hb4 (wp_SetupCompress b g4 nofail Hbits Hb8 Hb4 Hs16)) as Hsetup.
  apply wp_ignore. eapply wp_mono; [exact Hsetup| |by intros ? []].
  intros [] g' [(Hst & Hcl & Hbpp & Hr & Ho) Hb']. pose proof (f_equal fst Ho) as Hf. apply (f_equal snd) in Ho. cbn in Ho.
  injection Ho as Efs Epc _. cbn [fst] in Hf.
  assert (forall A (f : GifFileType -> A), f (set_Priv zero_private (set_Out [] (set_Space 0 g'))) =
      f (set_Priv zero_private (set_Out [] (set_Space 0 g4)))) as Hfield by (intros A f; by f_equal).
    apply HQ.
    + split; [by rewrite Epc|]. split; [done|]. split; [done|]. split.
      { unfold IS_WRITEABLE. rewrite Efs. by rewrite test_lor. }
      split; [done|]. rewrite (proj2 (Z.eqb_neq _ 0)) by nia. split; [exact Hst|]. lia.
    + exact Hb'.
    + pose proof (Hfield _ Alloc) as Ha. cbn in Ha. change (plenty (Alloc g')). rewrite Ha. exact Hal.
    + pose proof (Hfield _ ImageCount) as H1. pose proof (Hfield _ SavedImages) as H2. pose proof (Hfield _ ExtensionBlockCount) as H3.
      pose proof (Hfield _ ExtensionBlocks) as H4. pose proof (Hfield _ SColorMap) as H5. cbn in H1, H2, H3, H4, H5. congruence.
Qed.

(** ** Rows *)

(** The row [j] of a raster. *)
Definition row (w : Z) (r : list Z) (j : Z) : list Z := take (Z.to_nat w) (drop (Z.to_nat (j * w)) r).

Lemma length_row w h r j : Z.of_nat (length r) = w * h -> 0 <= w -> 0 <= j < h -> Z.of_nat (length (row w r j)) = w.
Proof. intros Hl Hw Hj. unfold row. rewrite length_take, length_drop. nia. Qed.

(** The masked pixels are stored where they came from. *)
Lemma PutLine_write_back wb Line n g :
  (forall L g1 Mask, aget CodeMask g.(Priv).(BitsPerPixel) = Some Mask -> g1.(SavedImages) = g.(SavedImages) ->
     L = ((fun p => Z.land p Mask) <$> take (Z.to_nat n) Line) ++ drop (Z.to_nat n) Line -> wb L g1 = (Returns tt, g1)) -> n <> 0 ->
  EGifPutLine_at wb Line n g = EGifPutLine Line n g.
Proof.
  intros Hwb Hn. unfold EGifPutLine, EGifPutLine_at, check_writeable, bind, gets, ret.
  destruct (IS_WRITEABLE (Priv g)); [|done]. rewrite (proj2 (Z.eqb_neq n 0)) by done.
  destruct (PixelCount (Priv g) <? u32 n); [done|]. unfold modify. destruct (aget CodeMask (BitsPerPixel (Priv g))) as [Mask|] eqn:Em; [|done].
  unfold of_option, ret. destruct (Z.of_nat (length Line) <? n); [done|]. by rewrite (Hwb _ _ Mask).
Qed.

Lemma blit_self {A} (l : list A) k : (k <= length l)%nat -> blit l (Z.of_nat k) (drop k l) = Some l.
Proof.
  intros Hk. destruct (blit_spec (drop k l) l (Z.of_nat k)) as (l' & Hb & Hl & Hlk); [lia|rewrite length_drop; lia|].
  rewrite Hb. f_equal. apply list_eq. intros j. rewrite Hlk. destruct (decide _) as [Hj|]; [|done].
  rewrite lookup_drop. f_equal. lia.
Qed.

Lemma masked_id b ps : Forall (fun p => 0 <= p < 2 ^ b) ps -> masked b ps = ps.
Proof. unfold masked. induction 1 as [|p ps Hp _ IH]; [done|]. cbn. f_equal; [by apply Z.mod_small|exact IH]. Qed.

Lemma put_row_line i off w g l sp r b :
  g.(SavedImages) = Some l -> aget l i = Some sp -> sp.(RasterBits) = Some r ->
  g.(Priv).(BitsPerPixel) = b -> 0 <= b <= 8 -> Forall (fun p => 0 <= p < 2 ^ b) r ->
  0 <= off <= Z.of_nat (length r) -> w <> 0 ->
  put_row i off w g = EGifPutLine (drop (Z.to_nat off) r) w g.
Proof.
  intros Hl Hsp Hr Hb Hb8 Hps Hoff Hw. unfold put_row, bind at 1, gets, of_option, bind. rewrite Hl. unfold ret. rewrite Hsp, Hr.
  apply PutLine_write_back; [|done]. intros L g1 Mask Hm Hg1 ->. rewrite Hb, CodeMask_get in Hm by done. injection Hm as <-.
  assert (((fun p => Z.land p (Z.ones b)) <$> take (Z.to_nat w) (drop (Z.to_nat off) r)) = take (Z.to_nat w) (drop (Z.to_nat off) r)) as ->.
  { rewrite masked_land by lia. by apply masked_id, Forall_take, Forall_drop. }
  rewrite take_drop. unfold store_pixels, upd_saved, bind, gets, of_option. rewrite Hg1, Hl. unfold ret. rewrite Hsp, Hr.
  assert (blit r off (drop (Z.to_nat off) r) = Some r) as ->.
  { rewrite <- (Z2Nat.id off) at 1 by lia. apply blit_self. lia. }
  cbn [option_map]. replace (set_RasterBits (Some r) sp) with sp by (destruct sp; cbn in *; by rewrite Hr).
  assert (aset l i sp = Some l) as ->.
  { apply aget_lt in Hsp as Hlt. rewrite aset_Some by done. f_equal. apply list_insert_id.
    unfold aget in Hsp. by rewrite decide_True in Hsp by lia. }
  unfold modify. f_equal. destruct g1; cbn in *. by rewrite Hg1, Hl.
Qed.

Lemma keeps_buf_row i off w g l sp r b :
  g.(SavedImages) = Some l -> aget l i = Some sp -> sp.(RasterBits) = Some r ->
  g.(Priv).(BitsPerPixel) = b -> 0 <= b <= 8 -> Forall (fun p => 0 <= p < 2 ^ b) r ->
  0 <= off <= Z.of_nat (length r) -> w <> 0 -> buf_full g -> buf_full (put_row i off w g).2.
Proof. intros. erewrite put_row_line by eassumption. by apply keeps_buf_line. Qed.

Lemma outside0_images g g' : outside0 g' = outside0 g -> g'.(SavedImages) = g.(SavedImages).
Proof. intros H. pose proof (f_equal (fun x => SavedImages x.1) H) as H'. exact H'. Qed.

Section Rows.
Context (i : Z) (l : list SavedImage) (sp : SavedImage) (r : list Z) (b w h spare : Z) (base : list Z).
Context (Hsp : aget l i = Some sp) (Hr : sp.(RasterBits) = Some r) (Hb : 2 <= b <= 8)
  (Hps : Forall (fun p => 0 <= p < 2 ^ b) r) (Hlen : Z.of_nat (length r) = w * h) (Hw : 0 < w).

Lemma wp_put_row j done_ left g E :
  g.(SavedImages) = Some l -> buf_full g -> enc_image spare base b done_ left g -> 0 <= j < h -> w <= left < 2 ^ 31 ->
  wp (put_row i (j * w) w)
    (fun _ g' => enc_image spare base b (done_ ++ row w r j) (left - w) g' /\
       outside0 g' = outside0 (upd_priv (set_PixelCount (left - w)) g) /\ buf_full g') E g.
Proof.
  intros Hl Hbuf Himg Hj Hleft. pose proof Himg as (_ & Hbpp & _).
  assert (0 <= j * w <= Z.of_nat (length r)) as Hoff by nia.
  apply (wp_fun_eq _ (EGifPutLine (drop (Z.to_nat (j * w)) r) w)); [apply (put_row_line _ _ _ _ l sp r b); try done; lia|].
  pose proof (length_row w h r j Hlen ltac:(lia) Hj) as Hrow.
  assert (drop (Z.to_nat (j * w)) r = row w r j ++ drop (Z.to_nat w) (drop (Z.to_nat (j * w)) r)) as Hsplit by (unfold row; by rewrite take_drop).
  rewrite Hsplit.
  assert (masked b (row w r j) = row w r j) as Hmask by (apply masked_id; unfold row; by apply Forall_take, Forall_drop).
  assert (row w r j <> []) as Hne by (intros Hnil; rewrite Hnil in Hrow; cbn in Hrow; lia).
  pose proof (wp_PutLine spare base b done_ left (row w r j) (drop (Z.to_nat w) (drop (Z.to_nat (j * w)) r)) w g nofail
    Himg Hb Hne (eq_sym Hrow) Hleft) as Hput.
  eapply wp_mono; [exact (wp_keeps buf_full _ _ _ g (keeps_buf_line _ _) Hbuf Hput)| |by intros ? []].
  intros [] g' [[H1 H2] H3]. rewrite Hmask in H1. exact (conj H1 (conj H2 H3)).
Qed.

Lemma wp_put_rows E js : forall done_ left g,
  g.(SavedImages) = Some l -> buf_full g -> enc_image spare base b done_ left g -> Forall (fun j => 0 <= j < h) js ->
  Z.of_nat (length js) * w <= left < 2 ^ 31 ->
  wp (for_each (fun j => put_row i (j * w) w) js)
    (fun _ g' => enc_image spare base b (done_ ++ concat (row w r <$> js)) (left - Z.of_nat (length js) * w) g' /\
       outside0 g' = outside0 (upd_priv (set_PixelCount (left - Z.of_nat (length js) * w)) g) /\ buf_full g') E g.
Proof.
  induction js as [|j js IH]; intros done_ left g Hl Hbuf Himg Hjs Hleft; cbn [for_each fmap list_fmap concat length] in *.
  - apply wp_ret. rewrite app_nil_r, Z.sub_0_r. split; [done|]. split; [|done]. destruct Himg as [<- _].
    by destruct g as [? ? ? ? ? ? ? ? ? ? ? ? [] ? ? ? ?].
  - apply Forall_cons in Hjs as [Hj Hjs]. apply wp_bind. eapply wp_mono; [apply (wp_put_row j done_ left); try done; lia| |done].
    intros [] g1 (Himg1 & Ho1 & Hbuf1). pose proof (eq_trans (outside0_images _ _ Ho1) Hl) as Hl1.
    eapply wp_mono; [apply (IH (done_ ++ row w r j) (left - w) g1 Hl1 Hbuf1 Himg1 Hjs); lia| |done].
    intros [] g2 (Himg2 & Ho2 & Hbuf2). rewrite <- app_assoc in Himg2.
    replace (left - Z.of_nat (S (length js)) * w) with (left - w - Z.of_nat (length js) * w) by lia.
    split; [exact Himg2|]. split; [|exact Hbuf2]. by rewrite Ho2, (outside0_count _ _ _ Ho1).
Qed.
End Rows.

(** ** A whole image *)

(** The rows in the order of the file. *)
Definition file_rows (d : GifImageDesc) : list Z := if d.(Interlace) then interlace_rows d.(Height) else seqZ 0 d.(Height).

(** The bytes of an image: its extensions, its descriptor and its data. *)
Definition image_file (b : Z) (r : list Z) (sp : SavedImage) (es : list extension) (bytes : list Z) : Prop :=
  exists data, bytes = concat (extension_bytes <$> es) ++ ([DESCRIPTOR_INTRODUCER] ++ desc_bytes sp.(ImageDesc)) ++ data /\
    image_coded b (concat (row sp.(ImageDesc).(Width) r <$> file_rows sp.(ImageDesc))) data.

(** The room an image needs at most. *)
Definition image_room (sp : SavedImage) (es : list extension) : Z :=
  Z.of_nat (length (concat (extension_bytes <$> es))) + 1 + Z.of_nat (length (desc_bytes sp.(ImageDesc))) +
  6 * (sp.(ImageDesc).(Width) * sp.(ImageDesc).(Height)) + 14.

Lemma interlace_rows_length h : 0 <= h -> Z.of_nat (length (interlace_rows h)) = h.
Proof.
  intros Hh. assert (interlace_rows h ≡ₚ seqZ 0 h) as ->; [|rewrite length_seqZ; lia].
  apply NoDup_Permutation; [apply NoDup_interlace_rows|apply NoDup_seqZ|]. intros j. rewrite elem_of_interlace_rows, elem_of_seqZ. lia.
Qed.

Lemma file_rows_spec d : 0 <= d.(Height) ->
  Z.of_nat (length (file_rows d)) = d.(Height) /\ Forall (fun j => 0 <= j < d.(Height)) (file_rows d).
Proof.
  intros Hh. unfold file_rows. destruct (Interlace d).
  - split; [by apply interlace_rows_length|]. apply Forall_forall. intros j. apply elem_of_interlace_rows.
  - split; [rewrite length_seqZ; lia|]. apply Forall_forall. intros j. rewrite elem_of_seqZ. lia.
Qed.

Lemma wp_spew_image g0 g l i sp b r es (Q : unit -> GifFileType -> Prop) E :
  maps_ok g0.(SColorMap) -> spewing g0 g -> g0.(SavedImages) = Some l -> aget l i = Some sp -> image_fits g0 sp b r ->
  default [] sp.(sp_ExtensionBlocks) = blocks_of es -> Forall extension_ok es ->
  sp.(sp_ExtensionBlockCount) = Z.of_nat (length (blocks_of es)) -> image_room sp es <= g.(Space) ->
  (forall g' bytes, spewing g0 g' -> g'.(Out) = g.(Out) ++ bytes -> image_file b r sp es bytes ->
     g.(Space) - image_room sp es <= g'.(Space) -> Q tt g') ->
  wp (spew_image i) Q E g.
Proof.
  intros Hscr Hsw Hl Hsp Hfits Hbl Hes Hcnt Hroom HQ. pose proof Hfits as [_ [Hw Hh] Harea Hm _ Hdep Hr Hlen Hps _].
  pose proof (depth_range_fits _ _ _ Hscr Hm Hdep) as Hb.
  pose proof (sw_images _ _ Hsw) as Him. injection Him as Hcount Himgs.
  unfold spew_image. do 2 wp_step. rewrite Himgs, Hl. apply wp_bind, wp_ret. apply wp_bind, (wp_of_option _ sp); [done|]. rewrite Hr.
  set (d := ImageDesc sp) in *. unfold image_room in *. fold d in Hroom, HQ.
  apply wp_bind, (wp_write_extensions es); [apply Hsw|done|done|done|lia|]. set (g1 := emit _ g).
  assert (spewing g0 g1) as Hsw1 by (by apply spewing_emit).
  assert (Space g1 = Space g - Z.of_nat (length (concat (extension_bytes <$> es)))) as Hs1 by done.
  set (spare := 4 * Space g1 - 4 * (1 + Z.of_nat (length (desc_bytes d))) - 24 * (Width d * Height d) - 56).
  apply wp_bind. apply (wp_PutImageDesc g0 g1 sp b r spare); [done|done|done|lia|fold d; lia|].
  intros g2 Himg2 Hbuf2 Hp2 Hsame2. injection Hsame2 as E1 E2 E3 E4 E5. fold d in Himg2.
  destruct (file_rows_spec d) as [Hrl Hra]; [lia|].
  change (2 ^ 31) with 2147483648 in Harea.
  pose proof (wp_put_rows i l sp r b (Width d) (Height d) spare (Out g1 ++ [DESCRIPTOR_INTRODUCER] ++ desc_bytes d) Hsp Hr Hb Hps Hlen ltac:(lia) nofail (file_rows d) [] (Width d * Height d) g2) as Hrows.
  fold (file_rows d). eapply wp_mono; [apply Hrows| |by intros ? []]; [|exact Hbuf2|exact Himg2|exact Hra| |].
  - rewrite E2. pose proof (sw_images _ _ Hsw1) as H. injection H as _ ->. exact Hl.
  - rewrite Hrl. change (2 ^ 31) with 2147483648. lia.
  - intros [] g3 (Himg3 & Ho3 & Hbuf3). rewrite Hrl in Himg3, Ho3. replace (Width d * Height d - Height d * Width d) with 0 in * by lia.
    destruct Himg3 as (Hpc3 & _ & _ & Hwr3 & _ & (data & Hout3 & Hdata) & Hsp3). 
    assert (forall A (f : GifFileType -> A), f (set_Priv zero_private (set_Out [] (set_Space 0 g3))) =
      f (set_Priv zero_private (set_Out [] (set_Space 0 g2)))) as Hfield by (intros A f; f_equal; exact (f_equal fst Ho3)).
    pose proof (Hfield _ ImageCount) as F1. pose proof (Hfield _ SavedImages) as F2. pose proof (Hfield _ ExtensionBlockCount) as F3.
    pose proof (Hfield _ ExtensionBlocks) as F4. pose proof (Hfield _ SColorMap) as F5. pose proof (Hfield _ Alloc) as F6.
    cbn in F1, F2, F3, F4, F5, F6. destruct Hsw1 as [_ _ _ _ W1 W2 W3].
    apply (HQ g3 (concat (extension_bytes <$> es) ++ ([DESCRIPTOR_INTRODUCER] ++ desc_bytes d) ++ data)).
    + constructor; [done|done|done|change (plenty (Alloc g3)); by rewrite F6| | |].
      * by rewrite F1, F2, E1, E2.
      * by rewrite F3, F4, E3, E4.
      * by rewrite F5, E5.
    + rewrite Hout3. cbn [Out emit set_Space set_Out g1]. by rewrite <- !app_assoc.
    + exists data. split; [done|]. exact Hdata.
    + lia.
Qed.

(** ** The whole file *)

(** The extensions of a place in the file, as bytes. *)
Definition blocks_bytes (blocks : option (list ExtensionBlock)) : list Z := concat (pieces (default [] blocks)).

Lemma blocks_bytes_of blocks es : default [] blocks = blocks_of es -> Forall extension_ok es ->
  blocks_bytes blocks = concat (extension_bytes <$> es).
Proof. intros Hb Hes. unfold blocks_bytes. rewrite Hb. by apply pieces_extensions. Qed.

(** An image a file can hold, as a condition on the image alone. *)
Definition image_ok (g : GifFileType) (sp : SavedImage) : Prop := exists b r, image_fits g sp b r.

(** A handle a file can hold. *)
Record file_ok (g : GifFileType) : Prop := {
  fo_screen : screen_fits g;
  fo_images : exists l, g.(SavedImages) = Some l /\ g.(ImageCount) = Z.of_nat (length l) /\ l <> [] /\ Forall (image_ok g) l;
  fo_blocks : blocks_ok g.(ExtensionBlockCount) g.(ExtensionBlocks)
}.

(** A writer that has not started yet. *)
Record ready_to_spew (g : GifFileType) : Prop := {
  rs_write : IS_WRITEABLE g.(Priv) = true;
  rs_screen : test g.(Priv).(FileState) FILE_STATE_SCREEN = false;
  rs_buf : length g.(Priv).(Buf) = 256%nat;
  rs_count : g.(Priv).(PixelCount) = 0;
  rs_plenty : plenty g
}.

(** The room that is enough: a pixel takes at most six bytes, with its share
    of the clear codes and of the block lengths. *)
Definition image_space (sp : SavedImage) : Z :=
  Z.of_nat (length (blocks_bytes sp.(sp_ExtensionBlocks))) + 1 + Z.of_nat (length (desc_bytes sp.(ImageDesc))) +
  6 * (sp.(ImageDesc).(Width) * sp.(ImageDesc).(Height)) + 14.

Definition images_space (l : list SavedImage) : Z := foldr (fun sp n => image_space sp + n) 0 l.

Definition file_space (g : GifFileType) : Z :=
  6 + Z.of_nat (length (screen_bytes g)) + images_space (default [] g.(SavedImages)) +
  Z.of_nat (length (blocks_bytes g.(ExtensionBlocks))) + 1.

(** The bytes of images: each with its extensions in front. *)
Inductive images_file (g0 : GifFileType) : list SavedImage -> list Z -> Prop :=
| images_nil : images_file g0 [] []
| images_cons sp l b r es bytes rest :
    image_fits g0 sp b r -> default [] sp.(sp_ExtensionBlocks) = blocks_of es -> Forall extension_ok es ->
    image_file b r sp es bytes -> images_file g0 l rest -> images_file g0 (sp :: l) (bytes ++ rest).

Lemma images_space_pos g l : Forall (image_ok g) l -> 0 <= images_space l.
Proof.
  induction 1 as [|sp l (b & r & [_ [Hw Hh] _ _ _ _ _ _ _ _]) _ IH]; [done|].
  change (images_space (sp :: l)) with (image_space sp + images_space l). unfold image_space.
  assert (0 <= Width (ImageDesc sp) * Height (ImageDesc sp)) by nia. lia.
Qed.

Lemma wp_spew_images g0 l todo (Q : unit -> GifFileType -> Prop) E :
  maps_ok g0.(SColorMap) -> g0.(SavedImages) = Some l -> forall k g,
  spewing g0 g -> drop k l = todo -> Forall (image_ok g0) todo -> images_space todo <= g.(Space) ->
  (forall g' bytes, spewing g0 g' -> g'.(Out) = g.(Out) ++ bytes -> images_file g0 todo bytes ->
     g.(Space) - images_space todo <= g'.(Space) -> Q tt g') ->
  wp (for_each spew_image (seqZ (Z.of_nat k) (Z.of_nat (length todo)))) Q E g.
Proof.
  intros Hscr Hl. revert Q. induction todo as [|sp todo IH]; intros Q k g Hsw Hdrop Hok Hroom HQ; cbn [images_space foldr length] in *.
  - rewrite seqZ_nil by lia. apply wp_ret. apply (HQ g []); [done|by rewrite app_nil_r|constructor|lia].
  - apply Forall_cons in Hok as [(b & r & Hfits) Hok]. rewrite seqZ_cons by lia. cbn [for_each].
    destruct (blocks_extensions _ _ (if_blocks _ _ _ _ Hfits)) as (es & Hes & Hall & Hcnt & _).
    assert (l !! k = Some sp) as Hk by (rewrite <- (Nat.add_0_r k), <- lookup_drop, Hdrop; done).
    assert (image_room sp es = image_space sp) as Hrm.
    { unfold image_room, image_space. by rewrite (blocks_bytes_of _ es) by done. }
    pose proof (images_space_pos _ _ Hok) as Hpos.
    fold (images_space todo) in *. apply wp_bind, (wp_spew_image g0 g l (Z.of_nat k) sp b r es); try done.
    { apply aget_lookup; [lia|by rewrite Nat2Z.id]. }
    { lia. }
    intros g1 bytes Hsw1 Hout1 Hfile1 Hs1.
    replace (Z.pred (Z.of_nat (S (length todo)))) with (Z.of_nat (length todo)) by lia.
    replace (Z.succ (Z.of_nat k)) with (Z.of_nat (S k)) by lia.
    apply IH; [done| |done|lia|].
    + by rewrite (drop_S _ _ _ Hk) in Hdrop; injection Hdrop.
    + intros g2 rest Hsw2 Hout2 Hfile2 Hs2. apply (HQ g2 (bytes ++ rest)); [done| | |lia].
      * by rewrite Hout2, Hout1, <- app_assoc.
      * by apply (images_cons _ _ _ b r es).
Qed.

(** The bytes of a file. *)
Definition file_bytes (g0 : GifFileType) (b : bool) (images : list Z) : list Z :=
  stamp b ++ screen_bytes g0 ++ images ++ blocks_bytes g0.(ExtensionBlocks) ++ [TERMINATOR_INTRODUCER].

Lemma blocks_ok_counted cnt blocks : blocks_ok cnt blocks -> counted block_ok cnt blocks.
Proof. destruct blocks as [l|]; cbn; [|done]. by intros (? & ? & _). Qed.

Lemma wp_EGifSpew g0 l E :
  file_ok g0 -> ready_to_spew g0 -> file_space g0 <= g0.(Space) -> g0.(SavedImages) = Some l ->
  wp (EGifSpew true)
    (fun _ g => exists b bytes, images_file g0 l bytes /\ g.(Out) = g0.(Out) ++ file_bytes g0 b bytes) E g0.
Proof.
  intros [Hscr (l' & Hl' & Hcnt & Hne & Hall) Hbl] [Hwr Hst Hbuf Hpc Hp] Hroom Hl. rewrite Hl in Hl'. injection Hl' as <-.
  unfold file_space in Hroom. rewrite Hl in Hroom. change (default [] (Some l)) with l in Hroom.
  destruct (blocks_extensions _ _ Hbl) as (es & Hes & Hesok & Hn & _).
  assert (spewing g0 g0) as Hsw by by constructor.
  pose proof (images_space_pos _ _ Hall) as Hpos.
  unfold EGifSpew. do 2 wp_step. apply wp_bind, wp_PutScreenDesc; [done|done|done| |by apply blocks_ok_counted|lia|].
  { unfold counted. rewrite Hl. split; [done|]. eapply Forall_impl; [exact Hall|]. intros sp (b & r & Hf).
    apply blocks_ok_counted, Hf. }
  intros b g1 Hsw1 Hout1 Hs1. apply wp_bind. rewrite Hcnt.
  apply (wp_spew_images g0 l l _ _ (sf_map _ Hscr) Hl O g1); [done|done|done|lia|].
  intros g2 bytes Hsw2 Hout2 Hfile Hs2. do 2 wp_step. pose proof (sw_blocks _ _ Hsw2) as E2. injection E2 as -> ->.
  rewrite (blocks_bytes_of _ es) in Hroom by done.
  apply wp_bind, (wp_write_extensions es); [apply Hsw2|done|done|done|lia|]. set (g3 := emit _ g2).
  apply wp_bind. unfold EGifCloseFile. apply wp_bind, wp_gets. change (Priv g3) with (Priv g2).
  rewrite (sw_write _ _ Hsw2). cbn [negb]. apply wp_bind, wp_emit; [unfold g3; cbn; lia|].
  apply wp_bind, wp_modify, wp_bind, wp_modify, wp_ret, wp_ret. exists b, bytes. split; [done|].
  cbn. unfold file_bytes. rewrite (blocks_bytes_of _ es) by done. rewrite Hout2, Hout1, <- !app_assoc. done.
Qed.
