(* ===== verification/GifReadBack.v ===== *)
(** * giflib: a written file, read back (DGifOpen, DGifSlurp)

    Every part of a file that [EGifSpew] writes is read back by the routine
    that reads it: the screen, the extensions, the images; [file_roundtrip]
    puts them together. *)

From stdpp Require Import base numbers list list_numbers.
From Stdlib Require Import Lia ZArith.
From S2P Require Import Prelude GifTypes GifHash GifAlloc GifDecode GifSafety GifEncode GifBlocks Lzw GifCompress GifDecompress GifLines GifImages GifFormat GifSpew.

#[local] Open Scope Z_scope.
#[local] Open Scope c_scope.

(** ** Words, flags and colours *)

Lemma word_bytes_back w : word16 w -> UNSIGNED_LITTLE_ENDIAN (LOBYTE w) (HIBYTE w) = w.
Proof.
  unfold word16. intros Hw. unfold UNSIGNED_LITTLE_ENDIAN, LOBYTE, HIBYTE.
  change 0xff with (Z.ones 8). rewrite !Z.land_ones, Z.shiftr_div_pow2 by lia. change (2 ^ 8) with 256.
  pose proof (Z.mod_pos_bound w 256 ltac:(lia)). rewrite lor_shiftl by (change (2 ^ 8) with 256; lia). change (2 ^ 8) with 256.
  rewrite (Z.mod_small (w / 256)) by (split; [apply Z.div_pos; lia|apply Z.div_lt_upper_bound; lia]).
  pose proof (Z.div_mod w 256). lia.
Qed.

Lemma wp_word_back w rest (Q : Z -> GifFileType -> Prop) E g :
  word16 w -> g.(In) = word_bytes w ++ rest -> Q w (set_In rest g) -> wp DGifGetWord Q E g.
Proof.
  intros Hw Hin HQ. eapply wp_word_exact; [exact Hin|]. by rewrite word_bytes_back.
Qed.

Ltac eight H v :=
  assert (v = 1 \/ v = 2 \/ v = 3 \/ v = 4 \/ v = 5 \/ v = 6 \/ v = 7 \/ v = 8) as H by lia;
  repeat destruct H as [H|H].

(** The packed byte [b] of a screen is read as these values. *)
Definition packs (res : Z) (m : option ColorMapObject) (b : Z) : Prop :=
  Z.shiftr (Z.land b 0x70 + 1) 4 + 1 = res /\ test b 0x80 = is_Some m /\
  match m with Some m => Z.land b 7 + 1 = m.(cm_BitsPerPixel) /\ test b 0x08 = m.(SortFlag) | None => True end.

Lemma screen_packed_back res m : 1 <= res <= 8 -> maps_ok m -> packs res m (screen_packed res m).
Proof.
  intros Hr Hm. destruct m as [[n k sort cs]|]; [|eight Hres res; subst res; by vm_compute].
  destruct Hm as [Hk _ _ _]. cbn [cm_BitsPerPixel] in Hk.
  eight Hres res; subst res; eight Hk' k; subst k; destruct sort; by vm_compute.
Qed.

(** The packed byte of an image. *)
Lemma image_packed_back il m : maps_ok m ->
  let b := image_packed il m in
  test b 0x40 = il /\ test b 0x80 = is_Some m /\
  match m with Some m => Z.land b 7 + 1 = m.(cm_BitsPerPixel) | None => True end.
Proof.
  intros Hm. destruct m as [[n k sort cs]|]; [|by destruct il; vm_compute].
  destruct Hm as [Hk _ _ _]. cbn [cm_BitsPerPixel] in Hk. eight Hk' k; subst k; destruct il; by vm_compute.
Qed.

Lemma wp_read_colors_back cs rest c (Q : list GifColorType -> GifFileType -> Prop) E g :
  g.(In) = concat (color_bytes <$> cs) ++ rest -> Q cs (set_In rest g) ->
  wp (read_colors (Z.of_nat (length cs)) c) Q E g.
Proof.
  unfold read_colors. intros Hin HQ.
  apply (wp_foldM (fun is' done_ g' => exists todo, cs = done_ ++ todo /\ length is' = length todo /\
    g' = set_In (concat (color_bytes <$> todo) ++ rest) g)).
  - intros i l done_ g' ([|x todo] & -> & Hl & ->); [done|]. apply wp_bind.
    eapply (wp_READ_or_exact (color_bytes x)); [cbn [In set_In fmap list_fmap concat]; by rewrite <- app_assoc|done|].
    do 3 (eapply wp_bind, wp_of_option; [reflexivity|]). apply wp_ret. exists todo. rewrite <- app_assoc. split; [by destruct x|].
    split; [by injection Hl|]. by destruct g.
  - intros done_ g' ([|x todo] & -> & Hl & ->); [|done]. by rewrite app_nil_r in HQ.
  - exists cs. split; [done|]. split; [rewrite length_seqZ; lia|]. rewrite <- Hin. by destruct g.
Qed.

Lemma plenty_alloc g al : g.(Alloc) = al -> plenty al -> plenty g.
Proof. by intros <-. Qed.

(** The map that is made, filled and returned. *)
Lemma wp_read_map m (Q : option ColorMapObject -> GifFileType -> Prop) E g :
  map_ok m -> plenty g ->
  (forall al cs0, plenty al ->
     Q (Some (mkColorMapObject m.(ColorCount) m.(cm_BitsPerPixel) false cs0)) (set_Alloc al g)) ->
  wp (GifMakeMapObject (Z.shiftl 1 m.(cm_BitsPerPixel)) None) Q E g.
Proof.
  intros [Hk Hn _ _] Hp HQ. rewrite Z.shiftl_mul_pow2, Z.mul_1_l by lia.
  pose proof (GifMakeMapObject_ok (cm_BitsPerPixel m) None nofail g ltac:(lia) Hp I) as H1.
  pose proof (GifMakeMapObject_safe (2 ^ cm_BitsPerPixel m) None g I) as H2.
  eapply wp_mono; [exact (wp_and _ _ _ _ _ _ H1 H2)| |by intros ? []].
  intros r g' [[Hp' ->] [[al ->] _]]. rewrite <- Hn. apply HQ. exact Hp'.
Qed.

(** ** The state of the reader *)

Definition header (g : GifFileType) :=
  (g.(SWidth), g.(SHeight), g.(SColorResolution), g.(SBackGroundColor), g.(AspectByte), g.(SColorMap)).

Definition array_of {A} (l : list A) : option (list A) := match l with [] => None | _ => Some l end.

(** The header is [hdr]; the images [l] and behind them the extension blocks
    [es] have been read; the bytes [rest] are left. *)
Record reading hdr (l : list SavedImage) (es : list ExtensionBlock) (rest : list Z) (g : GifFileType) : Prop := {
  rb_ready : IS_READABLE g.(Priv) = true;
  rb_arrays : arrays_full g.(Priv);
  rb_plenty : plenty g;
  rb_header : header g = hdr;
  rb_images : (g.(ImageCount), g.(SavedImages)) = (Z.of_nat (length l), array_of l);
  rb_blocks : (g.(ExtensionBlockCount), g.(ExtensionBlocks)) = (Z.of_nat (length es), array_of es);
  rb_in : g.(In) = rest
}.

Lemma reading_in hdr l es rest rest' g : reading hdr l es rest g -> reading hdr l es rest' (set_In rest' g).
Proof. by intros []. Qed.

Lemma reading_buf hdr l es rest buf g : length buf = 256%nat -> reading hdr l es rest g ->
  reading hdr l es rest (upd_priv (set_Buf buf) g).
Proof. intros Hb [? [? _] ? ? ? ? ?]. by constructor. Qed.

Lemma wp_readable hdr l es rest (Q : unit -> GifFileType -> Prop) E g :
  reading hdr l es rest g -> Q tt g -> wp check_readable Q E g.
Proof. intros Hr HQ. unfold check_readable. do 2 wp_step. rewrite (rb_ready _ _ _ _ _ Hr). by apply wp_ret. Qed.

(** ** The screen *)

Definition header_bytes (hd : Z * Z * Z * Z * Z * option ColorMapObject) (pk : Z) : list Z :=
  let '(w, h, _, bg, asp, m) := hd in word_bytes w ++ word_bytes h ++ [pk; bg; asp] ++ map_bytes m.

Definition header_ok (hd : Z * Z * Z * Z * Z * option ColorMapObject) (pk : Z) : Prop :=
  let '(w, h, res, _, _, m) := hd in word16 w /\ word16 h /\ packs res m pk /\ maps_ok m.

Lemma wp_ScreenDesc_back hd pk hdr l es rest E g :
  header_ok hd pk -> reading hdr l es (header_bytes hd pk ++ rest) g ->
  wp DGifGetScreenDesc (fun _ g' => reading hd l es rest g') E g.
Proof.
  destruct hd as [[[[[w h] res] bg] asp] m]. intros (Hw & Hh & (Eres & Emap & Eback) & Hm) Hrd. unfold DGifGetScreenDesc. eapply wp_bind, wp_readable; [exact Hrd|].
  destruct Hrd as [Hread Harr Hp _ Him Hbl Hin]. unfold header_bytes in Hin. rewrite <- !app_assoc in Hin.
  apply wp_bind. eapply wp_word_back; [exact Hw|exact Hin|]. apply wp_bind, wp_modify.
  apply wp_bind. eapply wp_word_back; [exact Hh|reflexivity|]. apply wp_bind, wp_modify.
  apply wp_bind. eapply (wp_READ_or_exact [pk; bg; asp]); [reflexivity|done|].
  do 3 (eapply wp_bind, wp_of_option; [reflexivity|]). apply wp_bind, wp_modify. rewrite Eres.
  apply wp_bind, wp_modify. apply wp_bind, wp_modify. rewrite Emap.
  destruct m as [m|]; cbn [is_Some].
  - destruct Eback as [Ebits Esort]. rewrite Ebits, Esort. apply wp_bind, wp_read_map; [done|exact Hp|]. intros al cs0 Hal.
    apply wp_bind, wp_modify. cbv beta iota zeta. apply wp_bind, wp_modify. apply wp_bind.
    cbn [ColorCount set_SortFlag]. rewrite <- (mo_colors _ Hm). eapply wp_read_colors_back; [reflexivity|].
    apply wp_modify.
    constructor; [exact Hread|exact Harr|by apply (plenty_alloc _ al)| |exact Him|exact Hbl|reflexivity].
    unfold header. cbn. rewrite (mo_colors _ Hm). by destruct m.
  - apply wp_modify. by constructor; [exact Hread|exact Harr|exact Hp| |exact Him|exact Hbl|reflexivity].
Qed.

(** The header of a handle. *)
Lemma header_fits g0 : screen_fits g0 -> exists pk, screen_bytes g0 = header_bytes (header g0) pk /\ header_ok (header g0) pk.
Proof.
  intros [Hw Hh Hr _ _ Hm]. exists (screen_packed g0.(SColorResolution) g0.(SColorMap)). split; [done|].
  split; [done|]. split; [done|]. split; [by apply screen_packed_back|done].
Qed.

(** ** Extensions *)

Lemma array_counted {A} (ok : A -> Prop) l : Forall ok l -> counted ok (Z.of_nat (length l)) (array_of l).
Proof. by destruct l. Qed.

Lemma array_snoc {A} (l : list A) x : array_of (l ++ [x]) = Some (l ++ [x]).
Proof. by destruct l. Qed.

(** One more slot of an array, set. *)
Lemma array_grow {A} (l : list A) d :
  (match array_of l with Some l' => GifAlloc.resize (Z.of_nat (length l) + 1) d l' | None => [d] end) = l ++ [d].
Proof.
  destruct (append_slot (Z.of_nat (length l)) (array_of l) d any) as (l0 & Hl & _ & Harr & Hl0).
  { apply array_counted. by apply Forall_true. }
  destruct l as [|a l]; cbn in Hl0; subst l0; exact Harr.
Qed.

Lemma wp_add_extension hdr l es rest func data E g :
  reading hdr l es rest g ->
  wp (add_extension func data)
    (fun _ g' => reading hdr l (es ++ [mkExtensionBlock (Z.of_nat (length data)) (Some data) func]) rest g') E g.
Proof.
  intros [Hread Harr Hp Hh Him Hbl Hin]. injection Hbl as Hc Hb. unfold add_extension. do 2 wp_step. rewrite Hc, Hb.
  apply wp_bind. unfold GifAddExtensionBlock. apply wp_bind, wp_malloc. rewrite plenty_next by done.
  apply (wp_fun_eq _ (let arr := es ++ [zero_ext] in
    let! ok := malloc in
    let! bytes := (if negb ok then ret None
                   else if Z.of_nat (length data) <? Z.of_nat (length data) then stuck
                   else ret (Some (take (Z.to_nat (Z.of_nat (length data))) data))) in
    let! arr := of_option (aset arr (Z.of_nat (length es)) (mkExtensionBlock (Z.of_nat (length data)) bytes func)) in
    ret (ok, Z.of_nat (length es) + 1, Some arr))).
  { rewrite <- (array_grow es zero_ext). by destruct es. }
  cbv zeta. assert (plenty (drop_alloc g)) as Hp1 by by apply plenty_drop.
  apply wp_bind, wp_malloc. rewrite plenty_next by done. rewrite Z.ltb_irrefl, Nat2Z.id, firstn_all. cbn [negb].
  apply wp_bind, wp_ret. eapply wp_bind, wp_of_option; [apply aset_last|]. apply wp_ret. cbv beta iota zeta.
  assert (plenty (drop_alloc (drop_alloc g))) as Hp2 by by apply plenty_drop.
  apply wp_bind, wp_modify, wp_bind, wp_modify, wp_ret.
  constructor; [exact Hread|exact Harr| |exact Hh|exact Him| |exact Hin].
  - eapply plenty_alloc; [reflexivity|]. exact Hp2.
  - cbn [ExtensionBlockCount ExtensionBlocks set_ExtensionBlocks set_ExtensionBlockCount]. rewrite array_snoc, length_app. cbn [length]. f_equal. lia.
Qed.

Lemma wp_next_block hdr l es bs rest (Q : option (list Z) -> GifFileType -> Prop) E g :
  1 <= Z.of_nat (length bs) <= 255 -> reading hdr l es ((Z.of_nat (length bs) :: bs) ++ rest) g ->
  (forall g', reading hdr l es rest g' -> Q (Some bs) g') -> wp DGifGetExtensionNext Q E g.
Proof.
  intros Hl Hrd HQ. unfold DGifGetExtensionNext. apply wp_bind. eapply wp_READ_byte_exact; [apply Hrd|].
  destruct (Z.ltb_spec 0 (Z.of_nat (length bs))); [|lia]. apply (reading_in _ _ _ _ (bs ++ rest)) in Hrd.
  apply wp_bind, set_Buf_full; [apply Hrd|lia|]. intros b1 Hb1. apply (reading_buf _ _ _ _ b1) in Hrd; [|done].
  apply wp_bind. eapply wp_READ_exact; [reflexivity|done|]. apply (reading_in _ _ _ _ rest) in Hrd.
  apply wp_bind, store_buf_full; [apply Hrd|lia|lia|]. intros b2 Hb2. apply (reading_buf _ _ _ _ b2) in Hrd; [|done].
  rewrite Z.eqb_refl. apply wp_ret. apply HQ. exact Hrd.
Qed.

Lemma wp_no_block hdr l es rest (Q : option (list Z) -> GifFileType -> Prop) E g :
  reading hdr l es (0 :: rest) g -> (forall g', reading hdr l es rest g' -> Q None g') -> wp DGifGetExtensionNext Q E g.
Proof.
  intros Hrd HQ. unfold DGifGetExtensionNext. apply wp_bind. eapply wp_READ_byte_exact; [apply Hrd|]. apply wp_ret.
  apply HQ. by apply (reading_in _ _ _ _ rest) in Hrd.
Qed.

Lemma wp_slurp_extension hdr l es e rest E g :
  extension_ok e -> reading hdr l es (([e.1.(Function)] ++ sub_block e.1 ++ concat (sub_block <$> e.2) ++ [0]) ++ rest) g ->
  wp slurp_extension (fun _ g' => reading hdr l (es ++ e.1 :: e.2) rest g') E g.
Proof.
  intros (Hep & _ & Hcs) Hrd. destruct e as [ep cs]. cbn [fst snd] in *.
  destruct (block_sub _ Hep) as (bs & Hbs & Hl & Hr & Hsub & _). rewrite <- !app_assoc in Hrd. rewrite Hsub, <- Hl in Hrd.
  unfold slurp_extension, DGifGetExtension. eapply wp_bind, wp_bind, wp_readable; [exact Hrd|].
  apply wp_bind. eapply wp_READ_byte_exact; [apply Hrd|]. apply (reading_in _ _ _ _ ((Z.of_nat (length bs) :: bs) ++ concat (sub_block <$> cs) ++ [0] ++ rest)) in Hrd.
  apply wp_bind. eapply wp_next_block; [|exact Hrd|]; [lia|].
  intros g1 Hrd1. apply wp_ret. cbv beta iota zeta. apply wp_bind. eapply wp_mono; [apply wp_add_extension, Hrd1| |done].
  intros [] g2 Hrd2. rewrite Hl in Hrd2. assert (mkExtensionBlock (ByteCount ep) (Some bs) (Function ep) = ep) as Hmk by (destruct ep; cbn in *; by rewrite Hbs).
  rewrite Hmk in Hrd2. do 2 wp_step. rewrite (rb_in _ _ _ _ _ Hrd2).
  assert (Forall (fun c => exists bs, sub_block c = Z.of_nat (length bs) :: bs /\ 1 <= Z.of_nat (length bs) <= 255 /\
     mkExtensionBlock (Z.of_nat (length bs)) (Some bs) CONTINUE_EXT_FUNC_CODE = c) cs) as Hcs'.
  { eapply Forall_impl; [exact Hcs|]. intros c [Hc Hcont%Z.eqb_eq]. destruct (block_sub _ Hc) as (bs' & Hbs' & Hl' & Hr' & Hsub' & _).
    exists bs'. rewrite Hl'. split; [done|]. split; [done|]. destruct c; cbn in *. congruence. }
  clear -Hrd2 Hcs'. apply (wp_loop (fun n _ g' => exists done_ todo, cs = done_ ++ todo /\ n = length todo /\
     reading hdr l (es ++ ep :: done_) (concat (sub_block <$> todo) ++ [0] ++ rest) g')) with (n := length cs).
  - intros n [] g (done_ & todo & -> & -> & Hrd). unfold slurp_continuation. apply wp_bind. destruct todo as [|c todo].
    + eapply wp_no_block; [exact Hrd|]. intros g' Hrd'. apply wp_ret. by rewrite app_nil_r.
    + apply Forall_app in Hcs' as [_ [(bs & Hsub & Hl & Hmk) _]%Forall_cons]. cbn [fmap list_fmap concat] in Hrd. rewrite Hsub, <- app_assoc in Hrd.
      eapply wp_next_block; [exact Hl|exact Hrd|]. intros g' Hrd'. apply wp_bind. eapply wp_mono; [apply wp_add_extension, Hrd'| |done].
      intros [] g'' Hrd''. apply wp_ret. exists (length todo). split; [cbn; lia|]. exists (done_ ++ [c]), todo. rewrite <- app_assoc.
      split; [done|]. split; [done|]. rewrite Hmk in Hrd''. by rewrite <- app_assoc in Hrd''.
  - exists [], cs. done.
  - rewrite !length_app. cbn. assert (length cs <= length (concat (sub_block <$> cs)))%nat; [|lia].
    clear -Hcs'. induction Hcs' as [|c cs (bs & Hsub & _) _ IH]; [done|]. cbn [fmap list_fmap concat length]. rewrite Hsub, length_app. cbn [length]. lia.
Qed.

(** ** The descriptor of an image *)

Section Limit.
Context `{limit : CodeLimit}.

(** In the middle of the image behind the last of [l]: the pixels [X] are to
    come, and the file goes on with [rest]. *)
Record decoding hdr (l : list SavedImage) (es : list ExtensionBlock) (X rest : list Z) (g : GifFileType) : Prop := {
  dc_ready : IS_READABLE g.(Priv) = true;
  dc_plenty : plenty g;
  dc_header : header g = hdr;
  dc_images : (g.(ImageCount), g.(SavedImages)) = (Z.of_nat (length l), array_of l);
  dc_blocks : (g.(ExtensionBlockCount), g.(ExtensionBlocks)) = (Z.of_nat (length es), array_of es);
  dc_dec : dec_image X rest g
}.

Lemma decoding_done hdr l es rest g : decoding hdr l es [] rest g -> reading hdr l es rest g.
Proof. intros [? ? ? ? ? (_ & ? & ?)]. by constructor. Qed.

(** A freshly saved image. *)
Definition blank (d : GifImageDesc) : SavedImage := mkSavedImage d None 0 None.

Lemma wp_add_saved_image hdr l es rest E g :
  let d := g.(Image) in
  reading hdr l es rest g -> maps_ok d.(ColorMap) -> match d.(ColorMap) with Some m => m.(SortFlag) = false | None => True end ->
  wp add_saved_image (fun _ g' => reading hdr (l ++ [blank d]) es rest g') E g.
Proof.
  intros d [Hread Harr Hp Hh Him Hbl Hin] Hm Hsort. injection Him as Hc Hl. unfold add_saved_image. do 2 wp_step. rewrite Hc, Hl.
  apply wp_bind, wp_malloc. rewrite plenty_next by done. cbn [negb].
  rewrite (array_grow l zero_saved). apply wp_bind, wp_modify. fold d.
  set (g1 := set_SavedImages _ _). assert (plenty g1) as Hp1.
  { eapply plenty_alloc; [reflexivity|]. exact (plenty_drop _ Hp). }
  apply wp_bind. apply (wp_mono _ (fun r g2 => r = d.(ColorMap) /\ exists al, g2 = set_Alloc al g1 /\ plenty al) _ nofail); [| |done].
  { destruct (ColorMap d) as [m|] eqn:Em.
    - apply wp_make_map; [done|exact Hp1|]. intros al Hal. split; [destruct m; cbn in *; by subst|]. exists al. split; [done|exact Hal].
    - apply wp_ret. split; [done|]. exists (Alloc g1). split; [by destruct g1|exact Hp1]. }
  intros r g2 (-> & al & -> & Hal). eapply wp_bind, wp_of_option; [apply aget_last|].
  apply (wp_fun_eq _ (let! images := of_option (aset (l ++ [zero_saved]) (Z.of_nat (length l)) (blank d)) in
        modify (set_SavedImages (Some images)) ;;!
        modify (set_ImageCount (Z.of_nat (length l) + 1)))).
  { unfold blank. replace (set_ColorMap (ColorMap d) d) with d by (by destruct d). by destruct (ColorMap d). }
  eapply wp_bind, wp_of_option; [apply aset_last|]. apply wp_bind, wp_modify, wp_modify.
  constructor; [exact Hread|exact Harr|by apply (plenty_alloc _ al)|exact Hh| |exact Hbl|exact Hin].
  cbn [ImageCount SavedImages set_SavedImages set_ImageCount]. rewrite array_snoc, length_app. cbn [length]. f_equal. lia.
Qed.

Lemma reading_image hdr l es rest f g : reading hdr l es rest g -> reading hdr l es rest (upd_Image f g).
Proof. by intros []. Qed.

Lemma wp_ImageDesc_back g0 sp b r hdr l es X data rest E g :
  let d := sp.(ImageDesc) in
  image_fits g0 sp b r -> 2 <= b <= 8 -> Z.of_nat (length X) = d.(Width) * d.(Height) ->
  Forall (fun p => 0 <= p < 2 ^ b) X -> image_data b X data ->
  reading hdr l es (desc_bytes d ++ data ++ rest) g ->
  wp DGifGetImageDesc (fun _ g' => decoding hdr (l ++ [blank d]) es X rest g') E g.
Proof.
  intros d [[Hl Ht] [Hw Hh] Harea Hm Hsort _ _ _ _ _] Hb Hlen HX Hdata Hrd. fold d in Hl, Ht, Hw, Hh, Harea, Hm, Hsort.
  unfold DGifGetImageDesc. eapply wp_bind, wp_readable; [exact Hrd|]. unfold desc_bytes in Hrd. rewrite <- !app_assoc in Hrd.
  assert (word16 (Width d)) as Hw' by (unfold word16; lia). assert (word16 (Height d)) as Hh' by (unfold word16; lia).
  apply wp_bind. eapply wp_word_back; [exact Hl|apply Hrd|]. apply wp_bind, wp_modify.
  apply wp_bind. eapply wp_word_back; [exact Ht|reflexivity|]. apply wp_bind, wp_modify.
  apply wp_bind. eapply wp_word_back; [exact Hw'|reflexivity|]. apply wp_bind, wp_modify.
  apply wp_bind. eapply wp_word_back; [exact Hh'|reflexivity|]. apply wp_bind, wp_modify.
  destruct (image_packed_back (Interlace d) _ Hm) as (Eil & Emap & Ebits). remember (image_packed (Interlace d) (ColorMap d)) as pk eqn:Epk. clear Epk.
  apply wp_bind. eapply (wp_READ_or_exact [pk]); [reflexivity|done|].
  eapply wp_bind, wp_of_option; [reflexivity|]. apply wp_bind, wp_modify. rewrite Eil, Emap. apply wp_bind, wp_modify.
  set (g1 := upd_Image (set_ColorMap None) _).
  assert (reading hdr l es (map_bytes (ColorMap d) ++ data ++ rest) g1) as Hrd1 by (by destruct Hrd).
  assert (Image g1 = mkGifImageDesc (Left d) (Top d) (Width d) (Height d) (Interlace d) None) as Hi1 by done.
  clearbody g1. clear Hrd.
  apply wp_bind. apply (wp_mono _ (fun _ g2 => reading hdr l es (data ++ rest) g2 /\ Image g2 = d) _ nofail); [| |done].
  { destruct (ColorMap d) as [m|] eqn:Em; cbn [is_Some].
    - rewrite Ebits. apply wp_bind, wp_read_map; [done|apply Hrd1|]. intros al cs0 Hal. apply wp_bind, wp_modify. cbv beta iota.
      cbn [ColorCount]. rewrite <- (mo_colors _ Hm). apply wp_bind. eapply wp_read_colors_back; [apply Hrd1|]. apply wp_modify.
      destruct Hrd1 as [H1 H2 H3 H4 H5 H6 H7]. split.
      + constructor; [exact H1|exact H2|by apply (plenty_alloc _ al)|exact H4|exact H5|exact H6|reflexivity].
      + cbn. rewrite Hi1. rewrite (mo_colors _ Hm). cbn in Hsort. destruct d, m; cbn in *. by subst.
    - apply wp_ret. split; [exact Hrd1|]. rewrite Hi1. destruct d; cbn in *. by subst. }
  intros [] g2 [Hrd2 Hi2]. apply wp_bind. pose proof (wp_add_saved_image hdr l es (data ++ rest) nofail g2 Hrd2) as Hadd. rewrite Hi2 in Hadd.
  specialize (Hadd Hm Hsort). eapply wp_mono; [exact Hadd| |done]. intros [] g3 Hrd3. cbv beta.
  apply wp_bind, wp_modify. change (2 ^ 31) with 2147483648 in Harea. rewrite u32_small by nia.
  set (g4 := upd_priv _ g3). destruct Hrd3 as [H1 H2 H3 H4 H5 H6 H7].
  destruct X as [|p ps]; [cbn in Hlen; nia|].
  eapply wp_mono; [apply (wp_SetupDecompress b p ps data rest g4); [done|done|done|exact H7|exact H2]| |done].
  intros [] g5 (Hdec & Hpc & Ho). assert (forall A (f : GifFileType -> A), f (set_Priv zero_private (set_Out [] (set_Space 0 (set_In [] g5)))) =
    f (set_Priv zero_private (set_Out [] (set_Space 0 (set_In [] g4))))) as Hfield by (intros A f; f_equal; exact (f_equal fst Ho)).
  pose proof (f_equal (fun x => x.2.1.1) Ho) as Hfs. cbn in Hfs.
  constructor.
  - unfold IS_READABLE in *. by rewrite Hfs.
  - eapply plenty_alloc; [exact (Hfield _ Alloc)|exact H3].
  - rewrite <- H4. exact (Hfield _ header).
  - rewrite <- H5. exact (Hfield _ (fun g => (ImageCount g, SavedImages g))).
  - rewrite <- H6. exact (Hfield _ (fun g => (ExtensionBlockCount g, ExtensionBlocks g))).
  - split; [rewrite Hpc, Hlen; reflexivity|]. split; [by eapply dec_pixels_full|exact Hdec].
Qed.

(** ** The lines of an image *)

Lemma dec_image_priv X rest g g' : g'.(Priv) = g.(Priv) -> g'.(In) = g.(In) -> dec_image X rest g -> dec_image X rest g'.
Proof.
  destruct g as [? ? ? ? ? ? ? ? ? ? ? ? p ? ? ? ?], g' as [? ? ? ? ? ? ? ? ? ? ? ? p' ? ? ? ?]. cbn. intros -> ->. exact id.
Qed.

Lemma wp_upd_last hdr l sp sp' es X rest f E g :
  decoding hdr (l ++ [sp]) es X rest g -> f sp = Some sp' ->
  wp (upd_saved (Z.of_nat (length l)) f) (fun _ g' => decoding hdr (l ++ [sp']) es X rest g') E g.
Proof.
  intros [H1 H2 H3 H4 H5 H6] Hf. injection H4 as Hc Hl. rewrite array_snoc in Hl. unfold upd_saved. do 2 wp_step. rewrite Hl.
  apply wp_bind, wp_ret. eapply wp_bind, wp_of_option; [apply aget_last|]. eapply wp_bind, wp_of_option; [exact Hf|].
  eapply wp_bind, wp_of_option; [apply aset_last|]. apply wp_modify.
  constructor; [exact H1|exact H2|exact H3| |exact H5|].
  - cbn [ImageCount SavedImages set_SavedImages]. rewrite array_snoc, Hc, !length_app. done.
  - apply (dec_image_priv _ _ g); [done|done|exact H6].
Qed.

Lemma wp_line_back hdr l es A B rest n E g :
  decoding hdr l es (A ++ B) rest g -> A <> [] -> n = Z.of_nat (length A) -> Z.of_nat (length (A ++ B)) <= PIXEL_LIMIT ->
  wp (DGifGetLine n) (fun line g' => line = A /\ decoding hdr l es B rest g') E g.
Proof.
  intros [H1 H2 H3 H4 H5 H6] HA Hn Hlim. eapply wp_mono; [by apply (wp_GetLine A B rest)| |done].
  intros line g' (-> & Hdec & Hf). split; [done|].
  assert (forall T (f : GifFileType -> T), f (set_In [] (set_Priv zero_private g')) = f (set_In [] (set_Priv zero_private g))) as Hfield.
  { intros T f. f_equal. exact (f_equal fst Hf). }
  pose proof (f_equal (fun x => x.2.1.1.1) Hf) as Hfs. cbn in Hfs.
  constructor.
  - unfold IS_READABLE in *. by rewrite Hfs.
  - eapply plenty_alloc; [exact (Hfield _ Alloc)|exact H2].
  - rewrite <- H3. exact (Hfield _ header).
  - rewrite <- H4. exact (Hfield _ (fun g => (ImageCount g, SavedImages g))).
  - rewrite <- H5. exact (Hfield _ (fun g => (ExtensionBlockCount g, ExtensionBlocks g))).
  - exact Hdec.
Qed.

(** Rows of the raster [r] that have been stored. *)
Definition rows_done (w : Z) (r : list Z) (js : list Z) (R : list Z) : Prop :=
  length R = length r /\ forall j k, j ∈ js -> j * w <= Z.of_nat k < (j + 1) * w -> R !! k = r !! k.

Lemma store_row w h r js j R :
  Z.of_nat (length r) = w * h -> 0 < w -> 0 <= j < h -> rows_done w r js R ->
  exists R', blit R (j * w) (row w r j) = Some R' /\ rows_done w r (js ++ [j]) R'.
Proof.
  intros Hlen Hw Hj [HR Hrows]. pose proof (length_row w h r j Hlen ltac:(lia) Hj) as Hl.
  destruct (blit_spec (row w r j) R (j * w)) as (R' & Hb & HlR & Hlk); [nia|nia|].
  exists R'. split; [done|]. split; [lia|]. intros j' k [Hj'|Hj'%list_elem_of_singleton]%elem_of_app Hk; rewrite Hlk.
  - destruct (decide _) as [Hin|_]; [|by apply (Hrows j')]. rewrite Hl in Hin. assert (j' = j) as -> by nia.
    unfold row. rewrite lookup_take_lt by lia. rewrite lookup_drop. f_equal. lia.
  - subst j'. rewrite decide_True by lia. unfold row. rewrite lookup_take_lt by lia. rewrite lookup_drop. f_equal. lia.
Qed.

Lemma rows_complete w h r js R :
  Z.of_nat (length r) = w * h -> 0 < w -> (forall j, 0 <= j < h -> j ∈ js) -> rows_done w r js R -> R = r.
Proof.
  intros Hlen Hw Hall [HR Hrows]. apply list_eq_same_length with (n := length r); [done|done|].
  intros k x y Hk Hx Hy. pose proof (Z.div_mod (Z.of_nat k) w ltac:(lia)). pose proof (Z.mod_pos_bound (Z.of_nat k) w Hw).
  rewrite (Hrows (Z.of_nat k / w) k) in Hx; [congruence| |nia]. apply Hall. split; [apply Z.div_pos; lia|].
  apply Z.div_lt_upper_bound; lia.
Qed.

Lemma concat_rows w r n : 0 <= w -> 0 <= n -> n * w <= Z.of_nat (length r) ->
  concat (row w r <$> seqZ 0 n) = take (Z.to_nat (n * w)) r.
Proof.
  intros Hw Hn. pattern n. apply natlike_ind; [done| |done]. intros k Hk IH Hlen.
  replace (Z.succ k) with (k + 1) in * by lia. rewrite seqZ_app by lia. rewrite fmap_app, concat_app, IH by nia.
  cbn [fmap list_fmap concat seqZ]. change (seqZ (0 + k) 1) with [0 + k]. cbn [fmap list_fmap concat]. rewrite app_nil_r.
  unfold row. replace (Z.to_nat ((k + 1) * w)) with (Z.to_nat (k * w) + Z.to_nat w)%nat by nia.
  rewrite Z.add_0_l. symmetry. rewrite <- (take_drop (Z.to_nat (k * w)) (take _ r)). f_equal.
  - rewrite take_take. f_equal. lia.
  - rewrite skipn_firstn_comm. f_equal. lia.
Qed.

(** The rows of an interlaced image, read one by one. *)
Lemma wp_read_rows hdr l es d r w h rest E js : forall done_ R g,
  Z.of_nat (length r) = w * h -> 0 < w -> Forall (fun j => 0 <= j < h) js ->
  Z.of_nat (length (concat (row w r <$> js))) <= PIXEL_LIMIT -> rows_done w r done_ R ->
  decoding hdr (l ++ [set_RasterBits (Some R) (blank d)]) es (concat (row w r <$> js)) rest g ->
  wp (for_each (fun j => let! line := DGifGetLine w in store_pixels (Z.of_nat (length l)) (j * w) line) js)
    (fun _ g' => exists R', rows_done w r (done_ ++ js) R' /\ decoding hdr (l ++ [set_RasterBits (Some R') (blank d)]) es [] rest g') E g.
Proof.
  induction js as [|j js IH]; intros done_ R g Hlen Hw Hjs Hlim HR Hdec; cbn [for_each fmap list_fmap concat] in *.
  - apply wp_ret. exists R. by rewrite app_nil_r.
  - apply Forall_cons in Hjs as [Hj Hjs]. pose proof (length_row w h r j Hlen ltac:(lia) Hj) as Hrow.
    destruct (store_row w h r done_ j R Hlen Hw Hj HR) as (R' & Hblit & HR').
    apply wp_bind, wp_bind. eapply wp_mono; [apply (wp_line_back _ _ _ _ _ _ _ _ _ Hdec); [|done|done]| |done].
    { intros Hnil. rewrite Hnil in Hrow. cbn in Hrow. lia. }
    intros line g1 [-> Hdec1]. eapply wp_mono; [eapply wp_upd_last; [exact Hdec1|]| |done].
    { cbn [RasterBits set_RasterBits]. rewrite Hblit. reflexivity. }
    intros [] g2 Hdec2. rewrite length_app in Hlim.
    eapply wp_mono; [apply (IH (done_ ++ [j]) R'); [done|done|done|lia|done|exact Hdec2]| |done].
    intros [] g3 Hg3. by rewrite <- app_assoc in Hg3.
Qed.

Lemma decoding_alloc hdr l es X rest g : decoding hdr l es X rest g -> decoding hdr l es X rest (drop_alloc g).
Proof.
  intros [H1 H2 H3 H4 H5 H6]. constructor; [exact H1|by apply plenty_drop|exact H3|exact H4|exact H5|].
  by apply (dec_image_priv _ _ g).
Qed.

Lemma rows_range w r js (P : Z -> Prop) : Forall P r -> Forall P (concat (row w r <$> js)).
Proof. intros Hr. apply Forall_concat, Forall_fmap, Forall_forall. intros j _. by apply Forall_take, Forall_drop. Qed.

Lemma wp_slurp_image g0 sp b r hdr l es data rest E g :
  let d := sp.(ImageDesc) in
  image_fits g0 sp b r -> 2 <= b <= 8 -> sp.(sp_ExtensionBlocks) = array_of es -> sp.(sp_ExtensionBlockCount) = Z.of_nat (length es) ->
  image_data b (concat (row d.(Width) r <$> file_rows d)) data ->
  reading hdr l es (desc_bytes d ++ data ++ rest) g ->
  wp slurp_image (fun _ g' => reading hdr (l ++ [sp]) [] rest g') E g.
Proof.
  intros d Hfits Hb Hes Hcnt Hdata Hrd. pose proof Hfits as [_ [Hw Hh] Harea _ _ _ Hr Hlen Hps _]. fold d in Hw, Hh, Harea, Hlen.
  change (2 ^ 31) with 2147483648 in Harea. set (X := concat (row (Width d) r <$> file_rows d)) in *.
  destruct (file_rows_spec d) as [Hrl Hra]; [lia|].
  assert (Z.of_nat (length X) = Width d * Height d) as HX.
  { unfold X. rewrite <- Hrl. clear -Hra Hlen Hw. induction Hra as [|j js Hj _ IH]; [cbn; lia|]. cbn [fmap list_fmap concat length].
    rewrite length_app. pose proof (length_row (Width d) (Height d) r j Hlen ltac:(lia) Hj). lia. }
  pose proof (rows_range (Width d) r (file_rows d) _ Hps) as HXp. fold X in HXp.
  unfold slurp_image. apply wp_bind. eapply wp_mono; [by apply (wp_ImageDesc_back g0 sp b r hdr l es X data rest)| |done].
  fold d. intros [] g1 Hdec1. pose proof (dc_images _ _ _ _ _ _ Hdec1) as Him. injection Him as Hc Hl. rewrite array_snoc in Hl.
  do 2 wp_step. rewrite Hc, Hl, length_app. cbn [length]. replace (Z.of_nat (length l + 1) - 1) with (Z.of_nat (length l)) by lia.
  apply wp_bind, wp_ret. eapply wp_bind, wp_of_option; [apply aget_last|]. cbn [ImageDesc blank].
  destruct (Z.ltb_spec (Width d) 0); [lia|]. cbn [andb]. rewrite u32_small by nia.
  apply wp_bind, wp_malloc. rewrite plenty_next by apply Hdec1. cbn [negb]. apply decoding_alloc in Hdec1.
  apply wp_bind. eapply wp_mono; [eapply wp_upd_last; [exact Hdec1|reflexivity]| |done]. intros [] g2 Hdec2.
  set (R0 := replicate _ 0) in *. assert (length R0 = length r) as HR0 by (unfold R0; rewrite length_replicate; lia).
  apply wp_bind. apply (wp_mono _ (fun _ g3 => decoding hdr (l ++ [set_RasterBits (Some r) (blank d)]) es [] rest g3) _ nofail); [| |done].
  { unfold X, file_rows in Hdec2, HX. destruct (Interlace d) eqn:Eil.
    - eapply wp_mono; [eapply (wp_read_rows hdr l es d r (Width d) (Height d) rest nofail (interlace_rows (Height d)) [] R0)| |done].
      + exact Hlen.
      + lia.
      + unfold file_rows in Hra. by rewrite Eil in Hra.
      + unfold PIXEL_LIMIT. lia.
      + split; [done|]. by intros j k ?%not_elem_of_nil.
      + exact Hdec2.
      + intros [] g3 (R' & HR' & Hdec3). cbn [app] in HR'. erewrite (rows_complete _ _ r _ R' Hlen) in Hdec3; [exact Hdec3|lia| |exact HR'].
        intros j. by apply elem_of_interlace_rows.
    - assert (concat (row (Width d) r <$> seqZ 0 (Height d)) = r) as Hcat by (rewrite concat_rows by lia; apply take_ge; lia).
      rewrite Hcat in Hdec2. rewrite i32_small by nia. apply wp_bind.
      rewrite <- (app_nil_r r) in Hdec2. eapply wp_mono; [apply (wp_line_back _ _ _ _ _ _ _ _ _ Hdec2)| |done].
      + intros ->. cbn in Hlen. nia.
      + done.
      + rewrite app_nil_r. unfold PIXEL_LIMIT. lia.
      + intros line g3 [-> Hdec3]. eapply wp_mono; [eapply wp_upd_last; [exact Hdec3|]| |done].
        * cbn [RasterBits set_RasterBits]. rewrite <- HR0 in *. destruct (blit_spec r R0 0) as (R' & Hblit & HlR & Hlk); [lia|lia|].
          assert (R' = r) as ->; [|rewrite Hblit; reflexivity]. apply list_eq. intros k. rewrite Hlk.
          destruct (decide _) as [Hk|Hk]; [f_equal; lia|]. rewrite !lookup_ge_None_2; [done|lia|lia].
        * intros [] g4 Hdec4. exact Hdec4. }
  intros [] g3 Hdec3. do 2 wp_step. pose proof (dc_blocks _ _ _ _ _ _ Hdec3) as Hbl. injection Hbl as Hbc Hbb. rewrite Hbc, Hbb.
  destruct es as [|e es]; cbn [array_of] in *.
  - apply wp_ret. apply decoding_done in Hdec3. replace sp with (set_RasterBits (Some r) (blank d)); [done|].
    destruct sp; cbn in *. by subst.
  - apply wp_bind. eapply wp_mono; [eapply wp_upd_last; [exact Hdec3|reflexivity]| |done]. intros [] g4 Hdec4.
    apply wp_bind, wp_modify, wp_modify. apply decoding_done in Hdec4.
    assert (set_sp_ExtensionBlocks (Some (e :: es)) (set_sp_ExtensionBlockCount (Z.of_nat (length (e :: es))) (set_RasterBits (Some r) (blank d))) = sp) as Hsp.
    { destruct sp; cbn in *. by subst. }
    rewrite Hsp in Hdec4. destruct Hdec4 as [H1 H2 H3 H4 H5 H6 H7]. by constructor.
Qed.

(** ** The records of a file *)

(** With the images [l] and the blocks [es] read, the bytes hold [n] more
    records, which lead to [L] and [ES], and then [tail]. *)
Inductive to_come (tail : list Z) (L : list SavedImage) (ES : list ExtensionBlock) :
    list SavedImage -> list ExtensionBlock -> list Z -> nat -> Prop :=
| come_end : to_come tail L ES L ES tail 0
| come_extension l es e bytes n :
    extension_ok e -> to_come tail L ES l (es ++ e.1 :: e.2) bytes n -> to_come tail L ES l es (extension_bytes e ++ bytes) (S n)
| come_image l es g0 sp b r data bytes n :
    image_fits g0 sp b r -> 2 <= b <= 8 -> sp.(sp_ExtensionBlocks) = array_of es -> sp.(sp_ExtensionBlockCount) = Z.of_nat (length es) ->
    image_data b (concat (row sp.(ImageDesc).(Width) r <$> file_rows sp.(ImageDesc))) data ->
    to_come tail L ES (l ++ [sp]) [] bytes n ->
    to_come tail L ES l es ([DESCRIPTOR_INTRODUCER] ++ desc_bytes sp.(ImageDesc) ++ data ++ bytes) (S n).

Lemma to_come_length tail L ES l es bytes n : to_come tail L ES l es bytes n -> (n + length tail <= length bytes)%nat.
Proof. induction 1; cbn [length app]; rewrite ?length_app; cbn [length] in *; [lia| |lia]. unfold extension_bytes. cbn. lia. Qed.

Lemma wp_record hdr l es t rest (Q : GifRecordType -> GifFileType -> Prop) E g :
  reading hdr l es (t :: rest) g ->
  (forall g' rt, reading hdr l es rest g' ->
     (t = DESCRIPTOR_INTRODUCER -> rt = IMAGE_DESC_RECORD_TYPE) -> (t = EXTENSION_INTRODUCER -> rt = EXTENSION_RECORD_TYPE) ->
     (t = TERMINATOR_INTRODUCER -> rt = TERMINATE_RECORD_TYPE) -> Q rt g') ->
  t = DESCRIPTOR_INTRODUCER \/ t = EXTENSION_INTRODUCER \/ t = TERMINATOR_INTRODUCER -> wp DGifGetRecordType Q E g.
Proof.
  intros Hrd HQ Ht. unfold DGifGetRecordType. eapply wp_bind, wp_readable; [exact Hrd|].
  apply wp_bind. eapply wp_READ_byte_exact; [apply Hrd|]. apply (reading_in _ _ _ _ rest) in Hrd.
  destruct Ht as [-> |[-> | ->]]; apply wp_ret; by apply HQ.
Qed.

(** The records are read one by one, up to the tail. *)
Lemma wp_records hdr tail L ES l es bytes n E (Q : unit -> GifFileType -> Prop) :
  to_come tail L ES l es bytes n -> forall fuel g, reading hdr l es bytes g -> (n < fuel)%nat ->
  (forall fuel' g', reading hdr L ES tail g' -> (0 < fuel')%nat -> wp (loop fuel' slurp_record tt) Q E g') ->
  wp (loop fuel slurp_record tt) Q E g.
Proof.
  induction 1 as [|l es e bytes n He _ IH|l es g0 sp b r data bytes n Hfits Hb Hes Hcnt Hdata _ IH]; intros fuel g Hrd Hf HQ.
  - apply HQ; [done|lia].
  - destruct fuel as [|fuel]; [lia|]. cbn [loop]. apply wp_bind. unfold slurp_record at 1. apply wp_bind.
    eapply (wp_record _ _ _ EXTENSION_INTRODUCER); [exact Hrd| |by auto]. intros g' rt Hrd' _ Hrt _. rewrite Hrt by done.
    apply wp_bind. eapply wp_mono; [eapply (wp_slurp_extension hdr l es e bytes); [done|exact Hrd']| |done].
    intros [] g'' Hrd''. apply wp_ret. apply IH; [done|lia|done].
  - destruct fuel as [|fuel]; [lia|]. cbn [loop]. apply wp_bind. unfold slurp_record at 1. apply wp_bind.
    eapply (wp_record _ _ _ DESCRIPTOR_INTRODUCER); [exact Hrd| |by auto]. intros g' rt Hrd' Hrt _ _. rewrite Hrt by done.
    apply wp_bind. eapply wp_mono; [by eapply (wp_slurp_image g0 sp b r hdr l es data bytes)| |done].
    intros [] g'' Hrd''. apply wp_ret. apply IH; [done|lia|done].
Qed.

Lemma wp_terminator hdr l es rest g fuel (Q : unit -> GifFileType -> Prop) E : reading hdr l es (TERMINATOR_INTRODUCER :: rest) g -> (0 < fuel)%nat ->
  (forall g', reading hdr l es rest g' -> Q tt g') -> wp (loop fuel slurp_record tt) Q E g.
Proof.
  intros Hrd Hf HQ. destruct fuel as [|fuel]; [lia|]. cbn [loop]. apply wp_bind. unfold slurp_record at 1. apply wp_bind.
  eapply wp_record; [exact Hrd| |by auto]. intros g' rt Hrd' _ _ Hrt. rewrite Hrt by done. apply wp_ret, wp_ret. by apply HQ.
Qed.

(** A zero is no record. *)
Lemma wp_no_record hdr l es rest g fuel (Q : unit -> GifFileType -> Prop) (E : GifFileType -> Prop) : reading hdr l es (0 :: rest) g -> (0 < fuel)%nat ->
  (forall g', E g') -> wp (loop fuel slurp_record tt) Q E g.
Proof.
  intros Hrd Hf HE. destruct fuel as [|fuel]; [lia|]. cbn [loop]. apply wp_bind. unfold slurp_record at 1, DGifGetRecordType. apply wp_bind, wp_bind.
  eapply wp_readable; [exact Hrd|]. apply wp_bind. eapply wp_READ_byte_exact; [apply Hrd|]. cbn. apply HE.
Qed.

Lemma extensions_to_come tail L ES l exts rest n : Forall extension_ok exts -> forall es,
  to_come tail L ES l (es ++ blocks_of exts) rest n ->
  exists n', to_come tail L ES l es (concat (extension_bytes <$> exts) ++ rest) n'.
Proof.
  induction 1 as [|e exts He _ IH]; intros es Hc; cbn [fmap list_fmap concat] in *.
  - exists n. by rewrite app_nil_r in Hc.
  - change (blocks_of (e :: exts)) with ((e.1 :: e.2) ++ blocks_of exts) in Hc. rewrite app_assoc in Hc.
    destruct (IH _ Hc) as [n' Hn']. exists (S n'). rewrite <- app_assoc. by constructor.
Qed.

End Limit.

Lemma blocks_array cnt blocks exts : blocks_ok cnt blocks -> default [] blocks = blocks_of exts ->
  blocks = array_of (blocks_of exts) /\ cnt = Z.of_nat (length (blocks_of exts)).
Proof.
  destruct blocks as [l|]; cbn.
  - intros (-> & _ & ep & l' & -> & _) <-. done.
  - intros -> <-. done.
Qed.

Lemma images_to_come g0 tail L ES todo bytes rest : maps_ok g0.(SColorMap) -> images_file g0 todo bytes -> forall l n,
  to_come tail L ES (l ++ todo) [] rest n -> exists n', to_come tail L ES l [] (bytes ++ rest) n'.
Proof.
  intros Hm. induction 1 as [|sp todo b r es bytes more Hfits Hb Hes (data & -> & Hdata) _ IH]; intros l n Hc.
  - exists n. by rewrite app_nil_r in Hc.
  - rewrite (cons_middle sp l), app_assoc in Hc. destruct (IH _ _ Hc) as [n' Hn'].
    destruct (blocks_array _ _ _ (if_blocks _ _ _ _ Hfits) Hb) as [Harr Hcnt].
    pose proof (depth_range_fits _ _ _ Hm (if_map _ _ _ _ Hfits) (if_depth _ _ _ _ Hfits)) as Hbr.
    rewrite <- !app_assoc. apply (extensions_to_come tail L ES l es _ (S n') Hes []).
    apply image_coded_data in Hdata; [|exact Hbr|by apply rows_range, (if_pixels _ _ _ _ Hfits)].
    by eapply (come_image _ _ _ l _ g0 sp b r data).
Qed.

(** ** The whole file *)

Lemma wp_DGifOpen_back hd pk b rest allocs s :
  header_ok hd pk -> plenty allocs ->
  wp (DGifOpen (stamp b ++ header_bytes hd pk ++ rest) allocs)
    (fun gd g' => gd = g' /\ reading hd [] [] rest gd) (fun _ => False) s.
Proof.
  intros Hfits Hal. set (input := stamp b ++ header_bytes hd pk ++ rest). set (g1 := fresh_gif input allocs).
  unfold DGifOpen, wp. fold g1. lazymatch goal with |- match ?m ?s with _ => _ end => change (wp m (fun gd g' => gd = g' /\ reading hd [] [] rest gd) (fun _ => False) s) end.
  assert (reading (header g1) [] [] input (upd_priv (set_FileState FILE_STATE_READ) (drop_alloc (drop_alloc g1)))) as Hrd.
  { constructor; [done|split; [split; done|done]|by do 2 apply (plenty_drop (S := list bool))|done|done|done|done]. }
  assert (plenty g1) as Hp1 by exact Hal.
  apply wp_bind, wp_malloc. rewrite plenty_next by done. cbn [negb]. apply plenty_drop in Hp1.
  apply wp_bind, wp_malloc. rewrite plenty_next by done. cbn [negb].
  apply wp_bind, wp_modify. set (g2 := upd_priv _ _) in *. clearbody g2. clear Hp1.
  apply wp_bind, wp_attempt. unfold read_stamp. apply wp_bind.
  eapply (wp_READ_exact (stamp b)); [apply Hrd|by destruct b|]. apply (reading_in _ _ _ _ (header_bytes hd pk ++ rest)) in Hrd.
  assert (negb (Z.of_nat (length (stamp b)) =? GIF_STAMP_LEN) = false) as -> by (by destruct b).
  assert (exists v, aget (stamp b) GIF_VERSION_POS = Some v) as [v Hv] by (destruct b; by eexists).
  eapply wp_bind, wp_of_option; [exact Hv|]. apply wp_ret. rewrite decide_True by (by destruct b).
  apply wp_bind, wp_attempt. eapply wp_mono; [eapply (wp_ScreenDesc_back hd pk _ _ _ rest nofail); [done|exact Hrd]| |].
  - intros [] g3 Hrd3. apply wp_bind, wp_modify, wp_bind, wp_modify, wp_gets. split; [done|]. by destruct Hrd3.
  - by intros g3 [].
Qed.

Lemma wp_DGifSlurp_back `{limit : CodeLimit} hdr L ES bytes n g E :
  to_come [TERMINATOR_INTRODUCER] L ES [] [] bytes n -> L <> [] -> reading hdr [] [] bytes g ->
  wp DGifSlurp (fun _ g' => reading hdr L ES [] g') E g.
Proof.
  intros Hc Hne Hrd. unfold DGifSlurp. apply wp_bind, wp_modify, wp_bind, wp_modify. set (g1 := set_ExtensionBlockCount _ _).
  assert (reading hdr [] [] bytes g1) as Hrd1 by by destruct Hrd. clearbody g1.
  do 2 wp_step. rewrite (rb_in _ _ _ _ _ Hrd1). apply wp_bind. pose proof (to_come_length _ _ _ _ _ _ _ Hc).
  eapply (wp_records hdr _ L ES [] [] bytes n); [done|exact Hrd1|cbn [length] in *; lia|]. intros fuel' g1' Hrd1' Hf.
  apply (wp_terminator hdr L ES [] _ _ _ _ Hrd1' Hf). intros g2 Hrd2. do 2 wp_step. pose proof (rb_images _ _ _ _ _ Hrd2) as Him. injection Him as -> _.
  destruct L; [done|]. by apply wp_ret.
Qed.

(** A file with a zero where a record should start is not read. *)
Lemma wp_DGifSlurp_broken `{limit : CodeLimit} hdr L ES bytes rest n g :
  to_come (0 :: rest) L ES [] [] bytes n -> reading hdr [] [] bytes g -> wp DGifSlurp (fun _ _ => False) any g.
Proof.
  intros Hc Hrd. unfold DGifSlurp. apply wp_bind, wp_modify, wp_bind, wp_modify. set (g1 := set_ExtensionBlockCount _ _).
  assert (reading hdr [] [] bytes g1) as Hrd1 by by destruct Hrd. clearbody g1.
  do 2 wp_step. rewrite (rb_in _ _ _ _ _ Hrd1). apply wp_bind. pose proof (to_come_length _ _ _ _ _ _ _ Hc).
  eapply (wp_records hdr _ L ES [] [] bytes n); [done|exact Hrd1|cbn [length] in *; lia|]. intros fuel' g1' Hrd1' Hf. by eapply wp_no_record.
Qed.

(** What a file stores. *)
Definition contents (g : GifFileType) :=
  (header g, (g.(ImageCount), g.(SavedImages)), (g.(ExtensionBlockCount), g.(ExtensionBlocks))).

(** C1. A handle that a file can hold is written by [EGifSpew] and read back
    by [DGifOpen] and [DGifSlurp] without loss: the screen with its colour map
    and sort flag, every image with its place, colour map, interlacing, pixels
    and extension blocks, and the extension blocks behind the images.  Neither
    side fails, and the whole file is consumed. *)
Theorem file_roundtrip g allocs :
  file_ok g -> ready_to_spew g -> g.(Out) = [] -> file_space g <= g.(Space) -> plenty allocs ->
  exists ge gd gd', EGifSpew true g = (Returns tt, ge) /\
    DGifOpen ge.(Out) allocs g = (Returns gd, gd) /\ DGifSlurp gd = (Returns tt, gd') /\
    gd'.(In) = [] /\ contents gd' = contents g.
Proof.
  intros Hok Hready Hout Hroom Hal. pose proof Hok as [Hscr (l & Hl & Hcnt & Hne & _) Hbl].
  destruct (wp_returns _ _ _ (wp_EGifSpew g l _ Hok Hready Hroom Hl)) as ([] & ge & Hspew & b & bytes & Hfile & Hbytes).
  rewrite Hout in Hbytes. cbn [app] in Hbytes. unfold file_bytes in Hbytes.
  destruct (blocks_extensions _ _ Hbl) as (es & Hes & Hesok & _ & _). destruct (blocks_array _ _ _ Hbl Hes) as [Harr Hc].
  rewrite (blocks_bytes_of _ es) in Hbytes by done.
  destruct (header_fits _ Hscr) as (pk & Hpk & Hhd). rewrite Hpk in Hbytes.
  destruct (wp_returns _ _ _ (wp_DGifOpen_back (header g) pk b (bytes ++ concat (extension_bytes <$> es) ++ [TERMINATOR_INTRODUCER]) allocs g Hhd Hal))
    as (gd & ? & Hopen & <- & Hrd).
  destruct (extensions_to_come [TERMINATOR_INTRODUCER] l (blocks_of es) l es [TERMINATOR_INTRODUCER] 0 Hesok []) as [n1 Hn1]; [constructor|].
  destruct (images_to_come g [TERMINATOR_INTRODUCER] l (blocks_of es) l bytes _ (sf_map _ Hscr) Hfile [] n1 Hn1) as [n2 Hn2].
  destruct (wp_returns _ _ _ (wp_DGifSlurp_back _ _ _ _ _ _ _ Hn2 Hne Hrd)) as ([] & gd' & Hslurp & Hrd').
  exists ge, gd, gd'. rewrite Hbytes. split; [done|]. split; [exact Hopen|]. split; [done|].
  destruct Hrd' as [_ _ _ Hh Him Hb Hin]. split; [done|]. unfold contents. rewrite Hh, Him, Hb, Hl, Hcnt, Harr, Hc.
  assert (array_of l = Some l) as -> by by destruct l. reflexivity.
Qed.

(** A handle with a sorted screen map, an interlaced image behind a graphics
    control block, an image with a map and two blocks of its own, and a comment
    at the end. *)
Definition demo_handle : GifFileType :=
  upd_priv (set_FileState FILE_STATE_WRITE)
    (set_SWidth 3 (set_SHeight 5 (set_SColorResolution 2 (set_SBackGroundColor 1 (set_AspectByte 49
    (set_SColorMap (Some (set_SortFlag true demo_map)) (set_ImageCount 2
    (set_SavedImages (Some
      [mkSavedImage (mkGifImageDesc 0 0 3 5 true None) (Some [0; 1; 2; 3; 2; 1; 0; 1; 2; 3; 3; 3; 1; 2; 0]) 1
         (Some [mkExtensionBlock 4 (Some [1; 10; 0; 0]) GRAPHICS_EXT_FUNC_CODE]);
       mkSavedImage (mkGifImageDesc 1 2 2 2 false (Some demo_map)) (Some [3; 2; 1; 0]) 2
         (Some [mkExtensionBlock 2 (Some [65; 66]) APPLICATION_EXT_FUNC_CODE; mkExtensionBlock 1 (Some [7]) CONTINUE_EXT_FUNC_CODE])])
    (set_ExtensionBlockCount 1 (set_ExtensionBlocks (Some [mkExtensionBlock 2 (Some [104; 105]) COMMENT_EXT_FUNC_CODE])
    (set_Space 1000 (fresh_gif [] [])))))))))))).


Lemma demo_handle_ok : file_ok demo_handle.
Proof.
  assert (forall s, map_ok (set_SortFlag s demo_map)) as Hm.
  { intros s. split; [cbn; lia|done|done|]. repeat constructor; cbn; lia. }
  assert (forall n bs f, Z.of_nat (length bs) = n -> 1 <= n <= 255 -> Forall byte bs -> byte f -> block_ok (mkExtensionBlock n (Some bs) f)) as Hb.
  { intros. by exists bs. }
  assert (forall n l ep, n = Z.of_nat (length (ep :: l)) -> Forall block_ok (ep :: l) -> continues ep = false -> blocks_ok n (Some (ep :: l))) as Hbs.
  { intros n l ep Hn Hf He. split; [done|]. split; [done|]. by exists ep, l. }
  split.
  - split; try (vm_compute; intuition discriminate). apply (Hm true).
  - eexists. split; [reflexivity|]. split; [done|]. split; [done|]. repeat constructor.
    + exists 2. eexists. split; [vm_compute; intuition discriminate|vm_compute; intuition discriminate|done|done|done|done|reflexivity|done| |].
      * repeat constructor; vm_compute; intuition discriminate.
      * cbn [sp_ExtensionBlockCount sp_ExtensionBlocks]. apply Hbs; [done| |done]. repeat constructor; apply Hb; try done; repeat constructor; vm_compute; intuition discriminate.
    + exists 2. eexists. split; [vm_compute; intuition discriminate|vm_compute; intuition discriminate|done|exact (Hm false)|done|done|reflexivity|done| |].
      * repeat constructor; vm_compute; intuition discriminate.
      * cbn [sp_ExtensionBlockCount sp_ExtensionBlocks]. apply Hbs; [done| |done]. repeat constructor; apply Hb; try done; repeat constructor; vm_compute; intuition discriminate.
  - change (blocks_ok 1 (Some [mkExtensionBlock 2 (Some [104; 105]) COMMENT_EXT_FUNC_CODE])). apply Hbs; [done| |done]. repeat constructor; apply Hb; try done; repeat constructor; vm_compute; intuition discriminate.
Qed.

Lemma demo_handle_ready : ready_to_spew demo_handle.
Proof. split; [done|done|done|done|by constructor]. Qed.

Lemma file_roundtrip_witness :
  exists ge gd gd', EGifSpew true demo_handle = (Returns tt, ge) /\
    DGifOpen ge.(Out) [] demo_handle = (Returns gd, gd) /\ DGifSlurp gd = (Returns tt, gd') /\
    gd'.(In) = [] /\ contents gd' = contents demo_handle.
Proof.
  apply (file_roundtrip demo_handle []).
  - exact demo_handle_ok.
  - exact demo_handle_ready.
  - reflexivity.
  - vm_compute. discriminate.
  - constructor.
Defined.
