(* ===== verification/NeuQuant.v ===== *)
(** * libframesequence: the quantiser of the GIF encoder (neuquant.cpp)

    [quantise] chooses a palette for a picture and maps every pixel to it.  A
    network of [netsize] colours is trained on samples of the picture ([learn]:
    [contest] finds the closest neuron, [altersingle] and [alterneigh] move it and
    its neighbours), its colours are the palette ([unbiasnet]), and after sorting
    ([inxbuild]) each pixel gets the number of a colour ([inxsearch]).

    The picture is the list of its 32-bit words; a byte of it is a byte of a
    word, least significant first.  The arrays of the object have their C sizes,
    whatever part of them [netsize] uses.  Arithmetic of [int] that could leave
    its range is checked ([int_of]): overflow is undefined. *)

From stdpp Require Import base numbers list list_numbers.
From Stdlib Require Import Lia ZArith.
From S2P Require Import Prelude.

#[local] Open Scope Z_scope.
#[local] Open Scope c_scope.

Definition prime1 := 499.
Definition prime2 := 491.
Definition prime3 := 487.
Definition prime4 := 503.
Definition PIXEL_SIZE := 4.
Definition netbiasshift := 4.
Definition ncycles := 100.
Definition intbiasshift := 16.
Definition intbias := Z.shiftl 1 intbiasshift.
Definition gammashift := 10.
Definition betashift := 10.
Definition beta := Z.shiftr intbias betashift.
Definition betagamma := Z.shiftl intbias (gammashift - betashift).
Definition radiusbiasshift := 6.
Definition radiusbias := Z.shiftl 1 radiusbiasshift.
Definition initrad (netsize : Z) := Z.shiftr netsize 3.
Definition initradius (netsize : Z) := initrad netsize * radiusbias.
Definition radiusdec := 30.
Definition alphabiasshift := 10.
Definition initalpha := Z.shiftl 1 alphabiasshift.
Definition radbiasshift := 8.
Definition radbias := Z.shiftl 1 radbiasshift.
Definition alpharadbshift := alphabiasshift + radbiasshift.
Definition alpharadbias := Z.shiftl 1 alpharadbshift.

Definition transparentColorIndex := 255.

(** [pixel]: blue, green, red and the number of the colour. *)
Record pixel : Type := mkPixel { p_b : Z; p_g : Z; p_r : Z; p_c : Z }.

Record NeuQuant : Type := mkNeuQuant {
  network : list pixel; (** 256 *)
  netsize : Z;
  alphadec : Z;
  thepicture : list Z;
  lengthcount : Z;
  samplefac : Z;
  netindex : list Z; (** 256 *)
  bias : list Z; (** 256 *)
  freq : list Z; (** 256 *)
  radpower : list Z (** 32 *)
}.

Definition set_network (l : list pixel) (q : NeuQuant) : NeuQuant :=
  mkNeuQuant l q.(netsize) q.(alphadec) q.(thepicture) q.(lengthcount) q.(samplefac) q.(netindex) q.(bias) q.(freq) q.(radpower).
Definition set_netsize (n : Z) (q : NeuQuant) : NeuQuant :=
  mkNeuQuant q.(network) n q.(alphadec) q.(thepicture) q.(lengthcount) q.(samplefac) q.(netindex) q.(bias) q.(freq) q.(radpower).
Definition set_alphadec (a : Z) (q : NeuQuant) : NeuQuant :=
  mkNeuQuant q.(network) q.(netsize) a q.(thepicture) q.(lengthcount) q.(samplefac) q.(netindex) q.(bias) q.(freq) q.(radpower).
Definition set_picture (pic : list Z) (len sample : Z) (q : NeuQuant) : NeuQuant :=
  mkNeuQuant q.(network) q.(netsize) q.(alphadec) pic len sample q.(netindex) q.(bias) q.(freq) q.(radpower).
Definition set_netindex (l : list Z) (q : NeuQuant) : NeuQuant :=
  mkNeuQuant q.(network) q.(netsize) q.(alphadec) q.(thepicture) q.(lengthcount) q.(samplefac) l q.(bias) q.(freq) q.(radpower).
Definition set_bias (l : list Z) (q : NeuQuant) : NeuQuant :=
  mkNeuQuant q.(network) q.(netsize) q.(alphadec) q.(thepicture) q.(lengthcount) q.(samplefac) q.(netindex) l q.(freq) q.(radpower).
Definition set_freq (l : list Z) (q : NeuQuant) : NeuQuant :=
  mkNeuQuant q.(network) q.(netsize) q.(alphadec) q.(thepicture) q.(lengthcount) q.(samplefac) q.(netindex) q.(bias) l q.(radpower).
Definition set_radpower (l : list Z) (q : NeuQuant) : NeuQuant :=
  mkNeuQuant q.(network) q.(netsize) q.(alphadec) q.(thepicture) q.(lengthcount) q.(samplefac) q.(netindex) q.(bias) q.(freq) l.

Abbreviation NqM := (M NeuQuant).

(** Arithmetic of [int]. *)
Definition int_of (z : Z) : NqM Z := if (-2147483648 <=? z) && (z <? 2147483648) then ret z else stuck.

(** Reading and writing an entry of an array of the object. *)
Definition get_at {A} (arr : NeuQuant -> list A) (i : Z) : NqM A := let! l := gets arr in of_option (aget l i).
Definition put_at {A} (arr : NeuQuant -> list A) (set : list A -> NeuQuant -> NeuQuant) (i : Z) (v : A) : NqM unit :=
  let! l := gets arr in
  let! l := of_option (aset l i v) in
  modify (set l).

(** ** The network *)

Definition initnet (thepic : list Z) (len sample : Z) : NqM unit :=
  modify (set_picture thepic len sample) ;;!
  let! n := gets netsize in
  for_each (fun i =>
    let! p := get_at network i in
    let v := Z.shiftl i (netbiasshift + 8) / n in
    put_at network set_network i (mkPixel v v v p.(p_c)) ;;!
    put_at freq set_freq i (intbias / n) ;;!
    put_at bias set_bias i 0) (seqZ 0 n).

(** [(x + (1 << (netbiasshift - 1))) >> netbiasshift], at most 255 *)
Definition unbias (x : Z) : Z :=
  let temp := Z.shiftr (x + Z.shiftl 1 (netbiasshift - 1)) netbiasshift in
  if 255 <? temp then 255 else temp.

Definition unbiasnet : NqM unit :=
  let! n := gets netsize in
  for_each (fun i =>
    let! p := get_at network i in
    put_at network set_network i (mkPixel (unbias p.(p_b)) (unbias p.(p_g)) (unbias p.(p_r)) i)) (seqZ 0 n).

(** The bytes put into the file. *)
Definition writecolourmap : NqM (list Z) :=
  let! n := gets netsize in
  foldM (fun out i =>
    foldM (fun out j =>
      let! p := get_at network j in
      ret (out ++ [u8 (if i =? 2 then p.(p_r) else if i =? 1 then p.(p_g) else p.(p_b))])) (seqZ 0 n) out) [2; 1; 0] [].

(** ** Learning *)

(** A round of the search in [contest]. *)
Definition contest_round (b g r : Z) (v : Z * Z * Z * Z) (i : Z) : NqM (Z * Z * Z * Z) :=
  let '(bestd, bestpos, bestbiasd, bestbiaspos) := v in
  let! n := get_at network i in
  let dist := Z.abs (n.(p_b) - b) + Z.abs (n.(p_g) - g) + Z.abs (n.(p_r) - r) in
  let! p := get_at bias i in
  let! f := get_at freq i in
  let! biasdist := int_of (dist - Z.shiftr p (intbiasshift - netbiasshift)) in
  let betafreq := Z.shiftr f betashift in
  put_at freq set_freq i (f - betafreq) ;;!
  let! p := int_of (p + Z.shiftl betafreq gammashift) in
  put_at bias set_bias i p ;;!
  let '(bestd, bestpos) := if dist <? bestd then (dist, i) else (bestd, bestpos) in
  let '(bestbiasd, bestbiaspos) := if biasdist <? bestbiasd then (biasdist, i) else (bestbiasd, bestbiaspos) in
  ret (bestd, bestpos, bestbiasd, bestbiaspos).

Definition contest (b g r : Z) : NqM Z :=
  let! n := gets netsize in
  let! ' (_, bestpos, _, bestbiaspos) := foldM (contest_round b g r) (seqZ 0 n) (2147483647, -1, 2147483647, -1) in
  let! f := get_at freq bestpos in
  let! f := int_of (f + beta) in
  put_at freq set_freq bestpos f ;;!
  let! p := get_at bias bestpos in
  let! p := int_of (p - betagamma) in
  put_at bias set_bias bestpos p ;;!
  ret bestbiaspos.

(** [n - (a * (n - b)) / d] *)
Definition move (a d n b : Z) : NqM Z := let! m := int_of (a * (n - b)) in ret (n - Z.quot m d).

Definition alter (a d i b g r : Z) : NqM unit :=
  let! n := get_at network i in
  let! nb := move a d n.(p_b) b in
  let! ng := move a d n.(p_g) g in
  let! nr := move a d n.(p_r) r in
  put_at network set_network i (mkPixel nb ng nr n.(p_c)).

Definition altersingle (alpha i b g r : Z) : NqM unit := alter alpha initalpha i b g r.

(** [while ((j < hi) || (k > lo))]; [q] is the index into [radpower]. *)
Definition neigh_round (lo hi b g r : Z) (v : Z * Z * Z) : NqM (Z * Z * Z + unit) :=
  let '(j, k, q) := v in
  if (j <? hi) || (lo <? k) then
    let! a := get_at radpower (q + 1) in
    (if j <? hi then alter a alpharadbias j b g r else ret tt) ;;!
    (if lo <? k then alter a alpharadbias k b g r else ret tt) ;;!
    ret (inl (if j <? hi then j + 1 else j, if lo <? k then k - 1 else k, q + 1))
  else ret (inr tt).

Definition alterneigh (rad i b g r : Z) : NqM unit :=
  let! n := gets netsize in
  let lo := if i - rad <? -1 then -1 else i - rad in
  let hi := if n <? u32 (i + rad) then n else i + rad in
  loop (S (Z.to_nat rad)) (neigh_round lo hi b g r) (i + 1, i - 1, 0).

Definition rad_of (radius : Z) : Z :=
  let rad := Z.shiftr radius radiusbiasshift in
  if rad <=? 1 then 0 else rad.

Definition fill_radpower (rad alpha : Z) : NqM unit :=
  for_each (fun i =>
    let! v := int_of (alpha * Z.quot ((rad * rad - i * i) * radbias) (rad * rad)) in
    put_at radpower set_radpower i v) (seqZ 0 rad).

Definition sample_step (lengthcount : Z) : Z :=
  if negb (Z.rem lengthcount prime1 =? 0) then prime1
  else if negb (Z.rem lengthcount prime2 =? 0) then prime2
  else if negb (Z.rem lengthcount prime3 =? 0) then prime3
  else prime4.

(** A byte of the word [w], as a biased colour. *)
Definition biased (w shift : Z) : Z := Z.shiftl (Z.land (Z.shiftr w shift) 0xff) netbiasshift.

(** [while (i < samplepixels)]; [p] is an index into the picture. *)
Definition learn_round (step delta samplepixels : Z) (v : Z * Z * Z * Z * Z) : NqM (Z * Z * Z * Z * Z + unit) :=
  let '(i, p, alpha, radius, rad) := v in
  if i <? samplepixels then
    let! w := get_at thepicture p in
    let b := biased w 0 in
    let g := biased w 8 in
    let r := biased w 16 in
    let! j := contest b g r in
    altersingle alpha j b g r ;;!
    (if negb (rad =? 0) then alterneigh rad j b g r else ret tt) ;;!
    let! len := gets lengthcount in
    let p := if len <=? PIXEL_SIZE * (p + step) then 0 else p + step in
    let i := i + 1 in
    if delta =? 0 then stuck
    else if Z.rem i delta =? 0 then
      let! dec := gets alphadec in
      let alpha := alpha - Z.quot alpha dec in
      let radius := radius - Z.quot radius radiusdec in
      let rad := rad_of radius in
      fill_radpower rad alpha ;;!
      ret (inl (i, p, alpha, radius, rad))
    else ret (inl (i, p, alpha, radius, rad))
  else ret (inr tt).

Definition learn : NqM unit :=
  let! sample := gets samplefac in
  modify (set_alphadec (30 + Z.quot (sample - 1) 3)) ;;!
  let! len := gets lengthcount in
  let! n := gets netsize in
  let samplepixels := Z.quot len (PIXEL_SIZE * sample) in
  let delta := Z.quot samplepixels ncycles in
  let alpha := initalpha in
  let radius := initradius n in
  let rad := rad_of radius in
  fill_radpower rad alpha ;;!
  loop (S (Z.to_nat samplepixels)) (learn_round (sample_step len) delta samplepixels) (0, 0, alpha, radius, rad).

(** ** The index *)

(** The smallest green value from [i] on. *)
Definition smallest_round (v : Z * Z) (j : Z) : NqM (Z * Z) :=
  let '(smallpos, smallval) := v in
  let! q := get_at network j in
  ret (if q.(p_g) <? smallval then (j, q.(p_g)) else (smallpos, smallval)).

Definition inx_round (v : Z * Z) (i : Z) : NqM (Z * Z) :=
  let '(previouscol, startpos) := v in
  let! n := gets netsize in
  let! p := get_at network i in
  let! ' (smallpos, smallval) := foldM smallest_round (seqZ (i + 1) (n - (i + 1))) (i, p.(p_g)) in
  let! q := get_at network smallpos in
  (if negb (i =? smallpos) then put_at network set_network smallpos p ;;! put_at network set_network i q else ret tt) ;;!
  if negb (smallval =? previouscol) then
    put_at netindex set_netindex previouscol (Z.shiftr (startpos + i) 1) ;;!
    for_each (fun j => put_at netindex set_netindex j i) (seqZ (previouscol + 1) (smallval - (previouscol + 1))) ;;!
    ret (smallval, i)
  else ret (previouscol, startpos).

Definition inxbuild : NqM unit :=
  let! n := gets netsize in
  let! ' (previouscol, startpos) := foldM inx_round (seqZ 0 n) (0, 0) in
  put_at netindex set_netindex previouscol (Z.shiftr (startpos + (n - 1)) 1) ;;!
  for_each (fun j => put_at netindex set_netindex j (n - 1)) (seqZ (previouscol + 1) (256 - (previouscol + 1))).

(** ** The search *)

Definition luma_diff (r1 g1 b1 r2 g2 b2 : Z) : Z := (r1 * 299 + g1 * 587 + b1 * 114) - (r2 * 299 + g2 * 587 + b2 * 114).

(** The closest colour so far and its distance, after the entry [p]. *)
Definition look (b r : Z) (p : pixel) (dist : Z) (v : Z * Z) : Z * Z :=
  let '(bestd, best) := v in
  let dist := Z.abs dist + Z.abs (p.(p_b) - b) in
  if dist <? bestd then
    let dist := dist + Z.abs (p.(p_r) - r) in
    if dist <? bestd then (dist, p.(p_c)) else (bestd, best)
  else (bestd, best).

(** A round of the search without dithering; [i] goes up, [j] goes down. *)
Definition search_round (b g r : Z) (v : Z * Z * (Z * Z)) : NqM (Z * Z * (Z * Z) + Z * Z) :=
  let '(i, j, found) := v in
  let! n := gets netsize in
  if (i <? n) || (0 <=? j) then
    let! ' (i, found) :=
      (if i <? n then
         let! p := get_at network i in
         let dist := p.(p_g) - g in
         ret (if found.1 <=? dist then (n, found) else (i + 1, look b r p dist found))
       else ret (i, found)) in
    let! ' (j, found) :=
      (if 0 <=? j then
         let! p := get_at network j in
         let dist := g - p.(p_g) in
         ret (if found.1 <=? dist then (-1, found) else (j - 1, look b r p dist found))
       else ret (j, found)) in
    ret (inl (i, j, found))
  else ret (inr found).

(** The closest darker and brighter colours: their distances and numbers. *)
Record shades : Type := mkShades { bestd_dark : Z; darker : Z; bestd_bright : Z; brighter : Z }.

Definition look_shades (b g r : Z) (p : pixel) (v : shades) : shades :=
  let lumadiff := luma_diff p.(p_r) p.(p_g) p.(p_b) r g b in
  let dist := Z.abs (p.(p_g) - g) + Z.abs (p.(p_b) - b) + Z.abs (p.(p_r) - r) in
  if dist =? 0 then mkShades dist p.(p_c) dist p.(p_c)
  else if (lumadiff <? 0) && (dist <? v.(bestd_dark)) then mkShades dist p.(p_c) v.(bestd_bright) v.(brighter)
  else if (0 <? lumadiff) && (dist <? v.(bestd_bright)) then mkShades v.(bestd_dark) v.(darker) dist p.(p_c)
  else v.

(** A round of the search with dithering, in which [bestd] stays 1000. *)
Definition dither_round (b g r : Z) (v : Z * Z * shades) : NqM (Z * Z * shades + shades) :=
  let '(i, j, found) := v in
  let! n := gets netsize in
  if (i <? n) || (0 <=? j) then
    let! ' (i, found) :=
      (if i <? n then
         let! p := get_at network i in
         ret (if 1000 <=? p.(p_g) - g then (n, found) else (i + 1, look_shades b g r p found))
       else ret (i, found)) in
    let! ' (j, found) :=
      (if 0 <=? j then
         let! p := get_at network j in
         ret (if 1000 <=? g - p.(p_g) then (-1, found) else (j - 1, look_shades b g r p found))
       else ret (j, found)) in
    ret (inl (i, j, found))
  else ret (inr found).

Definition inxsearch (b g r dither xpos ypos : Z) : NqM Z :=
  let! n := gets netsize in
  let! i := get_at netindex g in
  let! index :=
    (if dither =? 1 then
       let! v := loop (S (Z.to_nat n)) (dither_round b g r) (i, i - 1, mkShades 1000 (-1) 1000 (-1)) in
       let d := if (v.(darker) =? -1) && negb (v.(brighter) =? -1) then v.(brighter) else v.(darker) in
       let l := if (v.(brighter) =? -1) && negb (v.(darker) =? -1) then v.(darker) else v.(brighter) in
       ret (if test (Z.lxor xpos ypos) 1 then d else l)
     else
       let! v := loop (S (Z.to_nat n)) (search_round b g r) (i, i - 1, (1000, -1)) in
       ret v.2) in
  ret (if index =? transparentColorIndex then transparentColorIndex - 1 else index).

(** ** The whole *)

Definition write_colour (palette : list Z) (i : Z) : NqM (list Z) :=
  let! p := get_at network i in
  let! l := of_option (aset palette (i * 3) (u8 p.(p_r))) in
  let! l := of_option (aset l (i * 3 + 1) (u8 p.(p_g))) in
  of_option (aset l (i * 3 + 2) (u8 p.(p_b))).

(** The rows from the last to the first, odd ones from right to left. *)
Definition pixel_order (w h : Z) : list (Z * Z) :=
  i ← reverse (seqZ 0 h); (fun j => (i, j)) <$> (if test i 1 then reverse (seqZ 0 w) else seqZ 0 w).

Definition byte_at (w shift : Z) : Z := Z.land (Z.shiftr w shift) 0xff.

Definition map_pixel (w dither : Z) (bits : list Z) (at_ : Z * Z) : NqM (list Z) :=
  let '(i, j) := at_ in
  let! p := get_at thepicture (i * w + j) in
  if byte_at p 24 =? 0 then of_option (aset bits (i * w + j) transparentColorIndex)
  else
    let! index := inxsearch (byte_at p 0) (byte_at p 8) (byte_at p 16) dither j i in
    of_option (aset bits (i * w + j) (u8 index)).

(** The picture has [w] columns and [h] rows; [palette] and [bits] are those of
    the destination. *)
Definition neuquant_quantise (w h : Z) (pic palette bits : list Z) (numColors quality dither imgw imgh : Z) : NqM (list Z * list Z * Z * Z) :=
  let quality := Z.quot quality 3 in
  let quality := if 30 <? quality then 30 else if quality <? 1 then 1 else quality in
  let numColors := if numColors <? 2 then 2 else if 256 <? numColors then 256 else numColors in
  modify (set_netsize numColors) ;;!
  let! len := int_of (w * h * PIXEL_SIZE) in
  initnet pic len (31 - quality) ;;!
  learn ;;!
  unbiasnet ;;!
  let! palette := foldM write_colour (seqZ 0 numColors) palette in
  inxbuild ;;!
  let '(imgw, imgh) := if dither =? 2 then (w, h) else (imgw, imgh) in
  let! bits := foldM (map_pixel w dither) (pixel_order w h) bits in
  ret (palette, bits, imgw, imgh).
