(* ===== verification/NeuQuantNet.v ===== *)
(** * libframesequence: the network of the quantiser

    While it is trained, the network stays in its ranges: the colours between
    0 and 4080, the frequencies around [intbias], the biases tied to the
    frequencies ([trained]).  So no array is left, no [int] overflows, and
    training ends ([wp_learn]). *)

From stdpp Require Import base numbers list list_numbers.
From Stdlib Require Import Lia ZArith.
From S2P Require Import Prelude NeuQuant.

#[local] Open Scope Z_scope.
#[local] Open Scope c_scope.

(** ** Arrays of the object *)

Lemma wp_get_at {A} (arr : NeuQuant -> list A) i v (Q : A -> NeuQuant -> Prop) E q :
  aget (arr q) i = Some v -> Q v q -> wp (get_at arr i) Q E q.
Proof. intros Hv HQ. unfold get_at. apply wp_bind, wp_gets. by eapply wp_of_option. Qed.

Lemma wp_get_in {A} (arr : NeuQuant -> list A) i (Q : A -> NeuQuant -> Prop) E q :
  0 <= i < Z.of_nat (length (arr q)) -> (forall v, aget (arr q) i = Some v -> Q v q) -> wp (get_at arr i) Q E q.
Proof. intros Hi HQ. destruct (aget_Some _ _ Hi) as [v Hv]. eapply wp_get_at; [exact Hv|auto]. Qed.

Lemma wp_put_at {A} (arr : NeuQuant -> list A) set i v (Q : unit -> NeuQuant -> Prop) E q :
  0 <= i < Z.of_nat (length (arr q)) -> (forall l, aset (arr q) i v = Some l -> Q tt (set l q)) -> wp (put_at arr set i v) Q E q.
Proof.
  intros Hi HQ. destruct (aset_exists (arr q) i v Hi) as (l & Hl & _). unfold put_at. apply wp_bind, wp_gets, wp_bind.
  eapply wp_of_option; [exact Hl|]. apply wp_modify. by apply HQ.
Qed.

Lemma wp_int_of z (Q : Z -> NeuQuant -> Prop) E q : -2147483648 <= z < 2147483648 -> Q z q -> wp (int_of z) Q E q.
Proof.
  intros Hz HQ. unfold int_of. assert ((-2147483648 <=? z) && (z <? 2147483648) = true) as -> by (apply andb_true_iff; lia). by apply wp_ret.
Qed.

(** [for (i = a; i < a + n; i++)] that carries a local value. *)
Lemma wp_foldM_seqZ {S B} (Inv : Z -> B -> S -> Prop) (body : B -> Z -> M S B) a n (Q : B -> S -> Prop) E b s :
  0 <= n -> Inv a b s ->
  (forall k b s', a <= k < a + n -> Inv k b s' -> wp (body b k) (fun b' s'' => Inv (k + 1) b' s'') E s') ->
  (forall b s', Inv (a + n) b s' -> Q b s') ->
  wp (foldM body (seqZ a n) b) Q E s.
Proof.
  intros Hn Hs Hb HQ.
  apply (wp_foldM (fun l b s' => exists k, l = seqZ k (a + n - k) /\ a <= k <= a + n /\ Inv k b s')).
  - intros k' l b' s' (k & Hl & Hk & HI). destruct (decide (0 < a + n - k)) as [Hlt|]; [|by rewrite seqZ_nil in Hl by lia].
    rewrite seqZ_cons in Hl by lia. injection Hl as -> ->. eapply wp_mono; [apply Hb; [lia|exact HI]| |done].
    intros b'' s'' HI'. exists (k + 1). split; [f_equal; lia|]. split; [lia|exact HI'].
  - intros b' s' (k & Hl & Hk & HI). destruct (decide (0 < a + n - k)); [by rewrite seqZ_cons in Hl by lia|].
    apply HQ. by replace (a + n) with k by lia.
  - exists a. split; [f_equal; lia|]. split; [lia|done].
Qed.

(** ** The ranges *)

Definition biased_color (x : Z) : Prop := 0 <= x <= 4080.
Definition biased_pixel (p : pixel) : Prop := biased_color p.(p_b) /\ biased_color p.(p_g) /\ biased_color p.(p_r).

(** The arrays have their sizes; [n] colours are in use. *)
Record sized (n : Z) (q : NeuQuant) : Prop := {
  sz_netsize : q.(netsize) = n;
  sz_range : 2 <= n <= 256;
  sz_network : length q.(network) = 256%nat;
  sz_freq : length q.(freq) = 256%nat;
  sz_bias : length q.(bias) = 256%nat;
  sz_netindex : length q.(netindex) = 256%nat;
  sz_radpower : length q.(radpower) = 32%nat
}.

(** The frequencies of the first [k] neurons have decayed in this round. *)
Definition freq_bound (k i : Z) : Z := if i <? k then 65535 else 65599.

Record trained (k n : Z) (q : NeuQuant) : Prop := {
  tr_sized : sized n q;
  tr_colors : forall i p, 0 <= i < n -> aget q.(network) i = Some p -> biased_pixel p;
  tr_freq : forall i f, 0 <= i < n -> aget q.(freq) i = Some f -> 0 <= f <= freq_bound k i;
  tr_bias : forall i f x, 0 <= i < n -> aget q.(freq) i = Some f -> aget q.(bias) i = Some x -> x = 1024 * (intbias / n - f)
}.

(** What training leaves alone, but for [radpower]. *)
Definition settings (q : NeuQuant) := (q.(netsize), q.(thepicture), q.(lengthcount), q.(samplefac), q.(netindex)).

Lemma aget_aset {A} (l l' : list A) i j v : aset l i v = Some l' -> aget l' j = if decide (j = i) then Some v else aget l j.
Proof. intros Hl. destruct (decide (j = i)) as [->|Hne]; [by apply (aget_aset_eq _ _ _ _ Hl)|]. by apply (aget_aset_ne _ _ _ _ _ Hl). Qed.

Lemma freq_share n : 2 <= n <= 256 -> 256 <= intbias / n <= 32768.
Proof.
  intros Hn. change intbias with 65536. split.
  - apply Z.div_le_lower_bound; lia.
  - transitivity (65536 / 2); [apply Z.div_le_compat_l; lia|done].
Qed.

Lemma bias_range k n q i x : trained k n q -> 0 <= i < n -> aget q.(bias) i = Some x -> -66911232 <= x <= 33554432.
Proof.
  intros [[_ Hn _ Hf _ _ _] _ Hfr Hb] Hi Hx. destruct (aget_Some q.(freq) i ltac:(rewrite Hf; lia)) as [f Hfi].
  rewrite (Hb i f x Hi Hfi Hx). pose proof (Hfr i f Hi Hfi) as Hr. unfold freq_bound in Hr. pose proof (freq_share n Hn).
  destruct (i <? k); lia.
Qed.

(** ** The contest *)

Definition contest_state (i : Z) (v : Z * Z * Z * Z) : Prop :=
  (i = 0 /\ v = (2147483647, -1, 2147483647, -1)) \/ (let '(_, bestpos, _, bestbiaspos) := v in 0 <= bestpos < i /\ 0 <= bestbiaspos < i).

Lemma wp_contest_round b g r v i n q E : biased_color b -> biased_color g -> biased_color r -> trained i n q -> 0 <= i < n -> contest_state i v ->
  wp (contest_round b g r v i) (fun v' q' => contest_state (i + 1) v' /\ trained (i + 1) n q' /\ settings q' = settings q /\ q'.(radpower) = q.(radpower) /\ q'.(alphadec) = q.(alphadec) /\ q'.(network) = q.(network)) E q.
Proof.
  intros Hb Hg Hr Htr Hi Hv. pose proof Htr as [[Hns Hn Hnl Hfl Hbl Hil Hrl] Hcol Hfr Hbi]. unfold contest_round. destruct v as [[[bestd bestpos] bestbiasd] bestbiaspos].
  apply wp_bind, wp_get_in; [rewrite Hnl; lia|]. intros p Hp. pose proof (Hcol i p Hi Hp) as (Hpb & Hpg & Hpr). unfold biased_color in *.
  apply wp_bind, wp_get_in; [rewrite Hbl; lia|]. intros x Hx. apply wp_bind, wp_get_in; [rewrite Hfl; lia|]. intros f Hf.
  pose proof (bias_range _ _ _ _ _ Htr Hi Hx) as Hxr. pose proof (Hfr i f Hi Hf) as Hfrange. unfold freq_bound in Hfrange. rewrite Z.ltb_irrefl in Hfrange.
  set (dist := Z.abs _ + Z.abs _ + Z.abs _). assert (0 <= dist <= 12240) as Hdist by (unfold dist; lia).
  change (intbiasshift - netbiasshift) with 12. rewrite Z.shiftr_div_pow2 by lia. change (2 ^ 12) with 4096.
  assert (-16336 <= x / 4096 <= 8192) as Hxs by (split; [apply Z.div_le_lower_bound; lia|apply Z.div_le_upper_bound; lia]).
  apply wp_bind, wp_int_of; [lia|]. cbv zeta. rewrite Z.shiftr_div_pow2, Z.shiftl_mul_pow2 by (unfold betashift, gammashift; lia). change (2 ^ betashift) with 1024. change (2 ^ gammashift) with 1024.
  pose proof (Z.div_mod f 1024 ltac:(lia)) as Hdm. pose proof (Z.mod_pos_bound f 1024 ltac:(lia)) as Hmod.
  assert (0 <= f - f / 1024 <= 65535) as Hf' by lia.
  apply wp_bind, wp_put_at; [rewrite Hfl; lia|]. intros fs Hfs. apply wp_bind, wp_int_of; [lia|].
  apply wp_bind, wp_put_at; [cbn [bias set_freq]; rewrite Hbl; lia|]. intros xs Hxs'. cbn [bias set_freq] in Hxs'.
  destruct (if dist <? bestd then _ else _) as [bestd' bestpos'] eqn:E1. destruct (if _ <? bestbiasd then _ else _) as [bestbiasd' bestbiaspos'] eqn:E2.
  apply wp_ret. split; [|split; [|done]].
  - right. destruct Hv as [[-> [= -> -> -> ->]]|[Hv1 Hv2]].
    + destruct (Z.ltb_spec dist 2147483647); [|lia]. destruct (Z.ltb_spec (dist - x / 4096) 2147483647); [|lia]. simplify_eq. lia.
    + split; [destruct (_ <? bestd)|destruct (_ <? bestbiasd)]; simplify_eq; lia.
  - split.
    + split; cbn; try done. by rewrite (aset_length _ _ _ _ Hfs). by rewrite (aset_length _ _ _ _ Hxs').
    + exact Hcol.
    + intros j fj Hj Hfj. cbn in Hfj. rewrite (aget_aset _ _ _ _ _ Hfs) in Hfj. unfold freq_bound. destruct (decide (j = i)) as [->|Hne].
      * injection Hfj as <-. rewrite (proj2 (Z.ltb_lt i (i + 1))) by lia. lia.
      * pose proof (Hfr j fj Hj Hfj) as Hb'. unfold freq_bound in Hb'. destruct (Z.ltb_spec j i), (Z.ltb_spec j (i + 1)); lia.
    + intros j fj xj Hj Hfj Hxj. cbn in Hfj, Hxj. rewrite (aget_aset _ _ _ _ _ Hfs) in Hfj. rewrite (aget_aset _ _ _ _ _ Hxs') in Hxj.
      destruct (decide (j = i)) as [->|Hne]; [|by apply (Hbi j)]. injection Hfj as <-. injection Hxj as <-. rewrite (Hbi i f x Hi Hf Hx). lia.
Qed.

(** What the contest leaves alone. *)
Definition outside (q : NeuQuant) := (settings q, q.(radpower), q.(alphadec), q.(network)).

Lemma wp_contest b g r n q E : biased_color b -> biased_color g -> biased_color r -> trained 0 n q ->
  wp (contest b g r) (fun j q' => 0 <= j < n /\ trained 0 n q' /\ outside q' = outside q) E q.
Proof.
  intros Hb Hg Hr Htr. pose proof (tr_sized _ _ _ Htr) as Hsz. pose proof (sz_range _ _ Hsz) as Hn. unfold contest. apply wp_bind, wp_gets. rewrite (sz_netsize _ _ Hsz).
  apply wp_bind. apply (wp_foldM_seqZ (fun i v q' => contest_state i v /\ trained i n q' /\ outside q' = outside q)); [lia|by split; [left|]| |].
  - intros i v q1 Hi (Hv & Htr1 & Hrest). eapply wp_mono; [by apply (wp_contest_round b g r v i n q1)| |done].
    intros v' q2 (Hv' & Htr2 & H1 & H2 & H3 & H4). split; [done|]. split; [done|]. rewrite <- Hrest. unfold outside. congruence.
  - intros [[[bestd bestpos] bestbiasd] bestbiaspos] q1 (Hv & Htr1 & Hrest). cbn [Z.add] in *. destruct Hv as [[Hn0 _]|[Hp Hbp]]; [lia|].
    pose proof Htr1 as [[Hns Hnr Hnl Hfl Hbl Hil Hrl] Hcol Hfr Hbi].
    apply wp_bind, wp_get_in; [rewrite Hfl; lia|]. intros f Hf. pose proof (Hfr bestpos f Hp Hf) as Hfb. unfold freq_bound in Hfb. rewrite (proj2 (Z.ltb_lt _ _)) in Hfb by lia.
    change beta with 64. change betagamma with 65536. apply wp_bind, wp_int_of; [lia|]. apply wp_bind, wp_put_at; [rewrite Hfl; lia|]. intros fs Hfs.
    apply wp_bind, wp_get_in; [cbn; rewrite Hbl; lia|]. intros x Hx. cbn in Hx. pose proof (bias_range _ _ _ _ _ Htr1 Hp Hx).
    apply wp_bind, wp_int_of; [lia|]. apply wp_bind, wp_put_at; [cbn; rewrite Hbl; lia|]. intros xs Hxs. cbn in Hxs. apply wp_ret. split; [lia|]. split; [|exact Hrest].
    split.
    + split; cbn; try done; [by rewrite (aset_length _ _ _ _ Hfs)|by rewrite (aset_length _ _ _ _ Hxs)].
    + exact Hcol.
    + intros j fj Hj Hfj. cbn in Hfj. rewrite (aget_aset _ _ _ _ _ Hfs) in Hfj. unfold freq_bound. rewrite (proj2 (Z.ltb_ge j 0)) by lia.
      destruct (decide (j = bestpos)) as [->|Hne]; [injection Hfj as <-; lia|]. pose proof (Hfr j fj Hj Hfj) as Hb'. unfold freq_bound in Hb'. destruct (j <? 0 + n); lia.
    + intros j fj xj Hj Hfj Hxj. cbn in Hfj, Hxj. rewrite (aget_aset _ _ _ _ _ Hfs) in Hfj. rewrite (aget_aset _ _ _ _ _ Hxs) in Hxj.
      destruct (decide (j = bestpos)) as [->|Hne]; [|by apply (Hbi j)]. injection Hfj as <-. injection Hxj as <-. rewrite (Hbi bestpos f x Hp Hf Hx). lia.
Qed.

(** ** Moving neurons *)

(** A part [a / d] of the way from [n] to [b]. *)
Lemma towards a d n b : 0 <= a <= d -> 0 < d -> biased_color n -> biased_color b -> biased_color (n - Z.quot (a * (n - b)) d).
Proof.
  unfold biased_color. intros Ha Hd Hn Hb. destruct (Z.le_ge_cases b n) as [Hle|Hge].
  - assert (0 <= Z.quot (a * (n - b)) d <= n - b); [|lia]. rewrite Z.quot_div_nonneg by nia. split; [apply Z.div_pos; nia|apply Z.div_le_upper_bound; [lia|nia]].
  - assert (0 <= Z.quot (a * (b - n)) d <= b - n).
    { rewrite Z.quot_div_nonneg by nia. split; [apply Z.div_pos; nia|apply Z.div_le_upper_bound; nia]. }
    replace (a * (n - b)) with (- (a * (b - n))) by ring. rewrite Z.quot_opp_l by lia. lia.
Qed.

Lemma wp_move a d n b (Q : Z -> NeuQuant -> Prop) E q : 0 <= a <= d -> 0 < d <= alpharadbias -> biased_color n -> biased_color b ->
  (forall x, biased_color x -> Q x q) -> wp (move a d n b) Q E q.
Proof.
  intros Ha Hd Hn Hb HQ. change alpharadbias with 262144 in Hd. unfold move. apply wp_bind, wp_int_of.
  - unfold biased_color in *. assert (-4080 <= n - b <= 4080) as Hr by lia. nia.
  - apply wp_ret, HQ. apply towards; [done|lia|done|done].
Qed.

(** What moving leaves alone. *)
Definition besides (q : NeuQuant) := (settings q, q.(radpower), q.(alphadec), q.(bias), q.(freq)).

Lemma trained_network k n q l : trained k n q -> length l = 256%nat -> (forall i p, 0 <= i < n -> aget l i = Some p -> biased_pixel p) -> trained k n (set_network l q).
Proof. intros [[] ? Hf Hb] Hl Hp. split; [by split|exact Hp|exact Hf|exact Hb]. Qed.

Lemma wp_alter a d i b g r n q E : 0 <= a <= d -> 0 < d <= alpharadbias -> 0 <= i < n -> biased_color b -> biased_color g -> biased_color r -> trained 0 n q ->
  wp (alter a d i b g r) (fun _ q' => trained 0 n q' /\ besides q' = besides q) E q.
Proof.
  intros Ha Hd Hi Hb Hg Hr Htr. pose proof Htr as [[Hns Hn Hnl _ _ _ _] Hcol _ _]. unfold alter.
  apply wp_bind, wp_get_in; [rewrite Hnl; lia|]. intros p Hp. destruct (Hcol i p Hi Hp) as (Hpb & Hpg & Hpr).
  apply wp_bind, wp_move; try done. intros nb Hnb. apply wp_bind, wp_move; try done. intros ng Hng. apply wp_bind, wp_move; try done. intros nr Hnr.
  apply wp_put_at; [rewrite Hnl; lia|]. intros l Hl. split; [|done]. apply trained_network; [done|by rewrite (aset_length _ _ _ _ Hl)|].
  intros j pj Hj Hpj. rewrite (aget_aset _ _ _ _ _ Hl) in Hpj. destruct (decide (j = i)) as [->|Hne]; [|by apply (Hcol j)]. by injection Hpj as <-.
Qed.

(** The first [rad] powers are factors up to one. *)
Definition powers (rad : Z) (q : NeuQuant) : Prop := forall k a, 0 <= k < rad -> aget q.(radpower) k = Some a -> 0 <= a <= alpharadbias.

Lemma besides_powers rad q q' : besides q' = besides q -> powers rad q -> powers rad q'.
Proof. unfold besides, powers. intros Hr Hp. assert (radpower q' = radpower q) as -> by congruence. exact Hp. Qed.

Lemma wp_alterneigh rad i b g r n q E : 2 <= rad <= 32 -> 0 <= i < n -> biased_color b -> biased_color g -> biased_color r -> trained 0 n q -> powers rad q ->
  wp (alterneigh rad i b g r) (fun _ q' => trained 0 n q' /\ besides q' = besides q) E q.
Proof.
  intros Hrad Hi Hb Hg Hr Htr Hpow. pose proof (tr_sized _ _ _ Htr) as Hsz. pose proof (sz_range _ _ Hsz) as Hn. unfold alterneigh. apply wp_bind, wp_gets.
  rewrite (sz_netsize _ _ Hsz), u32_small by lia. set (lo := if _ <? -1 then -1 else _). set (hi := if n <? _ then n else _).
  assert (-1 <= lo <= i - 1 /\ i - rad <= lo) as [Hlo Hlo'] by (unfold lo; destruct (Z.ltb_spec (i - rad) (-1)); lia).
  assert (i + 1 <= hi <= n /\ hi <= i + rad) as [Hhi Hhi'] by (unfold hi; destruct (Z.ltb_spec n (i + rad)); lia). clearbody lo hi.
  apply (wp_loop (fun m v q' => let '(j, k, c) := v in m = Z.to_nat (rad - c) /\ 0 <= c <= rad /\ i + 1 <= j <= hi /\ lo <= k <= i - 1 /\
    (j < hi -> j = i + 1 + c) /\ (lo < k -> k = i - 1 - c) /\ trained 0 n q' /\ besides q' = besides q)) with (n := Z.to_nat rad).
  - intros m [[j k] c] q1 (-> & Hc & Hj & Hk & Hjc & Hkc & Htr1 & Hrest). unfold neigh_round.
    destruct ((j <? hi) || (lo <? k)) eqn:Hor; [|by apply wp_ret].
    assert (c + 1 < rad) as Hc' by (apply orb_true_iff in Hor as [?%Z.ltb_lt|?%Z.ltb_lt]; lia). pose proof (tr_sized _ _ _ Htr1) as Hsz1.
    apply wp_bind, wp_get_in; [rewrite (sz_radpower _ _ Hsz1); lia|]. intros a Ha. apply (besides_powers _ _ _ Hrest) in Hpow as Hpow1. pose proof (Hpow1 (c + 1) a ltac:(lia) Ha) as Har.
    apply wp_bind. apply (wp_mono _ (fun _ q2 => trained 0 n q2 /\ besides q2 = besides q) _ E); [| |done].
    { destruct (Z.ltb_spec j hi); [|by apply wp_ret]. eapply wp_mono; [apply (wp_alter a alpharadbias j b g r n q1); try done; lia| |done]. intros _ q2 [Htr2 Hr2]. split; [done|]. by rewrite Hr2. }
    intros _ q2 [Htr2 Hr2]. apply wp_bind. apply (wp_mono _ (fun _ q3 => trained 0 n q3 /\ besides q3 = besides q) _ E); [| |done].
    { destruct (Z.ltb_spec lo k); [|by apply wp_ret]. eapply wp_mono; [apply (wp_alter a alpharadbias k b g r n q2); try done; lia| |done]. intros _ q3 [Htr3 Hr3]. split; [done|]. by rewrite Hr3. }
    intros _ q3 [Htr3 Hr3]. apply wp_ret. exists (Z.to_nat (rad - (c + 1))). split; [lia|]. destruct (Z.ltb_spec j hi), (Z.ltb_spec lo k); split_and!; (done || lia).
  - split_and!; (done || lia).
  - lia.
Qed.

(** ** Training *)

Lemma trained_radpower k n q l : trained k n q -> length l = 32%nat -> trained k n (set_radpower l q).
Proof. intros [[] Hc Hf Hb] Hl. split; [by split|exact Hc|exact Hf|exact Hb]. Qed.

Lemma wp_fill_radpower rad alpha n q E : 0 <= rad <= 32 -> 0 <= alpha <= 1024 -> trained 0 n q ->
  wp (fill_radpower rad alpha) (fun _ q' => trained 0 n q' /\ powers rad q' /\ settings q' = settings q /\ q'.(alphadec) = q.(alphadec)) E q.
Proof.
  intros Hrad Ha Htr. unfold fill_radpower.
  apply (wp_for_seqZ (fun k q' => trained 0 n q' /\ powers k q' /\ settings q' = settings q /\ q'.(alphadec) = q.(alphadec))).
  - split; [done|]. split; [|done]. intros k a Hk. lia.
  - intros k q1 Hk (Htr1 & Hp & Hs & Hd). change radbias with 256. pose proof (sz_radpower _ _ (tr_sized _ _ _ Htr1)) as Hl.
    assert (0 <= Z.quot ((rad * rad - k * k) * 256) (rad * rad) <= 256) as Hq.
    { rewrite Z.quot_div_nonneg by nia. split; [apply Z.div_pos; nia|apply Z.div_le_upper_bound; nia]. }
    apply wp_bind, wp_int_of; [nia|]. apply wp_put_at; [rewrite Hl; lia|]. intros l Hset.
    split; [apply trained_radpower; [done|by rewrite (aset_length _ _ _ _ Hset)]|]. split; [|by split].
    intros j a Hj Haj. cbn in Haj. rewrite (aget_aset _ _ _ _ _ Hset) in Haj. change alpharadbias with 262144.
    destruct (decide (j = k)) as [->|Hne]; [injection Haj as <-; nia|]. apply (Hp j); [lia|done].
  - intros q1 HI. by replace (0 + Z.max 0 rad) with rad in HI by lia.
Qed.

Lemma rad_of_range radius : 0 <= radius <= 2048 -> rad_of radius = 0 \/ 2 <= rad_of radius <= 32.
Proof.
  intros Hr. unfold rad_of. rewrite Z.shiftr_div_pow2 by (unfold radiusbiasshift; lia). change (2 ^ radiusbiasshift) with 64.
  assert (radius / 64 <= 32) by (apply Z.div_le_upper_bound; lia). destruct (Z.leb_spec (radius / 64) 1); lia.
Qed.

Lemma biased_range w s : biased_color (biased w s).
Proof.
  unfold biased_color, biased. change 0xff with (Z.ones 8). rewrite Z.land_ones, Z.shiftl_mul_pow2 by (unfold netbiasshift; lia).
  change (2 ^ netbiasshift) with 16. change (2 ^ 8) with 256. pose proof (Z.mod_pos_bound (Z.shiftr w s) 256 ltac:(lia)). lia.
Qed.

Lemma sample_step_pos len : 0 < sample_step len.
Proof. unfold sample_step. repeat (destruct (negb _); [done|]). done. Qed.

(** The locals of the loop. *)
Definition learning (n area dec : Z) (v : Z * Z * Z * Z * Z) (q : NeuQuant) : Prop :=
  let '(i, p, alpha, radius, rad) := v in
  0 <= i /\ 0 <= p < area /\ 0 <= alpha <= 1024 /\ 0 <= radius <= 2048 /\ rad = rad_of radius /\ trained 0 n q /\ powers rad q /\ q.(alphadec) = dec.

Lemma shrink x d : 0 <= x -> 0 < d -> 0 <= x - Z.quot x d <= x.
Proof.
  intros Hx Hd. rewrite Z.quot_div_nonneg by lia. pose proof (Z.div_pos x d Hx Hd). assert (x / d <= x); [|lia]. apply Z.div_le_upper_bound; nia.
Qed.

Lemma wp_learn_round step delta samplepixels n area dec v q E : 0 < area <= Z.of_nat (length q.(thepicture)) -> q.(lengthcount) = PIXEL_SIZE * area -> 0 < step -> 0 < delta -> 0 < dec ->
  v.1.1.1.1 < samplepixels -> learning n area dec v q ->
  wp (learn_round step delta samplepixels v) (fun r q' => exists v', r = inl v' /\ v'.1.1.1.1 = v.1.1.1.1 + 1 /\ learning n area dec v' q' /\ settings q' = settings q) E q.
Proof.
  intros Harea Hlen Hstep Hdelta Hdec Hlt Hv. destruct v as [[[[i p] alpha] radius] rad]. cbn [fst] in *. destruct Hv as (Hi & Hp & Ha & Hr & -> & Htr & Hpow & Had).
  unfold learn_round. rewrite (proj2 (Z.ltb_lt _ _)) by done. apply wp_bind, wp_get_in; [lia|]. intros w _. cbv zeta.
  apply wp_bind. eapply wp_mono; [apply (wp_contest _ _ _ n); try apply biased_range; done| |done]. intros j q1 (Hj & Htr1 & Hout1).
  assert (settings q1 = settings q /\ radpower q1 = radpower q /\ alphadec q1 = alphadec q) as (Hs1 & Hrp1 & Had1) by (unfold outside in Hout1; split_and!; congruence).
  apply wp_bind. eapply wp_mono; [apply (wp_alter alpha initalpha j _ _ _ n q1); try apply biased_range; (done || (change initalpha with 1024; change alpharadbias with 262144; lia))| |done].
  intros _ q2 [Htr2 Hb2]. assert (settings q2 = settings q /\ radpower q2 = radpower q /\ alphadec q2 = alphadec q) as (Hs2 & Hrp2 & Had2) by (unfold besides in Hb2; split_and!; congruence).
  assert (powers (rad_of radius) q2) as Hpow2 by (unfold powers; rewrite Hrp2; exact Hpow).
  apply wp_bind. apply (wp_mono _ (fun _ q3 => trained 0 n q3 /\ besides q3 = besides q2) _ E); [| |done].
  { destruct (Z.eqb_spec (rad_of radius) 0) as [_|Hne]; cbn [negb]; [by apply wp_ret|]. apply (wp_alterneigh (rad_of radius) j _ _ _ n q2); try apply biased_range; try done.
    destruct (rad_of_range radius Hr); [done|lia]. }
  intros _ q3 [Htr3 Hb3]. assert (settings q3 = settings q /\ radpower q3 = radpower q /\ alphadec q3 = alphadec q) as (Hs3 & Hrp3 & Had3) by (unfold besides in Hb3; split_and!; congruence).
  assert (lengthcount q3 = PIXEL_SIZE * area) as Hlen3 by (unfold settings in Hs3; congruence).
  apply wp_bind, wp_gets. rewrite Hlen3. set (p' := if _ <=? _ then 0 else _).
  assert (0 <= p' < area) as Hp' by (unfold p'; change PIXEL_SIZE with 4; destruct (Z.leb_spec (4 * area) (4 * (p + step))); lia). clearbody p'.
  rewrite (proj2 (Z.eqb_neq delta 0)) by lia.
  assert (powers (rad_of radius) q3) as Hpow3 by (unfold powers; rewrite Hrp3; exact Hpow).
  destruct (Z.rem (i + 1) delta =? 0).
  - apply wp_bind, wp_gets. rewrite Had3, Had. pose proof (shrink alpha dec ltac:(lia) Hdec) as Hal. pose proof (shrink radius radiusdec ltac:(lia) ltac:(done)) as Hrl.
    apply wp_bind. eapply wp_mono; [apply (wp_fill_radpower _ _ n q3); [destruct (rad_of_range (radius - Z.quot radius radiusdec) ltac:(lia)); lia|lia|done]| |done].
    intros _ q4 (Htr4 & Hpow4 & Hs4 & Had4). apply wp_ret. eexists. split; [reflexivity|]. split; [done|]. split; [|congruence].
    split_and!; (done || lia || congruence).
  - apply wp_ret. eexists. split; [reflexivity|]. split; [done|]. split; [|done]. split_and!; (done || lia || congruence).
Qed.

(** A picture of [area] words, of which every [sample]th is looked at. *)
Record pictured (area sample : Z) (q : NeuQuant) : Prop := {
  pc_area : 0 < area <= Z.of_nat (length q.(thepicture));
  pc_length : q.(lengthcount) = PIXEL_SIZE * area;
  pc_sample : q.(samplefac) = sample /\ 1 <= sample <= 30
}.

Lemma pictured_settings area sample q q' : settings q' = settings q -> pictured area sample q -> pictured area sample q'.
Proof.
  unfold settings. intros Hs [Ha Hl [Hf Hr]]. assert (thepicture q' = thepicture q /\ lengthcount q' = lengthcount q /\ samplefac q' = samplefac q) as (H1 & H2 & H3) by (split_and!; congruence).
  split; [by rewrite H1|by rewrite H2|by rewrite H3].
Qed.

Lemma quot_samples area sample : 0 < area -> 1 <= sample -> Z.quot (PIXEL_SIZE * area) (PIXEL_SIZE * sample) = area / sample.
Proof. intros Ha Hs. change PIXEL_SIZE with 4. rewrite Z.quot_mul_cancel_l by lia. by rewrite Z.quot_div_nonneg by lia. Qed.

Lemma initradius_range n : 2 <= n <= 256 -> 0 <= initradius n <= 2048.
Proof.
  intros Hn. unfold initradius, initrad. change radiusbias with 64. rewrite Z.shiftr_div_pow2 by lia. change (2 ^ 3) with 8.
  pose proof (Z.div_pos n 8 ltac:(lia) ltac:(lia)). assert (n / 8 <= 32) by (apply Z.div_le_upper_bound; lia). lia.
Qed.

(** The first part of [learn]. *)
Lemma wp_prepare area sample n q E (Q : unit -> NeuQuant -> Prop) : pictured area sample q -> trained 0 n q ->
  (let samplepixels := area / sample in
   forall q', settings q' = settings q -> learning n area (30 + Z.quot (sample - 1) 3) (0, 0, initalpha, initradius n, rad_of (initradius n)) q' ->
   wp (loop (S (Z.to_nat samplepixels)) (learn_round (sample_step (PIXEL_SIZE * area)) (samplepixels / 100) samplepixels)
     (0, 0, initalpha, initradius n, rad_of (initradius n))) Q E q') ->
  wp learn Q E q.
Proof.
  intros [Ha Hl [Hs Hsr]] Htr HQ. cbv zeta in HQ. pose proof (tr_sized _ _ _ Htr) as Hsz. pose proof (sz_range _ _ Hsz) as Hn. pose proof (sz_netsize _ _ Hsz) as Hns. unfold learn.
  apply wp_bind, wp_gets, wp_bind, wp_modify, wp_bind, wp_gets, wp_bind, wp_gets. cbn [lengthcount set_alphadec netsize samplefac]. rewrite Hl, Hns, Hs, quot_samples by lia.
  pose proof (initradius_range n Hn) as Hrad.
  apply wp_bind. eapply wp_mono; [apply (wp_fill_radpower _ _ n); [destruct (rad_of_range _ Hrad); lia|by change initalpha with 1024|]| |done].
  { destruct Htr as [[] Hc Hf Hb]. split; [by split|exact Hc|exact Hf|exact Hb]. }
  intros _ q1 (Htr1 & Hpow1 & Hs1 & Had1). change ncycles with 100.
  assert (0 <= area / sample) as Hpos by (apply Z.div_pos; lia). rewrite (Z.quot_div_nonneg (area / sample)) by lia.
  apply HQ; [exact Hs1|]. change initalpha with 1024. split_and!; (done || lia).
Qed.

(** Training ends and keeps the network in its ranges. *)
Lemma wp_learn area sample n q E : pictured area sample q -> area / sample = 0 \/ 100 <= area / sample -> trained 0 n q ->
  wp learn (fun _ q' => trained 0 n q' /\ settings q' = settings q) E q.
Proof.
  intros Hpic Hsamples Htr. apply (wp_prepare area sample n); [done|done|]. cbv zeta. intros q1 Hs1 Hl1.
  pose proof (pc_sample _ _ _ Hpic) as [_ Hsr]. pose proof (sz_range _ _ (tr_sized _ _ _ Htr)) as Hn.
  assert (0 < 30 + Z.quot (sample - 1) 3) as Hdec by (rewrite Z.quot_div_nonneg by lia; pose proof (Z.div_pos (sample - 1) 3); lia).
  apply (wp_loop (fun m v q' => m = Z.to_nat (area / sample - v.1.1.1.1) /\ learning n area (30 + Z.quot (sample - 1) 3) v q' /\ settings q' = settings q)) with (n := Z.to_nat (area / sample)).
  - intros m v q2 (-> & Hv & Hs2). apply (pictured_settings _ _ _ q2) in Hpic as [Ha Hl _]; [|done]. destruct (Z.ltb_spec v.1.1.1.1 (area / sample)) as [Hlt|Hge].
    + assert (0 <= v.1.1.1.1) as Hv0 by (destruct v as [[[[? ?] ?] ?] ?]; cbn in *; tauto).
      eapply wp_mono; [apply (wp_learn_round _ (area / sample / 100) (area / sample) n area (30 + Z.quot (sample - 1) 3) v q2); try done| |done].
      * apply sample_step_pos.
      * assert (100 / 100 <= area / sample / 100) by (apply Z.div_le_mono; lia). change (100 / 100) with 1 in *. lia.
      * intros r q3 (v' & -> & Hi & Hv' & Hs3). exists (Z.to_nat (area / sample - v'.1.1.1.1)). rewrite Hi. split; [lia|]. split; [done|]. split; [done|]. by rewrite Hs3.
    + unfold learn_round. destruct v as [[[[i p] alpha] radius] rad]. cbn [fst] in *. rewrite (proj2 (Z.ltb_ge _ _)) by lia. apply wp_ret.
      destruct Hv as (_ & _ & _ & _ & _ & Htr2 & _). by split.
  - split; [by rewrite Z.sub_0_r|by split].
  - lia.
Qed.

Lemma stuck_gets {S A B} (f : S -> A) (k : A -> M S B) s : stuck_at (k (f s)) s -> stuck_at (bind (gets f) k) s.
Proof. done. Qed.

Lemma stuck_modify {S B} (f : S -> S) (k : unit -> M S B) s : stuck_at (k tt) (f s) -> stuck_at (bind (modify f) k) s.
Proof. done. Qed.

(** With less than 100 samples the number of samples per cycle is zero, by which
    the loop divides. *)
Lemma learn_divides_by_zero area sample n q : pictured area sample q -> 0 < area / sample < 100 -> trained 0 n q -> stuck_at learn q.
Proof.
  intros [Ha Hl [Hs Hsr]] Hsamples Htr. pose proof (tr_sized _ _ _ Htr) as Hsz. pose proof (sz_range _ _ Hsz) as Hn. unfold learn.
  apply stuck_gets.
  apply stuck_modify. set (q0 := set_alphadec _ q).
  apply stuck_gets.
  apply stuck_gets. cbn [lengthcount netsize q0 set_alphadec].
  rewrite Hl, (sz_netsize _ _ Hsz), Hs, quot_samples by lia. cbv zeta. change ncycles with 100. rewrite (Z.quot_small (area / sample)) by lia.
  assert (trained 0 n q0) as Htr0 by (destruct Htr as [[] Hc Hf Hb]; split; [by split|exact Hc|exact Hf|exact Hb]).
  pose proof (initradius_range n Hn) as Hrad. eapply stuck_bind_later.
  { apply (wp_fill_radpower (rad_of (initradius n)) initalpha n q0); [destruct (rad_of_range _ Hrad); lia|by change initalpha with 1024|done]. }
  intros _ q1 (Htr1 & Hpow1 & Hs1 & _). cbn [loop]. apply stuck_bind. unfold learn_round. rewrite (proj2 (Z.ltb_lt 0 _)) by lia. apply (pictured_settings area sample q q1) in Hs1; [|by split].
  destruct (aget_Some q1.(thepicture) 0) as [w Hw]; [destruct Hs1; lia|].
  eapply (stuck_bind_later _ _ (fun a s => a = w /\ s = q1)); [by eapply wp_get_at|]. intros ? ? [-> ->].
  eapply stuck_bind_later; [apply (wp_contest _ _ _ n); try apply biased_range; done|]. intros j q2 (Hj & Htr2 & Hout2).
  eapply stuck_bind_later; [apply (wp_alter initalpha initalpha j _ _ _ n q2); try apply biased_range; (done || (change initalpha with 1024; change alpharadbias with 262144; lia))|].
  intros _ q3 [Htr3 Hb3]. eapply (stuck_bind_later _ _ (fun _ _ => True)).
  { destruct (Z.eqb_spec (rad_of (initradius n)) 0) as [_|Hne]; cbn [negb]; [by apply wp_ret|].
    eapply wp_mono; [apply (wp_alterneigh (rad_of (initradius n)) j _ _ _ n q3); try apply biased_range; try done| |]; [destruct (rad_of_range _ Hrad); lia| |done|exact (fun _ H => H)].
    unfold powers. assert (radpower q3 = radpower q1) as -> by (unfold besides, outside in *; congruence). exact Hpow1. }
  intros _ q4 _. apply stuck_gets. done.
Qed.

(** ** The start and the end of training *)

Lemma wp_initnet pic area sample n q E : sized n q -> 0 < area <= Z.of_nat (length pic) -> 1 <= sample <= 30 ->
  wp (initnet pic (PIXEL_SIZE * area) sample) (fun _ q' => trained 0 n q' /\ pictured area sample q' /\ q'.(thepicture) = pic) E q.
Proof.
  intros Hsz Ha Hs. pose proof (sz_range _ _ Hsz) as Hn. unfold initnet. apply wp_bind, wp_modify, wp_bind, wp_gets. cbn [netsize set_picture]. rewrite (sz_netsize _ _ Hsz).
  set (q0 := set_picture _ _ _ q).
  apply (wp_for_seqZ (fun k q' => sized n q' /\ settings q' = settings q0 /\ (forall i p, 0 <= i < k -> aget q'.(network) i = Some p -> biased_pixel p) /\
    forall i, 0 <= i < k -> aget q'.(freq) i = Some (intbias / n) /\ aget q'.(bias) i = Some 0)).
  - split; [by destruct Hsz; split|]. split; [done|]. split; intros; lia.
  - intros i q1 Hi (Hsz1 & Hs1 & Hcol & Hfb). pose proof Hsz1 as [Hns _ Hnl Hfl Hbl Hil Hrl]. apply wp_bind, wp_get_in; [rewrite Hnl; lia|]. intros p Hp.
    assert (biased_color (Z.shiftl i (netbiasshift + 8) / n)) as Hv.
    { unfold biased_color. rewrite Z.shiftl_mul_pow2 by (unfold netbiasshift; lia). change (2 ^ (netbiasshift + 8)) with 4096. split; [apply Z.div_pos; lia|].
      transitivity (4096 * (n - 1) / n); [apply Z.div_le_mono; lia|]. apply Z.lt_succ_r. apply Z.div_lt_upper_bound; lia. }
    apply wp_bind, wp_put_at; [rewrite Hnl; lia|]. intros l1 Hl1. apply wp_bind, wp_put_at; [cbn; rewrite Hfl; lia|]. intros l2 Hl2. cbn in Hl2.
    apply wp_put_at; [cbn; rewrite Hbl; lia|]. intros l3 Hl3. cbn in Hl3. split.
    { split; cbn; try done; [by rewrite (aset_length _ _ _ _ Hl1)|by rewrite (aset_length _ _ _ _ Hl2)|by rewrite (aset_length _ _ _ _ Hl3)]. }
    split; [done|]. cbn. split.
    + intros j pj Hj Hpj. rewrite (aget_aset _ _ _ _ _ Hl1) in Hpj. destruct (decide (j = i)) as [->|Hne]; [by injection Hpj as <-|]. apply (Hcol j); [lia|done].
    + intros j Hj. rewrite (aget_aset _ _ _ _ _ Hl2), (aget_aset _ _ _ _ _ Hl3). destruct (decide (j = i)) as [->|Hne]; [done|]. apply Hfb. lia.
  - intros q1 (Hsz1 & Hs1 & Hcol & Hfb). replace (0 + Z.max 0 n) with n in * by lia. split; [|split; [|unfold settings in Hs1; cbn in Hs1; congruence]].
    + pose proof (freq_share n Hn). split; [done|done| |].
      * intros i f Hi Hf. destruct (Hfb i Hi) as [Hf' _]. rewrite Hf' in Hf. injection Hf as <-. unfold freq_bound. destruct (i <? 0); lia.
      * intros i f x Hi Hf Hx. destruct (Hfb i Hi) as [Hf' Hx']. rewrite Hf' in Hf. rewrite Hx' in Hx. injection Hf as <-. injection Hx as <-. lia.
    + apply (pictured_settings _ _ q0); [done|]. split; [exact Ha|done|done].
Qed.

(** A palette colour. *)
Definition byte_pixel (p : pixel) : Prop := (0 <= p.(p_b) < 256) /\ (0 <= p.(p_g) < 256) /\ (0 <= p.(p_r) < 256).

Lemma unbias_range x : biased_color x -> 0 <= unbias x < 256.
Proof.
  unfold biased_color, unbias. intros Hx. cbv zeta. rewrite Z.shiftr_div_pow2 by (unfold netbiasshift; lia). change (Z.shiftl 1 (netbiasshift - 1)) with 8. change (2 ^ netbiasshift) with 16.
  pose proof (Z.div_pos (x + 8) 16 ltac:(lia) ltac:(lia)). destruct (Z.ltb_spec 255 ((x + 8) / 16)); lia.
Qed.

(** The network after training: bytes, numbered in order. *)
Lemma wp_unbiasnet n q E : trained 0 n q ->
  wp unbiasnet (fun _ q' => sized n q' /\ settings q' = settings q /\ forall i p, 0 <= i < n -> aget q'.(network) i = Some p -> byte_pixel p /\ p.(p_c) = i) E q.
Proof.
  intros [Hsz Hcol _ _]. pose proof (sz_range _ _ Hsz) as Hn. unfold unbiasnet. apply wp_bind, wp_gets. rewrite (sz_netsize _ _ Hsz).
  apply (wp_for_seqZ (fun k q' => sized n q' /\ settings q' = settings q /\ forall i p, 0 <= i < n -> aget q'.(network) i = Some p -> if i <? k then byte_pixel p /\ p.(p_c) = i else biased_pixel p)).
  - split; [done|]. split; [done|]. intros i p Hi Hp. rewrite (proj2 (Z.ltb_ge i 0)) by lia. by apply (Hcol i).
  - intros k q1 Hk (Hsz1 & Hs1 & Hnet). pose proof Hsz1 as [Hns _ Hnl Hfl Hbl Hil Hrl]. apply wp_bind, wp_get_in; [rewrite Hnl; lia|]. intros p Hp.
    pose proof (Hnet k p ltac:(lia) Hp) as Hbp. rewrite Z.ltb_irrefl in Hbp. destruct Hbp as (Hb & Hg & Hr).
    apply wp_put_at; [rewrite Hnl; lia|]. intros l Hl. split; [split; cbn; try done; by rewrite (aset_length _ _ _ _ Hl)|]. split; [done|].
    intros i pi Hi Hpi. cbn in Hpi. rewrite (aget_aset _ _ _ _ _ Hl) in Hpi. destruct (decide (i = k)) as [->|Hne].
    + injection Hpi as <-. rewrite (proj2 (Z.ltb_lt k (k + 1))) by lia. split; [|done]. split_and!; by apply unbias_range.
    + pose proof (Hnet i pi Hi Hpi) as Hold. destruct (Z.ltb_spec i k), (Z.ltb_spec i (k + 1)); (done || lia).
  - intros q1 (Hsz1 & Hs1 & Hnet). split; [done|]. split; [done|]. intros i p Hi Hp. pose proof (Hnet i p Hi Hp) as Hi'. by rewrite (proj2 (Z.ltb_lt i _)) in Hi' by lia.
Qed.
