(* ===== verification/NeuQuantIndex.v ===== *)
(** * libframesequence: the index of the quantiser and the search in it

    [inxbuild] sorts the colours by green ([wp_inxbuild]: a permutation, sorted,
    with an index into it for every green value), and [inxsearch], which walks up
    and down from there and stops early, finds a closest colour
    ([wp_inxsearch]). *)

From stdpp Require Import base numbers list list_numbers.
From Stdlib Require Import Lia ZArith.
From S2P Require Import Prelude NeuQuant NeuQuantNet.

#[local] Open Scope Z_scope.
#[local] Open Scope c_scope.

(** The colours in use. *)
Definition live (n : Z) (l : list pixel) : list pixel := take (Z.to_nat n) l.

Lemma live_get n l i p : 0 <= i < n -> aget l i = Some p -> p ∈ live n l.
Proof.
  intros Hi Hp. unfold aget in Hp. rewrite decide_True in Hp by lia. apply list_elem_of_lookup. exists (Z.to_nat i).
  unfold live. by rewrite lookup_take_lt by lia.
Qed.

Lemma live_elem n l p : n <= Z.of_nat (length l) -> p ∈ live n l -> exists i, 0 <= i < n /\ aget l i = Some p.
Proof.
  intros Hn (i & Hi)%list_elem_of_lookup. unfold live in Hi. pose proof (lookup_lt_Some _ _ _ Hi) as Hlt. rewrite length_take in Hlt.
  rewrite lookup_take_lt in Hi by lia. exists (Z.of_nat i). split; [lia|]. apply aget_lookup; [lia|]. by rewrite Nat2Z.id.
Qed.

(** ** Sorting *)

Lemma wp_smallest n i q (Q : Z * Z -> NeuQuant -> Prop) E p : sized n q -> 0 <= i < n -> aget q.(network) i = Some p ->
  (forall pos qp, i <= pos < n -> aget q.(network) pos = Some qp ->
     (forall j pj, i <= j < n -> aget q.(network) j = Some pj -> qp.(p_g) <= pj.(p_g)) -> Q (pos, qp.(p_g)) q) ->
  wp (foldM smallest_round (seqZ (i + 1) (n - (i + 1))) (i, p.(p_g))) Q E q.
Proof.
  intros Hsz Hi Hp HQ. pose proof (sz_range _ _ Hsz) as Hn. pose proof (sz_network _ _ Hsz) as Hnl.
  apply (wp_foldM_seqZ (fun k v q' => q' = q /\ exists qp, i <= v.1 < k /\ aget q.(network) v.1 = Some qp /\ v.2 = qp.(p_g) /\
    forall j pj, i <= j < k -> aget q.(network) j = Some pj -> qp.(p_g) <= pj.(p_g))); [lia| | |].
  - split; [done|]. exists p. split; [cbn; lia|]. split; [done|]. split; [done|]. intros j pj Hj Hpj. assert (j = i) as -> by lia. simplify_eq. lia.
  - intros k [pos val] q' Hk (-> & qp & Hpos & Hqp & Hval & Hmin). cbn [fst snd] in *. subst val. unfold smallest_round. apply wp_bind, wp_get_in; [rewrite Hnl; lia|]. intros pk Hpk. apply wp_ret. split; [done|].
    destruct (Z.ltb_spec (p_g pk) (p_g qp)) as [Hlt|Hge].
    + exists pk. cbn [fst snd]. split; [lia|]. split; [done|]. split; [done|]. intros j pj Hj Hpj. destruct (decide (j = k)) as [->|Hne]; [by simplify_eq|]. specialize (Hmin j pj ltac:(lia) Hpj). lia.
    + exists qp. cbn [fst snd]. split; [lia|]. split; [done|]. split; [done|]. intros j pj Hj Hpj. destruct (decide (j = k)) as [->|Hne]; [by simplify_eq|]. by apply (Hmin j pj ltac:(lia)).
  - intros [pos val] q' (-> & qp & Hpos & Hqp & Hval & Hmin). cbn [fst snd] in *. subst val. replace (i + 1 + (n - (i + 1))) with n in * by lia. by apply HQ.
Qed.

(** The first [i] colours are in their places. *)
Definition sorted_to (i n : Z) (l : list pixel) : Prop :=
  forall a c pa pc, 0 <= a < i -> a < c < n -> aget l a = Some pa -> aget l c = Some pc -> pa.(p_g) <= pc.(p_g).

Definition index_to (k n : Z) (l : list Z) : Prop := forall j x, 0 <= j < k -> aget l j = Some x -> 0 <= x < n.

Lemma swap_sorted i pos n l l1 l2 p qp : 0 <= i <= pos -> pos < n -> n <= Z.of_nat (length l) -> sorted_to i n l -> aget l i = Some p -> aget l pos = Some qp ->
  (forall j pj, i <= j < n -> aget l j = Some pj -> qp.(p_g) <= pj.(p_g)) ->
  aset l pos p = Some l1 -> aset l1 i qp = Some l2 ->
  sorted_to (i + 1) n l2 /\ live n l2 ≡ₚ live n l /\ aget l2 i = Some qp.
Proof.
  intros Hi Hpos Hn Hs Hp Hqp Hmin H1 H2.
  assert (forall j, aget l2 j = if decide (j = i) then Some qp else if decide (j = pos) then Some p else aget l j) as Hget.
  { intros j. rewrite (aget_aset _ _ _ _ _ H2), (aget_aset _ _ _ _ _ H1). done. }
  split; [|split; [|rewrite Hget; by rewrite decide_True]].
  - assert (forall c pc, i <= c < n -> aget l2 c = Some pc -> exists c', i <= c' < n /\ aget l c' = Some pc) as Hback.
    { intros c pc Hc Hpc. rewrite Hget in Hpc. destruct (decide (c = i)); [simplify_eq; exists pos; split; [lia|done]|].
      destruct (decide (c = pos)); [simplify_eq; exists i; split; [lia|done]|]. by exists c. }
    intros a c pa pc Ha Hc Hpa Hpc. destruct (decide (a = i)) as [->|Hne].
    + rewrite Hget, decide_True in Hpa by done. injection Hpa as <-. destruct (Hback c pc ltac:(lia) Hpc) as (c' & Hc' & Hpc'). by apply (Hmin c').
    + rewrite Hget, !decide_False in Hpa by lia. destruct (decide (c < i)) as [Hlt|Hge].
      * rewrite Hget, !decide_False in Hpc by lia. by apply (Hs a c pa pc); [lia|..].
      * destruct (Hback c pc ltac:(lia) Hpc) as (c' & Hc' & Hpc'). by apply (Hs a c' pa pc); [lia|lia|..].
  - apply aset_inv in H1 as [_ ->], H2 as [_ ->]. unfold live. rewrite !take_insert_lt by lia.
    unfold aget in Hp, Hqp. rewrite decide_True in Hp by lia. rewrite decide_True in Hqp by lia.
    apply Permutation_insert_swap; by rewrite lookup_take_lt by lia.
Qed.

Lemma index_put k n l l' j x : index_to k n l -> aset l j x = Some l' -> 0 <= x < n -> j = k -> index_to (k + 1) n l'.
Proof.
  intros Hi Hl Hx -> j' x' Hj Hx'. rewrite (aget_aset _ _ _ _ _ Hl) in Hx'. destruct (decide (j' = k)) as [->|Hne]; [by injection Hx' as <-|]. apply (Hi j'); [lia|done].
Qed.

Definition with_index (n : Z) (l0 : list pixel) (q0 q : NeuQuant) : Prop :=
  sized n q /\ q.(thepicture) = q0.(thepicture) /\ live n q.(network) ≡ₚ live n l0.

Lemma wp_fill_index n l0 q0 net k to_ x q E : with_index n l0 q0 q -> q.(network) = net -> 0 <= k -> to_ <= 256 -> 0 <= x < n -> index_to k n q.(netindex) ->
  wp (for_each (fun j => put_at netindex set_netindex j x) (seqZ k (to_ - k)))
    (fun _ q' => with_index n l0 q0 q' /\ q'.(network) = net /\ index_to to_ n q'.(netindex)) E q.
Proof.
  intros Hw Hnet Hk Hto Hx Hidx. apply (wp_for_seqZ (fun j q' => with_index n l0 q0 q' /\ q'.(network) = net /\ index_to j n q'.(netindex))); [done| |].
  - intros j q1 Hj (Hw1 & Hn1 & Hi1). destruct Hw1 as ([] & Hp1 & Hl1). apply wp_put_at; [lia|]. intros l Hl. split; [|split; [done|by apply (index_put j n (netindex q1) l j x)]].
    split; [|done]. split; cbn; try done. by rewrite (aset_length _ _ _ _ Hl).
  - intros q1 (Hw1 & Hn1 & Hi1). split; [done|]. split; [done|]. intros j xj Hj. apply Hi1. lia.
Qed.

(** A round puts the next smallest colour in its place. *)
Lemma wp_inx_round n l0 q0 v i q E : with_index n l0 q0 q -> 0 <= i < n -> (forall p, p ∈ live n l0 -> byte_pixel p) ->
  sorted_to i n q.(network) -> 0 <= v.1 <= 255 -> 0 <= v.2 <= i -> index_to v.1 n q.(netindex) ->
  wp (inx_round v i) (fun v' q' => with_index n l0 q0 q' /\ sorted_to (i + 1) n q'.(network) /\ 0 <= v'.1 <= 255 /\ 0 <= v'.2 <= i + 1 /\ index_to v'.1 n q'.(netindex)) E q.
Proof.
  intros (Hsz & Hpic & Hperm) Hi Hbytes Hsort Hv1 Hv2 Hidx. destruct v as [previouscol startpos]. cbn [fst snd] in *.
  pose proof Hsz as [Hns Hn Hnl Hfl Hbl Hil Hrl]. unfold inx_round. apply wp_bind, wp_gets. rewrite Hns.
  apply wp_bind, wp_get_in; [rewrite Hnl; lia|]. intros p Hp. apply wp_bind, (wp_smallest n i); [done|done|done|]. intros pos qp Hpos Hqp Hmin.
  apply wp_bind. eapply wp_get_at; [exact Hqp|].
  assert (0 <= p_g qp < 256) as Hg by (apply (Hbytes qp); rewrite <- Hperm; by apply (live_get n _ pos); [lia|]).
  apply wp_bind. apply (wp_mono _ (fun _ q1 => with_index n l0 q0 q1 /\ sorted_to (i + 1) n q1.(network) /\ q1.(netindex) = q.(netindex)) _ E); [| |done].
  - destruct (Z.eqb_spec i pos) as [<-|Hne]; cbn [negb].
    + apply wp_ret. split; [done|]. split; [|done]. assert (qp = p) as -> by congruence. intros a c pa pc Ha Hc Hpa Hpc. destruct (decide (a = i)) as [->|Hne].
      * assert (pa = p) as -> by congruence. apply (Hmin c); [lia|done].
      * by apply (Hsort a c pa pc); [lia|..].
    + apply wp_bind, wp_put_at; [rewrite Hnl; lia|]. intros l1 Hl1. apply wp_put_at; [cbn; rewrite (aset_length _ _ _ _ Hl1), Hnl; lia|]. intros l2 Hl2. cbn in Hl2.
      destruct (swap_sorted i pos n (network q) l1 l2 p qp) as (Hs2 & Hp2 & _); try done; [lia|lia|rewrite Hnl; lia|]. split; [|done]. split; [|split; [done|cbn; by rewrite Hp2]].
      split; cbn; try done. by rewrite (aset_length _ _ _ _ Hl2), (aset_length _ _ _ _ Hl1).
  - intros _ q1 (Hw1 & Hs1 & Hix1). destruct (Z.eqb_spec (p_g qp) previouscol) as [Heq|Hne]; cbn [negb].
    + apply wp_ret. cbn [fst snd]. rewrite Hix1. split_and!; (done || lia).
    + destruct Hw1 as (Hsz1 & Hp1 & Hl1). pose proof (sz_netindex _ _ Hsz1) as Hil1.
      apply wp_bind, wp_put_at; [rewrite Hil1; lia|]. intros l Hl. rewrite Hix1 in Hl. rewrite Z.shiftr_div_pow2 in Hl by lia. change (2 ^ 1) with 2 in Hl.
      assert (0 <= (startpos + i) / 2 < n) as Hmid by (split; [apply Z.div_pos; lia|apply Z.div_lt_upper_bound; lia]).
      apply wp_bind. eapply wp_mono; [apply (wp_fill_index n l0 q0 (network q1) (previouscol + 1) (p_g qp) i)| |done]; try done; try lia.
      * split; [|done]. destruct Hsz1. split; cbn; try done. by rewrite (aset_length _ _ _ _ Hl), <- Hix1.
      * cbn. by apply (index_put _ _ _ _ _ _ Hidx Hl).
      * intros _ q2 (Hw2 & Hn2 & Hi2). apply wp_ret. cbn [fst snd]. rewrite Hn2. split_and!; (done || lia).
Qed.

(** The colours are sorted by green, none is lost, and the index leads into them. *)
Lemma wp_inxbuild n q E : sized n q -> (forall p, p ∈ live n q.(network) -> byte_pixel p) ->
  wp inxbuild (fun _ q' => with_index n q.(network) q q' /\ sorted_to n n q'.(network) /\ index_to 256 n q'.(netindex)) E q.
Proof.
  intros Hsz Hbytes. pose proof Hsz as [Hns Hn Hnl Hfl Hbl Hil Hrl]. unfold inxbuild. apply wp_bind, wp_gets. rewrite Hns. apply wp_bind.
  apply (wp_foldM_seqZ (fun i v q' => with_index n q.(network) q q' /\ sorted_to i n q'.(network) /\ 0 <= v.1 <= 255 /\ 0 <= v.2 <= i /\ index_to v.1 n q'.(netindex))); [lia| | |].
  - cbn [fst snd]. split; [done|]. split; [intros a c pa pc Ha; lia|]. split; [lia|]. split; [lia|]. intros j x Hj. lia.
  - intros i v q1 Hi (Hw & Hs & Hv1 & Hv2 & Hix). by apply wp_inx_round.
  - intros [previouscol startpos] q1 (Hw & Hs & Hv1 & Hv2 & Hix). cbn [fst snd Z.add] in *. destruct Hw as (Hsz1 & Hp1 & Hl1). pose proof (sz_netindex _ _ Hsz1) as Hil1.
    apply wp_bind, wp_put_at; [rewrite Hil1; lia|]. intros l Hl. rewrite Z.shiftr_div_pow2 in Hl by lia. change (2 ^ 1) with 2 in Hl.
    assert (0 <= (startpos + (n - 1)) / 2 < n) as Hmid by (split; [apply Z.div_pos; lia|apply Z.div_lt_upper_bound; lia]).
    eapply wp_mono; [apply (wp_fill_index n (network q) q (network q1) (previouscol + 1) 256 (n - 1))| |done]; try done; try lia.
    + split; [|done]. destruct Hsz1. split; cbn; try done. by rewrite (aset_length _ _ _ _ Hl).
    + cbn. by apply (index_put _ _ _ _ _ _ Hix Hl).
    + intros _ q2 (Hw2 & Hn2 & Hi2). by rewrite Hn2.
Qed.

(** ** Searching *)

Definition distance (b g r : Z) (p : pixel) : Z := Z.abs (p.(p_g) - g) + Z.abs (p.(p_b) - b) + Z.abs (p.(p_r) - r).

Section Search.
Context (b g r n : Z) (q : NeuQuant).
Context (Hb : 0 <= b < 256) (Hg : 0 <= g < 256) (Hr : 0 <= r < 256).
Context (Hsz : sized n q) (Hsort : sorted_to n n q.(network)) (Hbytes : forall p, p ∈ live n q.(network) -> byte_pixel p).

(** The best of the colours between [j] and [i] is found; those behind the ends
    that were left are not better. *)
Definition searched (i j : Z) (found : Z * Z) : Prop :=
  -1 <= j /\ i <= n /\ j < i /\
  (found = (1000, -1) \/ exists k p, 0 <= k < n /\ aget q.(network) k = Some p /\ found = (distance b g r p, p.(p_c))) /\
  forall k p, j < k < i -> 0 <= k < n -> aget q.(network) k = Some p -> found.1 <= distance b g r p.

Lemma look_spec k p dist found i j : 0 <= k < n -> aget q.(network) k = Some p -> Z.abs dist = Z.abs (p.(p_g) - g) ->
  searched i j found -> let found' := look b r p dist found in
  (found' = (1000, -1) \/ exists k p, 0 <= k < n /\ aget q.(network) k = Some p /\ found' = (distance b g r p, p.(p_c))) /\
  found'.1 <= found.1 /\ found'.1 <= distance b g r p.
Proof.
  intros Hk Hp Hd (_ & _ & _ & Hf & _). destruct found as [bestd best]. unfold look. rewrite Hd. cbn zeta. fold (distance b g r p). cbn [fst snd] in *.
  pose proof (Z.abs_nonneg (p_r p - r)) as Hpos.
  destruct (Z.ltb_spec (Z.abs (p_g p - g) + Z.abs (p_b p - b)) bestd) as [Hlt|Hge].
  - destruct (Z.ltb_spec (distance b g r p) bestd) as [Hlt'|Hge'].
    + cbn [fst]. split; [right; by exists k, p|]. lia.
    + cbn [fst]. split; [exact Hf|]. lia.
  - cbn [fst]. split; [exact Hf|]. unfold distance. lia.
Qed.

Lemma searched_up i j found : i < n -> searched i j found ->
  forall p, aget q.(network) i = Some p ->
  searched (if found.1 <=? p.(p_g) - g then n else i + 1) j (if found.1 <=? p.(p_g) - g then found else look b r p (p.(p_g) - g) found).
Proof.
  intros Hi Hs p Hp. pose proof Hs as (Hj & Hin & Hji & Hf & Hall). destruct (Z.leb_spec found.1 (p_g p - g)) as [Hstop|Hgo].
  - split; [done|]. split; [lia|]. split; [lia|]. split; [done|]. intros k pk Hk Hkn Hpk. destruct (decide (k < i)); [by apply (Hall k); [lia|..]|].
    assert (p_g p <= p_g pk) as Hle by (destruct (decide (k = i)) as [->|]; [simplify_eq; lia|apply (Hsort i k); (done || lia)]). unfold distance. lia.
  - destruct (look_spec i p (p_g p - g) found i j) as (Hf' & Hle & Hd); [lia|done|done|done|]. split; [done|]. split; [lia|]. split; [lia|]. split; [done|].
    intros k pk Hk Hkn Hpk. destruct (decide (k = i)) as [->|Hne]; [by simplify_eq|]. specialize (Hall k pk ltac:(lia) Hkn Hpk). lia.
Qed.

Lemma searched_down i j found : 0 <= j -> searched i j found ->
  forall p, aget q.(network) j = Some p ->
  searched i (if found.1 <=? g - p.(p_g) then -1 else j - 1) (if found.1 <=? g - p.(p_g) then found else look b r p (g - p.(p_g)) found).
Proof.
  intros Hj0 Hs p Hp. pose proof Hs as (Hj & Hin & Hji & Hf & Hall). destruct (Z.leb_spec found.1 (g - p_g p)) as [Hstop|Hgo].
  - split; [lia|]. split; [lia|]. split; [lia|]. split; [done|]. intros k pk Hk Hkn Hpk. destruct (decide (j < k)); [by apply (Hall k); [lia|..]|].
    assert (p_g pk <= p_g p) as Hle by (destruct (decide (k = j)) as [->|]; [simplify_eq; lia|apply (Hsort k j); (done || lia)]). unfold distance. lia.
  - destruct (look_spec j p (g - p_g p) found i j) as (Hf' & Hle & Hd); [lia|done|lia|done|]. split; [lia|]. split; [lia|]. split; [lia|]. split; [done|].
    intros k pk Hk Hkn Hpk. destruct (decide (k = j)) as [->|Hne]; [by simplify_eq|]. specialize (Hall k pk ltac:(lia) Hkn Hpk). lia.
Qed.

Lemma wp_search i0 E : 0 <= i0 < n ->
  wp (loop (S (Z.to_nat n)) (search_round b g r) (i0, i0 - 1, (1000, -1)))
    (fun v q' => q' = q /\ exists k p, 0 <= k < n /\ aget q.(network) k = Some p /\ v = (distance b g r p, p.(p_c)) /\
       forall k' p', 0 <= k' < n -> aget q.(network) k' = Some p' -> distance b g r p <= distance b g r p') E q.
Proof.
  intros Hi0. pose proof Hsz as [Hns Hn Hnl _ _ _ _].
  apply (wp_loop (fun m v q' => let '(i, j, found) := v in q' = q /\ m = Z.to_nat (Z.max (n - i) (j + 1)) /\ searched i j found)) with (n := Z.to_nat (Z.max (n - i0) i0)).
  - intros m [[i j] found] q' (-> & -> & Hs). unfold search_round. apply wp_bind, wp_gets. rewrite Hns. pose proof Hs as (Hj & Hin & Hji & _ & _).
    destruct ((i <? n) || (0 <=? j)) eqn:Hgo.
    + apply wp_bind. apply (wp_mono _ (fun v q1 => q1 = q /\ (i < n -> i < v.1) /\ (n <= i -> v.1 = i) /\ searched v.1 j v.2) _ E); [| |done].
      { destruct (Z.ltb_spec i n) as [Hlt|Hge]; [|apply wp_ret; split; [done|split; [cbn; lia|by split]]]. assert (0 <= i) as Hi by lia.
        apply wp_bind, wp_get_in; [rewrite Hnl; lia|]. intros p Hp. apply wp_ret. pose proof (searched_up i j found Hlt Hs p Hp) as Hup.
        destruct (found.1 <=? p_g p - g); (split; [done|]); (split; [cbn [fst]; lia|]); (split; [lia|exact Hup]). }
      intros [i' found'] q1 (-> & Hi1 & Hi2 & Hs'). cbn [fst snd] in *.
      apply wp_bind. apply (wp_mono _ (fun v q1 => q1 = q /\ (0 <= j -> v.1 < j) /\ (j < 0 -> v.1 = j) /\ searched i' v.1 v.2) _ E); [| |done].
      { destruct (Z.leb_spec 0 j) as [Hle|Hlt]; [|apply wp_ret; split; [done|split; [cbn; lia|by split]]].
        apply wp_bind, wp_get_in; [rewrite Hnl; lia|]. intros p Hp. apply wp_ret. pose proof (searched_down i' j found' Hle Hs' p Hp) as Hdown.
        destruct (found'.1 <=? g - p_g p); (split; [done|]); (split; [cbn [fst]; lia|]); (split; [lia|exact Hdown]). }
      intros [j' found''] q1 (-> & Hj1 & Hj2 & Hs''). cbn [fst snd] in *. apply wp_ret. eexists. split; [|split; [done|split; [reflexivity|exact Hs'']]].
      pose proof Hs'' as (? & ? & ? & _). apply orb_true_iff in Hgo as [?%Z.ltb_lt|?%Z.leb_le]; lia.
    + apply wp_ret. split; [done|]. apply orb_false_iff in Hgo as [?%Z.ltb_ge ?%Z.leb_gt]. destruct Hs as (_ & _ & _ & Hf & Hall).
      assert (forall k p, 0 <= k < n -> aget (network q) k = Some p -> found.1 <= distance b g r p) as Hmin by (intros k p Hk; apply Hall; lia).
      destruct Hf as [->|(k & p & Hk & Hp & ->)].
      * exfalso. destruct (aget_Some q.(network) 0) as [p Hp]; [rewrite Hnl; lia|]. pose proof (Hmin 0 p ltac:(lia) Hp) as Hd.
        destruct (Hbytes p) as (? & ? & ?); [apply (live_get n _ 0); [lia|done]|]. unfold distance in Hd. cbn [fst] in Hd. lia.
      * exists k, p. split_and!; try done; lia.
  - split; [done|]. split; [do 2 f_equal; lia|]. split; [lia|]. split; [lia|]. split; [lia|]. split; [by left|]. intros k p Hk. lia.
  - lia.
Qed.

(** The number of a closest colour, 254 for the colour 255. *)
Definition nearest (index : Z) : Prop :=
  exists p, p ∈ live n q.(network) /\ index = (if p.(p_c) =? transparentColorIndex then transparentColorIndex - 1 else p.(p_c)) /\
    forall p', p' ∈ live n q.(network) -> distance b g r p <= distance b g r p'.

Lemma wp_inxsearch dither xpos ypos E : dither <> 1 -> index_to 256 n q.(netindex) ->
  wp (inxsearch b g r dither xpos ypos) (fun index q' => q' = q /\ nearest index) E q.
Proof.
  intros Hd Hidx. pose proof Hsz as [Hns Hn Hnl _ _ Hil _]. unfold inxsearch. apply wp_bind, wp_gets. rewrite Hns.
  apply wp_bind, wp_get_in; [rewrite Hil; lia|]. intros i Hi. pose proof (Hidx g i Hg Hi) as Hin. rewrite (proj2 (Z.eqb_neq dither 1)) by done.
  apply wp_bind, wp_bind. eapply wp_mono; [by apply wp_search| |done]. intros v q1 (-> & k & p & Hk & Hp & -> & Hmin). apply wp_ret. cbn [snd]. apply wp_ret. split; [done|].
  exists p. split; [by apply (live_get n _ k)|]. split; [done|]. intros p' (k' & Hk' & Hp')%live_elem; [|rewrite Hnl; lia]. by apply (Hmin k').
Qed.
End Search.
