(* ===== verification/NeuQuantSpec.v ===== *)
(** * libframesequence: what the quantiser promises

    [closest] and [mapped_to] say what the pixels of a quantised picture are:
    255 for a transparent pixel, and otherwise the number of a colour of the
    palette that no other colour of it is closer to, or 254 where that number is
    255.  [wp_quantise]: [quantise] delivers such pixels. *)

From stdpp Require Import base numbers list list_numbers.
From Stdlib Require Import Lia ZArith.
From S2P Require Import Prelude NeuQuant NeuQuantNet NeuQuantIndex.

#[local] Open Scope Z_scope.
#[local] Open Scope c_scope.

(** Colour [c] of a palette. *)
Definition palette_has (palette : list Z) (c : Z) (p : pixel) : Prop :=
  aget palette (c * 3) = Some p.(p_r) /\ aget palette (c * 3 + 1) = Some p.(p_g) /\ aget palette (c * 3 + 2) = Some p.(p_b).

(** No colour of the first [n] of the palette is closer than [c]. *)
Definition closest (palette : list Z) (n b g r c : Z) : Prop :=
  0 <= c < n /\ exists p, palette_has palette c p /\ forall c' p', 0 <= c' < n -> palette_has palette c' p' -> distance b g r p <= distance b g r p'.

(** The index [v] of the pixel [w]. *)
Definition mapped_to (palette : list Z) (n w v : Z) : Prop :=
  if byte_at w 24 =? 0 then v = transparentColorIndex
  else exists c, closest palette n (byte_at w 0) (byte_at w 8) (byte_at w 16) c /\ v = (if c =? transparentColorIndex then transparentColorIndex - 1 else c).

Lemma byte_at_range w s : 0 <= byte_at w s < 256.
Proof. unfold byte_at. change 0xff with (Z.ones 8). rewrite Z.land_ones by lia. apply (Z.mod_pos_bound _ 256). lia. Qed.

(** ** The palette *)

Lemma wp_write_palette n q palette E : sized n q -> n * 3 <= Z.of_nat (length palette) ->
  (forall i p, 0 <= i < n -> aget q.(network) i = Some p -> byte_pixel p /\ p.(p_c) = i) ->
  wp (foldM write_colour (seqZ 0 n) palette) (fun palette' q' => q' = q /\ length palette' = length palette /\
    forall i p, 0 <= i < n -> aget q.(network) i = Some p -> palette_has palette' i p) E q.
Proof.
  intros Hsz Hlen Hnet. pose proof Hsz as [Hns Hn Hnl _ _ _ _].
  apply (wp_foldM_seqZ (fun k l q' => q' = q /\ length l = length palette /\ forall i p, 0 <= i < k -> aget q.(network) i = Some p -> palette_has l i p)); [lia| | |].
  - split; [done|]. split; [done|]. intros i p Hi. lia.
  - intros k l q' Hk (-> & Hl & Hhas). unfold write_colour. apply wp_bind, wp_get_in; [rewrite Hnl; lia|]. intros p Hp. destruct (Hnet k p ltac:(lia) Hp) as ((Hpb & Hpg & Hpr) & _).
    rewrite !u8_small by lia.
    destruct (aset_exists l (k * 3) p.(p_r)) as (l1 & Hl1 & E1); [lia|]. apply wp_bind. eapply wp_of_option; [exact Hl1|].
    destruct (aset_exists l1 (k * 3 + 1) p.(p_g)) as (l2 & Hl2 & E2); [lia|]. apply wp_bind. eapply wp_of_option; [exact Hl2|].
    destruct (aset_exists l2 (k * 3 + 2) p.(p_b)) as (l3 & Hl3 & E3); [lia|]. eapply wp_of_option; [exact Hl3|]. split; [done|]. split; [congruence|].
    intros i pi Hi Hpi. unfold palette_has. rewrite !(aget_aset _ _ _ _ _ Hl3), !(aget_aset _ _ _ _ _ Hl2), !(aget_aset _ _ _ _ _ Hl1).
    destruct (decide (i = k)) as [->|Hne].
    + assert (pi = p) as -> by congruence. repeat (first [rewrite decide_True by lia | rewrite decide_False by lia]). done.
    + rewrite !decide_False by lia. apply Hhas; [lia|done].
  - intros l q' HI. exact HI.
Qed.

(** ** The pixels *)

Lemma pixel_order_elem w h i j : (i, j) ∈ pixel_order w h <-> 0 <= i < h /\ 0 <= j < w.
Proof.
  unfold pixel_order. rewrite list_elem_of_bind. split.
  - intros (i' & (j' & [= <- <-] & Hj)%list_elem_of_fmap & Hi%elem_of_reverse%elem_of_seqZ).
    destruct (test _ 1); [rewrite elem_of_reverse in Hj|]; apply elem_of_seqZ in Hj; lia.
  - intros [Hi Hj]. exists i. split; [|apply elem_of_reverse, elem_of_seqZ; lia]. apply list_elem_of_fmap. exists j. split; [done|].
    destruct (test i 1); [apply elem_of_reverse|]; apply elem_of_seqZ; lia.
Qed.

Section Mapping.
Context (w h n dither : Z) (palette : list Z) (q : NeuQuant) (net : list pixel).
Context (Hsz : sized n q) (Hsort : sorted_to n n q.(network)) (Hidx : index_to 256 n q.(netindex)) (Hdither : dither <> 1).
Context (Hperm : live n q.(network) ≡ₚ live n net) (Hnetlen : length net = 256%nat).
Context (Hnet : forall i p, 0 <= i < n -> aget net i = Some p -> byte_pixel p /\ p.(p_c) = i).
Context (Hpal : forall i p, 0 <= i < n -> aget net i = Some p -> palette_has palette i p).

Lemma nearest_closest b g r index : nearest b g r n q index ->
  exists c, closest palette n b g r c /\ index = (if c =? transparentColorIndex then transparentColorIndex - 1 else c).
Proof using Hsz Hperm Hnetlen Hnet Hpal.
  pose proof (sz_range _ _ Hsz) as Hn. intros (p & Hp & -> & Hmin). rewrite Hperm in Hp. apply live_elem in Hp as (c & Hc & Hp); [|rewrite Hnetlen; lia].
  destruct (Hnet c p Hc Hp) as [_ ->]. exists c. split; [|done]. split; [done|]. exists p. split; [by apply Hpal|]. intros c' p' Hc' Hhas'.
  destruct (aget_Some net c') as [pn Hpn]; [rewrite Hnetlen; lia|]. destruct (Hpal c' pn Hc' Hpn) as (H1 & H2 & H3), Hhas' as (H1' & H2' & H3').
  assert (distance b g r p' = distance b g r pn) as -> by (unfold distance; congruence). apply Hmin. rewrite Hperm. by apply (live_get n _ c').
Qed.

(** The pixel at [k] has been mapped. *)
Definition done_at (bits : list Z) (k : Z) : Prop :=
  exists p v, aget q.(thepicture) k = Some p /\ aget bits k = Some v /\ mapped_to palette n p v.

Lemma wp_map_pixel bits i j E : Z.of_nat (length bits) = w * h -> w * h <= Z.of_nat (length q.(thepicture)) -> 0 <= i < h -> 0 <= j < w ->
  wp (map_pixel w dither bits (i, j)) (fun bits' q' => q' = q /\ length bits' = length bits /\ done_at bits' (i * w + j) /\
    forall k, done_at bits k -> done_at bits' k) E q.
Proof using Hsz Hsort Hidx Hdither Hperm Hnetlen Hnet Hpal.
  intros Hbits Hpic Hi Hj. pose proof (sz_range _ _ Hsz) as Hn. assert (0 <= i * w + j < w * h) as Hk by nia. unfold map_pixel. apply wp_bind, wp_get_in; [lia|]. intros p Hp.
  assert (forall v, mapped_to palette n p v -> forall l, aset bits (i * w + j) v = Some l -> length l = length bits /\ done_at l (i * w + j) /\ forall k, done_at bits k -> done_at l k) as Hput.
  { intros v Hv l Hl. split; [by apply (aset_length _ _ _ _ Hl)|]. split; [exists p, v; split; [done|]; split; [by apply (aget_aset_eq _ _ _ _ Hl)|done]|].
    intros k (pk & vk & Hpk & Hvk & Hm). destruct (decide (k = i * w + j)) as [->|Hne]; [exists p, v; split; [done|]; split; [by apply (aget_aset_eq _ _ _ _ Hl)|done]|].
    exists pk, vk. split; [exact Hpk|]. split; [|exact Hm]. rewrite (aget_aset_ne _ _ _ _ _ Hl); [exact Hvk|congruence]. }
  destruct (Z.eqb_spec (byte_at p 24) 0) as [Hz|Hnz].
  - destruct (aset_exists bits (i * w + j) transparentColorIndex) as (l & Hl & _); [lia|]. eapply wp_of_option; [exact Hl|]. split; [done|].
    apply (Hput transparentColorIndex); [|done]. unfold mapped_to. by rewrite (proj2 (Z.eqb_eq _ _)).
  - assert (forall pp, pp ∈ live n q.(network) -> byte_pixel pp) as Hbytes.
    { intros pp Hpp. rewrite Hperm in Hpp. apply live_elem in Hpp as (c & Hc & Hpc); [|rewrite Hnetlen; lia]. by apply (Hnet c). }
    apply wp_bind. eapply wp_mono.
    + exact (wp_inxsearch _ _ _ n q (byte_at_range p 0) (byte_at_range p 8) (byte_at_range p 16) Hsz Hsort Hbytes dither j i E Hdither Hidx).
    + intros index q' [-> Hnear]. destruct (nearest_closest _ _ _ _ Hnear) as (c & Hc & Hindex). assert (0 <= index < 256) as Hr.
      { rewrite Hindex. destruct Hc as [Hc _]. unfold transparentColorIndex. destruct (c =? 255); lia. }
      rewrite u8_small by done. destruct (aset_exists bits (i * w + j) index) as (l & Hl & _); [lia|]. eapply wp_of_option; [exact Hl|]. split; [done|].
      apply (Hput index); [|done]. unfold mapped_to. rewrite (proj2 (Z.eqb_neq _ _)) by done. by exists c.
    + done.
Qed.

Lemma wp_map_pixels bits E : 0 < w -> Z.of_nat (length bits) = w * h -> w * h <= Z.of_nat (length q.(thepicture)) ->
  wp (foldM (map_pixel w dither) (pixel_order w h) bits) (fun bits' q' => q' = q /\ Z.of_nat (length bits') = w * h /\ forall k, 0 <= k < w * h -> done_at bits' k) E q.
Proof using Hsz Hsort Hidx Hdither Hperm Hnetlen Hnet Hpal.
  intros Hw Hbits Hpic.
  apply (wp_foldM (fun todo l q' => q' = q /\ Z.of_nat (length l) = w * h /\ exists done_, pixel_order w h = done_ ++ todo /\ forall i j, (i, j) ∈ done_ -> done_at l (i * w + j))).
  - intros [i j] todo l q' (-> & Hl & done_ & Hord & Hdone). assert (0 <= i < h /\ 0 <= j < w) as [Hi Hj].
    { apply pixel_order_elem. rewrite Hord. apply elem_of_app. right. apply list_elem_of_here. }
    eapply wp_mono; [by apply wp_map_pixel| |done]. intros l' q' (-> & Hl' & Hat & Hkeep). split; [done|]. split; [lia|].
    exists (done_ ++ [(i, j)]). split; [by rewrite <- app_assoc|]. intros i' j' [Hin|Hin%list_elem_of_singleton]%elem_of_app; [by apply Hkeep, Hdone|]. by injection Hin as -> ->.
  - intros l q' (-> & Hl & done_ & Hord & Hdone). rewrite app_nil_r in Hord. split; [done|]. split; [done|]. intros k Hk.
    replace k with (k / w * w + k mod w) by (pose proof (Z.div_mod k w); lia). apply Hdone. rewrite <- Hord. apply pixel_order_elem.
    pose proof (Z.mod_pos_bound k w Hw). split; [|lia]. split; [apply Z.div_pos; lia|apply Z.div_lt_upper_bound; lia].
  - split; [done|]. split; [done|]. exists []. split; [done|]. by intros i j ?%not_elem_of_nil.
Qed.
End Mapping.

(** ** The whole *)

(** The arrays of an object have their sizes. *)
Record object_ok (q : NeuQuant) : Prop := {
  ob_network : length q.(network) = 256%nat;
  ob_freq : length q.(freq) = 256%nat;
  ob_bias : length q.(bias) = 256%nat;
  ob_netindex : length q.(netindex) = 256%nat;
  ob_radpower : length q.(radpower) = 32%nat
}.

Lemma sized_object n q : object_ok q -> 2 <= n <= 256 -> sized n (set_netsize n q).
Proof. intros [] Hn. by split. Qed.

Lemma object_sized n q : sized n q -> object_ok q.
Proof. intros []. by split. Qed.

(** One of so many pixels is a sample. *)
Definition sample_of (quality : Z) : Z :=
  let quality := Z.quot quality 3 in 31 - (if 30 <? quality then 30 else if quality <? 1 then 1 else quality).

Lemma sample_range quality : 1 <= sample_of quality <= 30.
Proof. unfold sample_of. cbv zeta. destruct (Z.ltb_spec 30 (Z.quot quality 3)); [lia|]. destruct (Z.ltb_spec (Z.quot quality 3) 1); lia. Qed.

(** A picture that can be quantised: its samples are none, or enough for a
    hundred cycles. *)
Record quantisable (w h : Z) (pic : list Z) (n quality : Z) : Prop := {
  qz_size : 0 < w /\ 0 < h;
  qz_length : w * h <= Z.of_nat (length pic);
  qz_bytes : w * h * PIXEL_SIZE < 2147483648;
  qz_colors : 2 <= n <= 256;
  qz_samples : w * h / sample_of quality = 0 \/ 100 <= w * h / sample_of quality
}.

(** What [quantise] delivers. *)
Record quantised (w h : Z) (pic : list Z) (n : Z) (palette bits : list Z) : Prop := {
  qd_palette : forall i, 0 <= i < n -> exists p, byte_pixel p /\ palette_has palette i p;
  qd_length : Z.of_nat (length bits) = w * h;
  qd_pixels : forall k, 0 <= k < w * h -> exists p v, aget pic k = Some p /\ aget bits k = Some v /\ mapped_to palette n p v
}.

Lemma wp_quantise w h pic palette bits n quality dither imgw imgh q (Q : list Z * list Z * Z * Z -> NeuQuant -> Prop) E :
  quantisable w h pic n quality -> object_ok q -> n * 3 <= Z.of_nat (length palette) -> Z.of_nat (length bits) = w * h -> dither <> 1 ->
  (forall palette' bits' q', quantised w h pic n palette' bits' -> length palette' = length palette -> object_ok q' ->
     Q (palette', bits', if dither =? 2 then w else imgw, if dither =? 2 then h else imgh) q') ->
  wp (neuquant_quantise w h pic palette bits n quality dither imgw imgh) Q E q.
Proof.
  intros [[Hw Hh] Hlen Hbytes Hn Hsamples] Hob Hpal Hbits Hd HQ. unfold neuquant_quantise. fold (sample_of quality). pose proof (sample_range quality) as Hsr.
  rewrite (proj2 (Z.ltb_ge n 2)), (proj2 (Z.ltb_ge 256 n)) by lia. cbv zeta. apply wp_bind, wp_modify. apply wp_bind, wp_int_of; [unfold PIXEL_SIZE in *; nia|].
  replace (w * h * PIXEL_SIZE) with (PIXEL_SIZE * (w * h)) by ring.
  apply wp_bind. eapply wp_mono; [apply (wp_initnet pic (w * h) (sample_of quality) n _ E); [by apply sized_object|nia|done]| |done]. intros _ q1 (Htr1 & Hpic1 & Hp1).
  apply wp_bind. eapply wp_mono; [apply (wp_learn (w * h) (sample_of quality) n q1 E Hpic1 Hsamples Htr1)| |done]. intros _ q2 (Htr2 & Hs2).
  apply wp_bind. eapply wp_mono; [apply (wp_unbiasnet n q2 E Htr2)| |done]. intros _ q3 (Hsz3 & Hs3 & Hnet3). pose proof (sz_network _ _ Hsz3) as Hnl3.
  apply wp_bind. eapply wp_mono; [apply (wp_write_palette n q3 palette E Hsz3 Hpal Hnet3)| |done]. intros palette' q4 (-> & Hpl & Hhas).
  assert (thepicture q3 = pic) as Hp3 by (unfold settings in *; congruence).
  apply wp_bind. eapply wp_mono; [apply (wp_inxbuild n q3 E Hsz3)| |done].
  { intros p Hp. apply live_elem in Hp as (c & Hc & Hpc); [|rewrite Hnl3; lia]. by apply (Hnet3 c). }
  intros _ q4 ((Hsz4 & Hp4 & Hperm) & Hsort & Hidx).
  replace (if dither =? 2 then (w, h) else (imgw, imgh)) with (if dither =? 2 then w else imgw, if dither =? 2 then h else imgh) by (by destruct (dither =? 2)).
  apply wp_bind. eapply wp_mono; [apply (wp_map_pixels w h n dither palette' q4 (network q3) Hsz4 Hsort Hidx Hd Hperm Hnl3 Hnet3 Hhas bits E Hw Hbits); by rewrite Hp4, Hp3| |done].
  intros bits' q5 (-> & Hbl & Hdone). apply wp_ret, HQ; [|done|by apply (object_sized n)]. split; [|done|].
  - intros i Hi. destruct (aget_Some (network q3) i) as [p Hp]; [rewrite Hnl3; lia|]. exists p. split; [by apply (Hnet3 i)|by apply Hhas].
  - intros k Hk. destruct (Hdone k Hk) as (p & v & H1 & H2 & H3). rewrite Hp4, Hp3 in H1. exists p, v. split; [exact H1|split; [exact H2|exact H3]].
Qed.

(** C28. The quantiser, asked for 2 to 256 colours of a picture that is not
    empty, of less than 2^31 bytes, in which it looks at no pixel or at 100 or
    more ([quantisable]; with 1 to 99 it divides by zero, see
    [small_picture_divides]), and not for dithering, returns whatever its
    object was used for before: no array is left and no [int] overflows while
    the network learns. Every colour of the palette consists of bytes, and
    every pixel has 255 if it is transparent and otherwise the number of a
    colour that no other colour of the palette is closer to (254 where that is
    255), although [inxsearch] looks at a part of the colours only. *)
Theorem quantise_closest w h pic palette bits n quality imgw imgh q :
  quantisable w h pic n quality -> object_ok q -> n * 3 <= Z.of_nat (length palette) -> Z.of_nat (length bits) = w * h ->
  exists palette' bits' q', neuquant_quantise w h pic palette bits n quality 0 imgw imgh q = (Returns (palette', bits', imgw, imgh), q') /\
    quantised w h pic n palette' bits' /\ length palette' = length palette /\ object_ok q'.
Proof.
  intros Hq Hob Hpal Hbits.
  destruct (wp_returns _ (fun r q' => exists palette' bits', r = (palette', bits', imgw, imgh) /\ quantised w h pic n palette' bits' /\ length palette' = length palette /\ object_ok q') q
    (wp_quantise w h pic palette bits n quality 0 imgw imgh q _ (fun _ => False) Hq Hob Hpal Hbits ltac:(done)
      (fun palette' bits' q' Hqd Hl Ho => ex_intro _ palette' (ex_intro _ bits' (conj eq_refl (conj Hqd (conj Hl Ho)))))))
    as (r & q' & Hrun & palette' & bits' & -> & Hspec). exists palette', bits', q'. split; [exact Hrun|exact Hspec].
Qed.

(** An object of any content. *)
Definition blank_object : NeuQuant :=
  mkNeuQuant (replicate 256 (mkPixel 7 7 7 7)) 0 0 [] 0 0 (replicate 256 0) (replicate 256 0) (replicate 256 0) (replicate 32 0).

Lemma quantise_closest_witness :
  let pic := (fun i => 0xff000000 + i * 70000) <$> seqZ 0 100 in
  exists palette' bits' q', neuquant_quantise 10 10 pic (replicate 768 0) (replicate 100 0) 8 100 0 10 10 blank_object = (Returns (palette', bits', 10, 10), q') /\
    quantised 10 10 pic 8 palette' bits' /\ length palette' = 768%nat /\ object_ok q'.
Proof.
  apply (quantise_closest 10 10 ((fun i => 0xff000000 + i * 70000) <$> seqZ 0 100) (replicate 768 0) (replicate 100 0) 8 100 10 10 blank_object).
  - split; try lia.
    + vm_compute. discriminate.
    + reflexivity.
    + right. vm_compute. discriminate.
  - split; reflexivity.
  - vm_compute. discriminate.
  - reflexivity.
Defined.

(** A picture of which less than a hundred pixels are samples, but at least
    one: [learn] divides by the number of samples of a cycle, which is zero.
    This holds for every picture of up to 99 pixels at the best quality. *)
Theorem small_picture_divides w h pic palette bits n quality dither imgw imgh q :
  0 < w -> 0 < h -> w * h <= Z.of_nat (length pic) -> w * h * PIXEL_SIZE < 2147483648 -> 2 <= n <= 256 -> object_ok q ->
  0 < w * h / sample_of quality < 100 -> fst (neuquant_quantise w h pic palette bits n quality dither imgw imgh q) = Stuck.
Proof.
  intros Hw Hh Hlen Hbytes Hn Hob Hsamples. unfold neuquant_quantise. fold (sample_of quality). pose proof (sample_range quality) as Hsr.
  rewrite (proj2 (Z.ltb_ge n 2)), (proj2 (Z.ltb_ge 256 n)) by lia. cbv zeta. apply stuck_modify.
  apply (stuck_bind_later _ _ (fun len s => len = PIXEL_SIZE * (w * h) /\ s = set_netsize n q)).
  { apply wp_int_of; [unfold PIXEL_SIZE in *; nia|]. split; [ring|done]. }
  intros ? ? [-> ->]. eapply stuck_bind_later; [apply (wp_initnet pic (w * h) (sample_of quality) n); [by apply sized_object|nia|done]|]. intros _ q1 (Htr1 & Hpic1 & _).
  apply stuck_bind. by apply (learn_divides_by_zero (w * h) (sample_of quality) n).
Qed.

Lemma small_picture_divides_witness :
  fst (neuquant_quantise 10 9 (replicate 90 0) (replicate 768 0) (replicate 90 0) 256 100 0 10 9
    blank_object) = Stuck.
Proof.
  apply (small_picture_divides 10 9 (replicate 90 0) (replicate 768 0) (replicate 90 0) 256 100 0 10 9); try lia.
  - vm_compute. discriminate.
  - reflexivity.
  - split; reflexivity.
  - change (10 * 9 / sample_of 100) with 90. lia.
Defined.
