(* ===== verification/Gifflen.v ===== *)
(** * libframesequence: the GIF encoder of the application (Gifflen.cpp)

    [Gifflen] writes an animated GIF to a file: [init] the header, [addFrame] a
    frame of 32-bit pixels, [close] the end.  The LZW compressor
    ([GIF_LZW_compressor]) has its own hash table ([find_hash]), bit buffer
    ([write_code]) and sub-blocks ([append_code]).

    The quantiser object ([neuQuant]) is that of NeuQuant; the memory of a new one
    and of the destination bitmap has any content.  The file is the list of the
    bytes written; writes succeed.  The buffer [s] is always filled before it is written, so its bytes
    are written directly.  [rasters] is a static array of the compressor: it
    keeps its contents between calls. *)

From stdpp Require Import base numbers list list_numbers.
From Stdlib Require Import Lia ZArith.
From S2P Require Import Prelude NeuQuant.

#[local] Open Scope Z_scope.
#[local] Open Scope c_scope.

Definition hash := 11003.

Record Gifflen : Type := mkGifflen {
  stat_bits : Z;
  code_in_progress : Z;
  LZWpos : Z;
  LZW : list Z; (** 256 bytes *)
  hashtree : list (Z * Z * Z); (** [hash] of them: a code, its prefix and its pixel *)
  rasters : list Z; (** 768 *)
  imgw : Z;
  imgh : Z;
  optCol : Z;
  optQuality : Z;
  outDIB : list Z * list Z; (** palette (768) and bits *)
  neuQuant : NeuQuant;
  pGif : bool; (** the file is open *)
  file : list Z
}.

Definition set_bits (st c : Z) (g : Gifflen) : Gifflen :=
  mkGifflen st c g.(LZWpos) g.(LZW) g.(hashtree) g.(rasters) g.(imgw) g.(imgh) g.(optCol) g.(optQuality) g.(outDIB) g.(neuQuant) g.(pGif) g.(file).
Definition set_LZW (pos : Z) (l : list Z) (g : Gifflen) : Gifflen :=
  mkGifflen g.(stat_bits) g.(code_in_progress) pos l g.(hashtree) g.(rasters) g.(imgw) g.(imgh) g.(optCol) g.(optQuality) g.(outDIB) g.(neuQuant) g.(pGif) g.(file).
Definition set_hashtree (t : list (Z * Z * Z)) (g : Gifflen) : Gifflen :=
  mkGifflen g.(stat_bits) g.(code_in_progress) g.(LZWpos) g.(LZW) t g.(rasters) g.(imgw) g.(imgh) g.(optCol) g.(optQuality) g.(outDIB) g.(neuQuant) g.(pGif) g.(file).
Definition set_rasters (r : list Z) (g : Gifflen) : Gifflen :=
  mkGifflen g.(stat_bits) g.(code_in_progress) g.(LZWpos) g.(LZW) g.(hashtree) r g.(imgw) g.(imgh) g.(optCol) g.(optQuality) g.(outDIB) g.(neuQuant) g.(pGif) g.(file).
Definition set_options (w h c q : Z) (g : Gifflen) : Gifflen :=
  mkGifflen g.(stat_bits) g.(code_in_progress) g.(LZWpos) g.(LZW) g.(hashtree) g.(rasters) w h c q g.(outDIB) g.(neuQuant) g.(pGif) g.(file).
Definition set_outDIB (d : list Z * list Z) (g : Gifflen) : Gifflen :=
  mkGifflen g.(stat_bits) g.(code_in_progress) g.(LZWpos) g.(LZW) g.(hashtree) g.(rasters) g.(imgw) g.(imgh) g.(optCol) g.(optQuality) d g.(neuQuant) g.(pGif) g.(file).
Definition set_neuQuant (q : NeuQuant) (g : Gifflen) : Gifflen :=
  mkGifflen g.(stat_bits) g.(code_in_progress) g.(LZWpos) g.(LZW) g.(hashtree) g.(rasters) g.(imgw) g.(imgh) g.(optCol) g.(optQuality) g.(outDIB) q g.(pGif) g.(file).
Definition set_file (o : bool) (f : list Z) (g : Gifflen) : Gifflen :=
  mkGifflen g.(stat_bits) g.(code_in_progress) g.(LZWpos) g.(LZW) g.(hashtree) g.(rasters) g.(imgw) g.(imgh) g.(optCol) g.(optQuality) g.(outDIB) g.(neuQuant) o f.

Abbreviation GflM := (M Gifflen).

(** [fwrite] and [fputc] on [pGif]. *)
Definition fwrite (bs : list Z) : GflM unit :=
  let! o := gets pGif in
  if o : bool then modify (fun g => set_file true (g.(file) ++ bs) g) else stuck.

(** A call of the quantiser. *)
Definition on_quantiser {A} (m : NqM A) : GflM A := fun g => let '(r, q) := m g.(neuQuant) in (r, set_neuQuant q g).

(** ** Codes *)

Definition max_bits (num : Z) : Z := default 0 (find (fun b => num <=? Z.shiftl 1 b) (seqZ 0 14)).

Definition append_code (code : Z) : GflM unit :=
  let! g := gets id in
  let! l := of_option (aset g.(LZW) g.(LZWpos) (u8 code)) in
  if g.(LZWpos) + 1 =? 256 then
    let! l := of_option (aset l 0 255) in
    modify (set_LZW 1 l) ;;!
    fwrite l
  else modify (set_LZW (g.(LZWpos) + 1) l).

(** [while (stat_bits > 7)] *)
Definition flush_round (_ : unit) : GflM (unit + unit) :=
  let! n := gets stat_bits in
  if 7 <? n then
    let! c := gets code_in_progress in
    append_code (Z.land c 255) ;;!
    modify (fun g => set_bits (n - 8) (Z.shiftr c 8) g) ;;!
    ret (inl tt)
  else ret (inr tt).

Definition write_code (no_bits code : Z) : GflM unit :=
  modify (fun g => set_bits (g.(stat_bits) + no_bits) (u32 (g.(code_in_progress) + Z.shiftl code g.(stat_bits))) g) ;;!
  loop 5 flush_round tt.

(** ** The hash table *)

Definition empty_tree : list (Z * Z * Z) := replicate (Z.to_nat hash) (-1, -1, -1).

(** The step from a start [i]. *)
Definition offset_of (i : Z) : Z := if i =? 0 then 1 else hash - i.

(** The slot of the string, or the free one where it belongs. *)
Definition find_round (o pre suf i : Z) : GflM (Z + Z) :=
  let! t := gets hashtree in
  let! ' (c, p, s) := of_option (aget t i) in
  if c =? -1 then ret (inr i)
  else if (p =? pre) && (s =? suf) then ret (inr i)
  else
    let i := i - o in
    ret (inl (if i <? 0 then i + hash else i)).

Definition find_hash (pre suf : Z) : GflM Z :=
  let i := Z.rem (Z.lxor (pre * 256) suf) hash in
  loop (Z.to_nat hash) (find_round (offset_of i) pre suf) i.

(** ** The compressor *)

(** [for (int e = a; e <= n; e += step)] *)
Definition counted_rows (a step n : Z) : list Z := if n <? a then [] else (fun k => a + step * k) <$> seqZ 0 ((n - a) / step + 1).

(** The entries of [rasters]. *)
Definition raster_rows (interlace : bool) (ydim : Z) : list Z :=
  if interlace then counted_rows 1 8 ydim ++ counted_rows 5 8 ydim ++ counted_rows 3 4 ydim ++ counted_rows 2 2 ydim
  else (fun e => e - 1) <$> counted_rows 1 1 ydim.

Definition add_raster (rasterlen e : Z) : GflM Z :=
  let! r := gets rasters in
  let! r := of_option (aset r rasterlen e) in
  modify (set_rasters r) ;;! ret (rasterlen + 1).

(** The locals of the loop. *)
Record lzw : Type := mkLzw { l_x : Z; l_y : Z; l_done : bool; l_pre : Z; l_code : Z; l_bits : Z; l_max : Z; l_clear : Z; l_EOI : Z }.

(** [code], [bits], [max], [clear] and [EOI] at the start. *)
Definition first_codes (bits_color : Z) : Z * Z * Z * Z * Z :=
  let clear := Z.shiftl 1 (bits_color + 1) in
  let bits := bits_color + 2 in
  let max := Z.shiftl 1 bits in
  if clear + 2 =? max then (6, bits + 1, max * 2, 4, 5) else (clear + 2, bits, max, clear, clear + 1).

(** A string that is not in the table: its prefix is sent and it gets the next
    code; codes are widened, or the table is cleared when it is full. *)
Definition send_string (bits_color i suf : Z) (v : lzw) : GflM lzw :=
  let 'mkLzw x y done pre code bits max clear EOI := v in
  write_code bits pre ;;!
  let! t := gets hashtree in
  let! t := of_option (aset t i (code, pre, suf)) in
  modify (set_hashtree t) ;;!
  let code := code + 1 in
  if code =? max + 1 then
    let max := max * 2 in
    if bits =? 12 then
      write_code bits clear ;;!
      modify (set_hashtree empty_tree) ;;!
      let code := EOI + 1 in
      let bits := bits_color + 2 in
      let max := Z.shiftl 1 bits in
      if bits =? 2 then ret (mkLzw x y done suf 6 3 (max * 2) 4 5) else ret (mkLzw x y done suf code bits max clear EOI)
    else ret (mkLzw x y done suf code (bits + 1) max clear EOI)
  else ret (mkLzw x y done suf code bits max clear EOI).

(** The end of the image: the last code, the end code, the rest of the bits and
    of the bytes. *)
Definition finish (v : lzw) : GflM Z :=
  write_code v.(l_bits) v.(l_pre) ;;!
  write_code v.(l_bits) v.(l_EOI) ;;!
  let! n := gets stat_bits in
  (if negb (n =? 0) then write_code v.(l_bits) 0 else ret tt) ;;!
  let! g := gets id in
  let! l := of_option (aset g.(LZW) 0 (u8 (g.(LZWpos) - 1))) in
  modify (set_LZW g.(LZWpos) l) ;;!
  fwrite (take (Z.to_nat g.(LZWpos)) l) ;;!
  fwrite [0] ;;!
  ret 1.

(** A round of the inner loop, and of the outer one when it breaks. *)
Definition lzw_round (bits : list Z) (xdim ydim bits_color : Z) (v : lzw) : GflM (lzw + Z) :=
  if v.(l_done) then let! r := finish v in ret (inr r)
  else
    let! rs := gets rasters in
    let! r := of_option (aget rs v.(l_y)) in
    let! suf := of_option (aget bits (r * xdim + v.(l_x))) in
    let x := v.(l_x) + 1 in
    let '(x, y, done) := if xdim <=? x then (0, v.(l_y) + 1, ydim <=? v.(l_y) + 1) else (x, v.(l_y), false) in
    let! i := find_hash v.(l_pre) suf in
    let! t := gets hashtree in
    let! ' (c, _, _) := of_option (aget t i) in
    let 'mkLzw _ _ _ pre code w max clear EOI := v in
    if c =? -1 then let! v := send_string bits_color i suf (mkLzw x y done pre code w max clear EOI) in ret (inl v)
    else ret (inl (mkLzw x y done c code w max clear EOI)).

(** [bits]: the pixels of the image. *)
Definition GIF_LZW_compressor (xdim ydim : Z) (bits : list Z) (numColors : Z) (interlace : bool) : GflM Z :=
  modify (set_bits 0 0) ;;!
  modify (fun g => set_LZW 1 g.(LZW) g) ;;!
  modify (set_hashtree empty_tree) ;;!
  let! o := gets pGif in
  if negb o then ret 0
  else
    let bits_color := max_bits numColors - 1 in
    let '(code, w, max, clear, EOI) := first_codes bits_color in
    fwrite [u8 (w - 1)] ;;!
    write_code w clear ;;!
    foldM add_raster (raster_rows interlace ydim) 0 ;;!
    let! rs := gets rasters in
    let! r := of_option (aget rs 0) in
    let! pre := of_option (aget bits (r * xdim)) in
    let '(x, y) := if xdim <=? 1 then (0, 1) else (1, 0) in
    loop (Z.to_nat (xdim * ydim + 2)) (lzw_round bits xdim ydim bits_color) (mkLzw x y false pre code w max clear EOI).

(** ** The file *)

(** [opens]: [fopen] succeeds. *)
Definition init (opens : bool) (w h numColors quality loopNum : Z) : GflM Z :=
  if negb opens then modify (fun g => set_file false g.(file) g) ;;! ret (-1)
  else
    modify (fun g => set_options w h numColors quality (set_file true [] g)) ;;!
    modify (set_outDIB (replicate 768 0, replicate (Z.to_nat (w * h)) 0)) ;;!
    fwrite [71; 73; 70; 56; 57; 97] ;;!
    fwrite [u8 w; u8 (Z.quot w 256); u8 h; u8 (Z.quot h 256); u8 (0x50 + max_bits numColors - 1); 0; 0; 0x21; 0xFF; 0x0B] ;;!
    fwrite [78; 69; 84; 83; 67; 65; 80; 69; 50; 46; 48] ;;!
    fwrite [3; 1; u8 loopNum; u8 (Z.quot loopNum 256); 0] ;;!
    ret 0.

(** A frame of the pixels [data]. *)
Definition addFrame (data : list Z) (delay : Z) : GflM Z :=
  let! g := gets id in
  let total := i32 (g.(imgw) * g.(imgh)) in
  if Z.of_nat (length data) <? total then ret (-1)
  else
    fwrite [0x21; 0xF9; 4; 9; u8 delay; u8 (Z.quot delay 256); transparentColorIndex; 0;
            0x2C; 0; 0; 0; 0; u8 g.(imgw); u8 (Z.quot g.(imgw) 256); u8 g.(imgh); u8 (Z.quot g.(imgh) 256);
            u8 (0x80 + max_bits g.(optCol) - 1)] ;;!
    let! ' (palette, bits, w, h) := on_quantiser (neuquant_quantise g.(imgw) g.(imgh) (take (Z.to_nat total) data)
      g.(outDIB).1 g.(outDIB).2 g.(optCol) g.(optQuality) 0 g.(imgw) g.(imgh)) in
    modify (set_outDIB (palette, bits)) ;;!
    modify (set_options w h g.(optCol) g.(optQuality)) ;;!
    if (0 <=? g.(optCol)) && (g.(optCol) * 3 <=? Z.of_nat (length palette)) then
      fwrite (take (Z.to_nat (g.(optCol) * 3)) palette) ;;!
      GIF_LZW_compressor g.(imgw) g.(imgh) bits g.(optCol) false ;;!
      ret 0
    else stuck.

Definition close : GflM unit :=
  let! o := gets pGif in
  if o : bool then fwrite [0x3B] ;;! modify (fun g => set_file false g.(file) g) else ret tt.
