(* ===== verification/GifflenCode.v ===== *)
(** * libframesequence: the codes Gifflen writes

    The bit buffer and the sub-blocks of the encoder hold the codes that were
    written ([packed]), and its hash table is the table of strings of Lzw.v
    ([tree]): [find_hash] ends within [hash] probes, at the slot of the string
    or at the free one where the string belongs. *)

From stdpp Require Import base numbers list list_numbers.
From Stdlib Require Import Lia ZArith.
From S2P Require Import Prelude GifTypes GifBlocks Lzw Gifflen.

#[local] Open Scope Z_scope.
#[local] Open Scope c_scope.

(** ** Bytes *)

(** What the compressor leaves alone. *)
Definition options (g : Gifflen) := (g.(imgw), g.(imgh), g.(optCol), g.(optQuality), g.(outDIB), g.(neuQuant)).

(** Everything but the file, the bit buffer and the bytes of the block. *)
Definition only_out (g g' : Gifflen) : Prop :=
  exists st c pos l f, g' = set_file true f (set_LZW pos l (set_bits st c g)).

#[export] Instance only_out_trans : Transitive only_out.
Proof. intros x y z (st & c & pos & l & f & ->) (st' & c' & pos' & l' & f' & ->). by exists st', c', pos', l', f'. Qed.

Lemma only_out_LZW g pos l : g.(pGif) = true -> only_out g (set_LZW pos l g).
Proof. intros Ho. exists g.(stat_bits), g.(code_in_progress), pos, l, g.(file). destruct g. cbn in Ho. by subst. Qed.

Lemma only_out_bits g st c : g.(pGif) = true -> only_out g (set_bits st c g).
Proof. intros Ho. exists st, c, g.(LZWpos), g.(LZW), g.(file). destruct g. cbn in Ho. by subst. Qed.

Lemma only_out_file g f : g.(pGif) = true -> only_out g (set_file true f g).
Proof. intros Ho. exists g.(stat_bits), g.(code_in_progress), g.(LZWpos), g.(LZW), f. by destruct g. Qed.

Lemma only_out_fields g g' : only_out g g' ->
  g'.(hashtree) = g.(hashtree) /\ g'.(rasters) = g.(rasters) /\
  options g' = options g.
Proof. by intros (st & c & pos & l & f & ->). Qed.

Definition full_chunk (c : list Z) : Prop := length c = 255%nat.

(** The bytes [payload] have been written behind [base]: in blocks, and the rest
    in the buffer. *)
Definition stored (base payload : list Z) (g : Gifflen) : Prop :=
  exists chunks q junk0 junk, Forall full_chunk chunks /\ payload = concat chunks ++ q /\ (length q < 255)%nat /\
    g.(file) = base ++ blocks chunks /\ g.(LZW) = junk0 :: q ++ junk /\ length g.(LZW) = 256%nat /\
    g.(LZWpos) = 1 + Z.of_nat (length q) /\ g.(pGif) = true /\ Forall (fun b => 0 <= b < 256) payload.

Lemma stored_bits base payload st c g : stored base payload g -> stored base payload (set_bits st c g).
Proof. done. Qed.

Lemma wp_fwrite bs (Q : unit -> Gifflen -> Prop) E g : g.(pGif) = true -> Q tt (set_file true (g.(file) ++ bs) g) -> wp (fwrite bs) Q E g.
Proof. intros Ho HQ. unfold fwrite. do 2 wp_step. rewrite Ho. by wp_step. Qed.

Lemma wp_append_code base payload c (Q : unit -> Gifflen -> Prop) E g : stored base payload g ->
  (forall g', stored base (payload ++ [u8 c]) g' -> only_out g g' -> g'.(stat_bits) = g.(stat_bits) -> g'.(code_in_progress) = g.(code_in_progress) -> Q tt g') ->
  wp (append_code c) Q E g.
Proof.
  intros (chunks & q & j0 & junk & Hch & -> & Hq & Hf & HL & Hlen & Hpos & Ho & Hb) HQ. unfold append_code. do 2 wp_step.
  change (id g) with g. rewrite HL, Hpos. rewrite HL in Hlen. cbn [length] in Hlen. rewrite length_app in Hlen.
  destruct junk as [|j junk]; [cbn [length] in Hlen; lia|].
  assert (Forall (fun b => 0 <= b < 256) ((concat chunks ++ q) ++ [u8 c])) as Hb'.
  { apply Forall_app. split; [done|]. constructor; [|done]. apply Z.mod_pos_bound. lia. }
  wp_step. eapply wp_of_option; [apply (aset_behind (j0 :: q) junk j (u8 c)); cbn [length]; lia|].
  destruct (Z.eqb_spec (1 + Z.of_nat (length q) + 1) 256) as [H255|H255].
  - assert (junk = []) as -> by (destruct junk; [done|cbn [length] in Hlen; lia]).
    wp_step. apply (wp_of_option _ (255 :: q ++ [u8 c])); [reflexivity|]. do 2 wp_step. apply wp_fwrite; [done|]. apply HQ; [|etrans; [by apply only_out_LZW|by apply only_out_file]|done|done].
    exists (chunks ++ [q ++ [u8 c]]), [], 255, (q ++ [u8 c]). split; [apply Forall_app; split; [done|]; constructor; [|done]; unfold full_chunk; rewrite length_app; cbn [length]; lia|].
    split; [rewrite concat_snoc, app_nil_r; by rewrite app_assoc|]. split; [cbn; lia|]. split; [|split; [done|]; split; [cbn; rewrite length_app; cbn [length]; lia|done]].
    cbn [file set_file set_LZW]. rewrite Hf, blocks_snoc, <- app_assoc. unfold block. rewrite length_app. cbn [length app insert list_insert]. do 3 f_equal. lia.
  - wp_step. apply HQ; [|by apply only_out_LZW|done|done].
    exists chunks, (q ++ [u8 c]), j0, junk. split; [done|]. split; [by rewrite app_assoc|]. rewrite length_app. cbn [length].
    split; [cbn [length] in Hlen; lia|]. split; [done|]. split; [cbn; by rewrite <- app_assoc|].
    split; [cbn [LZW set_LZW app length]; rewrite length_app; cbn [length] in *; lia|]. split; [cbn; lia|]. done.
Qed.

(** ** Codes *)

(** The codes [cs] have been written behind [base]. *)
Definition packed (base : list Z) (cs : list (Z * Z)) (g : Gifflen) : Prop :=
  exists payload, stored base payload g /\ Forall code_fits cs /\ 0 <= g.(stat_bits) /\
    0 <= g.(code_in_progress) < 2 ^ g.(stat_bits) /\
    bytes_val payload + 2 ^ (8 * Z.of_nat (length payload)) * g.(code_in_progress) = codes_val cs /\
    codes_bits cs = 8 * Z.of_nat (length payload) + g.(stat_bits).

Lemma wp_flush_round base cs g (Q : unit + unit -> Gifflen -> Prop) E : packed base cs g ->
  (g.(stat_bits) <= 7 -> Q (inr tt) g) ->
  (forall g', 7 < g.(stat_bits) -> packed base cs g' -> only_out g g' -> g'.(stat_bits) = g.(stat_bits) - 8 -> Q (inl tt) g') ->
  wp (flush_round tt) Q E g.
Proof.
  intros (payload & Hst & Hfit & Hs & Hc & Hval & Hbits) Hend Hnext. unfold flush_round. do 2 wp_step.
  destruct (Z.ltb_spec 7 (stat_bits g)) as [Hlt|Hge]; [|wp_step; apply Hend; lia].
  do 2 wp_step. wp_step. change 255 with (Z.ones 8). rewrite Z.land_ones, Z.shiftr_div_pow2 by lia. change (2 ^ 8) with 256.
  apply (wp_append_code base payload); [done|]. intros g1 Hst1 Ho1 Hs1 Hc1. do 3 wp_step.
  pose proof (Z.mod_pos_bound (code_in_progress g) 256 ltac:(lia)) as Hm. rewrite u8_small in Hst1 by lia.
  apply Hnext; [done| | |done].
  - exists (payload ++ [code_in_progress g mod 256]). split; [by apply stored_bits|]. split; [done|]. cbn [stat_bits code_in_progress set_bits].
    split; [lia|]. assert (2 ^ stat_bits g = 256 * 2 ^ (stat_bits g - 8)) as Hp by (change 256 with (2 ^ 8); rewrite <- Z.pow_add_r by lia; f_equal; lia).
    split; [split; [apply Z.div_pos; lia|apply Z.div_lt_upper_bound; lia]|].
    rewrite bytes_val_app, length_app, Nat2Z.inj_add. cbn [length bytes_val]. change (Z.of_nat 1) with 1. rewrite pow_256 by lia.
    split; [|lia]. rewrite <- Hval. replace (8 * (Z.of_nat (length payload) + 1)) with (8 * Z.of_nat (length payload) + 8) by lia. rewrite Z.pow_add_r by lia. change (2 ^ 8) with 256.
    pose proof (Z.div_mod (code_in_progress g) 256 ltac:(lia)) as Hdm. set (P := 2 ^ (8 * Z.of_nat (length payload))). nia.
  - etrans; [exact Ho1|]. apply only_out_bits. by destruct Hst1 as (_ & _ & _ & _ & _ & _ & _ & _ & _ & _ & _ & Hopen & _).
Qed.

Lemma wp_write_code base cs c w (Q : unit -> Gifflen -> Prop) E g : packed base cs g -> g.(stat_bits) < 8 -> code_fits (c, w) ->
  (forall g', packed base (cs ++ [(c, w)]) g' -> g'.(stat_bits) < 8 -> only_out g g' ->
     g'.(stat_bits) = (g.(stat_bits) + w) mod 8 -> Q tt g') -> wp (write_code w c) Q E g.
Proof.
  intros (payload & Hst & Hfit & Hs & Hc & Hval & Hbits) Hlt [Hcw Hw] HQ. cbn [fst snd] in Hcw, Hw. unfold write_code. do 2 wp_step.
  set (g1 := set_bits _ _ g).
  assert (0 < 2 ^ stat_bits g) as Hpow by (apply Z.pow_pos_nonneg; lia).
  assert (2 ^ (stat_bits g + w) = 2 ^ stat_bits g * 2 ^ w) as Hadd by (rewrite Z.pow_add_r by lia; done).
  assert (code_in_progress g + Z.shiftl c (stat_bits g) = code_in_progress g + c * 2 ^ stat_bits g) as Hshift by (rewrite Z.shiftl_mul_pow2 by lia; lia).
  assert (0 <= code_in_progress g + c * 2 ^ stat_bits g < 2 ^ (stat_bits g + w)) as Hr by nia.
  assert (2 ^ (stat_bits g + w) <= 2 ^ 19) as H19 by (apply Z.pow_le_mono_r; lia). change (2 ^ 19) with 524288 in H19.
  assert (packed base (cs ++ [(c, w)]) g1) as Hp1.
  { exists payload. split; [by apply stored_bits|]. split; [apply Forall_app; split; [done|]; by constructor|].
    unfold g1. cbn [stat_bits code_in_progress set_bits]. rewrite Hshift, u32_small by lia.
    split; [lia|]. split; [lia|]. rewrite codes_val_app, codes_bits_app by done. cbn [codes_val codes_bits]. split; [|lia].
    rewrite <- Hval, Hbits. rewrite (Z.pow_add_r 2) by lia. lia. }
  assert (only_out g g1) as Ho1.
  { destruct Hst as (_ & _ & _ & _ & _ & _ & _ & _ & _ & _ & _ & Hopen & _). by apply only_out_bits. }
  apply (wp_loop (fun n _ g' => packed base (cs ++ [(c, w)]) g' /\ only_out g g' /\ g'.(stat_bits) mod 8 = (g.(stat_bits) + w) mod 8 /\ g'.(stat_bits) < 8 * (Z.of_nat n + 1)))
    with (n := 2%nat).
  - intros n [] g' (Hp & Ho & Hmod & Hn). pose proof Hp as (pl & _ & _ & Hs0 & _). apply (wp_flush_round base (cs ++ [(c, w)])); [done| |].
    + intros Hle. apply HQ; [done|lia|done|]. rewrite <- Hmod. symmetry. apply Z.mod_small. lia.
    + intros g'' H7 Hp' Ho' Hs'. exists (n - 1)%nat. split; [lia|]. split; [done|]. split; [by etrans|]. rewrite Hs'. split; [|lia].
      rewrite <- Hmod. replace (stat_bits g') with (stat_bits g' - 8 + 1 * 8) at 2 by lia. by rewrite Z.mod_add.
  - split; [exact Hp1|]. split; [exact Ho1|]. unfold g1. cbn. split; [done|lia].
  - lia.
Qed.

(** ** The hash table *)

Definition start (p s : Z) : Z := Z.rem (Z.lxor (p * 256) s) hash.

(** The [j]-th slot that is looked at from the start [k]. *)
Definition next_slot (o i : Z) : Z := if i - o <? 0 then i - o + hash else i - o.
Definition probe (k : Z) (j : nat) : Z := Nat.iter j (next_slot (offset_of k)) k.

Lemma offset_range k : 0 <= k < hash -> 1 <= offset_of k < hash.
Proof. unfold offset_of, hash. intros Hk. destruct (Z.eqb_spec k 0); lia. Qed.

Lemma probe_mod k j : 0 <= k < hash -> probe k j = (k - Z.of_nat j * offset_of k) mod hash.
Proof.
  intros Hk. pose proof (offset_range k Hk) as Ho. unfold hash in *. induction j as [|j IH].
  - cbn. rewrite Z.sub_0_r, Z.mod_small; lia.
  - unfold probe in *. rewrite Nat.iter_succ, IH. unfold next_slot, hash. set (x := k - Z.of_nat j * offset_of k).
    replace (k - Z.of_nat (S j) * offset_of k) with (x - offset_of k) by lia.
    pose proof (Z.mod_pos_bound x 11003 ltac:(lia)). rewrite Zminus_mod, (Z.mod_small (offset_of k)) by lia.
    destruct (Z.ltb_spec (x mod 11003 - offset_of k) 0).
    + rewrite <- (Z.mod_add (x mod 11003 - offset_of k) 1 11003), (Z.mod_small (x mod 11003 - offset_of k + 1 * 11003)) by lia. lia.
    + by rewrite (Z.mod_small (x mod 11003 - offset_of k)) by lia.
Qed.

Lemma probe_range k j : 0 <= k < hash -> 0 <= probe k j < hash.
Proof. intros Hk. rewrite probe_mod by done. apply Z.mod_pos_bound. done. Qed.

(** The size of the table is prime: no step skips a slot. *)
Lemma steps_coprime o : 1 <= o < hash -> Z.gcd o hash = 1.
Proof.
  assert (forallb (fun o => Z.gcd o hash =? 1) (seqZ 1 11002) = true) as Hall by (vm_compute; reflexivity).
  intros Ho. rewrite forallb_forall in Hall. apply Z.eqb_eq, Hall, list_elem_of_In, elem_of_seqZ. unfold hash in Ho. lia.
Qed.

Lemma probe_covers k i : 0 <= k < hash -> 0 <= i < hash -> exists j, (j < Z.to_nat hash)%nat /\ probe k j = i.
Proof.
  intros Hk Hi. destruct (Z.gcd_bezout _ _ _ (steps_coprime _ (offset_range k Hk))) as (u & v & Huv).
  unfold hash in *. set (o := offset_of k) in *. exists (Z.to_nat (((k - i) * u) mod 11003)).
  pose proof (Z.mod_pos_bound ((k - i) * u) 11003 ltac:(lia)). split; [lia|]. rewrite probe_mod by done. fold o. rewrite Z2Nat.id by lia. unfold hash.
  rewrite Zminus_mod, Zmult_mod_idemp_l, <- Zminus_mod.
  replace (k - (k - i) * u * o) with (i + (k - i) * v * 11003) by nia. rewrite Z.mod_add by lia. apply Z.mod_small. lia.
Qed.

(** A slot that is taken, by another string than [e]. *)
Definition other (t : list (Z * Z * Z)) (e : entry) (i : Z) : Prop :=
  exists c e', aget t i = Some (c, e'.1, e'.2) /\ c <> -1 /\ e' <> e.

Definition used (x : Z * Z * Z) : bool := negb (x.1.1 =? -1).

(** The hash table holds the strings of [tbl]. *)
Record tree (clear : Z) (tbl : list entry) (t : list (Z * Z * Z)) : Prop := {
  tr_length : length t = Z.to_nat hash;
  tr_used : length (List.filter used t) = length tbl;
  tr_sound : forall i c p s, aget t i = Some (c, p, s) -> c <> -1 -> find_entry clear tbl (p, s) = Some c;
  tr_found : forall e c, find_entry clear tbl e = Some c ->
    exists j, aget t (probe (start e.1 e.2) j) = Some (c, e.1, e.2) /\ forall j', (j' < j)%nat -> other t e (probe (start e.1 e.2) j')
}.

Lemma tree_empty clear : tree clear [] empty_tree.
Proof.
  split; [by unfold empty_tree; rewrite length_replicate|by vm_compute| |done].
  intros i c p s Hi Hc. unfold aget, empty_tree in Hi. destruct (decide _); [|done]. apply lookup_replicate in Hi as [Hi _]. congruence.
Qed.

Lemma length_filter_all {A} (f : A -> bool) l : (forall x, List.In x l -> f x = true) -> length (List.filter f l) = length l.
Proof. induction l as [|x l IH]; intros Hall; cbn; [done|]. rewrite (Hall x) by (by left). cbn. rewrite IH; [done|]. intros y Hy. apply Hall. by right. Qed.

Lemma tree_free clear tbl t : tree clear tbl t -> Z.of_nat (length tbl) < hash -> exists i, 0 <= i < hash /\ exists x, aget t i = Some x /\ used x = false.
Proof.
  intros [Hl Hu _ _] Hlt. destruct (existsb (fun x => negb (used x)) t) eqn:E.
  - apply existsb_exists in E as (x & Hx & Hn). apply list_elem_of_In, list_elem_of_lookup in Hx as [i Hi]. pose proof (lookup_lt_Some _ _ _ Hi).
    exists (Z.of_nat i). split; [unfold hash in *; lia|]. exists x. split; [apply aget_lookup; [lia|by rewrite Nat2Z.id]|]. by apply negb_true_iff.
  - exfalso. assert (length (List.filter used t) = length t) as Hall; [|unfold hash in *; lia]. apply length_filter_all. intros x Hx.
    destruct (used x) eqn:Hux; [done|]. assert (existsb (fun x => negb (used x)) t = true); [|congruence]. apply existsb_exists. exists x. by rewrite Hux.
Qed.

(** What [find_hash] finds. *)
Definition found (clear : Z) (tbl : list entry) (t : list (Z * Z * Z)) (e : entry) (i : Z) : Prop :=
  match find_entry clear tbl e with
  | Some c => aget t i = Some (c, e.1, e.2)
  | None => exists j x, i = probe (start e.1 e.2) j /\ aget t i = Some x /\ used x = false /\ forall j', (j' < j)%nat -> other t e (probe (start e.1 e.2) j')
  end.

Lemma wp_find_hash clear tbl pre suf (Q : Z -> Gifflen -> Prop) E g : 0 <= clear -> tree clear tbl g.(hashtree) -> Z.of_nat (length tbl) < hash ->
  0 <= pre -> 0 <= suf -> (forall i, found clear tbl g.(hashtree) (pre, suf) i -> Q i g) -> wp (find_hash pre suf) Q E g.
Proof.
  intros Hcl Ht Hlt Hp Hs HQ. unfold find_hash. fold (start pre suf). set (k := start pre suf).
  assert (0 <= k < hash) as Hk.
  { apply Z.rem_bound_pos; [|done]. apply Z.lxor_nonneg. lia. }
  destruct (tree_free _ _ _ Ht Hlt) as (i0 & Hi0 & x0 & Hx0 & Hux0). destruct (probe_covers k i0 Hk Hi0) as (j0 & Hj0 & Hpj0).
  apply (wp_loop (fun n i g' => g' = g /\ exists j, i = probe k j /\ (j <= j0)%nat /\ n = (j0 - j)%nat /\
    forall j', (j' < j)%nat -> other g.(hashtree) (pre, suf) (probe k j'))) with (n := j0); [| |done].
  2:{ split; [done|]. exists O. split; [done|]. split; [lia|]. split; [lia|]. intros j' Hj'. lia. }
  intros n i g' (-> & j & -> & Hj & -> & Hbefore). unfold find_round. do 2 wp_step. wp_step.
  destruct (aget_Some (hashtree g) (probe k j)) as [[[c p] s] Hx]; [rewrite (tr_length _ _ _ Ht); pose proof (probe_range k j Hk); unfold hash in *; lia|].
  apply wp_of_option with (1 := Hx). destruct (Z.eqb_spec c (-1)) as [->|Hc].
  - wp_step. apply HQ. unfold found. cbn [fst snd]. fold k. destruct (find_entry clear tbl (pre, suf)) as [c|] eqn:Hf; [|by exists j, (-1, p, s)].
    destruct (tr_found _ _ _ Ht _ _ Hf) as (j1 & Hj1 & Hbefore1). cbn [fst snd] in Hj1, Hbefore1. fold k in Hj1, Hbefore1.
    destruct (lt_eq_lt_dec j1 j) as [[Hlt1| ->]|Hgt].
    + destruct (Hbefore j1 Hlt1) as (c' & e' & Ha & _ & Hne). rewrite Hj1 in Ha. injection Ha as -> He1 He2. by destruct e'; cbn in *; subst.
    + rewrite Hx in Hj1. injection Hj1 as <- -> ->. apply find_entry_Some in Hf as (i & _ & Hi). unfold code_of in Hi. lia.
    + destruct (Hbefore1 j Hgt) as (c' & e' & Ha & Hc' & _). rewrite Hx in Ha. by injection Ha as <- _ _.
  - pose proof (tr_sound _ _ _ Ht _ _ _ _ Hx Hc) as Hf. destruct ((p =? pre) && (s =? suf)) eqn:He.
    + apply andb_true_iff in He as [->%Z.eqb_eq ->%Z.eqb_eq]. wp_step. apply HQ. unfold found. rewrite Hf. exact Hx.
    + assert (other (hashtree g) (pre, suf) (probe k j)) as Hother.
      { exists c, (p, s). split; [exact Hx|]. split; [done|]. intros [= -> ->]. by rewrite !Z.eqb_refl in He. }
      assert (j <> j0) as Hne.
      { intros ->. rewrite Hpj0, Hx0 in Hx. injection Hx as ->. unfold used in Hux0. cbn in Hux0. apply negb_false_iff, Z.eqb_eq in Hux0. done. }
      wp_step. exists (j0 - S j)%nat. split; [lia|]. split; [done|]. exists (S j). split; [done|]. split; [lia|]. split; [done|].
      intros j' Hj'. destruct (decide (j' = j)) as [->|]; [done|]. apply Hbefore. lia.
Qed.

Lemma filter_insert {A} (f : A -> bool) (l : list A) i x y : l !! i = Some x -> f x = false -> f y = true ->
  length (List.filter f (<[i:=y]> l)) = S (length (List.filter f l)).
Proof.
  revert i. induction l as [|z l IH]; intros [|i] Hi Hx Hy; try done.
  - change (Some z = Some x) in Hi. injection Hi as ->. change (<[0%nat:=y]> (x :: l)) with (y :: l). cbn [List.filter]. by rewrite Hx, Hy.
  - change (l !! i = Some x) in Hi. change (<[S i:=y]> (z :: l)) with (z :: <[i:=y]> l). specialize (IH i Hi Hx Hy). cbn [List.filter].
    destruct (f z); cbn [length]; by rewrite IH.
Qed.

(** The string gets its slot. *)
Lemma tree_insert clear tbl t e i : 0 <= clear -> tree clear tbl t -> find_entry clear tbl e = None -> found clear tbl t e i ->
  exists t', aset t i (code_of clear (length tbl), e.1, e.2) = Some t' /\ tree clear (tbl ++ [e]) t'.
Proof.
  intros Hcl Ht Hnone Hfound. unfold found in Hfound. rewrite Hnone in Hfound. destruct Hfound as (j & x & Hi & Hx & Hux & Hbefore).
  destruct Ht as [Hl Hu Hs Hf]. pose proof (aget_lt _ _ _ Hx) as Hil.
  destruct (aset_exists t i (code_of clear (length tbl), e.1, e.2) Hil) as (t' & Ht' & Hl'). exists t'. split; [done|].
  assert (forall y, aget t i = Some y -> used y = false) as Hfree by (intros y Hy; congruence).
  assert (forall e' k, other t e' k -> other t' e' k) as Hmono.
  { intros e' k (c & e'' & Ha & Hc & Hne). exists c, e''. split; [|done]. rewrite (aget_aset_ne _ _ _ _ _ Ht'); [done|].
    intros ->. specialize (Hfree _ Ha). unfold used in Hfree. cbn in Hfree. by apply negb_false_iff, Z.eqb_eq in Hfree. }
  split.
  - by rewrite Hl'.
  - unfold aset in Ht'. rewrite decide_True in Ht' by done. injection Ht' as <-. rewrite (filter_insert _ _ _ x), Hu; [by rewrite length_app, Nat.add_comm| |done|].
    + unfold aget in Hx. by rewrite decide_True in Hx by lia.
    + unfold used, code_of. cbn. apply negb_true_iff, Z.eqb_neq. lia.
  - intros k c p s Hk Hc. rewrite find_entry_snoc. destruct (decide (k = i)) as [->|Hne].
    + rewrite (aget_aset_eq _ _ _ _ Ht') in Hk. injection Hk as <- <- <-. rewrite <- surjective_pairing, Hnone. by rewrite decide_True.
    + rewrite (aget_aset_ne _ _ _ _ _ Ht') in Hk by done. by rewrite (Hs _ _ _ _ Hk Hc).
  - intros e' c Hc. rewrite find_entry_snoc in Hc. destruct (find_entry clear tbl e') as [c'|] eqn:He'.
    + injection Hc as <-. destruct (Hf _ _ He') as (j' & Hj' & Hb'). exists j'. split; [|intros; by apply Hmono, Hb'].
      rewrite (aget_aset_ne _ _ _ _ _ Ht'); [done|]. intros Heq. rewrite <- Heq in Hj'. specialize (Hfree _ Hj'). unfold used in Hfree. cbn in Hfree.
      apply negb_false_iff, Z.eqb_eq in Hfree. apply find_entry_Some in He' as (n & _ & ->). unfold code_of in Hfree. lia.
    + destruct (decide (e = e')) as [<-|]; [|done]. injection Hc as <-. exists j. rewrite <- Hi. split; [by rewrite (aget_aset_eq _ _ _ _ Ht')|].
      intros. by apply Hmono, Hbefore.
Qed.
