(* ===== verification/GifflenImage.v ===== *)
(** * libframesequence: the images Gifflen writes

    [GIF_LZW_compressor] sends the codes of Lzw.v, with a limit of its own: it
    clears the table when the code 4096 would be next.  So the decoder of giflib
    gets the pixels back ([gifflen_image_decodes]).  The end of the image is less
    sound: bits of a short image can be lost ([last_bits_lost]), and a second
    terminator follows when the bytes fill whole blocks ([second_terminator]). *)

From stdpp Require Import base numbers list list_numbers.
From Stdlib Require Import Lia ZArith.
From S2P Require Import Prelude GifTypes GifBlocks Lzw Gifflen GifflenCode.

#[local] Open Scope Z_scope.
#[local] Open Scope c_scope.

#[export] Instance gifflen_limit : CodeLimit.
Proof. refine {| code_limit := 4096 |}. unfold LZ_MAX_CODE. lia. Defined.

(** Everything but the output and the hash table. *)
Definition same_image (g g' : Gifflen) : Prop :=
  g'.(rasters) = g.(rasters) /\
  options g' = options g.

#[export] Instance same_image_trans : Transitive same_image.
Proof. intros g1 g2 g3 [H1 H2] [H3 H4]. split; congruence. Qed.

Lemma only_out_same g g' : only_out g g' -> same_image g g'.
Proof. intros Ho. split; apply (only_out_fields _ _ Ho). Qed.

(** The codes of an image as the compressor ends them: the end code, as wide as
    the last one, and a code 0 of that width if the bits do not fill bytes. *)
Definition last_width (codes : list (Z * Z)) : Z := default 0 (snd <$> last codes).
Definition ended (b : Z) (codes : list (Z * Z)) : list (Z * Z) :=
  let cs := codes ++ [(2 ^ b + 1, last_width codes)] in
  if codes_bits cs mod 8 =? 0 then cs else cs ++ [(0, last_width codes)].

(** The whole bytes of the codes, least significant bit first. *)
Definition whole_bytes (codes : list (Z * Z)) (payload : list Z) : Prop :=
  Forall (fun b => 0 <= b < 256) payload /\ Z.of_nat (length payload) = codes_bits codes / 8 /\
  bytes_val payload = codes_val codes mod 2 ^ (8 * Z.of_nat (length payload)).

Lemma packed_whole base cs g payload : stored base payload g -> 0 <= g.(stat_bits) < 8 ->
  bytes_val payload + 2 ^ (8 * Z.of_nat (length payload)) * g.(code_in_progress) = codes_val cs ->
  codes_bits cs = 8 * Z.of_nat (length payload) + g.(stat_bits) -> whole_bytes cs payload.
Proof.
  intros (chunks & q & j0 & junk & _ & _ & _ & _ & _ & _ & _ & _ & Hby) Hs Hval Hbits. split; [exact Hby|]. split.
  - rewrite Hbits, Z.add_comm, Z.mul_comm, Z.div_add, Z.div_small by lia. lia.
  - pose proof (bytes_val_nonneg payload Hby) as Hr. rewrite pow_256 in Hr by lia.
    rewrite <- Hval, Z.mul_comm, Z.mod_add by lia. by rewrite Z.mod_small.
Qed.

Section Image.
Context (mb b : Z) (Hmb : 1 <= mb <= 8) (Hb : b = Z.max 2 mb).

Abbreviation clear := (2 ^ b).

Lemma depth_cases : (mb = 1 /\ b = 2) \/ (b = mb /\ (mb = 2 \/ mb = 3 \/ mb = 4 \/ mb = 5 \/ mb = 6 \/ mb = 7 \/ mb = 8)).
Proof. lia. Qed.

Lemma first_codes_spec : first_codes (mb - 1) = (clear + 2, b + 1, 2 ^ (b + 1), clear, clear + 1).
Proof. destruct depth_cases as [[-> ->]|[-> Hc]]; [done|]. by repeat (destruct Hc as [->|Hc]); subst. Qed.

Lemma gifflen_clear_range : 4 <= clear <= 256.
Proof. destruct depth_cases as [[-> ->]|[-> Hc]]; [done|]. by repeat (destruct Hc as [->|Hc]); subst. Qed.

(** Between two codes, the codes [cs] having been written behind [base]. *)
Record at_code (base : list Z) (cs : list (Z * Z)) (tbl : list entry) (v : lzw) (g : Gifflen) : Prop := {
  ac_packed : packed base cs g;
  ac_bits : g.(stat_bits) < 8;
  ac_tree : tree clear tbl g.(hashtree);
  ac_wf : tbl_wf clear tbl;
  ac_full : clear + 2 + Z.of_nat (length tbl) <= 4096;
  ac_code : v.(l_code) = code_of clear (length tbl);
  ac_width : v.(l_bits) = width clear (length tbl);
  ac_max : v.(l_max) = 2 ^ width clear (length tbl);
  ac_clear : v.(l_clear) = clear;
  ac_EOI : v.(l_EOI) = clear + 1;
  ac_pre : valid clear (length tbl) v.(l_pre)
}.

Lemma code_fits_here base cs tbl v g c : at_code base cs tbl v g -> 0 <= c <= clear + 1 + Z.of_nat (length tbl) -> code_fits (c, v.(l_bits)).
Proof.
  intros [_ _ _ _ Hfull _ -> _ _ _ _] Hc. pose proof gifflen_clear_range as Hr. pose proof (width_spec clear (length tbl) ltac:(lia) ltac:(lia)).
  pose proof (width_range clear (length tbl)). by split; cbn; [lia|].
Qed.

Lemma pre_range base cs tbl v g : at_code base cs tbl v g -> 0 <= v.(l_pre) <= clear + 1 + Z.of_nat (length tbl).
Proof. intros [_ _ _ _ _ _ _ _ _ _ Hv]. pose proof gifflen_clear_range. destruct Hv; lia. Qed.

Lemma open_packed base cs g : packed base cs g -> g.(pGif) = true.
Proof. by intros (pl & (_ & _ & _ & _ & _ & _ & _ & _ & _ & _ & _ & Ho & _) & _). Qed.

Lemma packed_tree base cs t g : packed base cs g -> packed base cs (set_hashtree t g).
Proof. done. Qed.

(** A string that is not in the table. *)
Lemma wp_send_string base cs tbl v suf i g (Q : lzw -> Gifflen -> Prop) E : at_code base cs tbl v g ->
  find_entry clear tbl (v.(l_pre), suf) = None -> found clear tbl g.(hashtree) (v.(l_pre), suf) i -> 0 <= suf < clear ->
  (forall v' g' cs' tbl', at_code base cs' tbl' v' g' -> (v'.(l_x), v'.(l_y), v'.(l_done), v'.(l_pre)) = (v.(l_x), v.(l_y), v.(l_done), suf) ->
     (forall ps, cs' ++ enc clear tbl' suf ps = cs ++ enc clear tbl v.(l_pre) (suf :: ps)) -> same_image g g' -> Q v' g') ->
  wp (send_string (mb - 1) i suf v) Q E g.
Proof.
  intros Hat Hnone Hfound Hsuf HQ. pose proof gifflen_clear_range as Hcl. pose proof (pre_range _ _ _ _ _ Hat) as Hpre.
  pose proof (code_fits_here _ _ _ _ _ _ Hat Hpre) as Hfit. pose proof Hat as [Hp Hs Ht Hwf Hfull Hc Hw Hm Hcc HE Hv].
  destruct v as [x y dn pre code w mx cl EOI]. cbn [l_x l_y l_done l_pre l_code l_bits l_max l_clear l_EOI] in *. subst cl EOI code mx.
  set (n := length tbl) in *. pose proof (width_spec clear n ltac:(lia) ltac:(lia)) as [Hws1 Hws2]. pose proof (width_range clear n) as Hwr. unfold LZ_BITS in Hwr.
  pose proof (width_succ clear n ltac:(lia) ltac:(lia)) as Hsucc. unfold LZ_BITS in Hsucc.
  unfold send_string. wp_step. apply (wp_write_code base cs); [done|done|done|]. intros g1 Hp1 Hs1 Ho1 _. do 2 wp_step.
  destruct (only_out_fields _ _ Ho1) as (Et & _ & _). rewrite Et.
  destruct (tree_insert clear tbl (hashtree g) (pre, suf) i ltac:(lia) Ht Hnone Hfound) as (t' & Ht' & Htree). cbn [fst snd] in Ht'.
  wp_step. apply wp_of_option with (1 := Ht'). do 2 wp_step. set (g2 := set_hashtree t' g1).
  assert (same_image g g2) as Hsame by (by apply only_out_same in Ho1).
  pose proof (packed_tree _ _ t' _ Hp1) as Hp2. fold g2 in Hp2. rewrite <- Hw in *.
  assert (forall ps, enc clear tbl pre (suf :: ps) = (pre, w) :: (if 4096 <=? code_of clear n then (clear, width clear (S n)) :: enc clear [] suf ps
      else enc clear (tbl ++ [(pre, suf)]) suf ps)) as Henc.
  { intros ps. cbn [enc]. rewrite Hnone. fold n. by rewrite <- Hw. }
  unfold code_of in *. destruct (Z.eqb_spec (clear + 2 + Z.of_nat n + 1) (2 ^ w + 1)) as [Hmx|Hmx].
  - rewrite (proj2 (Z.leb_le (2 ^ w) _)) in Hsucc by lia. cbn [andb] in Hsucc. destruct (Z.eqb_spec w 12) as [Hw12|Hw12].
    + rewrite Hw12 in Hmx. change (2 ^ 12) with 4096 in Hmx. rewrite (proj2 (Z.ltb_ge w 12)) in Hsucc by lia.
      wp_step. apply (wp_write_code base (cs ++ [(pre, w)])); [done|done|split; cbn; [rewrite Hw12; change (2 ^ 12) with 4096|]; lia|]. intros g3 Hp3 Hs3 Ho3 _.
      do 2 wp_step. set (g4 := set_hashtree empty_tree g3).
      assert (same_image g g4) as Hsame4 by (etrans; [exact Hsame|by apply only_out_same in Ho3]).
      assert (wp (ret (mkLzw x y dn suf (clear + 2) (b + 1) (2 ^ (b + 1)) clear (clear + 1))) Q E g4) as Hres.
      { wp_step. apply (HQ _ _ (cs ++ [(pre, w); (clear, w)]) []); [|done| |exact Hsame4].
        - assert (width clear 0 = b + 1) as Hw0 by (apply (width_0 _ b); [lia|done]). split; cbn [l_code l_bits l_max l_clear l_EOI l_pre length]; try rewrite Hw0; try done.
          + rewrite <- app_assoc in Hp3. exact Hp3.
          + apply tree_empty.
          + lia.
          + unfold code_of. lia.
          + by left.
        - intros ps. rewrite Henc, (proj2 (Z.leb_le 4096 _)) by lia. rewrite Hsucc. by rewrite <- app_assoc. }
      pose proof first_codes_spec as Hfc. unfold first_codes in Hfc. replace (mb - 1 + 2) with (mb + 1) by lia.
      destruct depth_cases as [[-> ->]|[-> Hc]]; [exact Hres|]. rewrite (proj2 (Z.eqb_neq (mb + 1) 2)) by lia.
      rewrite Z.shiftl_mul_pow2, Z.mul_1_l by lia. replace (2 ^ mb + 1 + 1) with (2 ^ mb + 2) by lia. exact Hres.
    + rewrite (proj2 (Z.ltb_lt w 12)) in Hsucc by lia. wp_step. apply (HQ _ _ (cs ++ [(pre, w)]) (tbl ++ [(pre, suf)])); [|done| |exact Hsame].
      * assert (clear + 2 + Z.of_nat n < 4096) as Hlt.
        { assert (2 ^ w <= 2 ^ 11) as Hp11 by (apply Z.pow_le_mono_r; lia). change (2 ^ 11) with 2048 in Hp11. lia. }
        split; cbn [l_code l_bits l_max l_clear l_EOI l_pre]; try done; rewrite ?length_app; cbn [length]; fold n; replace (n + 1)%nat with (S n) by lia.
        -- by apply tbl_wf_snoc.
        -- lia.
        -- unfold code_of. lia.
        -- lia.
        -- rewrite Hsucc, Z.pow_add_r by lia. lia.
        -- by left.
      * intros ps. rewrite Henc, <- app_assoc. cbn [app]. rewrite (proj2 (Z.leb_gt 4096 _)); [done|].
        assert (2 ^ w <= 2 ^ 11) as Hp11 by (apply Z.pow_le_mono_r; lia). change (2 ^ 11) with 2048 in Hp11. lia.
  - assert (clear + 2 + Z.of_nat n < 2 ^ w) as Hlt by lia. rewrite (proj2 (Z.leb_gt (2 ^ w) _)) in Hsucc by lia. cbn [andb] in Hsucc.
    assert (2 ^ w <= 2 ^ 12) as Hp12 by (apply Z.pow_le_mono_r; lia). change (2 ^ 12) with 4096 in Hp12.
    wp_step. apply (HQ _ _ (cs ++ [(pre, w)]) (tbl ++ [(pre, suf)])); [|done| |exact Hsame].
    + split; cbn [l_code l_bits l_max l_clear l_EOI l_pre]; try done; rewrite ?length_app; cbn [length]; fold n; replace (n + 1)%nat with (S n) by lia.
      -- by apply tbl_wf_snoc.
      -- lia.
      -- unfold code_of. lia.
      -- by rewrite Hsucc.
      -- by rewrite Hsucc.
      -- by left.
    + intros ps. rewrite Henc, <- app_assoc. cbn [app]. rewrite (proj2 (Z.leb_gt 4096 _)); [done|lia].
Qed.
(** ** The end *)

Definition alive (g : Gifflen) : Prop := g.(pGif) = true /\ length g.(LZW) = 256%nat.

(** The bytes behind [base]: blocks of [payload], and one more terminator if
    [payload] fills whole blocks. *)
Definition image_end (payload : list Z) : list Z := if Z.of_nat (length payload) mod 255 =? 0 then [0] else [].

Lemma length_full chunks : Forall full_chunk chunks -> Z.of_nat (length (concat chunks)) = 255 * Z.of_nat (length chunks).
Proof. unfold full_chunk. induction 1 as [|c l Hc _ IH]; cbn [concat length]; [done|]. rewrite length_app. lia. Qed.

Lemma full_chunks_ok chunks : Forall full_chunk chunks -> Forall (fun b => 0 <= b < 256) (concat chunks) -> Forall chunk_ok chunks.
Proof.
  unfold full_chunk. induction 1 as [|c l Hc _ IH]; cbn [concat]; [done|]. intros [H1 H2]%Forall_app. constructor; [split; [lia|done]|by apply IH].
Qed.

Lemma wp_last_block base payload g (Q : Z -> Gifflen -> Prop) E : stored base payload g ->
  (forall g' encoded, framed payload encoded -> g'.(file) = base ++ encoded ++ image_end payload -> alive g' -> same_image g g' -> Q 1 g') ->
  wp (let! g := gets id in
      let! l := of_option (aset g.(LZW) 0 (u8 (g.(LZWpos) - 1))) in
      modify (set_LZW g.(LZWpos) l) ;;!
      fwrite (take (Z.to_nat g.(LZWpos)) l) ;;!
      fwrite [0] ;;!
      ret 1) Q E g.
Proof.
  intros (chunks & q & j0 & junk & Hch & -> & Hq & Hf & HL & Hlen & Hpos & Ho & Hb') HQ. do 2 wp_step. change (id g) with g. rewrite HL, Hpos.
  replace (1 + Z.of_nat (length q) - 1) with (Z.of_nat (length q)) by lia. rewrite u8_small by lia.
  wp_step. apply (wp_of_option _ (Z.of_nat (length q) :: q ++ junk)); [reflexivity|]. do 2 wp_step. wp_step. apply wp_fwrite; [done|]. wp_step. apply wp_fwrite; [done|].
  wp_step. cbn [file set_file set_LZW]. replace (Z.to_nat (1 + Z.of_nat (length q))) with (S (length q)) by lia.
  change (take (S (length q)) (Z.of_nat (length q) :: q ++ junk)) with (Z.of_nat (length q) :: take (length q) (q ++ junk)). rewrite take_app_length, Hf.
  pose proof Hb' as [Hbc Hbq]%Forall_app. pose proof (full_chunks_ok _ Hch Hbc) as Hok. pose proof (length_full _ Hch) as Hlc.
  destruct q as [|c q].
  - apply (HQ _ (blocks chunks ++ [0])); [exists chunks; by rewrite app_nil_r| |split; [done|by rewrite HL in Hlen]|done]. cbn [file set_file length].
    unfold image_end. rewrite app_nil_r, Hlc, Z.mul_comm, Z.mod_mul by done. rewrite <- !app_assoc. done.
  - apply (HQ _ (blocks (chunks ++ [c :: q]) ++ [0])); [|cbn [file set_file]|split; [done|by rewrite HL in Hlen]|done].
    + exists (chunks ++ [c :: q]). split; [|by rewrite concat_snoc]. apply Forall_app. split; [done|]. constructor; [|done]. split; [cbn [length] in *; lia|done].
    + unfold image_end. rewrite length_app, Nat2Z.inj_add, Hlc, Z.add_comm, Z.mul_comm, Z.mod_add, Z.mod_small by (cbn [length] in *; lia).
      rewrite (proj2 (Z.eqb_neq _ 0)) by (cbn [length]; lia). rewrite blocks_snoc, app_nil_r, <- !app_assoc. done.
Qed.

Lemma wp_finish base cs tbl v g (Q : Z -> Gifflen -> Prop) E : 3 <= b -> at_code base cs tbl v g ->
  (forall g' payload encoded tail, let codes := cs ++ enc clear tbl v.(l_pre) [] in
     framed payload encoded -> whole_bytes (ended b codes) payload -> g'.(file) = base ++ encoded ++ image_end payload -> alive g' -> same_image g g' ->
     bytes_val payload = codes_val codes + 2 ^ codes_bits codes * tail -> codes_bits codes <= 8 * Z.of_nat (length payload) -> Q 1 g') ->
  wp (finish v) Q E g.
Proof.
  intros Hb3 Hat HQ. pose proof gifflen_clear_range as Hcl. pose proof (pre_range _ _ _ _ _ Hat) as Hpre. pose proof (code_fits_here _ _ _ _ _ _ Hat Hpre) as Hfit.
  assert (code_fits (l_EOI v, l_bits v)) as HfitE by (rewrite (ac_EOI _ _ _ _ _ Hat); apply (code_fits_here _ _ _ _ _ _ Hat); lia).
  assert (4 <= l_bits v <= 12) as Hw.
  { rewrite (ac_width _ _ _ _ _ Hat). pose proof (width_range clear (length tbl)) as Hr. unfold LZ_BITS in Hr. split; [|lia].
    assert (width clear 0 = b + 1) as Hw0 by (apply (width_0 _ b); [lia|done]). assert (width clear 0 <= width clear (length tbl)); [|lia].
    unfold width. pose proof (Z.log2_le_mono (clear + 1 + Z.of_nat 0) (clear + 1 + Z.of_nat (length tbl)) ltac:(lia)). lia. }
  unfold finish. wp_step. apply (wp_write_code base cs); [apply Hat|apply Hat|done|]. intros g1 Hp1 Hs1 Ho1 Hst1.
  wp_step. apply (wp_write_code base (cs ++ [(l_pre v, l_bits v)])); [done|done|done|]. intros g2 Hp2 Hs2 Ho2 Hst2. do 2 wp_step.
  set (codes := cs ++ [(l_pre v, l_bits v)]) in *.
  assert (cs ++ enc clear tbl (l_pre v) [] = codes) as Hcodes by (unfold codes; cbn [enc]; by rewrite (ac_width _ _ _ _ _ Hat)).
  assert (0 <= stat_bits g1 /\ 0 <= stat_bits g2) as [H1 H2] by (destruct Hp1 as (? & _ & _ & ? & _), Hp2 as (? & _ & _ & ? & _); done).
  assert (exists w', code_fits (0, w') /\ w' = l_bits v) as (w' & Hfit0 & Hw').
  { exists (l_bits v). split; [|done]. split; cbn; [|lia]. split; [lia|]. apply Z.pow_pos_nonneg; lia. }
  wp_step.
  assert (last_width codes = l_bits v) as Hlast by (unfold last_width, codes; by rewrite last_snoc).
  assert (codes_bits (codes ++ [(clear + 1, last_width codes)]) mod 8 = stat_bits g2) as Hmod.
  { destruct Hp2 as (pl2 & _ & _ & _ & _ & _ & Hb2). rewrite Hlast, <- (ac_EOI _ _ _ _ _ Hat), Hb2, Z.add_comm, Z.mul_comm, Z.mod_add by lia. apply Z.mod_small. lia. }
  set (P g3 := same_image g g3 /\ stat_bits g3 < 8 /\ exists l, codes ++ l = ended b codes /\ packed base (codes ++ l) g3 /\ codes_bits codes + stat_bits g3 <= codes_bits (codes ++ l)).
  assert (wp (if negb (stat_bits g2 =? 0) then write_code (l_bits v) 0 else ret tt) (fun _ g3 => P g3) E g2) as Hpad.
  { destruct (Z.eqb_spec (stat_bits g2) 0) as [Hz|Hnz]; cbn [negb].
    - wp_step. split; [etrans; by apply only_out_same|]. split; [done|]. exists [(l_EOI v, l_bits v)].
      split; [unfold ended; by rewrite Hmod, Hz, Hlast, (ac_EOI _ _ _ _ _ Hat)|]. split; [done|]. rewrite codes_bits_app. cbn [codes_bits]. lia.
    - apply (wp_write_code base (codes ++ [(l_EOI v, l_bits v)])); [done|done|by rewrite <- Hw'|]. intros g3 Hp3 Hs3 Ho3 Hst3.
      split; [do 2 (etrans; [by apply only_out_same|]); by apply only_out_same|]. split; [done|]. exists [(l_EOI v, l_bits v); (0, l_bits v)]. rewrite <- app_assoc in Hp3.
      split; [unfold ended; rewrite Hmod, (proj2 (Z.eqb_neq _ 0) Hnz), Hlast, (ac_EOI _ _ _ _ _ Hat); by rewrite <- app_assoc|]. split; [exact Hp3|].
      rewrite codes_bits_app. cbn [codes_bits]. pose proof (Z.mod_le (stat_bits g2 + l_bits v) 8 ltac:(lia) ltac:(lia)). lia. }
  eapply wp_mono; [exact Hpad| |done]. intros [] g3 (Hsame & Hs8 & l & Hended & (payload & Hst & Hfl & Hs0 & Hc0 & Hval & Hbits) & Hlost).
  pose proof (packed_whole _ _ _ _ Hst (conj Hs0 Hs8) Hval Hbits) as Hwhole. rewrite Hended in Hwhole.
  apply Forall_app in Hfl as [Hfc Hfl]. rewrite codes_bits_app in Hbits, Hlost. rewrite codes_val_app in Hval by done.
  apply (wp_last_block base payload); [done|]. intros g4 encoded Hfr Hfile Hopen Hsame4.
  apply (HQ g4 payload encoded (codes_val l - 2 ^ (8 * Z.of_nat (length payload) - codes_bits codes) * code_in_progress g3)); rewrite ?Hcodes; [done|exact Hwhole|done|done|by etrans| |lia].
  assert (2 ^ (8 * Z.of_nat (length payload)) = 2 ^ codes_bits codes * 2 ^ (8 * Z.of_nat (length payload) - codes_bits codes)) as Hpow.
  { pose proof (codes_bits_nonneg _ Hfc). rewrite <- Z.pow_add_r by lia. f_equal. lia. }
  rewrite Hpow in Hval. lia.
Qed.
(** ** The loop *)

Section Loop.
Context (xdim ydim : Z) (px : list Z).
Context (Hx : 0 < xdim) (Hy : 0 < ydim) (Hlen : Z.of_nat (length px) = xdim * ydim) (Hpx : Forall (fun p => 0 <= p < clear) px).

(** The pixels [ps] are still to come. *)
Definition place (ps : list Z) (v : lzw) : Prop :=
  if v.(l_done) then ps = []
  else 0 <= v.(l_x) < xdim /\ 0 <= v.(l_y) < ydim /\ ps = drop (Z.to_nat (v.(l_y) * xdim + v.(l_x))) px.

Definition rows_in_order (g : Gifflen) : Prop := forall y, 0 <= y < ydim -> aget g.(rasters) y = Some y.

Lemma same_rows g g' : same_image g g' -> rows_in_order g -> rows_in_order g'.
Proof. intros [He _] Hr y Hyr. rewrite He. by apply Hr. Qed.

(** The next position. *)
Definition advance (v : lzw) : Z * Z * bool :=
  if xdim <=? v.(l_x) + 1 then (0, v.(l_y) + 1, ydim <=? v.(l_y) + 1) else (v.(l_x) + 1, v.(l_y), false).

Lemma place_next p ps v x y dn pre w c m cl e : l_done v = false -> place (p :: ps) v -> advance v = (x, y, dn) ->
  aget px (v.(l_y) * xdim + v.(l_x)) = Some p /\ place ps (mkLzw x y dn pre c w m cl e).
Proof.
  unfold place, advance. cbn [l_done l_x l_y]. intros -> (Hxr & Hyr & Hps) Hadv. set (i := v.(l_y) * xdim + v.(l_x)) in *.
  assert (0 <= i < xdim * ydim) as Hi by nia. symmetry in Hps.
  assert (px !! Z.to_nat i = Some p) as Hp by (apply (f_equal (fun l => l !! O)) in Hps; rewrite lookup_drop, Nat.add_0_r in Hps; exact Hps).
  split; [unfold aget; by rewrite decide_True by lia|]. assert (drop (S (Z.to_nat i)) px = ps) as Hps' by (rewrite (drop_S _ _ _ Hp) in Hps; by injection Hps).
  destruct (Z.leb_spec xdim (v.(l_x) + 1)); injection Hadv as <- <- <-.
  - destruct (Z.leb_spec ydim (v.(l_y) + 1)).
    + rewrite <- Hps'. apply drop_ge. assert (v.(l_y) = ydim - 1) by lia. assert (v.(l_x) = xdim - 1) by lia. nia.
    + split; [lia|]. split; [lia|]. rewrite <- Hps'. f_equal. unfold i. nia.
  - split; [lia|]. split; [lia|]. rewrite <- Hps'. f_equal. lia.
Qed.

Lemma place_more v : place [] v -> l_done v = true.
Proof.
  unfold place. destruct (l_done v); [done|]. intros (Hxr & Hyr & Hps). symmetry in Hps. apply (f_equal length) in Hps. rewrite length_drop in Hps. cbn [length] in Hps. nia.
Qed.

Lemma at_code_move base cs tbl v g x y dn pre : valid clear (length tbl) pre -> at_code base cs tbl v g ->
  at_code base cs tbl (mkLzw x y dn pre v.(l_code) v.(l_bits) v.(l_max) v.(l_clear) v.(l_EOI)) g.
Proof. intros Hv []. by split. Qed.

(** One more pixel. *)
Lemma wp_lzw_round base cs tbl v p ps g (Q : lzw + Z -> Gifflen -> Prop) E :
  at_code base cs tbl v g -> rows_in_order g -> l_done v = false -> place (p :: ps) v ->
  (forall v' g' cs' tbl', at_code base cs' tbl' v' g' -> same_image g g' -> place ps v' ->
     cs' ++ enc clear tbl' v'.(l_pre) ps = cs ++ enc clear tbl v.(l_pre) (p :: ps) -> Q (inl v') g') ->
  wp (lzw_round px xdim ydim (mb - 1) v) Q E g.
Proof.
  intros Hat Hrows Hdone Hplace HQ. pose proof gifflen_clear_range as Hcl. unfold lzw_round. rewrite Hdone. do 2 wp_step.
  assert (0 <= v.(l_y) < ydim) as Hyr by (unfold place in Hplace; rewrite Hdone in Hplace; tauto).
  wp_step. apply wp_of_option with (1 := Hrows _ Hyr). fold (advance v). destruct (advance v) as [[x y] dn] eqn:Hadv.
  destruct (place_next p ps v x y dn v.(l_pre) v.(l_bits) v.(l_code) v.(l_max) v.(l_clear) v.(l_EOI) Hdone Hplace Hadv) as [Hp Hplace'].
  wp_step. apply wp_of_option with (1 := Hp). pose proof (aget_Forall _ _ _ _ Hpx Hp) as Hpr. cbn beta in Hpr.
  pose proof (pre_range _ _ _ _ _ Hat) as Hpre. pose proof (ac_full _ _ _ _ _ Hat) as Hfull.
  wp_step. apply (wp_find_hash clear tbl); [lia|apply Hat|unfold hash; lia|lia|lia|]. intros i Hfound. do 2 wp_step. wp_step.
  destruct (find_entry clear tbl (l_pre v, p)) as [c|] eqn:Hf.
  - unfold found in Hfound. rewrite Hf in Hfound. cbn [fst snd] in Hfound. apply wp_of_option with (1 := Hfound). pose proof (find_entry_valid _ _ _ _ Hf) as Hvc.
    pose proof (at_code_move _ _ _ _ _ x y dn c Hvc Hat) as Hat'. destruct v as [x0 y0 dn0 pre code w mx cl EOI]. cbn [l_pre l_code l_bits l_max l_clear l_EOI] in *.
    assert (c <> -1) as Hc by (destruct Hvc; lia). rewrite (proj2 (Z.eqb_neq c (-1)) Hc). wp_step. apply (HQ _ _ cs tbl); [done|done|done|]. cbn [l_pre enc]. by rewrite Hf.
  - pose proof Hfound as Hfree. unfold found in Hfree. rewrite Hf in Hfree. destruct Hfree as (j & xx & Hi & Hx0 & Hu & _). apply wp_of_option with (1 := Hx0).
    destruct xx as [[c p'] s']. unfold used in Hu. cbn [fst] in Hu. apply negb_false_iff in Hu.
    pose proof (at_code_move _ _ _ _ _ x y dn _ (ac_pre _ _ _ _ _ Hat) Hat) as Hat'. destruct v as [x0 y0 dn0 pre code w mx cl EOI]. cbn [l_pre l_code l_bits l_max l_clear l_EOI] in *.
    rewrite Hu. wp_step. apply (wp_send_string base cs tbl _ p i); [exact Hat'|exact Hf|exact Hfound|done|]. intros v' g' cs' tbl' Hat1 Heq Henc Hsame.
    wp_step. cbn [l_x l_y l_done l_pre] in Heq. destruct v' as [x1 y1 dn1 pre1 code1 w1 mx1 cl1 EOI1]. cbn [l_x l_y l_done l_pre] in Heq. injection Heq as -> -> -> ->.
    apply (HQ _ _ cs' tbl'); [exact Hat1|done|done|]. cbn [l_pre]. by rewrite Henc.
Qed.

Lemma wp_lzw_loop base cs tbl v ps g fuel (Q : Z -> Gifflen -> Prop) E : 3 <= b ->
  at_code base cs tbl v g -> rows_in_order g -> place ps v -> (length ps < fuel)%nat ->
  (forall g' payload encoded tail, let codes := cs ++ enc clear tbl v.(l_pre) ps in
     framed payload encoded -> whole_bytes (ended b codes) payload -> g'.(file) = base ++ encoded ++ image_end payload -> alive g' -> same_image g g' ->
     bytes_val payload = codes_val codes + 2 ^ codes_bits codes * tail -> codes_bits codes <= 8 * Z.of_nat (length payload) -> Q 1 g') ->
  wp (loop fuel (lzw_round px xdim ydim (mb - 1)) v) Q E g.
Proof.
  intros Hb3 Hat Hrows Hplace Hf HQ.
  apply (wp_loop (fun n v' g' => exists cs' tbl' ps', at_code base cs' tbl' v' g' /\ rows_in_order g' /\ place ps' v' /\ n = length ps' /\
    (g' = g \/ same_image g g') /\ cs' ++ enc clear tbl' v'.(l_pre) ps' = cs ++ enc clear tbl v.(l_pre) ps)) with (n := length ps); [| |done].
  2:{ exists cs, tbl, ps. split_and!; auto. }
  intros n v' g' (cs' & tbl' & ps' & Hat' & Hrows' & Hplace' & -> & Hsame & Hcodes). destruct ps' as [|p ps'].
  - pose proof (place_more _ Hplace') as Hdone. unfold lzw_round. rewrite Hdone. wp_step. apply (wp_finish base cs' tbl'); [done|done|].
    intros g'' payload encoded tail codes Hfr Hwhole Hfile Ho Hs Hval Hbits. wp_step. unfold codes in *. rewrite Hcodes in *.
    apply (HQ g'' payload encoded tail); [done|done|done|done| |done|done]. destruct Hsame as [->|Hs']; [done|by etrans].
  - assert (l_done v' = false) as Hdone by (unfold place in Hplace'; by destruct (l_done v')).
    apply (wp_lzw_round base cs' tbl' v' p ps'); [done|done|done|done|]. intros v'' g'' cs'' tbl'' Hat'' Hs Hplace'' Hcodes''.
    exists (length ps'). split; [cbn [length]; lia|]. exists cs'', tbl'', ps'. split; [done|]. split; [by apply (same_rows g')|]. split; [done|]. split; [done|].
    split; [right; destruct Hsame as [->|Hs']; [done|by etrans]|]. by rewrite Hcodes''.
Qed.
End Loop.
End Image.
