(* ===== verification/GifflenDecode.v ===== *)
(** * libframesequence: the images Gifflen writes, read by giflib

    The whole compressor ([wp_compressor]) and the decoder of giflib on what it
    writes. *)

From stdpp Require Import base numbers list list_numbers.
From Stdlib Require Import Lia ZArith.
From S2P Require Import Prelude GifTypes GifAlloc GifDecode GifSafety GifBlocks Lzw GifCompress GifDecompress GifLines GifImages Gifflen GifflenCode GifflenImage.

#[local] Open Scope Z_scope.
#[local] Open Scope c_scope.

Lemma counted_rows_all n : 0 <= n -> (fun e => e - 1) <$> counted_rows 1 1 n = seqZ 0 n.
Proof.
  intros Hn. unfold counted_rows. destruct (Z.ltb_spec n 1) as [Hlt|Hge]; [by rewrite seqZ_nil by lia|].
  rewrite <- list_fmap_compose, Z.div_1_r. replace (n - 1 + 1) with n by lia. rewrite <- (list_fmap_id (seqZ 0 n)) at 2.
  apply list_fmap_ext. intros _ k _. cbn. lia.
Qed.

Lemma wp_rasters ydim (Q : Z -> Gifflen -> Prop) E g : 0 <= ydim <= Z.of_nat (length g.(rasters)) ->
  (forall r, length r = length g.(rasters) -> (forall y, 0 <= y < ydim -> aget r y = Some y) -> Q ydim (set_rasters r g)) ->
  wp (foldM add_raster (raster_rows false ydim) 0) Q E g.
Proof.
  intros Hy HQ. unfold raster_rows. rewrite counted_rows_all by lia.
  apply (wp_foldM (fun l k g' => exists r, g' = set_rasters r g /\ length r = length g.(rasters) /\ 0 <= k <= ydim /\ l = seqZ k (ydim - k) /\ forall y, 0 <= y < k -> aget r y = Some y)).
  - intros e l k g' (r & -> & Hl & Hk & Hseq & Hr). destruct (Z.eq_dec k ydim) as [->|]; [by rewrite seqZ_nil in Hseq by lia|].
    rewrite seqZ_cons in Hseq by lia. injection Hseq as -> ->. unfold add_raster. do 2 wp_step.
    destruct (aset_exists r k k) as (r' & Hr' & Hl'); [lia|]. wp_step. apply wp_of_option with (1 := Hr'). do 2 wp_step. wp_step.
    exists r'. split; [done|]. split; [by rewrite Hl'|]. split; [lia|]. split; [f_equal; lia|]. intros y Hyr. destruct (decide (y = k)) as [->|Hne].
    + by apply (aget_aset_eq _ _ _ _ Hr').
    + rewrite (aget_aset_ne _ _ _ _ _ Hr') by done. apply Hr. lia.
  - intros k g' (r & -> & Hl & Hk & Hseq & Hr). assert (k = ydim) as ->; [|by apply HQ].
    destruct (Z.eq_dec k ydim); [done|]. by rewrite seqZ_cons in Hseq by lia.
  - exists g.(rasters). split; [by destruct g|]. split; [done|]. split; [lia|]. split; [f_equal; lia|]. lia.
Qed.

(** An encoder whose file is open. *)
Record working (g : Gifflen) : Prop := { wk_alive : alive g; wk_rasters : length g.(rasters) = 768%nat }.

(** Behind the first byte of an image nothing has been written. *)
Lemma packed_start g b : g.(pGif) = true -> length g.(LZW) = 256%nat ->
  packed (g.(file) ++ [b]) [] (set_file true (g.(file) ++ [b]) (set_hashtree empty_tree (set_LZW 1 g.(LZW) (set_bits 0 0 g)))).
Proof.
  intros Ho HL. exists []. cbn. split; [|split_and!; (done || lia)]. destruct (LZW g) as [|j0 junk] eqn:EL; [done|].
  exists [], [], j0, junk. cbn [concat app length]. split_and!; try done; try lia; cbn [file set_file set_hashtree set_LZW set_bits LZW LZWpos]; try done.
  unfold blocks. cbn. by rewrite app_nil_r.
Qed.

(** An image the encoder can write: its colours take [b] bits. *)
Record encodable (w h numColors b : Z) (px : list Z) : Prop := {
  en_width : 0 < w;
  en_height : 0 < h <= 768;
  en_area : 1 < w * h;
  en_length : Z.of_nat (length px) = w * h;
  en_bits : max_bits numColors = b;
  en_range : 3 <= b <= 8;
  en_pixels : Forall (fun p => 0 <= p < 2 ^ b) px
}.

(** The bytes of the image's codes: clear code, pixels, end code and the padding. *)
Definition image_payload (b : Z) (px payload : list Z) : Prop :=
  whole_bytes (ended b (@pixel_codes (2 ^ b) gifflen_limit px)) payload.

(** The image is written behind the file. *)
Definition image_written (b : Z) (px : list Z) (g g' : Gifflen) : Prop :=
  exists data payload encoded, data = b :: encoded /\ framed payload encoded /\ image_payload b px payload /\ @image_data gifflen_limit b px data /\
    g'.(file) = g.(file) ++ data ++ image_end payload.

Lemma wp_compressor w h n b px g (Q : Z -> Gifflen -> Prop) E : encodable w h n b px -> working g ->
  (forall g', image_written b px g g' -> working g' ->
     options g' = options g -> Q 1 g') ->
  wp (GIF_LZW_compressor w h px n false) Q E g.
Proof.
  intros [Hw Hh Harea Hlen Hbits Hb Hpx] [[Ho HL] Hras] HQ. unfold GIF_LZW_compressor. do 6 wp_step. do 2 wp_step.
  cbn [pGif set_bits set_LZW set_hashtree]. rewrite Ho. cbn [negb].
  assert (b = Z.max 2 b) as Hmax by lia. rewrite Hbits, (first_codes_spec b b) by lia. pose proof (gifflen_clear_range b b ltac:(lia) Hmax) as Hcl.
  rewrite u8_small by lia. replace (b + 1 - 1) with b by lia.
  wp_step. apply wp_fwrite; [done|]. set (g1 := set_file true _ _). wp_step.
  pose proof (packed_start g b Ho HL) as Hp1. fold g1 in Hp1.
  assert (code_fits (2 ^ b, b + 1)) as Hfit by (split; cbn; [rewrite Z.pow_add_r by lia; lia|lia]).
  apply (wp_write_code (g.(file) ++ [b]) []); [done|cbn; lia|done|]. intros g2 Hp2 Hs2 Ho2 _. cbn [app] in Hp2.
  destruct (only_out_fields _ _ Ho2) as (Ht2 & Hr2 & Hopt2). wp_step.
  apply wp_rasters; [rewrite Hr2; cbn; lia|]. intros r Hlr Hr. do 2 wp_step. cbn [rasters set_rasters].
  wp_step. apply (wp_of_option _ 0); [apply Hr; lia|]. destruct px as [|p px]; [cbn in Hlen; lia|]. wp_step. apply (wp_of_option _ p); [reflexivity|].
  set (g3 := set_rasters r g2). assert (width (2 ^ b) 0 = b + 1) as Hw0 by (by apply (width_0 _ b); [lia|]).
  apply Forall_cons in Hpx as Hpx'. destruct Hpx' as [Hp Hps].
  assert (forall x y, at_code b (g.(file) ++ [b]) [(2 ^ b, b + 1)] [] (mkLzw x y false p (2 ^ b + 2) (b + 1) (2 ^ (b + 1)) (2 ^ b) (2 ^ b + 1)) g3) as Hat.
  { intros x y. split; cbn [l_code l_bits l_max l_clear l_EOI l_pre length hashtree set_rasters g3]; rewrite ?Hw0; try done.
    - rewrite Ht2. apply tree_empty.
    - lia.
    - unfold code_of. lia.
    - by left. }
  assert (let '(x, y) := if w <=? 1 then (0, 1) else (1, 0) in
    place w h (p :: px) px (mkLzw x y false p (2 ^ b + 2) (b + 1) (2 ^ (b + 1)) (2 ^ b) (2 ^ b + 1))) as Hplace.
  { destruct (Z.leb_spec w 1); unfold place; cbn [l_done l_x l_y]; (split; [lia|]; split; [nia|]).
    - assert (w = 1) as -> by lia. done.
    - done. }
  destruct (if w <=? 1 then (0, 1) else (1, 0)) as [x y].
  eapply (wp_lzw_loop b b ltac:(lia) Hmax w h (p :: px) Hw ltac:(lia) Hlen Hpx (g.(file) ++ [b]) [(2 ^ b, b + 1)] [] _ px g3); [lia|apply Hat|exact Hr|exact Hplace|cbn [length] in Hlen; lia|].
  intros g' payload encoded tail codes Hfr Hwhole Hfile Hal [Hsr Hso] Hval Hbts. apply HQ.
  - exists (b :: encoded), payload, encoded. split; [done|]. split; [done|].
    split; [unfold image_payload; unfold codes in *; cbn [pixel_codes l_pre app] in *; rewrite Hw0; exact Hwhole|]. split; [|rewrite Hfile; by rewrite <- app_assoc].
    exists payload, encoded, tail. split; [done|]. split; [done|]. unfold codes in *. cbn [pixel_codes l_pre app] in *. rewrite Hw0. done.
  - split; [done|]. rewrite Hsr. cbn [rasters set_rasters g3]. rewrite Hlr, Hr2. done.
  - rewrite Hso. cbn. exact Hopt2.
Qed.

(** C4. Gifflen writes images that giflib reads, within limits ([encodable]): the
    colours take [b] bits, from 3 to 8, and every pixel is below [2 ^ b], the
    image has from 1 to 768 rows, a positive width, more than one pixel and as
    many pixels as it should, is not interlaced, and the file is open with the
    arrays of the encoder at their sizes.  Then the compressor ends (its loops,
    the probing of the hash table included, have enough fuel) and appends to the
    file the code size and blocks of exactly the bytes of the clear code, the
    codes of the pixels, the end code and its padding ([image_payload]) and, when
    these fill whole blocks, one more zero; and the decoder of giflib, with the data before it, delivers exactly the
    pixels, in lines of any lengths, although the encoder clears its table later
    than that of giflib does. *)
Theorem gifflen_image_decodes w h n b px g : encodable w h n b px -> working g ->
  exists g' payload encoded, GIF_LZW_compressor w h px n false g = (Returns 1, g') /\ working g' /\
    framed payload encoded /\ image_payload b px payload /\ g'.(file) = g.(file) ++ (b :: encoded) ++ image_end payload /\
    forall lines gd rest, concat lines = px -> Forall (fun l => l <> []) lines -> ready_to_read (w * h) gd -> gd.(In) = (b :: encoded) ++ rest ->
      exists gd', read_image ((fun l => Z.of_nat (length l)) <$> lines) gd = (Returns lines, gd') /\ gd'.(In) = rest.
Proof.
  intros Hen Hwk.
  destruct (wp_returns (GIF_LZW_compressor w h px n false) (fun r g' => r = 1 /\ image_written b px g g' /\ working g') g)
    as (r & g' & Hrun & -> & (data & payload & encoded & -> & Hfr & Hpay & Hdata & Hfile) & Hwk'); [by apply (wp_compressor w h n b)|].
  exists g', payload, encoded. do 5 (split; [done|]). intros lines gd rest Hlines Hne Hr Hin. subst px.
  destruct Hen as [Hw Hh Harea Hlen Hbits Hb Hpx].
  destruct (wp_returns _ _ _ (wp_read_image b lines (b :: encoded) rest gd (fun _ => False) ltac:(lia) Hpx Hne ltac:(intros ->; cbn in Hlen; lia) ltac:(by rewrite Hlen) Hdata Hin))
    as (r & gd' & Hrun' & -> & Hin'). eauto.
Qed.
