(* ===== verification/GifflenFile.v ===== *)
(** * libframesequence: the files Gifflen writes, read by giflib

    A recording is [init], [addFrame] for every frame and [close].  The
    quantiser makes a shot of every frame: a palette and indices into it.  The file is described byte by byte ([shots_file]); [DGifOpen] and
    [DGifSlurp] get the shots back, with their delays and the loop count,
    unless the codes of a shot fill whole blocks: then the file has a zero behind
    it and is refused ([clean_to_come], [broken_to_come]). *)

From stdpp Require Import base numbers list list_numbers.
From Stdlib Require Import Lia ZArith.
From S2P Require Import Prelude GifTypes GifAlloc GifDecode GifSafety GifEncode GifBlocks Lzw GifCompress GifDecompress GifLines GifImages GifFormat GifSpew GifReadBack NeuQuant NeuQuantNet NeuQuantIndex NeuQuantSpec Gifflen GifflenCode GifflenImage GifflenDecode.

#[local] Open Scope Z_scope.
#[local] Open Scope c_scope.

(** ** The parts of the file *)

Fixpoint colors_of (l : list Z) : list GifColorType :=
  match l with
  | r :: g :: b :: l => mkGifColorType r g b :: colors_of l
  | _ => []
  end.

Lemma colors_of_spec n : forall l, Z.of_nat (length l) = 3 * Z.of_nat n -> Forall byte l ->
  concat (color_bytes <$> colors_of l) = l /\ length (colors_of l) = n /\ Forall color_ok (colors_of l).
Proof.
  induction n as [|n IH]; intros l Hl Hb.
  - destruct l; [done|cbn [length] in Hl; lia].
  - destruct l as [|r [|g [|b l]]]; try (cbn [length] in Hl; lia). repeat (apply Forall_cons in Hb as [? Hb]).
    destruct (IH l) as (E1 & E2 & E3); [cbn [length] in Hl; lia|done|]. cbn [colors_of fmap list_fmap concat length]. rewrite E1, E2. split; [done|]. split; [done|]. by constructor.
Qed.

Lemma low_byte z : u8 z = LOBYTE z.
Proof. unfold u8, LOBYTE. change 0xff with (Z.ones 8). by rewrite Z.land_ones by lia. Qed.

Lemma high_byte z : 0 <= z -> u8 (Z.quot z 256) = HIBYTE z.
Proof.
  intros Hz. unfold u8, HIBYTE. change 0xff with (Z.ones 8). rewrite Z.land_ones, Z.shiftr_div_pow2, Z.quot_div_nonneg by lia. done.
Qed.

Lemma LOBYTE_byte z : byte (LOBYTE z).
Proof. rewrite <- low_byte. apply (Z.mod_pos_bound z 256). lia. Qed.

Lemma HIBYTE_byte z : byte (HIBYTE z).
Proof. exact (LOBYTE_byte (Z.shiftr z 8)). Qed.

(** A frame: its pixels and its delay.  A shot: palette, indices and delay. *)
Abbreviation frame := (list Z * Z)%type.
Abbreviation shot := (list Z * list Z * Z)%type.

Section File.
Context (w h n q b : Z).

Definition map_of (f : shot) : ColorMapObject := mkColorMapObject n b false (colors_of (f.1.1)).
Definition desc_of (f : shot) : GifImageDesc := mkGifImageDesc 0 0 w h false (Some (map_of f)).

Definition control (delay : Z) : ExtensionBlock :=
  mkExtensionBlock 4 (Some [9; LOBYTE delay; HIBYTE delay; transparentColorIndex]) GRAPHICS_EXT_FUNC_CODE.
Definition netscape (loops : Z) : extension :=
  (mkExtensionBlock 11 (Some [78; 69; 84; 83; 67; 65; 80; 69; 50; 46; 48]) APPLICATION_EXT_FUNC_CODE,
   [mkExtensionBlock 3 (Some [1; LOBYTE loops; HIBYTE loops]) CONTINUE_EXT_FUNC_CODE]).

Definition movie_header : Z * Z * Z * Z * Z * option ColorMapObject := (w, h, 6, 0, 0, None).
Definition movie_packed : Z := LOBYTE (0x50 + b - 1).

(** The images as the decoder stores them, [es] being the blocks in front of the
    first one. *)
Fixpoint images (es : list ExtensionBlock) (fs : list shot) : list SavedImage :=
  match fs with
  | [] => []
  | f :: fs => mkSavedImage (desc_of f) (Some f.1.2) (Z.of_nat (length (es ++ [control f.2]))) (array_of (es ++ [control f.2])) :: images [] fs
  end.

(** The bytes of the frames; [clean] if no frame has a zero behind it. *)
Inductive shots_file : list shot -> list Z -> bool -> Prop :=
| shots_nil : shots_file [] [] true
| shots_cons f fs payload encoded bytes clean :
    framed payload encoded -> image_payload b f.1.2 payload -> @image_data gifflen_limit b f.1.2 (b :: encoded) -> shots_file fs bytes clean ->
    shots_file (f :: fs)
      (extension_bytes (control f.2, []) ++ ([DESCRIPTOR_INTRODUCER] ++ desc_bytes (desc_of f)) ++ (b :: encoded) ++ image_end payload ++ bytes)
      (negb (Z.of_nat (length payload) mod 255 =? 0) && clean).

(** The bytes of a shot's codes fill whole blocks of 255. *)
Definition fills_blocks (px : list Z) : bool :=
  codes_bits (ended b (@pixel_codes (2 ^ b) gifflen_limit px)) / 8 mod 255 =? 0.
Definition all_clean (fs : list shot) : bool := forallb (fun f => negb (fills_blocks f.1.2)) fs.

Lemma shots_file_clean fs bytes clean : shots_file fs bytes clean -> clean = all_clean fs.
Proof.
  induction 1 as [|f fs payload encoded bytes clean Hfr (_ & Hlen & _) Hdata Hfile IH]; [done|].
  cbn [all_clean forallb]. unfold all_clean, fills_blocks in *. by rewrite <- Hlen, IH.
Qed.

Record shot_ok (f : shot) : Prop := {
  so_delay : word16 f.2;
  so_palette : Z.of_nat (length f.1.1) = n * 3 /\ Forall byte f.1.1;
  so_pixels : Z.of_nat (length f.1.2) = w * h /\ Forall (fun p => 0 <= p < 2 ^ b) f.1.2
}.

Record movie_ok : Prop := {
  mv_width : 0 < w < 65536;
  mv_height : 0 < h <= 768;
  mv_area : 1 < w * h /\ w * h * PIXEL_SIZE < 2147483648;
  mv_bits : 3 <= b <= 8;
  mv_colors : n = 2 ^ b;
  mv_samples : w * h / sample_of q = 0 \/ 100 <= w * h / sample_of q
}.

Context (Hmovie : movie_ok).

Lemma color_cases : (b = 3 /\ n = 8) \/ (b = 4 /\ n = 16) \/ (b = 5 /\ n = 32) \/ (b = 6 /\ n = 64) \/ (b = 7 /\ n = 128) \/ (b = 8 /\ n = 256).
Proof.
  destruct Hmovie as [_ _ _ Hb Hn _]. rewrite Hn. assert (b = 3 \/ b = 4 \/ b = 5 \/ b = 6 \/ b = 7 \/ b = 8) as Hc by lia.
  repeat destruct Hc as [Hc|Hc]; rewrite Hc; vm_compute; intuition.
Qed.

Lemma map_fits f : shot_ok f -> map_ok (map_of f) /\ map_bytes (Some (map_of f)) = f.1.1 /\ Z.of_nat (length (f.1.1)) = 3 * n.
Proof.
  intros [_ [Hl Hb] _]. pose proof color_cases as Hc. assert (Z.of_nat (length (f.1.1)) = 3 * n) as Hlen by lia.
  destruct (colors_of_spec (Z.to_nat n) f.1.1) as (H1 & H2 & H3); [lia|done|]. split; [|split; [exact H1|exact Hlen]].
  split; cbn [cm_BitsPerPixel ColorCount Colors map_of]; [lia| |lia|done]. apply Hmovie.
Qed.

Lemma image_fits_frame g0 es f : shot_ok f -> blocks_ok (Z.of_nat (length (es ++ [control f.2]))) (array_of (es ++ [control f.2])) ->
  image_fits g0 (mkSavedImage (desc_of f) (Some f.1.2) (Z.of_nat (length (es ++ [control f.2]))) (array_of (es ++ [control f.2]))) b f.1.2.
Proof.
  intros Hf Hbl. destruct (map_fits f Hf) as [Hmap _]. destruct Hf as [_ _ [Hl Hp]]. pose proof color_cases. destruct Hmovie as [Hw Hh [Ha Ha'] Hb _ _]. unfold PIXEL_SIZE in Ha'.
  split; cbn [ImageDesc RasterBits Left Top Width Height ColorMap desc_of SortFlag map_of sp_ExtensionBlockCount sp_ExtensionBlocks]; try done; try (unfold word16; lia).
  unfold depth. cbn. f_equal. lia.
Qed.

Lemma control_ok delay : word16 delay -> block_ok (control delay).
Proof.
  intros Hd. exists [9; LOBYTE delay; HIBYTE delay; transparentColorIndex]. split; [done|]. split; [done|]. split; [cbn; lia|].
  split; [|vm_compute; intuition discriminate]. pose proof (LOBYTE_byte delay). pose proof (HIBYTE_byte delay).
  by repeat apply Forall_cons_2.
Qed.

(** ** Reading *)

(** Blocks that can come in front of the first frame. *)
Definition first_blocks (es : list ExtensionBlock) : Prop := es = [] \/ exists e, extension_ok e /\ es = e.1 :: e.2.

Lemma first_blocks_ok es delay : first_blocks es -> word16 delay ->
  blocks_ok (Z.of_nat (length (es ++ [control delay]))) (array_of (es ++ [control delay])).
Proof.
  intros Hes Hd. pose proof (control_ok delay Hd) as Hc. unfold blocks_ok. destruct Hes as [-> | (e & (Hb & Hf & Hcs) & ->)]; cbn [app array_of].
  - split; [done|]. split; [by constructor|]. by eexists _, [].
  - split; [done|]. split; [|by eexists _, _]. constructor; [done|]. apply Forall_app. split; [|by constructor].
    eapply Forall_impl; [exact Hcs|]. by intros ? [].
Qed.

Lemma rows_of_image f : shot_ok f -> concat (row w f.1.2 <$> file_rows (desc_of f)) = f.1.2.
Proof.
  intros [_ _ [Hl _]]. destruct Hmovie as [Hw Hh Ha _ _ _]. unfold file_rows. cbn [Interlace Height desc_of]. rewrite concat_rows by lia. apply take_ge. lia.
Qed.

Lemma clean_to_come fs bytes : shots_file fs bytes true -> Forall shot_ok fs -> forall es l tail, first_blocks es -> fs <> [] \/ es = [] ->
  exists k, @to_come gifflen_limit tail (l ++ images es fs) [] l es (bytes ++ tail) k.
Proof.
  intros Hfile. remember true as clean eqn:Hclean. induction Hfile as [|f fs payload encoded bytes clean Hfr Hpay Hdata Hfile IH]; intros Hok es l tail Hes Hne.
  - destruct Hne as [? | ->]; [done|]. exists O. cbn [images]. rewrite app_nil_r. constructor.
  - apply andb_true_iff in Hclean as [Hmod ->]. apply Forall_cons in Hok as [Hf Hok]. unfold image_end. apply negb_true_iff in Hmod. rewrite Hmod, app_nil_l.
    set (sp := mkSavedImage (desc_of f) (Some f.1.2) (Z.of_nat (length (es ++ [control f.2]))) (array_of (es ++ [control f.2]))).
    destruct (IH eq_refl Hok [] (l ++ [sp]) tail (or_introl eq_refl) (or_intror eq_refl)) as (k & Hk).
    exists (S (S k)). rewrite <- !app_assoc. apply (come_extension _ _ _ l es (control f.2, [])).
    + split; [apply control_ok, Hf|done].
    + cbn [fst snd]. cbn [images]. fold sp. rewrite <- app_assoc in Hk.
      apply (come_image _ _ _ l (es ++ [control f.2]) (fresh_gif [] []) sp b f.1.2 (b :: encoded) (bytes ++ tail)).
      * apply image_fits_frame; [done|]. apply first_blocks_ok; [done|apply Hf].
      * destruct Hmovie. lia.
      * done.
      * done.
      * cbn [ImageDesc Width sp desc_of]. by rewrite rows_of_image.
      * exact Hk.
Qed.

Lemma broken_to_come fs bytes : shots_file fs bytes false -> Forall shot_ok fs -> forall es l tail, first_blocks es ->
  exists L rest k, @to_come gifflen_limit (0 :: rest) L [] l es (bytes ++ tail) k.
Proof.
  intros Hfile. remember false as clean eqn:Hclean. induction Hfile as [|f fs payload encoded bytes clean Hfr Hpay Hdata Hfile IH]; intros Hok es l tail Hes; [done|].
  apply Forall_cons in Hok as [Hf Hok].
  set (sp := mkSavedImage (desc_of f) (Some f.1.2) (Z.of_nat (length (es ++ [control f.2]))) (array_of (es ++ [control f.2]))).
  assert (exists L rest k, @to_come gifflen_limit (0 :: rest) L [] (l ++ [sp]) [] (image_end payload ++ bytes ++ tail) k) as (L & rest & k & Hk).
  { unfold image_end. destruct (Z.of_nat (length payload) mod 255 =? 0); [exists (l ++ [sp]), (bytes ++ tail), O; constructor|].
    cbn [negb andb] in Hclean. by apply (IH Hclean Hok [] (l ++ [sp]) tail (or_introl eq_refl)). }
  exists L, rest, (S (S k)). rewrite <- !app_assoc. apply (come_extension _ _ _ l es (control f.2, [])).
  - split; [apply control_ok, Hf|done].
  - cbn [fst snd].
    apply (come_image _ _ _ l (es ++ [control f.2]) (fresh_gif [] []) sp b f.1.2 (b :: encoded) (image_end payload ++ bytes ++ tail)).
    + apply image_fits_frame; [done|]. apply first_blocks_ok; [done|apply Hf].
    + destruct Hmovie. lia.
    + done.
    + done.
    + cbn [ImageDesc Width sp desc_of]. by rewrite rows_of_image.
    + exact Hk.
Qed.
(** ** The whole file *)

Definition opening (loops : Z) : list Z := stamp true ++ header_bytes movie_header movie_packed ++ extension_bytes (netscape loops).

Lemma max_bits_colors : max_bits n = b.
Proof. pose proof color_cases as Hc. repeat destruct Hc as [Hc|Hc]; destruct Hc as [Hb Hn]; by rewrite Hb, Hn. Qed.

Lemma movie_header_ok : header_ok movie_header movie_packed.
Proof.
  destruct Hmovie as [Hw Hh _ _ _ _]. unfold movie_packed. unfold header_ok, movie_header, word16. split; [lia|]. split; [lia|]. split; [|done].
  pose proof color_cases as Hc. repeat destruct Hc as [Hc|Hc]; destruct Hc as [Hb _]; rewrite Hb; by vm_compute.
Qed.

Lemma frame_bytes_split f : shot_ok f ->
  extension_bytes (control f.2, []) ++ [DESCRIPTOR_INTRODUCER] ++ desc_bytes (desc_of f) =
  [0x21; 0xF9; 4; 9; u8 f.2; u8 (Z.quot f.2 256); transparentColorIndex; 0;
   0x2C; 0; 0; 0; 0; u8 w; u8 (Z.quot w 256); u8 h; u8 (Z.quot h 256); u8 (0x80 + b - 1)] ++ f.1.1.
Proof.
  intros Hf. destruct (map_fits f Hf) as (_ & Hmap & _). destruct Hf as [Hd _ _]. unfold word16 in Hd. destruct Hmovie as [Hw Hh _ _ _ _].
  unfold desc_bytes. cbn [ColorMap desc_of]. rewrite Hmap, !high_byte, !low_byte by lia.
  assert (image_packed false (Some (map_of f)) = LOBYTE (0x80 + b - 1)) as Hpk.
  { unfold image_packed. cbn [cm_BitsPerPixel map_of]. pose proof color_cases as Hc. repeat destruct Hc as [Hc|Hc]; destruct Hc as [Hb _]; by rewrite Hb. }
  cbn [Left Top Width Height Interlace ColorMap desc_of] in *. rewrite Hpk. done.
Qed.

Lemma shots_file_app fs gs a c x y : shots_file fs a x -> shots_file gs c y -> shots_file (fs ++ gs) (a ++ c) (x && y).
Proof.
  intros Hf Hg. induction Hf as [|f fs payload encoded bytes clean Hfr Hpay Hdata Hfile IH]; [done|]. change ((f :: fs) ++ gs) with (f :: fs ++ gs).
  rewrite <- !app_assoc, <- andb_assoc. rewrite (app_assoc [DESCRIPTOR_INTRODUCER]). by constructor.
Qed.

Lemma netscape_ok loops : word16 loops -> extension_ok (netscape loops).
Proof.
  unfold word16. intros Hl. pose proof (LOBYTE_byte loops). pose proof (HIBYTE_byte loops).
  split; [|split; [done|]]; cbn [fst snd netscape].
  - eexists. split; [reflexivity|]. split; [done|]. split; [cbn; lia|]. split; [|vm_compute; intuition discriminate].
    repeat apply Forall_cons_2; try (vm_compute; intuition discriminate). apply Forall_nil_2.
  - apply Forall_cons_2; [|apply Forall_nil_2]. split; [|done]. eexists. split; [reflexivity|]. split; [done|]. split; [cbn; lia|].
    split; [|vm_compute; intuition discriminate]. by repeat apply Forall_cons_2.
Qed.

Lemma length_images es fs : length (images es fs) = length fs.
Proof. revert es. induction fs; intros es; cbn [images length]; [done|]. by f_equal. Qed.

Definition loop_blocks (loops : Z) : list ExtensionBlock := (netscape loops).1 :: (netscape loops).2.

Lemma recorded_to_come loops fs bytes clean : word16 loops -> Forall shot_ok fs -> fs <> [] -> shots_file fs bytes clean ->
  exists L tail k, @to_come gifflen_limit tail L [] [] [] (extension_bytes (netscape loops) ++ bytes ++ [TERMINATOR_INTRODUCER]) k /\ (if clean then L = images (loop_blocks loops) fs /\ tail = [TERMINATOR_INTRODUCER] else exists rest, tail = 0 :: rest).
Proof.
  intros Hl Hok Hne Hfile. pose proof (netscape_ok loops Hl) as Hn. assert (first_blocks (loop_blocks loops)) as Hfb by (right; by exists (netscape loops)).
  destruct clean.
  - destruct (clean_to_come fs bytes Hfile Hok (loop_blocks loops) [] [TERMINATOR_INTRODUCER] Hfb (or_introl Hne)) as (k & Hk).
    exists (images (loop_blocks loops) fs), [TERMINATOR_INTRODUCER], (S k). split; [|done]. by apply (come_extension _ _ _ [] []).
  - destruct (broken_to_come fs bytes Hfile Hok (loop_blocks loops) [] [TERMINATOR_INTRODUCER] Hfb) as (L & rest & k & Hk).
    exists L, (0 :: rest), (S k). split; [|by exists rest]. by apply (come_extension _ _ _ [] []).
Qed.
End File.
