(* ===== verification/GifflenRecord.v ===== *)
(** * libframesequence: recordings

    [init], [addFrame] for every frame and [close], with the quantiser: every
    frame becomes a shot whose pixels are the closest colours of its palette
    ([filmed]), and giflib reads the shots back ([recording_reads]). *)

From stdpp Require Import base numbers list list_numbers.
From Stdlib Require Import Lia ZArith.
From S2P Require Import Prelude GifTypes GifAlloc GifDecode GifSafety GifEncode GifBlocks Lzw GifCompress GifDecompress GifLines GifImages GifFormat GifSpew GifReadBack NeuQuant NeuQuantNet NeuQuantIndex NeuQuantSpec Gifflen GifflenCode GifflenImage GifflenDecode GifflenFile.

#[local] Open Scope Z_scope.
#[local] Open Scope c_scope.

(** ** Shots *)

Lemma wp_on_quantiser {A} (m : NqM A) (Q : A -> Gifflen -> Prop) (E : Gifflen -> Prop) g :
  wp m (fun a q => Q a (set_neuQuant q g)) (fun q => E (set_neuQuant q g)) g.(neuQuant) -> wp (on_quantiser m) Q E g.
Proof. unfold wp, on_quantiser. by destruct (m (neuQuant g)) as [[a| |] q]. Qed.

(** The shot [s] of the frame [f]. *)
Definition filmed (w h n : Z) (f : frame) (s : shot) : Prop :=
  s.2 = f.2 /\ quantised w h (take (Z.to_nat (w * h)) f.1) n s.1.1 s.1.2.

Definition opaque (w : Z) : Prop := byte_at w 24 <> 0.

(** A frame that has the pixels of a picture.  Its transparent pixels are pixels
    of colour 255, which less than 256 colours do not have. *)
Record frame_ok (w h n : Z) (f : frame) : Prop := {
  fo_length : w * h <= Z.of_nat (length f.1);
  fo_delay : word16 f.2;
  fo_opaque : n = 256 \/ Forall opaque (take (Z.to_nat (w * h)) f.1)
}.

Lemma aget_take {A} (l : list A) n i : 0 <= i < n -> aget (take (Z.to_nat n) l) i = aget l i.
Proof. intros Hi. unfold aget. rewrite !decide_True by lia. by rewrite lookup_take_lt by lia. Qed.

Lemma palette_has_take palette n c p : 0 <= c < n -> palette_has (take (Z.to_nat (n * 3)) palette) c p <-> palette_has palette c p.
Proof. intros Hc. unfold palette_has. by rewrite !aget_take by lia. Qed.

Lemma closest_take palette n b g r c : closest palette n b g r c -> closest (take (Z.to_nat (n * 3)) palette) n b g r c.
Proof.
  intros [Hc (p & Hp & Hmin)]. split; [done|]. exists p. split; [by apply palette_has_take|]. intros c' p' Hc' Hp'%palette_has_take; [|done]. by apply (Hmin c').
Qed.

(** Only the part of the palette that is written matters. *)
Lemma quantised_take w h pic n palette bits : quantised w h pic n palette bits -> quantised w h pic n (take (Z.to_nat (n * 3)) palette) bits.
Proof.
  intros [Hpal Hlen Hpx]. split; [|exact Hlen|].
  - intros i Hi. destruct (Hpal i Hi) as (p & Hp & Hhas). exists p. split; [exact Hp|]. by apply palette_has_take.
  - intros k Hk. destruct (Hpx k Hk) as (p & v & Hp & Hv & Hm). exists p, v. split; [exact Hp|]. split; [exact Hv|]. unfold mapped_to in *.
    destruct (byte_at p 24 =? 0); [exact Hm|]. destruct Hm as (c & Hc & Hvc). exists c. split; [by apply closest_take|exact Hvc].
Qed.

Lemma quantised_bytes w h pic n palette bits : 0 <= n -> Z.of_nat (length palette) = n * 3 -> quantised w h pic n palette bits -> Forall byte palette.
Proof.
  intros Hn Hlen [Hpal _ _]. apply Forall_lookup. intros k x Hk. pose proof (lookup_lt_Some _ _ _ Hk) as Hlt.
  assert (aget palette (Z.of_nat k) = Some x) as Hx by (apply aget_lookup; [lia|by rewrite Nat2Z.id]).
  pose proof (Z.div_mod (Z.of_nat k) 3 ltac:(lia)) as Hdm. pose proof (Z.mod_pos_bound (Z.of_nat k) 3 ltac:(lia)) as Hm.
  destruct (Hpal (Z.of_nat k / 3)) as (p & (Hb & Hg & Hr) & (H1 & H2 & H3)); [lia|]. set (c := Z.of_nat k / 3) in *. unfold byte.
  assert (Z.of_nat k mod 3 = 0 \/ Z.of_nat k mod 3 = 1 \/ Z.of_nat k mod 3 = 2) as [E|[E|E]] by lia; rewrite E in Hdm.
  - replace (Z.of_nat k) with (c * 3) in Hx by lia. rewrite H1 in Hx. by injection Hx as <-.
  - replace (Z.of_nat k) with (c * 3 + 1) in Hx by lia. rewrite H2 in Hx. by injection Hx as <-.
  - replace (Z.of_nat k) with (c * 3 + 2) in Hx by lia. rewrite H3 in Hx. by injection Hx as <-.
Qed.

Section Record.
Context (w h n q b : Z) (Hmovie : movie_ok w h n q b).

(** A shot fits into the file. *)
Lemma filmed_fits f s : frame_ok w h n f -> Z.of_nat (length s.1.1) = n * 3 -> filmed w h n f s -> shot_ok w h n b s.
Proof.
  intros [Hlen Hdelay Hop] Hpal [Hd Hq]. pose proof (color_cases _ _ _ _ _ Hmovie) as Hc. destruct Hmovie as [_ _ _ _ Hn _]. split.
  - by rewrite Hd.
  - split; [exact Hpal|]. apply (quantised_bytes w h (take (Z.to_nat (w * h)) f.1) n _ s.1.2); [lia|exact Hpal|exact Hq].
  - destruct Hq as [_ Hbits Hpx]. split; [exact Hbits|]. rewrite <- Hn. apply Forall_lookup. intros k v Hk. pose proof (lookup_lt_Some _ _ _ Hk) as Hlt.
    destruct (Hpx (Z.of_nat k)) as (p & v' & Hp & Hv & Hm); [lia|]. rewrite (aget_lookup s.1.2 (Z.of_nat k) v) in Hv by (lia || by rewrite Nat2Z.id). injection Hv as <-.
    unfold mapped_to, transparentColorIndex in Hm. destruct (Z.eqb_spec (byte_at p 24) 0) as [Hz|Hnz].
    + subst v. destruct Hop as [->|Hop]; [lia|]. exfalso. by apply (aget_Forall _ _ _ _ Hop Hp).
    + destruct Hm as (c & [Hcr _] & ->). destruct (Z.eqb_spec c 255); lia.
Qed.

(** ** Writing *)

(** The state of an encoder with the options of the movie. *)
Record filming (bytes : list Z) (g : Gifflen) : Prop := {
  fm_working : working g;
  fm_options : (g.(imgw), g.(imgh), g.(optCol), g.(optQuality)) = (w, h, n, q);
  fm_bitmap : length g.(outDIB).1 = 768%nat /\ Z.of_nat (length g.(outDIB).2) = w * h;
  fm_object : object_ok g.(neuQuant);
  fm_file : g.(file) = bytes
}.

(** An encoder before [init]: its arrays have their sizes. *)
Record encoder_ok (g : Gifflen) : Prop := {
  ek_LZW : length g.(LZW) = 256%nat;
  ek_rasters : length g.(rasters) = 768%nat;
  ek_object : object_ok g.(neuQuant)
}.

Lemma wp_init loops g (Q : Z -> Gifflen -> Prop) E : encoder_ok g -> 0 <= loops ->
  (forall g', filming (opening w h b loops) g' -> Q 0 g') -> wp (init true w h n q loops) Q E g.
Proof.
  intros [HL Hr Hob] Hl HQ. pose proof Hmovie as [Hw Hh _ _ _ _]. unfold init. cbn [negb]. do 4 wp_step.
  do 4 (wp_step; apply wp_fwrite; [done|]). wp_step. apply HQ. split.
  - split; [by split|exact Hr].
  - done.
  - cbn [outDIB set_file set_outDIB fst snd]. rewrite !length_replicate. split; [done|nia].
  - exact Hob.
  - cbn [file set_file set_options set_outDIB]. rewrite !high_byte, !low_byte, (max_bits_colors _ _ _ _ _ Hmovie) by lia. done.
Qed.

(** The bytes of the shot [s]. *)
Definition shot_bytes (s : shot) (payload encoded : list Z) : list Z :=
  extension_bytes (control s.2, []) ++ ([DESCRIPTOR_INTRODUCER] ++ desc_bytes (desc_of w h n b s)) ++ (b :: encoded) ++ image_end payload.

Lemma wp_addFrame f bytes g (Q : Z -> Gifflen -> Prop) E : frame_ok w h n f -> filming bytes g ->
  (forall s payload encoded g', filmed w h n f s -> shot_ok w h n b s -> framed payload encoded -> image_payload b s.1.2 payload -> @image_data gifflen_limit b s.1.2 (b :: encoded) ->
     filming (bytes ++ shot_bytes s payload encoded) g' -> Q 0 g') ->
  wp (addFrame f.1 f.2) Q E g.
Proof.
  intros Hf [Hwk Hopt [Hpl Hbl] Hob Hbytes] HQ. injection Hopt as Ew Eh En Eq. pose proof (color_cases _ _ _ _ _ Hmovie) as Hc. pose proof Hmovie as [Hw Hh [Ha Ha'] Hb Hcol Hsamples].
  pose proof Hf as [Hlen Hd Hop]. pose proof Hwk as [[Ho HL] Hras]. unfold addFrame. do 2 wp_step. cbv zeta. change (id g) with g. rewrite Ew, Eh, En, Eq.
  assert (i32 (w * h) = w * h) as -> by (apply i32_small; unfold PIXEL_SIZE in Ha'; lia).
  destruct (Z.ltb_spec (Z.of_nat (length f.1)) (w * h)); [lia|]. wp_step. apply wp_fwrite; [exact Ho|]. rewrite (max_bits_colors _ _ _ _ _ Hmovie).
  wp_step. apply wp_on_quantiser. cbn [neuQuant set_file]. apply wp_quantise; [|exact Hob|rewrite Hpl; lia|exact Hbl|done|].
  { split; [lia|rewrite length_take; lia|exact Ha'|lia|exact Hsamples]. }
  intros palette px nq Hq Hpl' Hob'. cbn [Z.eqb]. do 2 wp_step. do 2 wp_step.
  assert ((0 <=? n) && (n * 3 <=? Z.of_nat (length palette)) = true) as -> by (apply andb_true_iff; split; apply Z.leb_le; lia).
  set (s := (take (Z.to_nat (n * 3)) palette, px, f.2) : shot).
  assert (filmed w h n f s) as Hs by (split; [done|by apply quantised_take]).
  assert (shot_ok w h n b s) as Hsok by (apply (filmed_fits f); [done|cbn [s fst]; rewrite length_take; lia|done]).
  wp_step. apply wp_fwrite; [done|]. pose proof Hsok as [_ [Hspl _] [Hspx Hsrange]]. cbn [s fst snd] in Hspx, Hsrange.
  wp_step. apply (wp_compressor w h n b); [split; try done; try lia; apply (max_bits_colors _ _ _ _ _ Hmovie)|split; [by split|exact Hras]|].
  intros g' (data & payload & encoded & -> & Hfr & Hpay & Hdata & Hfile) Hwk' Hopt'. wp_step. apply (HQ s payload encoded); [exact Hs|exact Hsok|exact Hfr|exact Hpay|exact Hdata|].
  unfold options in Hopt'. cbn in Hopt'. injection Hopt' as E1 E2 E3 E4 E5 E6. split.
  - exact Hwk'.
  - congruence.
  - rewrite E5. cbn [fst snd]. rewrite Hpl'. split; [done|]. exact Hspx.
  - by rewrite E6.
  - rewrite Hfile. cbn [file set_file set_options set_outDIB set_neuQuant]. rewrite Hbytes. unfold shot_bytes.
    rewrite (app_assoc (extension_bytes _)), (frame_bytes_split _ _ _ _ _ Hmovie s) by exact Hsok. cbn [s fst snd]. by rewrite <- !app_assoc.
Qed.

(** A recording: the results of its frames, and the file. *)
Definition recording (loops : Z) (fs : list frame) : GflM (list Z) :=
  init true w h n q loops ;;!
  let! rs := foldM (fun rs f => let! r := addFrame f.1 f.2 in ret (rs ++ [r])) fs [] in
  close ;;!
  ret rs.

Lemma wp_recording loops fs g E : encoder_ok g -> 0 <= loops -> Forall (frame_ok w h n) fs ->
  wp (recording loops fs) (fun rs g' => rs = replicate (length fs) 0 /\ g'.(pGif) = false /\
    exists shots bytes clean, Forall2 (filmed w h n) fs shots /\ Forall (shot_ok w h n b) shots /\ shots_file w h n b shots bytes clean /\
      g'.(file) = opening w h b loops ++ bytes ++ [TERMINATOR_INTRODUCER]) E g.
Proof.
  intros Hg Hl Hok. unfold recording. wp_step. apply wp_init; [done|done|]. intros g1 Hg1. wp_step.
  apply (wp_foldM (fun todo rs g' => exists done_ shots bytes clean, fs = done_ ++ todo /\ rs = replicate (length done_) 0 /\
     Forall2 (filmed w h n) done_ shots /\ Forall (shot_ok w h n b) shots /\ shots_file w h n b shots bytes clean /\ filming (opening w h b loops ++ bytes) g')).
  - intros f todo rs g2 (done_ & shots & bytes & clean & -> & -> & Hfilmed & Hsok & Hfile & Hg2). apply Forall_app in Hok as [_ [Hf _]%Forall_cons].
    wp_step. apply (wp_addFrame f _ _ _ _ Hf Hg2). intros s payload encoded g3 Hs Hss Hfr Hpay Hdata Hg3. wp_step.
    eexists (done_ ++ [f]), (shots ++ [s]), _, _. split; [by rewrite <- app_assoc|]. split; [rewrite length_app, replicate_add; done|]. split; [apply Forall2_app; [exact Hfilmed|constructor; [exact Hs|constructor]]|].
    split; [apply Forall_app; split; [exact Hsok|constructor; [exact Hss|constructor]]|]. split.
    + eapply shots_file_app; [exact Hfile|]. eapply shots_cons; [done|exact Hpay|exact Hdata|constructor].
    + rewrite app_nil_r, app_assoc. exact Hg3.
  - intros rs g2 (done_ & shots & bytes & clean & -> & -> & Hfilmed & Hsok & Hfile & [Hwk _ _ _ Hbytes]). rewrite app_nil_r in *. wp_step. unfold close. do 2 wp_step.
    destruct Hwk as [[Ho _] _]. rewrite Ho. wp_step. apply wp_fwrite; [done|]. repeat wp_step. split; [done|]. split; [done|].
    exists shots, bytes, clean. split; [done|]. split; [done|]. split; [done|]. cbn [file set_file]. by rewrite Hbytes, <- app_assoc.
  - exists [], [], [], true. split; [done|]. split; [done|]. split; [constructor|]. split; [constructor|]. split; [constructor|]. by rewrite app_nil_r.
Qed.
End Record.

(** C3. A recording, read by giflib.  The movie ([movie_ok]) has from 8 to 256
    colours, a power of two, at most 768 rows, more than one pixel, less than
    2^31 bytes of pixels, and either no pixels or at least a hundred times as
    many as the quantiser skips; every frame ([frame_ok]) has enough pixels and a
    16-bit delay, and only opaque ones if there are less than 256 colours; there
    is a frame, the loop count is a 16-bit word, the encoder's arrays have their
    sizes ([encoder_ok]) and the reader's allocations succeed.  Then [init],
    [addFrame] for every frame and [close] succeed.  Every frame has become a
    shot: a palette, and for each pixel the number of a closest colour of it (254
    for 255), or 255 if the pixel is transparent.  The file is the opening, for
    each shot its control block, descriptor, palette and blocks of exactly the
    bytes of its pixels' codes ([shots_file], [image_payload]), and the
    terminator; [DGifOpen] accepts it.  If no shot's codes fill whole blocks of
    255 bytes ([all_clean], a function of the shots), [DGifSlurp] reads the file
    to its end and has every shot with its size, palette, pixels and delay, and
    the loop count; if some shot's do, there is a stray zero behind them and
    [DGifSlurp] fails. *)
Theorem recording_reads w h n q b (Hmovie : movie_ok w h n q b) loops fs g allocs s :
  encoder_ok g -> word16 loops -> Forall (frame_ok w h n) fs -> fs <> [] -> plenty allocs ->
  exists g' shots bytes gd r gd', recording w h n q loops fs g = (Returns (replicate (length fs) 0), g') /\ g'.(pGif) = false /\
    Forall2 (filmed w h n) fs shots /\ shots_file w h n b shots bytes (all_clean b shots) /\
    g'.(file) = opening w h b loops ++ bytes ++ [TERMINATOR_INTRODUCER] /\
    DGifOpen g'.(file) allocs s = (Returns gd, gd) /\ DGifSlurp gd = (r, gd') /\
    if all_clean b shots then
      r = Returns tt /\ gd'.(In) = [] /\
      contents gd' = (movie_header w h, (Z.of_nat (length fs), Some (images w h n b (loop_blocks loops) shots)), (0, None))
    else r = Fails.
Proof.
  intros Hg Hl Hok Hne Hal.
  destruct (wp_returns _ _ _ (wp_recording w h n q b Hmovie loops fs g (fun _ => False) Hg ltac:(unfold word16 in Hl; lia) Hok))
    as (? & g' & Hrec & -> & Hclosed & shots & bytes & clean & Hfilmed & Hshots & Hfile & Hwritten).
  pose proof (shots_file_clean _ _ _ _ _ _ _ Hfile) as ->. pose proof Hwritten as Hbytes. unfold opening in Hbytes. rewrite <- !app_assoc in Hbytes.
  pose proof (Forall2_length _ _ _ Hfilmed) as Hcount. assert (shots <> []) as Hne' by (intros ->; by destruct fs).
  destruct (wp_returns _ _ _ (wp_DGifOpen_back (movie_header w h) (movie_packed b) true (extension_bytes (netscape loops) ++ bytes ++ [TERMINATOR_INTRODUCER])
    allocs s (movie_header_ok w h n q b Hmovie) Hal)) as (gd & ? & Hopen & <- & Hrd).
  destruct (recorded_to_come w h n q b Hmovie loops shots bytes _ Hl Hshots Hne' Hfile) as (L & tail & k & Hk & Hcase).
  destruct (DGifSlurp gd) as [r gd'] eqn:Hslurp. exists g', shots, bytes, gd, r, gd'. do 5 (split; [done|]). rewrite Hbytes. do 2 (split; [done|]). destruct (all_clean b shots).
  - destruct Hcase as [-> ->]. assert (images w h n b (loop_blocks loops) shots <> []) as Hl0 by by destruct shots.
    pose proof (wp_DGifSlurp_back _ _ _ _ _ gd (fun _ => False) Hk Hl0 Hrd) as Hs. unfold wp in Hs. rewrite Hslurp in Hs.
    destruct r as [[]| |]; [|done|done]. destruct Hs as [_ _ _ Hh Him Hb Hin].
    split; [done|]. split; [done|]. unfold contents. rewrite Hh, Him, Hb, length_images, Hcount. by destruct shots.
  - destruct Hcase as [rest ->]. pose proof (wp_DGifSlurp_broken _ _ _ _ _ _ gd Hk Hrd) as Hs. unfold wp in Hs. rewrite Hslurp in Hs. by destruct r.
Qed.

(** ** Recordings *)

Definition demo_encoder : Gifflen := mkGifflen 0 0 0 (replicate 256 0) [] (replicate 768 0) 0 0 0 0 ([], []) blank_object false [].

(** Two frames of 3 by 2 opaque pixels. *)
Definition demo_frames : list frame :=
  [([0xff000000; 0xff101010; 0xffffffff; 0xff00ff00; 0xff0000ff; 0xffff0000], 10); (replicate 7 (-1), 300)].

Lemma demo_frames_ok : movie_ok 3 2 8 1 3 /\ Forall (frame_ok 3 2 8) demo_frames.
Proof.
  split; [split; try lia; [split; [lia|done]|by left]|]. repeat apply Forall_cons_2; try apply Forall_nil_2; split.
  all: try (right; repeat apply Forall_cons_2; try apply Forall_nil_2; vm_compute; discriminate).
  all: vm_compute; intuition discriminate.
Qed.

Lemma demo_encoder_ok : encoder_ok demo_encoder.
Proof. by split. Qed.

Lemma recording_reads_witness :
  exists g' shots bytes gd r gd', recording 3 2 8 1 7 demo_frames demo_encoder = (Returns [0; 0], g') /\ g'.(pGif) = false /\
    Forall2 (filmed 3 2 8) demo_frames shots /\ shots_file 3 2 8 3 shots bytes (all_clean 3 shots) /\
    g'.(file) = opening 3 2 3 7 ++ bytes ++ [TERMINATOR_INTRODUCER] /\
    DGifOpen g'.(file) [] (fresh_gif [] []) = (Returns gd, gd) /\ DGifSlurp gd = (r, gd') /\
    if all_clean 3 shots then
      r = Returns tt /\ gd'.(In) = [] /\
      contents gd' = (movie_header 3 2, (2, Some (images 3 2 8 3 (loop_blocks 7) shots)), (0, None))
    else r = Fails.
Proof.
  destruct demo_frames_ok as [Hmovie Hframes].
  apply (recording_reads 3 2 8 1 3 Hmovie 7 demo_frames demo_encoder [] (fresh_gif [] [])).
  - exact demo_encoder_ok.
  - unfold word16. lia.
  - exact Hframes.
  - discriminate.
  - constructor.
Defined.

Lemma gifflen_image_decodes_witness :
  let g := set_file true [7] demo_encoder in let px := [1; 2; 3; 4; 5; 6] in
  exists g' payload encoded, GIF_LZW_compressor 3 2 px 8 false g = (Returns 1, g') /\ working g' /\
    framed payload encoded /\ image_payload 3 px payload /\ g'.(file) = [7] ++ (3 :: encoded) ++ image_end payload /\
    forall lines gd rest, concat lines = px -> Forall (fun l => l <> []) lines -> ready_to_read (3 * 2) gd -> gd.(In) = (3 :: encoded) ++ rest ->
      exists gd', read_image ((fun l => Z.of_nat (length l)) <$> lines) gd = (Returns lines, gd') /\ gd'.(In) = rest.
Proof.
  apply (gifflen_image_decodes 3 2 8 3 [1; 2; 3; 4; 5; 6] (set_file true [7] demo_encoder)).
  - split; try lia; try reflexivity. repeat apply Forall_cons_2; try apply Forall_nil_2; lia.
  - split; [split; reflexivity|reflexivity].
Defined.
