(* ===== verification/GifflenLimits.v ===== *)
(** * libframesequence: the limits of Gifflen

    The compressor writes past [rasters] for an image of more rows than the
    array has ([tall_image_overflows]), the last bits of an image of few colours
    are not written ([last_bits_lost]), a full last block is followed by two
    zeros ([full_block_two_zeros]), and transparent pixels need 256 colours
    ([transparent_garbled]). *)

From stdpp Require Import base numbers list list_numbers.
From Stdlib Require Import Lia ZArith.
From S2P Require Import Prelude GifTypes GifAlloc GifDecode GifSafety GifBlocks Lzw GifCompress GifDecompress GifLines GifImages GifReadBack NeuQuant Gifflen GifflenCode GifflenImage GifflenDecode GifflenFile GifflenRecord.

#[local] Open Scope Z_scope.
#[local] Open Scope c_scope.

Lemma rasters_overflow n : forall k g, Z.of_nat (length g.(rasters)) = k + Z.of_nat n -> 0 <= k -> forall ydim, k + Z.of_nat n < ydim ->
  fst (foldM add_raster (seqZ k (ydim - k)) k g) = Stuck.
Proof.
  induction n as [|n IH]; intros k g Hl Hk ydim Hy; rewrite seqZ_cons by lia; cbn [foldM].
  - apply stuck_bind. unfold add_raster. apply (stuck_bind_later _ _ (fun r s => r = g.(rasters) /\ s = g)); [by apply wp_gets|]. intros ? ? [-> ->].
    apply stuck_bind. unfold aset. rewrite decide_False by lia. done.
  - apply (stuck_bind_later _ _ (fun k' s => k' = k + 1 /\ length s.(rasters) = length g.(rasters))).
    + unfold add_raster. do 2 wp_step. destruct (aset_exists g.(rasters) k k) as (r' & Hr' & Hl'); [lia|]. wp_step. apply wp_of_option with (1 := Hr'). do 2 wp_step. wp_step. done.
    + intros ? s [-> Hs]. replace (Z.pred (ydim - k)) with (ydim - (k + 1)) by lia. rewrite <- Z.add_1_r. apply IH; [rewrite Hs|..]; lia.
Qed.

(** [rasters] has 768 entries and nothing compares the height with it: the
    compressor writes past the array for every image of more rows, of 8 to 256
    colours and of any width and pixels. *)
Theorem tall_image_overflows w h px n g : working g -> 768 < h -> 3 <= max_bits n <= 8 -> fst (GIF_LZW_compressor w h px n false g) = Stuck.
Proof.
  intros [[Ho HL] Hr] Hh Hb. unfold GIF_LZW_compressor. set (g0 := set_hashtree empty_tree (set_LZW 1 g.(LZW) (set_bits 0 0 g))).
  do 3 (eapply (stuck_bind_later _ _ (fun _ s => s = _)); [by apply wp_modify|]; intros ? ? ->).
  apply (stuck_bind_later _ _ (fun o s => o = true /\ s = g0)); [by apply wp_gets|]. intros ? ? [-> ->]. cbn [negb].
  set (b := max_bits n) in *. rewrite (first_codes_spec b b) by lia. pose proof (gifflen_clear_range b b ltac:(lia) ltac:(lia)) as Hcl.
  rewrite u8_small by lia. replace (b + 1 - 1) with b by lia. pose proof (packed_start g b Ho HL) as Hp. fold g0 in Hp.
  apply (stuck_bind_later _ _ (fun _ s => s = set_file true (g.(file) ++ [b]) g0)); [by apply wp_fwrite|]. intros ? ? ->.
  apply (stuck_bind_later _ _ (fun _ s => s.(rasters) = g.(rasters))).
  { apply (wp_write_code (g.(file) ++ [b]) []); [done|cbn; lia|split; cbn; [rewrite Z.pow_add_r by lia; lia|lia]|].
    intros g2 _ _ Ho2 _. by destruct (only_out_fields _ _ Ho2) as (_ & -> & _). }
  intros ? g2 Hr2. apply stuck_bind. unfold raster_rows. rewrite counted_rows_all by lia.
  pose proof (rasters_overflow 768 0 g2 ltac:(rewrite Hr2, Hr; done) ltac:(lia) h ltac:(lia)) as Hs. by rewrite Z.sub_0_r in Hs.
Qed.

(** 255 bytes of codes fill a block; the next one is empty, and its length and the
    terminator are two zeros. *)
Example full_block_two_zeros :
  let '(r, g) := GIF_LZW_compressor 224 1 (seqZ 0 224) 256 false (set_file true [] demo_encoder) in
  r = Returns 1 /\ length g.(file) = 259%nat /\ drop 257 g.(file) = [0; 0].
Proof. vm_compute. split_and!; reflexivity. Qed.

(** With two bits a pixel the last bits of the codes can stay in the encoder:
    [write_code] of the last bits does not fill the byte.  The image data of two
    pixels of four colours are refused. *)
Example last_bits_lost :
  let '(_, g) := recording 2 1 4 1 0 [([0xff404040; 0xff808080], 0)] demo_encoder in
  match DGifOpen g.(file) [] (fresh_gif [] []) with (Returns gd, _) => (DGifSlurp gd).1 = Fails | _ => False end.
Proof. vm_compute. reflexivity. Qed.

(** A transparent pixel has the index 255, which eight colours do not have: the
    codes are those of other pixels. *)
Example transparent_garbled :
  let '(_, g) := recording 3 2 8 1 0 [([0xff404040; 0xff808080; 0; 0xff808080; 0; 0xff202020], 0)] demo_encoder in
  match DGifOpen g.(file) [] (fresh_gif [] []) with
  | (Returns gd, _) => let '(r, gd) := DGifSlurp gd in r = Returns tt /\ (RasterBits <$> default [] gd.(SavedImages)) = [Some [2; 4; 4; 2; 2; 4]]
  | _ => False
  end.
Proof. vm_compute. split; reflexivity. Qed.

Lemma tall_image_overflows_witness : fst (GIF_LZW_compressor 1 769 (replicate 769 0) 256 false (set_file true [] demo_encoder)) = Stuck.
Proof.
  apply (tall_image_overflows 1 769 (replicate 769 0) 256 (set_file true [] demo_encoder)).
  - split; [split; reflexivity|reflexivity].
  - lia.
  - vm_compute. intuition discriminate.
Defined.
