(* ===== verification/Relocate.v ===== *)
(** * libmemcheck: relocation of instructions (inlineHook/relocate.c)

    The instructions an inline hook overwrites are moved to a trampoline.  Each
    routine of relocate.c that stores [trampoline_instructions[0 .. offset-1]]
    and returns [offset] is a function to the list of the stored half-words
    (words in ARM state).  A literal load reads the memory of the process:
    [load a] is the word at [a], [None] if nothing is mapped there.  The
    arrays of instruction boundaries and their [count] are the state of the
    two loops. *)

From stdpp Require Import base numbers list.
From Stdlib Require Import Lia ZArith.
From S2P Require Import Prelude.

#[local] Open Scope Z_scope.
#[local] Open Scope c_scope.

Definition ALIGN_PC (pc : Z) : Z := Z.land pc 0xFFFFFFFC.

Inductive INSTRUCTION_TYPE : Type :=
| B1_THUMB16 | B2_THUMB16 | BX_THUMB16 | ADD_THUMB16 | MOV_THUMB16 | ADR_THUMB16 | LDR_THUMB16 | CB_THUMB16
| BLX_THUMB32 | BL_THUMB32 | B1_THUMB32 | B2_THUMB32 | ADR1_THUMB32 | ADR2_THUMB32 | LDR_THUMB32
| TBB_THUMB32 | TBH_THUMB32
| BLX_ARM | BL_ARM | B_ARM | BX_ARM | ADD_ARM | ADR1_ARM | ADR2_ARM | MOV_ARM | LDR_ARM
| UNDEFINE.

#[export] Instance INSTRUCTION_TYPE_eq_dec : EqDecision INSTRUCTION_TYPE.
Proof. solve_decision. Defined.

(** [(instruction & mask) == bits] *)
Definition matches (instruction mask bits : Z) : bool := Z.land instruction mask =? bits.

Definition getTypeInThumb16 (instruction : Z) : INSTRUCTION_TYPE :=
  if matches instruction 0xF000 0xD000 then B1_THUMB16
  else if matches instruction 0xF800 0xE000 then B2_THUMB16
  else if matches instruction 0xFFF8 0x4778 then BX_THUMB16
  else if matches instruction 0xFF78 0x4478 then ADD_THUMB16
  else if matches instruction 0xFF78 0x4678 then MOV_THUMB16
  else if matches instruction 0xF800 0xA000 then ADR_THUMB16
  else if matches instruction 0xF800 0x4800 then LDR_THUMB16
  else if matches instruction 0xF500 0xB100 then CB_THUMB16
  else UNDEFINE.

Definition getTypeInThumb32 (instruction : Z) : INSTRUCTION_TYPE :=
  if matches instruction 0xF800D000 0xF000C000 then BLX_THUMB32
  else if matches instruction 0xF800D000 0xF000D000 then BL_THUMB32
  else if matches instruction 0xF800D000 0xF0008000 then B1_THUMB32
  else if matches instruction 0xF800D000 0xF0009000 then B2_THUMB32
  else if matches instruction 0xFBFF8000 0xF2AF0000 then ADR1_THUMB32
  else if matches instruction 0xFBFF8000 0xF20F0000 then ADR2_THUMB32
  else if matches instruction 0xFF7F0000 0xF85F0000 then LDR_THUMB32
  else if matches instruction 0xFFFF00F0 0xE8DF0000 then TBB_THUMB32
  else if matches instruction 0xFFFF00F0 0xE8DF0010 then TBH_THUMB32
  else UNDEFINE.

Definition getTypeInArm (instruction : Z) : INSTRUCTION_TYPE :=
  if matches instruction 0xFE000000 0xFA000000 then BLX_ARM
  else if matches instruction 0xF000000 0xB000000 then BL_ARM
  else if matches instruction 0xF000000 0xA000000 then B_ARM
  else if matches instruction 0xFF000FF 0x120001F then BX_ARM
  else if matches instruction 0xFEF0010 0x8F0000 then ADD_ARM
  else if matches instruction 0xFFF0000 0x28F0000 then ADR1_ARM
  else if matches instruction 0xFFF0000 0x24F0000 then ADR2_ARM
  else if matches instruction 0xE5F0000 0x41F0000 then LDR_ARM
  else if matches instruction 0xFE00FFF 0x1A0000F then MOV_ARM
  else UNDEFINE.

(** [for (r = first; ; --r) if (r != ...) break;]: the first register at or
    below [first] that is not to be avoided. *)
Fixpoint pick_register (avoid : list Z) (n : nat) (r : Z) : Z :=
  match n with
  | O => r
  | S n => if bool_decide (r ∈ avoid) then pick_register avoid n (r - 1) else r
  end.

(** The two halves of a literal. *)
Definition literal (value : Z) : list Z := [Z.land value 0xFFFF; Z.shiftr value 16].

(** [x] with the bits from [n] on set when [top] is: [top ? (x | (0xFFFFFFFF << n)) : x] *)
Definition sign_fill (top x n : Z) : Z :=
  if negb (top =? 0) then Z.lor x (u32 (Z.shiftl 0xFFFFFFFF n)) else x.

Definition LDR_W_PC : list Z := [0xF8DF; 0xF000].

(** The last line of the assignment to [value] in the [ADR] case is
    [ALIGN_PC(pc) + (instruction & 0xFF) << 2], which C reads as
    [(ALIGN_PC(pc) + (instruction & 0xFF)) << 2]. *)
Definition relocateInstructionInThumb16 (load : Z -> option Z) (pc instruction : Z) : option (list Z) :=
  match getTypeInThumb16 instruction with
  | B1_THUMB16 =>
      let x := Z.shiftl (Z.land instruction 0xFF) 1 in
      let value := u32 (pc + sign_fill (Z.shiftr x 8) x 8) in
      Some ([Z.land instruction 0xFF00; 0xE003] ++ LDR_W_PC ++ literal value)
  | B2_THUMB16 =>
      let x := Z.shiftl (Z.land instruction 0x7FF) 1 in
      let value := u32 (pc + sign_fill (Z.shiftr x 11) x 11) in
      Some (LDR_W_PC ++ literal value)
  | BX_THUMB16 => Some (LDR_W_PC ++ literal pc)
  | ADD_THUMB16 =>
      let rdn := Z.lor (Z.shiftr (Z.land instruction 0x80) 4) (Z.land instruction 0x7) in
      let r := pick_register [rdn] 8 7 in
      Some ([Z.lor 0xB400 (Z.shiftl 1 r); Z.lor 0x4802 (Z.shiftl r 8);
             Z.lor (Z.land instruction 0xFF87) (Z.shiftl r 3); Z.lor 0xBC00 (Z.shiftl 1 r);
             0xE002; 0xBF00] ++ literal pc)
  | MOV_THUMB16 =>
      let r := Z.land instruction 0x7 in
      Some ([Z.lor 0x4800 (Z.shiftl r 8); 0xE001] ++ literal pc)
  | ADR_THUMB16 =>
      let r := Z.shiftr (Z.land instruction 0x700) 8 in
      let value := u32 (Z.shiftl (ALIGN_PC pc + Z.land instruction 0xFF) 2) in
      Some ([Z.lor 0x4800 (Z.shiftl r 8); 0xE001] ++ literal value)
  | LDR_THUMB16 =>
      let r := Z.shiftr (Z.land instruction 0x700) 8 in
      match load (u32 (ALIGN_PC pc + Z.shiftl (Z.land instruction 0xFF) 2)) with
      | None => None
      | Some value => Some ([Z.lor 0x4800 (Z.shiftl r 8); 0xE001] ++ literal value)
      end
  | CB_THUMB16 =>
      let imm32 := Z.lor (Z.shiftr (Z.land instruction 0x200) 3) (Z.shiftr (Z.land instruction 0xF8) 2) in
      let value := u32 (pc + imm32 + 1) in
      Some ([Z.land instruction 0xFD07; 0xE003] ++ LDR_W_PC ++ literal value)
  | _ => Some [instruction; 0xBF00]
  end.

(** The branch offsets of a 32-bit Thumb instruction. *)
Definition wide_offset (high_instruction low_instruction low_mask : Z) : Z :=
  let j1 := Z.shiftr (Z.land low_instruction 0x2000) 13 in
  let j2 := Z.shiftr (Z.land low_instruction 0x800) 11 in
  let s := Z.shiftr (Z.land high_instruction 0x400) 10 in
  let i1 := if Z.lxor j1 s =? 0 then 1 else 0 in
  let i2 := if Z.lxor j2 s =? 0 then 1 else 0 in
  let x := Z.lor (Z.lor (Z.lor (Z.lor (Z.shiftl s 24) (Z.shiftl i1 23)) (Z.shiftl i2 22))
                   (Z.shiftl (Z.land high_instruction 0x3FF) 12))
             (Z.shiftl (Z.land low_instruction low_mask) 1) in
  sign_fill s x 25.

Definition conditional_offset (high_instruction low_instruction : Z) : Z :=
  let j1 := Z.shiftr (Z.land low_instruction 0x2000) 13 in
  let j2 := Z.shiftr (Z.land low_instruction 0x800) 11 in
  let s := Z.shiftr (Z.land high_instruction 0x400) 10 in
  let x := Z.lor (Z.lor (Z.lor (Z.lor (Z.shiftl s 20) (Z.shiftl j2 19)) (Z.shiftl j1 18))
                   (Z.shiftl (Z.land high_instruction 0x3F) 12))
             (Z.shiftl (Z.land low_instruction 0x7FF) 1) in
  sign_fill s x 21.

Definition ADD_W_LR_PC : list Z := [0xF20F; 0x0E09].

(** [LDR Rr, [PC]; B PC, #2] and the literal; the stores narrow to 16 bits. *)
Definition load_literal16 (r value : Z) : list Z :=
  [u16 (Z.lor 0x4800 (Z.shiftl r 8)); 0xE001] ++ literal value.

(** The immediate of the [ADR] cases, with the shifts of the source. *)
Definition adr_imm32 (high_instruction low_instruction : Z) : Z :=
  let i := Z.shiftr (Z.land high_instruction 0x400) 10 in
  let imm3 := Z.shiftr (Z.land low_instruction 0x7000) 12 in
  let imm8 := Z.land low_instruction 0xFF in
  Z.lor (Z.lor (u32 (Z.shiftl i 31)) (u32 (Z.shiftl imm3 30))) (u32 (Z.shiftl imm8 27)).

(** The sequence for a table branch. *)
Definition table_branch (pc low_instruction : Z) (half_words : bool) : list Z :=
  let rm := Z.land low_instruction 0xF in
  let r := pick_register [rm] 8 7 in
  let rx := pick_register [rm; r] 8 7 in
  [Z.lor 0xB400 (Z.shiftl 1 rx);
   Z.lor 0x4805 (Z.shiftl r 8);
   Z.lor (Z.lor 0x4600 (Z.shiftl rm 3)) rx;
   Z.lor 0xEB00 r;
   Z.lor (Z.lor (if half_words then 0x0040 else 0x0000) (Z.shiftl rx 8)) rx;
   Z.lor (Z.lor (if half_words then 0x8800 else 0x7800) (Z.shiftl rx 3)) rx;
   Z.lor 0xEB00 r;
   Z.lor (Z.lor 0x0040 (Z.shiftl r 8)) rx;
   Z.lor 0x3001 (Z.shiftl r 8);
   Z.lor 0xBC00 (Z.shiftl 1 rx);
   Z.lor 0x4700 (Z.shiftl r 3);
   0xBF00] ++ literal pc.

Definition relocateInstructionInThumb32 (load : Z -> option Z) (pc high_instruction low_instruction : Z) :
    option (list Z) :=
  let instruction := Z.lor (u32 (Z.shiftl high_instruction 16)) low_instruction in
  match getTypeInThumb32 instruction with
  | BLX_THUMB32 =>
      let value := u32 (pc + wide_offset high_instruction low_instruction 0x7FE) in
      Some (ADD_W_LR_PC ++ LDR_W_PC ++ literal value)
  | BL_THUMB32 =>
      let value := u32 (pc + wide_offset high_instruction low_instruction 0x7FF + 1) in
      Some (ADD_W_LR_PC ++ LDR_W_PC ++ literal value)
  | B1_THUMB32 =>
      let value := u32 (pc + conditional_offset high_instruction low_instruction + 1) in
      Some ([Z.lor 0xD000 (Z.shiftl (Z.land high_instruction 0x3C0) 2); 0xE003] ++ LDR_W_PC ++ literal value)
  | B2_THUMB32 =>
      let value := u32 (pc + wide_offset high_instruction low_instruction 0x7FF + 1) in
      Some (LDR_W_PC ++ literal value)
  | ADR1_THUMB32 =>
      let r := Z.shiftr (Z.land low_instruction 0xF00) 8 in
      Some (load_literal16 r (u32 (ALIGN_PC pc + adr_imm32 high_instruction low_instruction)))
  | ADR2_THUMB32 =>
      let r := Z.shiftr (Z.land low_instruction 0xF00) 8 in
      Some (load_literal16 r (u32 (ALIGN_PC pc - adr_imm32 high_instruction low_instruction)))
  | LDR_THUMB32 =>
      let is_add := Z.shiftr (Z.land high_instruction 0x80) 7 in
      let r := Z.shiftr low_instruction 12 in
      let imm32 := Z.land low_instruction 0xFFF in
      let addr := u32 (if negb (is_add =? 0) then ALIGN_PC pc + imm32 else ALIGN_PC pc - imm32) in
      match load addr with
      | None => None
      | Some value => Some (load_literal16 r value)
      end
  | TBB_THUMB32 => Some (table_branch pc low_instruction false)
  | TBH_THUMB32 => Some (table_branch pc low_instruction true)
  | _ => Some [high_instruction; low_instruction]
  end.

(** What the ARM loop stores for one instruction. *)
Definition relocate_arm (load : Z -> option Z) (pc instruction : Z) : option (list Z) :=
  let type := getTypeInArm instruction in
  let load_literal r value := [Z.lor 0xE51F0000 (Z.shiftl r 12); 0xE28FF000; value] in
  let rd := Z.shiftr (Z.land instruction 0xF000) 12 in
  match type with
  | BLX_ARM | BL_ARM | B_ARM | BX_ARM =>
      let x :=
        match type with
        | BLX_ARM => Z.lor (Z.shiftl (Z.land instruction 0xFFFFFF) 2)
                       (Z.shiftr (Z.land instruction 0x1000000) 23)
        | BL_ARM | B_ARM => Z.shiftl (Z.land instruction 0xFFFFFF) 2
        | _ => 0
        end in
      let imm32 := sign_fill (Z.shiftr x 25) x 26 in
      let value := match type with BLX_ARM => u32 (pc + imm32 + 1) | _ => u32 (pc + imm32) end in
      Some ((match type with BLX_ARM | BL_ARM => [0xE28FE004] | _ => [] end) ++ [0xE51FF004; value])
  | ADD_ARM =>
      let rm := Z.land instruction 0xF in
      let r := pick_register [rd; rm] 13 12 in
      Some [Z.lor 0xE52D0004 (Z.shiftl r 12); Z.lor 0xE59F0008 (Z.shiftl r 12);
            Z.lor (Z.land instruction 0xFFF0FFFF) (Z.shiftl r 16); Z.lor 0xE49D0004 (Z.shiftl r 12);
            0xE28FF000; pc]
  | ADR1_ARM => Some (load_literal rd (u32 (pc + Z.land instruction 0xFFF)))
  | ADR2_ARM => Some (load_literal rd (u32 (pc - Z.land instruction 0xFFF)))
  | LDR_ARM =>
      let imm32 := Z.land instruction 0xFFF in
      let is_add := Z.shiftr (Z.land instruction 0x800000) 23 in
      match load (u32 (if negb (is_add =? 0) then pc + imm32 else pc - imm32)) with
      | None => None
      | Some value => Some (load_literal rd value)
      end
  | MOV_ARM => Some (load_literal rd pc)
  | _ => Some [instruction]
  end.

(** ** The loops *)

(** [orig_boundaries], [trampoline_boundaries] and [*count] of a hook item. *)
Record boundaries : Type := mkBoundaries {
  orig_boundaries : list Z;
  trampoline_boundaries : list Z;
  count : Z
}.

(** The three statements at the head of both loops. *)
Definition add_boundary (orig trampoline : Z) : M boundaries unit :=
  let! b := gets (fun b => b) in
  let! os := of_option (aset b.(orig_boundaries) b.(count) orig) in
  let! ts := of_option (aset b.(trampoline_boundaries) b.(count) trampoline) in
  modify (fun _ => mkBoundaries os ts (b.(count) + 1)).

(** One round of the Thumb loop; the locals are [orig_pos], the half-words of
    the trampoline so far and [pc]. *)
Definition thumb_round (load : Z -> option Z) (orig_instructions : list Z) (length_ : Z) (st : Z * list Z * Z) :
    M boundaries (Z * list Z * Z + Z * list Z * Z) :=
  let '(orig_pos, out, pc) := st in
  let next st : M boundaries (Z * list Z * Z + Z * list Z * Z) :=
    ret (if Z.quot length_ 2 <=? fst (fst st) then inr st else inl st) in
  add_boundary (orig_pos * 2) (Z.of_nat (length out) * 2) ;;!
  let! w := of_option (aget orig_instructions orig_pos) in
  if (0x1D <=? Z.shiftr w 11) && (Z.shiftr w 11 <=? 0x1F) then
    if Z.quot length_ 2 <? orig_pos + 2 then ret (inr st)
    else
      let! low := of_option (aget orig_instructions (orig_pos + 1)) in
      let! t := of_option (relocateInstructionInThumb32 load pc w low) in
      next (orig_pos + 2, out ++ t, u32 (pc + 4))
  else
    let! t := of_option (relocateInstructionInThumb16 load pc w) in
    next (orig_pos + 1, out ++ t, u32 (pc + 2)).

Definition relocateInstructionInThumb (load : Z -> option Z) (target_addr : Z) (orig_instructions : list Z)
    (length_ : Z) : M boundaries (list Z) :=
  let! ' (orig_pos, out, _) :=
    loop (S (Z.to_nat length_)) (thumb_round load orig_instructions length_) (0, [], u32 (target_addr + 4)) in
  let lr := u32 (target_addr + orig_pos * 2 + 1) in
  ret (out ++ LDR_W_PC ++ literal lr).

Definition arm_round (load : Z -> option Z) (orig_instructions : list Z) (st : list Z * Z) (orig_pos : Z) :
    M boundaries (list Z * Z) :=
  let '(out, pc) := st in
  add_boundary (orig_pos * 4) (Z.of_nat (length out) * 4) ;;!
  let! instruction := of_option (aget orig_instructions orig_pos) in
  let! t := of_option (relocate_arm load pc instruction) in
  ret (out ++ t, u32 (pc + 4)).

Definition relocateInstructionInArm (load : Z -> option Z) (target_addr : Z) (orig_instructions : list Z)
    (length_ : Z) : M boundaries (list Z) :=
  let lr := u32 (target_addr + length_) in
  let! ' (out, _) :=
    foldM (arm_round load orig_instructions) (seqZ 0 (Z.quot length_ 4)) ([], u32 (target_addr + 8)) in
  ret (out ++ [0xe51ff004; lr]).

(** The original instructions as half-words and as words, little-endian. *)
Fixpoint half_words (bytes : list Z) : list Z :=
  match bytes with
  | b0 :: b1 :: bytes => (b0 + 256 * b1) :: half_words bytes
  | _ => []
  end.

Fixpoint words (bytes : list Z) : list Z :=
  match bytes with
  | b0 :: b1 :: b2 :: b3 :: bytes => (b0 + 256 * b1 + 65536 * b2 + 16777216 * b3) :: words bytes
  | _ => []
  end.

Definition half_word_bytes (w : Z) : list Z := [w mod 256; w / 256 mod 256].
Definition word_bytes (w : Z) : list Z := [w mod 256; w / 256 mod 256; w / 65536 mod 256; w / 16777216 mod 256].

(** [relocateInstruction]: from the original bytes to the bytes stored at
    [trampoline_instructions]; [target_addr & 1 == 1] is [target_addr & (1 == 1)]. *)
Definition relocateInstruction (load : Z -> option Z) (target_addr : Z) (orig_instructions : list Z)
    (length_ : Z) : M boundaries (list Z) :=
  if test target_addr 1 then
    let! out := relocateInstructionInThumb load (target_addr - 1) (half_words orig_instructions) length_ in
    ret (concat (half_word_bytes <$> out))
  else
    let! out := relocateInstructionInArm load target_addr (words orig_instructions) length_ in
    ret (concat (word_bytes <$> out)).
