(* ===== verification/ArmExec.v ===== *)
(** * libmemcheck: what the relocated ARM instructions do

    A specification of the ARM-state instructions that relocate.c emits or
    replaces, after the ARM Architecture Reference Manual (A8.8): branches,
    [BX], word loads and stores with an immediate offset, [ADD]/[SUB]
    immediate, [MOV] and [ADD] register.  Executing the trampoline of an
    instruction does what the instruction did in its old place. *)

From stdpp Require Import base numbers list.
From Stdlib Require Import Lia ZArith.
From S2P Require Import Prelude Relocate.

#[local] Open Scope Z_scope.

(** ** The machine *)

(** Registers 0 to 14, the flags, and the words of the memory; [pc] is the
    address of the instruction that is executed. *)
Record cpu : Type := mkCpu {
  reg : Z -> Z;
  pc : Z;
  flags : Z;
  mem : Z -> option Z
}.

Definition set_reg (n v : Z) (s : cpu) : cpu :=
  mkCpu (fun k => if k =? n then v else s.(reg) k) s.(pc) s.(flags) s.(mem).
Definition set_pc (v : Z) (s : cpu) : cpu := mkCpu s.(reg) v s.(flags) s.(mem).
Definition set_flags (v : Z) (s : cpu) : cpu := mkCpu s.(reg) s.(pc) v s.(mem).
Definition set_mem (a v : Z) (s : cpu) : cpu :=
  mkCpu s.(reg) s.(pc) s.(flags) (fun k => if k =? a then Some v else s.(mem) k).

(** Reading register 15 gives the address of the instruction plus 8. *)
Definition read_reg (s : cpu) (n : Z) : Z := if n =? 15 then u32 (s.(pc) + 8) else s.(reg) n.

(** The value goes to a register, or is branched to. *)
Definition write_reg (n v : Z) (s : cpu) : cpu * option Z :=
  if n =? 15 then (s, Some v) else (set_reg n v s, None).

Definition field (i lo width : Z) : Z := Z.land (Z.shiftr i lo) (Z.ones width).

(** A signed field of [width] bits. *)
Definition signed (v width : Z) : Z := if v <? 2 ^ (width - 1) then v else v - 2 ^ width.

Definition branch_offset (i : Z) : Z := 4 * signed (field i 0 24) 24.

(** [ARMExpandImm]: 8 bits rotated right by twice the rotation. *)
Definition rotated (i : Z) : Z :=
  let n := 2 * field i 8 4 in
  let v := field i 0 8 in
  Z.lor (Z.shiftr v n) (u32 (Z.shiftl v (32 - n))).

Section Exec.
(** Whether a condition holds of the flags, and the shifter and adder of
    [ADD] register: from the instruction (without its [Rn] field), the values
    of [Rn] and [Rm] and the flags to the result and the flags. *)
Context (passed : Z -> Z -> bool) (add_op : Z -> Z -> Z -> Z -> Z * Z).
Context (always : forall f, passed 14 f = true).

Definition without_rn (i : Z) : Z := Z.land i 0xFFF0FFFF.

(** One instruction: the state after it, and where it branches to. *)
Definition exec (i : Z) (s : cpu) : option (cpu * option Z) :=
  let rn := field i 16 4 in
  let rd := field i 12 4 in
  let rm := field i 0 4 in
  let imm12 := field i 0 12 in
  let indexed := u32 (if negb (field i 23 1 =? 0) then read_reg s rn + imm12 else read_reg s rn - imm12) in
  if matches i 0xFE000000 0xFA000000 then
    (* BLX <label>: to Thumb state *)
    Some (set_reg 14 (u32 (s.(pc) + 4)) s,
          Some (u32 (s.(pc) + 8 + branch_offset i + 2 * field i 24 1 + 1)))
  else if negb (passed (field i 28 4) s.(flags)) then Some (s, None)
  else if matches i 0x0F000000 0x0B000000 then
    Some (set_reg 14 (u32 (s.(pc) + 4)) s, Some (u32 (s.(pc) + 8 + branch_offset i)))
  else if matches i 0x0F000000 0x0A000000 then
    Some (s, Some (u32 (s.(pc) + 8 + branch_offset i)))
  else if matches i 0x0FF000F0 0x01200010 then Some (s, Some (read_reg s rm))
  else if matches i 0x0F700000 0x05100000 then
    (* LDR Rd, [Rn, #+/-imm12] *)
    match s.(mem) indexed with None => None | Some v => Some (write_reg rd v s) end
  else if matches i 0x0F700000 0x05200000 then
    (* STR Rd, [Rn, #+/-imm12]! *)
    match s.(mem) indexed with
    | None => None
    | Some _ => Some (set_reg rn indexed (set_mem indexed (read_reg s rd) s), None)
    end
  else if matches i 0x0F700000 0x04100000 then
    (* LDR Rd, [Rn], #+/-imm12 *)
    match s.(mem) (read_reg s rn) with
    | None => None
    | Some v => Some (write_reg rd v (set_reg rn indexed s))
    end
  else if matches i 0x0FF00000 0x02800000 then Some (write_reg rd (u32 (read_reg s rn + rotated i)) s)
  else if matches i 0x0FF00000 0x02400000 then Some (write_reg rd (u32 (read_reg s rn - rotated i)) s)
  else if matches i 0x0FF00FF0 0x01A00000 then Some (write_reg rd (read_reg s rm) s)
  else if matches i 0x0FE00010 0x00800000 then
    let '(v, f) := add_op (without_rn i) (read_reg s rn) (read_reg s rm) s.(flags) in
    Some (write_reg rd v (set_flags f s))
  else None.

Definition step (s : cpu) : option cpu :=
  match s.(mem) s.(pc) with
  | None => None
  | Some i =>
      match exec i s with
      | None => None
      | Some (s', Some target) => Some (set_pc target s')
      | Some (s', None) => Some (set_pc (u32 (s'.(pc) + 4)) s')
      end
  end.

Fixpoint run (n : nat) (s : cpu) : option cpu :=
  match n with
  | O => Some s
  | S n => match step s with None => None | Some s' => run n s' end
  end.

(** The words [t] are in memory at [a]. *)
Definition stored (t : list Z) (a : Z) (m : Z -> option Z) : Prop :=
  forall k w, t !! k = Some w -> m (a + 4 * Z.of_nat k) = Some w.
End Exec.

(** ** Masks and fields *)

Lemma matches_sub i M B m : matches i M B = true -> Z.land M m = m -> Z.land i m = Z.land B m.
Proof. intros H%Z.eqb_eq Hm. rewrite <- Hm at 1. by rewrite Z.land_assoc, H. Qed.

(** An instruction that matches one pattern does not match a conflicting one. *)
Lemma matches_conflict i M B m b :
  matches i M B = true -> (Z.land B (Z.land M m) =? Z.land b M) = false -> matches i m b = false.
Proof.
  intros H%Z.eqb_eq Hne. apply Z.eqb_neq in Hne. unfold matches. apply Z.eqb_neq. intros E. apply Hne.
  rewrite <- E, <- H. rewrite <- !Z.land_assoc. f_equal.
  rewrite (Z.land_comm m M), Z.land_assoc, Z.land_diag. done.
Qed.

Lemma matches_implied i M B m b :
  matches i M B = true -> Z.land M m = m -> Z.land B m = b -> matches i m b = true.
Proof. intros H Hm Hb. apply Z.eqb_eq. by rewrite (matches_sub _ _ _ _ H Hm). Qed.

Lemma field_land i lo width : 0 <= lo -> 0 <= width ->
  field i lo width = Z.shiftr (Z.land i (Z.shiftl (Z.ones width) lo)) lo.
Proof.
  intros Hl Hw. unfold field. rewrite Z.shiftr_land. f_equal. rewrite Z.shiftr_shiftl_l by done.
  by rewrite Z.sub_diag, Z.shiftl_0_r.
Qed.

Lemma field_range i lo width : 0 <= lo -> 0 <= width -> 0 <= field i lo width < 2 ^ width.
Proof. intros Hl Hw. unfold field. rewrite Z.land_ones by done. apply Z.mod_pos_bound. by apply Z.pow_pos_nonneg. Qed.

(** A field that lies within a matched pattern. *)
Lemma field_known i M B lo width :
  matches i M B = true -> 0 <= lo -> 0 <= width -> Z.land M (Z.shiftl (Z.ones width) lo) = Z.shiftl (Z.ones width) lo ->
  field i lo width = field B lo width.
Proof. intros H Hl Hw Hm. rewrite !field_land by done. by rewrite (matches_sub _ _ _ _ H Hm). Qed.

(** A field that other bits are or-ed to. *)
Lemma sign_fill_spec top x n : 0 <= n <= 32 -> 0 <= x < 2 ^ n ->
  sign_fill top x n = if top =? 0 then x else x + (2 ^ 32 - 2 ^ n).
Proof.
  intros Hn Hx. unfold sign_fill. destruct (top =? 0); [done|]. cbn [negb].
  assert (u32 (Z.shiftl 0xFFFFFFFF n) = Z.shiftl (2 ^ (32 - n) - 1) n) as ->.
  { rewrite !Z.shiftl_mul_pow2 by lia. unfold u32. change 4294967296 with (2 ^ 32).
    assert (2 ^ 32 = 2 ^ (32 - n) * 2 ^ n) as Hp by (rewrite <- Z.pow_add_r by lia; f_equal; lia).
    pose proof (Z.pow_pos_nonneg 2 n ltac:(lia) ltac:(lia)).
    pose proof (Z.pow_pos_nonneg 2 (32 - n) ltac:(lia) ltac:(lia)).
    replace (4294967295 * 2 ^ n) with ((2 ^ (32 - n) - 1) * 2 ^ n + (2 ^ n - 1) * 2 ^ 32).
    2:{ rewrite Hp at 1. change 4294967295 with (2 ^ 32 - 1). rewrite Hp at 1. ring. }
    rewrite Z.mod_add by lia. apply Z.mod_small. nia. }
  rewrite lor_shiftl by lia. rewrite Z.mul_sub_distr_l, Z.mul_1_r, <- Z.pow_add_r by lia.
  replace (n + (32 - n)) with 32 by lia. done.
Qed.

Lemma u32_add_wrap a b : u32 (a + (b + 2 ^ 32)) = u32 (a + b).
Proof. unfold u32. rewrite Z.add_assoc. change (2 ^ 32) with (1 * 4294967296). apply Z.mod_add. lia. Qed.

(** The offset the relocation computes is the one the instruction encodes. *)
Lemma branch_offset_fill i a h : 0 <= h < 4 ->
  let x := Z.lor (Z.shiftl (Z.land i 0xFFFFFF) 2) h in
  u32 (a + sign_fill (Z.shiftr x 25) x 26) = u32 (a + branch_offset i + h).
Proof.
  intros Hh. cbv zeta.
  assert (Z.lor (Z.shiftl (Z.land i 0xFFFFFF) 2) h = 4 * field i 0 24 + h) as ->.
  { rewrite Z.lor_comm, lor_shiftl by (change (2 ^ 2) with 4; lia). unfold field. rewrite Z.shiftr_0_r.
    change (Z.ones 24) with 0xFFFFFF. change (2 ^ 2) with 4. lia. }
  pose proof (field_range i 0 24 ltac:(lia) ltac:(lia)) as Hf. change (2 ^ 24) with 16777216 in Hf.
  set (v := field i 0 24) in *. unfold branch_offset, signed. fold v. change (2 ^ (24 - 1)) with 8388608.
  change (2 ^ 24) with 16777216.
  rewrite sign_fill_spec by (change (2 ^ 26) with 67108864; lia).
  rewrite Z.shiftr_div_pow2 by lia. change (2 ^ 25) with 33554432.
  change (2 ^ 32 - 2 ^ 26) with (2 ^ 32 - 67108864).
  destruct (Z.ltb_spec v 8388608) as [Hlt|Hge].
  - rewrite Z.div_small by lia. cbn [Z.eqb]. f_equal. lia.
  - assert (1 <= (4 * v + h) / 33554432) by (apply Z.div_le_lower_bound; lia).
    destruct (Z.eqb_spec ((4 * v + h) / 33554432) 0); [lia|].
    replace (a + (4 * v + h + (2 ^ 32 - 67108864))) with (a + ((4 * (v - 16777216) + h) + 2 ^ 32)) by lia.
    rewrite u32_add_wrap. f_equal. lia.
Qed.

(** ** The emitted instructions *)

(** Decode a constant instruction. *)
Ltac decode :=
  unfold exec;
  repeat match goal with
  | |- context [matches ?i ?m ?b] => let v := eval vm_compute in (matches i m b) in change (matches i m b) with v
  | |- context [field ?i ?l ?w] => let v := eval vm_compute in (field i l w) in change (field i l w) with v
  | |- context [rotated ?i] => let v := eval vm_compute in (rotated i) in change (rotated i) with v
  end.

(** A register number is one of sixteen. *)
Ltac each_register r :=
  let H := fresh in
  assert (r = 0 \/ r = 1 \/ r = 2 \/ r = 3 \/ r = 4 \/ r = 5 \/ r = 6 \/ r = 7 \/ r = 8 \/ r = 9 \/ r = 10 \/
    r = 11 \/ r = 12 \/ r = 13 \/ r = 14 \/ r = 15) as H by lia;
  repeat destruct H as [->|H]; subst.

Section Emitted.
Context (passed : Z -> Z -> bool) (add_op : Z -> Z -> Z -> Z -> Z * Z).
Context (always : forall f, passed 14 f = true).
Abbreviation exec := (exec passed add_op).
Abbreviation run := (run passed add_op).

Ltac run_decode := decode; rewrite ?always; cbn [negb]; cbv iota zeta.

Lemma exec_ldr_pc s v :
  s.(mem) (u32 (u32 (s.(pc) + 8) - 4)) = Some v -> exec 0xE51FF004 s = Some (s, Some v).
Proof. intros Hm. run_decode. cbn. unfold read_reg. cbn. by rewrite Hm. Qed.

Lemma exec_ldr_literal r s v : 0 <= r < 16 ->
  s.(mem) (u32 (u32 (s.(pc) + 8) - 0)) = Some v ->
  exec (Z.lor 0xE51F0000 (Z.shiftl r 12)) s = Some (write_reg r v s).
Proof.
  intros Hr Hm. each_register r; run_decode; unfold read_reg; cbn; rewrite Hm; reflexivity.
Qed.

Lemma exec_skip s : exec 0xE28FF000 s = Some (s, Some (u32 (u32 (s.(pc) + 8) + 0))).
Proof. run_decode. reflexivity. Qed.

Lemma exec_add_lr s : exec 0xE28FE004 s = Some (set_reg 14 (u32 (u32 (s.(pc) + 8) + 4)) s, None).
Proof. run_decode. reflexivity. Qed.

Lemma exec_push r s w : 0 <= r < 13 ->
  s.(mem) (u32 (s.(reg) 13 - 4)) = Some w ->
  exec (Z.lor 0xE52D0004 (Z.shiftl r 12)) s =
    Some (set_reg 13 (u32 (s.(reg) 13 - 4)) (set_mem (u32 (s.(reg) 13 - 4)) (s.(reg) r) s), None).
Proof.
  intros Hr Hm. each_register r; try lia; run_decode; unfold read_reg; cbn; rewrite Hm; reflexivity.
Qed.

Lemma exec_ldr_pc8 r s v : 0 <= r < 13 ->
  s.(mem) (u32 (u32 (s.(pc) + 8) + 8)) = Some v ->
  exec (Z.lor 0xE59F0008 (Z.shiftl r 12)) s = Some (set_reg r v s, None).
Proof.
  intros Hr Hm. each_register r; try lia; run_decode; unfold read_reg; cbn; rewrite Hm; reflexivity.
Qed.

Lemma exec_pop r s v : 0 <= r < 13 ->
  s.(mem) (s.(reg) 13) = Some v ->
  exec (Z.lor 0xE49D0004 (Z.shiftl r 12)) s = Some (set_reg r v (set_reg 13 (u32 (s.(reg) 13 + 4)) s), None).
Proof.
  intros Hr Hm. each_register r; try lia; run_decode; unfold read_reg; cbn; rewrite Hm; reflexivity.
Qed.

(** [ADD Rd, PC, Rm] with the register [r] for [PC]. *)
Lemma replaced_land i r m : 0 <= r < 16 -> Z.land m 0xF0000 = 0 -> Z.land 0xFFF0FFFF m = m ->
  Z.land (Z.lor (Z.land i 0xFFF0FFFF) (Z.shiftl r 16)) m = Z.land i m.
Proof.
  intros Hr H1 H2. rewrite Z.land_lor_distr_l, <- Z.land_assoc, H2.
  assert (Z.land (Z.shiftl r 16) m = 0) as ->; [|by rewrite Z.lor_0_r].
  assert (Z.shiftl r 16 = Z.land (Z.shiftl r 16) 0xF0000) as -> by (each_register r; reflexivity).
  rewrite <- Z.land_assoc, (Z.land_comm 0xF0000), H1. apply Z.land_0_r.
Qed.

Lemma replaced_matches i r m b : 0 <= r < 16 -> Z.land m 0xF0000 = 0 -> Z.land 0xFFF0FFFF m = m ->
  matches (Z.lor (Z.land i 0xFFF0FFFF) (Z.shiftl r 16)) m b = matches i m b.
Proof. intros. unfold matches. by rewrite replaced_land. Qed.

Lemma replaced_field i r lo width : 0 <= r < 16 -> 0 <= lo -> 0 <= width ->
  Z.land (Z.shiftl (Z.ones width) lo) 0xF0000 = 0 ->
  Z.land 0xFFF0FFFF (Z.shiftl (Z.ones width) lo) = Z.shiftl (Z.ones width) lo ->
  field (Z.lor (Z.land i 0xFFF0FFFF) (Z.shiftl r 16)) lo width = field i lo width.
Proof. intros. rewrite !field_land by done. by rewrite replaced_land. Qed.

Lemma replaced_rn i r : 0 <= r < 16 ->
  field (Z.lor (Z.land i 0xFFF0FFFF) (Z.shiftl r 16)) 16 4 = r.
Proof.
  intros Hr. rewrite field_land by lia. rewrite Z.land_lor_distr_l, <- Z.land_assoc.
  change (Z.land 0xFFF0FFFF (Z.shiftl (Z.ones 4) 16)) with 0. rewrite Z.land_0_r, Z.lor_0_l.
  each_register r; reflexivity.
Qed.

Lemma replaced_without_rn i r : 0 <= r < 16 ->
  without_rn (Z.lor (Z.land i 0xFFF0FFFF) (Z.shiftl r 16)) = without_rn i.
Proof. intros Hr. unfold without_rn. by apply replaced_land. Qed.

(** ** The instructions that are replaced *)

Lemma matches_and i M1 B1 M2 B2 :
  matches i M1 B1 = true -> matches i M2 B2 = true -> matches i (Z.lor M1 M2) (Z.lor B1 B2) = true.
Proof. intros H1%Z.eqb_eq H2%Z.eqb_eq. apply Z.eqb_eq. by rewrite Z.land_lor_distr_r, H1, H2. Qed.

(** Decode an instruction of which the pattern [H] is known. *)
Ltac decode_with H :=
  unfold exec; cbv zeta;
  repeat match goal with
  | |- context [matches ?i ?m ?b] =>
      first [rewrite (matches_conflict i _ _ m b H eq_refl) | rewrite (matches_implied i _ _ m b H eq_refl eq_refl)]
  end;
  repeat match goal with
  | |- context [field ?i ?l ?w] =>
      rewrite (field_known i _ _ l w H ltac:(lia) ltac:(lia) eq_refl);
      match goal with |- context [field ?b l w] => let v := eval vm_compute in (field b l w) in change (field b l w) with v end
  end;
  rewrite ?always; cbn [negb]; cbv iota.

Definition unconditional (i : Z) : Prop := matches i 0xF0000000 0xE0000000 = true.

(** The pattern of a type. *)
Definition arm_pattern (t : INSTRUCTION_TYPE) : Z * Z :=
  match t with
  | BLX_ARM => (0xFE000000, 0xFA000000)
  | BL_ARM => (0xF000000, 0xB000000)
  | B_ARM => (0xF000000, 0xA000000)
  | BX_ARM => (0xFF000FF, 0x120001F)
  | ADD_ARM => (0xFEF0010, 0x8F0000)
  | ADR1_ARM => (0xFFF0000, 0x28F0000)
  | ADR2_ARM => (0xFFF0000, 0x24F0000)
  | LDR_ARM => (0xE5F0000, 0x41F0000)
  | MOV_ARM => (0xFE00FFF, 0x1A0000F)
  | _ => (0, 0)
  end.

Lemma getTypeInArm_pattern i : matches i (arm_pattern (getTypeInArm i)).1 (arm_pattern (getTypeInArm i)).2 = true.
Proof.
  unfold getTypeInArm.
  repeat match goal with |- context [if ?b then _ else _] => destruct b eqn:?; [by simpl|] end.
  cbn. unfold matches. by rewrite Z.land_0_r.
Qed.

Lemma type_pattern i t : getTypeInArm i = t -> matches i (arm_pattern t).1 (arm_pattern t).2 = true.
Proof. intros <-. apply getTypeInArm_pattern. Qed.

Lemma both_patterns i t M B :
  getTypeInArm i = t -> matches i M B = true -> matches i (Z.lor (arm_pattern t).1 M) (Z.lor (arm_pattern t).2 B) = true.
Proof. intros Ht Hm. apply matches_and; [by apply type_pattern|done]. Qed.

Lemma exec_blx i s : getTypeInArm i = BLX_ARM ->
  exec i s = Some (set_reg 14 (u32 (s.(pc) + 4)) s, Some (u32 (s.(pc) + 8 + branch_offset i + 2 * field i 24 1 + 1))).
Proof.
  intros Ht. pose proof (type_pattern _ _ Ht) as H. unfold exec. cbv zeta.
  by rewrite (matches_implied i _ _ 0xFE000000 0xFA000000 H eq_refl eq_refl).
Qed.

Lemma exec_bl i s : getTypeInArm i = BL_ARM -> unconditional i ->
  exec i s = Some (set_reg 14 (u32 (s.(pc) + 4)) s, Some (u32 (s.(pc) + 8 + branch_offset i))).
Proof.
  intros Ht Hu. assert (matches i 0xFF000000 0xEB000000 = true) as H by exact (both_patterns _ _ _ _ Ht Hu).
  decode_with H. reflexivity.
Qed.

Lemma exec_b i s : getTypeInArm i = B_ARM -> unconditional i ->
  exec i s = Some (s, Some (u32 (s.(pc) + 8 + branch_offset i))).
Proof.
  intros Ht Hu. assert (matches i 0xFF000000 0xEA000000 = true) as H by exact (both_patterns _ _ _ _ Ht Hu).
  decode_with H. reflexivity.
Qed.

Lemma exec_bx i s : getTypeInArm i = BX_ARM -> unconditional i ->
  exec i s = Some (s, Some (u32 (s.(pc) + 8))).
Proof.
  intros Ht Hu. assert (matches i 0xFFF000FF 0xE120001F = true) as H by exact (both_patterns _ _ _ _ Ht Hu).
  decode_with H. reflexivity.
Qed.
Lemma exec_add i s : getTypeInArm i = ADD_ARM -> unconditional i ->
  exec i s =
    let '(v, f) := add_op (without_rn i) (u32 (s.(pc) + 8)) (read_reg s (field i 0 4)) s.(flags) in
    Some (write_reg (field i 12 4) v (set_flags f s)).
Proof.
  intros Ht Hu. assert (matches i 0xFFEF0010 0xE08F0000 = true) as H by exact (both_patterns _ _ _ _ Ht Hu).
  decode_with H. reflexivity.
Qed.

(** The same instruction with the register [r] for [PC]. *)
Lemma exec_add_replaced i r s : getTypeInArm i = ADD_ARM -> unconditional i -> 0 <= r < 15 ->
  exec (Z.lor (Z.land i 0xFFF0FFFF) (Z.shiftl r 16)) s =
    let '(v, f) := add_op (without_rn i) (s.(reg) r) (read_reg s (field i 0 4)) s.(flags) in
    Some (write_reg (field i 12 4) v (set_flags f s)).
Proof.
  intros Ht Hu Hr. assert (matches i 0xFFEF0010 0xE08F0000 = true) as H0 by exact (both_patterns _ _ _ _ Ht Hu).
  assert (matches (Z.lor (Z.land i 0xFFF0FFFF) (Z.shiftl r 16)) 0xFFE00010 0xE0800000 = true) as H.
  { rewrite replaced_matches by (lia || done). by apply (matches_implied i _ _ _ _ H0). }
  unfold exec. cbv zeta. rewrite replaced_rn, replaced_without_rn by lia.
  rewrite !(replaced_field i r 12 4), !(replaced_field i r 0 4) by (lia || done).
  decode_with H. unfold read_reg at 1. destruct (Z.eqb_spec r 15); [lia|]. reflexivity.
Qed.

Lemma exec_mov i s : getTypeInArm i = MOV_ARM -> unconditional i -> matches i 0x100000 0 = true ->
  exec i s = Some (write_reg (field i 12 4) (u32 (s.(pc) + 8)) s).
Proof.
  intros Ht Hu Hs.
  assert (matches i 0xFFF00FFF 0xE1A0000F = true) as H.
  { exact (matches_and _ _ _ _ _ (both_patterns _ _ _ _ Ht Hu) Hs). }
  decode_with H. reflexivity.
Qed.

Lemma exec_ldr i s v : getTypeInArm i = LDR_ARM -> unconditional i -> matches i 0x1200000 0x1000000 = true ->
  s.(mem) (u32 (if negb (field i 23 1 =? 0) then u32 (s.(pc) + 8) + field i 0 12
                else u32 (s.(pc) + 8) - field i 0 12)) = Some v ->
  exec i s = Some (write_reg (field i 12 4) v s).
Proof.
  intros Ht Hu Hs Hm.
  assert (matches i 0xFF7F0000 0xE51F0000 = true) as H.
  { exact (matches_and _ _ _ _ _ (both_patterns _ _ _ _ Ht Hu) Hs). }
  decode_with H. change (read_reg s 15) with (u32 (s.(pc) + 8)). by rewrite Hm.
Qed.

Lemma rotated_0 i : matches i 0xF00 0 = true -> rotated i = Z.land i 0xFFF.
Proof.
  intros H. unfold rotated. rewrite (field_known i _ _ 8 4 H) by (lia || done). change (field 0 8 4) with 0.
  change (2 * 0) with 0. rewrite Z.shiftr_0_r, Z.sub_0_r.
  assert (u32 (Z.shiftl (field i 0 8) 32) = 0) as ->.
  { rewrite Z.shiftl_mul_pow2 by lia. unfold u32. change 4294967296 with (2 ^ 32). by rewrite Z.mod_mul. }
  rewrite Z.lor_0_r. unfold field. rewrite Z.shiftr_0_r. change (Z.ones 8) with 0xFF.
  apply Z.eqb_eq in H. change 0xFFF with (Z.lor 0xFF 0xF00). by rewrite Z.land_lor_distr_r, H, Z.lor_0_r.
Qed.

Lemma exec_adr1 i s : getTypeInArm i = ADR1_ARM -> unconditional i -> matches i 0xF00 0 = true ->
  exec i s = Some (write_reg (field i 12 4) (u32 (u32 (s.(pc) + 8) + Z.land i 0xFFF)) s).
Proof.
  intros Ht Hu Hs. rewrite <- (rotated_0 i Hs).
  assert (matches i 0xFFFF0F00 0xE28F0000 = true) as H.
  { exact (matches_and _ _ _ _ _ (both_patterns _ _ _ _ Ht Hu) Hs). }
  decode_with H. reflexivity.
Qed.

Lemma exec_adr2 i s : getTypeInArm i = ADR2_ARM -> unconditional i -> matches i 0xF00 0 = true ->
  exec i s = Some (write_reg (field i 12 4) (u32 (u32 (s.(pc) + 8) - Z.land i 0xFFF)) s).
Proof.
  intros Ht Hu Hs. rewrite <- (rotated_0 i Hs).
  assert (matches i 0xFFFF0F00 0xE24F0000 = true) as H.
  { exact (matches_and _ _ _ _ _ (both_patterns _ _ _ _ Ht Hu) Hs). }
  decode_with H. reflexivity.
Qed.
(** ** Trampolines *)

(** What is relocated faithfully: unconditional instructions; for [ADD] a
    destination and an operand other than [SP] and [PC], for [ADR] a constant
    without rotation, for [LDR] an offset without write-back, for [MOV] the
    form without flags. *)
Definition supported (i : Z) : Prop :=
  match getTypeInArm i with
  | BLX_ARM => True
  | BL_ARM | B_ARM | BX_ARM => unconditional i
  | ADD_ARM => unconditional i /\ field i 12 4 <> 13 /\ field i 12 4 <> 15 /\ field i 0 4 <> 13 /\ field i 0 4 <> 15
  | ADR1_ARM | ADR2_ARM => unconditional i /\ matches i 0xF00 0 = true
  | LDR_ARM => unconditional i /\ matches i 0x1200000 0x1000000 = true
  | MOV_ARM => unconditional i /\ matches i 0x100000 0 = true
  | _ => False
  end.

Definition is_call (i : Z) : bool :=
  match getTypeInArm i with BLX_ARM | BL_ARM => true | _ => false end.

(** The word below the stack pointer, which the sequence for [ADD] uses. *)
Definition slot (s : cpu) : Z := u32 (s.(reg) 13 - 4).

(** [s2] is the state [s1] after the instruction, with the program counter
    behind the trampoline (which starts at [a] and ends at [b]) if the
    instruction does not branch; a call returns there. *)
Definition same_effect (i b : Z) (s : cpu) (r : cpu * option Z) (s2 : cpu) : Prop :=
  s2.(pc) = default b r.2 /\ s2.(flags) = r.1.(flags) /\
  (forall k, 0 <= k <= 14 -> s2.(reg) k = if is_call i && (k =? 14) then b else r.1.(reg) k) /\
  (forall a, a <> slot s -> s2.(mem) a = s.(mem) a).

Lemma run_step n s i s' target :
  s.(mem) s.(pc) = Some i -> exec i s = Some (s', target) ->
  run (S n) s = run n (set_pc (match target with Some t => t | None => u32 (s'.(pc) + 4) end) s').
Proof. intros Hm He. cbn [ArmExec.run]. unfold step. rewrite Hm, He. by destruct target. Qed.

Lemma stored_at t a m k w : stored t a m -> t !! k = Some w -> m (a + 4 * Z.of_nat k) = Some w.
Proof. auto. Qed.

(** The end of a trampoline that loads a literal into a register. *)
Lemma run_literal r v s :
  0 <= r < 16 -> 0 <= s.(pc) < 2 ^ 32 - 20 ->
  stored [Z.lor 0xE51F0000 (Z.shiftl r 12); 0xE28FF000; v] s.(pc) s.(mem) ->
  exists n s2, run n s = Some s2 /\ s2.(flags) = s.(flags) /\ s2.(mem) = s.(mem) /\
    s2.(pc) = (if r =? 15 then v else s.(pc) + 12) /\ s2.(reg) = (write_reg r v s).1.(reg).
Proof.
  intros Hr Hpc Hst. change (2 ^ 32) with 4294967296 in Hpc.
  pose proof (Hst 0%nat _ eq_refl) as H0. pose proof (Hst 1%nat _ eq_refl) as H1. pose proof (Hst 2%nat _ eq_refl) as H2.
  cbn in H0, H1, H2. rewrite Z.add_0_r in H0.
  assert (exec (Z.lor 0xE51F0000 (Z.shiftl r 12)) s = Some (write_reg r v s)) as He.
  { apply exec_ldr_literal; [done|]. rewrite (u32_small (pc s + 8)), u32_small by lia.
    by replace (pc s + 8 - 0) with (pc s + 8) by lia. }
  unfold write_reg in *. destruct (r =? 15) eqn:Er.
  - exists 1%nat. eexists. split; [by rewrite (run_step _ _ _ _ _ H0 He)|]. by cbn.
  - exists 2%nat. eexists. split.
    { rewrite (run_step _ _ _ _ _ H0 He). cbn [pc set_reg set_pc]. rewrite (u32_small (pc s + 4)) by lia.
      eapply (run_step 0); [cbn; exact H1|apply exec_skip]. }
    cbn. rewrite (u32_small (pc s + 4 + 8)), u32_small by lia. repeat split; lia.
Qed.

(** ... and of one that branches. *)
Lemma run_branch v s :
  0 <= s.(pc) < 2 ^ 32 - 20 -> stored [0xE51FF004; v] s.(pc) s.(mem) -> run 1 s = Some (set_pc v s).
Proof.
  intros Hpc Hst. change (2 ^ 32) with 4294967296 in Hpc.
  pose proof (Hst 0%nat _ eq_refl) as H0. pose proof (Hst 1%nat _ eq_refl) as H1. cbn in H0, H1. rewrite Z.add_0_r in H0.
  rewrite (run_step 0 s _ s (Some v) H0); [done|]. apply exec_ldr_pc.
  rewrite (u32_small (pc s + 8)), u32_small by lia. by replace (pc s + 8 - 4) with (pc s + 4) by lia.
Qed.
Lemma run_call v s :
  0 <= s.(pc) < 2 ^ 32 - 24 -> stored [0xE28FE004; 0xE51FF004; v] s.(pc) s.(mem) ->
  run 2 s = Some (set_pc v (set_reg 14 (s.(pc) + 12) s)).
Proof.
  intros Hpc Hst. change (2 ^ 32) with 4294967296 in Hpc. pose proof (Hst 0%nat _ eq_refl) as H0.
  cbn in H0. rewrite Z.add_0_r in H0. rewrite (run_step 1 _ _ _ _ H0 (exec_add_lr s)).
  cbn [pc set_reg set_pc]. rewrite (u32_small (pc s + 4)), (u32_small (pc s + 8)), u32_small by lia.
  replace (pc s + 8 + 4) with (pc s + 12) by lia.
  rewrite (run_branch v); [done|cbn; change (2 ^ 32) with 4294967296; lia|].
  intros k w Hk. cbn [pc set_pc mem set_reg]. pose proof (Hst (S k) w Hk) as H.
  by replace (pc s + 4 + 4 * Z.of_nat k) with (pc s + 4 * Z.of_nat (S k)) by lia.
Qed.

(** The sequence for [ADD Rd, PC, Rm]. *)
Lemma run_add i r v w s :
  getTypeInArm i = ADD_ARM -> unconditional i -> 0 <= r < 13 ->
  field i 12 4 <> 13 -> field i 12 4 <> 15 -> field i 0 4 <> 13 -> field i 0 4 <> 15 ->
  field i 12 4 <> r -> field i 0 4 <> r ->
  0 <= s.(pc) < 2 ^ 32 - 32 -> 4 <= s.(reg) 13 < 2 ^ 32 -> s.(mem) (slot s) = Some w ->
  (slot s < s.(pc) \/ s.(pc) + 24 <= slot s) ->
  stored [Z.lor 0xE52D0004 (Z.shiftl r 12); Z.lor 0xE59F0008 (Z.shiftl r 12);
          Z.lor (Z.land i 0xFFF0FFFF) (Z.shiftl r 16); Z.lor 0xE49D0004 (Z.shiftl r 12); 0xE28FF000; v] s.(pc) s.(mem) ->
  exists s2, run 5 s = Some s2 /\
    let r' := add_op (without_rn i) v (s.(reg) (field i 0 4)) s.(flags) in
    s2.(pc) = s.(pc) + 24 /\ s2.(flags) = r'.2 /\
    (forall k, 0 <= k <= 14 -> s2.(reg) k = if k =? field i 12 4 then r'.1 else s.(reg) k) /\
    (forall a, a <> slot s -> s2.(mem) a = s.(mem) a).
Proof.
  intros Ht Hu Hr Hd13 Hd15 Hm13 Hm15 Hdr Hmr Hpc Hsp Hslot Hout Hst.
  change (2 ^ 32) with 4294967296 in *.
  set (rd := field i 12 4) in *. set (rm := field i 0 4) in *.
  set (sl := slot s) in *. assert (sl = s.(reg) 13 - 4) as Hsl by (unfold sl, slot; apply u32_small; lia).
  assert (forall k w m, (forall a, a <> sl -> m a = s.(mem) a) -> (k < 6)%nat ->
    [Z.lor 0xE52D0004 (Z.shiftl r 12); Z.lor 0xE59F0008 (Z.shiftl r 12);
     Z.lor (Z.land i 0xFFF0FFFF) (Z.shiftl r 16); Z.lor 0xE49D0004 (Z.shiftl r 12); 0xE28FF000; v] !! k = Some w ->
    m (s.(pc) + 4 * Z.of_nat k) = Some w) as Hfetch.
  { intros k w' m Hm Hk Hl. rewrite Hm by lia. by apply Hst. }
  destruct (add_op (without_rn i) v (reg s rm) (flags s)) as [res f] eqn:Hadd.
  pose proof (Hst 0%nat _ eq_refl) as H0. cbn in H0. rewrite Z.add_0_r in H0.
  rewrite (run_step 4 _ _ _ _ H0 (exec_push r s w Hr Hslot)). fold (slot s). fold sl.
  set (s1 := set_pc _ _). assert (s1.(pc) = s.(pc) + 4) as E1 by (cbn; apply u32_small; lia).
  assert (forall a, a <> sl -> s1.(mem) a = s.(mem) a) as M1.
  { intros a Ha. cbn. by destruct (Z.eqb_spec a sl). }
  pose proof (Hfetch 1%nat _ _ M1 ltac:(lia) eq_refl) as H1. rewrite <- E1 in H1 at 1.
  assert (s1.(mem) (u32 (u32 (s1.(pc) + 8) + 8)) = Some v) as Hv.
  { rewrite E1, u32_add_l, u32_small by lia. replace (pc s + 4 + 8 + 8) with (pc s + 4 * Z.of_nat 5) by lia.
    exact (Hfetch 5%nat _ _ M1 ltac:(lia) eq_refl). }
  rewrite (run_step 3 _ _ _ _ H1 (exec_ldr_pc8 r s1 v Hr Hv)).
  set (s2 := set_pc _ (set_reg r v s1)).
  assert (s2.(pc) = s.(pc) + 8) as E2 by (cbn [s2 pc set_pc set_reg]; rewrite E1, u32_small by lia; lia).
  assert (forall a, a <> sl -> s2.(mem) a = s.(mem) a) as M2 by exact M1.
  pose proof (Hfetch 2%nat _ _ M2 ltac:(lia) eq_refl) as H2. rewrite <- E2 in H2 at 1.
  assert (s2.(reg) r = v) as R2 by (cbn; by rewrite Z.eqb_refl).
  assert (read_reg s2 rm = s.(reg) rm) as Rm2.
  { unfold read_reg. destruct (Z.eqb_spec rm 15); [done|]. cbn.
    destruct (Z.eqb_spec rm r); [congruence|]. by destruct (Z.eqb_spec rm 13). }
  pose proof (exec_add_replaced i r s2 Ht Hu ltac:(lia)) as He2. fold rd rm in He2. rewrite R2, Rm2 in He2.
  assert (s2.(flags) = s.(flags)) as F2 by done. rewrite F2, Hadd in He2. unfold write_reg in He2.
  destruct (Z.eqb_spec rd 15) as [|_]; [done|]. rewrite (run_step 2 _ _ _ _ H2 He2).
  set (s3 := set_pc _ (set_reg rd res _)).
  assert (s3.(pc) = s.(pc) + 12) as E3.
  { change (pc s3) with (u32 (pc s2 + 4)). rewrite E2, u32_small by lia. lia. }
  assert (forall a, a <> sl -> s3.(mem) a = s.(mem) a) as M3 by exact M1.
  pose proof (Hfetch 3%nat _ _ M3 ltac:(lia) eq_refl) as H3. rewrite <- E3 in H3 at 1.
  assert (s3.(reg) 13 = sl) as R3.
  { change (reg s3 13) with (if 13 =? rd then res else if 13 =? r then v else sl). destruct (Z.eqb_spec 13 rd); [congruence|]. destruct (Z.eqb_spec 13 r); [lia|]. done. }
  assert (s3.(mem) (s3.(reg) 13) = Some (s.(reg) r)) as Hp.
  { rewrite R3. cbn. by rewrite Z.eqb_refl. }
  rewrite (run_step 1 _ _ _ _ H3 (exec_pop r s3 _ Hr Hp)).
  set (s4 := set_pc _ (set_reg r _ _)).
  assert (s4.(pc) = s.(pc) + 16) as E4.
  { change (pc s4) with (u32 (pc s3 + 4)). rewrite E3, u32_small by lia. lia. }
  assert (forall a, a <> sl -> s4.(mem) a = s.(mem) a) as M4 by exact M1.
  pose proof (Hfetch 4%nat _ _ M4 ltac:(lia) eq_refl) as H4. rewrite <- E4 in H4 at 1.
  rewrite (run_step 0 _ _ _ _ H4 (exec_skip s4)). eexists. split; [done|]. cbn [fst snd].
  split; [cbn [pc set_pc]; rewrite E4, (u32_small (_ + 8)), u32_small by lia; lia|]. split; [done|]. split; [|exact M4].
  intros k Hk. change (reg (set_pc _ s4) k) with (reg s4 k).
  assert (reg s4 k = if k =? r then reg s r else if k =? 13 then u32 (reg s3 13 + 4) else reg s3 k) as -> by done.
  rewrite R3, Hsl, u32_small by lia.
  assert (reg s3 k = if k =? rd then res else if k =? r then v else if k =? 13 then sl else reg s k) as -> by done.
  destruct (Z.eqb_spec k r) as [->|]; [by destruct (Z.eqb_spec r rd); [congruence|]|].
  destruct (Z.eqb_spec k 13) as [->|]; [destruct (Z.eqb_spec 13 rd); [congruence|lia]|]. done.
Qed.
Lemma pick_two a b n r :
  let p := pick_register [a; b] (S (S (S n))) r in p <> a /\ p <> b /\ r - 2 <= p <= r.
Proof.
  cbv zeta. cbn [pick_register].
  assert (forall x, bool_decide (x ∈ [a; b]) = (x =? a) || (x =? b)) as Hmem.
  { intros x. apply eq_true_iff_eq.
    rewrite bool_decide_eq_true, orb_true_iff, !Z.eqb_eq, elem_of_cons, list_elem_of_singleton. done. }
  rewrite !Hmem.
  destruct (Z.eqb_spec r a), (Z.eqb_spec r b); cbn [orb]; try lia;
    destruct (Z.eqb_spec (r - 1) a), (Z.eqb_spec (r - 1) b); cbn [orb]; try lia;
    destruct (Z.eqb_spec (r - 1 - 1) a), (Z.eqb_spec (r - 1 - 1) b); cbn [orb]; lia.
Qed.

Lemma rd_field i : Z.shiftr (Z.land i 0xF000) 12 = field i 12 4.
Proof. by rewrite field_land. Qed.

Lemma low_field i width m : 0 <= width -> Z.ones width = m -> Z.land i m = field i 0 width.
Proof. intros Hw <-. unfold field. by rewrite Z.shiftr_0_r. Qed.

(** What a literal trampoline does has the effect of writing the register. *)
Lemma literal_effect i v s a t :
  is_call i = false -> 0 <= a -> a + 64 < 2 ^ 32 ->
  t = [Z.lor 0xE51F0000 (Z.shiftl (field i 12 4) 12); 0xE28FF000; v] -> stored t a s.(mem) ->
  exists n s2, run n (set_pc a s) = Some s2 /\
    same_effect i (a + 4 * Z.of_nat (length t)) s (write_reg (field i 12 4) v s) s2.
Proof.
  intros Hc Ha Hb -> Hst. pose proof (field_range i 12 4 ltac:(lia) ltac:(lia)) as Hr. change (2 ^ 4) with 16 in Hr.
  destruct (run_literal (field i 12 4) v (set_pc a s)) as (n & s2 & Hrun & Hf & Hm & Hp & Hg); [lia|cbn; lia|exact Hst|].
  exists n, s2. split; [done|]. unfold same_effect. rewrite Hc. cbn [andb length]. rewrite Hf, Hm, Hp. cbn [pc set_pc].
  unfold write_reg in *. destruct (_ =? 15); rewrite Hg; cbn [fst snd default].
  - done.
  - split; [cbn; lia|done].
Qed.

(** What a branch does. *)
Lemma branch_effect i v s a :
  is_call i = false -> 0 <= a -> a + 64 < 2 ^ 32 -> stored [0xE51FF004; v] a s.(mem) ->
  exists n s2, run n (set_pc a s) = Some s2 /\ same_effect i (a + 8) s (s, Some v) s2.
Proof.
  intros Hc Ha Hb Hst. exists 1%nat. eexists. split; [apply run_branch; [cbn; lia|exact Hst]|].
  unfold same_effect. rewrite Hc. by repeat split.
Qed.

Lemma call_effect i v s a lr :
  is_call i = true -> 0 <= a -> a + 64 < 2 ^ 32 -> stored [0xE28FE004; 0xE51FF004; v] a s.(mem) ->
  exists n s2, run n (set_pc a s) = Some s2 /\ same_effect i (a + 12) s (set_reg 14 lr s, Some v) s2.
Proof.
  intros Hc Ha Hb Hst. exists 2%nat. eexists. split; [apply run_call; [cbn; lia|exact Hst]|].
  unfold same_effect. rewrite Hc. cbn [andb]. repeat split.
  intros k Hk. change ((if k =? 14 then a + 12 else s.(reg) k) = if k =? 14 then a + 12 else
    (if k =? 14 then lr else s.(reg) k)). by destruct (k =? 14).
Qed.

Lemma relocated_branch_value i a h : 0 <= h < 4 ->
  let x := Z.lor (Z.shiftl (Z.land i 0xFFFFFF) 2) h in
  u32 (u32 a + sign_fill (Z.shiftr x 25) x 26) = u32 (a + branch_offset i + h).
Proof. intros Hh. cbv zeta. rewrite u32_add_l. by apply branch_offset_fill. Qed.

Lemma h_field i : Z.shiftr (Z.land i 0x1000000) 23 = 2 * field i 24 1.
Proof.
  rewrite (field_land i 24 1) by lia. change (Z.shiftl (Z.ones 1) 24) with 0x1000000.
  replace 24 with (23 + 1) at 1 by lia. rewrite <- Z.shiftr_shiftr by lia.
  set (y := Z.land i 16777216).
  assert (Z.shiftr y 23 = 2 * Z.shiftr (Z.shiftr y 23) 1) as H; [|exact H].
  assert (Z.land (Z.shiftr y 23) 1 = 0) as H0.
  { unfold y. change 1 with (Z.shiftr 0x800000 23). rewrite <- Z.shiftr_land, <- Z.land_assoc.
    by rewrite Z.land_0_r. }
  change 1 with (Z.ones 1) in H0. rewrite Z.land_ones in H0 by lia. change (2 ^ 1) with 2 in H0.
  set (z := Z.shiftr y 23) in *. rewrite Z.shiftr_div_pow2 by lia. change (2 ^ 1) with 2.
  pose proof (Z.div_mod z 2 ltac:(lia)). lia.
Qed.

(** Where the stack is, for the sequence that uses it. *)
Definition stack_ready (i a : Z) (s : cpu) : Prop :=
  getTypeInArm i = ADD_ARM ->
  4 <= s.(reg) 13 < 2 ^ 32 /\ (exists w, s.(mem) (slot s) = Some w) /\ (slot s < a \/ a + 24 <= slot s).

Lemma blx_value i a :
  u32 (u32 a + sign_fill (Z.shiftr (Z.lor (Z.shiftl (Z.land i 0xFFFFFF) 2) (2 * field i 24 1)) 25)
                 (Z.lor (Z.shiftl (Z.land i 0xFFFFFF) 2) (2 * field i 24 1)) 26 + 1) =
  u32 (a + branch_offset i + 2 * field i 24 1 + 1).
Proof.
  pose proof (field_range i 24 1 ltac:(lia) ltac:(lia)) as Hh. change (2 ^ 1) with 2 in Hh.
  pose proof (relocated_branch_value i a (2 * field i 24 1) ltac:(lia)) as Hv. cbv zeta in Hv.
  rewrite <- u32_add_l, Hv. apply u32_add_l.
Qed.

Lemma branch_value i a :
  u32 (u32 a + sign_fill (Z.shiftr (Z.shiftl (Z.land i 0xFFFFFF) 2) 25) (Z.shiftl (Z.land i 0xFFFFFF) 2) 26) =
  u32 (a + branch_offset i).
Proof.
  pose proof (relocated_branch_value i a 0 ltac:(lia)) as Hv. cbv zeta in Hv. by rewrite Z.lor_0_r, Z.add_0_r in Hv.
Qed.

Lemma relocate_arm_effect i s a t r :
  relocate_arm s.(mem) (u32 (s.(pc) + 8)) i = Some t -> supported i -> exec i s = Some r ->
  0 <= a -> a + 64 < 2 ^ 32 -> stored t a s.(mem) -> stack_ready i a s ->
  exists n s2, run n (set_pc a s) = Some s2 /\ same_effect i (a + 4 * Z.of_nat (length t)) s r s2.
Proof.
  unfold relocate_arm, supported. rewrite !rd_field. rewrite (low_field i 4 0xF), (low_field i 12 0xFFF) by (lia || done).
  intros Ht Hs He Ha Hb Hst Hstack.
  destruct (getTypeInArm i) eqn:Hty; try done.
  - rewrite h_field, blx_value in Ht. rewrite exec_blx in He by done.
    injection He as <-. injection Ht as <-. apply call_effect; try done. unfold is_call. by rewrite Hty.
  - rewrite branch_value in Ht. rewrite exec_bl in He by done.
    injection He as <-. injection Ht as <-. apply call_effect; try done. unfold is_call. by rewrite Hty.
  - rewrite branch_value in Ht. rewrite exec_b in He by done.
    injection He as <-. injection Ht as <-. apply branch_effect; try done. unfold is_call. by rewrite Hty.
  - change (sign_fill (Z.shiftr 0 25) 0 26) with 0 in Ht. rewrite u32_add_l, Z.add_0_r in Ht.
    rewrite exec_bx in He by done.
    injection He as <-. injection Ht as <-. apply branch_effect; try done. unfold is_call. by rewrite Hty.
  - destruct Hs as (Hu & Hd13 & Hd15 & Hm13 & Hm15). destruct (Hstack Hty) as (Hsp & (w & Hw) & Hout).
    rewrite exec_add in He by done.
    destruct (pick_two (field i 12 4) (field i 0 4) 10 12) as (Hp1 & Hp2 & Hp3).
    change (S (S (S 10))) with 13%nat in *. set (p := pick_register _ _ _) in *. clearbody p. injection Ht as <-.
    destruct (run_add i p (u32 (s.(pc) + 8)) w (set_pc a s)) as (s2 & Hrun & Hpc & Hf & Hg & Hm); try done; try (cbn; lia).
    cbn [reg set_pc flags pc mem] in *. exists 5%nat, s2. split; [done|].
    unfold read_reg in He. destruct (Z.eqb_spec (field i 0 4) 15); [done|].
    destruct (add_op _ _ _ _) as [v f]. unfold write_reg in He. destruct (Z.eqb_spec (field i 12 4) 15); [done|].
    injection He as <-. unfold same_effect, is_call. rewrite Hty. cbn [andb fst snd default].
    split; [rewrite Hpc; cbn [length]; lia|]. split; [done|]. split; [|done].
    intros k Hk. rewrite Hg by done. done.
  - destruct Hs as [Hu Hz]. rewrite exec_adr1 in He by done. rewrite (low_field i 12 0xFFF) in He by (lia || done).
    injection He as <-. injection Ht as <-. eapply literal_effect; try done. unfold is_call. by rewrite Hty.
  - destruct Hs as [Hu Hz]. rewrite exec_adr2 in He by done. rewrite (low_field i 12 0xFFF) in He by (lia || done).
    injection He as <-. injection Ht as <-. eapply literal_effect; try done. unfold is_call. by rewrite Hty.
  - destruct Hs as [Hu Hz]. rewrite exec_mov in He by done.
    injection He as <-. injection Ht as <-. eapply literal_effect; try done. unfold is_call. by rewrite Hty.
  - destruct Hs as [Hu Hz].
    assert (Z.shiftr (Z.land i 0x800000) 23 = field i 23 1) as E by (by rewrite field_land). rewrite E in Ht.
    destruct (s.(mem) _) as [v|] eqn:Ev in Ht; [|done].
    rewrite (exec_ldr i s v) in He by done.
    injection He as <-. injection Ht as <-. eapply literal_effect; try done. unfold is_call. by rewrite Hty.
Qed.
End Emitted.

Lemma stored_all t a m :
  Forall (fun k => m (a + 4 * Z.of_nat k) = t !! k) (seq 0 (length t)) -> stored t a m.
Proof.
  intros H k w Hk. rewrite Forall_forall in H. rewrite (H k); [done|].
  apply elem_of_seq. apply lookup_lt_Some in Hk. lia.
Qed.

(** C9. Executing the trampoline of a relocated ARM instruction of a
    [supported] form does what the instruction did in its old place: the same
    registers, flags and memory (the word below the stack pointer apart), the
    same branch target, a call that returns behind the trampoline, and
    otherwise the end of the trampoline as the next instruction. Supported
    are, with the condition "always" only, [B], [BL], [BX PC] and [BLX] to an
    address; [ADD] of the program counter and a register where neither that
    nor the destination is the stack pointer or the program counter; [ADR]
    with an immediate that is not rotated; [LDR] with an offset and without
    write-back; [MOV] that leaves the flags alone. The trampoline is stored
    where it is run and for [ADD] the word below the stack pointer can be
    written ([stack_ready]). A conditional branch is not among them: it loses
    its condition ([relocated_condition_lost]). *)
Theorem relocated_instruction_correct passed add_op i s a t r :
  (forall f, passed 14 f = true) ->
  relocate_arm s.(mem) (u32 (s.(pc) + 8)) i = Some t -> supported i -> exec passed add_op i s = Some r ->
  0 <= a -> a + 64 < 2 ^ 32 -> stored t a s.(mem) -> stack_ready i a s ->
  exists n s2, run passed add_op n (set_pc a s) = Some s2 /\
    same_effect i (a + 4 * Z.of_nat (length t)) s r s2.
Proof. intros Halways. by apply relocate_arm_effect. Qed.

(** [ADD r1, pc, r2] at 0x8000, moved to 0x9000. *)
Definition demo_trampoline : list Z := [0xE52DC004; 0xE59FC008; 0xE08C1002; 0xE49DC004; 0xE28FF000; 0x8008].

Definition demo_cpu : cpu :=
  mkCpu (fun n => if n =? 13 then 0x7000 else 10 * n) 0x8000 0
    (fun a => if a =? 0x6FFC then Some 99 else aget demo_trampoline ((a - 0x9000) / 4)).

Definition demo_passed (c f : Z) : bool := c =? 14.
Definition demo_add (i rn rm f : Z) : Z * Z := (u32 (rn + rm), f).

Lemma relocated_instruction_correct_witness :
  exists n s2, run demo_passed demo_add n (set_pc 0x9000 demo_cpu) = Some s2 /\
    same_effect 0xE08F1002 0x9018 demo_cpu (set_reg 1 0x801C (set_flags 0 demo_cpu), None) s2.
Proof.
  apply (relocated_instruction_correct demo_passed demo_add 0xE08F1002 demo_cpu 0x9000 demo_trampoline).
  - reflexivity.
  - reflexivity.
  - repeat split; vm_compute; discriminate.
  - reflexivity.
  - lia.
  - lia.
  - apply stored_all. repeat constructor.
  - intros _. split; [vm_compute; by split|]. split; [by exists 99|]. left. by vm_compute.
Defined.

(** A conditional branch loses its condition: where the branch is not
    taken and the next instruction follows, the trampoline jumps to the target
    all the same. *)
Theorem relocated_condition_lost passed add_op i s a t :
  (forall f, passed 14 f = true) ->
  getTypeInArm i = B_ARM -> passed (field i 28 4) s.(flags) = false -> matches i 0xFE000000 0xFA000000 = false ->
  relocate_arm s.(mem) (u32 (s.(pc) + 8)) i = Some t -> 0 <= a -> a + 64 < 2 ^ 32 -> stored t a s.(mem) ->
  exec passed add_op i s = Some (s, None) /\
  run passed add_op 1 (set_pc a s) = Some (set_pc (u32 (s.(pc) + 8 + branch_offset i)) s).
Proof.
  intros Halways Hty Hc Hb Ht Ha1 Ha2 Hst. split.
  - unfold exec. cbv zeta. by rewrite Hb, Hc.
  - unfold relocate_arm in Ht. rewrite Hty, branch_value in Ht. injection Ht as <-.
    apply (run_branch passed add_op Halways _ (set_pc a s)); [cbn; lia|exact Hst].
Qed.

(** [BEQ] with the zero flag clear. *)
Lemma relocated_condition_lost_witness :
  let s := mkCpu (fun _ => 0) 0x8000 0 (fun a => aget [0xE51FF004; 0x8020] ((a - 0x9000) / 4)) in
  exec demo_passed demo_add 0x0A000006 s = Some (s, None) /\
  run demo_passed demo_add 1 (set_pc 0x9000 s) = Some (set_pc 0x8020 s).
Proof.
  intros s. apply (relocated_condition_lost demo_passed demo_add 0x0A000006 s 0x9000 [0xE51FF004; 0x8020]); try reflexivity; try lia.
  apply stored_all. repeat constructor.
Defined.
