(* ===== verification/RelocateLoops.v ===== *)
(** * libmemcheck: the relocation of a function's first instructions

    The two loops of relocate.c: which instructions they move, the tables of
    boundaries they build, the jump back behind them, and when the tables
    overflow. *)

From stdpp Require Import base numbers list list_numbers.
From Stdlib Require Import Lia ZArith.
From S2P Require Import Prelude Relocate.

#[local] Open Scope Z_scope.
#[local] Open Scope c_scope.

(** ** Boundaries *)

(** The positions of consecutive pieces, the first one at [pos], in units of
    [u] bytes. *)
Fixpoint layout (u pos : Z) (ts : list (list Z)) : list Z :=
  match ts with
  | [] => []
  | t :: ts => pos :: layout u (pos + u * Z.of_nat (length t)) ts
  end.

(** The entries [os] and [ts] are written behind those of [b]. *)
Definition extended (b : boundaries) (os ts : list Z) (b' : boundaries) : Prop :=
  blit b.(orig_boundaries) b.(count) os = Some b'.(orig_boundaries) /\
  blit b.(trampoline_boundaries) b.(count) ts = Some b'.(trampoline_boundaries) /\
  b'.(count) = b.(count) + Z.of_nat (length os).

(** Room for [n] more entries. *)
Definition room_for (n : Z) (b : boundaries) : Prop :=
  0 <= b.(count) /\ b.(count) + n <= Z.of_nat (length b.(orig_boundaries)) /\
  b.(count) + n <= Z.of_nat (length b.(trampoline_boundaries)).

Lemma extended_nil b : extended b [] [] b.
Proof. split; [done|]. split; [done|]. cbn. lia. Qed.

Lemma add_boundary_run o t b :
  room_for 1 b ->
  exists b', add_boundary o t b = (Returns tt, b') /\ extended b [o] [t] b' /\
    b'.(count) = b.(count) + 1 /\ (forall n, room_for (n + 1) b -> room_for n b').
Proof.
  intros (H0 & H1 & H2). unfold add_boundary, bind, gets.
  rewrite !aset_Some by lia. cbn. eexists. split; [done|]. split; [|split; [done|]].
  - unfold extended. cbn. rewrite !aset_Some by lia. split; [done|]. split; [done|]. lia.
  - intros n (G0 & G1 & G2). unfold room_for. cbn. rewrite !length_insert. lia.
Qed.

Lemma add_boundary_full o t b :
  0 <= b.(count) -> Z.of_nat (length b.(orig_boundaries)) <= b.(count) -> fst (add_boundary o t b) = Stuck.
Proof.
  intros H0 H1. unfold add_boundary, bind, gets. cbn. unfold aset at 1.
  by rewrite decide_False by lia.
Qed.

Lemma extended_trans b b1 b2 o t os ts :
  extended b [o] [t] b1 -> extended b1 os ts b2 -> length os = length ts -> extended b (o :: os) (t :: ts) b2.
Proof.
  intros (A1 & A2 & A3) (B1 & B2 & B3) Hl. cbn in A1, A2, A3.
  destruct (aset (orig_boundaries b) (count b) o) as [l1|] eqn:E1; [|done].
  destruct (aset (trampoline_boundaries b) (count b) t) as [l2|] eqn:E2; [|done].
  injection A1 as A1. injection A2 as A2. rewrite A3 in B1, B2. unfold extended. cbn. rewrite E1, E2, A1, A2.
  split; [done|]. split; [done|]. lia.
Qed.

Lemma layout_length u ts : forall pos, length (layout u pos ts) = length ts.
Proof. induction ts; intros; cbn; congruence. Qed.

(** ** ARM state *)

(** The trampolines [ts] of consecutive instructions, the first at [pc - 8]. *)
Inductive relocated (load : Z -> option Z) : Z -> list Z -> list (list Z) -> Prop :=
| relocated_nil pc : relocated load pc [] []
| relocated_cons pc w ws t ts :
    relocate_arm load pc w = Some t -> relocated load (u32 (pc + 4)) ws ts -> relocated load pc (w :: ws) (t :: ts).


Lemma u32_idem z : u32 (u32 z) = u32 z.
Proof. unfold u32. apply Z.mod_mod. lia. Qed.

Lemma arm_loop load ws : forall ts pc k orig out b,
  relocated load pc ws ts -> drop k orig = ws -> room_for (Z.of_nat (length ws)) b ->
  exists pc' b', foldM (arm_round load orig) (seqZ (Z.of_nat k) (Z.of_nat (length ws))) (out, pc) b =
      (Returns (out ++ concat ts, pc'), b') /\
    extended b ((fun i => i * 4) <$> seqZ (Z.of_nat k) (Z.of_nat (length ws)))
      (layout 4 (Z.of_nat (length out) * 4) ts) b'.
Proof.
  induction ws as [|w ws IH]; intros ts pc k orig out b Hr Hd Hroom; inversion Hr; subst.
  - exists pc, b. cbn. rewrite app_nil_r. split; [done|]. apply extended_nil.
  - cbn [length] in *. rewrite seqZ_cons by lia. cbn [foldM fmap list_fmap].
    destruct (add_boundary_run (Z.of_nat k * 4) (Z.of_nat (length out) * 4) b) as (b1 & Hb1 & Hext1 & Hc1 & Hroom1).
    { destruct Hroom as (? & ? & ?). split; [done|lia]. }
    assert (aget orig (Z.of_nat k) = Some w) as Hget.
    { unfold aget. rewrite decide_True by lia. rewrite Nat2Z.id.
      rewrite <- (Nat.add_0_r k), <- lookup_drop, Hd. done. }
    destruct (IH ts0 (u32 (pc + 4)) (S k) orig (out ++ t) b1) as (pc' & b2 & Hrun & Hext2).
    { done. }
    { rewrite <- Nat.add_1_r, <- drop_drop, Hd. done. }
    { apply Hroom1. by replace (Z.of_nat (length ws) + 1) with (Z.of_nat (S (length ws))) by lia. }
    exists pc', b2. replace (Z.succ (Z.of_nat k)) with (Z.of_nat (S k)) by lia.
    replace (Z.pred (Z.of_nat (S (length ws)))) with (Z.of_nat (length ws)) by lia. split.
    + unfold arm_round at 1. unfold bind at 1 2 3 4. rewrite Hb1, Hget. unfold of_option, ret at 1 2 3.
      match goal with H : relocate_arm _ _ _ = Some _ |- _ => rewrite H end.
      rewrite Hrun. cbn [concat]. by rewrite app_assoc.
    + eapply extended_trans; [exact Hext1| |].
      * rewrite length_app in Hext2.
        replace (Z.of_nat (length out + length t) * 4) with (Z.of_nat (length out) * 4 + 4 * Z.of_nat (length t)) in Hext2 by lia.
        exact Hext2.
      * rewrite length_fmap, length_seqZ, layout_length.
        match goal with H : relocated _ _ ws ts0 |- _ => clear -H; induction H; cbn; lia end.
Qed.

Lemma relocated_length load pc ws ts : relocated load pc ws ts -> length ts = length ws.
Proof. induction 1; cbn; congruence. Qed.

(** C10. Relocation in ARM state: the trampoline is the pieces of the
    instructions one behind the other and a jump to the instruction after the
    last one; the two tables get the position of every instruction and of its
    piece. *)
Theorem arm_relocation load target_addr ws ts b :
  relocated load (u32 (target_addr + 8)) ws ts -> room_for (Z.of_nat (length ws)) b ->
  exists b', relocateInstructionInArm load target_addr ws (4 * Z.of_nat (length ws)) b =
      (Returns (concat ts ++ [0xe51ff004; u32 (target_addr + 4 * Z.of_nat (length ws))]), b') /\
    extended b ((fun i => i * 4) <$> seqZ 0 (Z.of_nat (length ws))) (layout 4 0 ts) b'.
Proof.
  intros Hr Hroom. destruct (arm_loop load ws ts _ 0 ws [] b Hr eq_refl Hroom) as (pc' & b' & Hrun & Hext).
  exists b'. split; [|exact Hext]. unfold relocateInstructionInArm, bind.
  replace (Z.quot (4 * Z.of_nat (length ws)) 4) with (Z.of_nat (length ws)) by (rewrite Z.mul_comm, Z.quot_mul; lia).
  change (Z.of_nat 0) with 0 in Hrun. by rewrite Hrun.
Qed.

(** ** Thumb state *)

Definition wide (w : Z) : bool := (0x1D <=? Z.shiftr w 11) && (Z.shiftr w 11 <=? 0x1F).

(** The pieces [ts] of the instructions in [ws], with the half-words each
    takes; [cut] is whether the last half-word starts an instruction that does
    not fit. *)
Inductive relocated_thumb (load : Z -> option Z) : Z -> list Z -> list (list Z) -> list (list Z) -> bool -> Prop :=
| rt_done pc : relocated_thumb load pc [] [] [] false
| rt_cut pc w : wide w = true -> relocated_thumb load pc [w] [] [] true
| rt_wide pc w low ws t ts srcs cut :
    wide w = true -> relocateInstructionInThumb32 load pc w low = Some t ->
    relocated_thumb load (u32 (pc + 4)) ws ts srcs cut ->
    relocated_thumb load pc (w :: low :: ws) (t :: ts) ([w; low] :: srcs) cut
| rt_narrow pc w ws t ts srcs cut :
    wide w = false -> relocateInstructionInThumb16 load pc w = Some t ->
    relocated_thumb load (u32 (pc + 2)) ws ts srcs cut ->
    relocated_thumb load pc (w :: ws) (t :: ts) ([w] :: srcs) cut.

(** The tables also get an entry for an instruction that is cut off. *)
Definition with_cut (cut : bool) (ts : list (list Z)) : list (list Z) := if cut then ts ++ [[]] else ts.

Lemma relocated_thumb_lengths load pc ws ts srcs cut :
  relocated_thumb load pc ws ts srcs cut -> length srcs = length ts /\
  length ws = (length (concat srcs) + if cut then 1 else 0)%nat.
Proof. induction 1; cbn in *; [done|done|..]; rewrite ?length_app in *; cbn; lia. Qed.

Lemma with_cut_cons cut t ts : with_cut cut (t :: ts) = t :: with_cut cut ts.
Proof. by destruct cut. Qed.

Lemma with_cut_length cut ts : length (with_cut cut ts) = (length ts + if cut then 1 else 0)%nat.
Proof. destruct cut; cbn; rewrite ?length_app; cbn; lia. Qed.

(** What the loop leaves when it has moved [srcs] to [ts]. *)
Definition thumb_done_with (b : boundaries) (k : nat) (out : list Z) (ts srcs : list (list Z)) (cut : bool)
    (r : outcome (Z * list Z * Z) * boundaries) : Prop :=
  if decide (room_for (Z.of_nat (length (with_cut cut ts))) b) then
    exists pc' b', r = (Returns (Z.of_nat (k + length (concat srcs)), out ++ concat ts, pc'), b') /\
      extended b (layout 2 (Z.of_nat k * 2) (with_cut cut srcs)) (layout 2 (Z.of_nat (length out) * 2) (with_cut cut ts)) b'
  else r.1 = Stuck.

Lemma stuck_full o t (A : Type) (k : unit -> M boundaries A) b : ~ room_for 1 b -> (bind (add_boundary o t) k b).1 = Stuck.
Proof.
  intros Hn. unfold bind, add_boundary, bind, gets, room_for in *. cbn.
  destruct (aset (orig_boundaries b) (count b) o) as [l1|] eqn:E1; [|done]. cbn.
  destruct (aset (trampoline_boundaries b) (count b) t) as [l2|] eqn:E2; [|done].
  apply aset_inv in E1 as [? _]. apply aset_inv in E2 as [? _]. exfalso. apply Hn. lia.
Qed.

Lemma room_for_mono n m b : room_for n b -> m <= n -> room_for m b.
Proof. unfold room_for. lia. Qed.

Lemma blit_length {A} (vs : list A) : forall l i l', blit l i vs = Some l' -> length l' = length l.
Proof.
  induction vs as [|v vs IH]; intros l i l' H; cbn in H; [congruence|].
  destruct (aset l i v) eqn:E; [|done]. rewrite (IH _ _ _ H). by apply aset_length in E.
Qed.

Lemma extended_room n b b1 o t : extended b [o] [t] b1 -> 0 <= n -> room_for 1 b -> room_for n b1 <-> room_for (n + 1) b.
Proof.
  intros (H1 & H2 & H3) Hn Hr. apply blit_length in H1, H2. unfold room_for in *. cbn in H3. lia.
Qed.

(** One piece in front. *)
Lemma done_cons b b1 k out t src ts srcs cut r :
  room_for 1 b -> extended b [Z.of_nat k * 2] [Z.of_nat (length out) * 2] b1 -> length srcs = length ts ->
  thumb_done_with b1 (k + length src) (out ++ t) ts srcs cut r -> thumb_done_with b k out (t :: ts) (src :: srcs) cut r.
Proof.
  intros Hr Hext Hl. unfold thumb_done_with. rewrite !with_cut_cons. cbn [length].
  pose proof (extended_room (Z.of_nat (length (with_cut cut ts))) b b1 _ _ Hext ltac:(lia) Hr) as Hiff.
  replace (Z.of_nat (S (length (with_cut cut ts)))) with (Z.of_nat (length (with_cut cut ts)) + 1) by lia.
  destruct (decide (room_for _ b1)) as [H1|H1], (decide (room_for _ b)) as [H2|H2]; [|tauto|tauto|done].
  intros (pc' & b' & -> & Hext'). exists pc', b'. cbn [concat]. split.
  - rewrite length_app, Nat.add_assoc, <- app_assoc. done.
  - cbn [layout]. eapply extended_trans; [exact Hext| |].
    + rewrite length_app in Hext'.
      replace (Z.of_nat (k + length src) * 2) with (Z.of_nat k * 2 + 2 * Z.of_nat (length src)) in Hext' by lia.
      replace (Z.of_nat (length out + length t) * 2) with (Z.of_nat (length out) * 2 + 2 * Z.of_nat (length t)) in Hext' by lia.
      exact Hext'.
    + rewrite !layout_length, !with_cut_length. lia.
Qed.

Lemma done_end b b1 k out t src :
  room_for 1 b -> extended b [Z.of_nat k * 2] [Z.of_nat (length out) * 2] b1 ->
  forall pc', thumb_done_with b k out [t] [src] false (Returns (Z.of_nat (k + length src), out ++ t, pc'), b1).
Proof.
  intros Hr Hext pc'. unfold thumb_done_with. cbn. rewrite decide_True by done. rewrite !app_nil_r. by exists pc', b1.
Qed.

Lemma done_stuck b k out ts srcs cut r :
  ~ room_for 1 b -> (1 <= length (with_cut cut ts))%nat -> r.1 = Stuck -> thumb_done_with b k out ts srcs cut r.
Proof.
  intros Hn Hl Hr. unfold thumb_done_with. rewrite decide_False; [done|]. intros H. apply Hn. eapply room_for_mono; [exact H|lia].
Qed.

Lemma bind_stuck {S A B} (m : M S A) (k : A -> M S B) s : (m s).1 = Stuck -> (bind m k s).1 = Stuck.
Proof. unfold bind. by destruct (m s) as [[a| |] s']. Qed.

Lemma bind_returns {S A B} (m : M S A) (k : A -> M S B) s a s' : m s = (Returns a, s') -> bind m k s = k a s'.
Proof. unfold bind. by intros ->. Qed.

Lemma aget_drop {A} (l : list A) k i w : drop k l !! i = Some w -> aget l (Z.of_nat (k + i)) = Some w.
Proof. intros H. unfold aget. rewrite decide_True, Nat2Z.id by lia. by rewrite lookup_drop in H. Qed.

(** One round. *)
Definition round_ends (len_ : Z) (st : Z * list Z * Z) : Z * list Z * Z + Z * list Z * Z :=
  if Z.quot len_ 2 <=? st.1.1 then inr st else inl st.

Lemma round_narrow load orig len_ k out pc w ws t b :
  drop k orig = w :: ws -> wide w = false -> relocateInstructionInThumb16 load pc w = Some t -> room_for 1 b ->
  exists b1, thumb_round load orig len_ (Z.of_nat k, out, pc) b =
      (Returns (round_ends len_ (Z.of_nat (k + 1), out ++ t, u32 (pc + 2))), b1) /\
    extended b [Z.of_nat k * 2] [Z.of_nat (length out) * 2] b1.
Proof.
  intros Hd Hw Ht Hr.
  destruct (add_boundary_run (Z.of_nat k * 2) (Z.of_nat (length out) * 2) b Hr) as (b1 & Hb1 & Hext & _).
  exists b1. split; [|exact Hext]. unfold thumb_round. erewrite bind_returns by exact Hb1.
  assert (aget orig (Z.of_nat k) = Some w) as Hg.
  { rewrite <- (Nat.add_0_r k). apply aget_drop. by rewrite Hd. }
  erewrite bind_returns by (by rewrite Hg). unfold wide in Hw. rewrite Hw.
  erewrite bind_returns by (by rewrite Ht). replace (Z.of_nat k + 1) with (Z.of_nat (k + 1)) by lia. done.
Qed.

Lemma round_wide load orig len_ k out pc w low ws t b :
  drop k orig = w :: low :: ws -> Z.quot len_ 2 = Z.of_nat (k + length (w :: low :: ws)) ->
  wide w = true -> relocateInstructionInThumb32 load pc w low = Some t -> room_for 1 b ->
  exists b1, thumb_round load orig len_ (Z.of_nat k, out, pc) b =
      (Returns (round_ends len_ (Z.of_nat (k + 2), out ++ t, u32 (pc + 4))), b1) /\
    extended b [Z.of_nat k * 2] [Z.of_nat (length out) * 2] b1.
Proof.
  intros Hd Hl Hw Ht Hr.
  destruct (add_boundary_run (Z.of_nat k * 2) (Z.of_nat (length out) * 2) b Hr) as (b1 & Hb1 & Hext & _).
  exists b1. split; [|exact Hext]. unfold thumb_round. erewrite bind_returns by exact Hb1.
  assert (aget orig (Z.of_nat k) = Some w) as Hg.
  { rewrite <- (Nat.add_0_r k). apply aget_drop. by rewrite Hd. }
  assert (aget orig (Z.of_nat k + 1) = Some low) as Hg1.
  { replace (Z.of_nat k + 1) with (Z.of_nat (k + 1)) by lia. apply aget_drop. by rewrite Hd. }
  erewrite bind_returns by (by rewrite Hg). unfold wide in Hw. rewrite Hw, Hl. cbn [length].
  destruct (Z.ltb_spec (Z.of_nat (k + S (S (length ws)))) (Z.of_nat k + 2)); [lia|].
  erewrite bind_returns by (by rewrite Hg1). erewrite bind_returns by (by rewrite Ht).
  replace (Z.of_nat k + 2) with (Z.of_nat (k + 2)) by lia. unfold round_ends. by rewrite Hl.
Qed.

Lemma round_cut load orig len_ k out pc w b :
  drop k orig = [w] -> Z.quot len_ 2 = Z.of_nat (k + 1) -> wide w = true -> room_for 1 b ->
  exists b1, thumb_round load orig len_ (Z.of_nat k, out, pc) b = (Returns (inr (Z.of_nat k, out, pc)), b1) /\
    extended b [Z.of_nat k * 2] [Z.of_nat (length out) * 2] b1.
Proof.
  intros Hd Hl Hw Hr.
  destruct (add_boundary_run (Z.of_nat k * 2) (Z.of_nat (length out) * 2) b Hr) as (b1 & Hb1 & Hext & _).
  exists b1. split; [|exact Hext]. unfold thumb_round. erewrite bind_returns by exact Hb1.
  assert (aget orig (Z.of_nat k) = Some w) as Hg.
  { rewrite <- (Nat.add_0_r k). apply aget_drop. by rewrite Hd. }
  erewrite bind_returns by (by rewrite Hg). unfold wide in Hw. rewrite Hw, Hl.
  destruct (Z.ltb_spec (Z.of_nat (k + 1)) (Z.of_nat k + 2)); [done|lia].
Qed.

Lemma round_full load orig len_ k out pc b :
  ~ room_for 1 b -> (thumb_round load orig len_ (Z.of_nat k, out, pc) b).1 = Stuck.
Proof. intros Hr. unfold thumb_round. by apply stuck_full. Qed.

Lemma thumb_loop load orig len_ pc ws ts srcs cut :
  relocated_thumb load pc ws ts srcs cut -> forall k out b fuel,
  ws <> [] -> drop k orig = ws -> Z.quot len_ 2 = Z.of_nat (k + length ws) -> (length ws < fuel)%nat ->
  thumb_done_with b k out ts srcs cut (loop fuel (thumb_round load orig len_) (Z.of_nat k, out, pc) b).
Proof.
  induction 1 as [pc|pc w Hw|pc w low ws t ts srcs cut Hw Ht Hrest IH|pc w ws t ts srcs cut Hw Ht Hrest IH];
    intros k out b fuel Hne Hd Hlen Hfuel; [done|..];
    (destruct fuel as [|fuel]; [cbn in Hfuel; lia|]); cbn [loop];
    (destruct (decide (room_for 1 b)) as [Hr|Hr];
     [|apply done_stuck; [done|rewrite with_cut_length; cbn; lia|by apply bind_stuck, round_full]]).
  - destruct (round_cut load orig len_ k out pc w b Hd Hlen Hw Hr) as (b1 & Hb1 & Hext).
    erewrite bind_returns by exact Hb1. unfold thumb_done_with. cbn. rewrite decide_True by done.
    exists pc, b1. by rewrite app_nil_r, Nat.add_0_r.
  - destruct (round_wide load orig len_ k out pc w low ws t b Hd Hlen Hw Ht Hr) as (b1 & Hb1 & Hext).
    erewrite bind_returns by exact Hb1. unfold round_ends. cbn [fst]. rewrite Hlen. cbn [length] in *.
    destruct (Z.leb_spec (Z.of_nat (k + S (S (length ws)))) (Z.of_nat (k + 2))) as [Hle|Hgt].
    + destruct ws; [|cbn in Hle; lia]. inversion Hrest; subst. by apply (done_end b b1 k out t [w; low]).
    + eapply (done_cons b b1 k out t [w; low]); [done|exact Hext|by apply (relocated_thumb_lengths _ _ _ _ _ _ Hrest)|].
      cbn [length]. apply IH; [by intros ->; cbn in Hgt; lia| |lia|lia].
      by rewrite <- drop_drop, Hd.
  - destruct (round_narrow load orig len_ k out pc w ws t b Hd Hw Ht Hr) as (b1 & Hb1 & Hext).
    erewrite bind_returns by exact Hb1. unfold round_ends. cbn [fst]. rewrite Hlen. cbn [length] in *.
    destruct (Z.leb_spec (Z.of_nat (k + S (length ws))) (Z.of_nat (k + 1))) as [Hle|Hgt].
    + destruct ws; [|cbn in Hle; lia]. inversion Hrest; subst. by apply (done_end b b1 k out t [w]).
    + eapply (done_cons b b1 k out t [w]); [done|exact Hext|by apply (relocated_thumb_lengths _ _ _ _ _ _ Hrest)|].
      cbn [length]. apply IH; [by intros ->; cbn in Hgt; lia| |lia|lia].
      by rewrite <- drop_drop, Hd.
Qed.

(** C11. Relocation in Thumb state, for code that starts with [ws] and has
    relocations [ts] of its whole instructions.  If the tables have room for
    an entry for each instruction, also for one that is cut off at the end, the
    trampoline is the pieces of the instructions that fit and a jump (in Thumb
    state) to the first instruction that was not moved, and the tables get the
    position of every instruction.  If they do not (those of a hook item have four
    entries, and there can be six instructions), they are written past their
    end. *)
Theorem thumb_relocation load target_addr ws ts srcs cut b :
  relocated_thumb load (u32 (target_addr + 4)) ws ts srcs cut -> ws <> [] ->
  if decide (room_for (Z.of_nat (length (with_cut cut ts))) b) then
    exists b', relocateInstructionInThumb load target_addr ws (2 * Z.of_nat (length ws)) b =
        (Returns (concat ts ++ LDR_W_PC ++ literal (u32 (target_addr + Z.of_nat (length (concat srcs)) * 2 + 1))), b') /\
      extended b (layout 2 0 (with_cut cut srcs)) (layout 2 0 (with_cut cut ts)) b'
  else (relocateInstructionInThumb load target_addr ws (2 * Z.of_nat (length ws)) b).1 = Stuck.
Proof.
  intros Hr Hne. assert (Z.quot (2 * Z.of_nat (length ws)) 2 = Z.of_nat (0 + length ws)) as Hq by (rewrite Z.mul_comm, Z.quot_mul; lia).
  pose proof (thumb_loop load ws _ _ _ _ _ _ Hr 0%nat [] b (S (Z.to_nat (2 * Z.of_nat (length ws)))) Hne eq_refl Hq ltac:(lia)) as H.
  unfold thumb_done_with in H. unfold relocateInstructionInThumb. destruct (decide _).
  - destruct H as (pc' & b' & Hrun & Hext). exists b'. split; [|exact Hext]. change (Z.of_nat 0) with 0 in Hrun.
    erewrite bind_returns by exact Hrun. done.
  - by apply bind_stuck.
Qed.

(** Six half-words can be more than the four instructions a hook item has
    room for: the table of the boundaries is then written past its end. *)
Theorem thumb_tables_overflow load target_addr ws ts srcs cut b :
  relocated_thumb load (u32 (target_addr + 4)) ws ts srcs cut ->
  length b.(orig_boundaries) = 4%nat -> b.(count) = 0 -> (4 < length ts)%nat ->
  (relocateInstructionInThumb load target_addr ws (2 * Z.of_nat (length ws)) b).1 = Stuck.
Proof.
  intros Hr Hl Hc Hts. assert (ws <> []) as Hne by (intros ->; inversion Hr; subst; cbn in Hts; lia).
  assert (Z.quot (2 * Z.of_nat (length ws)) 2 = Z.of_nat (0 + length ws)) as Hq by (rewrite Z.mul_comm, Z.quot_mul; lia).
  pose proof (thumb_loop load ws _ _ _ _ _ _ Hr 0%nat [] b (S (Z.to_nat (2 * Z.of_nat (length ws)))) Hne eq_refl Hq ltac:(lia)) as H.
  unfold thumb_done_with in H. rewrite decide_False in H.
  - unfold relocateInstructionInThumb. by apply bind_stuck.
  - unfold room_for. rewrite Hc, Hl, with_cut_length. lia.
Qed.

(** Tables as [addInlineHookItem] finds them in a fresh item. *)
Definition fresh_boundaries : boundaries := mkBoundaries (replicate 4 0) (replicate 20 0) 0.

(** [PUSH {r4, lr}; NOP; BL <label>; LDR.W r1, [r0]]: four instructions of
    twelve bytes. *)
Definition demo_thumb : list Z := [0xB510; 0xBF00; 0xF000; 0xF802; 0xF8D0; 0x1000].

Lemma demo_thumb_relocated (load : Z -> option Z) : relocated_thumb load 0x8004 demo_thumb
  [[0xB510; 0xBF00]; [0xBF00; 0xBF00]; [0xF20F; 0x0E09; 0xF8DF; 0xF000; 0x800D; 0]; [0xF8D0; 0x1000]]
  [[0xB510]; [0xBF00]; [0xF000; 0xF802]; [0xF8D0; 0x1000]] false.
Proof.
  apply rt_narrow; [reflexivity..|]. apply rt_narrow; [reflexivity..|]. apply rt_wide; [reflexivity..|].
  apply rt_wide; [reflexivity..|]. apply rt_done.
Qed.

Lemma arm_relocation_witness :
  exists b', relocateInstructionInArm (fun _ => None) 0x8000 [0xE92D4010; 0xEB000000] 8 fresh_boundaries =
      (Returns [0xE92D4010; 0xE28FE004; 0xE51FF004; 0x800C; 0xe51ff004; 0x8008], b') /\
    extended fresh_boundaries [0; 4] [0; 4] b'.
Proof.
  apply (arm_relocation (fun _ => None) 0x8000 [0xE92D4010; 0xEB000000]
           [[0xE92D4010]; [0xE28FE004; 0xE51FF004; 0x800C]] fresh_boundaries).
  - apply relocated_cons; [reflexivity|]. apply relocated_cons; [reflexivity|]. apply relocated_nil.
  - split; [cbn; lia|]. cbn. lia.
Defined.

(** Four entries fill the tables of an item; a fifth instruction is written
    behind them. *)
Lemma thumb_relocation_witness :
  (exists b', relocateInstructionInThumb (fun _ => None) 0x8000 demo_thumb 12 fresh_boundaries =
      (Returns [0xB510; 0xBF00; 0xBF00; 0xBF00; 0xF20F; 0x0E09; 0xF8DF; 0xF000; 0x800D; 0; 0xF8D0; 0x1000;
                0xF8DF; 0xF000; 0x800D; 0], b') /\
    extended fresh_boundaries [0; 2; 4; 8] [0; 4; 8; 20] b') /\
  (relocateInstructionInThumb (fun _ => None) 0x8000 (replicate 6 0xBF00) 12 fresh_boundaries).1 = Stuck.
Proof.
  split.
  - pose proof (thumb_relocation (fun _ => None) 0x8000 demo_thumb _ _ _ fresh_boundaries (demo_thumb_relocated (fun _ => None)) ltac:(discriminate)) as H.
    rewrite decide_True in H by (split; [cbn; lia|cbn; lia]). exact H.
  - pose proof (thumb_relocation (fun _ => None) 0x8000 (replicate 6 0xBF00) (replicate 6 [0xBF00; 0xBF00]) (replicate 6 [0xBF00]) false fresh_boundaries) as H.
    rewrite decide_False in H by (intros (_ & Hlen & _); cbn in Hlen; lia). apply H; [|discriminate].
    do 6 (apply rt_narrow; [reflexivity..|]). apply rt_done.
Defined.

(** Six instructions of one half-word each. *)
Lemma thumb_tables_overflow_witness :
  (relocateInstructionInThumb (fun _ => None) 0x8000 (replicate 6 0xBF00) 12 fresh_boundaries).1 = Stuck.
Proof.
  apply (thumb_tables_overflow (fun _ => None) 0x8000 (replicate 6 0xBF00) (replicate 6 [0xBF00; 0xBF00])
           (replicate 6 [0xBF00]) false fresh_boundaries).
  - do 6 (apply rt_narrow; [reflexivity..|]). apply rt_done.
  - reflexivity.
  - reflexivity.
  - cbn. lia.
Defined.

(** ** The pieces *)

Lemma thumb16_piece load pc w t :
  relocateInstructionInThumb16 load pc w = Some t -> Nat.Even (length t) /\ (2 <= length t <= 8)%nat.
Proof.
  unfold relocateInstructionInThumb16. intros H.
  destruct (getTypeInThumb16 w); try (injection H as <-; cbn; split; [by apply Nat.even_spec|lia]).
  destruct (load _); [|done]. injection H as <-. cbn. split; [by apply Nat.even_spec|lia].
Qed.

Lemma thumb32_piece load pc w low t :
  relocateInstructionInThumb32 load pc w low = Some t -> Nat.Even (length t) /\ (2 <= length t <= 14)%nat.
Proof.
  unfold relocateInstructionInThumb32. intros H.
  destruct (getTypeInThumb32 _); try (injection H as <-; cbn; split; [by apply Nat.even_spec|lia]).
  destruct (load _); [|done]. injection H as <-. cbn. split; [by apply Nat.even_spec|lia].
Qed.

Lemma arm_piece load pc w t : relocate_arm load pc w = Some t -> (1 <= length t <= 6)%nat.
Proof.
  unfold relocate_arm. intros H. destruct (getTypeInArm w); try (apply (inj Some) in H; subst t; cbn; lia).
  destruct (load _); [|done]. apply (inj Some) in H. subst t. cbn. lia.
Qed.

Lemma layout_aligned ts : forall pos, (4 | pos) -> Forall (fun t => Nat.Even (length t)) ts ->
  Forall (fun p => (4 | p)) (layout 2 pos ts).
Proof.
  induction ts as [|t ts IH]; intros pos Hp Hts; cbn; [done|]. apply Forall_cons in Hts as [[n Hn] Hts].
  constructor; [done|]. apply IH; [|done]. apply Z.divide_add_r; [done|]. exists (Z.of_nat n). lia.
Qed.

(** Every piece starts on a word boundary, where its loads relative to
    [PC] expect the literal, and the whole trampoline with the jump back fits
    in a page. *)
Theorem thumb_pieces_aligned load pc ws ts srcs cut :
  relocated_thumb load pc ws ts srcs cut -> (length ws <= 6)%nat ->
  Forall (fun p => (4 | p)) (layout 2 0 (with_cut cut ts)) /\
  2 * Z.of_nat (length (concat ts ++ LDR_W_PC ++ literal 0)) <= 4096.
Proof.
  intros H Hl.
  assert (Forall (fun t => Nat.Even (length t)) ts) as He.
  { clear Hl. induction H; constructor; try done; [by eapply thumb32_piece|by eapply thumb16_piece]. }
  assert (length (concat ts) <= 14 * length ws)%nat as Hb.
  { clear Hl He. induction H; cbn [concat length] in *; rewrite ?length_app; [lia|lia|..].
    - pose proof (thumb32_piece _ _ _ _ _ H0) as [_ ?]. lia.
    - pose proof (thumb16_piece _ _ _ _ H0) as [_ ?]. lia. }
  split; [|rewrite length_app; cbn [length LDR_W_PC literal app]; lia].
  apply layout_aligned; [by exists 0|]. destruct cut; [|done]. apply Forall_app. split; [done|].
  constructor; [by exists 0%nat|done].
Qed.

(** *** The state of a branch target *)

Lemma u32_bit0 z : Z.testbit (u32 z) 0 = Z.testbit z 0.
Proof. unfold u32. change 4294967296 with (2 ^ 32). by rewrite Z.mod_pow2_bits_low by lia. Qed.

Lemma shiftl1_bit0 z n : 0 < n -> Z.testbit (Z.shiftl z n) 0 = false.
Proof. intros Hn. apply Z.shiftl_spec_low. lia. Qed.

Lemma sign_fill_bit0 top x n : 0 < n -> Z.testbit x 0 = false -> Z.testbit (sign_fill top x n) 0 = false.
Proof.
  intros Hn Hx. unfold sign_fill. destruct (negb _); [|done].
  by rewrite Z.lor_spec, Hx, u32_bit0, shiftl1_bit0.
Qed.

(** Whether the literal of a branch has the bit that keeps Thumb state. *)
Definition branches_to_thumb (t : list Z) : option bool :=
  match rev t with
  | _ :: low :: pc_hi :: pc_lo :: _ =>
      if decide ([pc_lo; pc_hi] = LDR_W_PC) then Some (Z.testbit low 0) else None
  | _ => None
  end.

Lemma literal_state pre v : branches_to_thumb (pre ++ LDR_W_PC ++ literal v) = Some (Z.testbit v 0).
Proof.
  unfold branches_to_thumb. rewrite !rev_app_distr. unfold LDR_W_PC, literal. cbn [rev app].
  rewrite decide_True by done. by rewrite Z.land_spec, andb_true_r.
Qed.

(** A narrow branch, conditional or not, is moved to a load of [PC] whose
    literal lacks the Thumb bit, so the processor leaves Thumb state on the
    way to its target; the compare-and-branch of the same size has the bit. *)
Theorem narrow_branch_state load pc w t :
  Z.testbit pc 0 = false -> relocateInstructionInThumb16 load pc w = Some t ->
  match getTypeInThumb16 w with
  | B1_THUMB16 | B2_THUMB16 => branches_to_thumb t = Some false
  | CB_THUMB16 => branches_to_thumb t = Some true
  | _ => True
  end.
Proof.
  intros Hpc. unfold relocateInstructionInThumb16. destruct (getTypeInThumb16 w); try done;
    intros H; apply (inj Some) in H; subst t.
  - rewrite literal_state. f_equal.
    by rewrite u32_bit0, Z.add_bit0, Hpc, sign_fill_bit0 by (lia || by apply shiftl1_bit0).
  - change (LDR_W_PC ++ ?l) with ([] ++ LDR_W_PC ++ l). rewrite literal_state. f_equal.
    by rewrite u32_bit0, Z.add_bit0, Hpc, sign_fill_bit0 by (lia || by apply shiftl1_bit0).
  - rewrite literal_state. f_equal. rewrite u32_bit0, !Z.add_bit0, Hpc, Z.lor_spec.
    rewrite !Z.shiftr_spec, !Z.land_spec by lia.
    change (Z.testbit 512 (0 + 3)) with false. change (Z.testbit 248 (0 + 2)) with false. by rewrite !andb_false_r.
Qed.

(** [B .-4] in Thumb state. *)
Lemma narrow_branch_state_witness :
  relocateInstructionInThumb16 (fun _ => None) 0x8004 0xE7FE = Some (LDR_W_PC ++ [0x8000; 0]) /\
  branches_to_thumb (LDR_W_PC ++ [0x8000; 0]) = Some false.
Proof.
  split; [reflexivity|].
  exact (narrow_branch_state (fun _ => None) 0x8004 0xE7FE (LDR_W_PC ++ [0x8000; 0]) eq_refl eq_refl).
Defined.

Lemma thumb_pieces_aligned_witness :
  Forall (fun p => (4 | p)) [0; 4; 8; 20] /\
  2 * Z.of_nat (length (concat [[0xB510; 0xBF00]; [0xBF00; 0xBF00]; [0xF20F; 0x0E09; 0xF8DF; 0xF000; 0x800D; 0];
    [0xF8D0; 0x1000]] ++ LDR_W_PC ++ literal 0)) <= 4096.
Proof.
  apply (thumb_pieces_aligned (fun _ => None) 0x8004 demo_thumb _ _ false (demo_thumb_relocated _)). cbn. lia.
Defined.
