(* ===== verification/InlineHook.v ===== *)
(** * libmemcheck: inline hooks (inlineHook/inlineHook.c)

    The table of hooks and what its operations do to the process: the code
    that is overwritten and restored, the trampolines, the program counters of
    the threads that are stopped meanwhile, and the ranges that are flushed
    from the instruction cache.  The kernel's part is in the state as the
    results of the coming calls: [mmaps] (the address or [None] for
    [MAP_FAILED]), [mallocs], [forks]; [traceable] tells which threads
    [ptrace] can attach to and read; [mprotect] succeeds.  An access to
    unmapped memory is [Stuck]. *)

From stdpp Require Import base numbers list list_numbers.
From Stdlib Require Import Lia ZArith.
From S2P Require Import Prelude Relocate.

#[local] Open Scope Z_scope.
#[local] Open Scope c_scope.

Definition PAGE_SIZE := 4096.
Definition SET_BIT0 (addr : Z) : Z := Z.lor addr 1.
Definition CLEAR_BIT0 (addr : Z) : Z := Z.land addr 0xFFFFFFFE.
Definition TEST_BIT0 (addr : Z) : Z := Z.land addr 1.

Inductive hook_action : Type := ACTION_ENABLE | ACTION_DISABLE.

Definition REGISTERED := 0.
Definition HOOKED := 1.

Inductive ele7en_status : Type :=
| ELE7EN_ERROR_UNKNOWN
| ELE7EN_OK
| ELE7EN_ERROR_NOT_INITIALIZED
| ELE7EN_ERROR_NOT_EXECUTABLE
| ELE7EN_ERROR_NOT_REGISTERED
| ELE7EN_ERROR_NOT_HOOKED
| ELE7EN_ERROR_ALREADY_REGISTERED
| ELE7EN_ERROR_ALREADY_HOOKED
| ELE7EN_ERROR_SO_NOT_FOUND
| ELE7EN_ERROR_FUNCTION_NOT_FOUND.

(** [orig_boundaries], [trampoline_boundaries] and [count] are in [tables];
    [orig_instructions] is the block the pointer owns. *)
Record inlineHookItem : Type := mkItem {
  target_addr : Z;
  new_addr : Z;
  proto_addr : Z;
  orig_instructions : list Z;
  tables : boundaries;
  trampoline_instructions : Z;
  length_ : Z;
  status : Z;
  mode : Z
}.

Definition zero_item : inlineHookItem :=
  mkItem 0 0 0 [] (mkBoundaries (replicate 4 0) (replicate 20 0) 0) 0 0 0 0.

Definition MAX_ITEMS := 1024.

(** The process: its memory by bytes, the threads with their program
    counters, [info], the cache flushes so far. *)
Record process : Type := mkProcess {
  memory : Z -> option Z;
  threads : list (Z * Z);
  item : list inlineHookItem;
  size : Z;
  flushed : list (Z * Z);
  mmaps : list (option Z);
  mallocs : list bool;
  forks : list bool
}.

Definition set_memory v p := mkProcess v p.(threads) p.(item) p.(size) p.(flushed) p.(mmaps) p.(mallocs) p.(forks).
Definition set_threads v p := mkProcess p.(memory) v p.(item) p.(size) p.(flushed) p.(mmaps) p.(mallocs) p.(forks).
Definition set_item v p := mkProcess p.(memory) p.(threads) v p.(size) p.(flushed) p.(mmaps) p.(mallocs) p.(forks).
Definition set_size v p := mkProcess p.(memory) p.(threads) p.(item) v p.(flushed) p.(mmaps) p.(mallocs) p.(forks).
Definition set_flushed v p := mkProcess p.(memory) p.(threads) p.(item) p.(size) v p.(mmaps) p.(mallocs) p.(forks).
Definition set_mmaps v p := mkProcess p.(memory) p.(threads) p.(item) p.(size) p.(flushed) v p.(mallocs) p.(forks).
Definition set_mallocs v p := mkProcess p.(memory) p.(threads) p.(item) p.(size) p.(flushed) p.(mmaps) v p.(forks).
Definition set_forks v p := mkProcess p.(memory) p.(threads) p.(item) p.(size) p.(flushed) p.(mmaps) p.(mallocs) v.

Definition HookM := M process.

(** ** Memory *)

Fixpoint load_bytes (n : nat) (a : Z) (m : Z -> option Z) : option (list Z) :=
  match n with
  | O => Some []
  | S n =>
      match m a, load_bytes n (a + 1) m with
      | Some b, Some bs => Some (b :: bs)
      | _, _ => None
      end
  end.

Fixpoint store_bytes (a : Z) (bs : list Z) (m : Z -> option Z) : option (Z -> option Z) :=
  match bs with
  | [] => Some m
  | b :: bs =>
      match m a with
      | None => None
      | Some _ => store_bytes (a + 1) bs (fun x => if x =? a then Some b else m x)
      end
  end.

Definition load_word (m : Z -> option Z) (a : Z) : option Z :=
  match load_bytes 4 a m with
  | Some bs => head (words bs)
  | None => None
  end.

Definition map_page (a : Z) (m : Z -> option Z) : Z -> option Z :=
  fun x => if (a <=? x) && (x <? a + PAGE_SIZE) then Some 0 else m x.
Definition unmap_page (a : Z) (m : Z -> option Z) : Z -> option Z :=
  fun x => if (a <=? x) && (x <? a + PAGE_SIZE) then None else m x.

Definition read_memory (a n : Z) : HookM (list Z) :=
  let! m := gets memory in of_option (load_bytes (Z.to_nat n) a m).

Definition write_memory (a : Z) (bs : list Z) : HookM unit :=
  let! m := gets memory in
  let! m := of_option (store_bytes a bs m) in
  modify (set_memory m).

(** [mmap(NULL, PAGE_SIZE, ...)]: [MAP_FAILED] is the address -1. *)
Definition mmap : HookM Z :=
  let! l := gets mmaps in
  modify (set_mmaps (tail l)) ;;!
  match l with
  | Some a :: _ => modify (fun p => set_memory (map_page a p.(memory)) p) ;;! ret a
  | _ => ret 0xFFFFFFFF
  end.

Definition munmap (a : Z) : HookM unit :=
  modify (fun p => set_memory (unmap_page a p.(memory)) p).

Definition malloc_ok : HookM bool :=
  let! l := gets mallocs in
  modify (set_mallocs (tail l)) ;;!
  ret (match l with b :: _ => b | [] => true end).

Definition cacheflush (from to_ : Z) : HookM unit :=
  modify (fun p => set_flushed (p.(flushed) ++ [(from, to_)]) p).

(** ** Threads *)

(** The loops of [doProcessThreadPC]: the entry of [to_] at the first of [n]
    indices where [from] holds [offset]; the outer [None] is a read past the
    end of a table. *)
Fixpoint find_boundary (from to_ : list Z) (offset : Z) (n : nat) (i : Z) : option (option Z) :=
  match n with
  | O => Some None
  | S n =>
      match aget from i with
      | None => None
      | Some k =>
          if offset =? k then
            match aget to_ i with None => None | Some v => Some (Some v) end
          else find_boundary from to_ offset n (i + 1)
      end
  end.

(** [doProcessThreadPC]: the new program counter if the function returns
    true. *)
Definition doProcessThreadPC (it : inlineHookItem) (pc : Z) (action : hook_action) : option (option Z) :=
  let b := it.(tables) in
  let n := Z.to_nat b.(count) in
  match action with
  | ACTION_ENABLE =>
      let offset := i32 (pc - CLEAR_BIT0 it.(target_addr)) in
      match find_boundary b.(orig_boundaries) b.(trampoline_boundaries) offset n 0 with
      | Some (Some v) => Some (Some (u32 (it.(trampoline_instructions) + v)))
      | r => r
      end
  | ACTION_DISABLE =>
      let offset := i32 (pc - it.(trampoline_instructions)) in
      match find_boundary b.(trampoline_boundaries) b.(orig_boundaries) offset n 0 with
      | Some (Some v) => Some (Some (u32 (CLEAR_BIT0 it.(target_addr) + v)))
      | r => r
      end
  end.

(** The loop over all items when no item is given. *)
Fixpoint first_move (its : list inlineHookItem) (pc : Z) (action : hook_action) : option (option Z) :=
  match its with
  | [] => Some None
  | it :: its =>
      match doProcessThreadPC it pc action with
      | Some None => first_move its pc action
      | r => r
      end
  end.

Section Threads.
(** Which threads can be attached to, the process id, whether [/proc/self/task]
    can be opened. *)
Context (traceable : Z -> bool) (pid : Z) (task_dir : bool).

(** [processThreadPC] on a thread that [ptrace] could attach to. *)
Definition processThreadPC (its : list inlineHookItem) (action : hook_action) (pc : Z) : option Z :=
  match first_move its pc action with
  | None => None
  | Some r => Some (default pc r)
  end.

(** [getAllTids]: at most 1024 fit in the caller's array. *)
Definition getAllTids (ts : list (Z * Z)) : option (list Z) :=
  let tids := filter (fun tid => tid <> 0 /\ tid <> pid) (fst <$> ts) in
  if negb task_dir then Some []
  else if MAX_ITEMS <? Z.of_nat (length tids) then None else Some tids.

(** The loop of the child over the threads it stops. *)
Fixpoint move_threads (tids : list Z) (its : list inlineHookItem) (action : hook_action) (ts : list (Z * Z)) :
    option (list (Z * Z)) :=
  match ts with
  | [] => Some []
  | (tid, pc) :: ts =>
      match (if bool_decide (tid ∈ tids) && traceable tid then processThreadPC its action pc else Some pc),
            move_threads tids its action ts with
      | Some pc, Some ts => Some ((tid, pc) :: ts)
      | _, _ => None
      end
  end.

(** [freeze]: the child stops the threads and moves their program counters
    off the code that is about to change; the result is whether there is a
    child to be killed by [unFreeze]. *)
Definition freeze (it : option inlineHookItem) (action : hook_action) : HookM bool :=
  let! p := gets (fun p => p) in
  let! tids := of_option (getAllTids p.(threads)) in
  if 0 <? Z.of_nat (length tids) then
    modify (set_forks (tail p.(forks))) ;;!
    match p.(forks) with
    | false :: _ => ret false
    | _ =>
        let its := match it with
                   | Some it => [it]
                   | None => take (Z.to_nat p.(size)) p.(item)
                   end in
        let! ts := of_option (move_threads tids its action p.(threads)) in
        modify (set_threads ts) ;;!
        ret true
    end
  else ret false.

(** [unFreeze] kills the child; the threads go on. *)
Definition unFreeze (child : bool) : HookM unit := ret tt.

(** ** The table *)

Definition items : HookM (list inlineHookItem) :=
  let! p := gets (fun p => p) in
  if Z.of_nat (length p.(item)) <? p.(size) then stuck else ret (take (Z.to_nat p.(size)) p.(item)).

(** The index and the contents of the first item that satisfies a test. *)
Definition find_item (test : inlineHookItem -> bool) : HookM (option (nat * inlineHookItem)) :=
  let! its := items in
  ret (list_find (fun it => test it = true) its).

Definition findInlineHookItem (target : Z) : HookM (option (nat * inlineHookItem)) :=
  find_item (fun it => it.(target_addr) =? target).

(** [addInlineHookItem]: the index of the new item, [None] for the null
    pointer.  The item keeps what the slot held before. *)
Definition addInlineHookItem : HookM (option Z) :=
  let! n := gets size in
  if MAX_ITEMS <=? n then ret None
  else modify (set_size (n + 1)) ;;! ret (Some n).

Definition deleteInlineHookItem (pos : Z) : HookM unit :=
  let! p := gets (fun p => p) in
  let! last := of_option (aget p.(item) (p.(size) - 1)) in
  let! l := of_option (aset p.(item) pos last) in
  modify (set_item l) ;;!
  modify (set_size (p.(size) - 1)).

Definition read_item (i : Z) : HookM inlineHookItem :=
  let! l := gets item in of_option (aget l i).

Definition write_item (i : Z) (it : inlineHookItem) : HookM unit :=
  let! l := gets item in
  let! l := of_option (aset l i it) in
  modify (set_item l).

(** ** Executable addresses *)

(** [strtoul(s, NULL, 16)] on the bytes of a C string. *)
Definition hex_digit (c : Z) : option Z :=
  if (48 <=? c) && (c <=? 57) then Some (c - 48)
  else if (97 <=? c) && (c <=? 102) then Some (c - 87)
  else if (65 <=? c) && (c <=? 70) then Some (c - 55)
  else None.

Fixpoint hex_value (s : list Z) (acc : Z) : Z :=
  match s with
  | [] => acc
  | c :: s => match hex_digit c with Some d => hex_value s (16 * acc + d) | None => acc end
  end.

Definition is_space (c : Z) : bool := (c =? 32) || ((9 <=? c) && (c <=? 13)).

Fixpoint skip_while (f : Z -> bool) (s : list Z) : list Z :=
  match s with
  | c :: s' => if f c then skip_while f s' else s
  | [] => []
  end.

Definition strtoul16 (s : list Z) : Z :=
  let s := skip_while is_space s in
  let '(neg, s) := match s with
                   | 45 :: s => (true, s)
                   | 43 :: s => (false, s)
                   | _ => (false, s)
                   end in
  let s := match s with
           | 48 :: x :: d :: s' =>
               if ((x =? 120) || (x =? 88)) && (match hex_digit d with Some _ => true | None => false end)
               then d :: s' else s
           | _ => s
           end in
  let v := hex_value s 0 in
  if 0xFFFFFFFF <? v then 0xFFFFFFFF else if neg : bool then u32 (- v) else v.

(** [strtok] with one delimiter: the token and what follows its delimiter. *)
Fixpoint split_at (delim : Z) (s : list Z) : list Z * list Z :=
  match s with
  | [] => ([], [])
  | c :: s =>
      if c =? delim then ([], s)
      else let '(tok, rest) := split_at delim s in (c :: tok, rest)
  end.

Definition strtok (delim : Z) (s : list Z) : option (list Z * list Z) :=
  match skip_while (fun c => c =? delim) s with
  | [] => None
  | s => Some (split_at delim s)
  end.

Fixpoint strstr (sub s : list Z) : bool :=
  bool_decide (take (length sub) s = sub) ||
  match s with [] => false | _ :: s => strstr sub s end.

(** "r-xp" *)
Definition R_XP : list Z := [114; 45; 120; 112].

(** [isExecutableAddr] on the lines [fgets] returns; [None] if [fopen] fails. *)
Fixpoint in_lines (addr : Z) (lines : list (list Z)) : HookM bool :=
  match lines with
  | [] => ret false
  | line :: lines =>
      if strstr R_XP line then
        let! ' (tok, rest) := of_option (strtok 45 line) in
        let! ' (tok2, _) := of_option (strtok 32 rest) in
        if (strtoul16 tok <=? addr) && (addr <=? strtoul16 tok2) then ret true
        else in_lines addr lines
      else in_lines addr lines
  end.

Definition isExecutableAddr (maps : option (list (list Z))) (addr : Z) : HookM bool :=
  match maps with None => ret false | Some lines => in_lines addr lines end.

(** ** Hooking *)

Definition registerInlineHook (maps : option (list (list Z))) (target new proto : Z) : HookM ele7en_status :=
  let! ok1 := isExecutableAddr maps target in
  let! ok2 := if ok1 : bool then isExecutableAddr maps new else ret false in
  if negb ok2 then ret ELE7EN_ERROR_NOT_EXECUTABLE
  else
    let! found := findInlineHookItem target in
    match found with
    | Some (_, it) =>
        if it.(status) =? REGISTERED then ret ELE7EN_ERROR_ALREADY_REGISTERED
        else if it.(status) =? HOOKED then ret ELE7EN_ERROR_ALREADY_HOOKED
        else ret ELE7EN_ERROR_UNKNOWN
    | None =>
        let! slot := addInlineHookItem in
        let! i := of_option slot in
        let! old := read_item i in
        let len := if negb (TEST_BIT0 target =? 0) then 12 else 8 in
        let! ok := malloc_ok in
        if negb ok then stuck
        else
          let! bytes := read_memory (CLEAR_BIT0 target) len in
          let! tramp := mmap in
          let! m := gets memory in
          let '(r, tables) := relocateInstruction (load_word m) target bytes len old.(tables) in
          let! code := of_option (match r with Returns code => Some code | _ => None end) in
          write_memory tramp code ;;!
          write_item i (mkItem target new proto bytes tables tramp len REGISTERED old.(mode)) ;;!
          ret ELE7EN_OK
    end.

(** [doInlineUnHook]: [item] points to [info.item[pos]], so the fields read
    after [deleteInlineHookItem] are those of the item moved there. *)
Definition doInlineUnHook (pos : Z) : HookM unit :=
  let! it := read_item pos in
  write_memory (CLEAR_BIT0 it.(target_addr)) (take (Z.to_nat it.(length_)) it.(orig_instructions)) ;;!
  munmap it.(trampoline_instructions) ;;!
  deleteInlineHookItem pos ;;!
  let! it := read_item pos in
  cacheflush (CLEAR_BIT0 it.(target_addr)) (u32 (CLEAR_BIT0 it.(target_addr) + it.(length_))).

Definition inlineUnHook (target : Z) : HookM ele7en_status :=
  let! found := find_item (fun it => (it.(target_addr) =? target) && (it.(status) =? HOOKED)) in
  match found with
  | None => ret ELE7EN_ERROR_NOT_HOOKED
  | Some (i, it) =>
      let! child := freeze (Some it) ACTION_DISABLE in
      doInlineUnHook (Z.of_nat i) ;;!
      unFreeze child ;;!
      ret ELE7EN_OK
  end.

(** One round of [inlineUnHookAll]: [--i] after a removal makes up for the
    [++i] of the loop. *)
Definition unhook_round (i : Z) : HookM (Z + unit) :=
  let! n := gets size in
  if i <? n then
    let! it := read_item i in
    if it.(status) =? HOOKED then doInlineUnHook i ;;! ret (inl i) else ret (inl (i + 1))
  else ret (inr tt).

Definition inlineUnHookAll : HookM unit :=
  let! child := freeze None ACTION_DISABLE in
  let! n := gets size in
  loop (S (Z.to_nat n)) unhook_round 0 ;;!
  unFreeze child.

(** The words [doInlineHook] stores at the target. *)
Definition jump_bytes (target new : Z) : list Z :=
  if negb (TEST_BIT0 target =? 0) then
    concat (half_word_bytes <$>
      ((if negb (CLEAR_BIT0 target mod 4 =? 0) then [0xBF00] else []) ++
       [0xF8DF; 0xF000; Z.land new 0xFFFF; Z.shiftr new 16]))
  else word_bytes 0xe51ff004 ++ word_bytes new.

Definition doInlineHook (i : Z) : HookM unit :=
  let! it := read_item i in
  write_memory (CLEAR_BIT0 it.(target_addr)) (jump_bytes it.(target_addr) it.(new_addr)) ;;!
  (if negb (it.(proto_addr) =? 0) then
     write_memory it.(proto_addr)
       (word_bytes (if negb (TEST_BIT0 it.(target_addr) =? 0) then SET_BIT0 it.(trampoline_instructions)
                    else it.(trampoline_instructions)))
   else ret tt) ;;!
  write_item i (mkItem it.(target_addr) it.(new_addr) it.(proto_addr) it.(orig_instructions) it.(tables)
                  it.(trampoline_instructions) it.(length_) HOOKED it.(mode)) ;;!
  cacheflush (CLEAR_BIT0 it.(target_addr)) (u32 (CLEAR_BIT0 it.(target_addr) + it.(length_))).

Definition inlineHook (target : Z) : HookM ele7en_status :=
  let! found := findInlineHookItem target in
  match found with
  | None => ret ELE7EN_ERROR_NOT_REGISTERED
  | Some (i, it) =>
      if it.(status) =? REGISTERED then
        let! child := freeze (Some it) ACTION_ENABLE in
        doInlineHook (Z.of_nat i) ;;!
        unFreeze child ;;!
        ret ELE7EN_OK
      else if it.(status) =? HOOKED then ret ELE7EN_ERROR_ALREADY_HOOKED
      else ret ELE7EN_ERROR_UNKNOWN
  end.

Definition inlineHookAll : HookM unit :=
  let! child := freeze None ACTION_ENABLE in
  let! n := gets size in
  for_each (fun i =>
    let! it := read_item i in
    if it.(status) =? REGISTERED then doInlineHook i else ret tt) (seqZ 0 n) ;;!
  unFreeze child.
End Threads.
