(* ===== verification/HookTable.v ===== *)
(** * libmemcheck: the table of hooks (inlineHook/inlineHook.c)

    What holds of the hook table between the calls of the library ([wf]), and
    the lemmas on its parts: the memory of the process, the table as a map
    from the hooked functions to their states ([hooks]), the threads.  The
    theorems are in HookProps.v. *)

From stdpp Require Import base numbers list list_numbers gmap.
From Stdlib Require Import Lia ZArith.
From S2P Require Import Prelude Relocate InlineHook.

#[local] Open Scope Z_scope.
#[local] Open Scope c_scope.

(** ** Memory *)

Definition mapped (m : Z -> option Z) (a n : Z) : Prop := forall x, a <= x < a + n -> is_Some (m x).

Definition disjoint (a n b k : Z) : Prop := a + n <= b \/ b + k <= a.

(** [m'] is [m] with [bs] at [a]. *)
Definition overwritten (a : Z) (bs : list Z) (m m' : Z -> option Z) : Prop :=
  forall x, m' x = if decide (a <= x < a + Z.of_nat (length bs)) then bs !! Z.to_nat (x - a) else m x.

Lemma store_bytes_spec bs : forall a m, mapped m a (Z.of_nat (length bs)) ->
  exists m', store_bytes a bs m = Some m' /\ overwritten a bs m m'.
Proof.
  induction bs as [|b bs IH]; intros a m Hm; cbn [store_bytes length] in *.
  - exists m. split; [done|]. intros x. by rewrite decide_False by (cbn; lia).
  - destruct (Hm a) as [v ->]; [lia|].
    destruct (IH (a + 1) (fun x => if x =? a then Some b else m x)) as (m' & Hst & Ho).
    { intros x Hx. destruct (x =? a); [done|]. apply Hm. lia. }
    exists m'. split; [done|]. intros x. rewrite (Ho x). cbn [length].
    destruct (Z.eq_dec x a) as [->|Hne].
    + rewrite decide_False by lia. rewrite Z.eqb_refl, decide_True by lia. by rewrite Z.sub_diag.
    + assert ((x =? a) = false) as -> by lia.
      destruct (decide _), (decide _); try lia; [|done].
      replace (Z.to_nat (x - a)) with (S (Z.to_nat (x - (a + 1)))) by lia. done.
Qed.

Lemma load_bytes_spec n : forall a m, mapped m a (Z.of_nat n) ->
  exists bs, load_bytes n a m = Some bs /\ length bs = n /\
    forall i, (i < n)%nat -> bs !! i = m (a + Z.of_nat i).
Proof.
  induction n as [|n IH]; intros a m Hm; cbn [load_bytes].
  - exists []. repeat split. lia.
  - destruct (Hm a) as [v Hv]; [lia|]. rewrite Hv.
    destruct (IH (a + 1) m) as (bs & -> & Hl & Hbs); [intros x ?; apply Hm; lia|].
    exists (v :: bs). repeat split; [cbn; lia|]. intros [|i] Hi; cbn.
    + by rewrite Z.add_0_r, Hv.
    + rewrite Hbs by lia. f_equal. lia.
Qed.

Lemma overwritten_is_Some a bs m m' x : overwritten a bs m m' -> is_Some (m x) -> is_Some (m' x).
Proof.
  intros Ho Hx. rewrite (Ho x). destruct (decide _); [|done]. apply lookup_lt_is_Some_2. lia.
Qed.

Lemma overwritten_mapped a bs m m' b n : overwritten a bs m m' -> mapped m b n -> mapped m' b n.
Proof. intros Ho Hm x Hx. eapply overwritten_is_Some; [done|]. by apply Hm. Qed.

Lemma map_page_mapped p m a n : mapped m a n -> mapped (map_page p m) a n.
Proof. intros Hm x Hx. unfold map_page. destruct (_ && _); [done|]. by apply Hm. Qed.

Lemma page_mapped p m : mapped (map_page p m) p PAGE_SIZE.
Proof. intros x Hx. unfold map_page. destruct ((p <=? x) && (x <? p + PAGE_SIZE)) eqn:E; [done|lia]. Qed.

Lemma unmap_page_mapped p m a n : mapped m a n -> disjoint p PAGE_SIZE a n -> mapped (unmap_page p m) a n.
Proof.
  intros Hm Hd x Hx. unfold unmap_page, disjoint in *.
  destruct ((p <=? x) && (x <? p + PAGE_SIZE)) eqn:E; [lia|]. by apply Hm.
Qed.

(** ** The invariant *)

Definition tables_ok (b : boundaries) : Prop :=
  length b.(orig_boundaries) = 4%nat /\ length b.(trampoline_boundaries) = 20%nat /\ 0 <= b.(count) <= 4.

Definition hook_length (target : Z) : Z := if negb (TEST_BIT0 target =? 0) then 12 else 8.

(** An item in use: the code it hooks and the pointer to the original
    function can be written. *)
Record item_ok (m : Z -> option Z) (it : inlineHookItem) : Prop := {
  io_status : it.(status) = REGISTERED \/ it.(status) = HOOKED;
  io_length : it.(length_) = hook_length it.(target_addr);
  io_orig : Z.of_nat (length it.(orig_instructions)) = it.(length_);
  io_window : mapped m (CLEAR_BIT0 it.(target_addr)) it.(length_);
  io_proto : it.(proto_addr) = 0 \/ mapped m it.(proto_addr) 4
}.

(** The trampoline at [page] takes nothing from what an item writes. *)
Definition page_apart (page : Z) (it : inlineHookItem) : Prop :=
  disjoint page PAGE_SIZE (CLEAR_BIT0 it.(target_addr)) it.(length_) /\
  (it.(proto_addr) = 0 \/ disjoint page PAGE_SIZE it.(proto_addr) 4).

Definition live (p : process) : list inlineHookItem := take (Z.to_nat p.(size)) p.(item).

Section Invariant.
Context (traceable : Z -> bool) (pid : Z) (task_dir : bool).

Record wf (p : process) : Prop := {
  wf_room : length p.(item) = 1024%nat;
  wf_size : 0 <= p.(size) <= MAX_ITEMS;
  wf_tables : Forall (fun it => tables_ok it.(tables)) p.(item);
  wf_items : Forall (item_ok p.(memory)) (live p);
  wf_apart : forall it it', it ∈ live p -> it' ∈ live p -> page_apart it.(trampoline_instructions) it';
  wf_targets : NoDup (target_addr <$> live p);
  wf_threads : is_Some (getAllTids pid task_dir p.(threads))
}.
End Invariant.

(** The abstract state: what is hooked, and whether the hook is active. *)
Definition hooks_of (l : list inlineHookItem) : gmap Z Z :=
  list_to_map ((fun it => (it.(target_addr), it.(status))) <$> l).

Definition hooks (p : process) : gmap Z Z := hooks_of (live p).

(** ** The table as a map *)

Lemma fst_pairs (l : list inlineHookItem) :
  ((fun it => (it.(target_addr), it.(status))) <$> l).*1 = target_addr <$> l.
Proof. rewrite <- list_fmap_compose. by apply list_fmap_ext. Qed.

Lemma hooks_lookup l it : NoDup (target_addr <$> l) -> it ∈ l -> hooks_of l !! it.(target_addr) = Some it.(status).
Proof.
  intros Hnd Hin. apply elem_of_list_to_map; [by rewrite fst_pairs|].
  apply list_elem_of_fmap. by exists it.
Qed.

Lemma hooks_lookup_None l t : (forall it, it ∈ l -> it.(target_addr) <> t) -> hooks_of l !! t = None.
Proof.
  intros H. apply not_elem_of_list_to_map_1. rewrite fst_pairs.
  intros (it & -> & Hin)%list_elem_of_fmap. by apply (H it).
Qed.

Lemma hooks_permutation l l' : NoDup (target_addr <$> l) -> l ≡ₚ l' -> hooks_of l = hooks_of l'.
Proof.
  intros Hnd Hp. apply list_to_map_proper; [by rewrite fst_pairs|]. by apply fmap_Permutation.
Qed.

Lemma hooks_cons it l : hooks_of (it :: l) = <[it.(target_addr) := it.(status)]> (hooks_of l).
Proof. done. Qed.

(** The first item for a target is the only one. *)
Lemma find_target l t (f : inlineHookItem -> bool) :
  NoDup (target_addr <$> l) -> (forall it, f it = true -> it.(target_addr) = t) ->
  match list_find (fun it => f it = true) l with
  | Some (i, it) => l !! i = Some it /\ f it = true /\ it.(target_addr) = t /\ hooks_of l !! t = Some it.(status)
  | None => forall it, it ∈ l -> f it = false
  end.
Proof.
  intros Hnd Hf. destruct (list_find _ l) as [[i it]|] eqn:E.
  - apply list_find_Some in E as (Hi & Hit & _). repeat split; [done|done|by apply Hf|].
    rewrite <- (Hf it Hit). apply hooks_lookup; [done|]. by apply list_elem_of_lookup_2 in Hi.
  - apply list_find_None in E. intros it Hin. rewrite Forall_forall in E. apply not_true_is_false. by apply E.
Qed.

(** Replacing an item by another for the same target. *)
Lemma insert_split {A} (l : list A) i x y : l !! i = Some x ->
  l ≡ₚ x :: take i l ++ drop (S i) l /\ <[i := y]> l ≡ₚ y :: take i l ++ drop (S i) l.
Proof.
  intros H. split.
  - rewrite <- (take_drop_middle l i x H) at 1. symmetry. apply Permutation_middle.
  - rewrite insert_take_drop by (by apply lookup_lt_Some in H). symmetry. apply Permutation_middle.
Qed.

Lemma hooks_insert l i it it' :
  NoDup (target_addr <$> l) -> l !! i = Some it -> it'.(target_addr) = it.(target_addr) ->
  NoDup (target_addr <$> <[i := it']> l) /\
  hooks_of (<[i := it']> l) = <[it.(target_addr) := it'.(status)]> (hooks_of l).
Proof.
  intros Hnd Hi Ht. destruct (insert_split l i it it' Hi) as [Hp Hp'].
  assert (target_addr <$> <[i := it']> l = target_addr <$> l) as He.
  { rewrite list_fmap_insert, Ht. apply list_insert_id. by rewrite list_lookup_fmap, Hi. }
  split; [by rewrite He|].
  rewrite (hooks_permutation _ _ ltac:(by rewrite He) Hp'), (hooks_permutation _ _ Hnd Hp), !hooks_cons, Ht.
  by rewrite insert_insert_eq.
Qed.

(** [deleteInlineHookItem] on the items in use. *)
Lemma swap_remove {A} (l : list A) i x y : l !! i = Some x -> last l = Some y ->
  l ≡ₚ x :: take (length l - 1) (<[i := y]> l).
Proof.
  intros Hi Hl. destruct l as [|z l' _] using rev_ind; [done|].
  rewrite last_snoc in Hl. injection Hl as ->.
  rewrite length_app. cbn [length]. replace (length l' + 1 - 1)%nat with (length l') by lia.
  destruct (decide (i = length l')) as [->|Hne].
  - rewrite lookup_app_r in Hi by lia. rewrite Nat.sub_diag in Hi. injection Hi as ->.
    rewrite insert_app_r_alt, Nat.sub_diag by lia. cbn. rewrite take_app_length.
    symmetry. apply Permutation_cons_append.
  - assert (i < length l')%nat as Hlt.
    { apply lookup_lt_Some in Hi. rewrite length_app in Hi. cbn in Hi. lia. }
    rewrite lookup_app_l in Hi by lia.
    rewrite insert_app_l by done. rewrite take_app_le by (rewrite length_insert; lia).
    rewrite take_ge by (rewrite length_insert; lia).
    destruct (insert_split l' i x y Hi) as [Hp Hp'].
    rewrite <- Permutation_cons_append, Hp'. etransitivity; [by apply perm_skip|apply Permutation_swap].
Qed.

Lemma hooks_removed l l' it : NoDup (target_addr <$> l) -> l ≡ₚ it :: l' ->
  NoDup (target_addr <$> l') /\ hooks_of l' = delete it.(target_addr) (hooks_of l).
Proof.
  intros Hnd Hp. pose proof Hnd as Hnd'. rewrite Hp in Hnd'. cbn in Hnd'. apply NoDup_cons in Hnd' as [Hni Hnd'].
  split; [done|]. rewrite (hooks_permutation _ _ Hnd Hp), hooks_cons.
  rewrite delete_insert_id; [done|]. apply hooks_lookup_None. intros it' Hin Ht. apply Hni. rewrite <- Ht.
  apply list_elem_of_fmap. by exists it'.
Qed.
