(* ===== verification/HookSteps.v ===== *)
(** * libmemcheck: the steps on the table of hooks (inlineHook/inlineHook.c)

    [freeze], [doInlineHook] and [doInlineUnHook] from a table that satisfies
    the invariant of HookTable.v: they are never stuck, keep the invariant,
    and their effect is given exactly. *)

From stdpp Require Import base numbers list list_numbers gmap.
From Stdlib Require Import Lia ZArith.
From S2P Require Import Prelude Relocate InlineHook HookTable.

#[local] Open Scope Z_scope.
#[local] Open Scope c_scope.

Lemma wp_write_memory a bs (Q : unit -> process -> Prop) E p :
  mapped p.(memory) a (Z.of_nat (length bs)) ->
  (forall m, overwritten a bs p.(memory) m -> Q tt (set_memory m p)) -> wp (write_memory a bs) Q E p.
Proof.
  intros Hm HQ. destruct (store_bytes_spec bs a _ Hm) as (m & Hst & Ho).
  unfold write_memory. wp_steps. apply (wp_of_option _ m); [done|]. wp_steps. by apply HQ.
Qed.

(** ** The items in use *)

Lemma live_lookup p i it : live p !! i = Some it -> (i < Z.to_nat p.(size))%nat /\ p.(item) !! i = Some it.
Proof. unfold live. intros [H ?]%lookup_take_Some. done. Qed.

Lemma live_length p : (Z.to_nat p.(size) <= length p.(item))%nat -> length (live p) = Z.to_nat p.(size).
Proof. intros. unfold live. by rewrite length_take_le. Qed.

Lemma wp_read_item p i it (Q : inlineHookItem -> process -> Prop) E :
  p.(item) !! i = Some it -> Q it p -> wp (read_item (Z.of_nat i)) Q E p.
Proof.
  intros Hi HQ. unfold read_item. wp_steps. apply (wp_of_option _ it); [|done].
  unfold aget. rewrite decide_True by lia. by rewrite Nat2Z.id.
Qed.

Lemma wp_write_item p i it (Q : unit -> process -> Prop) E :
  (i < length p.(item))%nat -> Q tt (set_item (<[i := it]> p.(item)) p) -> wp (write_item (Z.of_nat i) it) Q E p.
Proof.
  intros Hi HQ. unfold write_item. wp_steps. apply (wp_of_option _ (<[i := it]> p.(item))).
  - unfold aset. rewrite decide_True by lia. by rewrite Nat2Z.id.
  - by wp_steps.
Qed.

(** What [doInlineHook] makes of an item. *)
Definition activate (it : inlineHookItem) : inlineHookItem :=
  mkItem it.(target_addr) it.(new_addr) it.(proto_addr) it.(orig_instructions) it.(tables)
    it.(trampoline_instructions) it.(length_) HOOKED it.(mode).

Definition window (it : inlineHookItem) : Z := CLEAR_BIT0 it.(target_addr).

Definition entry (it : inlineHookItem) : Z :=
  if negb (TEST_BIT0 it.(target_addr) =? 0) then SET_BIT0 it.(trampoline_instructions)
  else it.(trampoline_instructions).

(** The memory after a hook: the jump, and the pointer to the trampoline. *)
Definition hooked_memory (it : inlineHookItem) (m m' : Z -> option Z) : Prop :=
  exists m1, overwritten (window it) (jump_bytes it.(target_addr) it.(new_addr)) m m1 /\
    if it.(proto_addr) =? 0 then m' = m1 else overwritten it.(proto_addr) (word_bytes (entry it)) m1 m'.

Lemma jump_bytes_length t n : Z.of_nat (length (jump_bytes t n)) <= hook_length t.
Proof. unfold jump_bytes, hook_length. destruct (negb _); [|done]. by destruct (negb (_ mod 4 =? 0)). Qed.

Lemma mapped_prefix m a n k : mapped m a n -> k <= n -> mapped m a k.
Proof. intros H ? x ?. apply H. lia. Qed.

Section Steps.
Context (traceable : Z -> bool) (pid : Z) (task_dir : bool).

Definition WF := wf pid task_dir.

(** ** [freeze] *)

Lemma find_boundary_ok off from to_ n : forall i, 0 <= i ->
  i + Z.of_nat n <= Z.of_nat (length from) -> i + Z.of_nat n <= Z.of_nat (length to_) ->
  is_Some (find_boundary from to_ off n i).
Proof.
  induction n as [|n IH]; intros i Hi Hf Ht; cbn [find_boundary]; [done|].
  destruct (aget_Some from i) as [k ->]; [lia|]. destruct (off =? k).
  - destruct (aget_Some to_ i) as [v ->]; [lia|]. done.
  - apply IH; lia.
Qed.

Lemma doProcessThreadPC_ok it pc action : tables_ok it.(tables) -> is_Some (doProcessThreadPC it pc action).
Proof.
  intros (Ho & Ht & Hc). unfold doProcessThreadPC. destruct action.
  - destruct (find_boundary_ok (i32 (pc - CLEAR_BIT0 it.(target_addr))) it.(tables).(orig_boundaries)
      it.(tables).(trampoline_boundaries) (Z.to_nat it.(tables).(count)) 0) as [[v|] ->]; try lia; done.
  - destruct (find_boundary_ok (i32 (pc - it.(trampoline_instructions))) it.(tables).(trampoline_boundaries)
      it.(tables).(orig_boundaries) (Z.to_nat it.(tables).(count)) 0) as [[v|] ->]; try lia; done.
Qed.

Lemma processThreadPC_ok its action pc : Forall (fun it => tables_ok it.(tables)) its ->
  is_Some (processThreadPC its action pc).
Proof.
  intros Hits. unfold processThreadPC.
  assert (is_Some (first_move its pc action)) as [r ->]; [|done].
  induction Hits as [|it its Hit _ IH]; cbn [first_move]; [done|].
  destruct (doProcessThreadPC_ok it pc action Hit) as [[v|] ->]; done.
Qed.

Lemma move_threads_ok tids its action ts : Forall (fun it => tables_ok it.(tables)) its ->
  exists ts', move_threads traceable tids its action ts = Some ts' /\ ts'.*1 = ts.*1.
Proof.
  intros Hits. induction ts as [|[tid pc] ts (ts' & IH & Hfst)]; cbn [move_threads]; [by eexists|].
  rewrite IH. destruct (bool_decide _ && _).
  - destruct (processThreadPC_ok its action pc Hits) as [pc' ->]. eexists. split; [done|]. cbn. by rewrite Hfst.
  - eexists. split; [done|]. cbn. by rewrite Hfst.
Qed.

(** Everything but the program counters and the coming forks is as before. *)
Record frozen (p p' : process) : Prop := {
  fz_memory : p'.(memory) = p.(memory);
  fz_item : p'.(item) = p.(item);
  fz_size : p'.(size) = p.(size);
  fz_flushed : p'.(flushed) = p.(flushed);
  fz_mmaps : p'.(mmaps) = p.(mmaps);
  fz_mallocs : p'.(mallocs) = p.(mallocs);
  fz_tids : p'.(threads).*1 = p.(threads).*1
}.

Lemma frozen_live p p' : frozen p p' -> live p' = live p.
Proof. intros H. unfold live. by rewrite (fz_item _ _ H), (fz_size _ _ H). Qed.

Lemma wf_frozen p p' : WF p -> frozen p p' -> WF p'.
Proof.
  intros Hwf H. pose proof (frozen_live p p' H) as Hl. destruct Hwf, H.
  constructor; rewrite ?Hl, ?fz_item0, ?fz_size0, ?fz_memory0; try done.
  unfold getAllTids in *. by rewrite fz_tids0.
Qed.

Lemma hooks_frozen p p' : frozen p p' -> hooks p' = hooks p.
Proof. intros H. unfold hooks. by rewrite (frozen_live p p' H). Qed.

(** The program counters are as before, or as the child left them. *)
Definition moved (it : option inlineHookItem) (action : hook_action) (p p' : process) : Prop :=
  p'.(threads) = p.(threads) \/
  exists tids, move_threads traceable tids (match it with Some it => [it] | None => live p end) action p.(threads)
    = Some p'.(threads).

Lemma wp_freeze it action p (Q : bool -> process -> Prop) E :
  WF p -> (forall x, it = Some x -> tables_ok x.(tables)) ->
  (forall c p', frozen p p' -> moved it action p p' -> Q c p') -> wp (freeze traceable pid task_dir it action) Q E p.
Proof.
  intros Hwf Hit HQ. destruct (wf_threads _ _ _ Hwf) as [tids Htids].
  unfold freeze. wp_steps. apply (wp_of_option _ tids); [done|]. apply wp_if; intros _.
  - assert (forall c, Q c (set_forks (tail (forks p)) p)) as Hno by (intros; apply HQ; [by constructor|by left]).
    wp_steps. set (its := match it with Some it0 => [it0] | None => _ end).
    assert (Forall (fun it => tables_ok it.(tables)) its) as Hits.
    { subst its. destruct it as [x|]; [by constructor; [apply Hit|]|]. apply Forall_take, (wf_tables _ _ _ Hwf). }
    destruct (move_threads_ok tids its action p.(threads) Hits) as (ts' & Hmove & Hfst).
    assert (wp (let! ts := of_option (move_threads traceable tids its action (threads p)) in
      modify (set_threads ts) ;;! ret true) Q E (set_forks (tail (forks p)) p)) as Hyes.
    { wp_steps. apply (wp_of_option _ ts'); [done|]. wp_steps. apply HQ; [by constructor|right]. by exists tids. }
    destruct (forks p) as [|[|] fs]; [exact Hyes|exact Hyes|]. wp_steps. apply Hno.
  - wp_steps. apply HQ; [by constructor|by left].
Qed.

(** ** [doInlineHook] *)

(** Changing the state of an item in use, with no address unmapped. *)
Lemma wf_replace p i it st m fl :
  WF p -> live p !! i = Some it -> st = REGISTERED \/ st = HOOKED ->
  (forall x, is_Some (p.(memory) x) -> is_Some (m x)) ->
  let it' := mkItem it.(target_addr) it.(new_addr) it.(proto_addr) it.(orig_instructions) it.(tables)
    it.(trampoline_instructions) it.(length_) st it.(mode) in
  let p' := mkProcess m p.(threads) (<[i := it']> p.(item)) p.(size) fl p.(mmaps) p.(mallocs) p.(forks) in
  WF p' /\ live p' = <[i := it']> (live p) /\ hooks p' = <[it.(target_addr) := st]> (hooks p).
Proof.
  intros [Hroom Hsize Htab Hit Hap Hnd Hth] Hi Hst Hm it' p'.
  destruct (live_lookup p i it Hi) as [Hlt Hitem].
  assert (live p' = <[i := it']> (live p)) as Hlive by (unfold live, p'; cbn; by apply take_insert_lt).
  assert (item_ok (memory p) it) as Hok by (eapply Forall_lookup_1; eauto).
  assert (forall x, item_ok (memory p) x -> item_ok m x) as Hmono.
  { intros x [? ? ? ? Hpr]. constructor; try done; [intros y Hy; apply Hm; auto|].
    destruct Hpr as [|Hp]; [by left|right]. intros y Hy. apply Hm; auto. }
  assert (forall x, x ∈ live p' -> x ∈ live p \/ x = it') as Hin.
  { intros x Hx. rewrite Hlive in Hx. apply list_elem_of_lookup in Hx as [j Hj].
    apply list_lookup_insert_Some in Hj as [(_ & <- & _)|[_ Hj]]; [by right|left].
    by apply list_elem_of_lookup_2 in Hj. }
  assert (it ∈ live p) as Hin0 by (by apply list_elem_of_lookup_2 in Hi).
  split; [|split; [done|]].
  - constructor; rewrite ?Hlive; cbn -[MAX_ITEMS]; try done.
    + by rewrite length_insert.
    + apply Forall_insert; [done|]. by apply (Forall_lookup_1 _ _ _ _ Htab Hitem).
    + apply Forall_insert; [by eapply Forall_impl|].
      destruct (Hmono it Hok). by constructor.
    + intros x y Hx Hy. rewrite <- Hlive in Hx, Hy.
      destruct (Hin x Hx) as [Hx'| ->], (Hin y Hy) as [Hy'| ->].
      * by apply Hap.
      * by apply (Hap x it).
      * by apply (Hap it y).
      * by apply (Hap it it).
    + by apply (hooks_insert (live p) i it it').
  - unfold hooks. rewrite Hlive. by apply (hooks_insert (live p) i it it').
Qed.

Lemma entry_if it : (if negb (TEST_BIT0 (target_addr it) =? 0) then SET_BIT0 (trampoline_instructions it)
  else trampoline_instructions it) = entry it.
Proof. done. Qed.

Lemma wp_doInlineHook i it p (Q : unit -> process -> Prop) E :
  WF p -> live p !! i = Some it ->
  (forall m, hooked_memory it p.(memory) m -> (forall x, is_Some (p.(memory) x) -> is_Some (m x)) ->
    Q tt (mkProcess m p.(threads) (<[i := activate it]> p.(item)) p.(size)
      (p.(flushed) ++ [(window it, u32 (window it + it.(length_)))]) p.(mmaps) p.(mallocs) p.(forks))) ->
  wp (doInlineHook (Z.of_nat i)) Q E p.
Proof.
  intros Hwf Hi HQ. destruct (live_lookup p i it Hi) as [Hlt Hitem].
  assert (item_ok (memory p) it) as Hok by (eapply Forall_lookup_1; [apply (wf_items _ _ _ Hwf)|exact Hi]).
  unfold doInlineHook. wp_steps. eapply wp_read_item; [exact Hitem|].
  wp_steps. apply wp_write_memory.
  { eapply mapped_prefix; [apply (io_window _ _ Hok)|]. rewrite (io_length _ _ Hok). apply jump_bytes_length. }
  intros m1 Hm1. apply wp_bind. rewrite ?entry_if.
  assert (wp (if negb (proto_addr it =? 0)
      then write_memory (proto_addr it) (word_bytes (entry it)) else ret tt)
    (fun _ p' => exists m, p' = set_memory m p /\ hooked_memory it (memory p) m) E (set_memory m1 p)) as Hproto.
  { unfold hooked_memory. destruct (proto_addr it =? 0) eqn:Ep; cbn [negb].
    - wp_steps. exists m1. split; [done|]. by exists m1.
    - apply wp_write_memory.
      + destruct (io_proto _ _ Hok) as [?|Hp]; [lia|]. by eapply overwritten_mapped.
      + intros m Hm. exists m. split; [done|]. by exists m1. }
  eapply wp_mono; [exact Hproto| |done].
  intros _ p' (m & -> & Hm). cbv beta. wp_steps. apply wp_write_item.
  { cbn. by apply lookup_lt_Some in Hitem. }
  unfold cacheflush. wp_steps. apply (HQ m Hm).
  intros x Hx. destruct Hm as (m1' & Ho & Hm). assert (is_Some (m1' x)) as Hx1 by (by eapply overwritten_is_Some).
  destruct (proto_addr it =? 0); [by subst|by eapply overwritten_is_Some].
Qed.

(** ** [doInlineUnHook] *)

(** The table after [deleteInlineHookItem]. *)
Lemma delete_live p i it y :
  (Z.to_nat (size p) <= length (item p))%nat -> 0 <= size p ->
  live p !! i = Some it -> last (live p) = Some y ->
  live p ≡ₚ it :: take (Z.to_nat (size p - 1)) (<[i := y]> (item p)).
Proof.
  intros Hr Hs Hi Hy. destruct (live_lookup p i it Hi) as [Hlt _].
  pose proof (swap_remove (live p) i it y Hi Hy) as Hp. rewrite live_length in Hp by done.
  rewrite Hp at 1. apply perm_skip. unfold live. rewrite <- take_insert_lt by done.
  rewrite take_take. replace (Z.to_nat (size p - 1)) with (Z.to_nat (size p) - 1)%nat by lia.
  replace ((Z.to_nat (size p) - 1) `min` Z.to_nat (size p))%nat with (Z.to_nat (size p) - 1)%nat by lia. done.
Qed.

Lemma last_live p i it : (Z.to_nat (size p) <= length (item p))%nat -> live p !! i = Some it ->
  exists y, last (live p) = Some y /\ item p !! (Z.to_nat (size p) - 1)%nat = Some y.
Proof.
  intros Hr Hi. destruct (live_lookup p i it Hi) as [Hlt _].
  destruct (lookup_lt_is_Some_2 (live p) (Z.to_nat (size p) - 1)) as [y Hy]; [rewrite live_length by done; lia|].
  exists y. split; [|by apply (live_lookup p _ y)].
  rewrite last_lookup, live_length by done. by replace (pred (Z.to_nat (size p))) with (Z.to_nat (size p) - 1)%nat by lia.
Qed.

(** The process after [doInlineUnHook] on item [i], whose place item [y] takes. *)
Definition unhooked (p : process) (i : nat) (it y : inlineHookItem) (m : Z -> option Z) : process :=
  mkProcess (unmap_page it.(trampoline_instructions) m) p.(threads) (<[i := y]> p.(item)) (p.(size) - 1)
    (p.(flushed) ++ [(window y, u32 (window y + y.(length_)))]) p.(mmaps) p.(mallocs) p.(forks).

Lemma wp_doInlineUnHook i it p (Q : unit -> process -> Prop) E :
  WF p -> live p !! i = Some it ->
  (forall m y, overwritten (window it) it.(orig_instructions) p.(memory) m -> last (live p) = Some y ->
    Q tt (unhooked p i it y m)) ->
  wp (doInlineUnHook (Z.of_nat i)) Q E p.
Proof.
  intros Hwf Hi HQ. pose proof (wf_size _ _ _ Hwf) as Hs. pose proof (wf_room _ _ _ Hwf) as Hr. unfold MAX_ITEMS in Hs.
  destruct (live_lookup p i it Hi) as [Hlt Hitem].
  destruct (last_live p i it ltac:(lia) Hi) as (y & Hy & Hlast).
  assert (item_ok (memory p) it) as Hok by (eapply Forall_lookup_1; [apply (wf_items _ _ _ Hwf)|exact Hi]).
  pose proof (io_orig _ _ Hok) as Hlen.
  assert (i < length (item p))%nat as Hlt' by lia.
  unfold doInlineUnHook, munmap, deleteInlineHookItem, cacheflush. wp_steps. eapply wp_read_item; [exact Hitem|].
  wp_steps. rewrite take_ge by lia. apply wp_write_memory; [rewrite Hlen; apply (io_window _ _ Hok)|].
  intros m Hm. wp_steps. apply (wp_of_option _ y).
  { cbn. unfold aget. rewrite decide_True by lia. by replace (Z.to_nat (size p - 1)) with (Z.to_nat (size p) - 1)%nat by lia. }
  apply wp_bind, (wp_of_option _ (<[i := y]> (item p))).
  { cbn. unfold aset. rewrite decide_True by lia. by rewrite Nat2Z.id. }
  wp_steps. apply (wp_read_item _ i y); [cbn; by apply list_lookup_insert_eq|].
  wp_steps. by apply (HQ m y).
Qed.

Lemma wf_unhooked p i it y m :
  WF p -> live p !! i = Some it -> last (live p) = Some y ->
  overwritten (window it) it.(orig_instructions) p.(memory) m ->
  WF (unhooked p i it y m) /\ live p ≡ₚ it :: live (unhooked p i it y m) /\
  hooks (unhooked p i it y m) = delete it.(target_addr) (hooks p).
Proof.
  intros [Hroom Hsize Htab Hit Hap Hnd Hth] Hi Hy Hm. unfold MAX_ITEMS in Hsize.
  destruct (live_lookup p i it Hi) as [Hlt Hitem].
  pose proof (delete_live p i it y ltac:(lia) ltac:(lia) Hi Hy) as Hp.
  destruct (hooks_removed _ _ _ Hnd Hp) as [Hnd' Hh].
  assert (forall x, x ∈ live (unhooked p i it y m) -> x ∈ live p) as Hin.
  { intros x Hx. rewrite Hp. by apply list_elem_of_further. }
  assert (it ∈ live p) as Hin0 by (by apply list_elem_of_lookup_2 in Hi).
  split; [|split; [exact Hp|exact Hh]]. constructor.
  - cbn. by rewrite length_insert.
  - cbn -[MAX_ITEMS]. unfold MAX_ITEMS. lia.
  - cbn. apply Forall_insert; [done|].
    destruct (last_live p i it ltac:(lia) Hi) as (y' & Hy' & Hl). rewrite Hy in Hy'. injection Hy' as <-.
    by apply (Forall_lookup_1 _ _ _ _ Htab Hl).
  - apply Forall_forall. intros x Hx%Hin. destruct (proj1 (Forall_forall _ _) Hit x Hx) as [? ? ? ? Hpr].
    destruct (Hap it x Hin0 Hx) as [Hd1 Hd2].
    constructor; try done; cbn [memory unhooked].
    + apply unmap_page_mapped; [by eapply overwritten_mapped|done].
    + destruct Hpr as [|Hpr]; [by left|]. destruct Hd2 as [|Hd2]; [by left|right].
      apply unmap_page_mapped; [by eapply overwritten_mapped|done].
  - intros x x' Hx%Hin Hx'%Hin. by apply Hap.
  - exact Hnd'.
  - exact Hth.
Qed.
End Steps.
