(* ===== verification/HookProps.v ===== *)
(** * libmemcheck: correctness of the inline hooks (inlineHook/inlineHook.c)

    The hook library implements a map from functions to the state of their
    hook: every call returns, gives the result and makes the change of
    [hook_spec], and keeps the invariant of HookTable.v; refused calls change
    nothing. *)

From stdpp Require Import base numbers list list_numbers gmap.
From Stdlib Require Import Lia ZArith.
From S2P Require Import Prelude Relocate RelocateLoops InlineHook HookTable HookSteps.

#[local] Open Scope Z_scope.
#[local] Open Scope c_scope.

(** ** The abstract specification *)

Inductive request : Type :=
| Register (target new proto : Z)
| Hook (target : Z)
| UnHook (target : Z)
| HookAll
| UnHookAll.

Definition hook_spec (executable : Z -> bool) (r : request) (h : gmap Z Z) : ele7en_status * gmap Z Z :=
  match r with
  | Register target new _ =>
      if executable target && executable new then
        match h !! target with
        | None => (ELE7EN_OK, <[target := REGISTERED]> h)
        | Some st => (if st =? REGISTERED then ELE7EN_ERROR_ALREADY_REGISTERED else ELE7EN_ERROR_ALREADY_HOOKED, h)
        end
      else (ELE7EN_ERROR_NOT_EXECUTABLE, h)
  | Hook target =>
      match h !! target with
      | None => (ELE7EN_ERROR_NOT_REGISTERED, h)
      | Some st => if st =? REGISTERED then (ELE7EN_OK, <[target := HOOKED]> h) else (ELE7EN_ERROR_ALREADY_HOOKED, h)
      end
  | UnHook target =>
      if decide (h !! target = Some HOOKED) then (ELE7EN_OK, delete target h) else (ELE7EN_ERROR_NOT_HOOKED, h)
  | HookAll => (ELE7EN_OK, (fun _ => HOOKED) <$> h)
  | UnHookAll => (ELE7EN_OK, filter (fun kv => kv.2 = REGISTERED) h)
  end.

(** ** Relocation keeps the tables of an item sound *)

#[local] Hint Resolve keeps_ret keeps_of_option : core.

Lemma keeps_add_boundary o t : keeps tables_ok (add_boundary o t).
Proof.
  intros b (Ho & Ht & Hc). unfold add_boundary, bind, gets, of_option, modify.
  destruct (aset (orig_boundaries b) (count b) o) as [os|] eqn:E1; [|done].
  destruct (aset (trampoline_boundaries b) (count b) t) as [ts|] eqn:E2; [|done].
  pose proof (aset_inv _ _ _ _ E1) as [? _]. apply aset_length in E1, E2.
  repeat split; cbn; lia.
Qed.

Lemma keeps_relocateInstruction load t bs n : keeps tables_ok (relocateInstruction load t bs n).
Proof.
  unfold relocateInstruction. destruct (test t 1); (apply keeps_bind; [|done]).
  - apply keeps_bind; [|by intros [[] ?]]. apply keeps_loop. intros [[pos out] pc].
    unfold thumb_round. apply keeps_bind; [apply keeps_add_boundary|intros _].
    apply keeps_bind; [done|intros w]. destruct (_ && _); [destruct (_ <? _); [done|]|];
      repeat (apply keeps_bind; [done|intros ?]); done.
  - apply keeps_bind; [|by intros []]. apply keeps_foldM. intros [out pc] pos.
    unfold arm_round. apply keeps_bind; [apply keeps_add_boundary|intros _].
    repeat (apply keeps_bind; [done|intros ?]); done.
Qed.

(** ** Registering a hook *)

(** The memory and the system calls [registerInlineHook] needs to succeed:
    a free slot whose tables have room, code that can be relocated, and a page
    for the trampoline that lies apart from what the items write. *)
Record can_register (p : process) (target proto page : Z) (old : inlineHookItem)
    (bytes code : list Z) (tbs : boundaries) : Prop := {
  cr_room : p.(size) < MAX_ITEMS;
  cr_old : p.(item) !! Z.to_nat p.(size) = Some old;
  cr_malloc : head p.(mallocs) <> Some false;
  cr_mmap : head p.(mmaps) = Some (Some page);
  cr_bytes : load_bytes (Z.to_nat (hook_length target)) (CLEAR_BIT0 target) p.(memory) = Some bytes;
  cr_code : relocateInstruction (load_word (map_page page p.(memory))) target bytes (hook_length target) old.(tables)
    = (Returns code, tbs);
  cr_fits : Z.of_nat (length code) <= PAGE_SIZE;
  cr_window : mapped p.(memory) (CLEAR_BIT0 target) (hook_length target);
  cr_proto : proto = 0 \/ mapped p.(memory) proto 4;
  cr_page : disjoint page PAGE_SIZE (CLEAR_BIT0 target) (hook_length target) /\
    (proto = 0 \/ disjoint page PAGE_SIZE proto 4);
  cr_pages : forall it, it ∈ live p -> page_apart page it /\
    disjoint it.(trampoline_instructions) PAGE_SIZE (CLEAR_BIT0 target) (hook_length target) /\
    (proto = 0 \/ disjoint it.(trampoline_instructions) PAGE_SIZE proto 4)
}.

Definition new_item (target new proto page : Z) (old : inlineHookItem) (bytes : list Z) (tbs : boundaries) :
    inlineHookItem :=
  mkItem target new proto bytes tbs page (hook_length target) REGISTERED old.(mode).

Definition registered (p : process) (it : inlineHookItem) (m : Z -> option Z) : process :=
  mkProcess m p.(threads) (<[Z.to_nat p.(size) := it]> p.(item)) (p.(size) + 1) p.(flushed)
    (tail p.(mmaps)) (tail p.(mallocs)) p.(forks).

Lemma wp_find_item p (Q : option (nat * inlineHookItem) -> process -> Prop) E f :
  p.(size) <= Z.of_nat (length p.(item)) ->
  Q (list_find (fun it => f it = true) (live p)) p -> wp (find_item f) Q E p.
Proof.
  intros Hs HQ. unfold find_item, items. wp_steps; [lia|exact HQ].
Qed.

Lemma wp_malloc_ok p (Q : bool -> process -> Prop) E :
  head p.(mallocs) <> Some false -> Q true (set_mallocs (tail p.(mallocs)) p) -> wp malloc_ok Q E p.
Proof. intros H HQ. unfold malloc_ok. wp_steps. by destruct (mallocs p) as [|[|] l]. Qed.

Lemma wp_mmap p a (Q : Z -> process -> Prop) E :
  head p.(mmaps) = Some (Some a) ->
  Q a (set_memory (map_page a p.(memory)) (set_mmaps (tail p.(mmaps)) p)) -> wp mmap Q E p.
Proof. intros H HQ. unfold mmap. wp_steps. destruct (mmaps p) as [|[b|] l]; try done. injection H as ->. by wp_steps. Qed.

Lemma load_bytes_length n : forall a m bs, load_bytes n a m = Some bs -> length bs = n.
Proof.
  induction n as [|n IH]; intros a m bs; cbn [load_bytes]; [by intros [= <-]|].
  destruct (m a), (load_bytes n (a + 1) m) as [bs'|] eqn:E; try done. intros [= <-]. cbn. f_equal. eauto.
Qed.

Section Register.
Context (pid : Z) (task_dir : bool).

Lemma wf_registered p target new proto page old bytes code tbs m :
  WF pid task_dir p -> can_register p target proto page old bytes code tbs -> hooks p !! target = None ->
  overwritten page code (map_page page p.(memory)) m ->
  let it := new_item target new proto page old bytes tbs in
  WF pid task_dir (registered p it m) /\ live (registered p it m) = live p ++ [it] /\
  hooks (registered p it m) = <[target := REGISTERED]> (hooks p).
Proof.
  intros [Hroom Hsize Htab Hit Hap Hnd Hth] [] Hnone Hm it. unfold MAX_ITEMS in *.
  assert (live (registered p it m) = live p ++ [it]) as Hlive.
  { unfold live, registered. cbn [size item]. replace (Z.to_nat (size p + 1)) with (S (Z.to_nat (size p))) by lia.
    rewrite (take_S_r _ _ it) by (apply list_lookup_insert_eq; lia). by rewrite take_insert_ge by lia. }
  assert (forall a n, mapped (memory p) a n -> mapped m a n) as Hmono
    by (intros a n H; eapply overwritten_mapped; [exact Hm|]; by apply map_page_mapped).
  assert (target ∉ target_addr <$> live p) as Hni.
  { intros (x & -> & Hx)%list_elem_of_fmap. unfold hooks in Hnone. by rewrite (hooks_lookup _ x) in Hnone. }
  assert (live p ++ [it] ≡ₚ it :: live p) as Hp by (symmetry; apply Permutation_cons_append).
  assert (NoDup (target_addr <$> live p ++ [it])) as Hnd' by (rewrite Hp; by constructor).
  split; [|split; [done|]].
  - constructor; rewrite ?Hlive; cbn [size item memory registered threads]; try done.
    + by rewrite length_insert.
    + unfold MAX_ITEMS. lia.
    + apply Forall_insert; [done|]. cbn. pose proof (keeps_relocateInstruction (load_word (map_page page (memory p)))
        target bytes (hook_length target) (tables old)) as Hk. rewrite cr_code0 in Hk. apply Hk.
      by apply (Forall_lookup_1 _ _ _ _ Htab cr_old0).
    + apply Forall_app. split.
      * eapply Forall_impl; [exact Hit|]. intros x [? ? ? ? Hpr]. constructor; try done; [by apply Hmono|].
        destruct Hpr as [|Hpr]; [by left|right]. by apply Hmono.
      * constructor; [|done]. constructor; cbn; auto.
        -- apply load_bytes_length in cr_bytes0. unfold hook_length in *. destruct (negb _); lia.
        -- destruct cr_proto0; auto.
    + intros x y [Hx| ->%list_elem_of_singleton]%elem_of_app [Hy| ->%list_elem_of_singleton]%elem_of_app.
      * by apply Hap.
      * by apply cr_pages0.
      * by apply cr_pages0.
      * done.
  - unfold hooks. rewrite Hlive, (hooks_permutation _ _ Hnd' Hp). done.
Qed.

Lemma wp_registerInlineHook maps executable p target new proto page old bytes code tbs
    (Q : ele7en_status -> process -> Prop) E :
  (forall a q, isExecutableAddr maps a q = (Returns (executable a), q)) ->
  executable target && executable new = true ->
  WF pid task_dir p -> hooks p !! target = None -> can_register p target proto page old bytes code tbs ->
  (forall m, overwritten page code (map_page page p.(memory)) m ->
    Q ELE7EN_OK (registered p (new_item target new proto page old bytes tbs) m)) ->
  wp (registerInlineHook maps target new proto) Q E p.
Proof.
  intros Hex [He1 He2]%andb_true_iff Hwf Hnone Hcan HQ.
  pose proof (wf_size _ _ _ Hwf). pose proof (wf_room _ _ _ Hwf). unfold MAX_ITEMS in *.
  pose proof Hcan as []. unfold MAX_ITEMS in *.
  unfold registerInlineHook, wp. unfold bind at 1. rewrite Hex, He1. cbv iota beta. unfold bind at 1. rewrite Hex, He2.
  cbn [negb]. apply wp_bind. apply wp_find_item; [lia|].
  pose proof (find_target (live p) target (fun it => target_addr it =? target) (wf_targets _ _ _ Hwf) (fun it => proj1 (Z.eqb_eq _ _))) as Hf.
  destruct (list_find _ (live p)) as [[j x]|]; [destruct Hf as (_ & _ & _ & Hf); unfold hooks in Hnone; congruence|].
  unfold addInlineHookItem, read_memory.
  apply wp_bind, wp_bind, wp_gets. apply wp_if; [unfold MAX_ITEMS; lia|intros _].
  wp_steps. apply (wp_of_option _ (size p)); [done|].
  wp_steps. rewrite <- (Z2Nat.id (size p)) by lia. apply (wp_read_item _ _ old); [done|]. rewrite (Z2Nat.id (size p)) by lia.
  apply wp_bind, wp_malloc_ok; [done|]. cbn [negb]. wp_steps. apply (wp_of_option _ bytes); [exact cr_bytes0|].
  apply wp_bind, (wp_mmap _ page); [done|]. apply wp_bind, wp_gets. fold (hook_length target).
  change (relocateInstruction _ _ _ _ _) with
    (relocateInstruction (load_word (map_page page (memory p))) target bytes (hook_length target) (tables old)).
  rewrite cr_code0. apply wp_bind, (wp_of_option _ code); [done|]. apply wp_bind, wp_write_memory.
  { eapply mapped_prefix; [apply page_mapped|exact cr_fits0]. }
  intros m Hm. apply wp_bind. rewrite <- (Z2Nat.id (size p)) by lia. apply wp_write_item; [cbn; lia|].
  apply wp_ret. rewrite (Z2Nat.id (size p)) by lia. exact (HQ m Hm).
Qed.
End Register.

(** ** The operations implement the specification *)

Section Operations.
Context (traceable : Z -> bool) (pid : Z) (task_dir : bool).

Definition perform (maps : option (list (list Z))) (r : request) : HookM ele7en_status :=
  match r with
  | Register target new proto => registerInlineHook maps target new proto
  | Hook target => inlineHook traceable pid task_dir target
  | UnHook target => inlineUnHook traceable pid task_dir target
  | HookAll => inlineHookAll traceable pid task_dir ;;! ret ELE7EN_OK
  | UnHookAll => inlineUnHookAll traceable pid task_dir ;;! ret ELE7EN_OK
  end.

#[local] Abbreviation WFp := (WF pid task_dir).

(** The result of a call as the specification wants it. *)
Definition meets (r : ele7en_status * gmap Z Z) (p : process) (e : ele7en_status) (p' : process) : Prop :=
  e = r.1 /\ WFp p' /\ hooks p' = r.2 /\ (e <> ELE7EN_OK -> p' = p).

Lemma meets_refused e p : WFp p -> meets (e, hooks p) p e p.
Proof. done. Qed.

Lemma meets_ok h p p' : WFp p' -> hooks p' = h -> meets (ELE7EN_OK, h) p ELE7EN_OK p'.
Proof. by intros H1 H2. Qed.

Lemma wf_find p f t : WFp p -> (forall it, f it = true -> it.(target_addr) = t) ->
  p.(size) <= Z.of_nat (length p.(item)) /\
  match list_find (fun it => f it = true) (live p) with
  | Some (i, it) => live p !! i = Some it /\ f it = true /\ it.(target_addr) = t /\
      hooks p !! t = Some it.(status) /\ item_ok p.(memory) it /\ tables_ok it.(tables)
  | None => forall it, it ∈ live p -> f it = false
  end.
Proof.
  intros Hwf Hf. split; [pose proof (wf_size _ _ _ Hwf); pose proof (wf_room _ _ _ Hwf); unfold MAX_ITEMS in *; lia|].
  pose proof (find_target (live p) t f (wf_targets _ _ _ Hwf) Hf) as H. destruct (list_find _ _) as [[i it]|]; [|done].
  destruct H as (Hi & ? & ? & ?). repeat split; try done.
  1-5: by apply (Forall_lookup_1 _ _ _ _ (wf_items _ _ _ Hwf) Hi).
  all: apply live_lookup in Hi as [_ Hi]; by apply (Forall_lookup_1 _ _ _ _ (wf_tables _ _ _ Hwf) Hi).
Qed.

Lemma find_none p t (f : inlineHookItem -> bool) : (forall it, it ∈ live p -> f it = false) ->
  (forall it, it.(target_addr) = t -> it ∈ live p -> f it = true) -> hooks p !! t = None.
Proof. intros H1 H2. apply hooks_lookup_None. intros it Hin Ht. specialize (H1 it Hin). by rewrite H2 in H1. Qed.

Lemma live_status p i it : WFp p -> live p !! i = Some it -> hooks p !! it.(target_addr) = Some it.(status).
Proof.
  intros Hwf Hi. apply hooks_lookup; [apply (wf_targets _ _ _ Hwf)|]. by apply list_elem_of_lookup_2 in Hi.
Qed.

Lemma wp_inlineHook t p (Q : ele7en_status -> process -> Prop) E :
  WFp p ->
  (forall i it, live p !! i = Some it -> it.(target_addr) = t -> it.(status) = REGISTERED ->
    forall p1 m, frozen p p1 -> moved traceable (Some it) ACTION_ENABLE p p1 -> hooked_memory it p.(memory) m -> (forall x, is_Some (p.(memory) x) -> is_Some (m x)) ->
    Q ELE7EN_OK (mkProcess m p1.(threads) (<[i := activate it]> p1.(item)) p1.(size)
      (p1.(flushed) ++ [(window it, u32 (window it + it.(length_)))]) p1.(mmaps) p1.(mallocs) p1.(forks))) ->
  (hooks p !! t = None -> Q ELE7EN_ERROR_NOT_REGISTERED p) ->
  (hooks p !! t = Some HOOKED -> Q ELE7EN_ERROR_ALREADY_HOOKED p) ->
  wp (inlineHook traceable pid task_dir t) Q E p.
Proof.
  intros Hwf Hok Hnone Hhooked.
  destruct (wf_find p (fun it => it.(target_addr) =? t) t Hwf (fun it => proj1 (Z.eqb_eq _ _))) as [Hs Hf].
  unfold inlineHook, findInlineHookItem. apply wp_bind, wp_find_item; [done|].
  destruct (list_find _ _) as [[i it]|].
  - destruct Hf as (Hi & _ & Ht & Hst & Hit & Htab). destruct (io_status _ _ Hit) as [Hr|Hr]; rewrite Hr in *.
    + change (REGISTERED =? REGISTERED) with true. cbv iota.
      apply wp_bind. apply wp_freeze; [done|by intros x [= <-]|]. intros c p1 Hz Hmv.
      pose proof (wf_frozen _ _ _ _ Hwf Hz) as Hwf1. pose proof Hi as Hi1. rewrite <- (frozen_live _ _ Hz) in Hi1.
      apply wp_bind. apply (wp_doInlineHook pid task_dir i it); [done..|]. rewrite (fz_memory _ _ Hz). intros m Hm Hdom.
      unfold unFreeze. wp_steps. by apply (Hok i it).
    + change (HOOKED =? REGISTERED) with false. change (HOOKED =? HOOKED) with true. cbv iota. apply wp_ret. auto.
  - apply wp_ret, Hnone. apply (find_none p t _ Hf). intros; lia.
Qed.

Lemma inlineHook_meets t p : WFp p ->
  wp (inlineHook traceable pid task_dir t) (meets (hook_spec (fun _ => true) (Hook t) (hooks p)) p) (fun _ => False) p.
Proof.
  intros Hwf. apply wp_inlineHook; [done|..]; cbn [hook_spec].
  - intros i it Hi <- Hst p1 m Hz _ Hm Hdom.
    rewrite (live_status _ _ _ Hwf Hi), Hst. change (REGISTERED =? REGISTERED) with true. cbv iota.
    rewrite <- (fz_memory _ _ Hz) in Hdom. pose proof Hi as Hi1. rewrite <- (frozen_live _ _ Hz) in Hi1.
    destruct (wf_replace _ _ p1 i it HOOKED m (flushed p1 ++ [(window it, u32 (window it + length_ it))])
      (wf_frozen _ _ _ _ Hwf Hz) Hi1 ltac:(by right) Hdom) as (H1 & _ & H2).
    rewrite (hooks_frozen _ _ Hz) in H2. by apply meets_ok.
  - intros ->. by apply meets_refused.
  - intros ->. by apply meets_refused.
Qed.

Lemma find_status p t st : WFp p -> hooks p !! t = Some st ->
  exists it, it ∈ live p /\ it.(target_addr) = t /\ it.(status) = st.
Proof.
  intros Hwf H. apply elem_of_list_to_map in H; [|rewrite fst_pairs; apply (wf_targets _ _ _ Hwf)].
  apply list_elem_of_fmap in H as (it & [= -> ->] & Hin). by exists it.
Qed.

Lemma wp_inlineUnHook t p (Q : ele7en_status -> process -> Prop) E :
  WFp p ->
  (forall i it, live p !! i = Some it -> it.(target_addr) = t -> it.(status) = HOOKED ->
    forall p1 m y, frozen p p1 -> moved traceable (Some it) ACTION_DISABLE p p1 -> overwritten (window it) it.(orig_instructions) p.(memory) m ->
    last (live p) = Some y -> Q ELE7EN_OK (unhooked p1 i it y m)) ->
  (hooks p !! t <> Some HOOKED -> Q ELE7EN_ERROR_NOT_HOOKED p) ->
  wp (inlineUnHook traceable pid task_dir t) Q E p.
Proof.
  intros Hwf Hok Hno.
  destruct (wf_find p (fun it => (it.(target_addr) =? t) && (it.(status) =? HOOKED)) t Hwf) as [Hs Hf].
  { by intros it [?%Z.eqb_eq _]%andb_true_iff. }
  unfold inlineUnHook. apply wp_bind, wp_find_item; [done|].
  destruct (list_find _ _) as [[i it]|].
  - destruct Hf as (Hi & Hb & Ht & Hst & Hit & Htab). apply andb_true_iff in Hb as [_ Hb%Z.eqb_eq].
    apply wp_bind. apply wp_freeze; [done|by intros x [= <-]|]. intros c p1 Hz Hmv.
    pose proof (wf_frozen _ _ _ _ Hwf Hz) as Hwf1. pose proof Hi as Hi1. rewrite <- (frozen_live _ _ Hz) in Hi1.
    apply wp_bind. apply (wp_doInlineUnHook pid task_dir i it); [done..|]. rewrite (fz_memory _ _ Hz), (frozen_live _ _ Hz).
    intros m y Hm Hy. unfold unFreeze. wp_steps. by apply (Hok i it).
  - apply wp_ret, Hno. intros Hh. destruct (find_status p t _ Hwf Hh) as (it & Hin & Ht & Hst).
    specialize (Hf it Hin). rewrite Ht, Hst, Z.eqb_refl in Hf. done.
Qed.

Lemma inlineUnHook_meets t p : WFp p ->
  wp (inlineUnHook traceable pid task_dir t) (meets (hook_spec (fun _ => true) (UnHook t) (hooks p)) p) (fun _ => False) p.
Proof.
  intros Hwf. apply wp_inlineUnHook; [done|..]; cbn [hook_spec].
  - intros i it Hi <- Hst p1 m y Hz _ Hm Hy.
    rewrite decide_True by (rewrite (live_status _ _ _ Hwf Hi); by f_equal).
    rewrite <- (fz_memory _ _ Hz) in Hm. rewrite <- (frozen_live _ _ Hz) in Hy, Hi.
    destruct (wf_unhooked _ _ p1 i it y m (wf_frozen _ _ _ _ Hwf Hz) Hi Hy Hm) as (H1 & _ & H2).
    rewrite (hooks_frozen _ _ Hz) in H2. by apply meets_ok.
  - intros Hh. rewrite decide_False by done. by apply meets_refused.
Qed.

(** ** The loops over all items *)

Lemma take_S_insert {A} (l : list A) k x y : l !! k = Some x -> take (S k) (<[k := y]> l) = take k l ++ [y].
Proof.
  intros H. apply lookup_lt_Some in H. rewrite (take_S_r _ _ y) by (by apply list_lookup_insert_eq).
  by rewrite take_insert_ge.
Qed.

Lemma hooks_all_active l l0 : Forall (fun it => it.(status) = HOOKED) l ->
  target_addr <$> l = target_addr <$> l0 -> hooks_of l = (fun _ => HOOKED) <$> hooks_of l0.
Proof.
  intros Hall Ht. unfold hooks_of. rewrite <- list_to_map_fmap, <- list_fmap_compose. f_equal.
  transitivity ((fun t => (t, HOOKED)) <$> (target_addr <$> l0)); [|by rewrite <- list_fmap_compose].
  rewrite <- Ht, <- list_fmap_compose. apply Forall_fmap_ext_1. eapply Forall_impl; [exact Hall|]. by intros it ->.
Qed.

(** [inlineHookAll]: the first [k] items are active. *)
Definition hooked_upto (p : process) (k : nat) (q : process) : Prop :=
  WFp q /\ q.(size) = p.(size) /\ target_addr <$> live q = target_addr <$> live p /\
  (k <= Z.to_nat p.(size))%nat /\ Forall (fun it => it.(status) = HOOKED) (take k (live q)).

Lemma live_at p k : WFp p -> (k < Z.to_nat p.(size))%nat -> exists it, live p !! k = Some it.
Proof.
  intros Hwf Hk. pose proof (wf_size _ _ _ Hwf). pose proof (wf_room _ _ _ Hwf). unfold MAX_ITEMS in *.
  apply lookup_lt_is_Some_2. rewrite live_length; lia.
Qed.

Lemma live_item p k it : WFp p -> live p !! k = Some it -> item_ok p.(memory) it.
Proof. intros Hwf. apply Forall_lookup_1, (wf_items _ _ _ Hwf). Qed.

Lemma hook_all_round p k q : hooked_upto p k q -> (k < Z.to_nat p.(size))%nat ->
  wp (let! it := read_item (Z.of_nat k) in
      if it.(status) =? REGISTERED then doInlineHook (Z.of_nat k) else ret tt)
    (fun _ q' => hooked_upto p (S k) q') (fun _ => False) q.
Proof.
  intros (Hwf & Hs & Ht & Hk & Hall) Hlt. destruct (live_at q k Hwf) as [it Hit]; [by rewrite Hs|].
  pose proof (live_item q k it Hwf Hit) as Hok.
  apply wp_bind. apply (wp_read_item _ k it); [apply (live_lookup q k it Hit)|].
  apply wp_if; intros Hst.
  - apply (wp_doInlineHook pid task_dir k it); [done..|]. intros m Hm Hdom.
    destruct (wf_replace _ _ q k it HOOKED m (flushed q ++ [(window it, u32 (window it + length_ it))])
      Hwf Hit ltac:(by right) Hdom) as (H1 & H2 & _).
    fold (activate it) in H1, H2. split; [exact H1|]. rewrite H2. split; [exact Hs|]. split; [|split; [lia|]].
    + rewrite list_fmap_insert, list_insert_id; [done|]. by rewrite list_lookup_fmap, Hit.
    + rewrite (take_S_insert _ _ it) by done. by apply Forall_app_2; [|constructor].
  - apply wp_ret. repeat (split; [done || lia|]). rewrite (take_S_r _ _ it) by done.
    apply Forall_app_2; [done|]. constructor; [|done]. destruct (io_status _ _ Hok) as [He|He]; [|done].
    rewrite He in Hst. done.
Qed.

Lemma inlineHookAll_meets p : WFp p ->
  wp (inlineHookAll traceable pid task_dir ;;! ret ELE7EN_OK)
    (meets (hook_spec (fun _ => true) HookAll (hooks p)) p) (fun _ => False) p.
Proof.
  intros Hwf. apply wp_bind. unfold inlineHookAll. apply wp_bind. apply wp_freeze; [done|done|]. intros c p1 Hz Hmv.
  pose proof (wf_frozen _ _ _ _ Hwf Hz) as Hwf1. pose proof (wf_size _ _ _ Hwf1) as Hs1.
  apply wp_bind, wp_gets. apply wp_bind.
  apply (wp_for_each (fun l q => exists k, l = seqZ (Z.of_nat k) (size p1 - Z.of_nat k) /\ hooked_upto p1 k q)).
  - intros a l q (k & Hl & Hq). destruct (decide (Z.of_nat k < size p1)) as [Hlt|]; [|by rewrite seqZ_nil in Hl by lia].
    rewrite seqZ_cons in Hl by lia. injection Hl as -> ->.
    eapply wp_mono; [apply hook_all_round; [exact Hq|lia]| |done].
    intros [] q' Hq'. exists (S k). split; [f_equal; lia|exact Hq'].
  - intros q (k & Hl & Hwfq & Hs & Ht & Hk & Hall).
    destruct (decide (Z.of_nat k < size p1)); [by rewrite seqZ_cons in Hl by lia|].
    unfold unFreeze. wp_steps. apply meets_ok; [done|].
    rewrite <- (hooks_frozen _ _ Hz). apply hooks_all_active; [|done].
    rewrite take_ge in Hall; [done|]. rewrite live_length; [lia|].
    pose proof (wf_room _ _ _ Hwfq). unfold MAX_ITEMS in *. lia.
  - exists 0%nat. split; [by rewrite Z.sub_0_r|]. split; [exact Hwf1|]. repeat (split; [done || lia|]). done.
Qed.

(** [inlineUnHookAll]: the first [k] items are not active. *)
Definition unhooked_upto (p : process) (k : nat) (q : process) : Prop :=
  WFp q /\ (k <= Z.to_nat q.(size))%nat /\ Forall (fun it => it.(status) = REGISTERED) (take k (live q)) /\
  filter (fun kv : Z * Z => kv.2 = REGISTERED) (hooks q) = filter (fun kv => kv.2 = REGISTERED) (hooks p).

Lemma unhook_all_round p k q : unhooked_upto p k q ->
  wp (unhook_round (Z.of_nat k))
    (fun r q' => match r with
                 | inl i' => exists k', i' = Z.of_nat k' /\ unhooked_upto p k' q' /\
                     (Z.to_nat q'.(size) - k' < Z.to_nat q.(size) - k)%nat
                 | inr _ => q' = q /\ k = Z.to_nat q.(size)
                 end) (fun _ => False) q.
Proof.
  intros (Hwf & Hk & Hall & Hf). unfold unhook_round. apply wp_bind, wp_gets. apply wp_if; intros Hlt.
  - destruct (live_at q k Hwf) as [it Hit]; [lia|]. pose proof (live_item q k it Hwf Hit) as Hok.
    apply wp_bind. apply (wp_read_item _ k it); [apply (live_lookup q k it Hit)|]. apply wp_if; intros Hst.
    + apply wp_bind, (wp_doInlineUnHook pid task_dir k it); [done..|]. intros m y Hm Hy. apply wp_ret.
      destruct (wf_unhooked _ _ q k it y m Hwf Hit Hy Hm) as (H1 & _ & H2).
      exists k. split; [done|]. split; [|cbn; lia]. split; [done|]. split; [cbn; lia|]. split.
      * replace (take k (live (unhooked q k it y m))) with (take k (live q)); [done|].
        unfold live, unhooked. cbn [size item]. rewrite !take_take, !Nat.min_l by lia.
        by rewrite take_insert_ge.
      * rewrite H2, map_filter_delete_not; [exact Hf|]. intros st Hl Hr. cbn in Hr. subst st.
        rewrite (live_status q k it Hwf Hit) in Hl. injection Hl as Hl. by rewrite Hl in Hst.
    + apply wp_ret. exists (S k). split; [lia|]. split; [|lia]. split; [done|]. split; [lia|]. split; [|done].
      rewrite (take_S_r _ _ it) by done.
      apply Forall_app_2; [done|]. constructor; [|done]. destruct (io_status _ _ Hok) as [He|He]; [done|].
      rewrite He in Hst. done.
  - apply wp_ret. split; [done|lia].
Qed.

Lemma filter_registered l : Forall (fun it => it.(status) = REGISTERED) l ->
  filter (fun kv : Z * Z => kv.2 = REGISTERED) (hooks_of l) = hooks_of l.
Proof.
  intros Hall. apply map_filter_id. intros t st Hl. apply elem_of_list_to_map_2 in Hl.
  apply list_elem_of_fmap in Hl as (it & [= -> ->] & Hin). rewrite Forall_forall in Hall. by apply Hall.
Qed.

(** The fuel is the number of items and one: a round removes an item or goes
    on to the next. *)
Lemma wp_inlineUnHookAll p (Q : unit -> process -> Prop) E : WFp p ->
  (forall q, WFp q -> hooks q = filter (fun kv => kv.2 = REGISTERED) (hooks p) -> Q tt q) ->
  wp (inlineUnHookAll traceable pid task_dir) Q E p.
Proof.
  intros Hwf HQ. unfold inlineUnHookAll. apply wp_bind. apply wp_freeze; [done|done|]. intros c p1 Hz Hmv.
  pose proof (wf_frozen _ _ _ _ Hwf Hz) as Hwf1.
  apply wp_bind, wp_gets. apply wp_bind.
  apply (wp_mono _ (fun _ q => WFp q /\ hooks q = filter (fun kv => kv.2 = REGISTERED) (hooks p)) _ (fun _ => False)).
  2: { intros [] q [H1 H2]. unfold unFreeze. wp_steps. auto. }
  2: done.
  apply (wp_loop (fun n i q => exists k, i = Z.of_nat k /\ unhooked_upto p k q /\ n = (Z.to_nat q.(size) - k)%nat))
    with (n := Z.to_nat (size p1)).
  - intros n i q (k & -> & Hq & ->). eapply wp_mono; [by apply (unhook_all_round p)| |done].
    intros [i'|[]] q'.
    + intros (k' & -> & Hq' & Hlt). exists (Z.to_nat (size q') - k')%nat. split; [done|]. by exists k'.
    + intros [-> ->]. destruct Hq as (Hwfq & Hk & Hall & Hf). split; [done|]. rewrite <- Hf. symmetry.
      apply filter_registered. rewrite take_ge in Hall; [done|]. unfold live. rewrite length_take. lia.
  - exists 0%nat. split; [done|]. split; [|lia]. split; [done|]. split; [lia|]. split; [done|].
    by rewrite (hooks_frozen _ _ Hz).
  - lia.
Qed.

(** ** The theorems *)

(** What a call needs: only registering a new function needs something of the
    environment. *)
Definition ready (executable : Z -> bool) (r : request) (p : process) : Prop :=
  match r with
  | Register target new proto => executable target && executable new = true -> hooks p !! target = None ->
      exists page old bytes code tbs, can_register p target proto page old bytes code tbs
  | _ => True
  end.

Lemma register_meets maps executable target new proto p :
  (forall a q, isExecutableAddr maps a q = (Returns (executable a), q)) -> WFp p -> ready executable (Register target new proto) p ->
  wp (registerInlineHook maps target new proto)
    (meets (hook_spec executable (Register target new proto) (hooks p)) p) (fun _ => False) p.
Proof.
  intros Hex Hwf Hready. cbn [hook_spec ready] in *. destruct (executable target && executable new) eqn:He.
  - destruct (hooks p !! target) as [st|] eqn:Hh.
    + unfold registerInlineHook, wp. apply andb_true_iff in He as [He1 He2].
      unfold bind at 1. rewrite Hex, He1. unfold bind at 1. rewrite Hex, He2. cbn [negb].
      destruct (wf_find p (fun it => it.(target_addr) =? target) target Hwf (fun it => proj1 (Z.eqb_eq _ _))) as [Hs Hf].
      unfold findInlineHookItem. apply wp_bind, wp_find_item; [done|]. destruct (list_find _ _) as [[i it]|].
      * destruct Hf as (_ & _ & _ & Hst & Hit & _). rewrite Hh in Hst. injection Hst as ->.
        destruct (io_status _ _ Hit) as [Hr|Hr]; rewrite Hr; apply wp_ret, meets_refused; done.
      * rewrite (find_none p target _ Hf) in Hh by (intros; lia). done.
    + destruct Hready as (page & old & bytes & code & tbs & Hcan); [done|done|].
      eapply wp_registerInlineHook; [done|done|done|done|exact Hcan|]. intros m Hm.
      destruct (wf_registered _ _ p target new proto page old bytes code tbs m Hwf Hcan Hh Hm) as (H1 & _ & H2).
      by apply meets_ok.
  - unfold registerInlineHook, wp. unfold bind at 1. rewrite Hex. unfold bind at 1.
    destruct (executable target); cbn [andb] in He; [rewrite Hex, He|]; by apply meets_refused.
Qed.

Lemma perform_meets maps executable r p :
  (forall a q, isExecutableAddr maps a q = (Returns (executable a), q)) -> WFp p -> ready executable r p ->
  exists e p', perform maps r p = (Returns e, p') /\ meets (hook_spec executable r (hooks p)) p e p'.
Proof.
  intros Hex Hwf Hready. apply wp_returns. destruct r; cbn [perform].
  - by apply register_meets.
  - by apply inlineHook_meets.
  - by apply inlineUnHook_meets.
  - by apply inlineHookAll_meets.
  - apply wp_bind, wp_inlineUnHookAll; [done|]. intros q H1 H2. apply wp_ret. by apply meets_ok.
Qed.

(** C12. The hook library refines a map from functions to the state of their
    hook: from a sound table every call returns the result of the
    specification, makes its change to the map, and leaves a sound table.  The
    map of the process can be read, so that [isExecutableAddr] answers.  Only the
    registration of a new function relies on the environment ([ready]): there
    is a free slot, [mmap] gives a page apart from the code and the other pages,
    [malloc] succeeds, the first bytes of the function and the pointer to the
    original are mapped, and the relocated code exists and fits into the page. *)
Theorem hooks_refine_map maps executable r p :
  (forall a q, isExecutableAddr maps a q = (Returns (executable a), q)) -> WFp p -> ready executable r p ->
  exists p', perform maps r p = (Returns (hook_spec executable r (hooks p)).1, p') /\
    WFp p' /\ hooks p' = (hook_spec executable r (hooks p)).2.
Proof.
  intros Hex Hwf Hready. destruct (perform_meets _ _ r p Hex Hwf Hready) as (e & p' & H & -> & H1 & H2 & _). eauto.
Qed.

(** C13. A refused call changes nothing: no memory, no item, no thread.  That is
    the registration of a function that is not executable, or whose replacement is
    not, or that is registered or hooked already; hooking a function that is
    unknown or hooked; and releasing one that is not hooked.  The table has to be
    sound and the map of the process readable; nothing is asked of slots, memory
    or code. *)
Theorem refused_unchanged maps executable r p :
  (forall a q, isExecutableAddr maps a q = (Returns (executable a), q)) -> WFp p ->
  (hook_spec executable r (hooks p)).1 <> ELE7EN_OK ->
  perform maps r p = (Returns (hook_spec executable r (hooks p)).1, p).
Proof.
  intros Hex Hwf Hno. assert (ready executable r p) as Hready.
  { destruct r; try done. intros He Hh. cbn [hook_spec] in Hno. by rewrite He, Hh in Hno. }
  destruct (perform_meets _ _ r p Hex Hwf Hready) as (e & p' & H & -> & _ & _ & H2).
  by rewrite H, (H2 Hno).
Qed.

(** C14. [inlineUnHookAll], whose loop removes items while it counts them,
    terminates within one round for every item, and no active hook is left. *)
Theorem unhook_all_terminates p : WFp p ->
  exists p', inlineUnHookAll traceable pid task_dir p = (Returns tt, p') /\ WFp p' /\
    forall t, hooks p' !! t <> Some HOOKED /\ (hooks p !! t = Some REGISTERED -> hooks p' !! t = Some REGISTERED).
Proof.
  intros Hwf. destruct (wp_returns (inlineUnHookAll traceable pid task_dir)
    (fun _ q => WFp q /\ hooks q = filter (fun kv => kv.2 = REGISTERED) (hooks p)) p) as ([] & q & H & H1 & H2).
  { by apply wp_inlineUnHookAll. }
  exists q. split; [done|]. split; [done|]. intros t. rewrite H2. split.
  - intros [_ Hs]%map_lookup_filter_Some. done.
  - intros Hs. by apply map_lookup_filter_Some.
Qed.
End Operations.
