(* ===== verification/HookCycle.v ===== *)
(** * libmemcheck: the life of a hook (inlineHook/inlineHook.c)

    Registering, hooking and unhooking one after the other; the code a hook
    leaves at the function, executed with the instructions of ArmExec.v; the
    program counters of stopped threads; and the places where the table of
    hooks fails its users. *)

From stdpp Require Import base numbers list list_numbers gmap.
From Stdlib Require Import Lia ZArith.
From S2P Require Import Prelude Relocate ArmExec RelocateLoops InlineHook HookTable HookSteps HookProps.

#[local] Open Scope Z_scope.
#[local] Open Scope c_scope.

(** ** Words in memory *)

Lemma words_word_bytes w : 0 <= w < 4294967296 -> words (word_bytes w) = [w].
Proof.
  intros Hw. cbn. f_equal.
  pose proof (Z.div_mod w 256 ltac:(lia)). pose proof (Z.div_mod (w / 256) 256 ltac:(lia)).
  pose proof (Z.div_mod (w / 256 / 256) 256 ltac:(lia)). pose proof (Z.div_mod (w / 256 / 256 / 256) 256 ltac:(lia)).
  assert (w / 256 / 256 / 256 / 256 = 0).
  { rewrite !Zdiv_Zdiv by lia. apply Z.div_small. lia. }
  replace (w / 65536) with (w / 256 / 256) by (rewrite Zdiv_Zdiv; [done|lia..]).
  replace (w / 16777216) with (w / 256 / 256 / 256) by (rewrite !Zdiv_Zdiv; [done|lia..]). lia.
Qed.

Lemma load_overwritten a bs m m' : overwritten a bs m m' -> load_bytes (length bs) a m' = Some bs.
Proof.
  intros Ho. destruct (load_bytes_spec (length bs) a m') as (bs' & Hl & Hlen & Hbs).
  { intros x Hx. rewrite (Ho x), decide_True by lia. apply lookup_lt_is_Some_2. lia. }
  rewrite Hl. f_equal. apply list_eq. intros i. destruct (decide (i < length bs)%nat).
  - rewrite Hbs, (Ho _), decide_True by lia. f_equal. lia.
  - by rewrite !lookup_ge_None_2 by lia.
Qed.

Lemma overwritten_app a bs cs m m' : overwritten a (bs ++ cs) m m' ->
  exists m1, overwritten a bs m1 m' /\ overwritten (a + Z.of_nat (length bs)) cs m1 m'.
Proof.
  intros Ho. exists m'. split; intros x; (destruct (decide _) as [Hd|]; [|done]); rewrite (Ho x), length_app, decide_True by lia.
  - by rewrite lookup_app_l by lia.
  - rewrite lookup_app_r by lia. f_equal. lia.
Qed.

Lemma stored_words ws : forall a m m', Forall (fun w => 0 <= w < 4294967296) ws ->
  overwritten a (concat (word_bytes <$> ws)) m m' -> stored ws a (load_word m').
Proof.
  induction ws as [|w ws IH]; intros a m m' Hall Ho; [by intros []|].
  apply Forall_cons in Hall as [Hw Hall]. cbn [fmap list_fmap concat] in Ho.
  apply overwritten_app in Ho as (m1 & Ho1 & Ho2). intros [|k] v; cbn [lookup list_lookup].
  - intros [= <-]. unfold load_word. rewrite Z.add_0_r.
    pose proof (load_overwritten _ _ _ _ Ho1) as Hl. cbn [length word_bytes] in Hl. rewrite Hl. by rewrite words_word_bytes.
  - intros Hv. specialize (IH _ _ _ Hall Ho2 k v Hv). cbn [length word_bytes] in IH.
    by replace (a + 4 * Z.of_nat (S k)) with (a + Z.of_nat 4 + 4 * Z.of_nat k) by lia.
Qed.

(** Two writes apart from each other. *)
Lemma overwritten_kept a bs b cs m m1 m' : overwritten a bs m m1 -> overwritten b cs m1 m' ->
  disjoint a (Z.of_nat (length bs)) b (Z.of_nat (length cs)) -> overwritten a bs m' m'.
Proof.
  intros H1 H2 Hd x. destruct (decide _) as [Hx|]; [|done]. unfold disjoint in Hd.
  rewrite (H2 x), decide_False by lia. by rewrite (H1 x), decide_True.
Qed.

Lemma clear_bit0 t : 0 <= t < 4294967296 -> TEST_BIT0 t = 0 -> CLEAR_BIT0 t = t.
Proof.
  unfold TEST_BIT0, CLEAR_BIT0. intros Hr H. change 1 with (Z.ones 1) in H. rewrite Z.land_ones in H by lia.
  change 0xFFFFFFFE with (Z.shiftl (Z.ones 31) 1). change (2 ^ 1) with 2 in H.
  pose proof (Z.div_mod t 2 ltac:(lia)).
  assert (t = Z.shiftl (t / 2) 1) as Ht by (rewrite Z.shiftl_mul_pow2 by lia; change (2 ^ 1) with 2; lia).
  rewrite Ht at 1. rewrite <- Z.shiftl_land, Z.land_ones by lia. change (2 ^ 31) with 2147483648.
  rewrite Z.mod_small by lia. by rewrite <- Ht.
Qed.

Lemma same_item l x y : NoDup (target_addr <$> l) -> x ∈ l -> y ∈ l -> x.(target_addr) = y.(target_addr) -> x = y.
Proof.
  intros Hnd [i Hi]%list_elem_of_lookup [j Hj]%list_elem_of_lookup Ht.
  assert (i = j) as ->; [|congruence].
  eapply (NoDup_lookup _ _ _ x.(target_addr) Hnd); rewrite list_lookup_fmap; [by rewrite Hi|by rewrite Hj, Ht].
Qed.

Lemma last_app_singleton {A} (l : list A) x y : last (l ++ [x]) = Some y <-> x = y.
Proof. rewrite last_snoc. split; congruence. Qed.

Section Cycle.
Context (traceable : Z -> bool) (pid : Z) (task_dir : bool).
#[local] Abbreviation WFp := (WF pid task_dir).

(** ** The code of a hook *)

(** A call of a hooked ARM function lands in its replacement: after
    [inlineHook] the instruction at the function's address loads the
    replacement's address into [PC], whatever the registers; the pointer to
    the original function holds the trampoline; and the changed words are
    flushed from the instruction cache. *)
Theorem hooked_function_jumps passed add_op p it s :
  (forall f, passed 14 f = true) ->
  WFp p -> it ∈ live p -> it.(status) = REGISTERED -> TEST_BIT0 it.(target_addr) = 0 ->
  0 <= it.(target_addr) < 2 ^ 32 - 20 -> 0 <= it.(new_addr) < 2 ^ 32 -> 0 <= it.(trampoline_instructions) < 2 ^ 32 ->
  it.(proto_addr) = 0 \/ disjoint (CLEAR_BIT0 it.(target_addr)) 8 it.(proto_addr) 4 ->
  exists q, inlineHook traceable pid task_dir it.(target_addr) p = (Returns ELE7EN_OK, q) /\
    (s.(pc) = it.(target_addr) -> s.(mem) = load_word q.(memory) ->
     run passed add_op 1 s = Some (set_pc it.(new_addr) s)) /\
    (it.(proto_addr) <> 0 -> load_word q.(memory) it.(proto_addr) = Some it.(trampoline_instructions)) /\
    last q.(flushed) = Some (it.(target_addr), it.(target_addr) + 8).
Proof.
  intros Halways Hwf Hin Hst Ht Hr1 Hr2 Hr3 Hd. change (2 ^ 32) with 4294967296 in *.
  pose proof (clear_bit0 it.(target_addr) ltac:(lia) Ht) as Hclear.
  assert (forall x, hooks p !! it.(target_addr) = Some x -> x = REGISTERED) as Hh.
  { intros x. unfold hooks. rewrite (hooks_lookup _ it) by (apply (wf_targets _ _ _ Hwf) || done). congruence. }
  destruct (wp_returns (inlineHook traceable pid task_dir (target_addr it)) (fun e q => e = ELE7EN_OK /\
    hooked_memory it p.(memory) q.(memory) /\ last q.(flushed) = Some (window it, u32 (window it + length_ it))) p)
    as (e & q & Hrun & -> & Hm & Hfl).
  { apply wp_inlineHook; [done|..].
    - intros i x Hi Hx Hs p1 m Hz _ Hm _.
      assert (x = it) as -> by (apply (same_item (live p)); [apply (wf_targets _ _ _ Hwf)|by apply list_elem_of_lookup_2 in Hi|done..]).
      split; [done|]. split; [done|]. cbn. by rewrite last_snoc.
    - unfold hooks. by rewrite (hooks_lookup _ it) by (apply (wf_targets _ _ _ Hwf) || done).
    - intros Hc%Hh. done. }
  exists q. split; [done|].
  pose proof (proj1 (Forall_forall _ _) (wf_items _ _ _ Hwf) it Hin) as Hok.
  assert (length_ it = 8) as Hlen by (rewrite (io_length _ _ Hok); unfold hook_length; by rewrite Ht).
  destruct Hm as (m1 & Hm1 & Hm). unfold window in *. rewrite Hclear in *. rewrite Hlen in Hfl.
  unfold jump_bytes in Hm1. rewrite Ht in Hm1. cbn [negb Z.eqb] in Hm1.
  assert (overwritten (target_addr it) (concat (word_bytes <$> [0xe51ff004; new_addr it])) q.(memory) q.(memory)) as Hjump.
  { cbn [fmap list_fmap concat]. rewrite app_nil_r. destruct (proto_addr it =? 0) eqn:Ep.
    - subst m1. intros x. destruct (decide _) as [Hx|]; [|done]. by rewrite (Hm1 x), decide_True.
    - eapply overwritten_kept; [exact Hm1|exact Hm|]. destruct Hd; [lia|done]. }
  split; [|split].
  - intros Hpc Hmem. apply run_branch; [done|rewrite Hpc; change (2 ^ 32) with 4294967296; lia|]. rewrite Hpc, Hmem.
    eapply stored_words; [|exact Hjump]. repeat constructor; lia.
  - intros Hp. destruct (proto_addr it =? 0) eqn:Ep; [lia|]. unfold entry in Hm. rewrite Ht in Hm. cbn [negb Z.eqb] in Hm.
    unfold load_word. pose proof (load_overwritten _ _ _ _ Hm) as Hl. cbn [length word_bytes] in Hl. rewrite Hl.
    by rewrite words_word_bytes by lia.
  - rewrite Hfl, u32_small by lia. done.
Qed.

(** ** Registering, hooking and unhooking *)

Definition hook_and_back (maps : option (list (list Z))) (target new proto : Z) :
    HookM (ele7en_status * ele7en_status * ele7en_status) :=
  let! e1 := registerInlineHook maps target new proto in
  let! e2 := inlineHook traceable pid task_dir target in
  let! e3 := inlineUnHook traceable pid task_dir target in
  ret (e1, e2, e3).

Lemma load_bytes_lookup n : forall a m bs i, load_bytes n a m = Some bs -> (i < n)%nat ->
  bs !! i = m (a + Z.of_nat i).
Proof.
  induction n as [|n IH]; intros a m bs i; cbn [load_bytes]; [lia|].
  destruct (m a) as [v|] eqn:Hv; [|done]. destruct (load_bytes n (a + 1) m) as [bs'|] eqn:E; [|done].
  intros [= <-] Hi. destruct i as [|i]; cbn; [by rewrite Z.add_0_r|].
  rewrite (IH _ _ _ _ E) by lia. f_equal. lia.
Qed.

(** The memory at the end of the three calls. *)
Lemma cycle_memory p target proto page old bytes code tbs m1 m2 m3 it x :
  can_register p target proto page old bytes code tbs ->
  overwritten page code (map_page page p.(memory)) m1 ->
  it.(target_addr) = target -> it.(proto_addr) = proto -> hooked_memory it m1 m2 ->
  overwritten (CLEAR_BIT0 target) bytes m2 m3 ->
  (forall y, page <= y < page + PAGE_SIZE -> p.(memory) y = None) ->
  proto = 0 \/ ~ (proto <= x < proto + 4) ->
  unmap_page page m3 x = p.(memory) x.
Proof.
  intros Hcan H1 Ht Hp (m & Hj & H2) H3 Hfresh Hx. unfold unmap_page.
  destruct ((page <=? x) && (x <? page + PAGE_SIZE)) eqn:Epage; [symmetry; apply Hfresh; lia|].
  pose proof (cr_bytes _ _ _ _ _ _ _ _ Hcan) as Hb. pose proof (cr_fits _ _ _ _ _ _ _ _ Hcan).
  pose proof (load_bytes_length _ _ _ _ Hb) as Hlen.
  rewrite (H3 x). destruct (decide _) as [Hw|Hw].
  - rewrite (load_bytes_lookup _ _ _ _ _ Hb) by lia. f_equal. lia.
  - assert (m2 x = m x) as ->.
    { rewrite Hp in H2. destruct (proto =? 0) eqn:Ep; [by subst|]. rewrite (H2 x), decide_False; [done|].
      change (Z.of_nat (length (word_bytes _))) with 4. destruct Hx; lia. }
    rewrite (Hj x), decide_False.
    2: { unfold window. rewrite Ht. pose proof (jump_bytes_length target (new_addr it)). lia. }
    rewrite (H1 x), decide_False by lia. unfold map_page. by rewrite Epage.
Qed.

(** Releasing the last item leaves the others as they were. *)
Lemma live_unhooked_last p l x it y m : WFp p -> live p = l ++ [x] -> live (unhooked p (length l) it y m) = l.
Proof.
  intros Hwf Hl. pose proof (wf_size _ _ _ Hwf) as Hs. pose proof (wf_room _ _ _ Hwf) as Hr. pose proof (f_equal length Hl) as Hlen. unfold MAX_ITEMS in Hs.
  unfold live in Hl, Hlen |- *. rewrite length_take, length_app in Hlen. cbn [length] in Hlen. cbn [unhooked item size].
  replace (Z.to_nat (size p - 1)) with (length l) by lia. rewrite take_insert_ge by lia.
  transitivity (take (length l) (take (Z.to_nat (size p)) (item p))); [rewrite take_take; f_equal; lia|].
  by rewrite Hl, take_app_length.
Qed.

(** The last item of a list of items with different targets is found there. *)
Lemma last_position l x it i : NoDup (target_addr <$> l ++ [x]) -> (l ++ [x]) !! i = Some it -> it.(target_addr) = x.(target_addr) -> i = length l.
Proof.
  intros Hnd Hi Ht. eapply (NoDup_lookup _ _ _ x.(target_addr) Hnd); rewrite list_lookup_fmap.
  - by rewrite Hi; cbn; rewrite Ht.
  - by rewrite lookup_app_r, Nat.sub_diag by lia.
Qed.

(** C15. Registering, hooking and unhooking a function that is not registered,
    from a sound table and where it can be registered ([can_register]: a slot, a
    fresh page, memory, code that can be relocated), leaves the process as it
    was: every byte of the memory, the code of the function included, but the
    four bytes at [proto] where the pointer to the original function was written;
    and the table, with the same number of items, which are the same in the same
    order.  The page of the trampoline is unmapped again, as it was before; so
    the pointer at [proto], if there is one, must not be used any more. *)
Theorem hook_cycle_restores maps executable p target new proto page old bytes code tbs :
  (forall a q, isExecutableAddr maps a q = (Returns (executable a), q)) ->
  executable target && executable new = true -> WFp p -> hooks p !! target = None ->
  can_register p target proto page old bytes code tbs ->
  (forall x, page <= x < page + PAGE_SIZE -> p.(memory) x = None) ->
  exists q, hook_and_back maps target new proto p = (Returns (ELE7EN_OK, ELE7EN_OK, ELE7EN_OK), q) /\
    (forall x, proto = 0 \/ ~ (proto <= x < proto + 4) -> q.(memory) x = p.(memory) x) /\
    q.(size) = p.(size) /\ live q = live p /\ WFp q.
Proof.
  intros Hex He Hwf Hh Hcan Hfresh.
  destruct (wp_returns (hook_and_back maps target new proto) (fun es q => es = (ELE7EN_OK, ELE7EN_OK, ELE7EN_OK) /\
    (forall x, proto = 0 \/ ~ (proto <= x < proto + 4) -> q.(memory) x = p.(memory) x) /\ q.(size) = p.(size) /\ live q = live p /\ WFp q) p)
    as (es & q & Hrun & -> & Hq); [|by exists q].
  unfold hook_and_back. apply wp_bind. eapply wp_registerInlineHook; [done..|exact Hcan|]. intros m1 Hm1.
  set (it := new_item _ _ _ _ _ _ _). set (p1 := registered p it m1).
  destruct (wf_registered _ _ p target new proto page old bytes code tbs m1 Hwf Hcan Hh Hm1) as (Hwf1 & Hl1 & Hh1).
  fold it p1 in Hwf1, Hl1, Hh1.
  assert (hooks p1 !! target = Some REGISTERED) as Hreg by (rewrite Hh1; apply lookup_insert_eq).
  apply wp_bind. apply wp_inlineHook; [done| |by rewrite Hreg|by rewrite Hreg].
  intros i x Hi Hx _ p2 m2 Hz _ Hm2 Hdom.
  assert (x = it) as ->.
  { apply (same_item (live p1)); [apply (wf_targets _ _ _ Hwf1)|by apply list_elem_of_lookup_2 in Hi| |done].
    rewrite Hl1. apply elem_of_app. right. by apply list_elem_of_singleton. }
  rewrite <- (fz_memory _ _ Hz) in Hdom, Hm2. pose proof Hi as Hi2. rewrite <- (frozen_live _ _ Hz) in Hi2.
  set (p3 := mkProcess m2 _ _ _ _ _ _ _).
  destruct (wf_replace _ _ p2 i it HOOKED m2 (flushed p2 ++ [(window it, u32 (window it + length_ it))])
    (wf_frozen _ _ _ _ Hwf1 Hz) Hi2 ltac:(by right) Hdom) as (Hwf3 & Hl3 & Hh3). fold (activate it) p3 in Hwf3, Hl3, Hh3.
  assert (hooks p3 !! target = Some HOOKED) as Hhk by (rewrite Hh3; apply lookup_insert_eq).
  rewrite (frozen_live _ _ Hz) in Hl3.
  apply wp_bind. apply wp_inlineUnHook; [done| |by intros []]. 
  intros j x Hj Hxj _ p4 m3 y Hz' _ Hm3 Hy.
  assert (x = activate it) as ->.
  { apply (same_item (live p3)); [apply (wf_targets _ _ _ Hwf3)|by apply list_elem_of_lookup_2 in Hj| |done].
    rewrite Hl3. apply list_elem_of_lookup. exists i. apply list_lookup_insert_eq. by apply lookup_lt_Some in Hi. }
  apply wp_ret. split; [done|].
  pose proof Hj as Hj4. rewrite <- (frozen_live _ _ Hz') in Hj4, Hy. rewrite <- (fz_memory _ _ Hz') in Hm3.
  pose proof (wf_frozen _ _ _ _ Hwf3 Hz') as Hwf4. destruct (wf_unhooked _ _ p4 j (activate it) y m3 Hwf4 Hj4 Hy Hm3) as (Hwf5 & _ & _).
  assert (i = length (live p)) as ->.
  { rewrite Hl1 in Hi. eapply (last_position _ it it); [|exact Hi|done]. rewrite <- Hl1. apply (wf_targets _ _ _ Hwf1). }
  assert (live p3 = live p ++ [activate it]) as Hl3'.
  { rewrite Hl3, Hl1. pose proof (insert_app_r (live p) [it] 0 (activate it)) as H. by rewrite Nat.add_0_r in H. }
  assert (j = length (live p)) as ->.
  { rewrite Hl3' in Hj. eapply (last_position _ (activate it) (activate it)); [|exact Hj|done]. rewrite <- Hl3'. apply (wf_targets _ _ _ Hwf3). }
  split; [|split; [|split; [|exact Hwf5]]].
  - intros a Ha. rewrite (fz_memory _ _ Hz') in Hm3. rewrite (fz_memory _ _ Hz) in Hm2.
    by eapply (cycle_memory p target proto page old bytes code tbs m1 m2 m3 it).
  - cbn [unhooked size]. rewrite (fz_size _ _ Hz'). cbn [p3 size]. rewrite (fz_size _ _ Hz). cbn [p1 registered size]. lia.
  - eapply live_unhooked_last; [exact Hwf4|]. by rewrite (frozen_live _ _ Hz').
Qed.

(** ** Stopped threads *)

Lemma find_boundary_at from to_ off n : forall i k v,
  (i <= k < i + n)%nat -> from !! k = Some off -> to_ !! k = Some v ->
  (forall j, (j < k)%nat -> from !! j <> Some off) -> (i + n <= length from)%nat ->
  find_boundary from to_ off n (Z.of_nat i) = Some (Some v).
Proof.
  induction n as [|n IH]; intros i k v Hk Hf Ht Hno Hl; [lia|]. cbn [find_boundary].
  unfold aget. rewrite decide_True by lia. rewrite Nat2Z.id.
  destruct (lookup_lt_is_Some_2 from i) as [x Hx]; [lia|]. rewrite Hx. destruct (off =? x) eqn:E.
  - apply Z.eqb_eq in E as <-. destruct (decide (i = k)) as [->|Hne]; [by rewrite decide_True, Ht by lia|].
    exfalso. apply (Hno i); [lia|done].
  - replace (Z.of_nat i + 1) with (Z.of_nat (S i)) by lia. apply (IH (S i) k); try done; [|lia].
    assert (i <> k) by (intros ->; rewrite Hf in Hx; injection Hx as ->; lia). lia.
Qed.

Lemma find_boundary_none from to_ off n : forall i, (i + n <= length from)%nat ->
  (forall j, (j < i + n)%nat -> from !! j <> Some off) ->
  find_boundary from to_ off n (Z.of_nat i) = Some None.
Proof.
  induction n as [|n IH]; intros i Hl Hno; cbn [find_boundary]; [done|].
  unfold aget. rewrite decide_True by lia. rewrite Nat2Z.id.
  destruct (lookup_lt_is_Some_2 from i) as [x Hx]; [lia|]. rewrite Hx. destruct (off =? x) eqn:E.
  - apply Z.eqb_eq in E as <-. exfalso. apply (Hno i); [lia|done].
  - replace (Z.of_nat i + 1) with (Z.of_nat (S i)) by lia. apply IH; [lia|]. intros j ?. apply Hno. lia.
Qed.

Lemma NoDup_first {A} (l : list A) n k x : NoDup (take n l) -> (k < n)%nat -> l !! k = Some x ->
  forall j, (j < k)%nat -> l !! j <> Some x.
Proof.
  intros Hnd Hk Hx j Hj Hjx. assert (j = k); [|lia].
  eapply (NoDup_lookup (take n l) _ _ x Hnd); by rewrite lookup_take_lt by lia.
Qed.

(** A thread stopped in front of instruction [k] of a function that is
    being hooked goes on with the [k]-th piece of the trampoline; stopped there
    while the function is unhooked, it goes back to the instruction. *)
Theorem thread_pc_roundtrip it k o t :
  tables_ok it.(tables) -> (k < Z.to_nat it.(tables).(count))%nat ->
  it.(tables).(orig_boundaries) !! k = Some o -> it.(tables).(trampoline_boundaries) !! k = Some t ->
  NoDup (take (Z.to_nat it.(tables).(count)) it.(tables).(orig_boundaries)) ->
  NoDup (take (Z.to_nat it.(tables).(count)) it.(tables).(trampoline_boundaries)) ->
  0 <= o < PAGE_SIZE -> 0 <= t < PAGE_SIZE ->
  0 <= window it < 2 ^ 32 - PAGE_SIZE -> 0 <= it.(trampoline_instructions) < 2 ^ 32 - PAGE_SIZE ->
  doProcessThreadPC it (window it + o) ACTION_ENABLE = Some (Some (it.(trampoline_instructions) + t)) /\
  doProcessThreadPC it (it.(trampoline_instructions) + t) ACTION_DISABLE = Some (Some (window it + o)).
Proof.
  unfold PAGE_SIZE. change (2 ^ 32) with 4294967296. intros (Hl1 & Hl2 & Hc) Hk Ho Ht Hn1 Hn2 Hor Htr Hw Htramp.
  unfold doProcessThreadPC. fold (window it). split.
  - replace (i32 (window it + o - window it)) with o by (rewrite i32_small; lia).
    rewrite (find_boundary_at _ _ o _ 0 k t); try done; [by rewrite u32_small by lia|lia| |lia].
    by eapply NoDup_first.
  - replace (i32 (trampoline_instructions it + t - trampoline_instructions it)) with t by (rewrite i32_small; lia).
    rewrite (find_boundary_at _ _ t _ 0 k o); try done; [by rewrite u32_small by lia|lia| |lia].
    by eapply NoDup_first.
Qed.

Lemma move_threads_same tids its action ts ts' tid pc :
  move_threads traceable tids its action ts = Some ts' -> (tid, pc) ∈ ts ->
  processThreadPC its action pc = Some pc -> (tid, pc) ∈ ts'.
Proof.
  intros Hm Hin Hpc. revert ts' Hm. induction ts as [|[tid' pc'] ts IH]; [by apply not_elem_of_nil in Hin|].
  intros ts'. cbn [move_threads]. apply elem_of_cons in Hin as [[= <- <-]|Hin].
  - rewrite Hpc. destruct (bool_decide _ && _), (move_threads _ _ _ _ ts); try done; intros [= <-]; apply list_elem_of_here.
  - destruct (if bool_decide _ && _ then _ else _) as [pc''|]; [|done].
    destruct (move_threads _ _ _ _ ts) as [ts2|] eqn:E; [|done].
    intros [= <-]. apply list_elem_of_further. by apply IH.
Qed.

(** A thread stopped inside a piece of the trampoline, and not in front of
    it, is left where it is when the function is unhooked, and the page it
    executes is unmapped. *)
Theorem thread_left_in_trampoline p it tid pc :
  WFp p -> it ∈ live p -> it.(status) = HOOKED -> (tid, pc) ∈ p.(threads) ->
  it.(trampoline_instructions) <= pc < it.(trampoline_instructions) + PAGE_SIZE ->
  pc - it.(trampoline_instructions) ∉ take (Z.to_nat it.(tables).(count)) it.(tables).(trampoline_boundaries) ->
  exists q, inlineUnHook traceable pid task_dir it.(target_addr) p = (Returns ELE7EN_OK, q) /\
    (tid, pc) ∈ q.(threads) /\ q.(memory) pc = None.
Proof.
  intros Hwf Hin Hst Htid Hpc Hno. unfold PAGE_SIZE in Hpc.
  assert (tables_ok it.(tables)) as (Hl1 & Hl2 & Hc).
  { apply list_elem_of_lookup in Hin as [i [_ Hi]%live_lookup].
    by apply (Forall_lookup_1 _ _ _ _ (wf_tables _ _ _ Hwf) Hi). }
  assert (processThreadPC [it] ACTION_DISABLE pc = Some pc) as Hstay.
  { unfold processThreadPC, first_move, doProcessThreadPC. rewrite i32_small by lia.
    rewrite (find_boundary_none _ _ _ _ 0); [done|lia|]. intros j Hj Hb. apply Hno.
    apply list_elem_of_lookup. exists j. by rewrite lookup_take_lt. }
  destruct (wp_returns (inlineUnHook traceable pid task_dir (target_addr it)) (fun e q => e = ELE7EN_OK /\
    (tid, pc) ∈ q.(threads) /\ q.(memory) pc = None) p) as (e & q & Hrun & -> & Hq); [|by exists q].
  apply wp_inlineUnHook; [done|..].
  - intros i x Hi Hx Hs p1 m y Hz Hmv _ _.
    assert (x = it) as -> by (apply (same_item (live p)); [apply (wf_targets _ _ _ Hwf)|by apply list_elem_of_lookup_2 in Hi|done..]).
    split; [done|]. split.
    + cbn. destruct Hmv as [->|(tids & Hmv)]; [done|]. by eapply move_threads_same.
    + cbn. unfold unmap_page, PAGE_SIZE. by rewrite (proj2 (andb_true_iff _ _)) by lia.
  - intros Hh. exfalso. apply Hh. unfold hooks. rewrite (hooks_lookup _ it) by (apply (wf_targets _ _ _ Hwf) || done). by rewrite Hst.
Qed.

(** [doInlineUnHook] flushes the code of the item that took the place of
    the removed one, so the restored code is flushed only if its item was the
    last. *)
Theorem unhook_flushes_last p it y :
  WFp p -> it ∈ live p -> it.(status) = HOOKED -> last (live p) = Some y ->
  exists q, inlineUnHook traceable pid task_dir it.(target_addr) p = (Returns ELE7EN_OK, q) /\
    q.(flushed) = p.(flushed) ++ [(window y, u32 (window y + y.(length_)))] /\
    (forall x, window it <= x < window it + it.(length_) ->
       it.(trampoline_instructions) + PAGE_SIZE <= x \/ x < it.(trampoline_instructions) ->
       q.(memory) x = it.(orig_instructions) !! Z.to_nat (x - window it)).
Proof.
  intros Hwf Hin Hst Hy.
  destruct (wp_returns (inlineUnHook traceable pid task_dir (target_addr it)) (fun e q => e = ELE7EN_OK /\
    q.(flushed) = p.(flushed) ++ [(window y, u32 (window y + y.(length_)))] /\
    (forall x, window it <= x < window it + it.(length_) ->
       it.(trampoline_instructions) + PAGE_SIZE <= x \/ x < it.(trampoline_instructions) ->
       q.(memory) x = it.(orig_instructions) !! Z.to_nat (x - window it))) p)
    as (e & q & Hrun & -> & Hq); [|by exists q].
  apply wp_inlineUnHook; [done|..].
  - intros i x Hi Hx Hs p1 m y' Hz _ Hm Hy'. rewrite Hy in Hy'. injection Hy' as <-.
    assert (x = it) as -> by (apply (same_item (live p)); [apply (wf_targets _ _ _ Hwf)|by apply list_elem_of_lookup_2 in Hi|done..]).
    split; [done|]. cbn [unhooked flushed memory]. rewrite (fz_flushed _ _ Hz). split; [done|].
    intros x Hx1 Hx2. unfold unmap_page. rewrite (proj2 (andb_false_iff _ _)) by lia.
    rewrite (Hm x), decide_True; [done|]. pose proof (live_item _ _ _ _ _ Hwf Hi) as Hok.
    rewrite (io_orig _ _ Hok). done.
  - intros Hh. exfalso. apply Hh. unfold hooks. rewrite (hooks_lookup _ it) by (apply (wf_targets _ _ _ Hwf) || done). by rewrite Hst.
Qed.

(** ** Where registering goes wrong *)

(** Up to the slot, for a function that is not in the table. *)
Lemma register_prefix maps executable p target new proto :
  (forall a q, isExecutableAddr maps a q = (Returns (executable a), q)) ->
  executable target && executable new = true -> WFp p -> hooks p !! target = None ->
  exists k, registerInlineHook maps target new proto p = bind addInlineHookItem k p /\
    (forall q, (k None q).1 = Stuck) /\
    forall i q, k (Some i) q = (let! old := read_item i in
        let len := hook_length target in
        let! ok := malloc_ok in
        if negb ok then stuck
        else
          let! bytes := read_memory (CLEAR_BIT0 target) len in
          let! tramp := mmap in
          let! m := gets memory in
          let '(r, tables) := relocateInstruction (load_word m) target bytes len old.(tables) in
          let! code := of_option (match r with Returns code => Some code | _ => None end) in
          write_memory tramp code ;;!
          write_item i (mkItem target new proto bytes tables tramp len REGISTERED old.(mode)) ;;!
          ret ELE7EN_OK) q.
Proof.
  intros Hex [He1 He2]%andb_true_iff Hwf Hnone.
  unfold registerInlineHook. unfold bind at 1. rewrite Hex, He1. cbv iota beta. unfold bind at 1. rewrite Hex, He2.
  cbn [negb]. unfold findInlineHookItem.
  destruct (wf_find pid task_dir p (fun it => target_addr it =? target) target Hwf (fun it => proj1 (Z.eqb_eq _ _))) as [Hs Hf].
  assert (find_item (fun it => target_addr it =? target) p = (Returns None, p)) as Hfind.
  { unfold find_item, items, bind, gets. rewrite (proj2 (Z.ltb_ge _ _)) by lia. unfold ret. f_equal. f_equal.
    change (take (Z.to_nat (size p)) (item p)) with (live p).
    destruct (list_find _ (live p)) as [[i it]|]; [|done]. destruct Hf as (_ & _ & _ & Hf & _). congruence. }
  unfold bind at 1. rewrite Hfind. eexists. split; [done|]. split; [done|]. intros i q. done.
Qed.

(** With 1024 hooks registered, the next registration writes through the
    null pointer of [addInlineHookItem]. *)
Theorem full_table_crashes maps executable p target new proto :
  (forall a q, isExecutableAddr maps a q = (Returns (executable a), q)) ->
  executable target && executable new = true -> WFp p -> hooks p !! target = None -> p.(size) = MAX_ITEMS ->
  (registerInlineHook maps target new proto p).1 = Stuck.
Proof.
  intros Hex He Hwf Hnone Hsize. destruct (register_prefix maps executable p target new proto Hex He Hwf Hnone) as (k & -> & Hk & _).
  unfold addInlineHookItem, bind, gets. rewrite Hsize. apply Hk.
Qed.

(** Two more instructions than the tables have room for. *)
Lemma arm_tables_full load target bytes b :
  TEST_BIT0 target = 0 -> length bytes = 8%nat -> tables_ok b -> 2 < b.(count) ->
  (relocateInstruction load target bytes 8 b).1 = Stuck.
Proof.
  intros Ht Hlen (Ho & Htr & Hc) Hn. unfold relocateInstruction, test. unfold TEST_BIT0 in Ht. rewrite Ht. cbn [negb Z.eqb].
  apply bind_stuck. unfold relocateInstructionInArm. apply bind_stuck.
  change (seqZ 0 (Z.quot 8 4)) with [0; 1]. cbn [foldM]. unfold arm_round at 1.
  destruct (decide (count b = 3)) as [H3|].
  2: { apply bind_stuck. apply stuck_full. unfold room_for. lia. }
  destruct (add_boundary_run (0 * 4) (Z.of_nat (length ([] : list Z)) * 4) b) as (b1 & Hb1 & Hext & _); [unfold room_for; lia|].
  unfold bind at 1. unfold bind at 1. rewrite Hb1. unfold bind at 1.
  destruct (aget (words bytes) 0) as [w|]; [|done]. unfold of_option at 1, ret at 1. unfold bind at 1.
  destruct (relocate_arm load _ w) as [t|]; [|done]. unfold of_option at 1, ret at 1.
  unfold arm_round at 1. apply bind_stuck. apply stuck_full. intros Hroom.
  apply (extended_room 1 _ _ _ _ Hext) in Hroom; [|lia|unfold room_for; lia]. unfold room_for in Hroom. lia.
Qed.

Lemma mmap_returns p : exists a q, mmap p = (Returns a, q).
Proof. unfold mmap, bind, gets, modify. destruct (mmaps p) as [|[a|] l]; by eexists _, _. Qed.

(** [registerInlineHook] does not reset the [count] of the slot it takes,
    so a slot whose tables an earlier hook has filled cannot hold another ARM
    hook: the tables are written past their end. *)
Theorem reused_slot_overflows maps executable p target new proto old :
  (forall a q, isExecutableAddr maps a q = (Returns (executable a), q)) ->
  executable target && executable new = true -> WFp p -> hooks p !! target = None -> p.(size) < MAX_ITEMS ->
  p.(item) !! Z.to_nat p.(size) = Some old -> 2 < old.(tables).(count) ->
  TEST_BIT0 target = 0 -> mapped p.(memory) (CLEAR_BIT0 target) (hook_length target) ->
  (registerInlineHook maps target new proto p).1 = Stuck.
Proof.
  intros Hex He Hwf Hnone Hsize Hold Hcount Ht Hmap.
  pose proof (wf_size _ _ _ Hwf). unfold MAX_ITEMS in *.
  pose proof (Forall_lookup_1 _ _ _ _ (wf_tables _ _ _ Hwf) Hold) as Htab.
  assert (hook_length target = 8) as Hlen by (unfold hook_length; by rewrite Ht).
  destruct (register_prefix maps executable p target new proto Hex He Hwf Hnone) as (k & -> & _ & Hk).
  unfold addInlineHookItem, bind at 1, bind at 1, gets at 1. unfold MAX_ITEMS. rewrite (proj2 (Z.leb_gt _ _)) by lia.
  unfold bind at 1, modify at 1, ret at 1. rewrite Hk. rewrite Hlen in *. clear k Hk.
  destruct (load_bytes_spec 8 (CLEAR_BIT0 target) _ Hmap) as (bytes & Hb & Hbl & _).
  unfold bind at 1, read_item, bind at 1, gets at 1. cbn [item set_size]. unfold aget. rewrite decide_True by lia.
  rewrite Hold. unfold of_option at 1, ret at 1.
  unfold bind at 1, malloc_ok at 1, bind at 1, gets at 1, bind at 1, modify at 1, ret at 1.
  destruct (negb _); [done|].
  unfold bind at 1, read_memory, bind at 1, gets at 1. cbn [memory set_mallocs set_size]. change (Z.to_nat 8) with 8%nat. rewrite Hb.
  unfold of_option at 1, ret at 1. unfold bind at 1. match goal with |- context [mmap ?q0] => destruct (mmap_returns q0) as (a & q & ->) end.
  unfold bind at 1, gets at 1.
  pose proof (arm_tables_full (load_word (memory q)) target bytes (tables old) Ht Hbl Htab Hcount) as Hst.
  destruct (relocateInstruction _ _ _ _ _) as [r tbs]. cbn in Hst. by rewrite Hst.
Qed.
End Cycle.
