(* ===== verification/ProcMaps.v ===== *)
(** * libmemcheck: which addresses are executable (inlineHook/inlineHook.c)

    [isExecutableAddr] parses the lines of /proc/self/maps with [strstr],
    [strtok] and [strtoul].  Here the lines are rendered the way the kernel
    prints them, and the parser is proved to read the regions back. *)

From stdpp Require Import base numbers list list_numbers.
From Stdlib Require Import Lia ZArith.
From S2P Require Import Prelude InlineHook.

#[local] Open Scope Z_scope.
#[local] Open Scope c_scope.

(** ** The lines of the kernel *)

Definition digit (d : Z) : Z := if d <? 10 then 48 + d else 87 + d.

(** [%08lx] *)
Fixpoint hex (n : nat) (v : Z) : list Z :=
  match n with
  | O => []
  | S n => hex n (v / 16) ++ [digit (v mod 16)]
  end.

(** A mapping; [rest] is what follows the permissions. *)
Record region : Type := mkRegion { start : Z; finish : Z; perms : list Z; rest : list Z }.

Definition render (r : region) : list Z :=
  hex 8 r.(start) ++ 45 :: hex 8 r.(finish) ++ 32 :: r.(perms) ++ r.(rest).

(** 32-bit addresses; "r-xp" is nowhere else on the line. *)
Definition region_ok (r : region) : Prop :=
  0 <= r.(start) < 2 ^ 32 /\ 0 <= r.(finish) < 2 ^ 32 /\
  strstr R_XP (r.(perms) ++ r.(rest)) = bool_decide (r.(perms) = R_XP).

(** ** Digits *)

(** What the parser asks of a character, for a hexadecimal digit. *)
Definition digit_char (c : Z) : Prop :=
  is_space c = false /\ (exists d, hex_digit c = Some d) /\
  c <> 45 /\ c <> 43 /\ c <> 32 /\ c <> 120 /\ c <> 88 /\ c <> 114.

Lemma digit_spec d : 0 <= d < 16 -> hex_digit (digit d) = Some d /\ digit_char (digit d).
Proof.
  intros Hd. assert (d ∈ seqZ 0 16) as Hin by (apply elem_of_seqZ; lia).
  assert (Forall (fun d => hex_digit (digit d) = Some d /\ digit_char (digit d)) (seqZ 0 16)) as Hall.
  { unfold digit_char. repeat (constructor; [cbn; repeat split; try done; by eexists|]). constructor. }
  rewrite Forall_forall in Hall. by apply Hall.
Qed.

Lemma hex_chars n : forall v, Forall digit_char (hex n v).
Proof.
  induction n as [|n IH]; intros v; cbn [hex]; [done|]. apply Forall_app_2; [done|].
  constructor; [|done]. apply digit_spec. apply Z.mod_pos_bound. lia.
Qed.

Lemma hex_length n : forall v, length (hex n v) = n.
Proof. induction n as [|n IH]; intros v; cbn [hex]; [done|]. rewrite length_app, IH. cbn. lia. Qed.

Lemma hex_value_app s t : Forall digit_char s -> forall acc,
  hex_value (s ++ t) acc = hex_value t (hex_value s acc).
Proof.
  induction 1 as [|c s (_ & (d & Hd) & _) _ IH]; intros acc; cbn [app hex_value]; [done|]. by rewrite Hd.
Qed.

Lemma hex_value_hex n : forall v acc, 0 <= v -> hex_value (hex n v) acc = acc * 16 ^ Z.of_nat n + v mod 16 ^ Z.of_nat n.
Proof.
  induction n as [|n IH]; intros v acc Hv; cbn [hex].
  - cbn [hex_value]. rewrite Z.mod_1_r. lia.
  - rewrite hex_value_app by apply hex_chars. cbn [hex_value].
    destruct (digit_spec (v mod 16)) as [-> _]; [apply Z.mod_pos_bound; lia|].
    rewrite IH by (apply Z.div_pos; lia). rewrite Nat2Z.inj_succ, Z.pow_succ_r by lia.
    rewrite (Z.rem_mul_r v 16) by (try lia; apply Z.pow_pos_nonneg; lia). lia.
Qed.

Lemma hex_cons n v : exists c s, hex (S n) v = c :: s /\ digit_char c /\ Forall digit_char s.
Proof.
  pose proof (hex_chars (S n) v) as H. pose proof (hex_length (S n) v).
  destruct (hex (S n) v) as [|c s]; [done|]. apply Forall_cons in H as [? ?]. eauto.
Qed.

(** ** The functions of the C library on them *)

Lemma strtoul16_hex v : 0 <= v < 2 ^ 32 -> strtoul16 (hex 8 v) = v.
Proof.
  change (2 ^ 32) with 4294967296. intros Hv. pose proof (hex_value_hex 8 v 0 ltac:(lia)) as Hval.
  change (16 ^ Z.of_nat 8) with 4294967296 in Hval. rewrite Z.mod_small in Hval by lia.
  destruct (hex_cons 7 v) as (c & s & He & (Hsp & Hdig & H1 & H2 & _) & Hs). rewrite He in *.
  unfold strtoul16. cbn [skip_while]. rewrite Hsp.
  assert (match c :: s with 45 :: s0 => (true, s0) | 43 :: s0 => (false, s0) | _ => (false, c :: s) end = (false, c :: s)) as ->.
  { destruct c as [|p|p]; try done. repeat (destruct p as [p|p|]; try done). }
  assert (match c :: s with 48 :: x :: d :: s' => if ((x =? 120) || (x =? 88)) && match hex_digit d with Some _ => true | None => false end then d :: s' else c :: s
    | _ => c :: s end = c :: s) as ->.
  { destruct s as [|x [|d s']]; try (by repeat (destruct c as [|c|c]; try done; repeat (destruct c as [c|c|]; try done))).
    apply Forall_cons in Hs as [(_ & _ & _ & _ & _ & H5 & H6 & _) _].
    assert (((x =? 120) || (x =? 88)) = false) as -> by lia. cbn [andb].
    by repeat (destruct c as [|c|c]; try done; repeat (destruct c as [c|c|]; try done)). }
  rewrite Hval, Z.mul_0_l, Z.add_0_l. by rewrite (proj2 (Z.ltb_ge _ _)) by lia.
Qed.

Lemma split_at_hex delim s t : Forall (fun c => c <> delim) s -> split_at delim (s ++ delim :: t) = (s, t).
Proof.
  induction 1 as [|c s Hc _ IH]; cbn [app split_at]; [by rewrite Z.eqb_refl|].
  assert ((c =? delim) = false) as -> by lia. by rewrite IH.
Qed.

Lemma strtok_hex delim n v t : Forall (fun c => c <> delim) (hex (S n) v) ->
  strtok delim (hex (S n) v ++ delim :: t) = Some (hex (S n) v, t).
Proof.
  intros H. unfold strtok. destruct (hex_cons n v) as (c & s & He & _). rewrite He in *.
  pose proof (proj1 (Forall_cons _ _ _) H) as [Hc _]. cbn [app skip_while].
  assert ((c =? delim) = false) as -> by lia.
  change (c :: s ++ delim :: t) with ((c :: s) ++ delim :: t). by rewrite split_at_hex.
Qed.

Lemma strstr_cons c s : c <> 114 -> strstr R_XP (c :: s) = strstr R_XP s.
Proof.
  intros Hc. cbn [strstr]. unfold R_XP at 1 2. cbn [length take]. rewrite bool_decide_false by congruence. done.
Qed.

Lemma strstr_skip s t : Forall (fun c => c <> 114) s -> strstr R_XP (s ++ t) = strstr R_XP t.
Proof. induction 1 as [|c s Hc _ IH]; cbn [app]; [done|]. by rewrite strstr_cons. Qed.

Lemma hex_avoids d n v : d = 45 \/ d = 32 \/ d = 114 -> Forall (fun c => c <> d) (hex n v).
Proof.
  intros Hd. eapply Forall_impl; [apply hex_chars|]. intros c (_ & _ & ? & _ & ? & _ & _ & ?).
  by destruct Hd as [->|[->| ->]].
Qed.

Definition executable_in (a : Z) (r : region) : bool :=
  bool_decide (r.(perms) = R_XP) && ((r.(start) <=? a) && (a <=? r.(finish))).

Lemma in_lines_spec a rs p : Forall region_ok rs ->
  in_lines a (render <$> rs) p = (Returns (existsb (executable_in a) rs), p).
Proof.
  induction 1 as [|r rs (Hs & Hf & Hx) _ IH]; cbn [fmap list_fmap in_lines existsb]; [done|].
  assert (strstr R_XP (render r) = bool_decide (perms r = R_XP)) as ->.
  { unfold render. rewrite strstr_skip by (apply hex_avoids; auto). rewrite strstr_cons by done.
    rewrite strstr_skip by (apply hex_avoids; auto). by rewrite strstr_cons. }
  unfold executable_in at 1. destruct (bool_decide _); cbn [andb orb]; [|exact IH].
  unfold render. rewrite strtok_hex by (apply hex_avoids; auto). unfold of_option, bind at 1, ret at 1.
  rewrite strtok_hex by (apply hex_avoids; auto). unfold bind, ret at 1.
  rewrite !strtoul16_hex by done. by destruct (_ && _).
Qed.

(** [isExecutableAddr] reads the lines of /proc/self/maps as the kernel
    prints them: an address is executable if it lies in a mapping with the
    permissions "r-xp", the end of the mapping, which is the first address
    behind it, included. *)
Theorem isExecutableAddr_reads_maps a rs p :
  Forall region_ok rs -> isExecutableAddr (Some (render <$> rs)) a p = (Returns (existsb (executable_in a) rs), p).
Proof. apply in_lines_spec. Qed.

(** "00008000-00009000 r-xp 00000000" and "00020000-00021000 rw-p 00000000". *)
Definition demo_regions : list region :=
  [mkRegion 0x8000 0x9000 R_XP [32; 48; 48; 48; 48; 48; 48; 48; 48; 10];
   mkRegion 0x20000 0x21000 [114; 119; 45; 112] [32; 48; 48; 48; 48; 48; 48; 48; 48; 10]].

Lemma demo_regions_ok : Forall region_ok demo_regions.
Proof. repeat constructor; try done. Qed.

Lemma isExecutableAddr_reads_maps_witness : exists p,
  isExecutableAddr (Some (render <$> demo_regions)) 0x9000 p = (Returns true, p).
Proof.
  exists (mkProcess (fun _ => None) [] [] 0 [] [] [] []).
  exact (isExecutableAddr_reads_maps 0x9000 demo_regions (mkProcess (fun _ => None) [] [] 0 [] [] [] []) demo_regions_ok).
Defined.
