(* ===== verification/HookWitness.v ===== *)
(** * libmemcheck: the theorems on hooks at concrete processes

    A process whose code at 0x8000 is a run of NOPs, in which the function at
    0x8000 is not known, registered or hooked, or in which the table is full. *)

From stdpp Require Import base numbers list list_numbers gmap.
From Stdlib Require Import Lia ZArith.
From S2P Require Import Prelude Relocate ArmExec RelocateLoops InlineHook HookTable HookSteps HookProps HookCycle ProcMaps.

#[local] Open Scope Z_scope.
#[local] Open Scope c_scope.

(** Code from 0x8000 on; the page of the trampoline if [page]. *)
Definition demo_memory (page : bool) (x : Z) : option Z :=
  if (0x8000 <=? x) && (x <? 0xB000) then Some (match x mod 4 with 2 => 0xA0 | 3 => 0xE1 | _ => 0 end)
  else if page && ((0x20000 <=? x) && (x <? 0x21000)) then Some 0 else None.

Lemma demo_mapped page a n : 0x8000 <= a -> a + n <= 0xB000 -> mapped (demo_memory page) a n.
Proof. intros H1 H2 x Hx. unfold demo_memory. rewrite (proj2 (andb_true_iff _ _)) by lia. done. Qed.

Definition demo_text : list region := [mkRegion 0x8000 0xB000 R_XP [32; 48; 10]].
Definition demo_maps : option (list (list Z)) := Some (render <$> demo_text).
Definition demo_executable (a : Z) : bool := existsb (executable_in a) demo_text.

Lemma demo_maps_read a q : isExecutableAddr demo_maps a q = (Returns (demo_executable a), q).
Proof. apply in_lines_spec. by repeat constructor. Qed.

Definition all_traceable (_ : Z) : bool := true.

(** ** A table with one item, or none *)

Definition demo_bytes : list Z := [0; 0; 0xA0; 0xE1; 0; 0; 0xA0; 0xE1].
Definition demo_tables : boundaries := mkBoundaries [0; 4; 0; 0] ([0; 4] ++ replicate 18 0) 2.

Definition demo_item (st : Z) : inlineHookItem :=
  mkItem 0x8000 0x8100 0x8F00 demo_bytes demo_tables 0x20000 8 st 0.

Definition demo_empty : process :=
  mkProcess (demo_memory false) [(7, 0x8004)] (replicate 1024 zero_item) 0 [] [Some 0x20000] [] [].

Definition demo_with (st : Z) : process :=
  mkProcess (demo_memory true) [(7, 0x20008)] (demo_item st :: replicate 1023 zero_item) 1 [] [] [] [].

Lemma zero_item_tables n : Forall (fun it => tables_ok it.(tables)) (replicate n zero_item).
Proof. apply Forall_replicate. repeat split; cbn; lia. Qed.

Lemma demo_empty_wf : WF 1 true demo_empty.
Proof.
  constructor; cbn [demo_empty item size memory threads]; [apply length_replicate|unfold MAX_ITEMS; lia|apply zero_item_tables|constructor| |constructor|by eexists].
  intros it it' H. by apply not_elem_of_nil in H.
Qed.

(** The address of the function and the length of its hook, evaluated. *)
Ltac demo_eval :=
  repeat change (CLEAR_BIT0 0x8000) with 0x8000; repeat change (hook_length 0x8000) with 8.

Lemma demo_with_live st : live (demo_with st) = [demo_item st].
Proof. done. Qed.

Lemma demo_with_wf st : st = REGISTERED \/ st = HOOKED -> WF 1 true (demo_with st).
Proof.
  intros Hst. constructor; rewrite ?demo_with_live; cbn [demo_with item size memory threads].
  - cbn [length]. by rewrite length_replicate.
  - unfold MAX_ITEMS. lia.
  - constructor; [repeat split; cbn; lia|apply zero_item_tables].
  - constructor; [|constructor]. constructor; [exact Hst|done|done|apply demo_mapped; by vm_compute|right; apply demo_mapped; by vm_compute].
  - intros it it' ->%list_elem_of_singleton ->%list_elem_of_singleton. unfold page_apart, disjoint, PAGE_SIZE. cbn. demo_eval. lia.
  - apply NoDup_singleton.
  - by eexists.
Qed.

Lemma demo_can_register : exists code tbs, can_register demo_empty 0x8000 0x8F00 0x20000 zero_item demo_bytes code tbs.
Proof.
  do 2 eexists. constructor; unfold page_apart, disjoint, PAGE_SIZE, MAX_ITEMS.
  - done.
  - done.
  - done.
  - done.
  - vm_compute. reflexivity.
  - vm_compute. reflexivity.
  - cbn [length]. lia.
  - apply demo_mapped; by vm_compute.
  - right. apply demo_mapped; lia.
  - demo_eval. lia.
  - intros it H. by apply not_elem_of_nil in H.
Qed.

Lemma hooks_refine_map_witness : exists p',
  perform all_traceable 1 true demo_maps (Register 0x8000 0x8100 0x8F00) demo_empty = (Returns ELE7EN_OK, p') /\
  hooks p' = <[0x8000 := REGISTERED]> ∅.
Proof.
  destruct (hooks_refine_map all_traceable 1 true demo_maps demo_executable (Register 0x8000 0x8100 0x8F00) demo_empty
    demo_maps_read demo_empty_wf) as (p' & H1 & _ & H2).
  - intros _ _. destruct demo_can_register as (code & tbs & H). by exists 0x20000, zero_item, demo_bytes, code, tbs.
  - exists p'. by split.
Defined.

(** A process with no room for another page. *)
Definition demo_no_page : process :=
  mkProcess (demo_memory false) [(7, 0x8004)] (replicate 1024 zero_item) 0 [] [None] [false] [].

Lemma demo_no_page_wf : WF 1 true demo_no_page.
Proof.
  constructor; cbn [demo_no_page item size memory threads]; [apply length_replicate|unfold MAX_ITEMS; lia|apply zero_item_tables|constructor| |constructor|by eexists].
  intros it it' H. by apply not_elem_of_nil in H.
Qed.

Lemma refused_unchanged_witness :
  perform all_traceable 1 true demo_maps (Hook 0x8000) (demo_with HOOKED) = (Returns ELE7EN_ERROR_ALREADY_HOOKED, demo_with HOOKED) /\
  perform all_traceable 1 true demo_maps (Register 0x50000 0x8100 0) demo_no_page = (Returns ELE7EN_ERROR_NOT_EXECUTABLE, demo_no_page) /\
  perform all_traceable 1 true demo_maps (Hook 0x8004) (demo_with HOOKED) = (Returns ELE7EN_ERROR_NOT_REGISTERED, demo_with HOOKED).
Proof.
  split; [|split].
  - apply (refused_unchanged all_traceable 1 true demo_maps demo_executable (Hook 0x8000) (demo_with HOOKED) demo_maps_read).
    + apply demo_with_wf. by right.
    + by vm_compute.
  - apply (refused_unchanged all_traceable 1 true demo_maps demo_executable (Register 0x50000 0x8100 0) demo_no_page demo_maps_read).
    + exact demo_no_page_wf.
    + by vm_compute.
  - apply (refused_unchanged all_traceable 1 true demo_maps demo_executable (Hook 0x8004) (demo_with HOOKED) demo_maps_read).
    + apply demo_with_wf. by right.
    + by vm_compute.
Defined.

Lemma unhook_all_terminates_witness :
  exists p', inlineUnHookAll all_traceable 1 true (demo_with HOOKED) = (Returns tt, p') /\ hooks p' !! 0x8000 <> Some HOOKED.
Proof.
  destruct (unhook_all_terminates all_traceable 1 true (demo_with HOOKED)) as (p' & H1 & _ & H2).
  - apply demo_with_wf. by right.
  - exists p'. split; [exact H1|apply H2].
Defined.

Lemma hooked_function_jumps_witness : exists q,
  inlineHook all_traceable 1 true 0x8000 (demo_with REGISTERED) = (Returns ELE7EN_OK, q) /\
  run demo_passed demo_add 1 (mkCpu (fun _ => 0) 0x8000 0 (load_word q.(memory)))
    = Some (mkCpu (fun _ => 0) 0x8100 0 (load_word q.(memory))).
Proof.
  destruct (wp_returns (inlineHook all_traceable 1 true 0x8000) (fun _ _ => True) (demo_with REGISTERED)) as (e & q & Hq & _);
    [vm_compute; exact I|].
  exists q. pose proof (fun s => hooked_function_jumps all_traceable 1 true demo_passed demo_add (demo_with REGISTERED)
    (demo_item REGISTERED) s (fun f => eq_refl) (demo_with_wf REGISTERED (or_introl eq_refl))
    (list_elem_of_here _ _) eq_refl eq_refl ltac:(split; by vm_compute) ltac:(split; by vm_compute) ltac:(split; by vm_compute) ltac:(right; left; by vm_compute)) as H.
  destruct (H (mkCpu (fun _ => 0) 0x8000 0 (load_word q.(memory)))) as (q' & Hq' & Hrun & _).
  change (target_addr (demo_item REGISTERED)) with 0x8000 in Hq'. rewrite Hq in Hq'. injection Hq' as -> ->.
  split; [exact Hq|]. by apply Hrun.
Defined.

Lemma hook_cycle_restores_witness : exists q,
  hook_and_back all_traceable 1 true demo_maps 0x8000 0x8100 0x8F00 demo_empty = (Returns (ELE7EN_OK, ELE7EN_OK, ELE7EN_OK), q) /\
  q.(memory) 0x8003 = Some 0xE1.
Proof.
  destruct demo_can_register as (code & tbs & Hcan).
  destruct (hook_cycle_restores all_traceable 1 true demo_maps demo_executable demo_empty 0x8000 0x8100 0x8F00 0x20000
    zero_item demo_bytes code tbs demo_maps_read eq_refl demo_empty_wf eq_refl Hcan) as (q & H1 & H2 & _).
  - intros x Hx. unfold PAGE_SIZE in Hx. cbn [demo_empty memory]. unfold demo_memory.
    rewrite (proj2 (andb_false_iff _ _)) by lia. done.
  - exists q. split; [exact H1|]. rewrite H2 by (right; lia). done.
Defined.

Lemma thread_pc_roundtrip_witness :
  doProcessThreadPC (demo_item HOOKED) 0x8004 ACTION_ENABLE = Some (Some 0x20004) /\
  doProcessThreadPC (demo_item HOOKED) 0x20004 ACTION_DISABLE = Some (Some 0x8004).
Proof.
  apply (thread_pc_roundtrip (demo_item HOOKED) 1 4 4); try reflexivity; try (unfold PAGE_SIZE; cbn; lia).
  - repeat split; cbn; lia.
  - by apply NoDup_ListNoDup; repeat constructor; cbn; lia.
  - by apply NoDup_ListNoDup; repeat constructor; cbn; lia.
  - split; by vm_compute.
Defined.

Lemma thread_left_in_trampoline_witness : exists q,
  inlineUnHook all_traceable 1 true 0x8000 (demo_with HOOKED) = (Returns ELE7EN_OK, q) /\
  (7, 0x20008) ∈ q.(threads) /\ q.(memory) 0x20008 = None.
Proof.
  apply (thread_left_in_trampoline all_traceable 1 true (demo_with HOOKED) (demo_item HOOKED)).
  - apply demo_with_wf. by right.
  - apply list_elem_of_here.
  - done.
  - apply list_elem_of_here.
  - unfold PAGE_SIZE. cbn. lia.
  - change (0x20008 - _) with 8. intros H. apply list_elem_of_lookup in H as [[|[|i]] H]; done.
Defined.

Lemma unhook_flushes_last_witness : exists q,
  inlineUnHook all_traceable 1 true 0x8000 (demo_with HOOKED) = (Returns ELE7EN_OK, q) /\ q.(flushed) = [(0x8000, 0x8008)].
Proof.
  destruct (unhook_flushes_last all_traceable 1 true (demo_with HOOKED) (demo_item HOOKED) (demo_item HOOKED)) as (q & H1 & H2 & _).
  - apply demo_with_wf. by right.
  - apply list_elem_of_here.
  - done.
  - done.
  - exists q. split; [exact H1|exact H2].
Defined.

(** A slot used by two hooks before. *)
Definition demo_reused : process :=
  mkProcess (demo_memory false) [] (mkItem 0 0 0 [] (mkBoundaries [0; 4; 0; 4] ([0; 4; 0; 4] ++ replicate 16 0) 4) 0 0 0 0
    :: replicate 1023 zero_item) 0 [] [Some 0x20000] [] [].

Lemma demo_reused_wf : WF 1 true demo_reused.
Proof.
  constructor; cbn [demo_reused item size memory threads].
  - cbn [length]. by rewrite length_replicate.
  - unfold MAX_ITEMS. lia.
  - constructor; [repeat split; cbn; lia|apply zero_item_tables].
  - constructor.
  - intros it it' H. by apply not_elem_of_nil in H.
  - constructor.
  - by eexists.
Qed.

Lemma reused_slot_overflows_witness :
  (registerInlineHook demo_maps 0x8000 0x8100 0x8F00 demo_reused).1 = Stuck.
Proof.
  eapply (reused_slot_overflows 1 true demo_maps demo_executable demo_reused 0x8000 0x8100 0x8F00 _ demo_maps_read);
    [reflexivity|exact demo_reused_wf|reflexivity|done|reflexivity|cbn; lia|reflexivity|apply demo_mapped; by vm_compute].
Defined.

(** ** A full table *)

Definition many_item (i : Z) : inlineHookItem :=
  mkItem (0x8000 + 8 * i) 0x8100 0 demo_bytes demo_tables (0x100000 + 0x1000 * i) 8 REGISTERED 0.

Definition demo_full : process :=
  mkProcess (demo_memory false) [] (many_item <$> seqZ 0 1024) 1024 [] [] [] [].

Lemma demo_full_live : live demo_full = many_item <$> seqZ 0 1024.
Proof. apply take_ge. cbn [demo_full item size]. rewrite length_fmap, length_seqZ. lia. Qed.

Lemma many_target i : 0 <= i < 1024 -> CLEAR_BIT0 (0x8000 + 8 * i) = 0x8000 + 8 * i /\ TEST_BIT0 (0x8000 + 8 * i) = 0.
Proof.
  intros Hi. assert (TEST_BIT0 (0x8000 + 8 * i) = 0) as H; [|split; [apply clear_bit0; [lia|done]|done]].
  unfold TEST_BIT0. change 1 with (Z.ones 1). rewrite Z.land_ones by lia. change (2 ^ 1) with 2.
  replace (0x8000 + 8 * i) with ((0x4000 + 4 * i) * 2) by lia. apply Z.mod_mul. lia.
Qed.

Lemma demo_full_in it : it ∈ many_item <$> seqZ 0 1024 -> exists i, it = many_item i /\ 0 <= i < 1024.
Proof. intros (i & -> & Hi%elem_of_seqZ)%list_elem_of_fmap. exists i. split; [done|lia]. Qed.

Lemma demo_full_wf : WF 1 true demo_full.
Proof.
  constructor; rewrite ?demo_full_live; cbn [demo_full item size memory threads].
  - by rewrite length_fmap, length_seqZ.
  - unfold MAX_ITEMS. lia.
  - apply Forall_forall. intros it (i & -> & Hi)%demo_full_in. repeat split; cbn; lia.
  - apply Forall_forall. intros it (i & -> & Hi)%demo_full_in. destruct (many_target i Hi) as [H1 H2].
    constructor; cbn [many_item status length_ orig_instructions target_addr proto_addr].
    + by left.
    + unfold hook_length. by rewrite H2.
    + done.
    + rewrite H1. apply demo_mapped; lia.
    + by left.
  - intros it it' (i & -> & Hi)%demo_full_in (j & -> & Hj)%demo_full_in. destruct (many_target j Hj) as [H1 H2].
    unfold page_apart, disjoint, PAGE_SIZE. cbn [many_item trampoline_instructions target_addr length_ proto_addr]. rewrite H1. lia.
  - rewrite <- list_fmap_compose. apply NoDup_fmap_2; [|apply NoDup_seqZ]. intros i j. cbn. lia.
  - by eexists.
Qed.

Lemma full_table_crashes_witness : (registerInlineHook demo_maps 0xA800 0x8100 0 demo_full).1 = Stuck.
Proof.
  apply (full_table_crashes 1 true demo_maps demo_executable demo_full 0xA800 0x8100 0 demo_maps_read eq_refl demo_full_wf); [|done].
  unfold hooks. rewrite demo_full_live. apply hooks_lookup_None. intros it (i & -> & Hi)%demo_full_in. cbn. lia.
Defined.
