(* ===== verification/FrameSequence.v ===== *)
(** * libframesequence: animated GIFs (FrameSequence_gif.cpp)

    The frame sequence that giflib decodes a file into, and the state that
    draws its frames into a bitmap.  The bitmap is the array [outputPtr] of
    32-bit colours, [outputPixelStride] to a row.  The stream a sequence is
    made from is the list of its bytes, as for [DGifOpen].  A product of the
    dimensions that does not fit in an [int] is [Stuck]. *)

From stdpp Require Import base numbers list list_numbers.
From Stdlib Require Import Lia ZArith.
From S2P Require Import Prelude GifTypes GifAlloc GifDecode.

#[local] Open Scope Z_scope.
#[local] Open Scope c_scope.

Definition DISPOSE_BACKGROUND := 2.
Definition DISPOSE_PREVIOUS := 3.

Definition COLOR_8888_ALPHA_MASK := 0xff000000.
Definition TRANSPARENT := 0x0.

Definition ARGB_TO_COLOR8888 (a r g b : Z) : Z :=
  u32 (Z.lor (Z.lor (Z.lor (Z.shiftl a 24) (Z.shiftl b 16)) (Z.shiftl g 8)) r).

Definition gifColorToColor8888 (color : GifColorType) : Z :=
  ARGB_TO_COLOR8888 0xff color.(Red) color.(Green) color.(Blue).

Definition getDelayMs (gcb : GraphicsControlBlock) : Z := gcb.(DelayTime) * 10.

Definition willBeCleared (gcb : GraphicsControlBlock) : bool :=
  (gcb.(DisposalMode) =? DISPOSE_BACKGROUND) || (gcb.(DisposalMode) =? DISPOSE_PREVIOUS).

(** ** The frame sequence *)

Record FrameSequence_gif : Type := mkFrameSequence_gif {
  mGif : option GifFileType;
  mLoopCount : Z;
  mBgColor : Z;
  mPreservedFrames : list bool;
  mRestoringFrames : list Z
}.

(** [DGifSavedExtensionToGCB(mGif, i, &gcb)], whose result is ignored; a block
    it leaves alone is not initialised. *)
Definition saved_GCB (i : Z) : GifM GraphicsControlBlock :=
  let! r := DGifSavedExtensionToGCB i in of_option (snd r).

(** "NETSCAPE2.0" *)
Definition NETSCAPE : list Z := [78; 69; 84; 83; 67; 65; 80; 69; 50; 46; 48].

(** The loop extension pair: the loop count if [eb1] and [eb2] are one. *)
Definition loop_pair (eb1 eb2 : ExtensionBlock) : option (option Z) :=
  if (eb1.(Function) =? APPLICATION_EXT_FUNC_CODE) && (eb1.(ByteCount) =? 11) then
    match eb1.(Bytes) with
    | None => None
    | Some bs1 =>
        if (length bs1 <? 11)%nat then None
        else if bool_decide (take 11 bs1 = NETSCAPE) && (eb2.(Function) =? CONTINUE_EXT_FUNC_CODE)
                && (eb2.(ByteCount) =? 3) then
          match eb2.(Bytes) with
          | Some (b0 :: b1 :: b2 :: _) =>
              Some (if b0 =? 1 then Some (Z.shiftl b2 8 + b1) else None)
          | _ => None
          end
        else Some None
    end
  else Some None.

(** The inner loop of the constructor over the extension blocks of an image. *)
Definition scan_loop_count (image : SavedImage) (loop_count : Z) : GifM Z :=
  let blocks := default [] image.(sp_ExtensionBlocks) in
  foldM (fun count j =>
    let! eb1 := of_option (aget blocks j) in
    let! eb2 := of_option (aget blocks (j + 1)) in
    let! found := of_option (loop_pair eb1 eb2) in
    ret (default count found)) (seqZ 0 (image.(sp_ExtensionBlockCount) - 1)) loop_count.

(** The locals of the constructor's loop over the images. *)
Record scan : Type := mkScan {
  loop_count : Z;
  durationMs : Z;
  lastUnclearedFrame : Z;
  preserved : list bool;
  restoring : list Z
}.

Definition scan_frame (st : scan) (i : Z) : GifM scan :=
  let! images := gets SavedImages in
  let! image := of_option (match images with Some l => aget l i | None => None end) in
  let! count := scan_loop_count image st.(loop_count) in
  let! gcb := saved_GCB i in
  let duration := st.(durationMs) + getDelayMs gcb in
  let! kept := of_option (aset st.(preserved) i false) in
  let! restored := of_option (aset st.(restoring) i (-1)) in
  let last := st.(lastUnclearedFrame) in
  let! ' (kept, restored) :=
    if (gcb.(DisposalMode) =? DISPOSE_PREVIOUS) && (0 <=? last) then
      let! kept := of_option (aset kept last true) in
      let! restored := of_option (aset restored i last) in
      ret (kept, restored)
    else ret (kept, restored) in
  ret (mkScan count duration (if negb (willBeCleared gcb) then i else last) kept restored).

(** What the arrays hold before the loop is not initialised; every entry is
    written before it is read. *)
Definition scan_frames : GifM scan :=
  let! n := gets ImageCount in
  foldM scan_frame (seqZ 0 n) (mkScan 1 0 (-1) (replicate (Z.to_nat n) false) (replicate (Z.to_nat n) (-1))).

Definition background_color : GifM Z :=
  let! g := gets (fun g => g) in
  match g.(SColorMap) with
  | None => ret TRANSPARENT
  | Some cmap =>
      let! gcb := saved_GCB 0 in
      if gcb.(TransparentColor) =? NO_TRANSPARENT_COLOR then
        let! color := of_option (aget cmap.(Colors) g.(SBackGroundColor)) in
        ret (gifColorToColor8888 color)
      else ret TRANSPARENT
  end.

Definition no_sequence : FrameSequence_gif := mkFrameSequence_gif None 1 TRANSPARENT [] [].

(** The constructor; its state is the one of [DGifOpen]. *)
Definition make_FrameSequence_gif (input : list Z) (allocs : list bool) : GifM FrameSequence_gif :=
  let! opened := attempt (DGifOpen input allocs) in
  match opened with
  | None => ret no_sequence
  | Some _ =>
      let! slurped := attempt DGifSlurp in
      match slurped with
      | None => let! closed := attempt (DGifCloseFile true) in ret no_sequence
      | Some _ =>
          let! st := scan_frames in
          let! bg := background_color in
          let! g := gets (fun g => g) in
          ret (mkFrameSequence_gif (Some g) st.(loop_count) bg st.(preserved) st.(restoring))
      end
  end.

Definition getWidth (fs : FrameSequence_gif) : Z := match fs.(mGif) with Some g => g.(SWidth) | None => 0 end.
Definition getHeight (fs : FrameSequence_gif) : Z := match fs.(mGif) with Some g => g.(SHeight) | None => 0 end.
Definition getFrameCount (fs : FrameSequence_gif) : Z := match fs.(mGif) with Some g => g.(ImageCount) | None => 0 end.
Definition isOpaque (fs : FrameSequence_gif) : bool :=
  Z.land fs.(mBgColor) COLOR_8888_ALPHA_MASK =? COLOR_8888_ALPHA_MASK.

(** ** Drawing *)

(** The bitmap and the fields of [FrameSequenceState_gif]. *)
Record canvas : Type := mkCanvas {
  outputPtr : list Z;
  mPreserveBuffer : option (list Z);
  mPreserveBufferFrame : Z
}.

Definition set_output (v : list Z) (c : canvas) : canvas := mkCanvas v c.(mPreserveBuffer) c.(mPreserveBufferFrame).
Definition set_buffer (v : option (list Z)) (c : canvas) : canvas := mkCanvas c.(outputPtr) v c.(mPreserveBufferFrame).
Definition set_buffer_frame (v : Z) (c : canvas) : canvas := mkCanvas c.(outputPtr) c.(mPreserveBuffer) v.

Definition DrawM := M canvas.

Definition checkIfCover (target covered : GifImageDesc) : bool :=
  (target.(Left) <=? covered.(Left)) &&
  (covered.(Left) + covered.(Width) <=? target.(Left) + target.(Width)) &&
  (target.(Top) <=? covered.(Top)) &&
  (covered.(Top) + covered.(Height) <=? target.(Top) + target.(Height)).

Definition put_pixel (i color : Z) : DrawM unit :=
  let! out := gets outputPtr in
  let! out := of_option (aset out i color) in
  modify (set_output out).

Definition copyLine (dst : Z) (src : list Z) (src_pos : Z) (cmap : ColorMapObject) (transparent width : Z) : DrawM unit :=
  for_each (fun k =>
    let! v := of_option (aget src (src_pos + k)) in
    if negb (v =? transparent) && (v <? cmap.(ColorCount)) then
      let! color := of_option (aget cmap.(Colors) v) in
      put_pixel (dst + k) (gifColorToColor8888 color)
    else ret tt) (seqZ 0 width).

Definition setLineColor (dst color width : Z) : DrawM unit :=
  for_each (fun k => put_pixel (dst + k) color) (seqZ 0 width).

Definition getCopySize (imageDesc : GifImageDesc) (maxWidth maxHeight : Z) : Z * Z :=
  (if maxWidth <? imageDesc.(Left) + imageDesc.(Width) then maxWidth - imageDesc.(Left) else imageDesc.(Width),
   if maxHeight <? imageDesc.(Top) + imageDesc.(Height) then maxHeight - imageDesc.(Top) else imageDesc.(Height)).

(** [memcpy] of [n] colours. *)
Definition copy_colors_to (dst : list Z) (to_ : Z) (src : list Z) (from n : Z) : option (list Z) :=
  if (0 <=? from) && (from + n <=? Z.of_nat (length src)) then
    blit dst to_ (take (Z.to_nat n) (drop (Z.to_nat from) src))
  else None.

Section Draw.
Context (fs : FrameSequence_gif) (outputPixelStride : Z).

Definition savePreserveBuffer (frameNr : Z) : DrawM unit :=
  let! c := gets (fun c => c) in
  if frameNr =? c.(mPreserveBufferFrame) then ret tt
  else
    modify (set_buffer_frame frameNr) ;;!
    let width := getWidth fs in
    let height := getHeight fs in
    (match c.(mPreserveBuffer) with
     | None =>
         if INT_MAX <? width * height then stuck
         else modify (set_buffer (Some (replicate (Z.to_nat (width * height)) 0)))
     | Some _ => ret tt
     end) ;;!
    for_each (fun y =>
      let! c := gets (fun c => c) in
      let! buffer := of_option c.(mPreserveBuffer) in
      let! buffer := of_option (copy_colors_to buffer (width * y) c.(outputPtr) (outputPixelStride * y) width) in
      modify (set_buffer (Some buffer))) (seqZ 0 height).

Definition restorePreserveBuffer : DrawM unit :=
  let! b := gets mPreserveBuffer in
  match b with
  | None => ret tt
  | Some buffer =>
      for_each (fun y =>
        let! c := gets (fun c => c) in
        let! out := of_option (copy_colors_to c.(outputPtr) (outputPixelStride * y) buffer (getWidth fs * y) (getWidth fs)) in
        modify (set_output out)) (seqZ 0 (getHeight fs))
  end.

(** [DGifSavedExtensionToGCB] and the image of a frame that is drawn. *)
Definition gcb_at (g : GifFileType) (i : Z) : option GraphicsControlBlock :=
  match saved_GCB i g with (Returns gcb, _) => Some gcb | _ => None end.

Definition image_at (g : GifFileType) (i : Z) : option SavedImage :=
  match g.(SavedImages) with Some l => aget l i | None => None end.

(** Clearing the bitmap in front of frame 0. *)
Definition clear_bitmap : DrawM unit :=
  for_each (fun y =>
    for_each (fun x => put_pixel (y * outputPixelStride + x) fs.(mBgColor)) (seqZ 0 (getWidth fs)))
    (seqZ 0 (getHeight fs)).

(** The disposal of a frame before the next one. *)
Definition dispose (prevGcb : GraphicsControlBlock) (prevFrame : SavedImage) : DrawM unit :=
  let d := prevFrame.(ImageDesc) in
  if prevGcb.(DisposalMode) =? DISPOSE_BACKGROUND then
    let '(copyWidth, copyHeight) := getCopySize d (getWidth fs) (getHeight fs) in
    for_each (fun y =>
      setLineColor (d.(Left) + d.(Top) * outputPixelStride + y * outputPixelStride) TRANSPARENT copyWidth)
      (seqZ 0 copyHeight)
  else if prevGcb.(DisposalMode) =? DISPOSE_PREVIOUS then restorePreserveBuffer
  else ret tt.

(** The image of a frame onto the bitmap; nothing without a colour map. *)
Definition draw_image (g : GifFileType) (gcb : GraphicsControlBlock) (frame : SavedImage) : DrawM unit :=
  let d := frame.(ImageDesc) in
  match (match d.(ColorMap) with Some m => Some m | None => g.(SColorMap) end) with
  | None => ret tt
  | Some cmap =>
      let '(copyWidth, copyHeight) := getCopySize d (getWidth fs) (getHeight fs) in
      for_each (fun y =>
        copyLine (d.(Left) + d.(Top) * outputPixelStride + y * outputPixelStride) (default [] frame.(RasterBits))
          (y * d.(Width)) cmap gcb.(TransparentColor) copyWidth) (seqZ 0 copyHeight)
  end.

(** One round of the loop of [drawFrame]. *)
Definition draw_step (g : GifFileType) (frameNr i : Z) : DrawM unit :=
  let! gcb := of_option (gcb_at g i) in
  let! frame := of_option (image_at g i) in
  (if i =? 0 then clear_bitmap
   else
     let! prevGcb := of_option (gcb_at g (i - 1)) in
     let! prevFrame := of_option (image_at g (i - 1)) in
     let newFrameOpaque := gcb.(TransparentColor) =? NO_TRANSPARENT_COLOR in
     let prevFrameCompletelyCovered := newFrameOpaque && checkIfCover frame.(ImageDesc) prevFrame.(ImageDesc) in
     (if willBeCleared prevGcb && negb prevFrameCompletelyCovered then dispose prevGcb prevFrame else ret tt) ;;!
     let! kept := of_option (aget fs.(mPreservedFrames) (i - 1)) in
     if kept : bool then savePreserveBuffer (i - 1) else ret tt) ;;!
  if (i =? frameNr) || negb (willBeCleared gcb) then draw_image g gcb frame else ret tt.

(** Whether drawing can go on from the frame in the bitmap: the first frame to
    draw. *)
Definition first_frame (frameNr previousFrameNr : Z) : DrawM Z :=
  let start := Z.max (previousFrameNr + 1) 0 in
  foldM (fun start i =>
    let! needed := of_option (aget fs.(mRestoringFrames) i) in
    let! b := gets mPreserveBufferFrame in
    ret (if (0 <=? needed) && negb (b =? needed) then 0 else start))
    (seqZ (Z.max (start - 1) 0) (frameNr - Z.max (start - 1) 0)) start.

Definition drawFrame (frameNr previousFrameNr : Z) : DrawM Z :=
  match fs.(mGif) with
  | None => ret (-1)
  | Some g =>
      let! start := first_frame frameNr previousFrameNr in
      for_each (draw_step g frameNr) (seqZ start (frameNr - start + 1)) ;;!
      let maxFrame := g.(ImageCount) in
      if maxFrame =? 0 then stuck
      else
        let lastFrame := Z.rem (frameNr + maxFrame - 1) maxFrame in
        let! gcb := of_option (gcb_at g lastFrame) in
        ret (getDelayMs gcb)
  end.
End Draw.

(** The state before the first frame. *)
Definition new_canvas (bitmap : list Z) : canvas := mkCanvas bitmap None (-1).
