(* ===== verification/FrameDraw.v ===== *)
(** * libframesequence: drawing as a function on pictures (FrameSequence_gif.cpp)

    The loops of FrameSequence.v write a bitmap pixel by pixel; here each of
    them is proved to stay inside the bitmap and to implement a function on
    pictures, which give every point its colour.  [draw_step_rep] is the
    simulation of one round of [drawFrame] by [step]. *)

From stdpp Require Import base numbers list list_numbers.
From Stdlib Require Import Lia ZArith.
From S2P Require Import Prelude GifTypes GifAlloc GifDecode GifSafety FrameSequence.

#[local] Open Scope Z_scope.
#[local] Open Scope c_scope.

Definition picture : Type := Z -> Z -> Z.

(** ** Sequences that can be drawn *)

(** What [drawFrame] needs; [DGifSlurp] and the constructor provide it. *)
Record sequence_ok (fs : FrameSequence_gif) (g : GifFileType) : Prop := {
  so_gif : fs.(mGif) = Some g;
  so_images : counted saved_ok g.(ImageCount) g.(SavedImages);
  so_map : map_fits g.(SColorMap);
  so_dims : 0 <= g.(SWidth) /\ 0 <= g.(SHeight);
  so_area : g.(SWidth) * g.(SHeight) <= INT_MAX;
  so_preserved : Z.of_nat (length fs.(mPreservedFrames)) = g.(ImageCount);
  so_restoring : Z.of_nat (length fs.(mRestoringFrames)) = g.(ImageCount)
}.

(** The control block and the image of a frame. *)
Definition frame_gcb (g : GifFileType) (i : Z) : GraphicsControlBlock := default default_GCB (gcb_at g i).
Definition frame_image (g : GifFileType) (i : Z) : SavedImage := default zero_saved (image_at g i).

Lemma image_at_ok g i : counted saved_ok g.(ImageCount) g.(SavedImages) -> 0 <= i < g.(ImageCount) ->
  image_at g i = Some (frame_image g i) /\ saved_ok (frame_image g i).
Proof.
  unfold frame_image, image_at, counted. intros Hc Hi. destruct (SavedImages g) as [l|]; [|lia].
  destruct Hc as [Hn Hall]. destruct (aget_Some l i) as [sp Hsp]; [lia|]. rewrite Hsp. split; [done|].
  by eapply aget_Forall.
Qed.

Lemma find_gcb_returns blocks : forall n g, Forall block_ok blocks -> (n <= length blocks)%nat ->
  exists b c, find_gcb blocks n g = (Returns (b, c), g).
Proof.
  induction blocks as [|ep blocks IH]; intros [|n] g Hall Hn; cbn [find_gcb length] in *; try lia; try by eexists _, _.
  apply Forall_cons in Hall as [(bs & Hb & _) Hall].
  destruct (Function ep =? GRAPHICS_EXT_FUNC_CODE).
  - rewrite Hb. unfold of_option, bind, ret. destruct (DGifExtensionToGCB _ _); by eexists _, _.
  - apply IH; [done|lia].
Qed.

Lemma saved_GCB_run g i : counted saved_ok g.(ImageCount) g.(SavedImages) -> 0 <= i < g.(ImageCount) ->
  saved_GCB i g = (Returns (frame_gcb g i), g).
Proof.
  intros Hc Hi. destruct (image_at_ok g i Hc Hi) as [Him (_ & _ & _ & Hext & _)].
  enough (exists c, saved_GCB i g = (Returns c, g)) as [c Hg].
  { unfold frame_gcb, gcb_at. by rewrite Hg. }
  unfold saved_GCB, DGifSavedExtensionToGCB, bind, gets.
  rewrite (proj2 (orb_false_iff _ _)) by lia.
  unfold image_at in Him. destruct (SavedImages g) as [l|]; [|done]. unfold of_option at 1, ret at 1. rewrite Him.
  unfold of_option at 1, ret at 1. set (sp := frame_image g i) in *.
  unfold counted in Hext. destruct (sp_ExtensionBlocks sp) as [blocks|].
  - destruct Hext as [-> Hall]. rewrite Nat2Z.id.
    destruct (find_gcb_returns blocks (length blocks) g Hall ltac:(lia)) as (b & c & ->). by exists c.
  - rewrite Hext. by exists default_GCB.
Qed.

Lemma gcb_at_ok g i : counted saved_ok g.(ImageCount) g.(SavedImages) -> 0 <= i < g.(ImageCount) ->
  gcb_at g i = Some (frame_gcb g i).
Proof. intros Hc Hi. unfold gcb_at. by rewrite saved_GCB_run. Qed.

(** ** Pictures *)

Definition in_rect (d : GifImageDesc) (x y : Z) : bool :=
  (d.(Left) <=? x) && (x <? d.(Left) + d.(Width)) && (d.(Top) <=? y) && (y <? d.(Top) + d.(Height)).

Definition effective_map (g : GifFileType) (sp : SavedImage) : option ColorMapObject :=
  match sp.(ImageDesc).(ColorMap) with Some m => Some m | None => g.(SColorMap) end.

(** The colour a pixel of the raster puts over [old]. *)
Definition ink (m : ColorMapObject) (raster : list Z) (transparent p old : Z) : Z :=
  let v := default 0 (raster !! Z.to_nat p) in
  if negb (v =? transparent) && (v <? m.(ColorCount)) then
    match m.(Colors) !! Z.to_nat v with Some c => gifColorToColor8888 c | None => old end
  else old.

Definition drawn (g : GifFileType) (i : Z) (c : picture) : picture := fun x y =>
  let sp := frame_image g i in
  let d := sp.(ImageDesc) in
  match effective_map g sp with
  | None => c x y
  | Some m =>
      if in_rect d x y then
        ink m (default [] sp.(RasterBits)) (frame_gcb g i).(TransparentColor)
          ((y - d.(Top)) * d.(Width) + (x - d.(Left))) (c x y)
      else c x y
  end.

Definition cleared (d : GifImageDesc) (c : picture) : picture := fun x y => if in_rect d x y then TRANSPARENT else c x y.

(** The bitmap, the preserve buffer and the frame in it, as pictures. *)
Record pictures : Type := mkPictures {
  screen : picture;
  buffer : option picture;
  buffer_frame : Z
}.

Definition covers (g : GifFileType) (i : Z) : bool :=
  ((frame_gcb g i).(TransparentColor) =? NO_TRANSPARENT_COLOR) &&
  checkIfCover (frame_image g i).(ImageDesc) (frame_image g (i - 1)).(ImageDesc).

Definition disposed (g : GifFileType) (i : Z) (a : pictures) : picture :=
  let gcb := frame_gcb g i in
  if gcb.(DisposalMode) =? DISPOSE_BACKGROUND then cleared (frame_image g i).(ImageDesc) a.(screen)
  else if gcb.(DisposalMode) =? DISPOSE_PREVIOUS then default a.(screen) a.(buffer)
  else a.(screen).

(** The first part of a round: what is in front of frame [i]. *)
Definition before (fs : FrameSequence_gif) (g : GifFileType) (i : Z) (a : pictures) : pictures :=
  if i =? 0 then mkPictures (fun _ _ => fs.(mBgColor)) a.(buffer) a.(buffer_frame)
  else
    let c := if willBeCleared (frame_gcb g (i - 1)) && negb (covers g i) then disposed g (i - 1) a else a.(screen) in
    if default false (aget fs.(mPreservedFrames) (i - 1)) && negb (i - 1 =? a.(buffer_frame)) then mkPictures c (Some c) (i - 1)
    else mkPictures c a.(buffer) a.(buffer_frame).

Definition step (fs : FrameSequence_gif) (g : GifFileType) (frameNr i : Z) (a : pictures) : pictures :=
  let a := before fs g i a in
  if (i =? frameNr) || negb (willBeCleared (frame_gcb g i)) then
    mkPictures (drawn g i a.(screen)) a.(buffer) a.(buffer_frame)
  else a.

Section Draw.
Context (fs : FrameSequence_gif) (g : GifFileType) (stride : Z).
#[local] Abbreviation wd := (SWidth g).
#[local] Abbreviation ht := (SHeight g).

(** ** Bitmaps and pictures *)

Definition point (x y : Z) : Prop := 0 <= x < wd /\ 0 <= y < ht.

Definition shows (out : list Z) (c : picture) : Prop :=
  forall x y, point x y -> out !! Z.to_nat (y * stride + x) = Some (c x y).

Definition holds (b : option (list Z)) (c : option picture) : Prop :=
  match b, c with
  | None, None => True
  | Some l, Some c => Z.of_nat (length l) = wd * ht /\ forall x y, point x y -> l !! Z.to_nat (y * wd + x) = Some (c x y)
  | _, _ => False
  end.

Record rep (s : canvas) (a : pictures) : Prop := {
  rep_room : stride * ht <= Z.of_nat (length s.(outputPtr));
  rep_screen : shows s.(outputPtr) a.(screen);
  rep_buffer : holds s.(mPreserveBuffer) a.(buffer);
  rep_frame : s.(mPreserveBufferFrame) = a.(buffer_frame)
}.

Context (Hok : sequence_ok fs g) (Hstride : wd <= stride).

Lemma getWidth_W : getWidth fs = wd.
Proof. unfold getWidth. by rewrite (so_gif _ _ Hok). Qed.
Lemma getHeight_H : getHeight fs = ht.
Proof. unfold getHeight. by rewrite (so_gif _ _ Hok). Qed.

Lemma rep_ext s a c : rep s a -> (forall x y, point x y -> a.(screen) x y = c x y) -> rep s (mkPictures c a.(buffer) a.(buffer_frame)).
Proof. intros [] Hc. constructor; try done. intros x y Hp. rewrite <- Hc by done. auto. Qed.

Lemma index_inj x y x' y' : 0 <= x < stride -> 0 <= x' < stride -> y * stride + x = y' * stride + x' -> x = x' /\ y = y'.
Proof. intros Hx Hx' He. assert (y = y') as -> by nia. split; [lia|done]. Qed.

Lemma index_range x y : point x y -> 0 <= y * stride + x < stride * ht.
Proof. intros [Hx Hy]. split; nia. Qed.

(** One pixel. *)
Lemma wp_put_pixel s a x0 y0 color (Q : unit -> canvas -> Prop) E :
  rep s a -> point x0 y0 ->
  (forall s', rep s' (mkPictures (fun x y => if (x =? x0) && (y =? y0) then color else a.(screen) x y) a.(buffer) a.(buffer_frame)) -> Q tt s') ->
  wp (put_pixel (y0 * stride + x0) color) Q E s.
Proof.
  intros [] Hp HQ. pose proof (index_range _ _ Hp). unfold put_pixel. wp_steps.
  apply (wp_of_option _ (<[Z.to_nat (y0 * stride + x0) := color]> (outputPtr s))); [apply aset_Some; lia|].
  wp_steps. apply HQ. constructor; cbn [outputPtr set_output screen buffer buffer_frame mPreserveBuffer mPreserveBufferFrame]; try done.
  - by rewrite length_insert.
  - intros x y Hxy. pose proof (index_range _ _ Hxy). destruct (decide (x = x0 /\ y = y0)) as [[-> ->]|Hne].
    + rewrite list_lookup_insert_eq by lia. by rewrite !Z.eqb_refl.
    + rewrite list_lookup_insert_ne.
      2: { intros He. apply Hne. destruct Hp, Hxy. apply index_inj; lia. }
      rewrite rep_screen0 by done. f_equal. assert ((x =? x0) && (y =? y0) = false) as ->; [|done].
      apply andb_false_iff. lia.
Qed.

(** A row, from left to right: [f k] is put over the colour at [x0 + k]. *)
Lemma wp_row s a x0 y0 w (body : Z -> DrawM unit) (f : Z -> Z -> Z) (Q : unit -> canvas -> Prop) E :
  rep s a -> 0 <= x0 -> x0 + w <= wd -> 0 <= y0 < ht ->
  (forall k s' a', 0 <= k < w -> rep s' a' ->
     wp (body k) (fun _ s'' => rep s'' (mkPictures
       (fun x y => if (x =? x0 + k) && (y =? y0) then f k (a'.(screen) x y) else a'.(screen) x y) a'.(buffer) a'.(buffer_frame))) E s') ->
  (forall s', rep s' (mkPictures
     (fun x y => if (x0 <=? x) && (x <? x0 + w) && (y =? y0) then f (x - x0) (a.(screen) x y) else a.(screen) x y)
     a.(buffer) a.(buffer_frame)) -> Q tt s') ->
  wp (for_each body (seqZ 0 w)) Q E s.
Proof.
  intros Hr Hx Hw Hy Hbody HQ.
  set (upto k := mkPictures (fun x y => if (x0 <=? x) && (x <? x0 + k) && (y =? y0) then f (x - x0) (a.(screen) x y) else a.(screen) x y)
     a.(buffer) a.(buffer_frame)).
  apply (wp_for_seqZ (fun k s' => rep s' (upto k))).
  - eapply rep_ext in Hr; [exact Hr|]. intros x y _. cbn. by rewrite (proj2 (andb_false_iff _ _)) by (left; apply andb_false_iff; lia).
  - intros k s' Hk Hs'. eapply wp_mono; [apply (Hbody k s' (upto k)); [lia|done]| |done].
    intros [] s'' Hs''. eapply rep_ext in Hs''; [exact Hs''|]. intros x y _. cbn.
    destruct (decide (y = y0)) as [->|]; [|by rewrite (proj2 (Z.eqb_neq y y0)), !andb_false_r by done].
    rewrite Z.eqb_refl, !andb_true_r. destruct (decide (x = x0 + k)) as [->|].
    + rewrite Z.eqb_refl. rewrite (proj2 (andb_false_iff _ _)) by lia. rewrite (proj2 (andb_true_iff _ _)) by lia.
      f_equal. lia.
    + rewrite (proj2 (Z.eqb_neq x (x0 + k))) by done.
      destruct ((x0 <=? x) && (x <? x0 + k)) eqn:E1, ((x0 <=? x) && (x <? x0 + (k + 1))) eqn:E2; try done; lia.
  - intros s' Hs'. apply HQ. eapply rep_ext in Hs'; [exact Hs'|]. intros x y _. cbn.
    replace (0 + Z.max 0 w) with (Z.max 0 w) by lia.
    destruct (decide (0 <= w)); [by replace (Z.max 0 w) with w by lia|].
    rewrite !(proj2 (andb_false_iff _ (y =? y0))); [done|left; apply andb_false_iff; lia..].
Qed.

(** A rectangle, row by row. *)
Lemma wp_rect s a x0 y0 w h (row : Z -> DrawM unit) (f : Z -> Z -> Z -> Z) (Q : unit -> canvas -> Prop) E :
  rep s a -> 0 <= y0 -> y0 + h <= ht ->
  (forall j s' a', 0 <= j < h -> rep s' a' ->
     wp (row j) (fun _ s'' => rep s'' (mkPictures
       (fun x y => if (x0 <=? x) && (x <? x0 + w) && (y =? y0 + j) then f (x - x0) j (a'.(screen) x y) else a'.(screen) x y)
       a'.(buffer) a'.(buffer_frame))) E s') ->
  (forall s', rep s' (mkPictures
     (fun x y => if (x0 <=? x) && (x <? x0 + w) && (y0 <=? y) && (y <? y0 + h) then f (x - x0) (y - y0) (a.(screen) x y) else a.(screen) x y)
     a.(buffer) a.(buffer_frame)) -> Q tt s') ->
  wp (for_each row (seqZ 0 h)) Q E s.
Proof.
  intros Hr Hy Hh Hrow HQ.
  set (upto j := mkPictures (fun x y => if (x0 <=? x) && (x <? x0 + w) && (y0 <=? y) && (y <? y0 + j) then f (x - x0) (y - y0) (a.(screen) x y) else a.(screen) x y)
     a.(buffer) a.(buffer_frame)).
  apply (wp_for_seqZ (fun j s' => rep s' (upto j))).
  - eapply rep_ext in Hr; [exact Hr|]. intros x y _. cbn.
    destruct ((x0 <=? x) && (x <? x0 + w)); cbn [andb]; [|done]. by rewrite (proj2 (andb_false_iff _ _)) by lia.
  - intros j s' Hj Hs'. eapply wp_mono; [apply (Hrow j s' (upto j)); [lia|done]| |done].
    intros [] s'' Hs''. eapply rep_ext in Hs''; [exact Hs''|]. intros x y _. cbn.
    destruct ((x0 <=? x) && (x <? x0 + w)); cbn [andb]; [|done].
    destruct (decide (y = y0 + j)) as [->|].
    + rewrite Z.eqb_refl. rewrite (proj2 (andb_false_iff _ _)) by lia. rewrite (proj2 (andb_true_iff _ _)) by lia.
      f_equal. lia.
    + rewrite (proj2 (Z.eqb_neq y (y0 + j))) by done.
      destruct ((y0 <=? y) && (y <? y0 + j)) eqn:E1, ((y0 <=? y) && (y <? y0 + (j + 1))) eqn:E2; try done; lia.
  - intros s' Hs'. apply HQ. eapply rep_ext in Hs'; [exact Hs'|]. intros x y _. cbn.
    replace (0 + Z.max 0 h) with (Z.max 0 h) by lia.
    destruct ((x0 <=? x) && (x <? x0 + w)); cbn [andb]; [|done].
    destruct (decide (0 <= h)); [by replace (Z.max 0 h) with h by lia|].
    rewrite !(proj2 (andb_false_iff (y0 <=? y) _)); [done|lia..].
Qed.

(** ** The routines *)

(** The colour of a row of one colour. *)
Lemma wp_setLineColor s a x0 y0 w color (Q : unit -> canvas -> Prop) E :
  rep s a -> 0 <= x0 -> x0 + w <= wd -> 0 <= y0 < ht ->
  (forall s', rep s' (mkPictures
     (fun x y => if (x0 <=? x) && (x <? x0 + w) && (y =? y0) then color else a.(screen) x y)
     a.(buffer) a.(buffer_frame)) -> Q tt s') ->
  wp (setLineColor (y0 * stride + x0) color w) Q E s.
Proof.
  intros Hr Hx Hw Hy HQ. apply (wp_row s a x0 y0 w _ (fun _ _ => color)); try done.
  intros k s' a' Hk Hr'. rewrite <- Z.add_assoc. apply (wp_put_pixel s' a'); [done| |done]. split; lia.
Qed.

Lemma clear_bitmap_rep s a (Q : unit -> canvas -> Prop) E :
  rep s a -> (forall s', rep s' (mkPictures (fun _ _ => fs.(mBgColor)) a.(buffer) a.(buffer_frame)) -> Q tt s') ->
  wp (clear_bitmap fs stride) Q E s.
Proof.
  intros Hr HQ. unfold clear_bitmap. rewrite getWidth_W, getHeight_H.
  apply (wp_rect s a 0 0 wd ht _ (fun _ _ _ => mBgColor fs)); [done|lia|lia|..].
  - intros y s' a' Hy Hr'. apply (wp_row s' a' 0 y wd _ (fun _ _ => mBgColor fs)); [done|lia|lia|lia|..].
    + intros x s2 a2 Hx Hr2. apply (wp_put_pixel s2 a2); [done| |]; [split; lia|]. intros s3. by rewrite Z.add_0_l.
    + intros s2. by rewrite Z.add_0_l.
  - intros s' Hs'. apply HQ. eapply rep_ext in Hs'; [exact Hs'|]. intros x y [Hx Hy]. cbn.
    by rewrite !(proj2 (andb_true_iff _ _)) by (repeat (split; [try lia; apply andb_true_iff|]); lia).
Qed.

(** The clipped rectangle of an image. *)
Lemma getCopySize_spec d w h : getCopySize d wd ht = (w, h) ->
  d.(Left) + w <= wd /\ d.(Top) + h <= ht /\ w <= d.(Width) /\ h <= d.(Height) /\
  forall x y, point x y ->
    (d.(Left) <=? x) && (x <? d.(Left) + w) && (d.(Top) <=? y) && (y <? d.(Top) + h) = in_rect d x y.
Proof.
  unfold getCopySize. intros [= <- <-].
  destruct (wd <? Left d + Width d) eqn:E1, (ht <? Top d + Height d) eqn:E2; (repeat (split; [lia|]));
    intros x y [Hx Hy]; unfold in_rect; apply eq_bool_prop_intro; rewrite !andb_True, !Is_true_true, ?Z.leb_le, ?Z.ltb_lt; lia.
Qed.

Lemma restore_rep s a (Q : unit -> canvas -> Prop) E :
  rep s a -> (forall s', rep s' (mkPictures (default a.(screen) a.(buffer)) a.(buffer) a.(buffer_frame)) -> Q tt s') ->
  wp (restorePreserveBuffer fs stride) Q E s.
Proof.
  intros Hr HQ. unfold restorePreserveBuffer. rewrite getWidth_W, getHeight_H. apply wp_bind, wp_gets.
  pose proof (rep_buffer _ _ Hr) as Hb. unfold holds in Hb. pose proof (proj1 (so_dims _ _ Hok)) as HW.
  destruct (mPreserveBuffer s) as [b|] eqn:Eb, (buffer a) as [c|] eqn:Ec; try done.
  2: { apply wp_ret, HQ. eapply rep_ext in Hr; [rewrite Ec in Hr; exact Hr|done]. }
  destruct Hb as [Hlen Hb].
  apply (wp_for_seqZ (fun j s' => rep s' (mkPictures (fun x y => if y <? j then c x y else a.(screen) x y) (Some c) a.(buffer_frame))
    /\ mPreserveBuffer s' = Some b)).
  - split; [|done]. rewrite <- Ec. eapply rep_ext in Hr; [exact Hr|]. intros x y [_ Hy]. by rewrite (proj2 (Z.ltb_ge _ _)) by lia.
  - intros y0 s' Hy0 [Hr' Hb']. apply wp_bind, wp_gets. unfold copy_colors_to.
    rewrite (proj2 (andb_true_iff _ _)) by (split; [apply Z.leb_le|apply Z.leb_le]; nia).
    set (row := take (Z.to_nat wd) (drop (Z.to_nat (wd * y0)) b)).
    assert (Z.of_nat (length row) = wd) as Hrow by (unfold row; rewrite length_take, length_drop; nia).
    destruct Hr' as [Hroom Hscreen Hbuf Hfr].
    destruct (blit_spec row (outputPtr s') (stride * y0)) as (out & Hblit & Hol & Hout); [nia|nia|].
    apply wp_bind, (wp_of_option _ out); [exact Hblit|]. apply wp_modify. split; [|exact Hb'].
    constructor; cbn [outputPtr set_output screen mPreserveBuffer mPreserveBufferFrame buffer buffer_frame]; [by rewrite Hol| |done|done].
    intros x y Hp. pose proof (index_range x y Hp). rewrite Hout, Hrow. destruct Hp as [Hx Hy].
    destruct (decide (y = y0)) as [->|Hne].
    + rewrite decide_True by lia. rewrite (proj2 (Z.ltb_lt _ _)) by lia. unfold row.
      rewrite lookup_take_lt by lia. rewrite lookup_drop.
      replace (Z.to_nat (wd * y0) + Z.to_nat (Z.of_nat (Z.to_nat (y0 * stride + x)) - stride * y0))%nat with (Z.to_nat (y0 * wd + x)) by lia.
      apply Hb. by split.
    + rewrite decide_False by nia. rewrite Hscreen by (by split). cbn [screen]. f_equal.
      destruct (y <? y0) eqn:E1, (y <? y0 + 1) eqn:E2; try done; lia.
  - intros s' [Hr' _]. apply HQ. cbn [default]. eapply rep_ext in Hr'; [exact Hr'|]. intros x y [_ Hy]. cbn [screen].
    by rewrite (proj2 (Z.ltb_lt _ _)) by lia.
Qed.

(** The copying loop of [savePreserveBuffer] into a buffer of the right size. *)
Lemma save_rows s c b0 fr (Q : unit -> canvas -> Prop) E :
  stride * ht <= Z.of_nat (length s.(outputPtr)) -> shows s.(outputPtr) c ->
  s.(mPreserveBuffer) = Some b0 -> Z.of_nat (length b0) = wd * ht -> s.(mPreserveBufferFrame) = fr ->
  (forall s', rep s' (mkPictures c (Some c) fr) -> Q tt s') ->
  wp (for_each (fun y =>
      let! c := gets (fun c => c) in
      let! buffer := of_option c.(mPreserveBuffer) in
      let! buffer := of_option (copy_colors_to buffer (wd * y) c.(outputPtr) (stride * y) wd) in
      modify (set_buffer (Some buffer))) (seqZ 0 ht)) Q E s.
Proof.
  intros Hroom Hs Hb Hlen Hfr HQ. pose proof (proj1 (so_dims _ _ Hok)) as HW.
  apply (wp_for_seqZ (fun j s' => outputPtr s' = outputPtr s /\ mPreserveBufferFrame s' = fr /\
    exists b, mPreserveBuffer s' = Some b /\ Z.of_nat (length b) = wd * ht /\
      forall x y, point x y -> y < j -> b !! Z.to_nat (y * wd + x) = Some (c x y))).
  - split; [done|]. split; [done|]. exists b0. split; [done|]. split; [done|]. intros x y [_ ?]. lia.
  - intros y0 s' Hy0 (Ho & Hf & b & Hb' & Hl & Hrows). apply wp_bind, wp_gets. apply wp_bind, (wp_of_option _ b); [done|].
    unfold copy_colors_to. rewrite Ho. rewrite (proj2 (andb_true_iff _ _)) by (split; apply Z.leb_le; nia).
    set (row := take (Z.to_nat wd) (drop (Z.to_nat (stride * y0)) (outputPtr s))).
    assert (Z.of_nat (length row) = wd) as Hrow by (unfold row; rewrite length_take, length_drop; nia).
    destruct (blit_spec row b (wd * y0)) as (b' & Hblit & Hbl & Hbo); [nia|nia|].
    apply wp_bind, (wp_of_option _ b'); [exact Hblit|]. apply wp_modify. split; [done|]. split; [done|].
    exists b'. split; [done|]. split; [by rewrite Hbl|]. intros x y Hp Hy. rewrite Hbo, Hrow. pose proof Hp as [Hx Hyr].
    destruct (decide (y = y0)) as [->|Hne].
    + rewrite decide_True by nia. unfold row. rewrite lookup_take_lt by nia. rewrite lookup_drop.
      replace (Z.to_nat (stride * y0) + Z.to_nat (Z.of_nat (Z.to_nat (y0 * wd + x)) - wd * y0))%nat with (Z.to_nat (y0 * stride + x)) by nia.
      by apply Hs.
    + rewrite decide_False by nia. apply Hrows; [done|lia].
  - intros s' (Ho & Hf & b & Hb' & Hl & Hrows). apply HQ. constructor; cbn [screen buffer buffer_frame]; rewrite ?Ho; try done.
    unfold holds. rewrite Hb'. split; [done|]. intros x y Hp. apply Hrows; [done|]. destruct Hp. lia.
Qed.

Lemma save_rep s a frameNr (Q : unit -> canvas -> Prop) E :
  rep s a ->
  (forall s', rep s' (if negb (frameNr =? a.(buffer_frame)) then mkPictures a.(screen) (Some a.(screen)) frameNr else a) -> Q tt s') ->
  wp (savePreserveBuffer fs stride frameNr) Q E s.
Proof.
  intros Hr HQ. pose proof Hr as [Hroom Hs Hb Hf]. unfold savePreserveBuffer. rewrite getWidth_W, getHeight_H.
  apply wp_bind, wp_gets. rewrite Hf. destruct (frameNr =? buffer_frame a); [by apply wp_ret, HQ|]. cbn [negb] in HQ.
  apply wp_bind, wp_modify, wp_bind. pose proof (so_area _ _ Hok). pose proof (so_dims _ _ Hok) as [? ?].
  unfold holds in Hb. destruct (mPreserveBuffer s) as [b0|] eqn:Eb.
  - destruct (buffer a) as [c0|]; [|done]. destruct Hb as [Hlen _]. apply wp_ret.
    by apply (save_rows _ (screen a) b0 frameNr).
  - rewrite (proj2 (Z.ltb_ge _ _)) by lia. apply wp_modify.
    apply (save_rows _ (screen a) (replicate (Z.to_nat (wd * ht)) 0) frameNr); try done.
    rewrite length_replicate. lia.
Qed.

Lemma dispose_rep s a i (Q : unit -> canvas -> Prop) E :
  0 <= i < g.(ImageCount) -> rep s a ->
  (forall s', rep s' (mkPictures (disposed g i a) a.(buffer) a.(buffer_frame)) -> Q tt s') ->
  wp (dispose fs stride (frame_gcb g i) (frame_image g i)) Q E s.
Proof.
  intros Hi Hr HQ. destruct (image_at_ok g i (so_images _ _ Hok) Hi) as (_ & _ & _ & _ & _ & [HL _] & [HT _] & _).
  unfold dispose, disposed in *. rewrite getWidth_W, getHeight_H.
  destruct (DisposalMode _ =? DISPOSE_BACKGROUND).
  - destruct (getCopySize _ wd ht) as [w h] eqn:Ec. destruct (getCopySize_spec _ _ _ Ec) as (Hw & Hh & _ & _ & Hin).
    set (d := ImageDesc (frame_image g i)) in *.
    apply (wp_rect s a d.(Left) d.(Top) w h _ (fun _ _ _ => TRANSPARENT)); [done|done|done|..].
    + intros j s' a' Hj Hr'. replace (Left d + Top d * stride + j * stride) with ((Top d + j) * stride + Left d) by lia.
      apply (wp_setLineColor s' a'); [done|done|done|lia|done].
    + intros s' Hs'. apply HQ. eapply rep_ext in Hs'; [exact Hs'|]. intros x y Hp. cbn [screen]. unfold cleared. by rewrite Hin.
  - destruct (DisposalMode _ =? DISPOSE_PREVIOUS); [by apply (restore_rep s a)|]. apply wp_ret, HQ. by destruct a.
Qed.

(** A row of a raster. *)
Lemma wp_copyLine s a x0 y0 w src pos m transparent (Q : unit -> canvas -> Prop) E :
  map_fits (Some m) -> Forall byte src -> 0 <= pos -> pos + w <= Z.of_nat (length src) ->
  rep s a -> 0 <= x0 -> x0 + w <= wd -> 0 <= y0 < ht ->
  (forall s', rep s' (mkPictures
     (fun x y => if (x0 <=? x) && (x <? x0 + w) && (y =? y0) then ink m src transparent (pos + (x - x0)) (a.(screen) x y) else a.(screen) x y)
     a.(buffer) a.(buffer_frame)) -> Q tt s') ->
  wp (copyLine (y0 * stride + x0) src pos m transparent w) Q E s.
Proof.
  intros Hm Hsrc Hpos Hlen Hr Hx Hw Hy HQ.
  apply (wp_row s a x0 y0 w _ (fun k old => ink m src transparent (pos + k) old)); try done.
  intros k s' a' Hk Hr'. destruct (aget_Some src (pos + k)) as [v Hv]; [lia|].
  assert (byte v) as Hbyte by (by eapply aget_Forall).
  assert (src !! Z.to_nat (pos + k) = Some v) as Hv' by (unfold aget in Hv; by rewrite decide_True in Hv by lia).
  apply wp_bind, (wp_of_option _ v); [done|].
  destruct (negb (v =? transparent) && (v <? ColorCount m)) eqn:Ev.
  - apply andb_true_iff in Ev as Ev'. destruct Ev' as [_ Hcount%Z.ltb_lt]. unfold map_fits in Hm. unfold byte in Hbyte.
    destruct (aget_Some (Colors m) v) as [c Hc]; [lia|]. apply wp_bind, (wp_of_option _ c); [done|].
    rewrite <- Z.add_assoc. apply (wp_put_pixel s' a'); [done|split; lia|]. intros s'' Hs''.
    eapply rep_ext in Hs''; [exact Hs''|]. intros x y Hp. cbn [screen].
    destruct ((x =? x0 + k) && (y =? y0)); [|done]. unfold ink. rewrite Hv'. change (default 0 (Some v)) with v. rewrite Ev.
    unfold aget in Hc. rewrite decide_True in Hc by lia. by rewrite Hc.
  - apply wp_ret. eapply rep_ext in Hr'; [exact Hr'|]. intros x y Hp. cbn [screen].
    destruct ((x =? x0 + k) && (y =? y0)); [|done]. unfold ink. rewrite Hv'. change (default 0 (Some v)) with v. by rewrite Ev.
Qed.

Lemma draw_image_rep s a i (Q : unit -> canvas -> Prop) E :
  0 <= i < g.(ImageCount) -> rep s a ->
  (forall s', rep s' (mkPictures (drawn g i a.(screen)) a.(buffer) a.(buffer_frame)) -> Q tt s') ->
  wp (draw_image fs stride g (frame_gcb g i) (frame_image g i)) Q E s.
Proof.
  intros Hi Hr HQ.
  destruct (image_at_ok g i (so_images _ _ Hok) Hi) as (_ & HWd & HHt & (raster & Hras & Hbytes & Hlen) & _ & [HL _] & [HT _] & Hmap).
  unfold draw_image. rewrite getWidth_W, getHeight_H. fold (effective_map g (frame_image g i)).
  assert (forall m, effective_map g (frame_image g i) = Some m -> map_fits (Some m)) as Hsound.
  { intros m. unfold effective_map. pose proof (so_map _ _ Hok) as Hsm. destruct (ColorMap _); [by intros [= <-]|by intros <-]. }
  unfold drawn in HQ. destruct (effective_map g (frame_image g i)) as [m|].
  2: { apply wp_ret, HQ. by destruct a. }
  specialize (Hsound m eq_refl). rewrite Hras in *. change (default [] (Some raster)) with raster in *.
  destruct (getCopySize _ wd ht) as [w h] eqn:Ec. destruct (getCopySize_spec _ _ _ Ec) as (Hw & Hh & Hww & Hhh & Hin).
  set (d := ImageDesc (frame_image g i)) in *. unfold word16 in *.
  apply (wp_rect s a d.(Left) d.(Top) w h _ (fun k j old => ink m raster (TransparentColor (frame_gcb g i)) (j * Width d + k) old)); [done|done|done|..].
  - intros j s' a' Hj Hr'. replace (Left d + Top d * stride + j * stride) with ((Top d + j) * stride + Left d) by lia.
    assert (0 <= j * Width d) by nia. assert (j * Width d + Width d <= Width d * Height d) by nia.
    apply (wp_copyLine s' a'); try done; lia.
  - intros s' Hs'. apply HQ. eapply rep_ext in Hs'; [exact Hs'|]. intros x y Hp. cbn [screen]. by rewrite Hin.
Qed.

(** ** A round of [drawFrame] *)

Lemma before_rep s a i (Q : unit -> canvas -> Prop) E :
  0 <= i < g.(ImageCount) -> rep s a -> (forall s', rep s' (before fs g i a) -> Q tt s') ->
  wp (if i =? 0 then clear_bitmap fs stride
   else
     let! prevGcb := of_option (gcb_at g (i - 1)) in
     let! prevFrame := of_option (image_at g (i - 1)) in
     let newFrameOpaque := (frame_gcb g i).(TransparentColor) =? NO_TRANSPARENT_COLOR in
     let prevFrameCompletelyCovered := newFrameOpaque && checkIfCover (frame_image g i).(ImageDesc) prevFrame.(ImageDesc) in
     (if willBeCleared prevGcb && negb prevFrameCompletelyCovered then dispose fs stride prevGcb prevFrame else ret tt) ;;!
     let! kept := of_option (aget fs.(mPreservedFrames) (i - 1)) in
     if kept : bool then savePreserveBuffer fs stride (i - 1) else ret tt) Q E s.
Proof.
  intros Hi Hr HQ. unfold before in HQ. destruct (i =? 0) eqn:E0; [by apply (clear_bitmap_rep s a)|].
  pose proof (so_images _ _ Hok) as Him.
  apply wp_bind, (wp_of_option _ (frame_gcb g (i - 1))); [apply gcb_at_ok; [done|lia]|].
  apply wp_bind, (wp_of_option _ (frame_image g (i - 1))); [apply image_at_ok; [done|lia]|].
  apply wp_bind. fold (covers g i).
  set (c := if willBeCleared (frame_gcb g (i - 1)) && negb (covers g i) then disposed g (i - 1) a else screen a) in *.
  apply (wp_mono _ (fun _ s' => rep s' (mkPictures c a.(buffer) a.(buffer_frame))) _ E); [| |done].
  - subst c. destruct (willBeCleared _ && _); [apply (dispose_rep s a); [lia|done|done]|]. apply wp_ret. by destruct a.
  - intros [] s' Hr'. destruct (aget_Some (mPreservedFrames fs) (i - 1)) as [kept Hkept].
    { pose proof (so_preserved _ _ Hok). lia. }
    apply wp_bind, (wp_of_option _ kept); [done|]. rewrite Hkept in HQ. change (default false (Some kept)) with kept in HQ.
    destruct kept; cbn [andb] in HQ; [|by apply wp_ret, HQ].
    apply (save_rep s' _ _ _ _ Hr'). cbn [screen buffer buffer_frame]. intros s''. destruct (negb _); apply HQ.
Qed.

Lemma draw_step_rep s a frameNr i (Q : unit -> canvas -> Prop) E :
  0 <= i < g.(ImageCount) -> rep s a -> (forall s', rep s' (step fs g frameNr i a) -> Q tt s') ->
  wp (draw_step fs stride g frameNr i) Q E s.
Proof.
  intros Hi Hr HQ. pose proof (so_images _ _ Hok) as Him. unfold draw_step.
  apply wp_bind, (wp_of_option _ (frame_gcb g i)); [by apply gcb_at_ok|].
  apply wp_bind, (wp_of_option _ (frame_image g i)); [by apply image_at_ok|].
  apply wp_bind. apply (before_rep s a i); [done|done|]. intros s' Hr'. unfold step in HQ.
  destruct ((i =? frameNr) || negb (willBeCleared (frame_gcb g i))).
  - by apply (draw_image_rep s' (before fs g i a)).
  - by apply wp_ret, HQ.
Qed.

(** The rounds from [start] on. *)
Fixpoint steps (frameNr : Z) (ks : list Z) (a : pictures) : pictures :=
  match ks with [] => a | i :: ks => steps frameNr ks (step fs g frameNr i a) end.

Lemma draw_steps_rep frameNr ks (Q : unit -> canvas -> Prop) E : forall s a,
  Forall (fun i => 0 <= i < g.(ImageCount)) ks -> rep s a -> (forall s', rep s' (steps frameNr ks a) -> Q tt s') ->
  wp (for_each (draw_step fs stride g frameNr) ks) Q E s.
Proof.
  induction ks as [|i ks IH]; intros s a Hall Hr HQ; cbn [for_each steps] in *; [by apply wp_ret, HQ|].
  apply Forall_cons in Hall as [Hi Hall]. apply wp_bind. apply (draw_step_rep s a); [done|done|].
  intros s' Hr'. by apply (IH s' (step fs g frameNr i a)).
Qed.

(** ** The frame to start with *)

(** Whether a frame in [ks] needs another preserve buffer than [b]. *)
Definition needs_redraw (b : Z) (ks : list Z) : bool :=
  existsb (fun i => let r := default (-1) (aget fs.(mRestoringFrames) i) in (0 <=? r) && negb (b =? r)) ks.

Definition start_frame (b frameNr previousFrameNr : Z) : Z :=
  let start := Z.max (previousFrameNr + 1) 0 in
  if needs_redraw b (seqZ (Z.max (start - 1) 0) (frameNr - Z.max (start - 1) 0)) then 0 else start.

Lemma first_frame_rep s a frameNr prev (Q : Z -> canvas -> Prop) E :
  0 <= frameNr < g.(ImageCount) -> rep s a -> Q (start_frame a.(buffer_frame) frameNr prev) s ->
  wp (first_frame fs frameNr prev) Q E s.
Proof.
  intros Hn Hr HQ. unfold first_frame, start_frame in *. set (lo := Z.max (Z.max (prev + 1) 0 - 1) 0) in *.
  assert (Forall (fun i => 0 <= i < g.(ImageCount)) (seqZ lo (frameNr - lo))) as Hall.
  { apply Forall_forall. intros i Hi%elem_of_seqZ. lia. }
  revert Hall HQ. generalize (Z.max (prev + 1) 0). generalize (seqZ lo (frameNr - lo)). clear lo.
  intros ks. induction ks as [|i ks IH]; intros st Hall HQ; cbn [foldM needs_redraw existsb] in *; [by apply wp_ret|].
  apply Forall_cons in Hall as [Hi Hall]. apply wp_bind.
  destruct (aget_Some (mRestoringFrames fs) i) as [r Hres]; [pose proof (so_restoring _ _ Hok); lia|].
  apply wp_bind, (wp_of_option _ r); [done|]. apply wp_bind, wp_gets, wp_ret.
  rewrite Hres in HQ. change (default (-1) (Some r)) with r in HQ. rewrite (rep_frame _ _ Hr). apply IH; [done|].
  destruct ((0 <=? r) && negb (buffer_frame a =? r)); cbn [orb] in HQ; [|done]. by destruct (needs_redraw _ ks).
Qed.

(** [drawFrame] shows the picture the rounds make, and returns a delay. *)
Lemma drawFrame_rep s a frameNr prev (Q : Z -> canvas -> Prop) E :
  0 <= frameNr < g.(ImageCount) -> rep s a ->
  (forall s', let start := start_frame a.(buffer_frame) frameNr prev in
    rep s' (steps frameNr (seqZ start (frameNr - start + 1)) a) ->
    Q (getDelayMs (frame_gcb g ((frameNr + g.(ImageCount) - 1) mod g.(ImageCount)))) s') ->
  wp (drawFrame fs stride frameNr prev) Q E s.
Proof.
  intros Hn Hr HQ. unfold drawFrame. rewrite (so_gif _ _ Hok). apply wp_bind. eapply first_frame_rep; [done|done|].
  apply wp_bind. set (start := start_frame _ _ _) in *.
  assert (0 <= start) by (subst start; unfold start_frame; destruct (needs_redraw _ _); lia).
  apply (draw_steps_rep frameNr _ _ _ s a); [|done|].
  { apply Forall_forall. intros i Hi%elem_of_seqZ. lia. }
  intros s' Hs'. destruct (g.(ImageCount) =? 0) eqn:E0; [lia|].
  rewrite Z.rem_mod_nonneg by lia. set (i := _ mod _). assert (0 <= i < g.(ImageCount)) by (apply Z.mod_pos_bound; lia).
  apply wp_bind, (wp_of_option _ (frame_gcb g i)); [apply gcb_at_ok; [apply (so_images _ _ Hok)|done]|].
  apply wp_ret. by apply HQ.
Qed.

(** The same as a run: the delay, and the pictures after it. *)
Definition delay_before (frameNr : Z) : Z := getDelayMs (frame_gcb g ((frameNr + g.(ImageCount) - 1) mod g.(ImageCount))).

Lemma drawFrame_run s a frameNr prev :
  0 <= frameNr < g.(ImageCount) -> rep s a ->
  let start := start_frame a.(buffer_frame) frameNr prev in
  exists s', drawFrame fs stride frameNr prev s = (Returns (delay_before frameNr), s') /\
    rep s' (steps frameNr (seqZ start (frameNr - start + 1)) a).
Proof.
  intros Hn Hr start.
  destruct (wp_returns (drawFrame fs stride frameNr prev) (fun d s' => d = delay_before frameNr /\
    rep s' (steps frameNr (seqZ start (frameNr - start + 1)) a)) s) as (d & s' & E & -> & Hs'); [|by exists s'].
  by apply (drawFrame_rep s a).
Qed.
End Draw.
