(* ===== verification/FrameSpec.v ===== *)
(** * libframesequence: the frames of a GIF (FrameSequence_gif.cpp)

    [backdrop] and [shown] say what the frames of a GIF look like, frame by
    frame and with every disposal carried out.  [drawFrame] takes shortcuts:
    it starts from the frame that is in the bitmap, does not draw a frame that
    is disposed of anyway, does not dispose of a frame that is covered, and
    restores from one preserve buffer.  The theorems say that it shows the
    same pictures, and where it does not. *)

From stdpp Require Import base numbers list list_numbers.
From Stdlib Require Import Lia ZArith.
From S2P Require Import Prelude GifTypes GifAlloc GifDecode GifSafety FrameSequence FrameDraw.

#[local] Open Scope Z_scope.
#[local] Open Scope c_scope.

Section Spec.
Context (fs : FrameSequence_gif) (g : GifFileType).

Definition to_background (i : Z) : bool := (frame_gcb g i).(DisposalMode) =? DISPOSE_BACKGROUND.
Definition to_previous (i : Z) : bool := (frame_gcb g i).(DisposalMode) =? DISPOSE_PREVIOUS.
Definition will_be_cleared (i : Z) : bool := willBeCleared (frame_gcb g i).

Lemma cleared_cases i : will_be_cleared i = to_background i || to_previous i.
Proof. done. Qed.

Definition rect (i : Z) : GifImageDesc := (frame_image g i).(ImageDesc).

(** What is behind frame [n]: the background colour everywhere at first; after
    a frame what its disposal leaves. *)
Fixpoint backdrop (n : nat) : picture :=
  match n with
  | O => fun _ _ => fs.(mBgColor)
  | S n =>
      let i := Z.of_nat n in
      if to_background i then cleared (rect i) (backdrop n)
      else if to_previous i then backdrop n
      else drawn g i (backdrop n)
  end.

Definition behind (i : Z) : picture := backdrop (Z.to_nat i).

(** The picture of frame [i]. *)
Definition shown (i : Z) : picture := drawn g i (behind i).

Lemma behind_next i : 0 <= i ->
  behind (i + 1) = if to_background i then cleared (rect i) (behind i) else if to_previous i then behind i else shown i.
Proof.
  intros Hi. unfold behind, shown. rewrite Z2Nat.inj_add by lia. change (Z.to_nat 1) with 1%nat.
  rewrite Nat.add_1_r. cbn [backdrop]. by rewrite Z2Nat.id by lia.
Qed.

(** The last frame before [n] that stays. *)
Fixpoint last_kept (n : nat) : Z :=
  match n with
  | O => -1
  | S n => if will_be_cleared (Z.of_nat n) then last_kept n else Z.of_nat n
  end.

Definition kept_before (i : Z) : Z := last_kept (Z.to_nat i).

Lemma kept_before_next i : 0 <= i -> kept_before (i + 1) = if will_be_cleared i then kept_before i else i.
Proof.
  intros Hi. unfold kept_before. rewrite Z2Nat.inj_add by lia. change (Z.to_nat 1) with 1%nat.
  rewrite Nat.add_1_r. cbn [last_kept]. by rewrite Z2Nat.id by lia.
Qed.

Lemma kept_before_spec i : 0 <= i ->
  -1 <= kept_before i < i /\ (0 <= kept_before i -> will_be_cleared (kept_before i) = false) /\
  (forall k, kept_before i < k < i -> will_be_cleared k = true).
Proof.
  intros Hi. pattern i. apply natlike_ind; [|clear i Hi; intros i Hi (H1 & H2 & H3)|done].
  - change (kept_before 0) with (-1). repeat split; try lia; intros; lia.
  - rewrite <- Z.add_1_r, kept_before_next by done. destruct (will_be_cleared i) eqn:E.
    + split; [lia|]. split; [done|]. intros k Hk. destruct (decide (k = i)) as [->|]; [done|]. apply H3. lia.
    + split; [lia|]. split; [done|]. intros k Hk. lia.
Qed.

(** What the constructor leaves in the two arrays. *)
Record scanned : Prop := {
  sc_restoring : forall i, 0 <= i < g.(ImageCount) ->
    aget fs.(mRestoringFrames) i = Some (if to_previous i && (0 <=? kept_before i) then kept_before i else -1);
  sc_kept : forall i, aget fs.(mPreservedFrames) i = Some true -> will_be_cleared i = false;
  sc_preserved : forall i, 0 <= i < g.(ImageCount) -> to_previous i = true -> 0 <= kept_before i ->
    aget fs.(mPreservedFrames) (kept_before i) = Some true
}.

(** The shortcuts are right for a file in which an opaque frame over a frame
    that is disposed of has a colour for every one of its pixels, and in which a
    frame that is to be removed again does not follow a frame that leaves the
    background, or nothing. *)
Record tidy : Prop := {
  td_opaque : forall i x y c c', 0 < i < g.(ImageCount) -> covers g i = true -> point g x y ->
    in_rect (rect i) x y = true -> drawn g i c x y = drawn g i c' x y;
  td_previous : forall i, 0 <= i < g.(ImageCount) -> to_previous i = true -> 0 < i /\ to_background (i - 1) = false
}.

Context (Hsc : scanned) (Htidy : tidy).

(** A frame to be removed again is on the last frame that stays. *)
Lemma previous_run i : 0 <= i < g.(ImageCount) -> to_previous i = true ->
  0 <= kept_before i /\ forall k, kept_before i < k <= i -> to_previous k = true.
Proof.
  intros Hi Hp. destruct (kept_before_spec i) as (H1 & H2 & H3); [lia|].
  assert (forall d, 0 <= d -> kept_before i < i - d -> to_previous (i - d) = true) as Hall.
  { intros d Hd. pattern d. apply natlike_ind; [|clear d Hd; intros d Hd IH Hlt|done].
    - intros _. by rewrite Z.sub_0_r.
    - specialize (IH ltac:(lia)). destruct (td_previous Htidy (i - d)) as [_ Hb]; [lia|done|].
      replace (i - Z.succ d) with (i - d - 1) by lia.
      pose proof (H3 (i - d - 1) ltac:(lia)) as Hc. rewrite cleared_cases, Hb in Hc. done. }
  split.
  - destruct (decide (0 <= kept_before i)); [done|]. exfalso. specialize (Hall i ltac:(lia) ltac:(lia)).
    rewrite Z.sub_diag in Hall. destruct (td_previous Htidy 0); [lia|done|lia].
  - intros k Hk. specialize (Hall (i - k) ltac:(lia)). replace (i - (i - k)) with k in Hall by lia. apply Hall. lia.
Qed.

Lemma behind_previous i : 0 <= i < g.(ImageCount) -> to_previous i = true -> behind i = shown (kept_before i).
Proof.
  intros Hi Hp. destruct (previous_run i Hi Hp) as [Hk Hall]. destruct (kept_before_spec i) as (H1 & H2 & _); [lia|].
  set (r := kept_before i) in *. specialize (H2 Hk). rewrite cleared_cases in H2. apply orb_false_iff in H2 as [Hb1 Hb2].
  assert (forall d, 0 <= d -> r + 1 + d <= i -> behind (r + 1 + d) = shown r) as Hrun.
  { intros d Hd. pattern d. apply natlike_ind; [|clear d Hd; intros d Hd IH Hle|done].
    - intros _. rewrite Z.add_0_r, behind_next by lia. by rewrite Hb1, Hb2.
    - replace (r + 1 + Z.succ d) with (r + 1 + d + 1) by lia. rewrite behind_next by lia.
      pose proof (Hall (r + 1 + d) ltac:(lia)) as Hpr.
      assert (to_background (r + 1 + d) = false) as Hbg.
      { unfold to_background, to_previous, DISPOSE_BACKGROUND, DISPOSE_PREVIOUS in *. lia. }
      rewrite Hbg, Hpr. apply IH. lia. }
  specialize (Hrun (i - r - 1) ltac:(lia) ltac:(lia)). by replace (r + 1 + (i - r - 1)) with i in Hrun by lia.
Qed.

(** ** The rounds of [drawFrame] *)

Definition same (c c' : picture) : Prop := forall x y, point g x y -> c x y = c' x y.

(** After round [i]: a frame that stays is on the screen; of a frame that is
    disposed of, what is around it. *)
Definition on_screen (i : Z) (c : picture) : Prop :=
  if will_be_cleared i then forall x y, point g x y -> in_rect (rect i) x y = false -> c x y = behind i x y
  else same c (shown i).

(** The preserve buffer has the picture of the frame it says. *)
Definition buffer_right (a : pictures) : Prop :=
  0 <= a.(buffer_frame) -> exists c, a.(buffer) = Some c /\ same c (shown a.(buffer_frame)).

Definition is_preserved (k : Z) : Prop := aget fs.(mPreservedFrames) k = Some true.

(** Before round [j] of a run that started at [lo + 1] (or at 0) with frame
    [b0] in the buffer: the buffer has the last frame the run has preserved. *)
Definition tracks (lo b0 j b : Z) : Prop :=
  (forall k, lo <= k < j - 1 -> is_preserved k -> k <= b) /\
  (b = b0 /\ (forall k, lo <= k < j - 1 -> ~ is_preserved k) \/ lo <= b < j - 1 /\ is_preserved b).

(** The buffer has what is needed when a frame is to be removed again. *)
Lemma tracks_needed lo b0 j b :
  0 < j <= g.(ImageCount) -> lo < j -> tracks lo b0 j b -> to_previous (j - 1) = true ->
  (kept_before (j - 1) < lo -> b0 = kept_before (j - 1)) -> b = kept_before (j - 1).
Proof.
  intros Hj Hlo [Hle Hcases] Hp Hb0. destruct (previous_run (j - 1)) as [Hr _]; [lia|done|].
  destruct (kept_before_spec (j - 1)) as (H1 & H2 & H3); [lia|]. set (r := kept_before (j - 1)) in *.
  assert (is_preserved r) as Hpr by (apply (sc_preserved Hsc); [lia|done|done]).
  assert (forall k, is_preserved k -> k < j - 1 -> k <= r) as Hmax.
  { intros k Hk Hlt. apply (sc_kept Hsc) in Hk. destruct (decide (k <= r)); [done|]. rewrite H3 in Hk by lia. done. }
  destruct Hcases as [[-> Hnone]|[Hb Hbp]].
  - apply Hb0. destruct (decide (r < lo)); [done|]. exfalso. apply (Hnone r); [lia|done].
  - specialize (Hmax b Hbp ltac:(lia)). destruct (decide (lo <= r)); [|lia]. specialize (Hle r ltac:(lia) Hpr). lia.
Qed.

(** What is in front of frame [i] before it is drawn: what is behind it,
    except where a frame hides what it covers. *)
Definition ready_for (i : Z) (c : picture) : Prop :=
  same c (behind i) \/
  covers g i = true /\ forall x y, point g x y -> in_rect (rect i) x y = false -> c x y = behind i x y.

Lemma covered_rect i x y : covers g i = true -> in_rect (rect i) x y = false -> in_rect (rect (i - 1)) x y = false.
Proof.
  unfold covers, checkIfCover, in_rect, rect. intros [_ Hc]%andb_true_iff Hn.
  rewrite !andb_true_iff, !Z.leb_le in Hc. apply not_true_is_false. intros Hin. rewrite <- not_true_iff_false in Hn. apply Hn.
  rewrite !andb_true_iff, !Z.leb_le, !Z.ltb_lt in *. lia.
Qed.

Lemma ready_after_drawn i c : 0 < i < g.(ImageCount) \/ i = 0 /\ same c (behind i) -> ready_for i c -> same (drawn g i c) (shown i).
Proof.
  intros Hi Hr x y Hp. unfold shown.
  assert (c x y = behind i x y -> drawn g i c x y = drawn g i (behind i) x y) as Heq.
  { intros He. unfold drawn. destruct (effective_map _ _); [|done]. by rewrite He. }
  destruct Hr as [Hr|[Hc Hr]]; [by apply Heq, Hr|].
  destruct Hi as [Hi|[-> Hs]]; [|by apply Heq, Hs].
  destruct (in_rect (rect i) x y) eqn:E; [by apply (td_opaque Htidy)|by apply Heq, Hr].
Qed.

Lemma ready_outside i c x y : ready_for i c -> point g x y -> in_rect (rect i) x y = false -> c x y = behind i x y.
Proof. intros [Hr|[_ Hr]] Hp Hn; auto. Qed.

(** The screen of [before]. *)
Lemma before_screen i a : 0 < i < g.(ImageCount) -> on_screen (i - 1) a.(screen) ->
  (to_previous (i - 1) = true -> exists c, a.(buffer) = Some c /\ same c (behind (i - 1))) ->
  ready_for i (before fs g i a).(screen) /\ (will_be_cleared (i - 1) = false -> same (before fs g i a).(screen) (shown (i - 1))).
Proof.
  intros Hi Hs Hb. unfold before. rewrite (proj2 (Z.eqb_neq i 0)) by lia. fold (will_be_cleared (i - 1)).
  pose proof (behind_next (i - 1) ltac:(lia)) as Hbn. replace (i - 1 + 1) with i in Hbn by lia.
  set (c := if will_be_cleared (i - 1) && negb (covers g i) then disposed g (i - 1) a else screen a).
  assert (ready_for i c /\ (will_be_cleared (i - 1) = false -> same c (shown (i - 1)))) as Hc; [|destruct (default false _ && _); exact Hc].
  subst c. unfold on_screen in Hs. unfold disposed. fold (to_background (i - 1)) (to_previous (i - 1)).
  pose proof (cleared_cases (i - 1)) as Hcc. destruct (will_be_cleared (i - 1)); cbn [andb].
  - split; [|done]. destruct (to_background (i - 1)) eqn:Ebg.
    + destruct (covers g i) eqn:Ec; cbn [negb].
      * right. split; [done|]. intros x y Hp Hn. pose proof (covered_rect i x y Ec Hn) as Hn'.
        rewrite Hs, Hbn by done. unfold cleared. by rewrite Hn'.
      * left. intros x y Hp. rewrite Hbn. unfold cleared. fold (rect (i - 1)).
        destruct (in_rect (rect (i - 1)) x y) eqn:E; [done|]. by apply Hs.
    + destruct (to_previous (i - 1)); [|done]. destruct (Hb eq_refl) as (b & Eb & Hsame).
      destruct (covers g i) eqn:Ec; cbn [negb].
      * right. split; [done|]. intros x y Hp Hn. rewrite Hs; [by rewrite Hbn|done|by apply covered_rect].
      * left. rewrite Eb. intros x y Hp. rewrite Hbn. by apply Hsame.
  - destruct (to_background (i - 1)), (to_previous (i - 1)); try done. split; [|done]. left. rewrite Hbn. done.
Qed.

Record run_inv (lo b0 j : Z) (a : pictures) : Prop := {
  ri_screen : 0 < j -> on_screen (j - 1) a.(screen);
  ri_buffer : buffer_right a;
  ri_tracks : tracks lo b0 j a.(buffer_frame)
}.

Lemma drawn_outside i c x y : in_rect (rect i) x y = false -> drawn g i c x y = c x y.
Proof. intros Hn. unfold drawn. destruct (effective_map _ _); [|done]. fold (rect i). by rewrite Hn. Qed.

(** The buffer and its frame after [before]. *)
Lemma before_buffer lo b0 i a :
  0 < i < g.(ImageCount) -> lo < i -> run_inv lo b0 i a ->
  (will_be_cleared (i - 1) = false -> same (before fs g i a).(screen) (shown (i - 1))) ->
  buffer_right (before fs g i a) /\ tracks lo b0 (i + 1) (before fs g i a).(buffer_frame).
Proof.
  intros Hi Hlo [_ Hb [Ht1 Ht2]] Hs. unfold before in *. rewrite (proj2 (Z.eqb_neq i 0)) in * by lia.
  set (c := if willBeCleared _ && _ then _ else _) in *.
  destruct (default false (aget (mPreservedFrames fs) (i - 1))) eqn:Ek; cbn [andb] in *.
  - assert (is_preserved (i - 1)) as Hpi.
    { unfold is_preserved. destruct (aget _ _) as [k|]; [|done]. by change (default false (Some k)) with k in Ek; subst k. }
    assert (will_be_cleared (i - 1) = false) as Hu by (by apply (sc_kept Hsc)).
    specialize (Hs Hu). destruct (i - 1 =? buffer_frame a) eqn:E; cbn [negb screen buffer_frame] in *.
    + apply Z.eqb_eq in E. split; [exact Hb|]. split; [intros k Hk Hp; lia|]. right. split; [lia|]. by rewrite <- E.
    + split; [intros _; by exists c|]. split; [intros k Hk Hp; lia|]. right. split; [lia|]. done.
  - cbn [screen buffer_frame] in *. split; [exact Hb|].
    assert (forall k, is_preserved k -> k <> i - 1) as Hne.
    { intros k Hp ->. unfold is_preserved in Hp. by rewrite Hp in Ek. }
    split; [intros k Hk Hp; apply Ht1; [|done]; specialize (Hne k Hp); lia|].
    destruct Ht2 as [[H1 H2]|[H1 H2]]; [left|right; split; [lia|done]]. split; [done|]. intros k Hk Hp.
    apply (H2 k); [|done]. specialize (Hne k Hp). lia.
Qed.

(** The buffer the check of [drawFrame] relies on. *)
Definition buffer_needed (lo b0 n : Z) : Prop :=
  forall i, lo <= i < n -> to_previous i = true -> kept_before i < lo -> b0 = kept_before i.

Lemma before_inv lo b0 n j a :
  0 <= j <= n -> n < g.(ImageCount) -> 0 <= lo -> (lo < j \/ j = 0 /\ lo = 0) -> buffer_needed lo b0 n -> run_inv lo b0 j a ->
  ready_for j (before fs g j a).(screen) /\ (j = 0 -> same (before fs g j a).(screen) (behind j)) /\
  buffer_right (before fs g j a) /\ tracks lo b0 (j + 1) (before fs g j a).(buffer_frame).
Proof.
  intros Hj Hn Hlo0 Hlo Hneed Hinv. destruct (decide (j = 0)) as [->|Hj0].
  - assert (lo = 0) as -> by lia. destruct Hinv as [_ Hb [_ Ht]]. unfold before. cbn [Z.eqb screen buffer_frame].
    split; [by left|]. split; [done|]. split; [exact Hb|]. split; [intros k Hk; lia|].
    destruct Ht as [[Ht _]|[Ht _]]; [|lia]. left. split; [done|]. intros k Hk. lia.
  - destruct (before_screen j a) as [H1 H2]; [lia|apply (ri_screen _ _ _ _ Hinv); lia| |].
    + intros Hp. assert (buffer_frame a = kept_before (j - 1)) as Hbf.
      { apply (tracks_needed lo b0 j); [lia|lia|apply (ri_tracks _ _ _ _ Hinv)|done|]. apply Hneed; [lia|done]. }
      destruct (previous_run (j - 1)) as [Hk _]; [lia|done|].
      destruct (ri_buffer _ _ _ _ Hinv) as (c & Hc & Hsame); [lia|]. exists c. split; [done|].
      rewrite behind_previous by (done || lia). by rewrite <- Hbf.
    + split; [done|]. split; [lia|]. by apply before_buffer; [lia|lia|..].
Qed.

Lemma step_inv lo b0 n j a :
  0 <= j <= n -> n < g.(ImageCount) -> 0 <= lo -> (lo < j \/ j = 0 /\ lo = 0) -> buffer_needed lo b0 n -> run_inv lo b0 j a ->
  run_inv lo b0 (j + 1) (step fs g n j a) /\ (j = n -> same (step fs g n j a).(screen) (shown n)).
Proof.
  intros Hj Hn Hlo0 Hlo Hneed Hinv.
  destruct (before_inv lo b0 n j a) as (Hready & Hzero & Hb & Ht); try done.
  assert (same (drawn g j (before fs g j a).(screen)) (shown j)) as Hdrawn.
  { apply ready_after_drawn; [|done]. destruct (decide (j = 0)); [right|left; lia]. auto. }
  assert (forall x y, point g x y -> in_rect (rect j) x y = false -> shown j x y = behind j x y) as Hout.
  { intros x y Hp Hx. unfold shown. by rewrite drawn_outside. }
  unfold step. fold (will_be_cleared j). destruct ((j =? n) || negb (will_be_cleared j)) eqn:E.
  - split; [|by intros ->]. constructor; cbn [screen buffer_frame]; [|exact Hb|exact Ht]. intros _.
    replace (j + 1 - 1) with j by lia. unfold on_screen. destruct (will_be_cleared j); [|done].
    intros x y Hp Hx. rewrite Hdrawn by done. by apply Hout.
  - apply orb_false_iff in E as [E1 E2]. apply negb_false_iff in E2. split; [|lia].
    constructor; [|exact Hb|exact Ht]. intros _. replace (j + 1 - 1) with j by lia. unfold on_screen. rewrite E2.
    intros x y Hp Hx. by apply ready_outside.
Qed.

Lemma steps_inv lo b0 n m : forall j a,
  0 <= j -> n < g.(ImageCount) -> 0 <= lo -> (lo < j \/ j = 0 /\ lo = 0) -> buffer_needed lo b0 n -> run_inv lo b0 j a ->
  j + Z.of_nat m = n ->
  buffer_right (steps fs g n (seqZ j (n - j + 1)) a) /\ same (steps fs g n (seqZ j (n - j + 1)) a).(screen) (shown n).
Proof.
  induction m as [|m IH]; intros j a Hj Hn Hlo0 Hlo Hneed Hinv Hm; rewrite seqZ_cons by lia; cbn [steps].
  - destruct (step_inv lo b0 n j a) as [H1 H2]; [lia|done..|]. rewrite seqZ_nil by lia. cbn [steps].
    split; [apply (ri_buffer _ _ _ _ H1)|]. apply H2. lia.
  - destruct (step_inv lo b0 n j a) as [H1 _]; [lia|done..|].
    replace (Z.succ j) with (j + 1) by lia. replace (Z.pred (n - j + 1)) with (n - (j + 1) + 1) by lia.
    apply IH; try done; lia.
Qed.

(** The check of [drawFrame] gives the invariant its start. *)
Lemma start_inv n prev a :
  0 <= n < g.(ImageCount) -> prev < n -> (0 <= prev -> same a.(screen) (shown prev)) -> buffer_right a ->
  exists lo, let j := start_frame fs a.(buffer_frame) n prev in
    0 <= j <= n /\ 0 <= lo /\ (lo < j \/ j = 0 /\ lo = 0) /\ buffer_needed lo a.(buffer_frame) n /\
    run_inv lo a.(buffer_frame) j a.
Proof.
  intros Hn Hprev Hs Hb. unfold start_frame. set (st := Z.max (prev + 1) 0).
  set (lo := Z.max (st - 1) 0). destruct (needs_redraw fs _ _) eqn:Eneed.
  - exists 0. split; [lia|]. split; [done|]. split; [by right|]. split.
    + intros i Hi Hp Hlt. destruct (previous_run i) as [Hk _]; [lia|done|lia].
    + constructor; [lia|done|]. split; [intros k Hk; lia|]. left. split; [done|]. intros k Hk. lia.
  - exists lo. split; [lia|]. split; [lia|]. split; [lia|]. split.
    + intros i Hi Hp Hlt. destruct (previous_run i) as [Hk _]; [lia|done|].
      destruct (decide (buffer_frame a = kept_before i)) as [|Hne]; [done|]. exfalso.
      unfold needs_redraw in Eneed. apply not_true_iff_false in Eneed. apply Eneed. apply existsb_exists.
      exists i. split; [apply list_elem_of_In, elem_of_seqZ; lia|].
      assert ((0 <=? kept_before i) = true) as Hle by lia.
      rewrite (sc_restoring Hsc) by lia. rewrite Hp, Hle. cbn [andb].
      change (default (-1) (Some (kept_before i))) with (kept_before i). rewrite Hle. cbn [andb]. apply negb_true_iff, Z.eqb_neq. done.
    + constructor; [|done|].
      * intros Hst. replace (st - 1) with prev by lia. unfold on_screen. specialize (Hs ltac:(lia)).
        destruct (will_be_cleared prev); [|done]. intros x y Hp Hx. rewrite Hs by done. by apply drawn_outside.
      * split; [intros k Hk; lia|]. left. split; [done|]. intros k Hk. lia.
Qed.

(** ** The theorems on [drawFrame] *)

Context (stride : Z) (Hok : sequence_ok fs g) (Hstride : g.(SWidth) <= stride).

(** The buffer is as large as the picture, and has the frame it says. *)
Definition buffer_sized (s : canvas) : Prop :=
  match s.(mPreserveBuffer) with None => True | Some l => Z.of_nat (length l) = g.(SWidth) * g.(SHeight) end.

Definition state_right (s : canvas) : Prop :=
  buffer_sized s /\
  (0 <= s.(mPreserveBufferFrame) -> holds g s.(mPreserveBuffer) (Some (shown s.(mPreserveBufferFrame)))).

(** The pictures of a state. *)
Definition pictures_of (s : canvas) : pictures :=
  mkPictures (fun x y => default 0 (s.(outputPtr) !! Z.to_nat (y * stride + x)))
    ((fun l x y => default 0 (l !! Z.to_nat (y * g.(SWidth) + x))) <$> s.(mPreserveBuffer)) s.(mPreserveBufferFrame).

Lemma rep_of s : stride * g.(SHeight) <= Z.of_nat (length s.(outputPtr)) -> buffer_sized s -> rep g stride s (pictures_of s).
Proof.
  intros Hroom Hsz. constructor; [done| | |done].
  - intros x y Hp. pose proof (index_range g stride Hstride x y Hp).
    destruct (lookup_lt_is_Some_2 (outputPtr s) (Z.to_nat (y * stride + x))) as [c Hc]; [lia|]. cbn [screen pictures_of]. by rewrite Hc.
  - unfold holds, pictures_of, buffer_sized in *. destruct (mPreserveBuffer s) as [l|]; [|done]. split; [done|].
    intros x y Hp. pose proof (index_range g (SWidth g) ltac:(lia) x y Hp).
    destruct (lookup_lt_is_Some_2 l (Z.to_nat (y * SWidth g + x))) as [c Hc]; [lia|]. by rewrite Hc.
Qed.

Lemma shows_ext out c c' : shows g stride out c -> same c c' -> shows g stride out c'.
Proof. intros Hs He x y Hp. rewrite <- He by done. by apply Hs. Qed.

Lemma shows_same out c c' : shows g stride out c -> shows g stride out c' -> same c c'.
Proof. intros H1 H2 x y Hp. specialize (H1 x y Hp). rewrite H2 in H1 by done. by injection H1. Qed.

Lemma drawFrame_correct n prev s :
  0 <= n < g.(ImageCount) -> prev < n -> stride * g.(SHeight) <= Z.of_nat (length s.(outputPtr)) ->
  (0 <= prev -> shows g stride s.(outputPtr) (shown prev)) -> state_right s ->
  exists s', drawFrame fs stride n prev s
      = (Returns (delay_before g n), s') /\
    shows g stride s'.(outputPtr) (shown n) /\ state_right s' /\ stride * g.(SHeight) <= Z.of_nat (length s'.(outputPtr)).
Proof.
  intros Hn Hprev Hroom Hshow [Hsz Hright]. pose proof (rep_of s Hroom Hsz) as Hrep. set (a := pictures_of s) in *.
  destruct (start_inv n prev a) as (lo & Hall); [done|done| | |].
  { intros H0. eapply shows_same; [apply (rep_screen _ _ _ _ Hrep)|by apply Hshow]. }
  { intros H0. specialize (Hright H0). unfold holds in Hright. subst a. unfold pictures_of. cbn [buffer buffer_frame].
    destruct (mPreserveBuffer s) as [l|]; [|done]. destruct Hright as [_ Hl].
    eexists. split; [done|]. intros x y Hp. by rewrite Hl. }
  cbv zeta in Hall. set (j := start_frame fs (buffer_frame a) n prev) in *.
  destruct Hall as (Hj & Hlo0 & Hlo & Hneed & Hinv).
  destruct (steps_inv lo (buffer_frame a) n (Z.to_nat (n - j)) j a) as [Hb Hs]; try done; try lia.
  destruct (drawFrame_run fs g stride Hok Hstride s a n prev Hn Hrep) as (s' & Hrun & Hs'). fold j in Hs'.
  exists s'. split; [exact Hrun|].
  destruct Hs' as [Hroom' Hscreen Hbuf Hfr]. split; [by eapply shows_ext|]. split; [|done]. split.
  - unfold buffer_sized. unfold holds in Hbuf. destruct (mPreserveBuffer s'); [|done]. destruct (buffer _); [by destruct Hbuf|done].
  - rewrite Hfr. intros H0. destruct (Hb H0) as (c & Hc & Hsame). rewrite Hc in Hbuf. unfold holds in *.
    destruct (mPreserveBuffer s'); [|done]. destruct Hbuf as [Hl Hx]. split; [done|]. intros x y Hp. rewrite <- Hsame by done. by apply Hx.
Qed.

(** C16. [drawFrame] of a [tidy] file shows frame [n] as the GIF defines it,
    whether it draws from scratch or goes on from an earlier frame [prev] that
    is in the bitmap; it leaves the preserve buffer right for the next call,
    and returns the delay of the frame before. A file is tidy if no frame that
    is to be removed again comes first or right behind a frame that leaves the
    background, and a frame that the code takes to cover the one before it (no
    transparent colour, and over its rectangle) has a colour for each of its
    pixels on the screen. The arrays are as the constructor makes them
    ([scanned]), the bitmap has room for the screen, and the preserve buffer
    has its size and, if it names a frame, that frame ([state_right]). For
    files that are not tidy see [first_frame_not_removed]. *)
Theorem drawFrame_shows n prev s :
  0 <= n < g.(ImageCount) -> prev < n -> stride * g.(SHeight) <= Z.of_nat (length s.(outputPtr)) ->
  (0 <= prev -> shows g stride s.(outputPtr) (shown prev)) -> state_right s ->
  exists s', drawFrame fs stride n prev s
      = (Returns (delay_before g n), s') /\
    shows g stride s'.(outputPtr) (shown n) /\ state_right s'.
Proof.
  intros Hn Hprev Hroom Hshow Hst. destruct (drawFrame_correct n prev s Hn Hprev Hroom Hshow Hst) as (s' & H1 & H2 & H3 & _). eauto.
Qed.

(** Playing a sequence into a bitmap: each frame is drawn over the one in the
    bitmap, which the caller names, or from scratch. *)
Inductive playing : canvas -> Z -> Prop :=
| playing_start out : stride * g.(SHeight) <= Z.of_nat (length out) -> playing (new_canvas out) (-1)
| playing_next s last n prev d s' :
    playing s last -> 0 <= n < g.(ImageCount) -> prev < n -> prev < 0 \/ prev = last ->
    drawFrame fs stride n prev s = (Returns d, s') -> playing s' n.

Lemma playing_right s last : playing s last ->
  stride * g.(SHeight) <= Z.of_nat (length s.(outputPtr)) /\ state_right s /\
  (0 <= last -> shows g stride s.(outputPtr) (shown last)).
Proof.
  induction 1 as [out Hroom|s last n prev d s' _ (Hroom & Hst & Hs) Hn Hprev Hor E].
  - split; [done|]. split; [|lia]. by split; [|cbn; lia].
  - destruct (drawFrame_correct n prev s) as (s1 & E1 & H1 & H2 & H3); [done|done|done| |done|].
    { intros H0. destruct Hor as [| ->]; [lia|by apply Hs]. }
    rewrite E1 in E. injection E as _ <-. done.
Qed.

(** C18. An animation of a [tidy] file never gets stuck: whatever frames were
    drawn so far and in whatever order, each over the one in the bitmap or
    from scratch, every frame can be shown next, over the last one when it
    comes after it and from scratch otherwise, and it shows as the GIF defines
    it. For files that are not tidy the last part is not so
    ([first_frame_not_removed]). *)
Theorem animation_goes_on s last n :
  playing s last -> 0 <= n < g.(ImageCount) ->
  exists d s', drawFrame fs stride n (if last <? n then last else -1) s = (Returns d, s') /\
    playing s' n /\ shows g stride s'.(outputPtr) (shown n).
Proof.
  intros Hp Hn. destruct (playing_right s last Hp) as (Hroom & Hst & Hs).
  assert (forall prev, prev < n -> prev < 0 \/ prev = last -> exists d s', drawFrame fs stride n prev s = (Returns d, s') /\
    playing s' n /\ shows g stride s'.(outputPtr) (shown n)) as Hdraw.
  { intros prev Hprev Hor. destruct (drawFrame_correct n prev s) as (s1 & E1 & H1 & _); [done|done|done| |done|].
    - intros H0. destruct Hor as [| ->]; [lia|by apply Hs].
    - exists (delay_before g n), s1. split; [exact E1|]. split; [|exact H1]. by eapply playing_next. }
  destruct (Z.ltb_spec last n); apply Hdraw; lia.
Qed.

(** C17. For a [tidy] file, drawing frame [n] over frame [prev] and drawing it
    from scratch into any other bitmap with room for the screen give the same
    picture. Without the condition they can differ
    ([first_frame_not_removed]). *)
Theorem drawn_as_from_scratch n prev s s0 :
  0 <= prev < n -> n < g.(ImageCount) ->
  stride * g.(SHeight) <= Z.of_nat (length s.(outputPtr)) -> stride * g.(SHeight) <= Z.of_nat (length s0) ->
  state_right s ->
  (drawFrame fs stride prev (-1) s).1 <> Stuck /\
  exists d s1 s2, drawFrame fs stride n prev (drawFrame fs stride prev (-1) s).2 = (Returns d, s1) /\
    drawFrame fs stride n (-1) (new_canvas s0) = (Returns d, s2) /\
    forall x y, point g x y -> s1.(outputPtr) !! Z.to_nat (y * stride + x) = s2.(outputPtr) !! Z.to_nat (y * stride + x).
Proof.
  intros Hp Hn Hroom Hroom0 Hst.
  destruct (drawFrame_correct prev (-1) s) as (s' & E & Hs' & Hst' & Hroom'); [lia|lia|done|lia|done|]. rewrite E. split; [done|].
  destruct (drawFrame_correct n prev s') as (s1 & E1 & H1 & _); [lia|lia|done|done|done|].
  destruct (drawFrame_correct n (-1) (new_canvas s0)) as (s2 & E2 & H2 & _); [lia|lia|done|lia|by split; [|cbn; lia]|].
  eexists _, s1, s2. split; [exact E1|]. split; [exact E2|]. intros x y Hxy. by rewrite H1, H2.
Qed.
End Spec.

(** Any frame can be drawn over any other, and there is room for the next. *)
Lemma drawFrame_stays fs g stride n prev s :
  sequence_ok fs g -> g.(SWidth) <= stride -> 0 <= n < g.(ImageCount) ->
  stride * g.(SHeight) <= Z.of_nat (length s.(outputPtr)) -> buffer_sized g s ->
  exists s', drawFrame fs stride n prev s = (Returns (delay_before g n), s') /\
    stride * g.(SHeight) <= Z.of_nat (length s'.(outputPtr)) /\ buffer_sized g s'.
Proof.
  intros Hok Hstride Hn Hroom Hsz.
  destruct (drawFrame_run fs g stride Hok Hstride s (pictures_of g stride s) n prev) as (s' & E & Hr); [done|by apply rep_of|].
  exists s'. split; [exact E|]. destruct Hr as [Hroom' _ Hbuf _]. split; [done|]. unfold buffer_sized. unfold holds in Hbuf.
  destruct (mPreserveBuffer s'); [|done]. destruct (buffer _); [by destruct Hbuf|done].
Qed.

(** Drawing is memory safe: for every sequence of sound images, every
    frame of it, whatever the file's disposals, rectangles, indices and colour
    maps and whatever frame the caller says is in the bitmap, [drawFrame] stays
    inside the bitmap, the rasters, the colour maps and the preserve buffer. *)
Theorem drawFrame_safe fs g stride n prev s :
  sequence_ok fs g -> g.(SWidth) <= stride -> 0 <= n < g.(ImageCount) ->
  stride * g.(SHeight) <= Z.of_nat (length s.(outputPtr)) -> buffer_sized g s ->
  exists d s', drawFrame fs stride n prev s = (Returns d, s') /\ buffer_sized g s'.
Proof.
  intros Hok Hstride Hn Hroom Hsz. destruct (drawFrame_stays fs g stride n prev s) as (s' & E & _ & Hb); eauto.
Qed.
