(* ===== verification/FrameMake.v ===== *)
(** * libframesequence: making a frame sequence (FrameSequence_gif.cpp)

    What the constructor gives [drawFrame]: the screen of the file, which
    [DGifOpen] reads and [DGifSlurp] keeps, and the two arrays of the loop over
    the images. *)

From stdpp Require Import base numbers list list_numbers.
From Stdlib Require Import Lia ZArith.
From S2P Require Import Prelude GifTypes GifAlloc GifDecode GifSafety FrameSequence FrameDraw FrameSpec.

#[local] Open Scope Z_scope.
#[local] Open Scope c_scope.

(** ** What the slurp loop keeps *)

(** A property of the handle that says nothing of the fields the decoder works
    with. *)
Section Keeps.
Context (P : GifFileType -> Prop).
Context (P_Alloc : forall g, P g -> P (drop_alloc g)) (P_In : forall v g, P g -> P (set_In v g))
  (P_Error : forall v g, P g -> P (set_Error v g)) (P_Priv : forall f g, P g -> P (upd_priv f g))
  (P_Image : forall f g, P g -> P (upd_Image f g))
  (P_Blocks : forall v g, P g -> P (set_ExtensionBlocks v g)) (P_Count : forall v g, P g -> P (set_ExtensionBlockCount v g))
  (P_add : keeps P add_saved_image) (P_upd : forall i f, keeps P (upd_saved i f)).

#[local] Hint Resolve P_Priv P_Image P_Blocks P_Count : keeps.

Lemma keeps_upd_Image f : keeps P (modify (upd_Image f)).
Proof. intros g. apply P_Image. Qed.

#[local] Hint Resolve keeps_upd_Image : keeps.

Lemma keeps_malloc : keeps P malloc.
Proof. intros g. apply P_Alloc. Qed.

Lemma keeps_READ n : keeps P (READ n).
Proof. intros g. apply P_In. Qed.

Lemma keeps_err {A} e : keeps P (@err A e).
Proof. intros g. apply P_Error. Qed.

#[local] Hint Resolve keeps_malloc keeps_READ keeps_err : keeps.

Lemma keeps_READ_or n c : keeps P c -> keeps P (READ_or n c).
Proof. intros Hc. unfold READ_or. keep. Qed.

#[local] Hint Resolve keeps_READ_or : keeps.

Lemma keeps_READ_full n : keeps P (READ_full n).
Proof. apply keeps_READ_or. keep. Qed.

Lemma keeps_byte_at bs i : keeps P (byte_at bs i).
Proof. unfold byte_at. keep. Qed.

#[local] Hint Resolve keeps_READ_full keeps_byte_at : keeps.

Lemma keeps_READ_byte : keeps P READ_byte.
Proof. unfold READ_byte. keep. Qed.

Lemma keeps_DGifGetWord : keeps P DGifGetWord.
Proof. unfold DGifGetWord. keep. Qed.

Lemma keeps_check_readable : keeps P check_readable.
Proof. unfold check_readable. keep. Qed.

Lemma keeps_set_Buf_at i v : keeps P (set_Buf_at i v).
Proof. unfold set_Buf_at. keep. Qed.
Lemma keeps_set_Stack_at i v : keeps P (set_Stack_at i v).
Proof. unfold set_Stack_at. keep. Qed.
Lemma keeps_set_Suffix_at i v : keeps P (set_Suffix_at i v).
Proof. unfold set_Suffix_at. keep. Qed.
Lemma keeps_set_Prefix_at i v : keeps P (set_Prefix_at i v).
Proof. unfold set_Prefix_at. keep. Qed.
Lemma keeps_store_buf i bs : keeps P (store_buf i bs).
Proof. unfold store_buf. keep. Qed.

#[local] Hint Resolve keeps_READ_byte keeps_DGifGetWord keeps_check_readable keeps_set_Buf_at keeps_set_Stack_at
  keeps_set_Suffix_at keeps_set_Prefix_at keeps_store_buf : keeps.

Lemma keeps_read_colors n c : keeps P c -> keeps P (read_colors n c).
Proof. intros Hc. unfold read_colors. keep. Qed.

Lemma keeps_DGifGetRecordType : keeps P DGifGetRecordType.
Proof. unfold DGifGetRecordType. keep. Qed.

Lemma keeps_DGifSetupDecompress : keeps P DGifSetupDecompress.
Proof. unfold DGifSetupDecompress. keep. Qed.

Lemma keeps_DGifBufferedInput : keeps P DGifBufferedInput.
Proof. unfold DGifBufferedInput. keep. Qed.

#[local] Hint Resolve keeps_read_colors keeps_DGifBufferedInput : keeps.

Lemma keeps_DGifDecompressInput : keeps P DGifDecompressInput.
Proof. unfold DGifDecompressInput, fill_shift. keep. Qed.

Lemma keeps_pop sp room : keeps P (pop sp room).
Proof. unfold pop. keep. Qed.

Lemma keeps_expand_code cc c lc sp : keeps P (expand_code cc c lc sp).
Proof. unfold expand_code, start_trace, push_trace, trace_prefix. keep. Qed.

Lemma keeps_enter_code cc c lc : keeps P (enter_code cc c lc).
Proof. unfold enter_code. keep. Qed.

#[local] Hint Resolve keeps_DGifDecompressInput keeps_pop keeps_expand_code keeps_enter_code : keeps.

Lemma keeps_DGifDecompressLine n : keeps P (DGifDecompressLine n).
Proof. unfold DGifDecompressLine, decompress_round, clear_tables. keep. Qed.

Lemma keeps_DGifGetCodeNext : keeps P DGifGetCodeNext.
Proof. unfold DGifGetCodeNext. keep. Qed.

Lemma keeps_DGifGetExtensionNext : keeps P DGifGetExtensionNext.
Proof. unfold DGifGetExtensionNext. keep. Qed.

#[local] Hint Resolve keeps_DGifDecompressLine keeps_DGifGetCodeNext keeps_DGifGetExtensionNext : keeps.

Lemma keeps_DGifGetLine n : keeps P (DGifGetLine n).
Proof. unfold DGifGetLine, count_pixels, get_pixels, skip_blocks. keep. Qed.

Lemma keeps_GifMakeMapObject n cs : keeps P (GifMakeMapObject n cs).
Proof. unfold GifMakeMapObject. keep. Qed.

#[local] Hint Resolve keeps_DGifGetLine keeps_GifMakeMapObject P_add P_upd : keeps.

Lemma keeps_DGifGetImageDesc : keeps P DGifGetImageDesc.
Proof.
  pose proof keeps_DGifSetupDecompress. unfold DGifGetImageDesc, set_local_map. keep.
Qed.

Lemma keeps_slurp_image : keeps P slurp_image.
Proof. pose proof keeps_DGifGetImageDesc. unfold slurp_image, store_pixels. keep. Qed.

Lemma keeps_add_extension c data : keeps P (add_extension c data).
Proof. unfold add_extension, GifAddExtensionBlock. keep. Qed.

#[local] Hint Resolve keeps_slurp_image keeps_add_extension keeps_DGifGetRecordType : keeps.

Lemma keeps_slurp_extension : keeps P slurp_extension.
Proof. unfold slurp_extension, slurp_continuation, DGifGetExtension. keep. Qed.

Lemma keeps_DGifSlurp : keeps P DGifSlurp.
Proof. pose proof keeps_slurp_extension. unfold DGifSlurp, slurp_record. keep. Qed.
End Keeps.

(** ** The screen *)

(** The fields [DGifGetScreenDesc] sets. *)
Definition screen_is (w h bg : Z) (m : option ColorMapObject) (g : GifFileType) : Prop :=
  g.(SWidth) = w /\ g.(SHeight) = h /\ g.(SBackGroundColor) = bg /\ g.(SColorMap) = m.

Lemma slurp_keeps_screen w h bg m : keeps (screen_is w h bg m) DGifSlurp.
Proof.
  assert (forall i f, keeps (screen_is w h bg m) (upd_saved i f)) by (intros; unfold upd_saved; keep).
  assert (keeps (screen_is w h bg m) malloc) by (by apply keeps_malloc).
  assert (forall n cs, keeps (screen_is w h bg m) (GifMakeMapObject n cs)) by (intros; by apply keeps_GifMakeMapObject).
  assert (forall e, keeps (screen_is w h bg m) (@err unit e)) by (intros; by apply keeps_err).
  apply keeps_DGifSlurp; try done. unfold add_saved_image. keep.
Qed.

(** The array of the saved images has room for the images counted, also after
    an error: [DGifCloseFile] goes through them. *)
Definition images_fit (g : GifFileType) : Prop :=
  match g.(SavedImages) with None => g.(ImageCount) = 0 | Some l => 0 <= g.(ImageCount) <= Z.of_nat (length l) end.

Lemma upd_saved_keeps_fit i f : keeps images_fit (upd_saved i f).
Proof.
  intros g Hg. unfold upd_saved, bind, gets, modify, of_option. destruct (SavedImages g) as [l|] eqn:El; [|done]. unfold ret.
  destruct (aget l i) as [sp|]; [|done]. destruct (f sp) as [sp'|]; [|done].
  destruct (aset l i sp') as [l'|] eqn:E; [|done]. apply aset_length in E.
  unfold images_fit in *. rewrite El in Hg. cbn. lia.
Qed.

Lemma add_saved_image_keeps_fit : keeps images_fit add_saved_image.
Proof.
  intros g Hg. unfold add_saved_image, malloc, err. unfold bind at 1, gets at 1. unfold bind at 1.
  destruct (negb (next_alloc g)); [done|]. set (images := match SavedImages g with Some _ => _ | None => _ end).
  assert (ImageCount g + 1 <= Z.of_nat (length images) /\ 0 <= ImageCount g) as [Hroom Hn].
  { unfold images_fit in Hg. subst images. destruct (SavedImages g) as [l|]; [|cbn; lia].
    unfold resize. rewrite length_resize. lia. }
  set (Q g' := g'.(ImageCount) = ImageCount g /\ g'.(SavedImages) = Some images).
  assert (forall g', Q g' -> images_fit g') as HQ by (intros g' [H1 H2]; unfold images_fit; rewrite H1, H2; lia).
  assert (forall n cs, keeps Q (GifMakeMapObject n cs)) as Hmake by (intros; by apply keeps_GifMakeMapObject).
  unfold modify at 1, bind at 1. set (g1 := set_SavedImages _ _).
  match goal with |- images_fit ((bind ?m ?k) g1).2 => assert (keeps Q m) as Hm by keep; pose proof (Hm g1 ltac:(done)) as Hk end.
  unfold bind at 1. destruct (_ g1) as [[copy| |] g2]; cbn [snd] in Hk; [|by apply HQ..].
  unfold bind at 1, of_option. destruct (aget images (ImageCount g)); [|by apply HQ]. unfold ret at 1.
  assert (forall sp, images_fit (bind (of_option (aset images (ImageCount g) sp))
    (fun images => modify (set_SavedImages (Some images)) ;;! modify (set_ImageCount (ImageCount g + 1))) g2).2) as Hset.
  { intros sp. unfold bind, of_option, modify. destruct (aset images (ImageCount g) sp) as [l|] eqn:E; [|by apply HQ].
    apply aset_length in E. unfold images_fit. cbn. lia. }
  destruct (ColorMap (Image g)), copy; try apply Hset. by apply HQ.
Qed.

Lemma slurp_keeps_fit : keeps images_fit DGifSlurp.
Proof. apply keeps_DGifSlurp; try done; [apply add_saved_image_keeps_fit|apply upd_saved_keeps_fit]. Qed.

Lemma wp_DGifCloseFile ok g (Q : bool * Z -> GifFileType -> Prop) E :
  images_fit g -> (forall r g', Q r g') -> wp (DGifCloseFile ok) Q E g.
Proof.
  intros Hg HQ. unfold DGifCloseFile, set_local_map, GifFreeSavedImages. do 4 wp_step. apply wp_bind, wp_bind, wp_gets.
  change (SavedImages (set_SColorMap None _)) with (SavedImages g). unfold images_fit in Hg.
  match goal with |- wp _ (fun _ g' => wp ?k Q E g') E _ => assert (forall g', wp k Q E g') as Hrest end.
  { intros g'. do 2 wp_step. destruct (GifFreeExtensions _ _). do 4 wp_step. by repeat wp_step. }
  destruct (SavedImages g) as [l|]; [|by apply wp_ret]. do 2 wp_step.
  change (ImageCount (set_SColorMap None _)) with (ImageCount g).
  apply wp_bind, (wp_foldM (fun rows _ _ => Forall (fun i => 0 <= i < Z.of_nat (length l)) rows)).
  - intros i rows _ g' [Hi His]%Forall_cons. destruct (aget_Some l i Hi) as [sp Hsp].
    by apply wp_bind, wp_of_option with (1 := Hsp), wp_ret.
  - intros _ g' _. apply wp_modify, Hrest.
  - apply Forall_forall. intros i Hi%elem_of_seqZ. lia.
Qed.

Definition screen_ok (g : GifFileType) : Prop :=
  word16 g.(SWidth) /\ word16 g.(SHeight) /\ byte g.(SBackGroundColor) /\ map_fits g.(SColorMap).

Lemma screen_is_ok g g' : screen_ok g -> screen_is g.(SWidth) g.(SHeight) g.(SBackGroundColor) g.(SColorMap) g' -> screen_ok g'.
Proof. intros Hok (H1 & H2 & H3 & H4). unfold screen_ok. by rewrite H1, H2, H3, H4. Qed.

Lemma keeps_screen_ok {A} (m : GifM A) : (forall w h bg cm, keeps (screen_is w h bg cm) m) -> keeps screen_ok m.
Proof. intros Hm g Hg. by eapply screen_is_ok; [exact Hg|apply Hm]. Qed.

Lemma wp_word_in {A} (k : Z -> GifM A) (Q : A -> GifFileType -> Prop) g :
  bytes_in g -> (forall w input, word16 w -> Forall byte input -> wp (k w) Q any (set_In input g)) ->
  wp (bind DGifGetWord k) Q any g.
Proof.
  intros Hin HQ. apply wp_bind, wp_DGifGetWord; [done|]. intros lo hi input Hg Hlo Hhi Hi.
  apply HQ; [by apply le_word_range|done].
Qed.

Lemma DGifGetScreenDesc_screen g : bytes_in g -> wp DGifGetScreenDesc (fun _ => screen_ok) any g.
Proof.
  intros Hin. unfold DGifGetScreenDesc. apply wp_check_readable.
  apply wp_word_in; [done|]. intros w i1 Hw Hi1. do 2 wp_step.
  apply wp_word_in; [done|]. intros h i2 Hh Hi2. do 2 wp_step.
  apply wp_bind, wp_READ_or; [lia|done|done|].
  intros bs i3 Hg Hb Hbs Hi3. destruct bs as [|b0 [|b1 [|b2 [|]]]]; cbn [length] in Hb; try lia.
  do 3 (apply wp_bind, wp_of_option with (1 := eq_refl)).
  do 6 wp_step. cbv zeta. set (g4 := set_AspectByte _ _).
  assert (byte b1) by (by inversion_clear Hbs as [|??? H]; inversion_clear H).
  destruct (test b0 128); [|by apply wp_modify].
  apply wp_bind. eapply wp_mono; [by apply GifMakeMapObject_safe| |done].
  intros [m|] g5 ([al ->] & Hm & _); do 2 wp_step; [|by apply wp_err].
  do 2 wp_step. cbn [ColorCount set_SortFlag]. rewrite Hm. set (g6 := set_SColorMap _ _).
  assert (bytes_in g6) as Hin6 by done.
  set (n := Z.shiftl 1 _) in *.
  set (P g := word16 g.(SWidth) /\ word16 g.(SHeight) /\ byte g.(SBackGroundColor)).
  assert (keeps P (read_colors n (modify (set_SColorMap None)))) as Hkeep.
  { apply keeps_foldM. intros cs k. unfold READ_or, byte_at. apply keeps_bind; [|keep].
    apply keeps_bind; [by intros ?|]. intros bs. destruct (_ =? _); [keep|]. apply keeps_bind; [keep|]. by intros _ ?. }
  assert (0 <= n) as Hn by (subst n; rewrite Z.shiftl_nonneg; lia).
  assert (P g6) as HP by done.
  pose proof (wp_keeps P _ _ _ g6 Hkeep HP (read_colors_safe n _ g6 Hin6 Hn (harmless_modify _))) as Hcs.
  apply wp_bind. eapply wp_mono; [exact Hcs| |done].
  intros cs g7 [[_ Hl] (?&?&?)]. apply wp_modify. split; [done|]. split; [done|]. split; [done|]. cbn. lia.
Qed.

Lemma DGifOpen_screen input allocs s : Forall byte input -> wp (DGifOpen input allocs) (fun _ => screen_ok) any s.
Proof.
  intros Hin. unfold wp, DGifOpen. set (g0 := fresh_gif input allocs).
  match goal with |- match ?m g0 with _ => _ end => change (wp m (fun _ => screen_ok) any g0) end.
  apply wp_bind, wp_malloc. destruct (negb _); [done|].
  apply wp_bind, wp_malloc. destruct (negb _); [done|]. do 2 wp_step.
  apply wp_bind, wp_attempt. unfold read_stamp. apply wp_bind, wp_READ.
  destruct (negb _) eqn:Hl; [by apply wp_fail|]. apply negb_false_iff, Z.eqb_eq in Hl.
  match type of Hl with Z.of_nat (length ?l) = _ => destruct (aget_Some l GIF_VERSION_POS) as [v Hv] end.
  { rewrite Hl. unfold GIF_VERSION_POS, GIF_STAMP_LEN. lia. }
  apply wp_bind, wp_of_option with (1 := Hv), wp_ret.
  destruct (decide _); [|by apply wp_err].
  apply wp_bind, wp_attempt. eapply wp_mono; [apply DGifGetScreenDesc_screen| |done].
  - by apply Forall_drop.
  - intros [] g3 Hok. do 4 wp_step. by apply wp_gets.
Qed.

(** ** The loop over the images *)

Section Scan.
Context (g : GifFileType) (Hc : counted saved_ok g.(ImageCount) g.(SavedImages)).

Lemma loop_pair_some eb1 eb2 : block_ok eb1 -> block_ok eb2 -> is_Some (loop_pair eb1 eb2).
Proof.
  intros (bs1 & H1 & Hl1 & _) (bs2 & H2 & Hl2 & _). unfold loop_pair. rewrite H1, H2.
  destruct (_ && (ByteCount eb1 =? 11)) eqn:E1; [|by eexists]. apply andb_true_iff in E1 as [_ E1].
  apply Z.eqb_eq in E1. destruct (Nat.ltb_spec (length bs1) 11); [lia|]. destruct (_ && (ByteCount eb2 =? 3)) eqn:E2; [|by eexists].
  apply andb_true_iff in E2 as [_ E2]. destruct bs2 as [|b0 [|b1 [|b2 l]]]; cbn [length] in *; try lia. by eexists.
Qed.

Lemma scan_loop_count_run i count : 0 <= i < g.(ImageCount) ->
  exists count', scan_loop_count (frame_image g i) count g = (Returns count', g).
Proof.
  intros Hi. destruct (image_at_ok g i Hc Hi) as [_ (_ & _ & _ & Hext & _)]. set (sp := frame_image g i) in *.
  destruct (wp_returns (scan_loop_count sp count) (fun _ g' => g' = g) g) as (c & g' & Hrun & ->); [|by exists c].
  unfold scan_loop_count. set (blocks := default [] (sp_ExtensionBlocks sp)).
  assert (sp_ExtensionBlockCount sp = Z.of_nat (length blocks) /\ Forall block_ok blocks) as [Hn Hall].
  { subst blocks. unfold counted in Hext. destruct (sp_ExtensionBlocks sp); [done|]. by rewrite Hext. }
  rewrite Hn. apply (wp_foldM (fun l (_ : Z) g' => g' = g /\ Forall (fun j => 0 <= j < Z.of_nat (length blocks) - 1) l)); [|by intros ?? []|].
  - intros j l b g' [-> [Hj Hl]%Forall_cons].
    destruct (aget_Some blocks j) as [eb1 H1]; [lia|]. destruct (aget_Some blocks (j + 1)) as [eb2 H2]; [lia|].
    destruct (loop_pair_some eb1 eb2) as [o Ho]; [by eapply aget_Forall..|].
    apply wp_bind, wp_of_option with (1 := H1). apply wp_bind, wp_of_option with (1 := H2).
    apply wp_bind, wp_of_option with (1 := Ho). by apply wp_ret.
  - split; [done|]. apply Forall_forall. intros j Hj%elem_of_seqZ. lia.
Qed.

(** The locals after the images before [i]. *)
Record scanning (i : Z) (st : scan) : Prop := {
  sg_last : st.(lastUnclearedFrame) = kept_before g i;
  sg_lengths : Z.of_nat (length st.(preserved)) = g.(ImageCount) /\ Z.of_nat (length st.(restoring)) = g.(ImageCount);
  sg_restoring : forall k, 0 <= k < i ->
    aget st.(restoring) k = Some (if to_previous g k && (0 <=? kept_before g k) then kept_before g k else -1);
  sg_kept : forall k, aget st.(preserved) k = Some true -> will_be_cleared g k = false;
  sg_preserved : forall k, 0 <= k < i -> to_previous g k = true -> 0 <= kept_before g k ->
    aget st.(preserved) (kept_before g k) = Some true
}.

Lemma aget_insert {A} (l : list A) i k v : 0 <= i < Z.of_nat (length l) ->
  aget (<[Z.to_nat i := v]> l) k = if decide (k = i) then Some v else aget l k.
Proof.
  intros Hi. pose proof (aset_Some l i v Hi) as Hs. destruct (decide (k = i)) as [->|].
  - by apply aget_aset_eq in Hs.
  - by apply aget_aset_ne with (j := k) in Hs.
Qed.

(** The arrays after one more image: entry [i] of the one, and the entries
    [i] and, for a frame to be removed again, of the last frame that stays in
    the other. *)
Lemma scanning_next i st count d kept restored :
  let p := to_previous g i && (0 <=? kept_before g i) in
  0 <= i < g.(ImageCount) -> scanning i st ->
  Z.of_nat (length kept) = g.(ImageCount) -> Z.of_nat (length restored) = g.(ImageCount) ->
  (forall k, aget restored k = if decide (k = i) then Some (if p then kept_before g i else -1) else aget st.(restoring) k) ->
  (forall k, aget kept k = if p && bool_decide (k = kept_before g i) then Some true
                           else if decide (k = i) then Some false else aget st.(preserved) k) ->
  scanning (i + 1) (mkScan count d (if negb (will_be_cleared g i) then i else kept_before g i) kept restored).
Proof.
  intros p Hi [Hlast _ Hres Hkept Hpres] Hlk Hlr Hr Hk. destruct (kept_before_spec g i) as (Hk1 & Hk2 & _); [lia|].
  constructor; cbn [lastUnclearedFrame preserved restoring].
  - rewrite kept_before_next by lia. by destruct (will_be_cleared g i).
  - done.
  - intros k Hki. rewrite Hr. destruct (decide (k = i)) as [->|]; [done|]. apply Hres. lia.
  - intros k. rewrite Hk. destruct (p && bool_decide (k = kept_before g i)) eqn:E.
    + intros _. apply andb_true_iff in E as [Hp ->%bool_decide_eq_true]. apply Hk2. unfold p in Hp. lia.
    + destruct (decide (k = i)); [done|]. apply Hkept.
  - intros k Hki Hp Hle. rewrite Hk. destruct (p && bool_decide (kept_before g k = kept_before g i)) eqn:E; [done|].
    destruct (kept_before_spec g k) as (Hk3 & _ & _); [lia|]. destruct (decide (k = i)) as [->|].
    + unfold p in E. rewrite Hp, bool_decide_eq_true_2, (proj2 (Z.leb_le _ _)) in E by done. done.
    + rewrite decide_False by lia. apply Hpres; [lia|done|done].
Qed.

Lemma scan_frame_run i st : 0 <= i < g.(ImageCount) -> scanning i st ->
  exists st', scan_frame st i g = (Returns st', g) /\ scanning (i + 1) st'.
Proof.
  intros Hi Hst. pose proof Hst as [Hlast [Hlp Hlr] _ _ _]. destruct (image_at_ok g i Hc Hi) as [Him _].
  destruct (kept_before_spec g i) as (Hk1 & _ & _); [lia|].
  destruct (scan_loop_count_run i (loop_count st) Hi) as [count Hcount].
  unfold scan_frame, bind, gets. unfold image_at in Him. rewrite Him. unfold of_option at 1, ret at 1.
  rewrite Hcount, (saved_GCB_run g i Hc Hi). rewrite !aset_Some by lia. unfold of_option, ret. rewrite Hlast.
  fold (to_previous g i). destruct (to_previous g i && (0 <=? kept_before g i)) eqn:E.
  - rewrite !aset_Some by (rewrite length_insert; lia). eexists. split; [done|].
    apply (scanning_next i st); try done; rewrite ?length_insert; try done.
    + intros k. rewrite E, !aget_insert by (rewrite ?length_insert; lia). by destruct (decide (k = i)).
    + intros k. rewrite E, !aget_insert by (rewrite ?length_insert; lia). cbn [andb]. by case_bool_decide; case_decide.
  - eexists. split; [done|]. apply (scanning_next i st); try done; rewrite ?length_insert; try done.
    + intros k. rewrite E, !aget_insert by lia. done.
    + intros k. rewrite E, !aget_insert by lia. done.
Qed.

Lemma scan_frames_run : exists st, scan_frames g = (Returns st, g) /\ scanning g.(ImageCount) st.
Proof.
  assert (0 <= ImageCount g) as Hn by (unfold counted in Hc; destruct (SavedImages g); lia).
  destruct (wp_returns scan_frames (fun st g' => g' = g /\ scanning (ImageCount g) st) g) as (st & g' & H & -> & Hst); [|by exists st].
  unfold scan_frames. wp_steps.
  apply (wp_foldM (fun l st g' => g' = g /\ exists i, l = seqZ i (ImageCount g - i) /\ 0 <= i <= ImageCount g /\ scanning i st)).
  - intros j l st g' (-> & i & Hl & Hi & Hst). destruct (decide (i = ImageCount g)) as [->|]; [by rewrite seqZ_nil in Hl by lia|].
    rewrite seqZ_cons in Hl by lia. injection Hl as -> ->.
    destruct (scan_frame_run i st) as (st' & Hrun & Hst'); [lia|done|]. unfold wp. rewrite Hrun. split; [done|].
    exists (i + 1). split; [f_equal; lia|]. split; [lia|done].
  - intros st g' (-> & i & Hl & Hi & Hst). destruct (decide (i = ImageCount g)) as [->|]; [done|]. by rewrite seqZ_cons in Hl by lia.
  - split; [done|]. exists 0. split; [f_equal; lia|]. split; [lia|]. constructor; cbn [lastUnclearedFrame preserved restoring]; try (intros; lia).
    + done.
    + rewrite !length_replicate. lia.
    + intros k Hk. pose proof (aget_lt _ _ _ Hk) as Hlt. rewrite length_replicate in Hlt. by rewrite aget_replicate in Hk.
Qed.
End Scan.

(** ** The constructor *)

(** A background colour that is outside the global colour map. *)
Definition background_outside (g : GifFileType) : Prop :=
  exists m, g.(SColorMap) = Some m /\ Z.of_nat (length m.(Colors)) <= g.(SBackGroundColor).

Lemma background_color_run g : 0 < g.(ImageCount) -> counted saved_ok g.(ImageCount) g.(SavedImages) ->
  byte g.(SBackGroundColor) ->
  (exists c, background_color g = (Returns c, g)) \/ background_color g = (Stuck, g) /\ background_outside g.
Proof.
  intros Hn Hc Hb. unfold background_color, bind, gets. destruct (SColorMap g) as [m|] eqn:Em; [|left; by eexists].
  rewrite (saved_GCB_run g 0 Hc) by lia. destruct (TransparentColor _ =? _); [|left; by eexists].
  destruct (decide (SBackGroundColor g < Z.of_nat (length (Colors m)))) as [Hlt|Hge].
  - left. destruct (aget_Some (Colors m) (SBackGroundColor g)) as [c ->]; [unfold byte in Hb; lia|]. by eexists.
  - right. unfold aget. rewrite decide_True, lookup_ge_None_2 by (unfold byte in Hb; lia).
    split; [done|]. exists m. split; [done|lia].
Qed.

(** What a file is made into. *)
Definition loaded (fs : FrameSequence_gif) : Prop :=
  exists g, fs.(mGif) = Some g /\ 0 < g.(ImageCount) /\ screen_ok g /\ scanned fs g /\
    (g.(SWidth) * g.(SHeight) <= INT_MAX -> sequence_ok fs g).

Lemma loaded_of g st bg : slurped g -> screen_ok g -> scanning g g.(ImageCount) st ->
  loaded (mkFrameSequence_gif (Some g) st.(loop_count) bg st.(preserved) st.(restoring)).
Proof.
  intros (Hn & Hc & _) Hok [_ [Hlp Hlr] Hres Hkept Hpres]. exists g. split; [done|]. split; [done|]. split; [done|].
  split; [by constructor|]. destruct Hok as ([? ?] & [? ?] & _ & Hm). by constructor.
Qed.

Lemma make_cases input allocs s : Forall byte input ->
  match make_FrameSequence_gif input allocs s with
  | (Returns fs, _) => fs = no_sequence \/ loaded fs
  | (Fails, _) => False
  | (Stuck, g) => slurped g /\ background_outside g
  end.
Proof.
  intros Hin. unfold make_FrameSequence_gif. unfold bind at 1, attempt at 1.
  pose proof (wp_and _ _ _ _ _ _ (DGifOpen_safe input allocs s Hin) (DGifOpen_screen input allocs s Hin)) as Hopen.
  unfold wp in Hopen. destruct (DGifOpen input allocs s) as [[u| |] g]; [|by left|done]. destruct Hopen as [Hwf Hok].
  assert (keeps screen_ok DGifSlurp) as Hks by (apply keeps_screen_ok, slurp_keeps_screen).
  assert (images_fit g) as Hfit by (pose proof (gw_images _ Hwf) as H; unfold images_fit, counted in *; destruct (SavedImages g); lia).
  pose proof (wp_keeps _ _ _ _ _ slurp_keeps_fit Hfit (wp_keeps _ _ _ _ _ Hks Hok (DGifSlurp_safe g Hwf))) as Hslurp.
  unfold wp in Hslurp. unfold bind at 1, attempt at 1. destruct (DGifSlurp g) as [[[]| |] g1]; [| |done].
  - destruct Hslurp as [[Hsl Hok1] _]. pose proof Hsl as (Hn & Hc & _). destruct (scan_frames_run g1 Hc) as (st & Hrun & Hst).
    unfold bind at 1. rewrite Hrun. unfold bind at 1.
    destruct (background_color_run g1) as [[c ->]|[-> Hout]]; [done|done|by destruct Hok1 as (_ & _ & ? & _)| |done].
    unfold bind, gets, ret. right. by apply loaded_of.
  - destruct Hslurp as [_ Hfit1]. unfold bind at 1, attempt.
    pose proof (wp_DGifCloseFile true g1 (fun _ _ => True) (fun _ => False) Hfit1 ltac:(done)) as Hclose.
    unfold wp in Hclose. destruct (DGifCloseFile true g1) as [[r| |] g2]; [by left|done|done].
Qed.

(** ** The theorems *)

(** C19. The constructor never fails and never loops, for every sequence of
    bytes and every pattern of failing allocations: it makes the empty
    sequence, or one whose images, colour maps and arrays are well-formed and
    whose arrays say which frames to keep and to restore.  The one access it
    can make outside an array is the background colour, when the file's index
    is not in the global colour map. *)
Theorem make_well_formed input allocs s : Forall byte input ->
  match make_FrameSequence_gif input allocs s with
  | (Returns fs, _) => fs = no_sequence \/ loaded fs
  | (Fails, _) => False
  | (Stuck, g) => slurped g /\ background_outside g
  end.
Proof. apply make_cases. Qed.

(** C20. Every frame of every file that is made into a sequence can be drawn
    into every bitmap that has room for it, without an access outside an
    array, whatever frame the caller says was drawn before. *)
Theorem file_drawn_safely input allocs s fs g stride n prev out :
  Forall byte input -> (make_FrameSequence_gif input allocs s).1 = Returns fs -> fs.(mGif) = Some g ->
  getWidth fs * getHeight fs <= INT_MAX ->
  getWidth fs <= stride -> stride * getHeight fs <= Z.of_nat (length out) -> 0 <= n < getFrameCount fs ->
  exists d c, drawFrame fs stride n prev (new_canvas out) = (Returns d, c) /\
    (drawFrame fs stride n prev c).1 <> Stuck.
Proof.
  intros Hin Hmake Hg. unfold getWidth, getHeight, getFrameCount. rewrite Hg. intros Harea Hstride Hroom Hn.
  pose proof (make_cases input allocs s Hin) as Hcases. destruct (make_FrameSequence_gif input allocs s) as [r g'].
  cbn in Hmake. subst r. destruct Hcases as [->|(g1 & Hg1 & _ & _ & _ & Hok)]; [done|].
  assert (g1 = g) as -> by congruence. specialize (Hok Harea).
  assert (forall c, stride * SHeight g <= Z.of_nat (length c.(outputPtr)) -> buffer_sized g c ->
    exists d c', drawFrame fs stride n prev c = (Returns d, c') /\ stride * SHeight g <= Z.of_nat (length c'.(outputPtr)) /\ buffer_sized g c') as Hdraw.
  { intros c Hr Hb. destruct (drawFrame_stays fs g stride n prev c) as (c' & H); eauto. }
  destruct (Hdraw (new_canvas out)) as (d & c & E & Hr & Hb); [done|done|]. exists d, c. split; [done|].
  destruct (Hdraw c Hr Hb) as (d' & c' & E' & _). by rewrite E'.
Qed.

(** A file to be removed again as its first frame has nothing to be restored
    from: drawn over it, the second frame leaves the first one in the bitmap
    (unless it covers it), drawn from scratch it does not. *)
Theorem first_frame_not_removed fs g stride out :
  sequence_ok fs g -> scanned fs g -> g.(SWidth) <= stride -> stride * g.(SHeight) <= Z.of_nat (length out) ->
  2 <= g.(ImageCount) -> to_previous g 0 = true ->
  exists d0 d1 c0 c1 c2,
    drawFrame fs stride 0 (-1) (new_canvas out) = (Returns d0, c0) /\
    drawFrame fs stride 1 0 c0 = (Returns d1, c1) /\
    shows g stride c1.(outputPtr) (drawn g 1 (drawn g 0 (fun _ _ => fs.(mBgColor)))) /\
    drawFrame fs stride 1 (-1) (new_canvas out) = (Returns d1, c2) /\
    shows g stride c2.(outputPtr) (drawn g 1 (fun _ _ => fs.(mBgColor))).
Proof.
  intros Hok Hsc Hstride Hroom Hcount Hp. set (bg := fun _ _ => mBgColor fs).
  assert (will_be_cleared g 0 = true) as Hcl by (by rewrite cleared_cases, Hp, orb_true_r).
  assert (needs_redraw fs (-1) [0] = false) as Hneed.
  { unfold needs_redraw. cbn [existsb]. rewrite (sc_restoring _ _ Hsc) by lia.
    change (kept_before g 0) with (-1). by rewrite andb_false_r. }
  assert (default false (aget (mPreservedFrames fs) 0) = false) as Hkept.
  { destruct (aget (mPreservedFrames fs) 0) as [[|]|] eqn:E; [|done..]. apply (sc_kept _ _ Hsc) in E. congruence. }
  assert (forall a, before fs g 0 a = mkPictures bg a.(buffer) a.(buffer_frame)) as Hb0 by done.
  assert (forall s, before fs g 1 (mkPictures s None (-1)) = mkPictures s None (-1)) as Hb1.
  { intros s. unfold before. change (1 =? 0) with false. change (1 - 1) with 0. cbv zeta. rewrite Hkept. cbn [andb].
    unfold disposed. fold (to_previous g 0). rewrite Hp. cbn [screen buffer buffer_frame].
    assert (to_background g 0 = false) as Hbg by (apply Z.eqb_neq; apply Z.eqb_eq in Hp; unfold DISPOSE_BACKGROUND, DISPOSE_PREVIOUS in *; lia).
    fold (to_background g 0). rewrite Hbg. by destruct (_ && _). }
  assert (forall n a, step fs g n 0 a = mkPictures (if 0 =? n then drawn g 0 bg else bg) a.(buffer) a.(buffer_frame)) as Hs0.
  { intros n a. unfold step. rewrite Hb0. fold (will_be_cleared g 0). rewrite Hcl. by destruct (0 =? n). }
  assert (forall c, step fs g 1 1 (mkPictures c None (-1)) = mkPictures (drawn g 1 c) None (-1)) as Hs1.
  { intros c. unfold step. by rewrite Hb1. }
  set (a0 := pictures_of g stride (new_canvas out)).
  assert (rep g stride (new_canvas out) a0) as Hr by by apply rep_of.
  destruct (drawFrame_run fs g stride Hok Hstride (new_canvas out) a0 0 (-1)) as (c0 & E0 & Hr0); [lia|done|].
  change (start_frame _ _ _ _) with 0 in Hr0. change (seqZ 0 _) with [0] in Hr0. cbn [steps] in Hr0. rewrite Hs0 in Hr0.
  destruct (drawFrame_run fs g stride Hok Hstride c0 _ 1 0 ltac:(lia) Hr0) as (c1 & E1 & Hr1).
  destruct (drawFrame_run fs g stride Hok Hstride (new_canvas out) a0 1 (-1)) as (c2 & E2 & Hr2); [lia|done|].
  assert (forall prev, start_frame fs (-1) 1 prev = Z.max (prev + 1) 0) as Hstart.
  { intros prev. unfold start_frame. destruct (decide (prev < 1)).
    - replace (Z.max (Z.max (prev + 1) 0 - 1) 0) with 0 by lia. change (seqZ 0 (1 - 0)) with [0]. by rewrite Hneed.
    - rewrite seqZ_nil by lia. done. }
  change (buffer_frame _) with (-1) in Hr1, Hr2. rewrite Hstart in Hr1, Hr2.
  change (seqZ _ _) with [1] in Hr1. change (seqZ _ _) with [0; 1] in Hr2. cbn [steps] in Hr1, Hr2. rewrite Hs0 in Hr2.
  rewrite Hs1 in Hr1, Hr2. eexists _, _, c0, c1, c2. split; [exact E0|]. split; [exact E1|]. split; [apply Hr1|].
  split; [exact E2|apply Hr2].
Qed.
