(* ===== verification/FrameWitness.v ===== *)
(** * libframesequence: two files, and the theorems on them

    A GIF with every disposal, and one whose background colour is outside its
    colour map. *)

From stdpp Require Import base numbers list list_numbers.
From Stdlib Require Import Lia ZArith.
From S2P Require Import Prelude GifTypes GifAlloc GifDecode GifSafety FrameSequence FrameDraw FrameSpec FrameMake.

#[local] Open Scope Z_scope.

(** ** The files *)

Definition gif_head (w h background : Z) : list Z :=
  GIF89_STAMP ++ [w; 0; h; 0; 0x80; background; 0] ++ [0; 0; 0; 255; 255; 255].

Definition gif_loop (n : Z) : list Z := [0x21; 0xff; 11] ++ NETSCAPE ++ [3; 1; n; 0; 0].

(** An image of one row, with one or two pixels. *)
Definition gif_frame (disposal left : Z) (pixels : list Z) : list Z :=
  let w := Z.of_nat (length pixels) in
  let code := fold_right (fun p acc => p + 8 * acc) 5 pixels * 8 + 4 in
  [0x21; 0xf9; 4; disposal * 4; 10; 0; 0; 0] ++
  [0x2c; left; 0; 0; 0; w; 0; 1; 0; 0] ++ [2; 2; code mod 256; code / 256; 0].

Definition demo_gif : list Z :=
  gif_head 2 1 0 ++ gif_loop 5 ++
  gif_frame 1 0 [1; 1] ++ gif_frame 3 0 [0] ++ gif_frame 2 1 [0] ++ gif_frame 0 0 [0; 1] ++ [0x3b].

(** Its first frame is to be removed again. *)
Definition first_previous_gif : list Z :=
  gif_head 2 1 0 ++ gif_frame 3 0 [1] ++ gif_frame 0 1 [1] ++ [0x3b].

Definition bad_background_gif : list Z := gif_head 2 1 9 ++ gif_frame 0 0 [1; 1] ++ [0x3b].

Definition made (input : list Z) : FrameSequence_gif :=
  match (make_FrameSequence_gif input [] no_file).1 with Returns fs => fs | _ => no_sequence end.

Definition handle (input : list Z) : GifFileType := default no_file (made input).(mGif).

Lemma all_bytes l : forallb (fun b => (0 <=? b) && (b <? 256)) l = true -> Forall byte l.
Proof.
  rewrite forallb_forall. intros H. apply Forall_forall. intros b Hb%list_elem_of_In%H.
  apply andb_true_iff in Hb as [?%Z.leb_le ?%Z.ltb_lt]. done.
Qed.

Lemma demo_bytes : Forall byte demo_gif.
Proof. by apply all_bytes. Qed.
Lemma first_previous_bytes : Forall byte first_previous_gif.
Proof. by apply all_bytes. Qed.
Lemma bad_background_bytes : Forall byte bad_background_gif.
Proof. by apply all_bytes. Qed.

Definition black := 0xff000000.
Definition white := 0xffffffff.

Lemma demo_made : (make_FrameSequence_gif demo_gif [] no_file).1 = Returns (made demo_gif).
Proof. by vm_compute. Qed.
Lemma demo_handle : (made demo_gif).(mGif) = Some (handle demo_gif).
Proof. by vm_compute. Qed.
Lemma demo_screen : SWidth (handle demo_gif) = 2 /\ SHeight (handle demo_gif) = 1 /\ ImageCount (handle demo_gif) = 4.
Proof. by vm_compute. Qed.

(** ** What the constructor says of them *)

Lemma made_loaded input : Forall byte input -> (make_FrameSequence_gif input [] no_file).1 = Returns (made input) ->
  (made input).(mGif) = Some (handle input) ->
  scanned (made input) (handle input) /\
  (SWidth (handle input) * SHeight (handle input) <= INT_MAX -> sequence_ok (made input) (handle input)).
Proof.
  intros Hb Hm Hg. pose proof (make_cases input [] no_file Hb) as H. destruct (make_FrameSequence_gif input [] no_file) as [r g'].
  cbn in Hm. subst r. destruct H as [H|(g & Hg' & _ & _ & Hs & Hok)]; [by rewrite H in Hg|].
  assert (g = handle input) as -> by congruence. done.
Qed.

Lemma demo_scanned : scanned (made demo_gif) (handle demo_gif).
Proof. apply made_loaded; [apply demo_bytes|apply demo_made|apply demo_handle]. Qed.
Lemma demo_ok : sequence_ok (made demo_gif) (handle demo_gif).
Proof. apply made_loaded; [apply demo_bytes|apply demo_made|apply demo_handle|]. destruct demo_screen as (-> & -> & _). by unfold INT_MAX. Qed.

Lemma demo_tidy : tidy (handle demo_gif).
Proof.
  destruct demo_screen as (HW & HH & HN). constructor.
  - intros i x y c c' Hi Hc [Hx Hy] _. rewrite HN in Hi. rewrite HW in Hx. rewrite HH in Hy. clear HW HH HN. revert Hc.
    assert (y = 0) as -> by lia. assert (x = 0 \/ x = 1) as Hx' by lia.
    assert (i = 1 \/ i = 2 \/ i = 3) as [->|[->| ->]] by lia;
      [intros Hc; exfalso; revert Hc; clear; vm_compute; discriminate..|]. intros _. clear - Hx'. destruct Hx' as [->| ->]; vm_compute; reflexivity.
  - intros i Hi Hp. rewrite HN in Hi. clear HW HH HN. revert Hp. assert (i = 0 \/ i = 1 \/ i = 2 \/ i = 3) as [->|[->|[->| ->]]] by lia;
      clear; vm_compute; intros; done.
Qed.

Lemma first_previous_ok : sequence_ok (made first_previous_gif) (handle first_previous_gif) /\
  scanned (made first_previous_gif) (handle first_previous_gif).
Proof.
  destruct (made_loaded first_previous_gif) as [H1 H2]; [apply first_previous_bytes|by vm_compute|by vm_compute|].
  split; [|exact H1]. apply H2. by vm_compute.
Qed.

(** ** The theorems *)

(** A file whose background colour is not in its colour map is read
    outside the map before the first frame is drawn. *)
Theorem background_index_unchecked :
  (make_FrameSequence_gif bad_background_gif [] no_file).1 = Stuck.
Proof. by vm_compute. Qed.

Lemma make_well_formed_witness :
  Forall byte demo_gif /\
  match make_FrameSequence_gif demo_gif [] no_file with
  | (Returns fs, _) => fs = no_sequence \/ loaded fs
  | (Fails, _) => False
  | (Stuck, g) => slurped g /\ background_outside g
  end /\
  (mLoopCount (made demo_gif), mPreservedFrames (made demo_gif), mRestoringFrames (made demo_gif)) =
    (5, [true; false; false; false], [-1; 0; -1; -1]).
Proof.
  split; [exact demo_bytes|]. split; [|by vm_compute]. apply (make_well_formed demo_gif [] no_file). exact demo_bytes.
Defined.

Lemma file_drawn_safely_witness :
  Forall byte demo_gif /\ (make_FrameSequence_gif demo_gif [] no_file).1 = Returns (made demo_gif) /\
  exists d c, drawFrame (made demo_gif) 3 2 7 (new_canvas [0; 0; 0]) = (Returns d, c) /\
    (drawFrame (made demo_gif) 3 2 7 c).1 <> Stuck.
Proof.
  split; [exact demo_bytes|]. split; [exact demo_made|].
  apply (file_drawn_safely demo_gif [] no_file (made demo_gif) (handle demo_gif) 3 2 7 [0; 0; 0]).
  - exact demo_bytes.
  - exact demo_made.
  - exact demo_handle.
  - by vm_compute.
  - by vm_compute.
  - by vm_compute.
  - by vm_compute.
Defined.

Lemma drawFrame_safe_witness :
  sequence_ok (made demo_gif) (handle demo_gif) /\
  exists d s', drawFrame (made demo_gif) 3 3 1 (new_canvas [0; 0; 0]) = (Returns d, s') /\ buffer_sized (handle demo_gif) s'.
Proof.
  split; [exact demo_ok|].
  apply (drawFrame_safe (made demo_gif) (handle demo_gif) 3 3 1 (new_canvas [0; 0; 0])).
  - exact demo_ok.
  - by vm_compute.
  - by vm_compute.
  - by vm_compute.
  - exact I.
Defined.

Lemma drawFrame_shows_witness :
  scanned (made demo_gif) (handle demo_gif) /\ tidy (handle demo_gif) /\
  (exists s', drawFrame (made demo_gif) 2 3 (-1) (new_canvas [0; 0])
      = (Returns (delay_before (handle demo_gif) 3), s') /\
    shows (handle demo_gif) 2 s'.(outputPtr) (shown (made demo_gif) (handle demo_gif) 3) /\
    state_right (made demo_gif) (handle demo_gif) s') /\
  outputPtr (drawFrame (made demo_gif) 2 3 (-1) (new_canvas [0; 0])).2 = [black; white].
Proof.
  split; [exact demo_scanned|]. split; [exact demo_tidy|]. split; [|by vm_compute].
  apply (drawFrame_shows (made demo_gif) (handle demo_gif) demo_scanned demo_tidy 2 demo_ok).
  - by vm_compute.
  - by vm_compute.
  - lia.
  - by vm_compute.
  - lia.
  - split; [exact I|]. cbn. lia.
Defined.

Lemma drawn_as_from_scratch_witness :
  scanned (made demo_gif) (handle demo_gif) /\ tidy (handle demo_gif) /\
  (drawFrame (made demo_gif) 2 1 (-1) (new_canvas [0; 0])).1 <> Stuck /\
  exists d s1 s2, drawFrame (made demo_gif) 2 2 1 (drawFrame (made demo_gif) 2 1 (-1) (new_canvas [0; 0])).2 = (Returns d, s1) /\
    drawFrame (made demo_gif) 2 2 (-1) (new_canvas [5; 6]) = (Returns d, s2) /\
    forall x y, point (handle demo_gif) x y -> s1.(outputPtr) !! Z.to_nat (y * 2 + x) = s2.(outputPtr) !! Z.to_nat (y * 2 + x).
Proof.
  split; [exact demo_scanned|]. split; [exact demo_tidy|].
  apply (drawn_as_from_scratch (made demo_gif) (handle demo_gif) demo_scanned demo_tidy 2 demo_ok).
  - by vm_compute.
  - lia.
  - by vm_compute.
  - by vm_compute.
  - by vm_compute.
  - split; [exact I|]. cbn. lia.
Defined.

Lemma animation_goes_on_witness :
  playing (made demo_gif) (handle demo_gif) 2 (new_canvas [0; 0]) (-1) /\
  exists d s', drawFrame (made demo_gif) 2 1 (if -1 <? 1 then -1 else -1) (new_canvas [0; 0]) = (Returns d, s') /\
    playing (made demo_gif) (handle demo_gif) 2 s' 1 /\
    shows (handle demo_gif) 2 s'.(outputPtr) (shown (made demo_gif) (handle demo_gif) 1).
Proof.
  assert (playing (made demo_gif) (handle demo_gif) 2 (new_canvas [0; 0]) (-1)) as Hp by (by apply playing_start).
  split; [exact Hp|].
  apply (animation_goes_on (made demo_gif) (handle demo_gif) demo_scanned demo_tidy 2 demo_ok).
  - by vm_compute.
  - exact Hp.
  - by vm_compute.
Defined.

Lemma first_frame_not_removed_witness :
  to_previous (handle first_previous_gif) 0 = true /\
  (exists d0 d1 c0 c1 c2,
    drawFrame (made first_previous_gif) 2 0 (-1) (new_canvas [0; 0]) = (Returns d0, c0) /\
    drawFrame (made first_previous_gif) 2 1 0 c0 = (Returns d1, c1) /\
    shows (handle first_previous_gif) 2 c1.(outputPtr)
      (drawn (handle first_previous_gif) 1 (drawn (handle first_previous_gif) 0 (fun _ _ => mBgColor (made first_previous_gif)))) /\
    drawFrame (made first_previous_gif) 2 1 (-1) (new_canvas [0; 0]) = (Returns d1, c2) /\
    shows (handle first_previous_gif) 2 c2.(outputPtr)
      (drawn (handle first_previous_gif) 1 (fun _ _ => mBgColor (made first_previous_gif)))) /\
  outputPtr (drawFrame (made first_previous_gif) 2 1 0 (drawFrame (made first_previous_gif) 2 0 (-1) (new_canvas [0; 0])).2).2
    = [white; white] /\
  outputPtr (drawFrame (made first_previous_gif) 2 1 (-1) (new_canvas [0; 0])).2 = [black; white].
Proof.
  split; [by vm_compute|]. split; [|split; by vm_compute].
  apply (first_frame_not_removed (made first_previous_gif) (handle first_previous_gif) 2 [0; 0]).
  - apply first_previous_ok.
  - apply first_previous_ok.
  - by vm_compute.
  - by vm_compute.
  - by vm_compute.
  - by vm_compute.
Defined.
