(* ===== verification/Stream.v ===== *)
(** * libframesequence: streams (Stream.cpp)

    A stream delivers the bytes of a source: memory, a file, or a Java
    [InputStream].  [peek] keeps the bytes it took from the source in a buffer,
    [read] takes them from there first.  What [doRead] promises the stream is
    the class [Source] and its laws; [read] is proved against them, and each
    source is proved to keep them.  A byte of the buffer that was never written
    is [None]. *)

From stdpp Require Import base numbers list list_numbers.
From Stdlib Require Import Lia ZArith.
From S2P Require Import Prelude GifTypes GifDecode.

#[local] Open Scope Z_scope.
#[local] Open Scope c_scope.

(** ** Sources *)

(** [doRead(buffer, size)] delivers bytes and says how many; [contents] are the
    bytes the source still has, and [source_ok] what it relies on. *)
Class Source (S : Type) : Type := {
  doRead : Z -> M S (list Z);
  contents : S -> list Z;
  source_ok : S -> Prop
}.

(** With enough bytes left, the source delivers what is asked for. *)
Class SourceLaws (S : Type) `{Source S} : Prop := {
  doRead_enough n s : source_ok s -> 0 < n <= Z.of_nat (length (contents s)) ->
    exists s', doRead n s = (Returns (take (Z.to_nat n) (contents s)), s') /\
      contents s' = drop (Z.to_nat n) (contents s) /\ source_ok s'
}.

(** At the end it delivers what is left. *)
Class ExhaustiveSource (S : Type) `{Source S} : Prop := {
  doRead_all n s : source_ok s -> 0 < n ->
    exists s', doRead n s = (Returns (take (Z.to_nat n) (contents s)), s') /\
      contents s' = drop (Z.to_nat n) (contents s) /\ source_ok s'
}.

#[export] Instance exhaustive_laws S `{Source S} : ExhaustiveSource S -> SourceLaws S.
Proof. intros Hs. split. intros n s Hok [Hn _]. by apply doRead_all. Qed.

(** *** MemoryStream *)

Record MemoryStream : Type := mkMemoryStream {
  mBuffer : list Z;
  mRemaining : Z
}.

Definition MemoryStream_doRead (size : Z) : M MemoryStream (list Z) :=
  let! s := gets (fun s => s) in
  let size := Z.min size s.(mRemaining) in
  if Z.of_nat (length s.(mBuffer)) <? size then stuck
  else
    modify (fun _ => mkMemoryStream (drop (Z.to_nat size) s.(mBuffer)) (s.(mRemaining) - size)) ;;!
    ret (take (Z.to_nat size) s.(mBuffer)).

(** A memory stream is made with the size of its buffer. *)
#[export] Instance memory_source : Source MemoryStream := {
  doRead := MemoryStream_doRead;
  contents s := take (Z.to_nat s.(mRemaining)) s.(mBuffer);
  source_ok s := 0 <= s.(mRemaining) <= Z.of_nat (length s.(mBuffer))
}.

(** *** FileStream *)

(** What [fread] has still to deliver. *)
Record FileStream : Type := mkFileStream { mFd : list Z }.

Definition FileStream_doRead (size : Z) : M FileStream (list Z) :=
  let! s := gets mFd in
  modify (fun _ => mkFileStream (drop (Z.to_nat size) s)) ;;!
  ret (take (Z.to_nat size) s).

#[export] Instance file_source : Source FileStream := { doRead := FileStream_doRead; contents := mFd; source_ok _ := True }.

#[export] Instance file_exhaustive : ExhaustiveSource FileStream.
Proof. split. intros n s _ Hn. by eexists. Qed.

(** *** JavaInputStream *)

Section Java.
(** [InputStream.read(byte[], 0, n)]: [None] for an exception or the end. *)
Context {J : Type} (read_array : Z -> J -> option (list Z) * J) (mByteArrayLength : Z).

(** One round of the loop; the locals are the bytes so far and [size]. *)
Definition java_round (st : list Z * Z) : M J (list Z * Z + list Z) :=
  let '(sofar, size) := st in
  let requested := Z.min size mByteArrayLength in
  let! chunk := (fun j => let '(r, j) := read_array requested j in (Returns r, j)) in
  match chunk with
  | None => ret (inr [])
  | Some bs =>
      let size := size - Z.of_nat (length bs) in
      if 0 <? size then ret (inl (sofar ++ bs, size)) else ret (inr (sofar ++ bs))
  end.

(** The rounds: every one delivers a byte, the first perhaps none. *)
Definition JavaInputStream_doRead (size : Z) : M J (list Z) :=
  loop (S (Z.to_nat size)) java_round ([], size).
End Java.

(** ** Streams *)

Record stream (S : Type) : Type := mkStream {
  mPeekBuffer : option (list (option Z));
  mPeekSize : Z;
  mPeekOffset : Z;
  source : S
}.
Arguments mkStream {S}.
Arguments mPeekBuffer {S}.
Arguments mPeekSize {S}.
Arguments mPeekOffset {S}.
Arguments source {S}.

Section Stream.
Context {S : Type} `{Source S}.
Abbreviation StreamM := (M (stream S)).

Definition new_stream (s : S) : stream S := mkStream None 0 0 s.

Definition set_peek (b : option (list (option Z))) (size offset : Z) (s : stream S) : stream S :=
  mkStream b size offset s.(source).

(** A call of [doRead] of the stream's own source. *)
Definition from_source {A} (m : M S A) : StreamM A := fun s =>
  let '(r, src) := m s.(source) in (r, mkStream s.(mPeekBuffer) s.(mPeekSize) s.(mPeekOffset) src).

(** [memcpy(dst, buffer + offset, n)] out of the peek buffer. *)
Definition copy_from (b : option (list (option Z))) (offset n : Z) : option (list (option Z)) :=
  match b with
  | None => if n =? 0 then Some [] else None
  | Some b => if offset + n <=? Z.of_nat (length b) then Some (take (Z.to_nat n) (drop (Z.to_nat offset) b)) else None
  end.

Definition peek (size : Z) : StreamM (list (option Z)) :=
  let! s := gets (fun s => s) in
  let peek_remaining := s.(mPeekSize) - s.(mPeekOffset) in
  (if peek_remaining <? size then
     let fresh := replicate (Z.to_nat size) None in
     let! buffer :=
       match s.(mPeekBuffer) with
       | None => ret fresh
       | Some old =>
           let! kept := of_option (copy_from (Some old) s.(mPeekOffset) peek_remaining) in
           of_option (blit fresh 0 kept)
       end in
     let! bs := from_source (doRead (size - peek_remaining)) in
     let! buffer := of_option (blit buffer s.(mPeekOffset) (Some <$> bs)) in
     modify (set_peek (Some buffer) (peek_remaining + Z.of_nat (length bs)) 0)
   else ret tt) ;;!
  let! s := gets (fun s => s) in
  let size := Z.min size (s.(mPeekSize) - s.(mPeekOffset)) in
  of_option (copy_from s.(mPeekBuffer) s.(mPeekOffset) size).

(** The part of [read] that takes bytes out of the peek buffer. *)
Definition read_peeked (size : Z) : StreamM (list (option Z)) :=
  let! s := gets (fun s => s) in
  let peek_remaining := s.(mPeekSize) - s.(mPeekOffset) in
  if negb (peek_remaining =? 0) then
    let bytes_read := Z.min size peek_remaining in
    let! bs := of_option (copy_from s.(mPeekBuffer) s.(mPeekOffset) bytes_read) in
    modify (if s.(mPeekOffset) + bytes_read =? s.(mPeekSize) then set_peek None 0 0
            else set_peek s.(mPeekBuffer) s.(mPeekSize) (s.(mPeekOffset) + bytes_read)) ;;!
    ret bs
  else ret [].

Definition read (size : Z) : StreamM (list (option Z)) :=
  let! bs := read_peeked size in
  let size := size - Z.of_nat (length bs) in
  if negb (size =? 0) then
    let! more := from_source (doRead size) in
    ret (bs ++ (Some <$> more))
  else ret bs.
End Stream.

(** ** The sources keep their laws *)

#[export] Instance memory_exhaustive : ExhaustiveSource MemoryStream.
Proof.
  split. intros n [b r] Hok Hn. unfold doRead, contents, source_ok, memory_source in *. cbn [mBuffer mRemaining] in *.
  unfold MemoryStream_doRead, bind, gets, modify, ret. cbn [mBuffer mRemaining]. rewrite (proj2 (Z.ltb_ge _ _)) by lia.
  eexists. split; [do 2 f_equal|split]; cbn [mBuffer mRemaining].
  - rewrite take_take. f_equal. lia.
  - destruct (decide (n <= r)).
    + rewrite Z.min_l by lia. rewrite skipn_firstn_comm. f_equal. lia.
    + rewrite Z.min_r, Z.sub_diag by lia. symmetry. apply drop_ge. rewrite length_take. lia.
  - rewrite length_drop. lia.
Qed.

Section JavaLaws.
Context {J : Type} (read_array : Z -> J -> option (list Z) * J) (mByteArrayLength : Z) (bytes_of : J -> list Z).

(** The contract of [InputStream.read(byte[], int, int)]: at least one byte when
    one is asked for and there is one, no more than asked for, in order; and
    an array that has room for a byte. *)
Context (Hlen : 0 < mByteArrayLength).
Context (Hread : forall n j, 0 < n -> bytes_of j <> [] ->
  exists bs j', read_array n j = (Some bs, j') /\ bytes_of j = bs ++ bytes_of j' /\ 0 < Z.of_nat (length bs) <= n).
Context (Hend : forall n j, 0 < n -> bytes_of j = [] -> exists j', read_array n j = (None, j') /\ bytes_of j' = []).

Lemma java_loop k : forall size sofar j, 0 < size -> (Z.to_nat size <= k)%nat ->
  exists j', loop (S k) (java_round read_array mByteArrayLength) (sofar, size) j =
    (Returns (if Z.of_nat (length (bytes_of j)) <? size then [] else sofar ++ take (Z.to_nat size) (bytes_of j)), j') /\
    bytes_of j' = drop (Z.to_nat size) (bytes_of j).
Proof.
  induction k as [|k IH]; intros size sofar j Hs Hk; [lia|]. cbn [loop]. unfold bind at 1, java_round at 1, bind at 1.
  set (req := Z.min size mByteArrayLength). destruct (decide (bytes_of j = [])) as [He|Hne].
  - destruct (Hend req j ltac:(lia) He) as (j' & -> & Hj'). exists j'. rewrite He. cbn [length].
    rewrite (proj2 (Z.ltb_lt _ _)) by lia. split; [done|]. by rewrite Hj', drop_nil.
  - destruct (Hread req j ltac:(lia) Hne) as (bs & j1 & -> & Hj & Hbs). rewrite Hj.
    destruct (Z.ltb_spec 0 (size - Z.of_nat (length bs))) as [Hlt|Hge].
    + destruct (IH (size - Z.of_nat (length bs)) (sofar ++ bs) j1) as (j' & Hrun & Hj'); [lia|lia|].
      unfold ret at 1. cbn [loop] in Hrun |- *. rewrite Hrun. exists j'. split.
      * do 2 f_equal. rewrite length_app.
        destruct (Z.ltb_spec (Z.of_nat (length (bytes_of j1))) (size - Z.of_nat (length bs))), (Z.ltb_spec (Z.of_nat (length bs + length (bytes_of j1))) size); try lia; [done|].
        rewrite <- app_assoc. f_equal. rewrite take_app. f_equal; [rewrite take_ge by lia; done|]. f_equal. lia.
      * rewrite Hj', drop_app, (drop_ge bs) by lia. cbn. f_equal. lia.
    + assert (size = Z.of_nat (length bs)) as -> by lia. exists j1. rewrite length_app. rewrite (proj2 (Z.ltb_ge _ _)) by lia.
      rewrite Nat2Z.id, take_app_length, drop_app_length. done.
Qed.

(** What [doRead] does with a Java stream: with too few bytes left it reports
    none at all, and those it read are gone. *)
Lemma java_doRead_run n j : 0 < n ->
  exists j', JavaInputStream_doRead read_array mByteArrayLength n j =
    (Returns (if Z.of_nat (length (bytes_of j)) <? n then [] else take (Z.to_nat n) (bytes_of j)), j') /\
    bytes_of j' = drop (Z.to_nat n) (bytes_of j).
Proof. intros Hn. apply (java_loop (Z.to_nat n) n [] j); [done|lia]. Qed.

Definition java_source : Source J :=
  {| doRead := JavaInputStream_doRead read_array mByteArrayLength; contents := bytes_of; source_ok _ := True |}.

Lemma java_laws : @SourceLaws J java_source.
Proof.
  split. intros n j _ Hn. destruct (java_doRead_run n j) as (j' & Hrun & Hj'); [lia|]. exists j'. split; [|done].
  cbn [doRead contents java_source] in *. rewrite Hrun. by rewrite (proj2 (Z.ltb_ge _ _)) by lia.
Qed.
End JavaLaws.

(** ** The stream delivers the bytes of its source *)

(** The bytes that were peeked at and not read yet. *)
Definition peeked {S} (s : stream S) (bs : list Z) : Prop :=
  match s.(mPeekBuffer) with
  | None => bs = [] /\ s.(mPeekSize) = 0 /\ s.(mPeekOffset) = 0
  | Some b =>
      0 <= s.(mPeekOffset) /\ s.(mPeekSize) - s.(mPeekOffset) = Z.of_nat (length bs) /\
      take (length bs) (drop (Z.to_nat s.(mPeekOffset)) b) = Some <$> bs /\ (bs = [] -> s.(mPeekOffset) = 0)
  end.

(** The stream has [l] still to deliver. *)
Definition delivers {S} `{Source S} (s : stream S) (l : list Z) : Prop :=
  source_ok s.(source) /\ exists bs, peeked s bs /\ l = bs ++ contents s.(source).

Lemma delivers_new {S} `{Source S} (s : S) : source_ok s -> delivers (new_stream s) (contents s).
Proof. intros Hok. split; [done|]. by exists []. Qed.

Section StreamLaws.
Context {S : Type} `{SourceLaws S}.
Implicit Types (s : stream S) (bs l : list Z).

(** What can be read: what is left, or anything from a source that says how
    much is left. *)
Definition readable (n : Z) l : Prop := n <= Z.of_nat (length l) \/ ExhaustiveSource S.

Lemma source_read n (src : S) : source_ok src -> 0 < n -> readable n (contents src) ->
  exists src', doRead n src = (Returns (take (Z.to_nat n) (contents src)), src') /\
    contents src' = drop (Z.to_nat n) (contents src) /\ source_ok src'.
Proof. intros Hok Hn [Hr|Hr]; [apply doRead_enough; [done|lia]|by apply doRead_all]. Qed.

Lemma peeked_length s bs : peeked s bs -> s.(mPeekSize) - s.(mPeekOffset) = Z.of_nat (length bs).
Proof. unfold peeked. destruct (mPeekBuffer s); [by intros (_ & ? & _)|]. intros (-> & -> & ->). done. Qed.

Lemma peeked_copy s bs n : peeked s bs -> 0 <= n <= Z.of_nat (length bs) ->
  copy_from s.(mPeekBuffer) s.(mPeekOffset) n = Some (Some <$> take (Z.to_nat n) bs).
Proof.
  unfold peeked, copy_from. destruct (mPeekBuffer s) as [b|].
  - intros (Ho & Hl & Hb & He) Hn. assert (length (take (length bs) (drop (Z.to_nat (mPeekOffset s)) b)) = length bs) as Hlen
      by (by rewrite Hb, length_fmap). rewrite length_take, length_drop in Hlen.
    assert (mPeekOffset s + n <= Z.of_nat (length b)) as Hroom by (destruct bs; cbn [length] in *; [rewrite He by done|]; lia).
    rewrite (proj2 (Z.leb_le _ _)) by done. f_equal. rewrite fmap_take, <- Hb, take_take. f_equal. lia.
  - intros (-> & _ & _) Hn. cbn in Hn. assert (n = 0) as -> by lia. done.
Qed.

Lemma read_peeked_run n s bs : peeked s bs -> 0 <= n ->
  exists s', read_peeked n s = (Returns (Some <$> take (Z.to_nat n) bs), s') /\ s'.(source) = s.(source) /\
    peeked s' (drop (Z.to_nat n) bs).
Proof.
  intros Hbs Hn. pose proof (peeked_length s bs Hbs) as Hrem. unfold read_peeked, bind at 1, gets. rewrite Hrem.
  destruct (Z.eqb_spec (Z.of_nat (length bs)) 0) as [Hz|Hz]; cbn [negb].
  - destruct bs; [|done]. exists s. by rewrite take_nil, drop_nil.
  - cbv zeta. set (k := Z.min n (Z.of_nat (length bs))). rewrite (peeked_copy s bs) by (done || lia).
    unfold of_option, bind, modify, ret. eexists. split; [|split].
    + do 3 f_equal. destruct (decide (n <= Z.of_nat (length bs))); [f_equal; lia|rewrite !take_ge by lia; done].
    + by destruct (_ =? _).
    + unfold peeked in Hbs. destruct (mPeekBuffer s) as [b|] eqn:Eb; [|by destruct Hbs as (-> & _)].
      destruct Hbs as (Ho & _ & Hb & _). destruct (Z.eqb_spec (mPeekOffset s + k) (mPeekSize s)).
      * unfold peeked. cbn. split; [|done]. apply drop_ge. lia.
      * unfold peeked. cbn [mPeekBuffer mPeekOffset mPeekSize set_peek]. rewrite length_drop.
        split; [lia|]. split; [lia|]. split.
        -- rewrite fmap_drop, <- Hb, skipn_firstn_comm, drop_drop. do 2 f_equal. lia.
        -- intros Hd. apply (f_equal length) in Hd. rewrite length_drop in Hd. cbn in Hd. lia.
Qed.

(** [read] delivers the next bytes. *)
Lemma read_delivers n s l : delivers s l -> 0 <= n -> readable n l ->
  exists s', read n s = (Returns (Some <$> take (Z.to_nat n) l), s') /\ delivers s' (drop (Z.to_nat n) l).
Proof.
  intros (Hok & bs & Hbs & ->) Hn Hr. unfold read, bind at 1.
  destruct (read_peeked_run n s bs Hbs Hn) as (s1 & -> & Hsrc & Hp1).
  rewrite length_fmap, length_take, take_app, drop_app. set (k := n - Z.of_nat (Z.to_nat n `min` length bs)).
  destruct (Z.eqb_spec k 0) as [Hz|Hz]; cbn [negb].
  - exists s1. replace (Z.to_nat n - length bs)%nat with 0%nat by lia. rewrite take_0, drop_0, app_nil_r.
    split; [done|]. split; [by rewrite Hsrc|]. exists (drop (Z.to_nat n) bs). by rewrite Hsrc.
  - assert (0 < k) as Hk by lia. destruct (source_read k s1.(source)) as (src' & Hrun & Hc & Hok'); [by rewrite Hsrc|done| |].
    { destruct Hr as [Hr|Hr]; [left|by right]. rewrite length_app in Hr. rewrite Hsrc. lia. }
    unfold bind, from_source. rewrite Hrun, Hsrc in *. unfold ret.
    exists (mkStream s1.(mPeekBuffer) s1.(mPeekSize) s1.(mPeekOffset) src'). split; [|split; [done|]].
    + rewrite fmap_app. replace (Z.to_nat k) with (Z.to_nat n - length bs)%nat by lia. done.
    + exists (drop (Z.to_nat n) bs). split; [exact Hp1|]. cbn [source]. rewrite Hc. do 2 f_equal. lia.
Qed.

Lemma blit_at {A} (vs l : list A) i : 0 <= i -> i + Z.of_nat (length vs) <= Z.of_nat (length l) ->
  exists l' : list A, blit l i vs = Some l' /\ length l' = length l /\ take (length vs) (drop (Z.to_nat i) l') = vs /\
    forall j, ~ i <= Z.of_nat j < i + Z.of_nat (length vs) -> l' !! j = l !! j.
Proof.
  intros Hi Hl. destruct (blit_spec vs l i Hi Hl) as (l' & Hb & Hlen & Hlk). exists l'. split; [done|]. split; [done|]. split.
  - apply list_eq. intros j. destruct (decide (j < length vs)%nat).
    + rewrite lookup_take_lt by done. rewrite lookup_drop, Hlk, decide_True by lia. f_equal. lia.
    + rewrite !lookup_ge_None_2; [done|lia|rewrite length_take; lia].
  - intros j Hj. by rewrite Hlk, decide_False.
Qed.

(** [peek] is right as long as it does not have to extend what it has. *)
Lemma peek_delivers n s bs : let l := bs ++ contents s.(source) in
  source_ok s.(source) -> peeked s bs -> 0 <= n -> n <= Z.of_nat (length bs) \/ bs = [] -> readable n l ->
  exists s', peek n s = (Returns (Some <$> take (Z.to_nat n) l), s') /\ delivers s' l.
Proof.
  intros l Hok Hbs Hn Hcase Hr. pose proof (peeked_length s bs Hbs) as Hrem.
  unfold peek, bind at 1, gets. rewrite Hrem. destruct (Z.ltb_spec (Z.of_nat (length bs)) n) as [Hlt|Hge].
  - destruct Hcase as [Hcase| ->]; [lia|]. change (Z.of_nat (length [])) with 0 in *. subst l. cbn [app] in *.
    assert (mPeekOffset s = 0) as Ho by (unfold peeked in Hbs; destruct (mPeekBuffer s); [by apply Hbs|by destruct Hbs as (_ & _ & ?)]).
    destruct (source_read n s.(source)) as (src' & Hrun & Hc & Hok'); [done|lia|done|]. rewrite Z.sub_0_r in *. rewrite Ho.
    set (ds := take (Z.to_nat n) (contents (source s))) in *. set (fresh := replicate (Z.to_nat n) None).
    destruct (blit_at (Some <$> ds) fresh 0) as (b' & Hb' & Hlen & Htake & _).
    { lia. } { unfold fresh, ds. rewrite length_fmap, length_replicate, length_take. lia. }
    assert (Z.of_nat (length ds) <= n) as Hds by (unfold ds; rewrite length_take; lia).
    exists (mkStream (Some b') (0 + Z.of_nat (length ds)) 0 src').
    assert (peeked (mkStream (Some b') (0 + Z.of_nat (length ds)) 0 src') ds) as Hp.
    { split; [done|]. split; [cbn; lia|]. split; [|done]. by rewrite length_fmap in Htake. }
    split; [|split; [done|]; exists ds; split; [exact Hp|]; cbn [source]; unfold ds; by rewrite Hc, take_drop].
    assert (match mPeekBuffer s with Some old => let! kept := of_option (copy_from (Some old) 0 0) in of_option (blit fresh 0 kept)
      | None => ret fresh end s = (Returns fresh, s)) as E1.
    { destruct (mPeekBuffer s) as [old|]; [|done]. cbn [copy_from]. rewrite (proj2 (Z.leb_le _ _)) by lia. done. }
    match type of E1 with ?m s = _ => set (start := m) in *; clearbody start end.
    unfold bind. rewrite E1. unfold from_source. rewrite Hrun. unfold of_option, ret, modify. rewrite Hb'.
    cbn [mPeekSize mPeekOffset mPeekBuffer set_peek source]. rewrite Z.sub_0_r, Z.min_r by lia.
    pose proof (peeked_copy _ _ (0 + Z.of_nat (length ds)) Hp) as Hcopy. cbn [mPeekBuffer mPeekOffset] in Hcopy.
    rewrite Hcopy by lia. do 2 f_equal. rewrite take_ge by lia. done.
  - unfold bind, ret. rewrite Hrem, Z.min_l by lia. rewrite (peeked_copy s bs) by done. exists s. split.
    + cbn [of_option]. unfold ret. do 3 f_equal. subst l. rewrite take_app_le by lia. done.
    + split; [done|]. by exists bs.
Qed.

Lemma blit_room {A} (vs : list A) : forall (l l' : list A) i, 0 <= i -> vs <> [] -> blit l i vs = Some l' ->
  i + Z.of_nat (length vs) <= Z.of_nat (length l).
Proof.
  induction vs as [|v vs IH]; intros l l' i Hi Hne Hb; [done|]. cbn [blit length] in *.
  destruct (aset l i v) as [l1|] eqn:E; [|done]. apply aset_inv in E as [Hr ->]. destruct vs as [|v' vs]; [cbn; lia|].
  apply IH in Hb; [|lia|done]. rewrite length_insert in Hb. cbn [length] in *. lia.
Qed.

(** The bytes a longer peek takes from the source go to the offset of the old
    buffer, not behind the bytes that were left in it. *)
Lemma peek_again n s bs : let l := contents s.(source) in let k := n - Z.of_nat (length bs) in
  source_ok s.(source) -> peeked s bs -> 0 < Z.of_nat (length bs) < n -> k <= Z.of_nat (length l) ->
  if s.(mPeekOffset) <=? Z.of_nat (length bs) then
    exists out s', peek n s = (Returns out, s') /\ Z.of_nat (length out) = n /\
      take (Z.to_nat k) (drop (Z.to_nat s.(mPeekOffset)) out) = Some <$> take (Z.to_nat k) l
  else (peek n s).1 = Stuck.
Proof.
  intros l k Hok Hbs Hn Hl. pose proof (peeked_length s bs Hbs) as Hrem.
  destruct (source_read k s.(source)) as (src' & Hrun & _ & _); [done|lia|by left|].
  assert (0 <= mPeekOffset s /\ is_Some (mPeekBuffer s)) as [Ho [old Hold]].
  { unfold peeked in Hbs. destruct (mPeekBuffer s); [by destruct Hbs|]. destruct Hbs as (-> & _). cbn in Hn. lia. }
  pose proof (peeked_copy s bs (Z.of_nat (length bs)) Hbs ltac:(lia)) as Hcopy. rewrite Hold, Nat2Z.id, take_ge in Hcopy by done.
  set (fresh := replicate (Z.to_nat n) (@None Z)).
  destruct (blit_at (Some <$> bs) fresh 0) as (b1 & Hb1 & Hl1 & _); [lia|unfold fresh; rewrite length_fmap, length_replicate; lia|].
  unfold fresh in Hl1. rewrite length_replicate in Hl1.
  assert (length (Some <$> take (Z.to_nat k) l) = Z.to_nat k) as Hlk by (rewrite length_fmap, length_take; lia).
  unfold peek, bind, gets. rewrite Hrem. rewrite (proj2 (Z.ltb_lt _ _)) by lia. rewrite Hold. fold k fresh.
  unfold of_option, ret. rewrite Hcopy, Hb1. unfold from_source. rewrite Hrun. fold l. unfold modify.
  destruct (Z.leb_spec (mPeekOffset s) (Z.of_nat (length bs))) as [Hle|Hgt].
  - destruct (blit_at (Some <$> take (Z.to_nat k) l) b1 (mPeekOffset s)) as (b2 & Hb2 & Hl2 & Htake & _); [done|lia|].
    rewrite Hb2. cbn [mPeekSize mPeekOffset mPeekBuffer set_peek source copy_from].
    rewrite length_take. rewrite (proj2 (Z.leb_le _ _)) by lia. eexists _, _. split; [done|].
    cbn [Z.to_nat]. rewrite drop_0, take_ge by lia. split; [lia|]. by rewrite Hlk in Htake.
  - destruct (blit b1 (mPeekOffset s) (Some <$> take (Z.to_nat k) l)) as [b2|] eqn:E; [|done].
    apply blit_room in E; [lia|done|]. intros Hnil. rewrite Hnil in Hlk. cbn in Hlk. lia.
Qed.
End StreamLaws.

(** ** Registry (Registry.cpp) and FrameSequence::create (FrameSequence.cpp) *)

Record RegistryEntry (S F : Type) : Type := mkRegistryEntry {
  requiredHeaderBytes : Z;
  checkHeader : list (option Z) -> Z -> bool;
  createFrameSequence : M (stream S) F;
  acceptsBuffer : bool
}.
Arguments mkRegistryEntry {S F}.
Arguments requiredHeaderBytes {S F}.
Arguments checkHeader {S F}.
Arguments createFrameSequence {S F}.
Arguments acceptsBuffer {S F}.

(** The list from [gHead] on, and [gHeaderBytesRequired]. *)
Record Registry (S F : Type) : Type := mkRegistry {
  gHead : list (RegistryEntry S F);
  gHeaderBytesRequired : Z
}.
Arguments mkRegistry {S F}.
Arguments gHead {S F}.
Arguments gHeaderBytesRequired {S F}.

Definition no_registry {S F} : Registry S F := mkRegistry [] 0.

(** The constructor of a registration. *)
Definition add_entry {S F} (entry : RegistryEntry S F) (r : Registry S F) : Registry S F :=
  mkRegistry (entry :: r.(gHead))
    (if r.(gHeaderBytesRequired) <? entry.(requiredHeaderBytes) then entry.(requiredHeaderBytes) else r.(gHeaderBytesRequired)).

(** [Registry::Find]; [raw]: the stream has a raw buffer. *)
Definition Find {S F} `{Source S} (r : Registry S F) (raw : bool) : M (stream S) (option (RegistryEntry S F)) :=
  if raw then ret (find (fun e => e.(acceptsBuffer)) r.(gHead))
  else
    let! header := peek r.(gHeaderBytesRequired) in
    let headerSize := Z.of_nat (length header) in
    ret (find (fun e => (e.(requiredHeaderBytes) <=? headerSize) && e.(checkHeader) header headerSize) r.(gHead)).

Section Create.
Context {S F : Type} `{Source S} (frameCount width height : F -> Z) (delete : F -> M (stream S) unit).

(** [FrameSequence::create]; a sequence without frames or pixels is deleted. *)
Definition create (r : Registry S F) (raw : bool) : M (stream S) (option F) :=
  let! entry := Find r raw in
  match entry with
  | None => ret None
  | Some entry =>
      let! frameSequence := entry.(createFrameSequence) in
      if (frameCount frameSequence =? 0) || (width frameSequence =? 0) || (height frameSequence =? 0) then
        delete frameSequence ;;! ret None
      else ret (Some frameSequence)
  end.
End Create.

(** [memcmp(s, header + from, length s) == 0] *)
Definition header_has (s : list Z) (from : nat) (header : list (option Z)) : bool :=
  bool_decide (take (length s) (drop from header) = Some <$> s).

(** "GIFVER" *)
Definition GIF_STAMP : list Z := [71; 73; 70; 86; 69; 82].

Definition isGif (header : list (option Z)) (header_size : Z) : bool :=
  header_has GIF_STAMP 0 header || header_has GIF87_STAMP 0 header || header_has GIF89_STAMP 0 header.

Definition RIFF_HEADER_SIZE := 12.
(** "RIFF", "WEBP" *)
Definition RIFF : list Z := [82; 73; 70; 70].
Definition WEBP : list Z := [87; 69; 66; 80].

Definition isWebP (header : list (option Z)) (header_size : Z) : bool :=
  (RIFF_HEADER_SIZE <=? header_size) && header_has RIFF 0 header && header_has WEBP 8 header.

Definition gif_entry {S F} (createFramesequence : M (stream S) F) : RegistryEntry S F :=
  mkRegistryEntry GIF_STAMP_LEN isGif createFramesequence false.

Definition webp_entry {S F} (createFramesequence : M (stream S) F) : RegistryEntry S F :=
  mkRegistryEntry RIFF_HEADER_SIZE isWebP createFramesequence true.

(** ** The theorems *)

(** C23. A stream over a lawful source, whatever was peeked at before, is the
    input of the decoder, where the source has all the bytes that are asked
    for left or, asked for more, delivers all it has left ([readable]): [read]
    delivers the bytes that [READ] takes from the list of the bytes of the
    file, and leaves the same rest. The streams over memory and files are
    exhaustive in this sense; the Java one delivers nothing when less than
    what is asked for is left ([java_short_read_lost]). *)
Theorem stream_refines_input S `{SourceLaws S} n (s : stream S) (g : GifFileType) :
  delivers s g.(In) -> 0 <= n -> readable (S := S) n g.(In) ->
  exists bs s' g', READ n g = (Returns bs, g') /\ read n s = (Returns (Some <$> bs), s') /\ delivers s' g'.(In).
Proof.
  intros Hs Hn Hr. destruct (read_delivers n s (In g) Hs Hn Hr) as (s' & Hrun & Hs').
  eexists _, s', _. split; [reflexivity|]. by split.
Qed.

(** A second, longer [peek] before the first one was read: the bytes it takes
    from the source go to the offset of the old buffer instead of behind the
    bytes that are left in it, over them when nothing was read in between, and
    past the end of the new buffer when more was read than is left. *)
Theorem second_peek_misplaced S `{SourceLaws S} n (s : stream S) bs :
  let l := contents s.(source) in let k := n - Z.of_nat (length bs) in
  source_ok s.(source) -> peeked s bs -> 0 < Z.of_nat (length bs) < n -> k <= Z.of_nat (length l) ->
  if s.(mPeekOffset) <=? Z.of_nat (length bs) then
    exists out s', peek n s = (Returns out, s') /\ Z.of_nat (length out) = n /\
      take (Z.to_nat k) (drop (Z.to_nat s.(mPeekOffset)) out) = Some <$> take (Z.to_nat k) l
  else (peek n s).1 = Stuck.
Proof. apply peek_again. Qed.

(** A Java stream that ends within a call of [doRead] loses the bytes the
    call had read: it reports none.  The loop ends for every stream that keeps
    the contract of [InputStream.read]. *)
Theorem java_short_read_lost J (read_array : Z -> J -> option (list Z) * J) mByteArrayLength (bytes_of : J -> list Z) n j :
  0 < mByteArrayLength ->
  (forall n j, 0 < n -> bytes_of j <> [] ->
    exists bs j', read_array n j = (Some bs, j') /\ bytes_of j = bs ++ bytes_of j' /\ 0 < Z.of_nat (length bs) <= n) ->
  (forall n j, 0 < n -> bytes_of j = [] -> exists j', read_array n j = (None, j') /\ bytes_of j' = []) ->
  0 < n ->
  exists j', JavaInputStream_doRead read_array mByteArrayLength n j =
    (Returns (if Z.of_nat (length (bytes_of j)) <? n then [] else take (Z.to_nat n) (bytes_of j)), j') /\
    bytes_of j' = drop (Z.to_nat n) (bytes_of j).
Proof. intros H1 H2 H3 H4. by apply java_doRead_run. Qed.

(** The two formats, in either order of their static initialisers. *)
Definition formats {S F} (gif webp : M (stream S) F) (gif_first : bool) : Registry S F :=
  if gif_first then add_entry (webp_entry webp) (add_entry (gif_entry gif) no_registry)
  else add_entry (gif_entry gif) (add_entry (webp_entry webp) no_registry).

Definition is_gif_file (l : list Z) : bool :=
  bool_decide (take 6 l = GIF_STAMP) || bool_decide (take 6 l = GIF87_STAMP) || bool_decide (take 6 l = GIF89_STAMP).
Definition is_webp_file (l : list Z) : bool :=
  (12 <=? Z.of_nat (length l)) && bool_decide (take 4 l = RIFF) && bool_decide (take 4 (drop 8 l) = WEBP).

Lemma header_has_take s from l : (from + length s <= 12)%nat ->
  header_has s from (Some <$> take 12 l) = bool_decide (take (length s) (drop from l) = s).
Proof.
  intros Hlen. unfold header_has. apply bool_decide_ext. rewrite <- fmap_drop, <- fmap_take.
  rewrite skipn_firstn_comm, take_take, Nat.min_l by lia. split; [|by intros ->].
  intros Heq. by apply (inj (fmap Some)) in Heq.
Qed.

Lemma gif_header l : let header := Some <$> take 12 l in let size := Z.of_nat (length header) in
  (GIF_STAMP_LEN <=? size) && isGif header size = is_gif_file l.
Proof.
  intros header size. unfold isGif, is_gif_file, header. rewrite !header_has_take by (cbn; lia). rewrite !drop_0.
  change (length GIF_STAMP) with 6%nat. change (length GIF87_STAMP) with 6%nat. change (length GIF89_STAMP) with 6%nat.
  destruct (Z.leb_spec GIF_STAMP_LEN size) as [_|Hlt]; [done|]. symmetry. rewrite !orb_false_iff, !bool_decide_eq_false.
  unfold size, header, GIF_STAMP_LEN in Hlt. rewrite length_fmap, length_take in Hlt.
  repeat split; intros Heq; apply (f_equal length) in Heq; rewrite length_take in Heq; change (6 `min` length l = 6)%nat in Heq; lia.
Qed.

Lemma webp_header l : let header := Some <$> take 12 l in let size := Z.of_nat (length header) in
  (RIFF_HEADER_SIZE <=? size) && isWebP header size = is_webp_file l.
Proof.
  intros header size. unfold isWebP, is_webp_file, header. rewrite !header_has_take by (cbn; lia). rewrite drop_0.
  assert ((RIFF_HEADER_SIZE <=? size) = (12 <=? Z.of_nat (length l))) as ->.
  { unfold size, header, RIFF_HEADER_SIZE. rewrite length_fmap, length_take.
    destruct (Z.leb_spec 12 (Z.of_nat (length l))); [apply Z.leb_le|apply Z.leb_gt]; lia. }
  by destruct (12 <=? _).
Qed.

Lemma gif_not_webp l : is_gif_file l = true -> is_webp_file l = false.
Proof.
  unfold is_gif_file, is_webp_file. rewrite !orb_true_iff, !bool_decide_eq_true. intros Hg.
  rewrite (bool_decide_eq_false_2 (take 4 l = RIFF)); [by rewrite andb_false_r|]. intros Hr.
  assert (take 4 (take 6 l) = RIFF) as Hr' by (by rewrite take_take). by destruct Hg as [[Hg|Hg]|Hg]; rewrite Hg in Hr'.
Qed.

Lemma find_format {S F} `{SourceLaws S} (gif webp : M (stream S) F) gif_first s :
  let l := contents s in source_ok s -> readable (S := S) 12 l ->
  exists s', Find (formats gif webp gif_first) false (new_stream s)
      = (Returns (if is_gif_file l then Some (gif_entry gif) else if is_webp_file l then Some (webp_entry webp) else None), s') /\
    delivers s' l.
Proof.
  intros l Hok Hr. destruct (peek_delivers 12 (new_stream s) []) as (s' & Hpeek & Hs'); [done|done|lia|by right|done|].
  exists s'. split; [|exact Hs'].
  assert (gHeaderBytesRequired (formats gif webp gif_first) = 12) as Hreq by (by destruct gif_first).
  unfold Find, bind. rewrite Hreq, Hpeek. unfold ret. do 2 f_equal. cbn [app source new_stream]. fold l.
  pose proof (gif_header l) as Hgif. pose proof (webp_header l) as Hwebp. pose proof (gif_not_webp l) as Hnot. cbv zeta in *.
  change (Z.to_nat 12) with 12%nat. destruct gif_first; unfold formats; cbn [find gHead add_entry no_registry];
    cbn [requiredHeaderBytes checkHeader gif_entry webp_entry]; rewrite Hgif, Hwebp;
    destruct (is_gif_file l), (is_webp_file l); try done; by specialize (Hnot eq_refl).
Qed.

(** The registry finds the format of a stream by its first bytes, in
    whichever order the formats were registered, and the stream delivers all of
    its bytes afterwards. *)
Theorem find_by_header S F `{SourceLaws S} (gif webp : M (stream S) F) gif_first s :
  let l := contents s in source_ok s -> readable (S := S) 12 l ->
  exists s', Find (formats gif webp gif_first) false (new_stream s)
      = (Returns (if is_gif_file l then Some (gif_entry gif) else if is_webp_file l then Some (webp_entry webp) else None), s') /\
    delivers s' l.
Proof. apply find_format. Qed.

(** *** Witnesses *)

Definition six : MemoryStream := mkMemoryStream [1; 2; 3; 4; 5; 6] 6.

(** Peeked at three bytes, none of them read. *)
Definition peeked_six : stream MemoryStream := (peek 3 (new_stream six)).2.

Lemma stream_refines_input_witness :
  delivers peeked_six [1; 2; 3; 4; 5; 6] /\
  exists bs s' g', READ 4 (fresh_gif [1; 2; 3; 4; 5; 6] []) = (Returns bs, g') /\
    read 4 peeked_six = (Returns (Some <$> bs), s') /\ delivers s' g'.(In).
Proof.
  assert (delivers peeked_six [1; 2; 3; 4; 5; 6]) as Hd.
  { split; [by vm_compute|]. exists [1; 2; 3]. split; [|done]. split; [by vm_compute|]. split; [done|]. by split. }
  split; [exact Hd|]. apply (stream_refines_input MemoryStream 4 peeked_six (fresh_gif [1; 2; 3; 4; 5; 6] [])).
  - exact Hd.
  - lia.
  - left. cbn. lia.
Defined.

Lemma second_peek_misplaced_witness :
  peeked peeked_six [1; 2; 3] /\
  (if peeked_six.(mPeekOffset) <=? 3 then
     exists out s', peek 6 peeked_six = (Returns out, s') /\ Z.of_nat (length out) = 6 /\
       take 3 (drop (Z.to_nat peeked_six.(mPeekOffset)) out) = Some <$> take 3 (contents peeked_six.(source))
   else (peek 6 peeked_six).1 = Stuck) /\
  (peek 6 peeked_six).1 = Returns [Some 4; Some 5; Some 6; None; None; None] /\
  (peek 3 (read 2 peeked_six).2).1 = Stuck.
Proof.
  assert (peeked peeked_six [1; 2; 3]) as Hp by (split; [by vm_compute|]; split; [done|]; by split).
  split; [exact Hp|]. split; [|split; by vm_compute].
  apply (second_peek_misplaced MemoryStream 6 peeked_six [1; 2; 3]).
  - by vm_compute.
  - exact Hp.
  - by vm_compute.
  - by vm_compute.
Defined.

(** A stream that gives two bytes at a time. *)
Definition read_two (n : Z) (j : list Z) : option (list Z) * list Z :=
  let k := Z.to_nat (Z.min n 2) in
  match j with [] => (None, []) | _ => (Some (take k j), drop k j) end.

Lemma java_short_read_lost_witness :
  (exists j', JavaInputStream_doRead read_two 256 4 [1; 2; 3] =
    (Returns (if Z.of_nat (length [1; 2; 3]) <? 4 then [] else take (Z.to_nat 4) [1; 2; 3]), j') /\
    j' = drop (Z.to_nat 4) [1; 2; 3]) /\
  (JavaInputStream_doRead read_two 256 4 [1; 2; 3]).1 = Returns [].
Proof.
  split; [|by vm_compute].
  apply (java_short_read_lost (list Z) read_two 256 (fun j => j) 4 [1; 2; 3]).
  - lia.
  - intros n j Hn Hj. destruct j as [|b j]; [done|]. eexists _, _. split; [reflexivity|]. split; [by rewrite take_drop|].
    rewrite length_take. cbn [length]. lia.
  - intros n j Hn ->. by exists [].
  - lia.
Defined.

Definition gif_stream : MemoryStream := mkMemoryStream (GIF89_STAMP ++ replicate 8 0) 14.

Lemma find_by_header_witness :
  exists s', Find (F := Z) (formats (ret 1) (ret 2) true) false (new_stream gif_stream)
      = (Returns (if is_gif_file (contents gif_stream) then Some (gif_entry (ret 1))
                  else if is_webp_file (contents gif_stream) then Some (webp_entry (ret 2)) else None), s') /\
    delivers s' (contents gif_stream) /\ is_gif_file (contents gif_stream) = true.
Proof.
  destruct (find_by_header MemoryStream Z (ret 1) (ret 2) true gif_stream) as (s' & H1 & H2).
  - by vm_compute.
  - left. by vm_compute.
  - exists s'. split; [exact H1|]. split; [exact H2|]. by vm_compute.
Defined.
