(* ===== verification/WebP.v ===== *)
(** * libframesequence: animated WebP files (FrameSequence_webp.cpp)

    A sequence over the demuxer and the decoder of libwebp, which are an
    interface ([Demux]; WebPDraw.v has its documented behaviour).  The
    state draws frames alternately into the caller's bitmap and into a buffer
    of its own; both are parts of one state and the pointers to them are
    [view]s, so that two pointers to the same pixels are one. *)

From stdpp Require Import base numbers list list_numbers.
From Stdlib Require Import Lia ZArith.
From S2P Require Import Prelude GifTypes GifDecode FrameSequence Stream.

#[local] Open Scope Z_scope.
#[local] Open Scope c_scope.

(** ** libwebp *)

Inductive WebPMuxAnimDispose : Type := WEBP_MUX_DISPOSE_NONE | WEBP_MUX_DISPOSE_BACKGROUND.
Inductive WebPMuxAnimBlend : Type := WEBP_MUX_BLEND | WEBP_MUX_NO_BLEND.
Inductive WebPFormatFeature : Type :=
  WEBP_FF_FORMAT_FLAGS | WEBP_FF_CANVAS_WIDTH | WEBP_FF_CANVAS_HEIGHT | WEBP_FF_LOOP_COUNT | WEBP_FF_FRAME_COUNT.

#[export] Instance dispose_eq_dec : EqDecision WebPMuxAnimDispose.
Proof. solve_decision. Defined.
#[export] Instance blend_eq_dec : EqDecision WebPMuxAnimBlend.
Proof. solve_decision. Defined.

Record WebPIterator (F : Type) : Type := mkIterator {
  frame_num : Z;
  x_offset : Z;
  y_offset : Z;
  width : Z;
  height : Z;
  duration : Z;
  dispose_method : WebPMuxAnimDispose;
  has_alpha : bool;
  blend_method : WebPMuxAnimBlend;
  fragment : F
}.
Arguments mkIterator {F}.
Arguments frame_num {F}.
Arguments x_offset {F}.
Arguments y_offset {F}.
Arguments width {F}.
Arguments height {F}.
Arguments duration {F}.
Arguments dispose_method {F}.
Arguments has_alpha {F}.
Arguments blend_method {F}.
Arguments fragment {F}.

(** The calls of libwebp: [WebPDemuxGetFrame] is [None] when it fails;
    [WebPDecode] says whether it succeeds and which rows it has written. *)
Class Demux (D F : Type) : Type := {
  WebPDemux : list Z -> option D;
  WebPDemuxGetI : D -> WebPFormatFeature -> Z;
  WebPDemuxGetFrame : D -> Z -> option (WebPIterator F);
  WebPDecode : F -> bool * list (list Z)
}.

Definition TAG_SIZE : nat := 4.
Definition CHUNK_HEADER_SIZE := 8.
Definition MAX_CHUNK_PAYLOAD := 0xffffffff - CHUNK_HEADER_SIZE - 1.
Definition ALPHA_FLAG := 0x10.

Section WebP.
Context {D F : Type} {DX : Demux D F}.

(** [mBytes]: [mData.bytes], [None] while it is not initialised. *)
Record FrameSequence_webp : Type := mkFrameSequence_webp {
  mBytes : option (list Z);
  mDemux : option D;
  mLoopCount : Z;
  mFormatFlags : Z;
  mIsKeyFrame : list bool;
  mRawByteBuffer : bool
}.

Definition webp_get (fs : FrameSequence_webp) (f : WebPFormatFeature) : Z :=
  match fs.(mDemux) with None => 0 | Some d => WebPDemuxGetI d f end.
Definition webp_getWidth fs := webp_get fs WEBP_FF_CANVAS_WIDTH.
Definition webp_getHeight fs := webp_get fs WEBP_FF_CANVAS_HEIGHT.
Definition webp_getFrameCount fs := webp_get fs WEBP_FF_FRAME_COUNT.
Definition webp_isOpaque (fs : FrameSequence_webp) : bool := negb (test fs.(mFormatFlags) ALPHA_FLAG).

(** ** Key frames *)

Definition isFullFrame (frame : WebPIterator F) (canvasWidth canvasHeight : Z) : bool :=
  (frame.(width) =? canvasWidth) && (frame.(height) =? canvasHeight).

(** One round of the loop; its locals are the array and [curr]. *)
Definition chain_step (d : D) (canvasWidth canvasHeight : Z) (st : list bool * WebPIterator F) (i : Z) :
    option (list bool * WebPIterator F) :=
  let '(keys, prev) := st in
  match WebPDemuxGetFrame d (i + 1) with
  | None => None
  | Some curr =>
      match aget keys (i - 1) with
      | None => None
      | Some prev_key =>
          let key :=
            if (negb curr.(has_alpha) || bool_decide (curr.(blend_method) = WEBP_MUX_NO_BLEND)) &&
               isFullFrame curr canvasWidth canvasHeight then true
            else bool_decide (prev.(dispose_method) = WEBP_MUX_DISPOSE_BACKGROUND) &&
                 (isFullFrame prev canvasWidth canvasHeight || prev_key) in
          match aset keys i key with Some keys => Some (keys, curr) | None => None end
      end
  end.

Fixpoint chain (d : D) (w h : Z) (is' : list Z) (st : list bool * WebPIterator F) : option (list bool) :=
  match is' with
  | [] => Some (fst st)
  | i :: is' => match chain_step d w h st i with Some st => chain d w h is' st | None => None end
  end.

(** [None]: a frame is not there, or the file has none. *)
Definition constructDependencyChain (d : D) : option (list bool) :=
  let frameCount := WebPDemuxGetI d WEBP_FF_FRAME_COUNT in
  match WebPDemuxGetFrame d 1, aset (replicate (Z.to_nat frameCount) false) 0 true with
  | Some curr, Some keys =>
      chain d (WebPDemuxGetI d WEBP_FF_CANVAS_WIDTH) (WebPDemuxGetI d WEBP_FF_CANVAS_HEIGHT)
        (seqZ 1 (frameCount - 1)) (keys, curr)
  | _, _ => None
  end.

(** ** The constructor *)

Section Construct.
Context {S : Type} `{Source S}.

(** [GetLE32(data)] *)
Definition GetLE32 (data : list Z) : option Z :=
  match data with
  | b0 :: b1 :: b2 :: b3 :: _ => Some (Z.lor (Z.lor b0 (Z.shiftl b1 8)) (Z.lor (Z.shiftl b2 16) (Z.shiftl b3 24)))
  | _ => None
  end.

(** A sequence without a demuxer.  The members that are not initialised have
    a value here that nothing reads; [mBytes] says so of [mData.bytes]. *)
Definition failed (bytes : option (list Z)) (raw : bool) : FrameSequence_webp := mkFrameSequence_webp bytes None 0 0 [] raw.

(** The part behind the data. *)
Definition construct_demux (bytes : list Z) (raw : bool) : M (stream S) FrameSequence_webp :=
  match WebPDemux bytes with
  | None => ret (failed (Some bytes) raw)
  | Some d =>
      let! keys := of_option (constructDependencyChain d) in
      ret (mkFrameSequence_webp (Some bytes) (Some d) (WebPDemuxGetI d WEBP_FF_LOOP_COUNT)
             (WebPDemuxGetI d WEBP_FF_FORMAT_FLAGS) keys raw)
  end.

(** [raw_bytes]: the contents of the raw buffer of the stream, if it has one.
    Bytes of the stream that were never written are undefined to use. *)
Definition make_FrameSequence_webp (raw_bytes : option (list Z)) : M (stream S) FrameSequence_webp :=
  match raw_bytes with
  | Some bytes => construct_demux bytes true
  | None =>
      let! riff_header := read RIFF_HEADER_SIZE in
      if negb (Z.of_nat (length riff_header) =? RIFF_HEADER_SIZE) then ret (failed None false)
      else
        let! riff_header := of_option (mapM id riff_header) in
        let! readSize := of_option (GetLE32 (drop TAG_SIZE riff_header)) in
        if MAX_CHUNK_PAYLOAD <? readSize then ret (failed None false)
        else
          let size := u32 (CHUNK_HEADER_SIZE + readSize) in
          if size <? RIFF_HEADER_SIZE then ret (failed None false)
          else
            let remaining_size := size - RIFF_HEADER_SIZE in
            let! rest := read remaining_size in
            let! rest := of_option (mapM id rest) in
            if negb (Z.of_nat (length rest) =? remaining_size) then
              ret (failed (Some (riff_header ++ rest)) false)
            else construct_demux (riff_header ++ rest) false
  end.

(** The destructor: [delete[] mData.bytes]; a pointer that was never set is
    not one that can be deleted. *)
Definition delete_FrameSequence_webp (fs : FrameSequence_webp) : M (stream S) unit :=
  if fs.(mRawByteBuffer) then ret tt
  else match fs.(mBytes) with Some _ => ret tt | None => stuck end.
End Construct.

(** ** Drawing *)

Definition webp_willBeCleared (iter : WebPIterator F) : bool := bool_decide (iter.(dispose_method) = WEBP_MUX_DISPOSE_BACKGROUND).

Definition webp_checkIfCover (target covered : WebPIterator F) : bool :=
  (target.(x_offset) <=? covered.(x_offset)) &&
  (covered.(x_offset) + covered.(width) <=? target.(x_offset) + target.(width)) &&
  (target.(y_offset) <=? covered.(y_offset)) &&
  (covered.(y_offset) + covered.(height) <=? target.(y_offset) + target.(height)).

Definition FrameContainsPixel (frame : WebPIterator F) (x y : Z) : bool :=
  (frame.(x_offset) <=? x) && (x <? frame.(x_offset) + frame.(width)) &&
  (frame.(y_offset) <=? y) && (y <? frame.(y_offset) + frame.(height)).

(** The bitmap of the caller and the buffer of the state. *)
Record webp_state : Type := mkWebpState { output_px : list Z; preserved_px : list Z }.

(** A pointer to one of them, with its stride. *)
Inductive pixels : Type := Output | Preserved.
Record view : Type := mkView { which : pixels; stride : Z }.

#[export] Instance pixels_eq_dec : EqDecision pixels.
Proof. solve_decision. Defined.

Definition get_pixels_of (p : pixels) (s : webp_state) : list Z :=
  match p with Output => s.(output_px) | Preserved => s.(preserved_px) end.
Definition set_pixels_of (p : pixels) (l : list Z) (s : webp_state) : webp_state :=
  match p with Output => mkWebpState l s.(preserved_px) | Preserved => mkWebpState s.(output_px) l end.

Definition read_px (v : view) (i : Z) : M webp_state Z :=
  let! s := gets (get_pixels_of v.(which)) in of_option (aget s i).

(** [memcpy] of a row of colours to index [i]. *)
Definition write_line (v : view) (i : Z) (colors : list Z) : M webp_state unit :=
  let! s := gets (get_pixels_of v.(which)) in
  let! s := of_option (blit s i colors) in
  modify (set_pixels_of v.(which) s).

Definition read_line (v : view) (i n : Z) : M webp_state (list Z) :=
  let! s := gets (get_pixels_of v.(which)) in
  if (0 <=? i) && (i + n <=? Z.of_nat (length s)) then ret (take (Z.to_nat n) (drop (Z.to_nat i) s)) else stuck.

Definition clearLine (v : view) (dst n : Z) : M webp_state unit := write_line v dst (replicate (Z.to_nat n) TRANSPARENT).

Definition copyFrame (src dst : view) (w h : Z) : M webp_state unit :=
  for_each (fun y =>
    let! line := read_line src (y * src.(stride)) w in
    write_line dst (y * dst.(stride)) line) (seqZ 0 h).

Context (fs : FrameSequence_webp).

Definition isKeyFrame (frameNr : Z) : M webp_state bool := of_option (aget fs.(mIsKeyFrame) frameNr).

Definition initializeFrame (currIter : WebPIterator F) (curr : view) (prevIter : option (WebPIterator F)) (prev : view) : M webp_state unit :=
  let canvasWidth := webp_getWidth fs in
  let canvasHeight := webp_getHeight fs in
  let! key := isKeyFrame (currIter.(frame_num) - 1) in
  if key : bool then
    for_each (fun y => clearLine curr (y * curr.(stride)) canvasWidth) (seqZ 0 canvasHeight)
  else
    let! prevIter := of_option prevIter in
    copyFrame prev curr canvasWidth canvasHeight ;;!
    let prevFrameCompletelyCovered :=
      (negb currIter.(has_alpha) || bool_decide (currIter.(blend_method) = WEBP_MUX_NO_BLEND)) &&
      webp_checkIfCover currIter prevIter in
    if webp_willBeCleared prevIter && negb prevFrameCompletelyCovered then
      for_each (fun j =>
        clearLine curr (prevIter.(x_offset) + prevIter.(y_offset) * curr.(stride) + j * curr.(stride)) prevIter.(width))
        (seqZ 0 prevIter.(height))
    else ret tt.

(** One pixel of the blending: [keep_out] are the points that are left alone. *)
Definition blend_pixel (curr prev : view) (keep_out : Z -> Z -> bool) (canvasX canvasY : Z) : M webp_state unit :=
  let! currPixel := read_px curr (canvasY * curr.(stride) + canvasX) in
  if (Z.land currPixel COLOR_8888_ALPHA_MASK =? 0) && negb (keep_out canvasX canvasY) then
    let! prevPixel := read_px prev (canvasY * prev.(stride) + canvasX) in
    write_line curr (canvasY * curr.(stride) + canvasX) [prevPixel]
  else ret tt.

Definition blend_frame (currIter : WebPIterator F) (curr prev : view) (keep_out : Z -> Z -> bool) : M webp_state unit :=
  for_each (fun y =>
    for_each (fun x => blend_pixel curr prev keep_out (currIter.(x_offset) + x) (currIter.(y_offset) + y))
      (seqZ 0 currIter.(width))) (seqZ 0 currIter.(height)).

(** The rows [WebPDecode] writes from [dst] on. *)
Fixpoint write_rows (curr : view) (dst : Z) (rows : list (list Z)) : M webp_state unit :=
  match rows with
  | [] => ret tt
  | row :: rows => write_line curr dst row ;;! write_rows curr (dst + curr.(stride)) rows
  end.

Definition decodeFrame (currIter : WebPIterator F) (curr : view) (prevIter : option (WebPIterator F)) (prev : view) : M webp_state bool :=
  let '(ok, rows) := WebPDecode currIter.(fragment) in
  write_rows curr (currIter.(x_offset) + currIter.(y_offset) * curr.(stride)) rows ;;!
  if negb ok then ret false
  else
    let! key := isKeyFrame (currIter.(frame_num) - 1) in
    (if bool_decide (currIter.(blend_method) = WEBP_MUX_BLEND) && negb key then
       let! prevIter := of_option prevIter in
       blend_frame currIter curr prev
         (fun x y => if decide (prevIter.(dispose_method) = WEBP_MUX_DISPOSE_NONE) then false else FrameContainsPixel prevIter x y)
     else ret tt) ;;!
    ret true.

(** The search for the frame to start with. *)
Fixpoint find_start (n : nat) (start earliestRequired : Z) : M webp_state Z :=
  match n with
  | O => ret start
  | S n =>
      let! key := isKeyFrame earliestRequired in
      if key : bool then ret earliestRequired else find_start n start (earliestRequired - 1)
  end.

(** One round of the loop; its locals are [currIter], and the two pointers
    before they are swapped.  The result is [None] when decoding fails. *)
Definition webp_step (d : D) (frameNr : Z) (st : option (WebPIterator F) * view * view) (i : Z) :
    M webp_state (option (option (WebPIterator F) * view * view)) :=
  let '(prevIter, curr, prev) := st in
  let! currIter := of_option (WebPDemuxGetFrame d (i + 1)) in
  let '(curr, prev) := (prev, curr) in
  initializeFrame currIter curr prevIter prev ;;!
  let! ok := (if (i =? frameNr) || negb (webp_willBeCleared currIter) then decodeFrame currIter curr prevIter prev else ret true) in
  ret (if ok : bool then Some (Some currIter, curr, prev) else None).

Fixpoint webp_rounds (d : D) (frameNr : Z) (is' : list Z) (st : option (WebPIterator F) * view * view) :
    M webp_state (option view) :=
  match is' with
  | [] => ret (Some (st.1.2))
  | i :: is' =>
      let! r := webp_step d frameNr st i in
      match r with None => ret None | Some st => webp_rounds d frameNr is' st end
  end.

Definition webp_drawFrame (outputPixelStride frameNr previousFrameNr : Z) : M webp_state Z :=
  match fs.(mDemux) with
  | None => stuck
  | Some d =>
      let canvasWidth := webp_getWidth fs in
      let canvasHeight := webp_getHeight fs in
      let start := Z.max (previousFrameNr + 1) 0 in
      let! start := find_start (Z.to_nat (frameNr - start)) start frameNr in
      let prev := if frameNr =? 0 then mkView Output outputPixelStride else mkView Preserved canvasWidth in
      let curr := mkView Output outputPixelStride in
      let! r := webp_rounds d frameNr (seqZ start (frameNr - start + 1)) (WebPDemuxGetFrame d start, curr, prev) in
      match r with
      | None => ret (-1)
      | Some curr =>
          (if decide (curr.(which) = Output) then ret tt
           else copyFrame curr (mkView Output outputPixelStride) canvasWidth canvasHeight) ;;!
          let frameCount := webp_getFrameCount fs in
          if frameCount =? 0 then stuck
          else
            let lastFrame := Z.rem (frameNr + frameCount - 1) frameCount in
            let! iter := of_option (WebPDemuxGetFrame d (lastFrame + 1)) in
            ret iter.(duration)
      end
  end.
End WebP.
