(* ===== verification/WebPDraw.v ===== *)
(** * libframesequence: animated WebP files, drawn

    What libwebp documents of a file ([webp_file]); the frames a file defines
    ([shown]); and the key frames the constructor finds, which show the same
    whatever frames were drawn before. *)

From stdpp Require Import base numbers list list_numbers.
From Stdlib Require Import Lia ZArith.
From S2P Require Import Prelude GifTypes GifDecode FrameSequence Stream WebP.

#[local] Open Scope Z_scope.
#[local] Open Scope c_scope.

Definition picture : Type := Z -> Z -> Z.

(** A premultiplied pixel [p] over the pixel [c]: all of [c] where [p] is
    transparent, [p] where it is opaque, and in between each byte of [p] and the
    part of that of [c] that [p] lets through. *)
Definition byte_of (p n : Z) : Z := Z.land (Z.shiftr p n) 0xff.
Definition mixed_byte (p c n : Z) : Z := Z.shiftl (byte_of p n + byte_of c n * (255 - byte_of p 24) / 255) n.
Definition mixed (p c : Z) : Z :=
  if Z.land p COLOR_8888_ALPHA_MASK =? 0 then c
  else if Z.land p COLOR_8888_ALPHA_MASK =? COLOR_8888_ALPHA_MASK then p
  else mixed_byte p c 0 + mixed_byte p c 8 + mixed_byte p c 16 + mixed_byte p c 24.

(** A pixel that is transparent or opaque. *)
Definition sharp (p : Z) : Prop := Z.land p COLOR_8888_ALPHA_MASK = 0 \/ Z.land p COLOR_8888_ALPHA_MASK = COLOR_8888_ALPHA_MASK.

#[export] Instance sharp_dec p : Decision (sharp p).
Proof. unfold sharp. apply _. Defined.

Section Draw.
Context {D F : Type} {DX : Demux D F}.
Context (d : D) (frames : Z -> WebPIterator F).
#[local] Abbreviation W := (WebPDemuxGetI d WEBP_FF_CANVAS_WIDTH).
#[local] Abbreviation H := (WebPDemuxGetI d WEBP_FF_CANVAS_HEIGHT).
#[local] Abbreviation N := (WebPDemuxGetI d WEBP_FF_FRAME_COUNT).

Definition point (x y : Z) : Prop := 0 <= x < W /\ 0 <= y < H.

(** The rows a frame decodes to. *)
Definition rows_of (i : Z) : list (list Z) := snd (WebPDecode (frames i).(fragment)).
Definition decodes (i : Z) : bool := fst (WebPDecode (frames i).(fragment)).

(** What libwebp documents of a file it has parsed: its frames are there and
    lie on the canvas; a frame decodes to rows of its size (fewer if it fails),
    with premultiplied colours, and without transparency if it says so. *)
Record webp_file : Prop := {
  wf_canvas : 0 < W /\ 0 < H;
  wf_count : 0 < N;
  wf_frames : forall i, 0 <= i < N -> WebPDemuxGetFrame d (i + 1) = Some (frames i) /\ (frames i).(frame_num) = i + 1;
  wf_place : forall i, 0 <= i < N -> 0 <= (frames i).(x_offset) /\ 0 <= (frames i).(y_offset) /\
    0 < (frames i).(width) /\ 0 < (frames i).(height) /\
    (frames i).(x_offset) + (frames i).(width) <= W /\ (frames i).(y_offset) + (frames i).(height) <= H;
  wf_rows : forall i, 0 <= i < N -> Forall (fun r => Z.of_nat (length r) = (frames i).(width)) (rows_of i) /\
    Z.of_nat (length (rows_of i)) <= (frames i).(height) /\
    (decodes i = true -> Z.of_nat (length (rows_of i)) = (frames i).(height));
  wf_premultiplied : forall i, 0 <= i < N -> Forall (Forall (fun p => Z.land p COLOR_8888_ALPHA_MASK = 0 -> p = TRANSPARENT)) (rows_of i);
  wf_opaque : forall i, 0 <= i < N -> (frames i).(has_alpha) = false -> Forall (Forall (fun p => Z.land p COLOR_8888_ALPHA_MASK <> 0)) (rows_of i)
}.

(** ** The frames of a file *)

Definition inside (i x y : Z) : bool := FrameContainsPixel (frames i) x y.

(** The pixel of frame [i] at a point of the canvas. *)
Definition image (i : Z) : picture := fun x y =>
  default TRANSPARENT (rows_of i !! Z.to_nat (y - (frames i).(y_offset)) ≫= fun r => r !! Z.to_nat (x - (frames i).(x_offset))).

Definition blends (i : Z) : bool := bool_decide ((frames i).(blend_method) = WEBP_MUX_BLEND).
Definition disposes (i : Z) : bool := webp_willBeCleared (frames i).

(** Frame [i] over the canvas [c]. *)
Definition over (i : Z) (c : picture) : picture := fun x y =>
  if inside i x y then
    let p := image i x y in
    if blends i then mixed p (c x y) else p
  else c x y.

(** The pixels of a frame that is blended are transparent or opaque. *)
Definition no_partial_alpha : Prop := forall i, 0 <= i < N -> blends i = true -> Forall (Forall sharp) (rows_of i).

Definition dispose_over (i : Z) (c : picture) : picture := fun x y =>
  if disposes i && inside i x y then TRANSPARENT else c x y.

Fixpoint shown_nat (n : nat) : picture :=
  match n with
  | O => over 0 (fun _ _ => TRANSPARENT)
  | S n => over (Z.of_nat (S n)) (dispose_over (Z.of_nat n) (shown_nat n))
  end.

(** The canvas after frame [i], and in front of it. *)
Definition shown (i : Z) : picture := shown_nat (Z.to_nat i).
Definition ground (i : Z) : picture := if i =? 0 then fun _ _ => TRANSPARENT else dispose_over (i - 1) (shown (i - 1)).

Lemma shown_over i : 0 <= i -> shown i = over i (ground i).
Proof.
  intros Hi. unfold ground, shown. destruct (Z.to_nat i) as [|n] eqn:E.
  - assert (i = 0) as -> by lia. done.
  - rewrite (proj2 (Z.eqb_neq i 0)) by lia. cbn [shown_nat]. replace (Z.to_nat (i - 1)) with n by lia.
    replace (Z.of_nat (S n)) with i by lia. by replace (Z.of_nat n) with (i - 1) by lia.
Qed.

(** ** Key frames *)

(** Nothing of the canvas shines through. *)
Definition hides (i : Z) : bool := negb (frames i).(has_alpha) || bool_decide ((frames i).(blend_method) = WEBP_MUX_NO_BLEND).

Fixpoint key_nat (n : nat) : bool :=
  match n with
  | O => true
  | S n => (hides (Z.of_nat (S n)) && isFullFrame (frames (Z.of_nat (S n))) W H) ||
           (disposes (Z.of_nat n) && (isFullFrame (frames (Z.of_nat n)) W H || key_nat n))
  end.

Definition key (i : Z) : bool := key_nat (Z.to_nat i).

Context (Hfile : webp_file).

Lemma frame_at i : 0 <= i < N -> WebPDemuxGetFrame d (i + 1) = Some (frames i).
Proof. intros Hi. by apply (wf_frames Hfile). Qed.

Lemma chain_keys n : forall keys i, 0 < i -> i + Z.of_nat n = N -> Z.of_nat (length keys) = N ->
  (forall j, 0 <= j < i -> aget keys j = Some (key j)) ->
  exists keys', chain d W H (seqZ i (Z.of_nat n)) (keys, frames (i - 1)) = Some keys' /\
    Z.of_nat (length keys') = N /\ forall j, 0 <= j < N -> aget keys' j = Some (key j).
Proof.
  induction n as [|n IH]; intros keys i Hi Hn Hl Hk.
  - exists keys. rewrite seqZ_nil by lia. split; [done|]. split; [done|]. intros j Hj. apply Hk. lia.
  - rewrite seqZ_cons by lia. cbn [chain]. unfold chain_step. rewrite frame_at, (Hk (i - 1)) by lia.
    match goal with |- context [aset keys i ?k] => assert (k = key i) as -> end.
    { unfold key. destruct (Z.to_nat i) as [|m] eqn:E; [lia|]. cbn [key_nat].
      replace (Z.of_nat (S m)) with i by lia. replace (Z.of_nat m) with (i - 1) by lia. unfold hides, disposes, webp_willBeCleared.
      replace (Z.to_nat (i - 1)) with m by lia. by destruct (_ && isFullFrame (frames i) W H). }
    destruct (aset_exists keys i (key i)) as (keys1 & Ha & Hl1); [lia|]. rewrite Ha.
    replace (Z.pred (Z.of_nat (S n))) with (Z.of_nat n) by lia. replace (Z.succ i) with (i + 1) by lia.
    specialize (IH keys1 (i + 1)). replace (i + 1 - 1) with i in IH by lia. apply IH; [lia|lia|lia|].
    intros j Hj. destruct (Z.eq_dec j i) as [->|Hne].
    + by rewrite (aget_aset_eq _ _ _ _ Ha).
    + rewrite (aget_aset_ne _ _ _ _ _ Ha) by done. apply Hk. lia.
Qed.

(** The array the constructor makes. *)
Lemma dependency_chain : exists keys, constructDependencyChain d = Some keys /\
  Z.of_nat (length keys) = N /\ forall j, 0 <= j < N -> aget keys j = Some (key j).
Proof.
  pose proof (wf_count Hfile) as Hn. unfold constructDependencyChain. change 1 with (0 + 1) at 1. rewrite frame_at by lia.
  destruct (aset_exists (replicate (Z.to_nat N) false) 0 true) as (keys & Ha & Hl); [rewrite length_replicate; lia|]. rewrite Ha.
  rewrite length_replicate in Hl. replace (N - 1) with (Z.of_nat (Z.to_nat (N - 1))) by lia.
  apply (chain_keys _ keys 1); [lia|lia|lia|]. intros j Hj. assert (j = 0) as -> by lia. by rewrite (aget_aset_eq _ _ _ _ Ha).
Qed.

Lemma full_inside i x y : 0 <= i < N -> isFullFrame (frames i) W H = true -> point x y -> inside i x y = true.
Proof.
  intros Hi Hf [Hx Hy]. pose proof (wf_place Hfile i Hi). unfold isFullFrame in Hf. unfold inside, FrameContainsPixel. lia.
Qed.

(** The pixels of a frame. *)
Lemma image_pixel (P : Z -> Prop) i x y : 0 <= i < N -> decodes i = true -> Forall (Forall P) (rows_of i) -> inside i x y = true -> P (image i x y).
Proof.
  intros Hi Hd HP Hin. destruct (wf_rows Hfile i Hi) as (Hw & _ & Hh). specialize (Hh Hd). pose proof (wf_place Hfile i Hi).
  unfold inside, FrameContainsPixel in Hin. unfold image.
  destruct (lookup_lt_is_Some_2 (rows_of i) (Z.to_nat (y - y_offset (frames i)))) as [r Hr]; [lia|]. rewrite Hr. cbn [mbind option_bind].
  pose proof (Forall_lookup_1 _ _ _ _ Hw Hr) as Hlr. cbn in Hlr.
  destruct (lookup_lt_is_Some_2 r (Z.to_nat (x - x_offset (frames i)))) as [p Hp]; [lia|]. rewrite Hp. cbn.
  apply (Forall_lookup_1 _ _ _ _ (Forall_lookup_1 _ _ _ _ HP Hr) Hp).
Qed.

Lemma hides_blend i x y : 0 <= i < N -> decodes i = true -> hides i = true -> inside i x y = true ->
  blends i && (Z.land (image i x y) COLOR_8888_ALPHA_MASK =? 0) = false.
Proof.
  intros Hi Hd Hh Hin. unfold hides in Hh. apply orb_true_iff in Hh as [Ha|Hb].
  - apply negb_true_iff in Ha. pose proof (image_pixel _ i x y Hi Hd (wf_opaque Hfile i Hi Ha) Hin) as Hp. cbn in Hp.
    rewrite (proj2 (Z.eqb_neq _ 0)) by done. apply andb_false_r.
  - apply bool_decide_eq_true in Hb. unfold blends. by rewrite Hb.
Qed.

(** Without partial alpha a pixel is either taken or left. *)
Lemma over_sharp i c x y : no_partial_alpha -> 0 <= i < N -> decodes i = true -> inside i x y = true ->
  over i c x y = if blends i && (Z.land (image i x y) COLOR_8888_ALPHA_MASK =? 0) then c x y else image i x y.
Proof.
  intros Hsharp Hi Hd Hin. unfold over. rewrite Hin. destruct (blends i) eqn:Hb; [|done]. cbn [andb].
  pose proof (image_pixel _ i x y Hi Hd (Hsharp i Hi Hb) Hin) as [Hp|Hp]; unfold mixed; rewrite Hp; [done|].
  by rewrite Z.eqb_refl.
Qed.

Context (Hsharp : no_partial_alpha).

(** A frame behind a canvas that is all transparent. *)
Definition alone (i : Z) : picture := fun x y => if inside i x y then image i x y else TRANSPARENT.

Lemma over_transparent i c x y : 0 <= i < N -> decodes i = true -> c x y = TRANSPARENT -> over i c x y = alone i x y.
Proof.
  intros Hi Hd Hc. unfold alone. destruct (inside i x y) eqn:Hin; [rewrite over_sharp by done|unfold over; by rewrite Hin].
  destruct (blends i && _) eqn:Hb; [|done]. rewrite Hc. apply andb_true_iff in Hb as [_ Hb%Z.eqb_eq].
  symmetry. exact (image_pixel _ i x y Hi Hd (wf_premultiplied Hfile i Hi) Hin Hb).
Qed.

(** What a key frame shows does not depend on the frames before. *)
Lemma key_ground i x y : 0 <= i < N -> key i = true -> point x y ->
  (hides i && isFullFrame (frames i) W H) = true \/ ground i x y = TRANSPARENT.
Proof.
  intros Hi Hk Hp. unfold key in Hk. remember (Z.to_nat i) as n eqn:En. revert i Hi En Hk. induction n as [|n IH]; intros i Hi En Hk.
  - right. unfold ground. by rewrite (proj2 (Z.eqb_eq i 0)) by lia.
  - cbn [key_nat] in Hk. replace (Z.of_nat (S n)) with i in Hk by lia. replace (Z.of_nat n) with (i - 1) in Hk by lia.
    apply orb_true_iff in Hk as [Hk|Hk]; [by left|right]. apply andb_true_iff in Hk as [Hdis Hk].
    unfold ground. rewrite (proj2 (Z.eqb_neq i 0)) by lia. unfold dispose_over. rewrite Hdis. cbn [andb].
    destruct (inside (i - 1) x y) eqn:Hin; [done|]. apply orb_true_iff in Hk as [Hk|Hk].
    + by rewrite (full_inside (i - 1) x y) in Hin by (done || lia).
    + rewrite shown_over by lia. unfold over. rewrite Hin. destruct (IH (i - 1)) as [Hf|Hg]; [lia|lia|done| |done].
      apply andb_true_iff in Hf as [_ Hf]. by rewrite (full_inside (i - 1) x y) in Hin by (done || lia).
Qed.

Lemma key_alone i x y : 0 <= i < N -> decodes i = true -> key i = true -> point x y -> shown i x y = alone i x y.
Proof.
  intros Hi Hd Hk Hp. rewrite shown_over by lia. destruct (key_ground i x y Hi Hk Hp) as [Hf|Hg].
  - apply andb_true_iff in Hf as [Hh Hf]. pose proof (full_inside i x y Hi Hf Hp) as Hin. rewrite over_sharp by done. unfold alone. rewrite Hin.
    by rewrite (hides_blend i x y).
  - by apply over_transparent.
Qed.

(** Outside a key frame there is nothing. *)
Lemma key_outside i x y : 0 <= i < N -> key i = true -> point x y -> inside i x y = false -> shown i x y = TRANSPARENT.
Proof.
  intros Hi Hk Hp Hin. rewrite shown_over by lia. unfold over. rewrite Hin. destruct (key_ground i x y Hi Hk Hp) as [Hf|Hg]; [|done].
  apply andb_true_iff in Hf as [_ Hf]. by rewrite (full_inside i x y) in Hin.
Qed.
End Draw.
