(* ===== verification/WebPFrames.v ===== *)
(** * libframesequence: animated WebP files, played

    The pixels of the two buffers as pictures ([shows]); what [initializeFrame]
    and [decodeFrame] make of them; and [drawFrame]: it shows the frame asked
    for, however many frames it leaves out and whichever buffer it ends in. *)

From stdpp Require Import base numbers list list_numbers.
From Stdlib Require Import Lia ZArith.
From S2P Require Import Prelude GifTypes GifDecode FrameSequence Stream WebP WebPDraw.

#[local] Open Scope Z_scope.
#[local] Open Scope c_scope.

Section Play.
Context {D F : Type} {DX : Demux D F}.
Context (d : D) (frames : Z -> WebPIterator F) (Hfile : webp_file d frames) (Hsharp : no_partial_alpha d frames).
Context (fs : FrameSequence_webp (D := D)) (Hdemux : fs.(mDemux) = Some d).
#[local] Abbreviation W := (WebPDemuxGetI d WEBP_FF_CANVAS_WIDTH).
#[local] Abbreviation H := (WebPDemuxGetI d WEBP_FF_CANVAS_HEIGHT).
#[local] Abbreviation N := (WebPDemuxGetI d WEBP_FF_FRAME_COUNT).
#[local] Abbreviation key := (key d frames).
#[local] Abbreviation point := (point d).
#[local] Abbreviation shown := (shown frames).
#[local] Abbreviation ground := (ground frames).
#[local] Abbreviation inside := (inside frames).
#[local] Abbreviation disposes := (disposes frames).
#[local] Abbreviation image := (image frames).
#[local] Abbreviation alone := (alone frames).
Context (Hkeys : forall j, 0 <= j < N -> aget fs.(mIsKeyFrame) j = Some (key j)).
Context (pixel_stride : Z) (Hstride : W <= pixel_stride).

(** ** Pictures in the buffers *)

Definition output_view : view := mkView Output pixel_stride.
Definition preserved_view : view := mkView Preserved W.
Definition stride_of (p : pixels) : Z := match p with Output => pixel_stride | Preserved => W end.
Definition view_of (p : pixels) : view := mkView p (stride_of p).

Definition room (s : webp_state) : Prop :=
  forall p, stride_of p * H <= Z.of_nat (length (get_pixels_of p s)).

Definition shows (p : pixels) (s : webp_state) (P : picture) : Prop :=
  forall x y, point x y -> aget (get_pixels_of p s) (y * stride_of p + x) = Some (P x y).

(** [p] shows [P] in [s], the rest is as in [s0]. *)
Definition stage (p : pixels) (s0 : webp_state) (P : picture) (s : webp_state) : Prop :=
  room s /\ (forall q, q <> p -> get_pixels_of q s = get_pixels_of q s0) /\ shows p s P.

Lemma get_set_eq p l s : get_pixels_of p (set_pixels_of p l s) = l.
Proof. by destruct p. Qed.

Lemma get_set_ne p q l s : p <> q -> get_pixels_of q (set_pixels_of p l s) = get_pixels_of q s.
Proof. by destruct p, q. Qed.

Lemma stride_wide p : W <= stride_of p.
Proof. destruct p; cbn; lia. Qed.

Lemma pixel_index_range p x y : point x y -> 0 <= y * stride_of p + x < stride_of p * H.
Proof. intros [Hx Hy]. pose proof (stride_wide p) as Hw0. nia. Qed.

Lemma stage_refl p s P : room s -> shows p s P -> stage p s P s.
Proof. by repeat split. Qed.

Lemma stage_ext p s0 P Q s : stage p s0 P s -> (forall x y, point x y -> P x y = Q x y) -> stage p s0 Q s.
Proof. intros (Hr & Ho & Hs) He. split; [done|]. split; [done|]. intros x y Hp. rewrite <- He by done. by apply Hs. Qed.

Lemma shows_other p q s0 P Q s : stage p s0 P s -> q <> p -> shows q s0 Q -> shows q s Q.
Proof. intros (_ & Ho & _) Hne Hs x y Hp. rewrite Ho by done. by apply Hs. Qed.

(** Every buffer shows something. *)
Lemma shows_something p s : room s -> exists P, shows p s P.
Proof.
  intros Hr. exists (fun x y => default 0 (aget (get_pixels_of p s) (y * stride_of p + x))). intros x y Hp.
  destruct (aget_Some (get_pixels_of p s) (y * stride_of p + x)) as [v Hv]; [|by rewrite Hv].
  pose proof (pixel_index_range p x y Hp). specialize (Hr p). lia.
Qed.

(** A picture with a rectangle of another. *)
Definition painted (x0 y0 w h : Z) (f P : picture) : picture := fun x y =>
  if decide (x0 <= x < x0 + w /\ y0 <= y < y0 + h) then f x y else P x y.

#[local] Ltac paint := unfold painted; repeat case_decide; (done || lia).

(** ** Rows *)

Lemma wp_write_line p s0 s x0 y0 row (f P : picture) (Q : unit -> webp_state -> Prop) E :
  stage p s0 P s -> 0 <= x0 -> x0 + Z.of_nat (length row) <= W -> 0 <= y0 < H ->
  (forall k, 0 <= k < Z.of_nat (length row) -> row !! Z.to_nat k = Some (f (x0 + k) y0)) ->
  (forall s', stage p s0 (painted x0 y0 (Z.of_nat (length row)) 1 f P) s' -> Q tt s') ->
  wp (write_line (view_of p) (y0 * stride_of p + x0) row) Q E s.
Proof.
  intros (Hr & Ho & Hs) Hx Hw Hy Hf HQ. unfold write_line, view_of, which. do 2 wp_step. apply wp_bind.
  pose proof (stride_wide p) as Hw0. pose proof (Hr p) as Hrp.
  destruct (blit_spec row (get_pixels_of p s) (y0 * stride_of p + x0)) as (l & Hb & Hl & Hlk); [nia|nia|].
  apply wp_of_option with (1 := Hb). apply wp_modify, HQ. split; [|split].
  - intros q. destruct (decide (p = q)) as [<-|Hne]; [by rewrite get_set_eq, Hl|by rewrite get_set_ne].
  - intros q Hq. rewrite get_set_ne by done. by apply Ho.
  - intros x y Hp. rewrite get_set_eq. pose proof (pixel_index_range p x y Hp). pose proof (Hs x y Hp) as Hsp.
    unfold aget in *. rewrite decide_True in Hsp |- * by lia. rewrite Hlk, Z2Nat.id by lia. unfold painted. destruct Hp as [Hpx Hpy].
    destruct (decide _) as [Hin|Hout].
    + assert (y = y0) as -> by nia. rewrite decide_True by lia.
      replace (Z.to_nat (y0 * stride_of p + x - (y0 * stride_of p + x0))) with (Z.to_nat (x - x0)) by lia.
      rewrite (Hf (x - x0)) by lia. do 2 f_equal. lia.
    + rewrite decide_False; [done|]. intros [Hcx Hcy]. apply Hout. assert (y = y0) as -> by lia. lia.
Qed.

Lemma read_line_run p s y P : room s -> shows p s P -> 0 <= y < H ->
  exists row, read_line (view_of p) (y * stride_of p) W s = (Returns row, s) /\ Z.of_nat (length row) = W /\
    forall k, 0 <= k < W -> row !! Z.to_nat k = Some (P k y).
Proof.
  intros Hr Hs Hy. pose proof (stride_wide p) as Hw0. pose proof (Hr p) as Hrp. destruct (wf_canvas _ _ Hfile) as [HW HH].
  unfold read_line, bind, gets, view_of, which. rewrite (proj2 (andb_true_iff _ _)) by (split; apply Z.leb_le; nia).
  eexists. split; [reflexivity|]. split; [rewrite length_take, length_drop; nia|]. intros k Hk.
  rewrite lookup_take_lt by lia. rewrite lookup_drop. assert (point k y) as Hp by (split; lia). specialize (Hs k y Hp).
  unfold aget in Hs. rewrite decide_True in Hs by nia. rewrite <- Hs. f_equal. nia.
Qed.

(** A loop over the rows of a rectangle. *)
Lemma wp_rows p s0 s x0 y0 w h (row : Z -> M webp_state unit) (f P : picture) (Q : unit -> webp_state -> Prop) E :
  stage p s0 P s ->
  (forall k s', 0 <= k < h -> stage p s0 (painted x0 y0 w k f P) s' ->
    wp (row k) (fun _ s'' => stage p s0 (painted x0 (y0 + k) w 1 f (painted x0 y0 w k f P)) s'') E s') ->
  (forall s', stage p s0 (painted x0 y0 w h f P) s' -> Q tt s') ->
  wp (for_each row (seqZ 0 h)) Q E s.
Proof.
  intros Hs Hrow HQ. apply (wp_for_seqZ (fun k s' => stage p s0 (painted x0 y0 w k f P) s')).
  - apply (stage_ext _ _ _ _ _ Hs). intros x y _. paint.
  - intros k s' Hk Hst. eapply wp_mono; [apply (Hrow k s'); [lia|done]| |done]. intros [] s'' Hst'.
    apply (stage_ext _ _ _ _ _ Hst'). intros x y _. paint.
  - intros s' Hst. apply HQ, (stage_ext _ _ _ _ _ Hst). intros x y _. paint.
Qed.

Lemma wp_clear_rows p s0 s x0 y0 w h dst P (Q : unit -> webp_state -> Prop) E :
  stage p s0 P s -> 0 <= x0 -> 0 <= w -> x0 + w <= W -> 0 <= y0 -> y0 + h <= H ->
  (forall k, dst k = (y0 + k) * stride_of p + x0) ->
  (forall s', stage p s0 (painted x0 y0 w h (fun _ _ => TRANSPARENT) P) s' -> Q tt s') ->
  wp (for_each (fun k => clearLine (view_of p) (dst k) w) (seqZ 0 h)) Q E s.
Proof.
  intros Hs Hx Hw0 Hw Hy Hh Hdst HQ. apply (wp_rows p s0 s x0 y0 w h _ (fun _ _ => TRANSPARENT) P); [done| |done].
  intros k s' Hk Hst. unfold clearLine. rewrite Hdst.
  apply (wp_write_line p s0 s' x0 (y0 + k) _ (fun _ _ => TRANSPARENT) _ _ _ Hst); rewrite ?length_replicate; [lia|lia|lia| |].
  - intros j Hj. apply lookup_replicate_2. lia.
  - intros s''. by rewrite Z2Nat.id by lia.
Qed.

(** Everywhere on the canvas. *)
Lemma painted_all f P x y : point x y -> painted 0 0 W H f P x y = f x y.
Proof. intros [Hx Hy]. paint. Qed.

Lemma copyFrame_stage p q s0 s P0 P (Q : unit -> webp_state -> Prop) E :
  p <> q -> stage p s0 P0 s -> shows q s0 P ->
  (forall s', stage p s0 P s' -> Q tt s') ->
  wp (copyFrame (view_of q) (view_of p) W H) Q E s.
Proof.
  intros Hne Hs Hq HQ. unfold copyFrame. destruct (wf_canvas _ _ Hfile) as [HW HH]. apply (wp_rows p s0 s 0 0 W H _ P P0); [done| |].
  - intros k s' Hk Hst. wp_step. cbn [stride view_of].
    destruct (read_line_run q s' k P) as (row & Hr & Hl & Hrow); [apply Hst|by apply (shows_other _ _ _ _ _ _ Hst)|lia|].
    unfold wp at 1. rewrite Hr. replace (k * stride_of p) with ((0 + k) * stride_of p + 0) by lia.
    apply (wp_write_line p s0 s' 0 (0 + k) row P _ _ _ Hst); [lia|lia|lia| |].
    + intros j Hj. rewrite Hrow by lia. f_equal.
    + intros s''. by rewrite Hl.
  - intros s' Hst. apply HQ, (stage_ext _ _ _ _ _ Hst). intros x y Hp. by apply painted_all.
Qed.

(** ** The parts of a round *)

Lemma isKeyFrame_wp i (Q : bool -> webp_state -> Prop) E s : 0 <= i < N -> Q (key i) s ->
  wp (isKeyFrame fs ((frames i).(frame_num) - 1)) Q E s.
Proof.
  intros Hi HQ. destruct (wf_frames _ _ Hfile i Hi) as [_ ->]. replace (i + 1 - 1) with i by lia. unfold isKeyFrame.
  by apply wp_of_option with (1 := Hkeys i Hi).
Qed.

Lemma canvas_size : webp_getWidth fs = W /\ webp_getHeight fs = H.
Proof. unfold webp_getWidth, webp_getHeight, webp_get. by rewrite Hdemux. Qed.

(** The frame [i] in front of which [initializeFrame] leaves the rectangle of the last. *)
Definition covered (i : Z) : bool := hides frames i && webp_checkIfCover (frames i) (frames (i - 1)).

Definition initial (i : Z) (P : picture) : picture :=
  if key i then fun _ _ => TRANSPARENT
  else if disposes (i - 1) && negb (covered i) then dispose_over frames (i - 1) P else P.

Lemma initializeFrame_stage p q s C P i prev (Q : unit -> webp_state -> Prop) E :
  0 <= i < N -> stage p s C s -> (key i = true \/ 0 < i /\ prev = Some (frames (i - 1)) /\ p <> q /\ shows q s P) ->
  (forall s', stage p s (initial i P) s' -> Q tt s') ->
  wp (initializeFrame fs (frames i) (view_of p) prev (view_of q)) Q E s.
Proof.
  intros Hi Hs Hq HQ. destruct canvas_size as [Hcw Hch]. destruct (wf_canvas _ _ Hfile) as [HW HH]. unfold initializeFrame. rewrite Hcw, Hch.
  apply wp_bind, isKeyFrame_wp; [done|]. unfold initial in HQ. destruct (key i).
  - apply (wp_clear_rows p s s 0 0 W H _ C); [done|lia|lia|lia|lia|lia|cbn; lia|].
    intros s' Hst. apply HQ, (stage_ext _ _ _ _ _ Hst). intros x y Hp. by apply painted_all.
  - destruct Hq as [Hk|(Hi0 & -> & Hne & Hq)]; [done|]. pose proof (wf_place _ _ Hfile (i - 1)) as Hpl.
    wp_step. cbn [of_option]. wp_step. apply wp_bind, (copyFrame_stage p q s s C P); [done|done|done|]. intros s1 Hs1.
    fold (hides frames i) (covered i) (disposes (i - 1)). destruct (disposes (i - 1) && negb (covered i)) eqn:Hd; [|apply wp_ret, HQ, Hs1].
    apply andb_true_iff in Hd as [Hd _].
    apply (wp_clear_rows p s s1 (x_offset (frames (i - 1))) (y_offset (frames (i - 1))) (width (frames (i - 1))) (height (frames (i - 1))) _ P); [done|lia|lia|lia|lia|lia|cbn; lia|].
    intros s' Hst. apply HQ, (stage_ext _ _ _ _ _ Hst). intros x y Hp. unfold dispose_over, painted, WebPDraw.inside, FrameContainsPixel. rewrite Hd.
    destruct (decide _), (_ && (y <? _)) eqn:Hin; (done || lia).
Qed.

Lemma write_rows_stage p s0 x0 w f (Q : unit -> webp_state -> Prop) E : forall rows s y0 P,
  stage p s0 P s -> 0 <= x0 -> 0 <= w -> x0 + w <= W -> 0 <= y0 -> y0 + Z.of_nat (length rows) <= H ->
  Forall (fun r => Z.of_nat (length r) = w) rows ->
  (forall k j r, rows !! k = Some r -> 0 <= j < w -> r !! Z.to_nat j = Some (f (x0 + j) (y0 + Z.of_nat k))) ->
  (forall s', stage p s0 (painted x0 y0 w (Z.of_nat (length rows)) f P) s' -> Q tt s') ->
  wp (write_rows (view_of p) (y0 * stride_of p + x0) rows) Q E s.
Proof.
  induction rows as [|r rows IH]; intros s y0 P Hs Hx Hw0 Hw Hy Hh Hl Hf HQ; cbn [write_rows length] in *.
  - apply wp_ret, HQ, (stage_ext _ _ _ _ _ Hs). intros x y _. paint.
  - apply Forall_cons in Hl as [Hr Hl]. apply wp_bind, (wp_write_line p s0 s x0 y0 r f P); [done|lia|lia|lia| |].
    { intros k Hk. rewrite (Hf 0%nat k r) by (done || lia). do 2 f_equal. lia. }
    intros s1 Hs1. rewrite Hr in Hs1. cbn [stride view_of].
    replace (y0 * stride_of p + x0 + stride_of p) with ((y0 + 1) * stride_of p + x0) by lia.
    apply (IH s1 (y0 + 1) _ Hs1); [lia|lia|lia|lia|lia|done| |].
    + intros k j r' Hr' Hj. rewrite (Hf (S k) j r') by done. do 2 f_equal. lia.
    + intros s2 Hs2. apply HQ, (stage_ext _ _ _ _ _ Hs2). intros x y _. paint.
Qed.

(** What the blending makes of [C] over [P]. *)
Definition blended (keep_out : Z -> Z -> bool) (C P : picture) : picture := fun x y =>
  if (Z.land (C x y) COLOR_8888_ALPHA_MASK =? 0) && negb (keep_out x y) then P x y else C x y.

Lemma blend_pixel_stage p q s0 s keep_out C B P x0 w k j (Q : unit -> webp_state -> Prop) E :
  let at_ k j := painted x0 k j 1 (blended keep_out C P) B in
  p <> q -> stage p s0 (at_ k j) s -> shows q s0 P -> point (x0 + j) k -> 0 <= x0 -> 0 <= j < w -> B (x0 + j) k = C (x0 + j) k ->
  (forall s', stage p s0 (at_ k (j + 1)) s' -> Q tt s') ->
  wp (blend_pixel (view_of p) (view_of q) keep_out (x0 + j) k) Q E s.
Proof.
  intros at_ Hne Hs Hq Hp Hx Hj HB HQ. assert (at_ k j (x0 + j) k = C (x0 + j) k) as Hc by (unfold at_; paint).
  unfold blend_pixel, read_px. do 3 wp_step. cbn [which stride view_of].
  apply wp_of_option with (a := C (x0 + j) k); [rewrite <- Hc; by apply Hs|].
  assert (forall x y, x = x0 + j /\ y = k \/ at_ k (j + 1) x y = at_ k j x y) as Hnext by (intros x y; unfold at_; paint).
  assert (at_ k (j + 1) (x0 + j) k = blended keep_out C P (x0 + j) k) as Hnew by (unfold at_; paint). unfold blended in Hnew.
  destruct (_ && negb (keep_out _ _)).
  - do 3 wp_step. apply wp_of_option with (a := P (x0 + j) k); [by apply (shows_other _ _ _ _ _ _ Hs)|].
    apply (wp_write_line p s0 s (x0 + j) k _ (fun _ _ => P (x0 + j) k) _ _ _ Hs); cbn [length]; destruct Hp as [Hpx Hpy]; [lia|lia|lia| |].
    + intros i Hi. by replace (Z.to_nat i) with 0%nat by lia.
    + intros s' Hst. apply HQ, (stage_ext _ _ _ _ _ Hst). intros x y _. unfold painted at 1. case_decide as Hd.
      * assert (x = x0 + j) as -> by lia. assert (y = k) as -> by lia. done.
      * destruct (Hnext x y) as [[-> ->]|He]; [lia|done].
  - apply wp_ret, HQ, (stage_ext _ _ _ _ _ Hs). intros x y _. destruct (Hnext x y) as [[-> ->]|He]; [by rewrite Hc|done].
Qed.

Lemma blend_frame_stage p q s0 s i keep_out C P (Q : unit -> webp_state -> Prop) E :
  0 <= i < N -> p <> q -> stage p s0 C s -> shows q s0 P ->
  (forall s', stage p s0 (fun x y => if inside i x y then blended keep_out C P x y else C x y) s' -> Q tt s') ->
  wp (blend_frame (frames i) (view_of p) (view_of q) keep_out) Q E s.
Proof.
  intros Hi Hne Hs Hq HQ. destruct (wf_place _ _ Hfile i Hi) as (Hx & Hy & Hw0 & Hh0 & Hw & Hh). unfold blend_frame.
  set (f := frames i) in *. apply (wp_rows p s0 s (x_offset f) (y_offset f) (width f) (height f) _ (blended keep_out C P) C); [done| |].
  - intros k s' Hk Hst. set (B := painted (x_offset f) (y_offset f) (width f) k (blended keep_out C P) C) in *.
    apply (wp_for_seqZ (fun j s'' => stage p s0 (painted (x_offset f) (y_offset f + k) j 1 (blended keep_out C P) B) s'')).
    + apply (stage_ext _ _ _ _ _ Hst). intros x y _. paint.
    + intros j s'' Hj Hst'. eapply (blend_pixel_stage p q s0 s'' keep_out C B P _ (width f)); [done|done|done|split; lia|lia|lia| |done].
      unfold B. paint.
    + intros s'' Hst'. by replace (0 + Z.max 0 (width f)) with (width f) in Hst' by lia.
  - intros s' Hst. apply HQ, (stage_ext _ _ _ _ _ Hst). intros x y _. unfold painted, WebPDraw.inside, FrameContainsPixel. fold f.
    destruct (decide _), (_ && (y <? _)) eqn:Hin; (done || lia).
Qed.

(** Frame [i] as [WebPDecode] puts it on [C], and as it is after the blending. *)
Definition put_frame (i : Z) (C : picture) : picture := fun x y => if inside i x y then image i x y else C x y.

Definition keep_out (i : Z) : Z -> Z -> bool := fun x y => disposes (i - 1) && inside (i - 1) x y.

Definition decoded (i : Z) (C P : picture) : picture :=
  if blends frames i && negb (key i) then fun x y => if inside i x y then blended (keep_out i) (put_frame i C) P x y else C x y
  else put_frame i C.

Lemma write_frame_stage p s0 s i C (Q : unit -> webp_state -> Prop) E :
  0 <= i < N -> stage p s0 C s ->
  (forall C' s', (decodes frames i = true -> C' = put_frame i C) -> stage p s0 C' s' -> Q tt s') ->
  wp (write_rows (view_of p) ((frames i).(x_offset) + (frames i).(y_offset) * stride_of p) (rows_of frames i)) Q E s.
Proof.
  intros Hi Hs HQ. destruct (wf_place _ _ Hfile i Hi) as (Hx & Hy & Hw0 & Hh0 & Hw & Hh).
  destruct (wf_rows _ _ Hfile i Hi) as (Hl & Hle & Hall). rewrite Z.add_comm.
  apply (write_rows_stage p s0 _ (width (frames i)) (image i) Q E _ _ _ C); [done|done|lia|done|done|lia|done| |].
  - intros k j r Hr Hj. unfold WebPDraw.image. replace (Z.to_nat (y_offset (frames i) + Z.of_nat k - y_offset (frames i))) with k by lia.
    rewrite Hr. cbn [mbind option_bind]. replace (x_offset (frames i) + j - x_offset (frames i)) with j by lia.
    pose proof (Forall_lookup_1 _ _ _ _ Hl Hr) as Hlr. cbn in Hlr.
    destruct (lookup_lt_is_Some_2 r (Z.to_nat j)) as [v Hv]; [lia|]. by rewrite Hv.
  - intros s' Hst. destruct (decodes frames i) eqn:Hd; [|by refine (HQ _ s' _ Hst)].
    apply (HQ (put_frame i C)); [done|]. apply (stage_ext _ _ _ _ _ Hst). intros x y _. rewrite Hall by done.
    unfold painted, put_frame, WebPDraw.inside, FrameContainsPixel. destruct (decide _), (_ && (y <? _)) eqn:Hin; (done || lia).
Qed.

Lemma decodeFrame_stage p q s0 s i C P prev (Q : bool -> webp_state -> Prop) E :
  0 <= i < N -> stage p s0 C s -> (key i = true \/ 0 < i /\ prev = Some (frames (i - 1)) /\ p <> q /\ shows q s0 P) ->
  (forall C' s', (decodes frames i = true -> C' = decoded i C P) -> stage p s0 C' s' -> Q (decodes frames i) s') ->
  wp (decodeFrame fs (frames i) (view_of p) prev (view_of q)) Q E s.
Proof.
  intros Hi Hs Hq HQ. pose proof (write_frame_stage p s0 s i C) as Hw. unfold decodes in HQ, Hw. unfold rows_of in Hw. unfold decodeFrame.
  destruct (WebPDecode (fragment (frames i))) as [ok rows]. cbn [fst snd] in *. wp_step. apply Hw; [done|done|]. intros C1 s1 HC1 Hs1.
  destruct ok; cbn [negb]; [|apply wp_ret, (HQ C1 s1); done]. rewrite HC1 in Hs1 by done.
  wp_step. apply isKeyFrame_wp; [done|]. wp_step. change (bool_decide _) with (blends frames i).
  unfold decoded in HQ. destruct (blends frames i && negb (key i)) eqn:Hb.
  - apply andb_true_iff in Hb as [_ Hk%negb_true_iff]. destruct Hq as [Hk'|(Hi0 & -> & Hne & Hq)]; [congruence|].
    wp_step. cbn [of_option]. wp_step.
    apply (blend_frame_stage p q s0 s1 i _ (put_frame i C) P); [done|done|done|done|].
    intros s2 Hs2. wp_step. apply (HQ _ s2 ltac:(done)). apply (stage_ext _ _ _ _ _ Hs2). intros x y _.
    unfold put_frame. destruct (inside i x y) eqn:Hin; [|done]. unfold blended, keep_out. rewrite Hin.
    unfold WebPDraw.disposes, webp_willBeCleared. destruct (dispose_method (frames (i - 1))); by rewrite ?decide_True, ?decide_False by done.
  - wp_step. wp_step. apply (HQ (put_frame i C) s1); done.
Qed.

(** ** The rounds *)

(** The picture of frame [i] outside the part that the next frame disposes of. *)
Definition good (i : Z) (P : picture) : Prop :=
  forall x y, point x y -> disposes i && inside i x y = true \/ P x y = shown i x y.

Lemma ground_next i x y : 0 < i -> ground i x y = if keep_out i x y then TRANSPARENT else shown (i - 1) x y.
Proof. intros Hi. unfold WebPDraw.ground. by rewrite (proj2 (Z.eqb_neq i 0)) by lia. Qed.

Lemma covered_inside i x y : covered i = true -> inside (i - 1) x y = true -> inside i x y = true.
Proof. unfold covered, webp_checkIfCover, WebPDraw.inside, FrameContainsPixel. lia. Qed.

(** What is left for frame [i] to be drawn on. *)
Lemma initial_ground i P x y : 0 < i < N -> key i = false -> good (i - 1) P -> point x y ->
  initial i P x y = ground i x y \/ hides frames i = true /\ inside i x y = true.
Proof.
  intros Hi Hk HP Hp. rewrite ground_next by lia. unfold initial, keep_out, dispose_over. rewrite Hk. specialize (HP x y Hp).
  destruct (disposes (i - 1)) eqn:Hd; cbn [andb] in *.
  - destruct (covered i) eqn:Hc; cbn [negb].
    + destruct (inside (i - 1) x y) eqn:Hin.
      * right. split; [|by apply covered_inside]. unfold covered in Hc. by apply andb_true_iff in Hc as [? _].
      * left. by destruct HP.
    + left. destruct (inside (i - 1) x y); [done|]. by destruct HP.
  - left. by destruct HP.
Qed.

Lemma initial_good i P : 0 <= i < N -> (key i = true \/ 0 < i /\ good (i - 1) P) -> disposes i = true -> good i (initial i P).
Proof.
  intros Hi HP Hd x y Hp. rewrite Hd. cbn [andb]. destruct (inside i x y) eqn:Hin; [by left|right].
  destruct (key i) eqn:Hk; [unfold initial; rewrite Hk; symmetry; by apply (key_outside _ _ Hfile)|].
  destruct HP as [|[Hi0 HP]]; [done|]. rewrite shown_over by lia. unfold over. rewrite Hin.
  destruct (initial_ground i P x y) as [He|[_ He]]; [lia|done|done|done|done|congruence].
Qed.

(** A frame that is decoded is right everywhere. *)
Lemma decoded_shown i P x y : 0 <= i < N -> (key i = true \/ 0 < i /\ good (i - 1) P) -> decodes frames i = true -> point x y ->
  decoded i (initial i P) P x y = shown i x y.
Proof.
  intros Hi HP Hd Hp. unfold decoded. destruct (key i) eqn:Hk.
  - rewrite andb_false_r. rewrite (key_alone _ _ Hfile Hsharp) by done. unfold put_frame, WebPDraw.alone, initial. by rewrite Hk.
  - destruct HP as [|[Hi0 HP]]; [done|]. rewrite andb_true_r, shown_over by lia.
    pose proof (initial_ground i P x y ltac:(lia) Hk HP Hp) as Hg.
    destruct (inside i x y) eqn:Hin; [rewrite (over_sharp _ _ Hfile) by done|unfold over; rewrite Hin];
      destruct (blends frames i) eqn:Hb; cbn [andb]; unfold blended, put_frame; rewrite Hin; [|done|by destruct Hg as [|[_ ?]]..].
    destruct (Z.land (image i x y) COLOR_8888_ALPHA_MASK =? 0) eqn:Ha; [|done]. cbn [andb].
    rewrite ground_next by lia. specialize (HP x y Hp). fold (keep_out i x y) in HP. destruct (keep_out i x y); cbn [negb].
    + apply Z.eqb_eq in Ha. exact (image_pixel _ _ Hfile _ i x y Hi Hd (wf_premultiplied _ _ Hfile i Hi) Hin Ha).
    + by destruct HP.
Qed.

(** What a round needs: nothing if its frame is a key frame, and the frame
    before it in the other buffer if not. *)
Definition ready (i : Z) (prevIter : option (WebPIterator F)) (p q : pixels) (s : webp_state) : Prop :=
  key i = true \/ 0 < i /\ prevIter = Some (frames (i - 1)) /\ p <> q /\ exists P, shows q s P /\ good (i - 1) P.

(** The frames that [drawFrame n] has to decode, if it comes to them. *)
Definition undecodable (n k : Z) : Prop := decodes frames k = false /\ (k = n \/ disposes k = false).

Definition after_step (n i : Z) (p q : pixels) (r : option (option (WebPIterator F) * view * view)) (s : webp_state) : Prop :=
  room s /\
  match r with
  | None => undecodable n i
  | Some st => st = (Some (frames i), view_of p, view_of q) /\
      exists P, shows p s P /\ good i P /\ (i = n -> forall x y, point x y -> P x y = shown i x y)
  end.

Lemma webp_step_spec n i prevIter p q s (Q : _ -> webp_state -> Prop) E :
  0 <= i < N -> room s -> ready i prevIter p q s ->
  (forall r s', after_step n i p q r s' -> Q r s') ->
  wp (webp_step fs d n (prevIter, view_of q, view_of p) i) Q E s.
Proof.
  intros Hi Hr Hready HQ. destruct (shows_something p s Hr) as [C HC].
  assert (exists P, (key i = true \/ 0 < i /\ prevIter = Some (frames (i - 1)) /\ p <> q /\ shows q s P) /\
    (key i = true \/ 0 < i /\ good (i - 1) P)) as (P & Hq & HP).
  { destruct Hready as [Hk|(Hi0 & He & Hne & P & Hs & Hg)]; [by exists C; split; left|exists P; split; right; by repeat split]. }
  unfold webp_step. wp_step. rewrite (frame_at d frames Hfile i Hi). cbn [of_option]. wp_step. apply wp_bind.
  apply (initializeFrame_stage p q s C P); [done|by apply stage_refl|done|]. intros s1 Hs1. apply wp_bind.
  destruct ((i =? n) || negb (webp_willBeCleared (frames i))) eqn:Hdec; cbn beta iota.
  - apply (decodeFrame_stage p q s s1 i (initial i P) P); [done|done|done|]. intros C' s2 HC' Hs2. wp_step. apply HQ.
    split; [apply Hs2|]. destruct (decodes frames i) eqn:Hd.
    + split; [done|]. rewrite HC' in Hs2 by done. eexists. split; [apply Hs2|]. split; [|intros _ x y Hp; by apply decoded_shown].
      intros x y Hp. right. by apply decoded_shown.
    + split; [done|]. apply orb_true_iff in Hdec as [He|Hc]; [left; lia|right]. by apply negb_true_iff in Hc.
  - apply orb_false_iff in Hdec as [He%Z.eqb_neq Hc%negb_false_iff]. do 2 wp_step. apply HQ. split; [apply Hs1|]. split; [done|].
    exists (initial i P). split; [apply Hs1|]. split; [by apply initial_good|]. intros ->. lia.
Qed.

Lemma webp_rounds_spec n m : forall i prevIter p q s (Q : option view -> webp_state -> Prop) E,
  i + Z.of_nat m = n -> 0 <= i -> n < N -> (m = 0%nat \/ p <> q) -> room s -> ready i prevIter p q s ->
  (forall r s', room s' ->
    match r with
    | None => exists k, i <= k <= n /\ undecodable n k
    | Some v => exists p', v = view_of p' /\ shows p' s' (shown n)
    end -> Q r s') ->
  wp (webp_rounds fs d n (seqZ i (n - i + 1)) (prevIter, view_of q, view_of p)) Q E s.
Proof.
  induction m as [|m IH]; intros i prevIter p q s Q E Hm Hi Hn Hne Hr Hready HQ; rewrite seqZ_cons by lia; cbn [webp_rounds];
    apply wp_bind, (webp_step_spec n); [lia|done|done| |lia|done|done|]; intros [st|] s1 [Hr1 Hs1].
  - destruct Hs1 as (-> & P & HP & _ & He). rewrite seqZ_nil by lia. cbn [webp_rounds]. wp_step. apply HQ; [done|]. exists p. split; [done|].
    intros x y Hp. assert (i = n) as Hin by lia. rewrite <- Hin, <- He by done. by apply HP.
  - wp_step. apply HQ; [done|]. exists i. split; [lia|done].
  - destruct Hs1 as (-> & P & HP & Hg & He). replace (Z.succ i) with (i + 1) by lia. replace (Z.pred (n - i + 1)) with (n - (i + 1) + 1) by lia.
    assert (p <> q) as Hpq by (by destruct Hne). apply (IH (i + 1) _ q p s1); [lia|lia|lia|right; congruence|done| |].
    + right. replace (i + 1 - 1) with i by lia. split; [lia|]. split; [done|]. split; [congruence|]. by exists P.
    + intros r s' Hr' HF. apply HQ; [done|]. destruct r; [done|]. destruct HF as (k & Hk & HF). exists k. split; [lia|done].
  - wp_step. apply HQ; [done|]. exists i. split; [lia|done].
Qed.

Lemma find_start_spec m : forall st (Q : Z -> webp_state -> Prop) E s,
  0 <= st -> st + Z.of_nat m < N ->
  (forall r, st <= r <= st + Z.of_nat m -> r = st \/ key r = true -> Q r s) -> wp (find_start fs m st (st + Z.of_nat m)) Q E s.
Proof.
  induction m as [|m IH]; intros st Q E s Hst Hm HQ; cbn [find_start].
  - wp_step. apply HQ; [lia|by left].
  - wp_step. unfold isKeyFrame. apply wp_of_option with (1 := Hkeys (st + Z.of_nat (S m)) ltac:(lia)). destruct (key _) eqn:Hk.
    + wp_step. apply HQ; [lia|by right].
    + replace (st + Z.of_nat (S m) - 1) with (st + Z.of_nat m) by lia. apply IH; [done|lia|]. intros r Hr. apply HQ. lia.
Qed.

Lemma webp_drawFrame_correct n prev s (E : webp_state -> Prop) :
  0 <= n < N -> prev < n -> (0 <= prev -> shows Output s (shown prev)) -> room s ->
  wp (webp_drawFrame fs pixel_stride n prev)
    (fun r s' => room s' /\
       (shows Output s' (shown n) /\ r = (frames ((n + N - 1) mod N)).(duration) \/
        r = -1 /\ exists k, prev < k <= n /\ 0 <= k /\ undecodable n k)) E s.
Proof.
  intros Hn Hprev Hs Hr. unfold webp_drawFrame. rewrite Hdemux. destruct canvas_size as [-> ->]. wp_step.
  set (start := Z.max (prev + 1) 0). replace n with (start + Z.of_nat (Z.to_nat (n - start))) at 2 by lia.
  apply find_start_spec; [lia|lia|]. intros st Hst Hkst. wp_step.
  set (p := if n =? 0 then Output else Preserved).
  replace (if n =? 0 then mkView Output pixel_stride else mkView Preserved W) with (view_of p) by (unfold p; by destruct (n =? 0)).
  change (mkView Output pixel_stride) with (view_of Output).
  apply (webp_rounds_spec n (Z.to_nat (n - st))); [lia|lia|lia| |done| |].
  - unfold p. destruct (n =? 0) eqn:E0; [left; lia|right; done].
  - destruct Hkst as [->|Hk]; [|by left]. destruct (decide (0 <= prev)) as [Hp0|Hp0].
    + right. assert (start = prev + 1) as -> by lia. replace (prev + 1 - 1) with prev by lia.
      split; [lia|]. split; [|split].
      * replace (prev + 1) with (prev + 1) by done. by apply (frame_at d frames Hfile); lia.
      * unfold p. rewrite (proj2 (Z.eqb_neq n 0)) by lia. done.
      * exists (shown prev). split; [by apply Hs|]. intros x y _. by right.
    + left. assert (start = 0) as -> by lia. done.
  - intros [v|] s1 Hr1 Hres; [|wp_step; split; [done|right]; destruct Hres as (k & Hk & Hu); split; [done|]; exists k; split; [lia|]; split; [lia|done]].
    destruct Hres as (p' & -> & Hp').
    assert (webp_getFrameCount fs = N) as -> by (unfold webp_getFrameCount, webp_get; by rewrite Hdemux).
    assert (forall s', room s' -> shows Output s' (shown n) -> wp (if N =? 0 then stuck else
      let! iter := of_option (WebPDemuxGetFrame d (Z.rem (n + N - 1) N + 1)) in ret iter.(duration))
      (fun r s' => room s' /\ (shows Output s' (shown n) /\ r = (frames ((n + N - 1) mod N)).(duration) \/
        r = -1 /\ exists k, prev < k <= n /\ 0 <= k /\ undecodable n k)) E s') as Hend.
    { intros s' Hr' Hs'. rewrite (proj2 (Z.eqb_neq N 0)), Z.rem_mod_nonneg by lia.
      rewrite (frame_at d frames Hfile) by (apply Z.mod_pos_bound; lia). cbn [of_option]. do 2 wp_step. split; [done|by left]. }
    wp_step. cbn [which view_of]. destruct (decide (p' = Output)) as [->|Hne]; [wp_step; by apply Hend|].
    destruct (shows_something Output s1 Hr1) as [C HC].
    apply (copyFrame_stage Output p' s1 s1 C (shown n)); [congruence|by apply stage_refl|done|].
    intros s2 (Hr2 & _ & Hs2). by apply Hend.
Qed.
End Play.

(** ** Drawing *)

(** A sequence whose demuxer is [d], with the array the constructor makes. *)
Definition sequence_of {D F} {DX : Demux D F} (fs : FrameSequence_webp (D := D)) (d : D) : Prop :=
  fs.(mDemux) = Some d /\ constructDependencyChain d = Some fs.(mIsKeyFrame).

Section Drawing.
Context {D F : Type} {DX : Demux D F}.
Context (d : D) (frames : Z -> WebPIterator F) (Hfile : webp_file d frames) (Hsharp : no_partial_alpha d frames).
Context (fs : FrameSequence_webp (D := D)) (Hfs : sequence_of fs d).
Context (stride : Z) (Hstride : WebPDemuxGetI d WEBP_FF_CANVAS_WIDTH <= stride).
#[local] Abbreviation N := (WebPDemuxGetI d WEBP_FF_FRAME_COUNT).

Lemma sequence_keys j : 0 <= j < N -> aget fs.(mIsKeyFrame) j = Some (key d frames j).
Proof. destruct Hfs as [_ Hc]. destruct (dependency_chain d frames Hfile) as (keys & Hc' & _ & Hk). rewrite Hc in Hc'. injection Hc' as ->. apply Hk. Qed.

(** C21. [drawFrame] of a file as libwebp documents it ([webp_file]) whose blended
    frames have no partial alpha, that is only pixels that are transparent or
    opaque ([no_partial_alpha]: others are not blended but copied, see
    [partial_alpha_replaces]), on a bitmap with room for the canvas that has the
    frame [previousFrameNr], an earlier one, if that is one: the bitmap has the
    frame asked for, which is the frames composed with their offsets, blending
    and disposal, and the delay is the one of the frame before; or the call
    fails, and a frame that has to be decoded cannot be. *)
Theorem webp_drawFrame_shows n prev s :
  0 <= n < N -> prev < n -> room d stride s -> (0 <= prev -> shows d stride Output s (shown frames prev)) ->
  exists r s', webp_drawFrame fs stride n prev s = (Returns r, s') /\ room d stride s' /\
    (shows d stride Output s' (shown frames n) /\ r = (frames ((n + N - 1) mod N)).(duration) \/
     r = -1 /\ exists k, prev < k <= n /\ 0 <= k /\ undecodable frames n k).
Proof.
  intros Hn Hprev Hr Hs. apply wp_returns, (webp_drawFrame_correct d frames Hfile Hsharp fs (proj1 Hfs) sequence_keys stride Hstride); done.
Qed.

(** The frames up to [n], one after the other. *)
Fixpoint draw_each (n : nat) : M webp_state Z :=
  match n with
  | O => webp_drawFrame fs stride 0 (-1)
  | S m => bind (draw_each m) (fun _ => webp_drawFrame fs stride (Z.of_nat n) (Z.of_nat m))
  end.

Lemma draws_when_decoding n prev s : (forall k, 0 <= k < N -> decodes frames k = true) ->
  0 <= n < N -> prev < n -> room d stride s -> (0 <= prev -> shows d stride Output s (shown frames prev)) ->
  exists s', webp_drawFrame fs stride n prev s = (Returns (frames ((n + N - 1) mod N)).(duration), s') /\
    room d stride s' /\ shows d stride Output s' (shown frames n).
Proof.
  intros Hdec Hn Hprev Hr Hs.
  destruct (wp_returns _ _ s (webp_drawFrame_correct d frames Hfile Hsharp fs (proj1 Hfs) sequence_keys stride Hstride n prev s _ Hn Hprev Hs Hr))
    as (r & s' & Hrun & Hr' & [[Hs' ->]|(_ & k & Hk & Hk0 & Hd & _)]); [by exists s'|]. rewrite Hdec in Hd by lia. done.
Qed.

Lemma draw_each_shows n s : (forall k, 0 <= k < N -> decodes frames k = true) -> Z.of_nat n < N -> room d stride s ->
  exists s', draw_each n s = (Returns (frames ((Z.of_nat n + N - 1) mod N)).(duration), s') /\
    room d stride s' /\ shows d stride Output s' (shown frames (Z.of_nat n)).
Proof.
  intros Hdec. induction n as [|n IH]; intros Hn Hr; cbn [draw_each].
  - apply draws_when_decoding; (done || lia).
  - destruct IH as (s1 & Hrun & Hr1 & Hs1); [lia|done|]. unfold bind. rewrite Hrun. apply draws_when_decoding; (done || lia).
Qed.

(** Leaving frames out is not visible: a file whose frames all decode shows
    the same whether its frames are drawn one after the other or the one asked
    for is drawn at once. *)
Theorem webp_skips_invisible n s s0 :
  (forall k, 0 <= k < N -> decodes frames k = true) -> Z.of_nat n < N -> room d stride s -> room d stride s0 ->
  exists r s' s0', draw_each n s = (Returns r, s') /\ webp_drawFrame fs stride (Z.of_nat n) (-1) s0 = (Returns r, s0') /\
    forall x y, point d x y -> aget s'.(output_px) (y * stride + x) = aget s0'.(output_px) (y * stride + x).
Proof.
  intros Hdec Hn Hr Hr0. destruct (draw_each_shows n s Hdec Hn Hr) as (s' & H1 & _ & H2).
  destruct (draws_when_decoding (Z.of_nat n) (-1) s0) as (s0' & H3 & _ & H4); [done|lia|lia|done|lia|].
  eexists _, s', s0'. split; [exact H1|]. split; [exact H3|]. intros x y Hp. etrans; [by apply (H2 x y Hp)|]. symmetry. by apply (H4 x y Hp).
Qed.
End Drawing.
