(* ===== verification/WebPOpen.v ===== *)
(** * libframesequence: animated WebP files, opened

    The constructor over the streams of [Stream]: what it reads and the
    sequence it makes; [FrameSequence::create] of a WebP file, whose frames the
    sequence then draws; and the headers that make the destructor delete a
    pointer that was never set. *)

From stdpp Require Import base numbers list list_numbers.
From Stdlib Require Import Lia ZArith.
From S2P Require Import Prelude GifTypes GifDecode FrameSequence Stream WebP WebPDraw WebPFrames.

#[local] Open Scope Z_scope.
#[local] Open Scope c_scope.

(** The size a RIFF header declares, and the file a demuxer gets. *)
Definition declared_size (l : list Z) : Z := CHUNK_HEADER_SIZE + default 0 (GetLE32 (drop TAG_SIZE l)).

Lemma mapM_id_Some {A} (l : list A) : mapM id (Some <$> l) = Some l.
Proof. induction l as [|x l IH]; [done|]. cbn in *. by rewrite IH. Qed.

Lemma header_fields l : 12 <= Z.of_nat (length l) ->
  exists v, GetLE32 (drop TAG_SIZE (take 12 l)) = Some v /\ declared_size l = CHUNK_HEADER_SIZE + v.
Proof.
  intros Hl. do 12 (destruct l as [|? l]; [cbn in Hl; lia|]). eexists. split; reflexivity.
Qed.

Section Open.
Context {D F : Type} {DX : Demux D F} {S : Type} `{SourceLaws S}.

Abbreviation webp := (FrameSequence_webp (D := D)).

(** The constructor over the stream with the bytes [l]: it has read the header. *)
Lemma make_webp_header (s : stream S) l : delivers s l -> 12 <= Z.of_nat (length l) ->
  exists v s', declared_size l = CHUNK_HEADER_SIZE + v /\ delivers s' (drop 12 l) /\
    make_FrameSequence_webp (D := D) None s =
      (if MAX_CHUNK_PAYLOAD <? v then ret (failed None false)
       else if u32 (CHUNK_HEADER_SIZE + v) <? RIFF_HEADER_SIZE then ret (failed None false)
       else
         let! rest := read (u32 (CHUNK_HEADER_SIZE + v) - RIFF_HEADER_SIZE) in
         let! rest := of_option (mapM id rest) in
         if negb (Z.of_nat (length rest) =? u32 (CHUNK_HEADER_SIZE + v) - RIFF_HEADER_SIZE) then ret (failed (Some (take 12 l ++ rest)) false)
         else construct_demux (take 12 l ++ rest) false) s'.
Proof.
  intros Hs Hl. destruct (header_fields l Hl) as (v & Hv & Hd). exists v.
  destruct (read_delivers 12 s l Hs) as (s' & Hread & Hs'); [lia|by left|]. exists s'. split; [done|]. split; [exact Hs'|].
  unfold make_FrameSequence_webp. unfold bind at 1. change RIFF_HEADER_SIZE with 12 at 1. rewrite Hread.
  rewrite length_fmap, length_take. rewrite (proj2 (Z.eqb_eq _ _)) by (unfold RIFF_HEADER_SIZE; lia). cbn [negb].
  unfold bind at 1. rewrite mapM_id_Some. cbn [of_option ret]. unfold bind at 1, ret at 1.
  change (Z.to_nat 12) with 12%nat. by rewrite Hv.
Qed.

(** A file of the size it declares, which the demuxer takes. *)
Record opens (l : list Z) (d : D) : Prop := {
  op_size : RIFF_HEADER_SIZE <= declared_size l <= Z.of_nat (length l);
  op_payload : declared_size l <= CHUNK_HEADER_SIZE + MAX_CHUNK_PAYLOAD;
  op_demux : WebPDemux (take (Z.to_nat (declared_size l)) l) = Some d
}.

(** The constructor takes the bytes of the file from the stream and no more. *)
Lemma make_webp_opens (s : stream S) l d (frames : Z -> WebPIterator F) : delivers s l -> opens l d -> webp_file d frames ->
  exists fs s', make_FrameSequence_webp None s = (Returns fs, s') /\ sequence_of fs d /\
    fs.(mBytes) = Some (take (Z.to_nat (declared_size l)) l) /\ delivers s' (drop (Z.to_nat (declared_size l)) l).
Proof.
  intros Hs [Hsize Hmax Hdemux] Hfile. destruct (make_webp_header s l Hs) as (v & s1 & Hd & Hs1 & Hrun); [unfold RIFF_HEADER_SIZE in Hsize; lia|].
  rewrite Hd in *. rewrite Hrun. set (size := CHUNK_HEADER_SIZE + v) in *.
  rewrite (proj2 (Z.ltb_ge _ _)) by (unfold size in *; lia).
  rewrite (u32_small size) by (unfold MAX_CHUNK_PAYLOAD, RIFF_HEADER_SIZE, CHUNK_HEADER_SIZE in *; lia).
  rewrite (proj2 (Z.ltb_ge _ _)) by lia. unfold RIFF_HEADER_SIZE in *.
  destruct (read_delivers (size - 12) s1 (drop 12 l) Hs1) as (s2 & Hread & Hs2); [lia|left; rewrite length_drop; lia|].
  unfold bind at 1. rewrite Hread. unfold bind at 1. rewrite mapM_id_Some. unfold of_option, ret at 1.
  rewrite length_take, length_drop. rewrite (proj2 (Z.eqb_eq _ _)) by lia. cbn [negb].
  assert (take 12 l ++ take (Z.to_nat (size - 12)) (drop 12 l) = take (Z.to_nat size) l) as ->.
  { replace (Z.to_nat size) with (12 + Z.to_nat (size - 12))%nat by lia. by rewrite take_take_drop. }
  unfold construct_demux. rewrite Hdemux. destruct (dependency_chain d frames Hfile) as (keys & Hkeys & _). rewrite Hkeys.
  eexists _, s2. split; [reflexivity|]. split; [by split|]. split; [done|].
  rewrite drop_drop in Hs2. by replace (12 + Z.to_nat (size - 12))%nat with (Z.to_nat size) in Hs2 by lia.
Qed.

(** ** FrameSequence::create *)

Section Create.
Context {G : Type} (gif : M (stream S) G) (gif_count gif_width gif_height : G -> Z) (gif_delete : G -> M (stream S) unit).

Abbreviation sequence := (G + webp)%type.

(** The virtual functions, and the registered formats. *)
Definition any_count (fs : sequence) : Z := match fs with inl g => gif_count g | inr w => webp_getFrameCount w end.
Definition any_width (fs : sequence) : Z := match fs with inl g => gif_width g | inr w => webp_getWidth w end.
Definition any_height (fs : sequence) : Z := match fs with inl g => gif_height g | inr w => webp_getHeight w end.
Definition any_delete (fs : sequence) : M (stream S) unit :=
  match fs with inl g => gif_delete g | inr w => delete_FrameSequence_webp w end.
Definition all_formats (gif_first : bool) : Registry S sequence :=
  formats (bind gif (fun g => ret (inl g))) (bind (make_FrameSequence_webp None) (fun w => ret (inr w))) gif_first.

Definition create_sequence (gif_first : bool) : M (stream S) (option sequence) :=
  create any_count any_width any_height any_delete (all_formats gif_first) false.

(** The registry hands a WebP file to its constructor. *)
Lemma create_webp gif_first (src : S) :
  let l := contents src in source_ok src -> is_webp_file l = true ->
  exists s', delivers s' l /\
    create_sequence gif_first (new_stream src) =
      (let! w := make_FrameSequence_webp None in
       if (webp_getFrameCount w =? 0) || (webp_getWidth w =? 0) || (webp_getHeight w =? 0) then
         delete_FrameSequence_webp w ;;! ret None
       else ret (Some (inr w))) s'.
Proof.
  intros l Hok Hw. assert (is_gif_file l = false) as Hg.
  { destruct (is_gif_file l) eqn:Hg; [|done]. pose proof (gif_not_webp l Hg). congruence. }
  assert (12 <= Z.of_nat (length l)) as Hlen by (unfold is_webp_file in Hw; lia).
  destruct (find_format (bind gif (fun g => ret (inl g))) (bind (make_FrameSequence_webp None) (fun w => ret (inr w : sequence))) gif_first src)
    as (s' & Hfind & Hs'); [done|by left|]. fold l in Hfind, Hs'. rewrite Hg, Hw in Hfind.
  exists s'. split; [exact Hs'|]. unfold create_sequence, create. unfold bind at 1, all_formats. rewrite Hfind.
  cbn [createFrameSequence webp_entry]. unfold bind at 1 2. unfold bind at 2.
  by destruct (make_FrameSequence_webp None s') as [[w| |] s2].
Qed.

(** C22. [FrameSequence::create] of a WebP file, in whichever order the formats were
    registered: a sequence over the demuxer of the file. *)
Theorem webp_file_created gif_first (src : S) d (frames : Z -> WebPIterator F) :
  let l := contents src in source_ok src -> is_webp_file l = true -> opens l d -> webp_file d frames ->
  exists fs s', create_sequence gif_first (new_stream src) = (Returns (Some (inr fs)), s') /\ sequence_of fs d /\
    delivers s' (drop (Z.to_nat (declared_size l)) l).
Proof.
  intros l Hok Hw Hop Hfile. destruct (create_webp gif_first src Hok Hw) as (s1 & Hs1 & ->). fold l in Hs1.
  destruct (make_webp_opens s1 l d frames Hs1 Hop Hfile) as (fs & s2 & Hrun & Hseq & _ & Hs2). exists fs, s2.
  unfold bind. rewrite Hrun. split; [|by split]. destruct Hseq as [Hd _]. pose proof (wf_canvas _ _ Hfile); pose proof (wf_count _ _ Hfile).
  unfold webp_getFrameCount, webp_getWidth, webp_getHeight, webp_get. rewrite Hd. by rewrite !(proj2 (Z.eqb_neq _ 0)) by lia.
Qed.

Lemma GetLE32_nonneg l v : Forall (fun b => 0 <= b < 256) l -> GetLE32 l = Some v -> 0 <= v.
Proof.
  intros Hl. do 4 (destruct Hl as [|? l ? Hl]; [done|]). cbn. intros [= <-].
  rewrite !Z.lor_nonneg. rewrite !Z.shiftl_nonneg. lia.
Qed.

Lemma declared_nonneg l : Forall (fun b => 0 <= b < 256) l -> CHUNK_HEADER_SIZE <= declared_size l.
Proof.
  intros Hl. unfold declared_size. destruct (GetLE32 (drop TAG_SIZE l)) as [v|] eqn:Hv; cbn [default]; [|lia].
  apply GetLE32_nonneg in Hv; [unfold id; lia|by apply Forall_drop].
Qed.

(** A file with a size that it does not have: one that is too short is refused,
    as long as the source says what is left of it; a size below that of the
    header, or too large for a chunk, deletes [mData.bytes] before it is set. *)
Theorem webp_bad_size `{!ExhaustiveSource S} gif_first (src : S) :
  let l := contents src in source_ok src -> Forall (fun b => 0 <= b < 256) l -> is_webp_file l = true ->
  ~ RIFF_HEADER_SIZE <= declared_size l <= Z.of_nat (length l) \/ CHUNK_HEADER_SIZE + MAX_CHUNK_PAYLOAD < declared_size l ->
  (create_sequence gif_first (new_stream src)).1 =
    if (declared_size l <? RIFF_HEADER_SIZE) || (CHUNK_HEADER_SIZE + MAX_CHUNK_PAYLOAD <? declared_size l) then Stuck else Returns None.
Proof.
  intros l Hok Hb Hw Hsize. destruct (create_webp gif_first src Hok Hw) as (s1 & Hs1 & ->). fold l in Hs1.
  assert (12 <= Z.of_nat (length l)) as Hlen by (unfold is_webp_file in Hw; lia).
  destruct (make_webp_header s1 l Hs1 Hlen) as (v & s2 & Hd & Hs2 & Hrun). pose proof (declared_nonneg l Hb) as Hv.
  unfold bind at 1. rewrite Hrun, Hd in *. destruct (Z.ltb_spec MAX_CHUNK_PAYLOAD v) as [Hbig|Hsmall].
  { cbn. by rewrite (proj2 (Z.ltb_lt (CHUNK_HEADER_SIZE + MAX_CHUNK_PAYLOAD) _)), orb_true_r by lia. }
  rewrite (proj2 (Z.ltb_ge (CHUNK_HEADER_SIZE + MAX_CHUNK_PAYLOAD) _)), orb_false_r by lia.
  rewrite u32_small by (unfold MAX_CHUNK_PAYLOAD, CHUNK_HEADER_SIZE in *; lia).
  destruct (Z.ltb_spec (CHUNK_HEADER_SIZE + v) RIFF_HEADER_SIZE) as [Hlt|Hge]; [done|].
  destruct (read_delivers (CHUNK_HEADER_SIZE + v - RIFF_HEADER_SIZE) s2 (drop 12 l) Hs2) as (s3 & Hread & _); [lia|by right|].
  unfold bind at 1. rewrite Hread. unfold bind at 1. rewrite mapM_id_Some. unfold of_option, ret at 1.
  rewrite length_take, length_drop. rewrite (proj2 (Z.eqb_neq _ _)) by (unfold RIFF_HEADER_SIZE in *; lia). done.
Qed.
End Create.
End Open.
