(* ===== verification/WebPWitness.v ===== *)
(** * libframesequence: an animated WebP file

    A demuxer and a file of three frames on a canvas of two by two: the second
    is disposed of to the background, and the third lets the first shine
    through.  The theorems of [WebPFrames] and [WebPOpen] at this file. *)

From stdpp Require Import base numbers list list_numbers.
From Stdlib Require Import Lia ZArith.
From S2P Require Import Prelude GifTypes GifDecode FrameSequence Stream WebP WebPDraw WebPFrames WebPOpen.

#[local] Open Scope Z_scope.
#[local] Open Scope c_scope.

Definition RED : Z := 0xff0000ff.
Definition GREEN : Z := 0xff00ff00.
Definition WHITE : Z := 0xffffffff.

(** A fragment is what it decodes to. *)
Definition demo_fragment : Type := bool * list (list Z).

Definition demo_frame (i : Z) : WebPIterator demo_fragment :=
  if i =? 0 then mkIterator 1 0 0 2 2 100 WEBP_MUX_DISPOSE_NONE false WEBP_MUX_NO_BLEND (true, [[RED; GREEN]; [GREEN; RED]])
  else if i =? 1 then mkIterator 2 0 0 1 2 200 WEBP_MUX_DISPOSE_BACKGROUND false WEBP_MUX_BLEND (true, [[WHITE]; [WHITE]])
  else mkIterator 3 0 0 2 1 300 WEBP_MUX_DISPOSE_NONE true WEBP_MUX_BLEND (true, [[TRANSPARENT; TRANSPARENT]]).

(** The file [bytes], if it has a header. *)
#[export] Instance demo_demux : Demux unit demo_fragment := {
  WebPDemux bytes := if 12 <=? Z.of_nat (length bytes) then Some tt else None;
  WebPDemuxGetI _ f :=
    match f with
    | WEBP_FF_FORMAT_FLAGS => 0
    | WEBP_FF_CANVAS_WIDTH => 2
    | WEBP_FF_CANVAS_HEIGHT => 2
    | WEBP_FF_LOOP_COUNT => 0
    | WEBP_FF_FRAME_COUNT => 3
    end;
  WebPDemuxGetFrame _ n := if (1 <=? n) && (n <=? 3) then Some (demo_frame (n - 1)) else if n =? 0 then Some (demo_frame 2) else None;
  WebPDecode f := f
}.

#[local] Ltac each_frame i :=
  let Hi := fresh "Hi" in intros i Hi; change (0 <= i < 3) in Hi; assert (i = 0 \/ i = 1 \/ i = 2) as [->|[->| ->]] by lia; clear Hi.

#[local] Ltac decided := refine (bool_decide_unpack _ _); vm_compute; exact I.

Lemma demo_file : webp_file tt demo_frame.
Proof.
  split.
  - by vm_compute.
  - by vm_compute.
  - each_frame i; done.
  - each_frame i; vm_compute; repeat split; discriminate.
  - each_frame i; (split; [by decided|split; [by vm_compute|reflexivity]]).
  - each_frame i; decided.
  - each_frame i; intros Ha; try (by vm_compute in Ha); decided.
Qed.

Lemma demo_sharp : no_partial_alpha tt demo_frame.
Proof. each_frame i; intros _; decided. Qed.

(** The sequence of the file: the first frame is the only key frame. *)
Definition demo_sequence : FrameSequence_webp (D := unit) :=
  mkFrameSequence_webp (Some []) (Some tt) 0 0 [true; false; false] false.

Lemma demo_sequence_of : sequence_of demo_sequence tt.
Proof. by vm_compute. Qed.

(** A bitmap with rows of three pixels. *)
Definition demo_state : webp_state := mkWebpState (replicate 6 WHITE) (replicate 4 WHITE).

Lemma demo_room : room tt 3 demo_state.
Proof. intros []; by vm_compute. Qed.

Definition draw_demo (n prev : Z) : M webp_state Z := webp_drawFrame demo_sequence 3 n prev.

(** The third frame, drawn over nothing: what is left of the first. *)
Example demo_third : draw_demo 2 (-1) demo_state
  = (Returns 200, mkWebpState [TRANSPARENT; GREEN; WHITE; TRANSPARENT; RED; WHITE] [TRANSPARENT; GREEN; TRANSPARENT; RED]).
Proof. by vm_compute. Qed.

Lemma webp_drawFrame_shows_witness :
  (exists r s', draw_demo 2 (-1) demo_state = (Returns r, s') /\ room tt 3 s' /\
    (shows tt 3 Output s' (shown demo_frame 2) /\ r = duration (demo_frame ((2 + 3 - 1) mod 3)) \/
     r = -1 /\ exists k, -1 < k <= 2 /\ 0 <= k /\ undecodable demo_frame 2 k)) /\
  shown demo_frame 2 0 0 = TRANSPARENT /\ shown demo_frame 2 1 0 = GREEN.
Proof.
  split; [|by vm_compute].
  apply (webp_drawFrame_shows tt demo_frame demo_file demo_sharp demo_sequence demo_sequence_of 3 ltac:(by vm_compute) 2 (-1) demo_state).
  - by vm_compute.
  - lia.
  - exact demo_room.
  - intros Hneg. lia.
Defined.

Lemma webp_skips_invisible_witness :
  exists r s' s0', draw_each demo_sequence 3 2 demo_state = (Returns r, s') /\
    webp_drawFrame demo_sequence 3 2 (-1) demo_state = (Returns r, s0') /\
    forall x y, point tt x y -> aget s'.(output_px) (y * 3 + x) = aget s0'.(output_px) (y * 3 + x).
Proof.
  apply (webp_skips_invisible tt demo_frame demo_file demo_sharp demo_sequence demo_sequence_of 3 ltac:(by vm_compute) 2 demo_state demo_state).
  - by each_frame i.
  - by vm_compute.
  - exact demo_room.
  - exact demo_room.
Defined.

(** ** Partial alpha *)

(** A white frame, and over its left pixel a black one that lets half of it
    through. *)
Definition HALF : Z := 0x80000000.
Definition partial_frame (i : Z) : WebPIterator demo_fragment :=
  if i =? 0 then mkIterator 1 0 0 2 1 100 WEBP_MUX_DISPOSE_NONE false WEBP_MUX_NO_BLEND (true, [[WHITE; WHITE]])
  else mkIterator 2 0 0 1 1 100 WEBP_MUX_DISPOSE_NONE true WEBP_MUX_BLEND (true, [[HALF]]).

#[export] Instance partial_demux : Demux bool demo_fragment := {
  WebPDemux _ := Some true;
  WebPDemuxGetI _ f :=
    match f with
    | WEBP_FF_FORMAT_FLAGS => 0
    | WEBP_FF_CANVAS_WIDTH => 2
    | WEBP_FF_CANVAS_HEIGHT => 1
    | WEBP_FF_LOOP_COUNT => 0
    | WEBP_FF_FRAME_COUNT => 2
    end;
  WebPDemuxGetFrame _ n := if (1 <=? n) && (n <=? 2) then Some (partial_frame (n - 1)) else None;
  WebPDecode f := f
}.

Definition partial_sequence : FrameSequence_webp (D := bool) := mkFrameSequence_webp (Some []) (Some true) 0 0 [true; false] false.

(** The second frame should be grey where it lies over the white one; the pixel
    it stores is the black one, half transparent. *)
Example partial_alpha_replaces :
  sequence_of partial_sequence true /\ shown partial_frame 1 0 0 = 0xff7f7f7f /\
  exists s', webp_drawFrame partial_sequence 2 1 (-1) (mkWebpState [0; 0] [0; 0]) = (Returns 100, s') /\
    s'.(output_px) = [HALF; WHITE].
Proof. split; [by vm_compute|]. split; [by vm_compute|]. eexists. split; by vm_compute. Qed.

(** "RIFF", the size of what follows, "WEBP", and [n] bytes. *)
Definition demo_bytes (size : Z) (n : nat) : list Z := RIFF ++ [size; 0; 0; 0] ++ WEBP ++ replicate n 7.
Definition demo_source (size : Z) (n : nat) : MemoryStream := mkMemoryStream (demo_bytes size n) (12 + Z.of_nat n).

(** A registry whose other format is never used. *)
Definition create_demo (gif_first : bool) : M (stream MemoryStream) (option (Z + FrameSequence_webp (D := unit))) :=
  create_sequence (ret 0) (fun _ => 0) (fun _ => 0) (fun _ => 0) (fun _ => ret tt) gif_first.

Lemma webp_file_created_witness :
  exists fs s', create_demo true (new_stream (demo_source 8 6)) = (Returns (Some (inr fs)), s') /\ sequence_of fs tt /\
    delivers s' [7; 7].
Proof.
  destruct (webp_file_created (ret 0) (fun _ => 0) (fun _ => 0) (fun _ => 0) (fun _ => ret tt) true (demo_source 8 6) tt demo_frame)
    as (fs & s' & H1 & H2 & H3).
  - by vm_compute.
  - by vm_compute.
  - split; by vm_compute.
  - exact demo_file.
  - exists fs, s'. split; [exact H1|]. split; [exact H2|].
    replace (drop _ _) with [7; 7] in H3 by (by vm_compute). exact H3.
Defined.

Lemma webp_bad_size_witness :
  (create_demo false (new_stream (demo_source 2 6))).1
    = (if (declared_size (contents (demo_source 2 6)) <? RIFF_HEADER_SIZE) ||
          (CHUNK_HEADER_SIZE + MAX_CHUNK_PAYLOAD <? declared_size (contents (demo_source 2 6))) then Stuck else Returns None) /\
  (create_demo false (new_stream (demo_source 2 6))).1 = Stuck /\ (create_demo false (new_stream (demo_source 11 6))).1 = Returns None.
Proof.
  split; [|split; by vm_compute].
  apply (webp_bad_size (ret 0) (fun _ => 0) (fun _ => 0) (fun _ => 0) (fun _ => ret tt) false (demo_source 2 6)).
  - by vm_compute.
  - repeat constructor; by vm_compute.
  - by vm_compute.
  - left. vm_compute. intros [Hx _]. by apply Hx.
Defined.
