(* ===== verification/Exidx.v ===== *)
(** * The ARM stack unwinder (libmemcheck/stacktrace)

    [Step] goes from the registers of a frame to those of its caller: it finds
    the exception index of the module that holds the program counter, looks the
    function up in it by binary search ([search_exidx_value]), collects the
    unwind bytes of the function ([arm_exidx_extract]) and runs them
    ([arm_exidx_decode], [arm_exidx_apply_cmd]) on a cursor.

    The memory of the process is a parameter: [load a] is the word at [a],
    [half a] the half-word, [None] if nothing is mapped there; a read of
    unmapped memory is [Stuck], as is a read or a write outside the 32 bytes of
    [buf] and a read of its bytes that were never written. *)

From stdpp Require Import base numbers list list_numbers.
From Stdlib Require Import Lia ZArith.
From S2P Require Import Prelude.

#[local] Open Scope Z_scope.
#[local] Open Scope c_scope.

Definition ARM_EXIDX_CANT_UNWIND := 0x00000001.
Definition ARM_EXIDX_COMPACT := 0x80000000.
Definition ARM_EXTBL_OP_FINISH := 0xb0.
Definition STEP_STOP := -1.
Definition STEP_PC_LR := -2.
Definition ARM_SP := 13.
Definition ARM_LR := 14.
Definition ARM_PC := 15.
Definition ARM_EXIDX_VFP_SHIFT_16 := 0x10000.
Definition ARM_EXIDX_VFP_DOUBLE := 0x20000.
Definition ARM_EXIDX := 0x70000001.

(** ** Data *)

Record t_cursor : Type := mk_cursor {
  regs : list Z;
  base_addr : Z;
  pc_offest : Z;
  step_status : Z;
  exidx_start_addr : Z;
  exidx_end_addr : Z
}.

Definition set_regs (v : list Z) (c : t_cursor) : t_cursor :=
  mk_cursor v c.(base_addr) c.(pc_offest) c.(step_status) c.(exidx_start_addr) c.(exidx_end_addr).
Definition set_step_status (v : Z) (c : t_cursor) : t_cursor :=
  mk_cursor c.(regs) c.(base_addr) c.(pc_offest) v c.(exidx_start_addr) c.(exidx_end_addr).

Inductive arm_exbuf_cmd : Type :=
| ARM_EXIDX_CMD_FINISH
| ARM_EXIDX_CMD_DATA_PUSH
| ARM_EXIDX_CMD_DATA_POP
| ARM_EXIDX_CMD_REG_POP
| ARM_EXIDX_CMD_REG_TO_SP
| ARM_EXIDX_CMD_VFP_POP
| ARM_EXIDX_CMD_WREG_POP
| ARM_EXIDX_CMD_WCGR_POP
| ARM_EXIDX_CMD_RESERVED
| ARM_EXIDX_CMD_REFUSED.

(** [data] is 0 where the code leaves it alone (and does not read it). *)
Record arm_exbuf_data : Type := mk_exbuf { cmd : arm_exbuf_cmd; data : Z }.

(** The registers of the signal context. *)
Record sigcontext : Type := mk_sigcontext {
  arm_r0 : Z; arm_r1 : Z; arm_r2 : Z; arm_r3 : Z; arm_r4 : Z; arm_r5 : Z; arm_r6 : Z; arm_r7 : Z;
  arm_r8 : Z; arm_r9 : Z; arm_r10 : Z; arm_fp : Z; arm_ip : Z; arm_sp : Z; arm_lr : Z; arm_pc : Z
}.

Definition copyregs_to_cursor (s : sigcontext) : list Z :=
  [s.(arm_r0); s.(arm_r1); s.(arm_r2); s.(arm_r3); s.(arm_r4); s.(arm_r5); s.(arm_r6); s.(arm_r7);
   s.(arm_r8); s.(arm_r9); s.(arm_r10); s.(arm_fp); s.(arm_ip); s.(arm_sp); s.(arm_lr); s.(arm_pc)].

Definition copyregs_to_sigctx (r : list Z) : option sigcontext :=
  match r with
  | r0 :: r1 :: r2 :: r3 :: r4 :: r5 :: r6 :: r7 :: r8 :: r9 :: r10 :: fp :: ip :: sp :: lr :: pc :: _ =>
      Some (mk_sigcontext r0 r1 r2 r3 r4 r5 r6 r7 r8 r9 r10 fp ip sp lr pc)
  | _ => None
  end.

Abbreviation StepM := (M t_cursor).

(** [(int)pre31 << 1 >> 1] *)
Definition get_off_pre31 (pre31 : Z) : Z := Z.shiftr (i32 (Z.shiftl (i32 pre31) 1)) 1.

Definition get_reg (i : Z) : StepM Z := let! r := gets regs in of_option (aget r i).

Definition set_reg (i v : Z) : StepM unit :=
  let! r := gets regs in
  let! r := of_option (aset r i v) in
  modify (set_regs r).

(** [buf[nbuf++] = v] with [uint8_t buf[32]] *)
Definition put (buf : list Z) (v : Z) : StepM (list Z) :=
  if 32 <=? Z.of_nat (length buf) then stuck else ret (buf ++ [u8 v]).

Definition put_all (vs : list Z) (buf : list Z) : StepM (list Z) := foldM put vs buf.

(** ** One unwind instruction *)

(** [do { byte = READ_OP(); offset |= (byte & 0x7f) << shift; shift += 7; } while (byte & 0x80);]
    A shift by 32 or more is undefined. *)
Fixpoint read_uleb (bs : list Z) (offset shift : Z) : option (Z * list Z) :=
  match bs with
  | [] => None
  | byte :: bs =>
      if 32 <=? shift then None
      else
        let offset := Z.lor offset (u32 (Z.shiftl (Z.land byte 0x7f) shift)) in
        if test byte 0x80 then read_uleb bs offset (shift + 7) else Some (offset, bs)
  end.

(** [READ_OP()] for a second byte. *)
Definition with_op2 (bs : list Z) (f : Z -> arm_exbuf_data) : option (arm_exbuf_data * list Z) :=
  match bs with op2 :: bs => Some (f op2, bs) | [] => None end.

(** The command of the instruction that starts with [op] and the bytes behind
    it; [None] if it reads past the bytes there are. *)
Definition decode_op (op : Z) (bs : list Z) : option (arm_exbuf_data * list Z) :=
  if Z.land op 0xc0 =? 0x00 then
    Some (mk_exbuf ARM_EXIDX_CMD_DATA_POP (Z.shiftl (Z.land op 0x3f) 2 + 4), bs)
  else if Z.land op 0xc0 =? 0x40 then
    Some (mk_exbuf ARM_EXIDX_CMD_DATA_PUSH (Z.shiftl (Z.land op 0x3f) 2 + 4), bs)
  else if Z.land op 0xf0 =? 0x80 then
    with_op2 bs (fun op2 =>
      if (op =? 0x80) && (op2 =? 0x00) then mk_exbuf ARM_EXIDX_CMD_REFUSED 0
      else mk_exbuf ARM_EXIDX_CMD_REG_POP (Z.shiftl (Z.lor (Z.shiftl (Z.land op 0xf) 8) op2) 4))
  else if Z.land op 0xf0 =? 0x90 then
    Some (if (op =? 0x9d) || (op =? 0x9f) then mk_exbuf ARM_EXIDX_CMD_RESERVED 0
          else mk_exbuf ARM_EXIDX_CMD_REG_TO_SP (Z.land op 0x0f), bs)
  else if Z.land op 0xf0 =? 0xa0 then
    let end_ := Z.land op 0x07 in
    let d := Z.shiftl (Z.shiftl 1 (end_ + 1) - 1) 4 in
    Some (mk_exbuf ARM_EXIDX_CMD_REG_POP (if test op 0x08 then Z.lor d (Z.shiftl 1 14) else d), bs)
  else if op =? ARM_EXTBL_OP_FINISH then
    Some (mk_exbuf ARM_EXIDX_CMD_FINISH 0, [])
  else if op =? 0xb1 then
    with_op2 bs (fun op2 =>
      if (op2 =? 0) || test op2 0xf0 then mk_exbuf ARM_EXIDX_CMD_RESERVED 0
      else mk_exbuf ARM_EXIDX_CMD_REG_POP (Z.land op2 0x0f))
  else if op =? 0xb2 then
    match read_uleb bs 0 0 with
    | Some (offset, bs) => Some (mk_exbuf ARM_EXIDX_CMD_DATA_POP (u32 (offset * 4 + 0x204)), bs)
    | None => None
    end
  else if (op =? 0xb3) || (op =? 0xc8) || (op =? 0xc9) then
    with_op2 bs (fun op2 =>
      let d := if op =? 0xc8 then Z.lor op2 ARM_EXIDX_VFP_SHIFT_16 else op2 in
      mk_exbuf ARM_EXIDX_CMD_VFP_POP (if negb (op =? 0xb3) then Z.lor d ARM_EXIDX_VFP_DOUBLE else d))
  else if (Z.land op 0xf8 =? 0xb8) || (Z.land op 0xf8 =? 0xd0) then
    let d := Z.lor 0x80 (Z.land op 0x07) in
    Some (mk_exbuf ARM_EXIDX_CMD_VFP_POP (if Z.land op 0xf8 =? 0xd0 then Z.lor d ARM_EXIDX_VFP_DOUBLE else d), bs)
  else if (0xc0 <=? op) && (op <=? 0xc5) then
    Some (mk_exbuf ARM_EXIDX_CMD_WREG_POP (Z.lor 0xa0 (Z.land op 0x07)), bs)
  else if op =? 0xc6 then
    with_op2 bs (mk_exbuf ARM_EXIDX_CMD_WREG_POP)
  else if op =? 0xc7 then
    with_op2 bs (fun op2 =>
      if (op2 =? 0) || test op2 0xf0 then mk_exbuf ARM_EXIDX_CMD_RESERVED 0
      else mk_exbuf ARM_EXIDX_CMD_WCGR_POP (Z.land op2 0x0f))
  else Some (mk_exbuf ARM_EXIDX_CMD_RESERVED 0, bs).

Section Memory.
Context (load half : Z -> option Z).

(** One round of the loop over the registers of [ARM_EXIDX_CMD_REG_POP]. *)
Definition pop_reg (mask i : Z) : StepM unit :=
  if test mask (Z.shiftl 1 i) then
    let! sp := get_reg ARM_SP in
    let! v := of_option (load sp) in
    set_reg i v ;;!
    let! sp := get_reg ARM_SP in
    set_reg ARM_SP (u32 (sp + 4))
  else ret tt.

Definition arm_exidx_apply_cmd (edata : arm_exbuf_data) : StepM Z :=
  match edata.(cmd) with
  | ARM_EXIDX_CMD_FINISH =>
      let! pc := get_reg ARM_PC in
      let! lr := get_reg ARM_LR in
      if pc =? lr then modify (set_step_status STEP_PC_LR) ;;! ret 0
      else set_reg ARM_PC lr ;;! ret 0
  | ARM_EXIDX_CMD_DATA_PUSH =>
      let! sp := get_reg ARM_SP in set_reg ARM_SP (u32 (sp - edata.(data))) ;;! ret 0
  | ARM_EXIDX_CMD_DATA_POP =>
      let! sp := get_reg ARM_SP in set_reg ARM_SP (u32 (sp + edata.(data))) ;;! ret 0
  | ARM_EXIDX_CMD_REG_POP => for_each (pop_reg edata.(data)) (seqZ 0 16) ;;! ret 0
  | ARM_EXIDX_CMD_REG_TO_SP =>
      let! v := get_reg edata.(data) in set_reg ARM_SP v ;;! ret 0
  | ARM_EXIDX_CMD_VFP_POP => ret 0
  | ARM_EXIDX_CMD_WREG_POP => ret 0
  | ARM_EXIDX_CMD_WCGR_POP => ret 0
  | ARM_EXIDX_CMD_RESERVED | ARM_EXIDX_CMD_REFUSED => ret (-1)
  end.

(** One round of [while (buf < end)]. *)
Definition decode_round (bs : list Z) : StepM (list Z + Z) :=
  match bs with
  | [] => ret (inr 0)
  | op :: bs =>
      let! ' (edata, bs) := of_option (decode_op op bs) in
      let! r := arm_exidx_apply_cmd edata in
      if r <? 0 then ret (inr r) else ret (inl bs)
  end.

Definition arm_exidx_decode (buf : list Z) : StepM Z := loop (S (length buf)) decode_round buf.

(** ** The index *)

(** The offset of the function of an entry. *)
Definition exidx_key (base a : Z) : option Z :=
  match load a with Some w => Some (Z.land (u32 (w + a - base)) 0x7FFFFFFF) | None => None end.

Fixpoint search_in (fuel : nat) (start end_ base key : Z) : option Z :=
  match fuel with
  | O => None
  | S fuel =>
      if end_ <=? start then Some 0
      else
        let mid := u32 (start + (end_ - start) / 8 / 2 * 8) in
        match exidx_key base (u32 (mid - 8)), exidx_key base mid, exidx_key base (u32 (mid + 8)) with
        | Some key_pre, Some key_mid, Some key_flo =>
            if (key_mid <=? key) && (key <=? key_flo) then Some mid
            else if (key <=? key_mid) && (key_pre <=? key) then Some (u32 (mid - 8))
            else if key_mid <=? key then search_in fuel (u32 (mid + 8)) end_ base key
            else if key <? key_mid then search_in fuel start (u32 (mid - 8)) base key
            else Some 0
        | _, _, _ => None
        end
  end.

(** Every call leaves at least one entry out. *)
Definition search_exidx_value (start end_ base key : Z) : option Z :=
  search_in (Z.to_nat ((end_ - start) / 8 + 2)) start end_ base key.

(** The loop over the additional words of a long entry. *)
Fixpoint more_words (n : nat) (addr : Z) (buf : list Z) : StepM (list Z) :=
  match n with
  | O => ret buf
  | S n =>
      let! w := of_option (load addr) in
      let! buf := put_all [Z.shiftr w 24; Z.shiftr w 16; Z.shiftr w 8; w] buf in
      more_words n (u32 (addr + 4)) buf
  end.

(** [if (nbuf > 0 && buf[nbuf - 1] != ARM_EXTBL_OP_FINISH) buf[nbuf++] = ARM_EXTBL_OP_FINISH;] *)
Definition add_finish (buf : list Z) : StepM (list Z) :=
  match last buf with
  | Some b => if b =? ARM_EXTBL_OP_FINISH then ret buf else put buf ARM_EXTBL_OP_FINISH
  | None => ret buf
  end.

(** The result and the bytes in [buf]. *)
Definition arm_exidx_extract : StepM (Z * list Z) :=
  let! c := gets (fun c => c) in
  let! kv := of_option (search_exidx_value c.(exidx_start_addr) c.(exidx_end_addr) c.(base_addr) c.(pc_offest)) in
  if kv =? 0 then modify (set_step_status STEP_STOP) ;;! ret (0, [])
  else
    let! value := of_option (load (u32 (kv + 4))) in
    if value =? ARM_EXIDX_CANT_UNWIND then ret (0, [])
    else if test value ARM_EXIDX_COMPACT then
      let! buf := put_all [Z.shiftr value 16; Z.shiftr value 8; value] [] in
      let! buf := add_finish buf in
      ret (Z.of_nat (length buf), buf)
    else
      let tbl := u32 (kv + 4 + get_off_pre31 value) in
      let! ext := of_option (load tbl) in
      if test ext ARM_EXIDX_COMPACT then
        let idx := Z.land (Z.shiftr ext 24) 0x0f in
        let long := (idx =? 1) || (idx =? 2) in
        let! buf := (if long then ret [] else put_all [Z.shiftr ext 16] []) in
        let! buf := put_all [Z.shiftr ext 8; ext] buf in
        let! buf := (if long then more_words (Z.to_nat (Z.land (Z.shiftr ext 16) 0xff)) (u32 (tbl + 4)) buf
                     else ret buf) in
        let! buf := add_finish buf in
        ret (Z.of_nat (length buf), buf)
      else
        let! ext := of_option (load (u32 (get_off_pre31 ext + tbl + 4))) in
        let! buf := put_all [Z.shiftr ext 16; Z.shiftr ext 8; ext] [] in
        ret (-1, buf).

Definition arm_exidx_step : StepM Z :=
  let! ' (r, buf) := arm_exidx_extract in
  let! r := (if 0 <? r then arm_exidx_decode buf else ret r) in
  let! st := gets step_status in
  if (st =? STEP_STOP) || (r =? -1) then ret (-1)
  else if st =? STEP_PC_LR then ret (-2)
  else ret 0.

(** ** A step *)

(** [n]: the entries of the segment; beyond them the loop reads outside it. *)
Fixpoint move_to_valid_addr (n : nat) (exidx_start : Z) : option Z :=
  match n with
  | O => None
  | S n =>
      match load (u32 (exidx_start + 4)) with
      | None => None
      | Some value => if value =? 1 then move_to_valid_addr n (u32 (exidx_start + 8)) else Some exidx_start
      end
  end.

Definition sizeof_Phdr := 32.

(** The loop over the program headers, from the last one down. *)
Fixpoint find_phdr (n : nat) (pPHdr : Z) : option Z :=
  match n with
  | O => Some pPHdr
  | S n =>
      let p := u32 (pPHdr + sizeof_Phdr * Z.of_nat n) in
      match load p with
      | None => None
      | Some p_type => if p_type =? ARM_EXIDX then Some p else find_phdr n pPHdr
      end
  end.

(** [Step]: the result, and the context it leaves.  [dladdr pc] is the base of
    the module with [pc] ([None]: no name is found); [cpsr] and [status] are
    what the uninitialised fields of the cursor hold. *)
Definition Step (dladdr : Z -> option Z) (cpsr status : Z) : M sigcontext Z :=
  let! sig := gets (fun s => s) in
  match dladdr sig.(arm_pc) with
  | None => ret (-1)
  | Some base =>
      let! e_phoff := of_option (load (u32 (base + 28))) in
      let! e_phnum := of_option (half (u32 (base + 44))) in
      let! pPHdr := of_option (find_phdr (Z.to_nat e_phnum) (u32 (base + e_phoff))) in
      let! p_type := of_option (load pPHdr) in
      if negb (p_type =? ARM_EXIDX) then ret (-1)
      else
        let! p_paddr := of_option (load (u32 (pPHdr + 12))) in
        let exidx_start := u32 (p_paddr + base) in
        let! p_memsz := of_option (load (u32 (pPHdr + 20))) in
        let! valid := of_option (move_to_valid_addr (Z.to_nat (p_memsz / 8)) exidx_start) in
        let cursor := mk_cursor (copyregs_to_cursor sig ++ [cpsr]) base (u32 (sig.(arm_pc) - base)) status
                        valid (u32 (exidx_start + p_memsz - 8)) in
        match arm_exidx_step cursor with
        | (Returns r, c) =>
            if r <? 0 then ret r
            else
              let! sig := of_option (copyregs_to_sigctx c.(regs)) in
              modify (fun _ => sig) ;;!
              ret 1
        | (Fails, _) => fail
        | (Stuck, _) => stuck
        end
  end.
End Memory.
