(* ===== verification/ExidxFrame.v ===== *)
(** * The ARM stack unwinder: a frame, undone

    The prologue of a function as operations on registers and stack ([pro],
    [enter], [stores]); the unwind instructions that undo it ([undoes], from
    the table in the comment of [arm_exidx_decode]); and the theorem that the
    unwinder recovers the registers of the caller from them. *)

From stdpp Require Import base numbers list list_numbers.
From Stdlib Require Import Lia ZArith.
From S2P Require Import Prelude Exidx.

#[local] Open Scope Z_scope.
#[local] Open Scope c_scope.

(** ** Registers *)

Definition reg (R : list Z) (i : Z) : Z := default 0 (R !! Z.to_nat i).

Definition regs_ok (R : list Z) : Prop := length R = 17%nat /\ Forall (fun v => 0 <= v < 4294967296) R.

Lemma aget_reg R i : regs_ok R -> 0 <= i < 17 -> aget R i = Some (reg R i).
Proof.
  intros [Hl _] Hi. unfold aget, reg. rewrite decide_True by lia.
  destruct (lookup_lt_is_Some_2 R (Z.to_nat i)) as [v Hv]; [lia|]. by rewrite Hv.
Qed.

Lemma reg_range R i : regs_ok R -> 0 <= i < 17 -> 0 <= reg R i < 4294967296.
Proof. intros H Hi. pose proof (aget_reg R i H Hi) as Ha. by apply (aget_Forall _ _ _ _ (proj2 H) Ha). Qed.

(** The registers with [v] in register [i]. *)
Definition upd_reg (i v : Z) (R : list Z) : list Z := <[Z.to_nat i := v]> R.

Lemma regs_ok_upd i v R : regs_ok R -> 0 <= v < 4294967296 -> regs_ok (upd_reg i v R).
Proof. intros [Hl Hf] Hv. split; [unfold upd_reg; by rewrite length_insert|by apply Forall_insert]. Qed.

Lemma reg_upd i v R j : regs_ok R -> 0 <= i < 17 -> 0 <= j -> reg (upd_reg i v R) j = if i =? j then v else reg R j.
Proof.
  intros [Hl _] Hi Hj. unfold reg, upd_reg. destruct (Z.eqb_spec i j) as [->|Hne].
  - by rewrite list_lookup_insert_eq by lia.
  - by rewrite list_lookup_insert_ne by lia.
Qed.

Lemma wp_get_reg i (Q : Z -> t_cursor -> Prop) E c :
  regs_ok c.(regs) -> 0 <= i < 17 -> Q (reg c.(regs) i) c -> wp (get_reg i) Q E c.
Proof. intros Hr Hi HQ. unfold get_reg. do 2 wp_step. by eapply wp_of_option; [apply aget_reg|]. Qed.

Lemma wp_set_reg i v (Q : unit -> t_cursor -> Prop) E c :
  regs_ok c.(regs) -> 0 <= i < 17 -> Q tt (set_regs (upd_reg i v c.(regs)) c) -> wp (set_reg i v) Q E c.
Proof.
  intros [Hl _] Hi HQ. unfold set_reg. do 2 wp_step. eapply wp_bind, wp_of_option; [apply aset_Some; lia|]. by apply wp_modify.
Qed.

(** ** Prologues *)

(** [push {...}], [sub sp, sp, #n] and [mov r, sp]. *)
Inductive pro : Type :=
| Push (mask : Z)
| SubSp (n : Z)
| SetFp (r : Z).

(** The registers of [mask] below [i]. *)
Definition count_below (mask i : Z) : Z := Z.of_nat (length (filter (fun j => Z.testbit mask j = true) (seqZ 0 i))).

Definition pushed_sp (mask : Z) (R : list Z) : Z := u32 (reg R ARM_SP - 4 * count_below mask 16).

Definition enter (p : pro) (R : list Z) : list Z :=
  match p with
  | Push mask => upd_reg ARM_SP (pushed_sp mask R) R
  | SubSp n => upd_reg ARM_SP (u32 (reg R ARM_SP - n)) R
  | SetFp r => upd_reg r (reg R ARM_SP) R
  end.

(** The words a prologue step stores: the lowest register at the lowest
    address. *)
Definition stored (load : Z -> option Z) (p : pro) (R : list Z) : Prop :=
  match p with
  | Push mask => forall i, 0 <= i < 16 -> Z.testbit mask i = true ->
      load (u32 (pushed_sp mask R + 4 * count_below mask i)) = Some (reg R i)
  | _ => True
  end.

Fixpoint enter_all (ps : list pro) (R : list Z) : list Z :=
  match ps with [] => R | p :: ps => enter_all ps (enter p R) end.

(** The stack still holds what the prologue stored. *)
Fixpoint stored_all (load : Z -> option Z) (ps : list pro) (R : list Z) : Prop :=
  match ps with [] => True | p :: ps => stored load p R /\ stored_all load ps (enter p R) end.

(** [SP] and [PC] are not pushed, and are no frame pointers. *)
Definition pro_ok (p : pro) : Prop :=
  match p with
  | Push mask => Z.testbit mask 13 = false /\ Z.testbit mask 15 = false
  | SubSp n => True
  | SetFp r => 0 <= r < 15 /\ r <> 13
  end.

Lemma enter_ok p R : pro_ok p -> regs_ok R -> regs_ok (enter p R).
Proof.
  intros Hp HR. destruct p as [mask|n|r]; cbn; apply regs_ok_upd; try done; try apply u32_range.
  apply reg_range; [done|unfold ARM_SP; lia].
Qed.

(** ** What is known of the registers

    [K] is a mask: the registers that hold what they held at that point. *)

Definition agree (K : Z) (R R' : list Z) : Prop := forall i, 0 <= i < 16 -> Z.testbit K i = true -> reg R i = reg R' i.

(** Undoing a step makes registers known (or, for the frame pointer, unknown). *)
Definition known (p : pro) (K : Z) : Z :=
  match p with
  | Push mask => Z.lor K mask
  | SubSp _ => K
  | SetFp r => Z.lor (Z.clearbit K r) (Z.shiftl 1 13)
  end.

(** What undoing a step needs to know. *)
Definition can_undo (p : pro) (K : Z) : bool :=
  match p with Push _ | SubSp _ => Z.testbit K 13 | SetFp r => Z.testbit K r end.

Fixpoint known_all (ps : list pro) (K : Z) : Z :=
  match ps with [] => K | p :: ps => known p (known_all ps K) end.

Fixpoint can_undo_all (ps : list pro) (K : Z) : bool :=
  match ps with [] => true | p :: ps => can_undo p (known_all ps K) && can_undo_all ps K end.

(** ** Unwind instructions *)

(** Unsigned LEB128. *)
Fixpoint uleb (n : nat) (u : Z) : list Z :=
  match n with
  | O => [u]
  | S n => if u <? 128 then [u] else (u mod 128 + 128) :: uleb n (u / 128)
  end.

Inductive undoes : pro -> list Z -> Prop :=
| undo_small x : 0 <= x < 64 -> undoes (SubSp (4 * x + 4)) [x]
| undo_add x : 0 <= x < 64 -> undoes (SubSp (- (4 * x + 4))) [0x40 + x]
| undo_large u : 0 <= u < 2 ^ 28 -> undoes (SubSp (0x204 + 4 * u)) (0xb2 :: uleb 3 u)
| undo_push hi lo : hi ∈ [0; 1; 4; 5] -> 0 <= lo < 256 -> hi <> 0 \/ lo <> 0 ->
    undoes (Push (Z.shiftl (Z.lor (Z.shiftl hi 8) lo) 4)) [0x80 + hi; lo]
| undo_range n : 0 <= n < 8 -> undoes (Push (Z.shiftl (Z.shiftl 1 (n + 1) - 1) 4)) [0xa0 + n]
| undo_range_lr n : 0 <= n < 8 -> undoes (Push (Z.lor (Z.shiftl (Z.shiftl 1 (n + 1) - 1) 4) (Z.shiftl 1 14))) [0xa8 + n]
| undo_low m : 1 <= m < 16 -> undoes (Push m) [0xb1; m]
| undo_fp r : 0 <= r < 15 -> r <> 13 -> undoes (SetFp r) [0x90 + r].

(** The command of a step. *)
Definition undo_cmd (p : pro) : arm_exbuf_data :=
  match p with
  | Push mask => mk_exbuf ARM_EXIDX_CMD_REG_POP mask
  | SubSp n => if 0 <=? n then mk_exbuf ARM_EXIDX_CMD_DATA_POP n else mk_exbuf ARM_EXIDX_CMD_DATA_PUSH (- n)
  | SetFp r => mk_exbuf ARM_EXIDX_CMD_REG_TO_SP r
  end.

(** A condition on a few numbers, checked one by one. *)
Ltac each x lo n :=
  let H := fresh in
  assert (x ∈ seqZ lo n) as H by (apply elem_of_seqZ; lia);
  repeat match goal with H' : context [x] |- _ => tryif constr_eq H' H then fail else clear H' end;
  lazymatch goal with |- ?G =>
    lazymatch (eval pattern x in G) with ?P _ => revert x H; apply (proj1 (Forall_forall P _)) end
  end;
  let l := eval vm_compute in (seqZ lo n) in change (seqZ lo n) with l;
  repeat (apply Forall_cons_2; [vm_compute; intros; first [discriminate | repeat split]|]); apply Forall_nil_2.

Lemma read_uleb_back n : forall u off shift rest, 0 <= u < 2 ^ (28 - shift) -> u < 128 ^ (Z.of_nat n + 1) -> 0 <= shift <= 28 ->
  0 <= off < 2 ^ shift -> read_uleb (uleb n u ++ rest) off shift = Some (off + 2 ^ shift * u, rest).
Proof.
  assert (forall off shift v u, 0 <= shift <= 28 -> 0 <= off < 2 ^ shift -> 0 <= v <= u -> u < 2 ^ (28 - shift) ->
    Z.lor off (u32 (Z.shiftl v shift)) = off + 2 ^ shift * v) as Hor.
  { intros off shift v u Hs Ho Hv Hu. rewrite u32_small; [apply lor_shiftl; lia|].
    rewrite Z.shiftl_mul_pow2 by lia. assert (v * 2 ^ shift < 2 ^ (28 - shift) * 2 ^ shift) by nia.
    rewrite <- Z.pow_add_r in H by lia. replace (28 - shift + shift) with 28 in H by lia. lia. }
  assert (forall u, 0 <= u < 128 -> Z.land u 0x7f = u /\ test u 0x80 = false) as Hlow by (intros u Hu; each u 0 128).
  assert (forall v, 0 <= v < 128 -> Z.land (v + 128) 0x7f = v /\ test (v + 128) 0x80 = true) as Hhigh by (intros v Hv; each v 0 128).
  induction n as [|n IH]; intros u off shift rest Hu Hn Hs Ho; cbn [uleb].
  - cbn [app read_uleb]. rewrite (proj2 (Z.leb_gt _ _)) by lia. destruct (Hlow u) as [-> ->]; [lia|]. by rewrite (Hor _ _ u u) by lia.
  - destruct (Z.ltb_spec u 128) as [Hlt|Hge]; cbn [app read_uleb]; rewrite (proj2 (Z.leb_gt _ _)) by lia.
    + destruct (Hlow u) as [-> ->]; [lia|]. by rewrite (Hor _ _ u u) by lia.
    + pose proof (Z.mod_pos_bound u 128). pose proof (Z.div_mod u 128).
      destruct (Hhigh (u mod 128)) as [-> ->]; [lia|]. rewrite (Hor _ _ _ u) by lia.
      assert (7 <= 28 - shift) as Hs7.
      { destruct (Z.le_gt_cases 7 (28 - shift)); [done|]. assert (2 ^ (28 - shift) <= 2 ^ 6) by (apply Z.pow_le_mono_r; lia). cbn in *. lia. }
      rewrite IH; [f_equal; f_equal| | |lia|].
      * rewrite Z.pow_add_r by lia. change (2 ^ 7) with 128. nia.
      * split; [apply Z.div_pos; lia|]. apply Z.div_lt_upper_bound; [lia|]. change 128 with (2 ^ 7). rewrite <- Z.pow_add_r by lia.
        replace (7 + (28 - (shift + 7))) with (28 - shift) by lia. lia.
      * apply Z.div_lt_upper_bound; [lia|]. replace (Z.of_nat (S n) + 1) with (1 + (Z.of_nat n + 1)) in Hn by lia.
        rewrite Z.pow_add_r in Hn by lia. lia.
      * rewrite Z.pow_add_r by lia. change (2 ^ 7) with 128. nia.
Qed.

Lemma undoes_decode p code rest : undoes p code ->
  exists op bs, code = op :: bs /\ decode_op op (bs ++ rest) = Some (undo_cmd p, rest) /\ pro_ok p.
Proof.
  destruct 1 as [x Hx|x Hx|u Hu|hi lo Hhi Hlo Hne|n Hn|n Hn|m Hm|r Hr Hne].
  - exists x, []. split; [done|]. split; [|done]. each x 0 64.
  - exists (0x40 + x), []. split; [done|]. split; [|done]. each x 0 64.
  - exists 0xb2, (uleb 3 u). split; [done|]. split; [|done]. change (2 ^ 28) with 268435456 in Hu.
    change (decode_op 0xb2 (uleb 3 u ++ rest)) with (match read_uleb (uleb 3 u ++ rest) 0 0 with
      | Some (offset, bs) => Some (mk_exbuf ARM_EXIDX_CMD_DATA_POP (u32 (offset * 4 + 0x204)), bs) | None => None end).
    rewrite read_uleb_back by (cbn; lia). cbn [Z.pow]. rewrite u32_small by lia. unfold undo_cmd.
    rewrite (proj2 (Z.leb_le _ _)) by lia. do 3 f_equal. lia.
  - exists (0x80 + hi), [lo]. split; [done|]. split.
    + assert (0 <= hi < 16) as Hh by (repeat (apply elem_of_cons in Hhi as [->|Hhi]; [lia|]); by apply elem_of_nil in Hhi).
      assert ((0x80 + hi =? 0x80) && (lo =? 0) = false) as Href.
      { destruct (Z.eqb_spec (0x80 + hi) 0x80), (Z.eqb_spec lo 0); try done. lia. }
      assert (decode_op (0x80 + hi) ([lo] ++ rest) =
        Some (if (0x80 + hi =? 0x80) && (lo =? 0x00) then mk_exbuf ARM_EXIDX_CMD_REFUSED 0
              else mk_exbuf ARM_EXIDX_CMD_REG_POP (Z.shiftl (Z.lor (Z.shiftl hi 8) lo) 4), rest)) as ->; [|by rewrite Href].
      clear -Hhi. repeat (apply elem_of_cons in Hhi as [->|Hhi]; [reflexivity|]). by apply elem_of_nil in Hhi.
    + unfold pro_ok. assert (forall k, 8 <= k -> Z.testbit lo k = false) as Hlo8.
      { intros k Hk. rewrite <- (Z.mod_small lo (2 ^ 8)) by (cbn; lia). by apply Z.mod_pow2_bits_high; lia. }
      rewrite !Z.shiftl_spec, !Z.lor_spec, !Z.shiftl_spec, !Hlo8 by lia.
      repeat (apply elem_of_cons in Hhi as [->|Hhi]; [done|]). by apply elem_of_nil in Hhi.
  - exists (0xa0 + n), []. split; [done|]. split; [each n 0 8|]. cbn. each n 0 8.
  - exists (0xa8 + n), []. split; [done|]. split; [each n 0 8|]. cbn. each n 0 8.
  - exists 0xb1, [m]. split; [done|]. split; [each m 1 15|]. cbn. each m 1 15.
  - exists (0x90 + r), []. split; [done|]. split; [|done].
    assert (r ∈ [0; 1; 2; 3; 4; 5; 6; 7; 8; 9; 10; 11; 12; 14]) as Hin.
    { rewrite !elem_of_cons. lia. }
    clear Hr Hne. revert r Hin. apply Forall_forall. repeat (apply Forall_cons_2; [reflexivity|]). apply Forall_nil_2.
Qed.

(** ** Undoing a step *)

Lemma test_bit x i : 0 <= i -> test x (Z.shiftl 1 i) = Z.testbit x i.
Proof.
  intros Hi. unfold test. assert (Z.land x (Z.shiftl 1 i) = if Z.testbit x i then Z.shiftl 1 i else 0) as ->.
  { apply Z.bits_inj'. intros k Hk. rewrite Z.land_spec, Z.shiftl_1_l, Z.pow2_bits_eqb by lia.
    destruct (Z.eqb_spec i k) as [<-|Hne].
    - rewrite andb_true_r. destruct (Z.testbit x i); [by rewrite Z.pow2_bits_true by lia|by rewrite Z.bits_0].
    - rewrite andb_false_r. destruct (Z.testbit x i); [by rewrite Z.pow2_bits_false by lia|by rewrite Z.bits_0]. }
  rewrite Z.shiftl_1_l. destruct (Z.testbit x i); [|done].
  assert (0 < 2 ^ i) by (apply Z.pow_pos_nonneg; lia). by rewrite (proj2 (Z.eqb_neq _ 0)) by lia.
Qed.

Lemma count_below_succ mask i : 0 <= i ->
  count_below mask (i + 1) = count_below mask i + (if Z.testbit mask i then 1 else 0).
Proof.
  intros Hi. unfold count_below. rewrite seqZ_app by lia. rewrite filter_app, length_app, Z.add_0_l.
  change (seqZ i 1) with [i]. destruct (Z.testbit mask i) eqn:E.
  - rewrite (filter_cons_True _ i []) by done. cbn. lia.
  - rewrite (filter_cons_False _ i []) by (by rewrite E). cbn. lia.
Qed.

(** The loop that pops the registers of [mask], which were pushed from the
    registers [R]. *)
Lemma wp_pop_regs load mask R (Q : unit -> t_cursor -> Prop) E c :
  regs_ok c.(regs) -> regs_ok R -> pro_ok (Push mask) -> stored load (Push mask) R ->
  reg c.(regs) ARM_SP = pushed_sp mask R ->
  (forall R', regs_ok R' -> reg R' ARM_SP = reg R ARM_SP -> (forall j, 0 <= j < 17 -> j <> 13 ->
       reg R' j = if Z.testbit mask j && (j <? 16) then reg R j else reg c.(regs) j) -> Q tt (set_regs R' c)) ->
  wp (for_each (pop_reg load mask) (seqZ 0 16)) Q E c.
Proof.
  intros Hc HR [H13 H15] Hst Hsp HQ.
  apply (wp_for_seqZ (fun i c' => exists R', c' = set_regs R' c /\ regs_ok R' /\
     reg R' ARM_SP = u32 (pushed_sp mask R + 4 * count_below mask i) /\
     forall j, 0 <= j < 17 -> j <> 13 -> reg R' j = if Z.testbit mask j && (j <? i) then reg R j else reg c.(regs) j)).
  - exists c.(regs). split; [by destruct c|]. split; [done|]. rewrite Hsp. split.
    + unfold count_below. cbn. rewrite Z.add_0_r. symmetry. apply u32_small, u32_range.
    + intros j Hj _. rewrite (proj2 (Z.ltb_ge _ _)) by lia. by rewrite andb_false_r.
  - intros i c' Hi (R' & -> & HR' & Hsp' & Hj'). unfold pop_reg. rewrite test_bit by lia. rewrite count_below_succ by lia.
    destruct (Z.testbit mask i) eqn:Ei.
    + assert (i <> 13) as Hi13 by (intros ->; congruence).
      apply wp_bind, wp_get_reg; [done|unfold ARM_SP; lia|]. cbn [regs set_regs]. rewrite Hsp'.
      eapply wp_bind, wp_of_option; [by apply Hst|]. pose proof (reg_range R i HR ltac:(lia)) as Hri.
      apply wp_bind, wp_set_reg; [done|lia|]. cbn [regs set_regs]. pose proof (regs_ok_upd i (reg R i) R' HR' Hri) as HR2.
      apply wp_bind, wp_get_reg; [done|unfold ARM_SP; lia|]. cbn [regs set_regs].
      rewrite reg_upd by (done || unfold ARM_SP; lia). rewrite (proj2 (Z.eqb_neq i ARM_SP)) by done. rewrite Hsp', u32_add_l.
      apply wp_set_reg; [done|unfold ARM_SP; lia|]. cbn [regs set_regs].
      eexists. split; [by destruct c|]. split; [by apply regs_ok_upd; [|apply u32_range]|]. split.
      * rewrite reg_upd by (done || unfold ARM_SP; lia). rewrite Z.eqb_refl. f_equal. lia.
      * intros j Hj Hne. rewrite reg_upd by (done || unfold ARM_SP; lia). rewrite (proj2 (Z.eqb_neq ARM_SP j)) by (unfold ARM_SP; lia).
        rewrite reg_upd by (done || lia). destruct (Z.eqb_spec i j) as [<-|Hij].
        { rewrite Ei. by rewrite (proj2 (Z.ltb_lt _ _)) by lia. }
        rewrite Hj' by done. destruct (Z.testbit mask j); [|done]. cbn [andb].
        destruct (Z.ltb_spec j i), (Z.ltb_spec j (i + 1)); try done; lia.
    + apply wp_ret. exists R'. split; [done|]. split; [done|]. rewrite Z.add_0_r. split; [done|].
      intros j Hj Hne. rewrite Hj' by done. destruct (Z.eq_dec j i) as [->|]; [by rewrite Ei|].
      destruct (Z.ltb_spec j i), (Z.ltb_spec j (i + 1)); try done; lia.
  - intros c' (R' & -> & HR' & Hsp' & Hj'). apply HQ; [done| |exact Hj'].
    rewrite Hsp'. change (0 + Z.max 0 16) with 16. unfold pushed_sp. rewrite u32_add_l.
    replace (reg R ARM_SP - 4 * count_below mask 16 + 4 * count_below mask 16) with (reg R ARM_SP) by lia.
    apply u32_small, reg_range; [done|unfold ARM_SP; lia].
Qed.

(** One unwind instruction undoes one step. *)
Lemma wp_undo load p K R (Q : Z -> t_cursor -> Prop) E c :
  pro_ok p -> regs_ok c.(regs) -> regs_ok R -> can_undo p K = true -> agree K c.(regs) (enter p R) -> stored load p R ->
  (forall R', regs_ok R' -> agree (known p K) R' R -> reg R' ARM_PC = reg c.(regs) ARM_PC -> Q 0 (set_regs R' c)) ->
  wp (arm_exidx_apply_cmd load (undo_cmd p)) Q E c.
Proof.
  intros Hp Hc HR Hcan Hag Hst HQ. destruct p as [mask|n|r]; cbn [can_undo known undo_cmd] in *.
  - unfold arm_exidx_apply_cmd. cbn [cmd data]. apply wp_bind, (wp_pop_regs load mask R); [done|done|done|done| |].
    + rewrite Hag by (done || unfold ARM_SP; lia). cbn [enter]. rewrite reg_upd by (done || unfold ARM_SP; lia). by rewrite Z.eqb_refl.
    + intros R' HR' Hsp Hj. apply wp_ret. apply HQ; [done| |].
      * intros i Hi Hb. destruct (Z.eq_dec i 13) as [->|Hne]; [exact Hsp|]. rewrite Hj by lia.
        rewrite Z.lor_spec in Hb. rewrite (proj2 (Z.ltb_lt i 16)) by lia. rewrite andb_true_r.
        destruct (Z.testbit mask i); [done|]. rewrite orb_false_r in Hb. rewrite Hag by done. cbn [enter].
        rewrite reg_upd by (done || unfold ARM_SP; lia). by rewrite (proj2 (Z.eqb_neq ARM_SP i)) by (unfold ARM_SP; lia).
      * rewrite Hj by (unfold ARM_PC; lia). destruct Hp as [_ H15]. unfold ARM_PC. by rewrite H15.
  - assert (reg c.(regs) ARM_SP = u32 (reg R ARM_SP - n)) as Hsp.
    { rewrite Hag by (done || unfold ARM_SP; lia). cbn [enter]. rewrite reg_upd by (done || unfold ARM_SP; lia). by rewrite Z.eqb_refl. }
    assert (forall v, v = reg R ARM_SP -> Q 0 (set_regs (upd_reg ARM_SP v (regs c)) c)) as Hfin.
    { intros v ->. pose proof (reg_range R ARM_SP HR ltac:(unfold ARM_SP; lia)). apply HQ; [by apply regs_ok_upd| |].
      - intros i Hi Hb. rewrite reg_upd by (done || unfold ARM_SP; lia). destruct (Z.eqb_spec ARM_SP i) as [<-|Hne]; [done|].
        rewrite Hag by done. cbn [enter]. rewrite reg_upd by (done || unfold ARM_SP; lia). by rewrite (proj2 (Z.eqb_neq ARM_SP i)).
      - rewrite reg_upd by (done || unfold ARM_SP, ARM_PC; lia). done. }
    pose proof (reg_range R ARM_SP HR ltac:(unfold ARM_SP; lia)) as Hrg.
    destruct (Z.leb_spec 0 n); unfold arm_exidx_apply_cmd; cbn [cmd data];
      (apply wp_bind, wp_get_reg; [done|unfold ARM_SP; lia|]); (apply wp_bind, wp_set_reg; [done|unfold ARM_SP; lia|]);
      apply wp_ret, Hfin; rewrite Hsp, ?u32_add_l, ?u32_sub_l; (rewrite u32_small; lia).
  - destruct Hp as [Hr Hne]. unfold arm_exidx_apply_cmd. cbn [cmd data]. apply wp_bind, wp_get_reg; [done|lia|].
    apply wp_bind, wp_set_reg; [done|unfold ARM_SP; lia|]. apply wp_ret.
    assert (reg c.(regs) r = reg R ARM_SP) as Hv.
    { rewrite Hag by (done || lia). cbn [enter]. rewrite reg_upd by (done || lia). by rewrite Z.eqb_refl. }
    pose proof (reg_range R ARM_SP HR ltac:(unfold ARM_SP; lia)). rewrite Hv. apply HQ; [by apply regs_ok_upd| |].
    + intros i Hi Hb. rewrite reg_upd by (done || unfold ARM_SP; lia). destruct (Z.eqb_spec ARM_SP i) as [<-|Hni]; [done|].
      rewrite Z.lor_spec, Z.clearbit_eqb, Z.shiftl_1_l, Z.pow2_bits_eqb in Hb by lia.
      rewrite (proj2 (Z.eqb_neq 13 i)) in Hb by (unfold ARM_SP in Hni; lia). rewrite orb_false_r in Hb.
      apply andb_true_iff in Hb as [Hb Hri]. rewrite Hag by done. cbn [enter]. rewrite reg_upd by (done || lia).
      by destruct (r =? i).
    + rewrite reg_upd by (done || unfold ARM_SP, ARM_PC; lia). done.
Qed.

(** ** A whole frame *)

Lemma known_ok load ps : forall codes K R fuel rest (Q : Z -> t_cursor -> Prop) E c,
  Forall2 undoes ps codes -> regs_ok c.(regs) -> regs_ok R -> can_undo_all ps K = true ->
  agree K c.(regs) (enter_all ps R) -> stored_all load ps R ->
  (forall R', regs_ok R' -> agree (known_all ps K) R' R -> reg R' ARM_PC = reg c.(regs) ARM_PC ->
     wp (loop fuel (decode_round load) rest) Q E (set_regs R' c)) ->
  wp (loop (length ps + fuel) (decode_round load) (concat (rev codes) ++ rest)) Q E c.
Proof.
  induction ps as [|p ps IH]; intros codes K R fuel rest Q E c Hund Hc HR Hcan Hag Hst HQ.
  - apply Forall2_nil_inv_l in Hund as ->. replace c with (set_regs (regs c) c) by (by destruct c). by apply HQ.
  - apply Forall2_cons_inv_l in Hund as (code & codes' & Hcode & Hund & ->). cbn [can_undo_all enter_all stored_all known_all] in *.
    apply andb_true_iff in Hcan as [Hcan Hcans]. destruct Hst as [Hst Hsts].
    destruct (undoes_decode p code rest Hcode) as (op & bs & -> & Hdec & Hp).
    cbn [rev]. rewrite concat_app, <- app_assoc. cbn [concat]. rewrite app_nil_r.
    replace (length (p :: ps) + fuel)%nat with (length ps + S fuel)%nat by (cbn; lia).
    apply (IH codes' K (enter p R)); [done|done|by apply enter_ok|done|done|done|].
    intros R' HR' Hag' Hpc'. cbn [loop app]. apply wp_bind. unfold decode_round.
    eapply wp_bind, wp_of_option; [exact Hdec|]. cbv beta iota.
    apply wp_bind, (wp_undo load p (known_all ps K) R); [done|done|done|done|done|done|].
    intros R2 HR2 Hag2 Hpc2. change (0 <? 0) with false. cbv iota. apply wp_ret. cbv beta iota.
    change (set_regs R2 (set_regs R' c)) with (set_regs R2 c). apply HQ; [done|done|]. cbn [regs set_regs] in Hpc2. congruence.
Qed.

(** What the unwinder makes of the bytes [code] of a function. *)
Definition finished (code junk : list Z) : list Z := code ++ ARM_EXTBL_OP_FINISH :: junk.

Lemma wp_decode_frame load ps codes junk K R c E :
  Forall2 undoes ps codes -> regs_ok c.(regs) -> regs_ok R -> can_undo_all ps K = true ->
  agree K c.(regs) (enter_all ps R) -> stored_all load ps R ->
  Z.testbit (known_all ps K) ARM_LR = true -> reg c.(regs) ARM_PC <> reg R ARM_LR ->
  wp (arm_exidx_decode load (finished (concat (rev codes)) junk))
    (fun r c' => r = 0 /\ exists R', c' = set_regs R' c /\ regs_ok R' /\ reg R' ARM_PC = reg R ARM_LR /\
       forall i, 0 <= i < 15 -> Z.testbit (known_all ps K) i = true -> reg R' i = reg R i) E c.
Proof.
  intros Hund Hc HR Hcan Hag Hst Hlr Hpc. unfold arm_exidx_decode, finished.
  assert (length ps <= length (concat (rev codes)))%nat as Hlen.
  { clear -Hund. induction Hund as [|p code ps codes Hcode _ IH]; [done|]. cbn [rev length].
    rewrite concat_app, length_app. destruct (undoes_decode p code [] Hcode) as (op & bs & -> & _). cbn. lia. }
  rewrite length_app. cbn [length].
  replace (S (length (concat (rev codes)) + S (length junk)))%nat
    with (length ps + S (S (length (concat (rev codes)) - length ps + length junk)))%nat by lia.
  apply (known_ok load ps codes K R); [done|done|done|done|done|done|]. intros R' HR' Hag' Hpc'.
  cbn [loop]. apply wp_bind. unfold decode_round at 1. eapply wp_bind, wp_of_option; [reflexivity|]. cbv beta iota.
  unfold arm_exidx_apply_cmd. cbn [cmd]. apply wp_bind, wp_bind, wp_get_reg; [done|unfold ARM_PC; lia|].
  apply wp_bind, wp_get_reg; [done|unfold ARM_LR; lia|]. cbn [regs set_regs]. rewrite Hpc'.
  assert (reg R' ARM_LR = reg R ARM_LR) as Elr by (apply Hag'; [unfold ARM_LR; lia|done]). rewrite Elr.
  rewrite (proj2 (Z.eqb_neq _ _)) by done. apply wp_bind, wp_set_reg; [done|unfold ARM_PC; lia|]. apply wp_ret.
  change (0 <? 0) with false. cbv iota. apply wp_ret. cbv beta iota. apply wp_ret. split; [done|].
  cbn [regs set_regs]. pose proof (reg_range R ARM_LR HR ltac:(unfold ARM_LR; lia)) as Hlrr.
  exists (upd_reg ARM_PC (reg R ARM_LR) R'). split; [by destruct c|]. split; [by apply regs_ok_upd|]. split.
  - rewrite reg_upd by (done || unfold ARM_PC; lia). by rewrite Z.eqb_refl.
  - intros i Hi Hb. rewrite reg_upd by (done || unfold ARM_PC; lia). rewrite (proj2 (Z.eqb_neq ARM_PC i)) by (unfold ARM_PC; lia).
    apply Hag'; [lia|done].
Qed.

(** The unwind instructions of a function undo its prologue: whatever the
    function has done to the registers it saved, and to the stack below what it
    saved, the cursor ends with the registers of the caller and with the return
    address as the program counter. *)
Theorem unwinding_inverts_prologue load ps codes junk K R c :
  Forall2 undoes ps codes -> regs_ok c.(regs) -> regs_ok R -> can_undo_all ps K = true ->
  agree K c.(regs) (enter_all ps R) -> stored_all load ps R ->
  Z.testbit (known_all ps K) ARM_LR = true -> reg c.(regs) ARM_PC <> reg R ARM_LR ->
  exists R', arm_exidx_decode load (finished (concat (rev codes)) junk) c = (Returns 0, set_regs R' c) /\
    reg R' ARM_PC = reg R ARM_LR /\
    forall i, 0 <= i < 15 -> Z.testbit (known_all ps K) i = true -> reg R' i = reg R i.
Proof.
  intros Hund Hc HR Hcan Hag Hst Hlr Hpc.
  destruct (wp_returns _ _ _ (wp_decode_frame load ps codes junk K R c _ Hund Hc HR Hcan Hag Hst Hlr Hpc))
    as (r & c' & Hrun & -> & R' & -> & _ & Hpc' & Hag'). by exists R'.
Qed.
