(* ===== verification/ExidxTable.v ===== *)
(** * The ARM stack unwinder: the index, and a whole step

    Where a module keeps its exception index and how the entry of a function
    describes its unwind instructions; [search_exidx_value] finds the entry,
    [arm_exidx_extract] collects the instructions, and [Step] goes from a frame
    to its caller. *)

From stdpp Require Import base numbers list list_numbers.
From Stdlib Require Import Lia ZArith.
From S2P Require Import Prelude Exidx ExidxFrame.

#[local] Open Scope Z_scope.
#[local] Open Scope c_scope.

(** ** Descriptions of unwind instructions *)

Definition word (b3 b2 b1 b0 : Z) : Z := ((b3 * 256 + b2) * 256 + b1) * 256 + b0.

Definition byte (b : Z) : Prop := 0 <= b < 256.

Lemma word_bytes b3 b2 b1 b0 : byte b3 -> byte b2 -> byte b1 -> byte b0 ->
  let w := word b3 b2 b1 b0 in
  u8 (Z.shiftr w 24) = b3 /\ u8 (Z.shiftr w 16) = b2 /\ u8 (Z.shiftr w 8) = b1 /\ u8 w = b0 /\ Z.shiftr w 24 = b3.
Proof.
  unfold byte, word, u8. cbv zeta. intros H3 H2 H1 H0. rewrite !Z.shiftr_div_pow2 by lia.
  change (2 ^ 24) with 16777216. change (2 ^ 16) with 65536. change (2 ^ 8) with 256.
  set (w := ((b3 * 256 + b2) * 256 + b1) * 256 + b0).
  assert (w / 16777216 = b3) as -> by (symmetry; apply (Z.div_unique _ _ _ (b2 * 65536 + b1 * 256 + b0)); lia).
  assert (w / 65536 = b3 * 256 + b2) as -> by (symmetry; apply (Z.div_unique _ _ _ (b1 * 256 + b0)); lia).
  assert (w / 256 = (b3 * 256 + b2) * 256 + b1) as -> by (symmetry; apply (Z.div_unique _ _ _ b0); lia).
  split; [by apply Z.mod_small|]. split; [symmetry; by apply (Z.mod_unique _ _ b3); lia|].
  split; [symmetry; by apply (Z.mod_unique _ _ (b3 * 256 + b2)); lia|].
  split; [symmetry; by apply (Z.mod_unique _ _ ((b3 * 256 + b2) * 256 + b1)); lia|done].
Qed.

Lemma test_compact w : 0 <= w < 4294967296 -> test w ARM_EXIDX_COMPACT = (2147483648 <=? w).
Proof.
  intros Hw. change ARM_EXIDX_COMPACT with (Z.shiftl 1 31). rewrite test_bit by lia.
  rewrite Z.testbit_eqb by lia. change (2 ^ 31) with 2147483648.
  destruct (Z.leb_spec 2147483648 w) as [Hge|Hlt].
  - assert (w / 2147483648 = 1) as -> by (symmetry; apply (Z.div_unique w _ _ (w - 2147483648)); lia). done.
  - rewrite Z.div_small by lia. done.
Qed.

(** The bytes of the additional words of a long entry. *)
Inductive words_at (load : Z -> option Z) : Z -> nat -> list Z -> Prop :=
| words_nil a : words_at load a 0 []
| words_cons a n b3 b2 b1 b0 bs : byte b3 -> byte b2 -> byte b1 -> byte b0 -> load a = Some (word b3 b2 b1 b0) ->
    words_at load (u32 (a + 4)) n bs -> words_at load a (S n) (b3 :: b2 :: b1 :: b0 :: bs).

(** The entry at [kv] describes the instructions [bs]: in its second word, or
    in a table the second word points to, of the short or of the long form. *)
Inductive described (load : Z -> option Z) (kv : Z) : list Z -> Prop :=
| desc_inline hi b0 b1 b2 : 128 <= hi < 256 -> byte b0 -> byte b1 -> byte b2 ->
    load (u32 (kv + 4)) = Some (word hi b0 b1 b2) -> described load kv [b0; b1; b2]
| desc_short v tbl hi b0 b1 b2 : load (u32 (kv + 4)) = Some v -> 0 <= v < 2147483648 -> v <> 1 ->
    tbl = u32 (kv + 4 + get_off_pre31 v) -> 128 <= hi < 256 -> hi mod 16 <> 1 -> hi mod 16 <> 2 -> byte b0 -> byte b1 -> byte b2 ->
    load tbl = Some (word hi b0 b1 b2) -> described load kv [b0; b1; b2]
| desc_long v tbl hi n b0 b1 bs : load (u32 (kv + 4)) = Some v -> 0 <= v < 2147483648 -> v <> 1 ->
    tbl = u32 (kv + 4 + get_off_pre31 v) -> 128 <= hi < 256 -> hi mod 16 = 1 \/ hi mod 16 = 2 -> byte (Z.of_nat n) -> byte b0 -> byte b1 ->
    load tbl = Some (word hi (Z.of_nat n) b0 b1) -> words_at load (u32 (tbl + 4)) n bs -> described load kv (b0 :: b1 :: bs).

Lemma wp_put_all vs E : forall buf (Q : list Z -> t_cursor -> Prop) c,
  Z.of_nat (length buf + length vs) <= 32 -> Q (buf ++ (u8 <$> vs)) c -> wp (put_all vs buf) Q E c.
Proof.
  unfold put_all. induction vs as [|v vs IH]; intros buf Q c Hl HQ; cbn [foldM fmap list_fmap length] in *.
  - apply wp_ret. by rewrite app_nil_r in HQ.
  - apply wp_bind. unfold put. rewrite (proj2 (Z.leb_gt _ _)) by lia. apply wp_ret.
    apply IH; [rewrite length_app; cbn; lia|]. by rewrite <- app_assoc.
Qed.

Lemma wp_more_words load a n bs E : words_at load a n bs -> forall buf (Q : list Z -> t_cursor -> Prop) c,
  Z.of_nat (length buf + length bs) <= 32 -> Q (buf ++ bs) c -> wp (more_words load n a buf) Q E c.
Proof.
  induction 1 as [a|a n b3 b2 b1 b0 bs H3 H2 H1 H0 Hload _ IH]; intros buf Q c Hl HQ; cbn [more_words length] in *.
  - apply wp_ret. by rewrite app_nil_r in HQ.
  - eapply wp_bind, wp_of_option; [exact Hload|]. apply wp_bind, wp_put_all; [cbn; lia|].
    destruct (word_bytes b3 b2 b1 b0 H3 H2 H1 H0) as (E3 & E2 & E1 & E0 & _). cbn [fmap list_fmap]. rewrite E3, E2, E1, E0.
    apply IH; [rewrite length_app; cbn; lia|]. by rewrite <- app_assoc.
Qed.

(** The bytes with a finish instruction behind them, if there is none. *)
Definition with_finish (bs : list Z) : list Z :=
  match last bs with Some b => if b =? ARM_EXTBL_OP_FINISH then bs else bs ++ [ARM_EXTBL_OP_FINISH] | None => bs end.

Lemma wp_add_finish buf (Q : list Z -> t_cursor -> Prop) E c :
  Z.of_nat (length (with_finish buf)) <= 32 -> Q (with_finish buf) c -> wp (add_finish buf) Q E c.
Proof.
  unfold with_finish, add_finish. destruct (last buf) as [b|]; [|intros; by apply wp_ret].
  destruct (b =? ARM_EXTBL_OP_FINISH); [intros; by apply wp_ret|]. rewrite length_app. cbn [length]. intros Hl HQ.
  unfold put. rewrite (proj2 (Z.leb_gt _ _)) by lia. by apply wp_ret.
Qed.

Lemma with_finish_length bs : Z.of_nat (length bs) <= Z.of_nat (length (with_finish bs)).
Proof. unfold with_finish. destruct (last bs) as [b|]; [|done]. destruct (b =? _); [done|]. rewrite length_app. lia. Qed.

Lemma wp_extract load kv bs c E :
  search_exidx_value load c.(exidx_start_addr) c.(exidx_end_addr) c.(base_addr) c.(pc_offest) = Some kv -> kv <> 0 ->
  described load kv bs -> Z.of_nat (length (with_finish bs)) <= 32 ->
  wp (arm_exidx_extract load)
    (fun r c' => c' = c /\ r = (Z.of_nat (length (with_finish bs)), with_finish bs)) E c.
Proof.
  intros Hs Hkv Hd Hlen. pose proof (with_finish_length bs) as Hle.
  unfold arm_exidx_extract. do 2 wp_step. eapply wp_bind, wp_of_option; [exact Hs|].
  rewrite (proj2 (Z.eqb_neq kv 0)) by done. unfold ARM_EXIDX_CANT_UNWIND.
  assert (forall hi b0 b1 b2, 128 <= hi < 256 -> byte b0 -> byte b1 -> byte b2 -> 2147483648 <= word hi b0 b1 b2 < 4294967296) as Hw.
  { unfold byte, word. lia. }
  destruct Hd as [hi b0 b1 b2 Hhi H0 H1 H2 Hload|v tbl hi b0 b1 b2 Hv Hvr Hv1 Htbl Hhi Hn1 Hn2 H0 H1 H2 Hload|v tbl hi n b0 b1 bs Hv Hvr Hv1 Htbl Hhi Hform Hn H0 H1 Hload Hws].
  - eapply wp_bind, wp_of_option; [exact Hload|]. pose proof (Hw hi b0 b1 b2 Hhi H0 H1 H2).
    rewrite (proj2 (Z.eqb_neq _ 1)) by lia. rewrite test_compact, (proj2 (Z.leb_le _ _)) by lia.
    apply wp_bind, wp_put_all; [cbn; lia|].
    cbn [fmap list_fmap app]. destruct (word_bytes hi b0 b1 b2) as (_ & E2 & E1 & E0 & _); [unfold byte; lia|done|done|done|].
    rewrite E2, E1, E0. apply wp_bind, wp_add_finish; [done|]. by apply wp_ret.
  - eapply wp_bind, wp_of_option; [exact Hv|]. rewrite (proj2 (Z.eqb_neq _ 1)) by done.
    rewrite test_compact, (proj2 (Z.leb_gt _ _)) by lia. rewrite <- Htbl. eapply wp_bind, wp_of_option; [exact Hload|].
    pose proof (Hw hi b0 b1 b2 Hhi H0 H1 H2). rewrite test_compact, (proj2 (Z.leb_le _ _)) by lia.
    destruct (word_bytes hi b0 b1 b2) as (_ & E2 & E1 & E0 & E3); [unfold byte; lia|done|done|done|].
    rewrite E3. change 0x0f with (Z.ones 4). rewrite Z.land_ones by lia. change (2 ^ 4) with 16.
    rewrite (proj2 (Z.eqb_neq _ 1)), (proj2 (Z.eqb_neq _ 2)) by done. cbn [orb].
    apply wp_bind, wp_put_all; [cbn; lia|]. apply wp_bind, wp_put_all; [cbn; lia|]. cbn [fmap list_fmap app]. rewrite E2, E1, E0.
    apply wp_bind, wp_ret. apply wp_bind, wp_add_finish; [done|]. by apply wp_ret.
  - eapply wp_bind, wp_of_option; [exact Hv|]. rewrite (proj2 (Z.eqb_neq _ 1)) by done.
    rewrite test_compact, (proj2 (Z.leb_gt _ _)) by lia. rewrite <- Htbl. eapply wp_bind, wp_of_option; [exact Hload|].
    pose proof (Hw hi (Z.of_nat n) b0 b1 Hhi Hn H0 H1). rewrite test_compact, (proj2 (Z.leb_le _ _)) by lia.
    destruct (word_bytes hi (Z.of_nat n) b0 b1) as (_ & E2 & E1 & E0 & E3); [unfold byte; lia|done|done|done|].
    rewrite E3. change 0x0f with (Z.ones 4). rewrite Z.land_ones by lia. change (2 ^ 4) with 16.
    assert ((hi mod 16 =? 1) || (hi mod 16 =? 2) = true) as -> by (destruct Hform as [-> | ->]; done).
    apply wp_bind, wp_ret. apply wp_bind, wp_put_all; [cbn; lia|]. cbn [fmap list_fmap app]. rewrite E1, E0.
    change 0xff with (Z.ones 8). rewrite Z.land_ones by lia. change (2 ^ 8) with 256. unfold u8 in E2. rewrite E2, Nat2Z.id.
    apply wp_bind, (wp_more_words _ _ _ _ _ Hws); [cbn in *; lia|].
    apply wp_bind, wp_add_finish; [done|]. by apply wp_ret.
Qed.

(** ** More instructions than the buffer holds *)

Lemma put_all_overflows vs : forall buf c, 32 < Z.of_nat (length buf + length vs) -> (length buf <= 32)%nat -> stuck_at (put_all vs buf) c.
Proof.
  induction vs as [|v vs IH]; intros buf c Hl Hb; cbn [length] in *; [lia|]. unfold put_all. cbn [foldM].
  destruct (decide (length buf = 32)%nat) as [Hf|].
  - apply stuck_bind. unfold put. by rewrite Hf.
  - apply (stuck_bind_later _ _ (fun b c' => b = buf ++ [u8 v])).
    + unfold put. rewrite (proj2 (Z.leb_gt _ _)) by lia. by apply wp_ret.
    + intros b c' ->. apply IH; rewrite length_app; cbn; lia.
Qed.

Lemma more_words_overflows load a n bs : words_at load a n bs -> forall buf c,
  32 < Z.of_nat (length buf + length bs) -> (length buf <= 32)%nat -> stuck_at (more_words load n a buf) c.
Proof.
  induction 1 as [a|a n b3 b2 b1 b0 bs H3 H2 H1 H0 Hload _ IH]; intros buf c Hl Hb; cbn [more_words length] in *; [lia|].
  apply (stuck_bind_later _ _ (fun w c' => w = word b3 b2 b1 b0)); [by eapply wp_of_option|]. intros w c' ->.
  destruct (decide (length buf + 4 <= 32)%nat).
  - apply (stuck_bind_later _ _ (fun b c' => (length b = length buf + 4)%nat)).
    + apply wp_put_all; [cbn; lia|]. rewrite length_app. done.
    + intros b c'' Hlen. apply IH; lia.
  - apply stuck_bind, put_all_overflows; cbn; lia.
Qed.

(** ** The search *)

(** The address of entry [k]. *)
Definition entry (tbl k : Z) : Z := tbl + 8 * k.

(** An index of [n] entries at [tbl], sorted by the functions' offsets [keys];
    the words next to it can be read. *)
Record index_at (load : Z -> option Z) (base tbl n : Z) (keys : Z -> Z) : Prop := {
  ia_place : 8 <= tbl /\ entry tbl n < 4294967296;
  ia_keys : forall k, 0 <= k < n -> exidx_key load base (entry tbl k) = Some (keys k);
  ia_before : exists k, exidx_key load base (entry tbl (-1)) = Some k;
  ia_sorted : forall j k, 0 <= j -> j < k -> k < n -> keys j < keys k
}.

Lemma ia_le load base tbl n keys j k : index_at load base tbl n keys -> 0 <= j -> j <= k -> k < n -> keys j <= keys k.
Proof.
  intros Hia Hj Hjk Hk. destruct (Z.eq_dec j k) as [->|]; [done|]. pose proof (ia_sorted _ _ _ _ _ Hia j k). lia.
Qed.

Lemma search_in_index load base tbl n keys i key fuel : forall s e,
  index_at load base tbl n keys -> 0 <= s <= i -> i < e -> e < n -> keys i < key -> key < keys (i + 1) -> e - s < Z.of_nat fuel ->
  search_in load fuel (entry tbl s) (entry tbl e) base key = Some (entry tbl i).
Proof.
  induction fuel as [|fuel IH]; intros s e Hia Hs He Hn Hlo Hhi Hf; [lia|]. cbn [search_in].
  destruct (ia_place _ _ _ _ _ Hia) as [Ht1 Ht2]. unfold entry in Ht2.
  rewrite (proj2 (Z.leb_gt _ _)) by (unfold entry; lia).
  set (m := s + (e - s) / 2). assert (s <= m < e) as Hm.
  { unfold m. pose proof (Z.div_mod (e - s) 2). pose proof (Z.mod_pos_bound (e - s) 2). lia. }
  assert (u32 (entry tbl s + (entry tbl e - entry tbl s) / 8 / 2 * 8) = entry tbl m) as ->.
  { unfold entry. replace (tbl + 8 * e - (tbl + 8 * s)) with ((e - s) * 8) by lia. rewrite Z.div_mul by lia.
    rewrite u32_small; unfold m in *; lia. }
  assert (u32 (entry tbl m - 8) = entry tbl (m - 1)) as -> by (unfold entry; rewrite u32_small; lia).
  assert (u32 (entry tbl m + 8) = entry tbl (m + 1)) as -> by (unfold entry; rewrite u32_small; lia).
  rewrite !(ia_keys _ _ _ _ _ Hia m), !(ia_keys _ _ _ _ _ Hia (m + 1)) by lia.
  pose proof (fun j k => ia_le _ _ _ _ _ j k Hia) as Hle.
  assert (exists p, exidx_key load base (entry tbl (m - 1)) = Some p /\ (1 <= m -> p = keys (m - 1))) as (p & -> & Hp).
  { destruct (Z.eq_dec m 0) as [->|]; [destruct (ia_before _ _ _ _ _ Hia) as [p Hp]; exists p; split; [done|lia]|].
    exists (keys (m - 1)). split; [apply (ia_keys _ _ _ _ _ Hia); lia|done]. }
  destruct (Z.lt_trichotomy m i) as [Hmi|[->|Hmi]].
  - pose proof (Hle (m + 1) i). pose proof (ia_sorted _ _ _ _ _ Hia m i).
    rewrite (proj2 (Z.leb_le (keys m) key)), (proj2 (Z.leb_gt key (keys (m + 1)))) by lia. cbn [andb].
    rewrite (proj2 (Z.leb_gt key (keys m))) by lia. cbn [andb]. apply IH; try done; lia.
  - rewrite (proj2 (Z.leb_le (keys i) key)), (proj2 (Z.leb_le key (keys (i + 1)))) by lia. done.
  - pose proof (Hle (i + 1) m). rewrite (proj2 (Z.leb_gt (keys m) key)) by lia. cbn [andb].
    rewrite (proj2 (Z.leb_le key (keys m))) by lia. cbn [andb]. specialize (Hp ltac:(lia)). subst p.
    destruct (Z.eq_dec (m - 1) i) as [->|Hne].
    + rewrite (proj2 (Z.leb_le (keys i) key)) by lia. done.
    + pose proof (Hle (i + 1) (m - 1)). rewrite (proj2 (Z.leb_gt (keys (m - 1)) key)), (proj2 (Z.ltb_lt key (keys m))) by lia.
      apply IH; try done; lia.
Qed.

Lemma search_finds_index load base tbl n keys s i key :
  index_at load base tbl n keys -> 0 <= s <= i -> i + 1 < n -> keys i < key < keys (i + 1) ->
  search_exidx_value load (entry tbl s) (entry tbl (n - 1)) base key = Some (entry tbl i).
Proof.
  intros Hia Hs Hn Hkey. unfold search_exidx_value. apply (search_in_index load base tbl n keys); try done; try lia.
  unfold entry. replace (tbl + 8 * (n - 1) - (tbl + 8 * s)) with ((n - 1 - s) * 8) by lia. rewrite Z.div_mul by lia. lia.
Qed.

(** An entry whose first word is the offset of its function from the entry. *)
Lemma exidx_key_prel31 load base a w f : load a = Some w -> (f - a) mod 2 ^ 31 = w mod 2 ^ 31 -> base <= f < base + 2 ^ 31 ->
  exidx_key load base a = Some (f - base).
Proof.
  intros Hl Hw Hf. unfold exidx_key. rewrite Hl. f_equal. change 0x7FFFFFFF with (Z.ones 31). rewrite Z.land_ones by lia.
  unfold u32. change 4294967296 with (2 * 2 ^ 31).
  rewrite <- (Z.mod_small (f - base) (2 ^ 31)) by lia.
  assert (((w + a - base) mod (2 * 2 ^ 31)) mod 2 ^ 31 = (w + a - base) mod 2 ^ 31) as ->.
  { rewrite (Z.mod_eq (w + a - base) (2 * 2 ^ 31)) by lia.
    replace (w + a - base - 2 * 2 ^ 31 * ((w + a - base) / (2 * 2 ^ 31))) with (w + a - base + (- 2 * ((w + a - base) / (2 * 2 ^ 31))) * 2 ^ 31) by lia.
    by rewrite Z.mod_add by lia. }
  replace (f - base) with ((f - a) + (a - base)) by lia. replace (w + a - base) with (w + (a - base)) by lia.
  by rewrite <- Zplus_mod_idemp_l, <- Hw, Zplus_mod_idemp_l.
Qed.

(** ** A module in memory *)

(** The header [j] of the [num] program headers at [ph]. *)
Definition phdr (ph j : Z) : Z := u32 (ph + sizeof_Phdr * j).

(** A module at [base]: its last [PT_ARM_EXIDX] header is the [j]-th and says
    that an index of [n] entries is at [tbl]. *)
Record module_at (load half : Z -> option Z) (base tbl n : Z) : Prop := {
  ma_headers : exists phoff num j paddr, load (u32 (base + 28)) = Some phoff /\ half (u32 (base + 44)) = Some num /\
    0 <= j < num /\ load (phdr (u32 (base + phoff)) j) = Some ARM_EXIDX /\
    (forall k, j < k < num -> exists t, load (phdr (u32 (base + phoff)) k) = Some t /\ t <> ARM_EXIDX) /\
    load (u32 (phdr (u32 (base + phoff)) j + 12)) = Some paddr /\
    load (u32 (phdr (u32 (base + phoff)) j + 20)) = Some (8 * n) /\ tbl = u32 (paddr + base)
}.

Lemma find_phdr_last load ph j num : 0 <= j ->
  load (phdr ph j) = Some ARM_EXIDX -> (forall k, j < k < Z.of_nat num -> exists t, load (phdr ph k) = Some t /\ t <> ARM_EXIDX) ->
  j < Z.of_nat num -> find_phdr load num ph = Some (phdr ph j).
Proof.
  intros Hj0 Hj. induction num as [|num IH]; intros Hk Hlt; [lia|]. cbn [find_phdr]. fold (phdr ph (Z.of_nat num)).
  destruct (Z.eq_dec j (Z.of_nat num)) as [->|Hne].
  - by rewrite Hj.
  - destruct (Hk (Z.of_nat num)) as (t & -> & Ht); [lia|]. rewrite (proj2 (Z.eqb_neq _ _)) by done. apply IH; [|lia].
    intros k Hkr. apply Hk. lia.
Qed.

(** The entries before the [v]-th say that they cannot be unwound. *)
Definition first_valid (load : Z -> option Z) (tbl v : Z) : Prop :=
  0 <= v /\ (forall k, 0 <= k < v -> load (u32 (entry tbl k + 4)) = Some 1) /\
  exists x, load (u32 (entry tbl v + 4)) = Some x /\ x <> 1.

Lemma move_to_first_valid load tbl v fuel : first_valid load tbl v -> v < Z.of_nat fuel ->
  0 <= tbl -> entry tbl (v + 1) < 4294967296 -> move_to_valid_addr load fuel tbl = Some (entry tbl v).
Proof.
  intros (Hv & Hbefore & x & Hx & Hx1) Hf Ht Hend. unfold entry in *.
  assert (forall fuel k, 0 <= k <= v -> v - k < Z.of_nat fuel -> move_to_valid_addr load fuel (tbl + 8 * k) = Some (tbl + 8 * v)) as H.
  { clear fuel Hf. induction fuel as [|fuel IH]; intros k Hk Hlt; [lia|]. cbn [move_to_valid_addr].
    destruct (Z.eq_dec k v) as [->|Hne].
    - rewrite Hx. by rewrite (proj2 (Z.eqb_neq _ _)) by done.
    - rewrite Hbefore by lia. rewrite Z.eqb_refl. rewrite u32_small by lia.
      replace (tbl + 8 * k + 8) with (tbl + 8 * (k + 1)) by lia. apply IH; lia. }
  specialize (H fuel 0). rewrite Z.mul_0_r, Z.add_0_r in H. apply H; lia.
Qed.

(** ** A step from a frame to its caller *)

Definition cursor_regs (sig : sigcontext) (cpsr : Z) : list Z := copyregs_to_cursor sig ++ [cpsr].

Lemma copyregs_back sig cpsr : copyregs_to_sigctx (cursor_regs sig cpsr) = Some sig.
Proof. by destruct sig. Qed.

Lemma copyregs_some R : regs_ok R -> exists sig cpsr, copyregs_to_sigctx R = Some sig /\ R = cursor_regs sig cpsr.
Proof.
  intros [Hl _]. do 17 (destruct R as [|? R]; [done|]). destruct R; [|done]. cbn.
  eexists (mk_sigcontext _ _ _ _ _ _ _ _ _ _ _ _ _ _ _ _), _. split; reflexivity.
Qed.

(** The cursor of a frame in the function of entry [i], with [status] left in
    its uninitialised field. *)
Definition frame_cursor (sig : sigcontext) (cpsr status base tbl v n : Z) : t_cursor :=
  mk_cursor (cursor_regs sig cpsr) base (u32 (sig.(arm_pc) - base)) status (entry tbl v) (entry tbl (n - 1)).

(** Why a step works: the module of the frame has an index, the function of the
    frame has an entry in it that describes the instructions [codes]. *)
Record unwindable (load half : Z -> option Z) (base tbl n v i pc : Z) (keys : Z -> Z) (code pad : list Z) : Prop := {
  uw_module : module_at load half base tbl n;
  uw_index : index_at load base tbl n keys;
  uw_valid : first_valid load tbl v;
  uw_function : v <= i /\ i + 1 < n /\ keys i < u32 (pc - base) < keys (i + 1);
  uw_code : exists k, pad = replicate k ARM_EXTBL_OP_FINISH;
  uw_described : described load (entry tbl i) (code ++ pad);
  uw_finish : pad = [] -> last code <> Some ARM_EXTBL_OP_FINISH;
  uw_room : (length (code ++ pad) <= 31)%nat
}.

Lemma last_replicate {A} k (x : A) : last (replicate (S k) x) = Some x.
Proof. induction k as [|k IH]; [done|]. exact IH. Qed.

Lemma with_finish_finished code k : code ++ replicate k ARM_EXTBL_OP_FINISH <> [] ->
  (replicate k ARM_EXTBL_OP_FINISH = [] -> last code <> Some ARM_EXTBL_OP_FINISH) ->
  exists junk, with_finish (code ++ replicate k ARM_EXTBL_OP_FINISH) = finished code junk.
Proof.
  intros Hne Hlast. unfold with_finish, finished. destruct k as [|k].
  - cbn [replicate] in *. rewrite app_nil_r in *. specialize (Hlast eq_refl). destruct (last code) as [b|] eqn:El.
    + rewrite (proj2 (Z.eqb_neq b _)) by congruence. by exists [].
    + by apply last_None in El.
  - rewrite last_app, last_replicate. rewrite Z.eqb_refl. by exists (replicate k ARM_EXTBL_OP_FINISH).
Qed.

Lemma described_nonempty load kv bs : described load kv bs -> bs <> [].
Proof. by destruct 1. Qed.

Lemma wp_exidx_step_at load half base tbl n v i pc keys code pad ps codes K R sig cpsr status E :
  unwindable load half base tbl n v i pc keys code pad -> code = concat (rev codes) ->
  Forall2 undoes ps codes -> regs_ok (cursor_regs sig cpsr) -> regs_ok R -> can_undo_all ps K = true ->
  agree K (cursor_regs sig cpsr) (enter_all ps R) -> stored_all load ps R ->
  Z.testbit (known_all ps K) ARM_LR = true -> sig.(arm_pc) <> reg R ARM_LR ->
  status <> STEP_STOP -> status <> STEP_PC_LR ->
  wp (arm_exidx_step load)
    (fun r c' => r = 0 /\ exists R', c'.(regs) = R' /\ regs_ok R' /\ reg R' ARM_PC = reg R ARM_LR /\
       forall i, 0 <= i < 15 -> Z.testbit (known_all ps K) i = true -> reg R' i = reg R i) E
    (mk_cursor (cursor_regs sig cpsr) base (u32 (pc - base)) status (entry tbl v) (entry tbl (n - 1))).
Proof.
  intros [_ Hia [Hv0 _] (Hvi & Hin & Hkey) [k ->] Hdesc Hfin Hroom] -> Hund Hc HR Hcan Hag Hst Hlr Hpc Hst1 Hst2.
  set (c := mk_cursor _ _ _ _ _ _). set (code := concat (rev codes)) in *.
  destruct (with_finish_finished code k (described_nonempty _ _ _ Hdesc) Hfin) as [junk Hwf].
  assert (entry tbl i <> 0) as Hne.
  { destruct (ia_place _ _ _ _ _ Hia). unfold entry in *. lia. }
  unfold arm_exidx_step. apply wp_bind. eapply wp_mono; [apply (wp_extract load (entry tbl i) (code ++ replicate k ARM_EXTBL_OP_FINISH) c (fun _ => False)); [|done|exact Hdesc|]| |by intros ? []].
  - apply (search_finds_index load base tbl n keys v i); done || lia.
  - unfold with_finish. destruct (last (code ++ replicate k ARM_EXTBL_OP_FINISH)) as [b|]; [|lia]. destruct (b =? _); [lia|]. rewrite length_app. cbn [length]. lia.
  - intros [r buf] c' [-> [= -> ->]]. rewrite Hwf. cbv beta iota.
    rewrite (proj2 (Z.ltb_lt _ _)) by (unfold finished; rewrite length_app; cbn [length]; lia).
    apply wp_bind. eapply wp_mono; [apply (wp_decode_frame load ps codes junk K R c (fun _ => False)); done| |by intros ? []].
    intros r c' [-> (R' & -> & HR' & Hpc' & Hag')]. do 2 wp_step. cbn [step_status set_regs c].
    rewrite (proj2 (Z.eqb_neq status STEP_STOP)), (proj2 (Z.eqb_neq status STEP_PC_LR)) by done. cbn.
    split; [done|]. by exists R'.
Qed.

(** C24. A step of the unwinder goes from a frame to its caller: the signal
    context gets the registers the caller had at the call, as far as the
    function saved or preserved them, and the return address as the program
    counter.  The module, its index and the entry of the function are as a
    linker lays them out. *)
Theorem step_reaches_caller load half dladdr base tbl n v i keys codes pad ps K R sig cpsr status :
  dladdr sig.(arm_pc) = Some base ->
  unwindable load half base tbl n v i sig.(arm_pc) keys (concat (rev codes)) pad ->
  Forall2 undoes ps codes -> regs_ok (cursor_regs sig cpsr) -> regs_ok R -> can_undo_all ps K = true ->
  agree K (cursor_regs sig cpsr) (enter_all ps R) -> stored_all load ps R ->
  Z.testbit (known_all ps K) ARM_LR = true -> sig.(arm_pc) <> reg R ARM_LR ->
  status <> STEP_STOP -> status <> STEP_PC_LR ->
  exists sig', Step load half dladdr cpsr status sig = (Returns 1, sig') /\ sig'.(arm_pc) = reg R ARM_LR /\
    forall i, 0 <= i < 15 -> Z.testbit (known_all ps K) i = true -> reg (copyregs_to_cursor sig') i = reg R i.
Proof.
  intros Hdl Huw Hund Hc HR Hcan Hag Hst Hlr Hpc Hst1 Hst2.
  pose proof (wp_exidx_step_at load half base tbl n v i _ keys _ pad ps codes K R sig cpsr status (fun _ => False)
    Huw eq_refl Hund Hc HR Hcan Hag Hst Hlr Hpc Hst1 Hst2) as Hstep.
  destruct (wp_returns _ _ _ Hstep) as (r & c' & Hrun & -> & R' & HR' & Hok & Hpc' & Hag'). clear Hstep.
  destruct Huw as [[(phoff & num & j & paddr & Hoff & Hnum & Hj & Htype & Hlast & Hpa & Hms & ->)] Hia Hval (Hvi & Hin & _) _ _ _ _].
  set (ph := u32 (base + phoff)) in *. set (tbl := u32 (paddr + base)) in *.
  destruct (ia_place _ _ _ _ _ Hia) as [Ht1 Ht2]. pose proof Hval as (Hv0 & _).
  destruct (copyregs_some _ Hok) as (sig' & cpsr' & Hsig' & ER').
  exists sig'. split; [|split].
  2:{ rewrite <- Hpc', ER'. by destruct sig'. }
  2:{ intros k Hk Hb. rewrite <- (Hag' k Hk Hb), ER'. unfold reg, cursor_regs. rewrite lookup_app_l; [done|]. cbn. lia. }
  unfold Step, bind at 1, gets. rewrite Hdl. unfold of_option. rewrite Hoff, Hnum.
  unfold bind, ret. cbv beta iota. fold ph. rewrite (find_phdr_last load ph j (Z.to_nat num)) by (done || lia || (intros k Hk; apply Hlast; lia)).
  rewrite Htype. change (negb (ARM_EXIDX =? ARM_EXIDX)) with false. cbv iota. rewrite Hpa, Hms. fold tbl.
  rewrite Z.mul_comm, Z.div_mul by lia.
  rewrite (move_to_first_valid load tbl v) by (done || unfold entry in *; lia).
  assert (u32 (tbl + n * 8 - 8) = entry tbl (n - 1)) as -> by (unfold entry in *; rewrite u32_small; lia).
  change (mk_cursor (copyregs_to_cursor sig ++ [cpsr]) base (u32 (arm_pc sig - base)) status (entry tbl v) (entry tbl (n - 1)))
    with (frame_cursor sig cpsr status base tbl v n).
  unfold frame_cursor. rewrite Hrun. change (0 <? 0) with false. cbv iota. rewrite HR', Hsig'. done.
Qed.

(** ** A module in memory, as an example

    A module at 0x10000 with four functions; the first cannot be unwound; the
    second pushes [r4]-[r7] and [lr] and takes 16 bytes for its locals. *)

Definition demo_words : list (Z * Z) :=
  [(0x1001c, 52); (0x10054, ARM_EXIDX); (0x10060, 0x200); (0x10068, 32);
   (0x10200, 0x11000 - 0x10200); (0x10204, 1);
   (0x10208, 0x11100 - 0x10208); (0x1020c, word 0x80 0x03 0xab 0xb0);
   (0x10210, 0x11200 - 0x10210); (0x10214, word 0x80 0xb0 0xb0 0xb0);
   (0x10218, 0x11300 - 0x10218); (0x1021c, 1);
   (0x6fec, 4); (0x6ff0, 5); (0x6ff4, 6); (0x6ff8, 7); (0x6ffc, 0x12345)].

Fixpoint lookup_word (l : list (Z * Z)) (a : Z) : option Z :=
  match l with [] => Some 0 | (b, w) :: l => if a =? b then Some w else lookup_word l a end.

Definition demo_load : Z -> option Z := lookup_word demo_words.
Definition demo_half (a : Z) : option Z := if a =? 0x1002c then Some 2 else Some 0.
Definition demo_keys (k : Z) : Z := 0x1000 + 0x100 * k.

(** The registers at the call, and in the middle of the function. *)
Definition demo_caller : list Z := [0; 1; 2; 3; 4; 5; 6; 7; 8; 9; 10; 11; 12; 0x7000; 0x12345; 0x11100; 0].
Definition demo_frame : sigcontext := mk_sigcontext 90 91 92 93 94 95 96 97 8 9 10 11 99 0x6fdc 0x11140 0x11142.
Definition demo_prologue : list pro := [Push (Z.lor (Z.shiftl (Z.shiftl 1 4 - 1) 4) (Z.shiftl 1 14)); SubSp 16].
Definition demo_codes : list (list Z) := [[0xab]; [0x03]].
Definition demo_kept : Z := 0x2f00.

Lemma demo_undoes : Forall2 undoes demo_prologue demo_codes.
Proof.
  constructor; [exact (undo_range_lr 3 ltac:(lia))|]. constructor; [exact (undo_small 3 ltac:(lia))|]. constructor.
Qed.

Lemma demo_regs_ok l : length l = 17%nat -> forallb (fun v => (0 <=? v) && (v <? 4294967296)) l = true -> regs_ok l.
Proof.
  intros Hl Hf. split; [done|]. apply Forall_forall. intros v Hv. rewrite forallb_forall in Hf.
  specialize (Hf v ltac:(by apply list_elem_of_In)). lia.
Qed.

Lemma demo_agree : agree demo_kept (cursor_regs demo_frame 0) (enter_all demo_prologue demo_caller).
Proof. intros i Hi. each i 0 16. Qed.

Lemma demo_stored : stored_all demo_load demo_prologue demo_caller.
Proof. split; [|by repeat split]. intros i Hi. each i 0 16. Qed.

Lemma demo_unwindable :
  unwindable demo_load demo_half 0x10000 0x10200 4 1 1 0x11142 demo_keys (concat (rev demo_codes)) [0xb0].
Proof.
  split.
  - split. exists 52, 2, 1, 0x200. do 4 (split; [done|]). split; [intros k Hk; lia|]. done.
  - split; [unfold entry; lia| |by eexists|unfold demo_keys; lia].
    intros k Hk. each k 0 4.
  - split; [lia|]. split; [|by eexists]. intros k Hk. by assert (k = 0) as -> by lia.
  - by vm_compute.
  - by exists 1%nat.
  - by apply (desc_inline _ _ 0x80 0x03 0xab 0xb0); unfold byte.
  - done.
  - cbn. lia.
Qed.

Lemma step_reaches_caller_witness :
  exists sig', Step demo_load demo_half (fun _ => Some 0x10000) 0 7 demo_frame = (Returns 1, sig') /\
    sig'.(arm_pc) = 0x12345 /\
    forall i, 0 <= i < 15 -> Z.testbit 0x6ff0 i = true -> reg (copyregs_to_cursor sig') i = reg demo_caller i.
Proof.
  apply (step_reaches_caller demo_load demo_half (fun _ => Some 0x10000) 0x10000 0x10200 4 1 1 demo_keys demo_codes [0xb0]
    demo_prologue demo_kept demo_caller demo_frame 0 7).
  - reflexivity.
  - exact demo_unwindable.
  - exact demo_undoes.
  - by apply demo_regs_ok.
  - by apply demo_regs_ok.
  - reflexivity.
  - exact demo_agree.
  - exact demo_stored.
  - reflexivity.
  - discriminate.
  - discriminate.
  - discriminate.
Defined.
