(* ===== verification/ExidxLimits.v ===== *)
(** * The ARM stack unwinder: termination and limits

    The search ends on every index, sorted or not; what the unwinder does with
    entries it has no room for, with functions that cannot be unwound and with
    saved floating-point registers. *)

From stdpp Require Import base numbers list list_numbers.
From Stdlib Require Import Lia ZArith.
From S2P Require Import Prelude Exidx ExidxFrame ExidxTable.

#[local] Open Scope Z_scope.
#[local] Open Scope c_scope.

(** ** The search *)

(** The entries of an index from [lo] to [hi] can be read, and one in front of
    it and one behind it. *)
Definition entries_readable (load : Z -> option Z) (lo hi : Z) : Prop :=
  forall a, lo - 8 <= a < hi + 8 -> (a - lo) mod 8 = 0 -> exists w, load a = Some w.

Lemma exidx_key_mapped load base lo hi a : entries_readable load lo hi -> lo - 8 <= a < hi + 8 -> (a - lo) mod 8 = 0 ->
  exists k, exidx_key load base a = Some k.
Proof. intros Hm Ha Hal. unfold exidx_key. destruct (Hm a Ha Hal) as [w ->]. by eexists. Qed.

Lemma search_in_total load base key lo hi fuel : entries_readable load lo hi -> 8 <= lo -> hi < 4294967288 -> forall start end_,
  lo <= start -> end_ <= hi -> (start - lo) mod 8 = 0 -> end_ - start < 8 * Z.of_nat fuel - 8 -> start <= end_ + 8 ->
  exists r, search_in load fuel start end_ base key = Some r /\ (r = 0 \/ start - 8 <= r < end_).
Proof.
  intros Hm Hlo Hhi. induction fuel as [|fuel IH]; intros start end_ Hs He Hal Hf Hse; [lia|]. cbn [search_in].
  destruct (Z.leb_spec end_ start) as [|Hlt]; [exists 0; auto|].
  set (h := (end_ - start) / 8 / 2). assert (0 <= 16 * h <= end_ - start) as Hh.
  { unfold h. rewrite Z.div_div by lia. pose proof (Z.div_mod (end_ - start) (8 * 2)). pose proof (Z.mod_pos_bound (end_ - start) (8 * 2)).
    pose proof (Z.div_pos (end_ - start) (8 * 2)). lia. }
  rewrite (u32_small (start + h * 8)) by lia. set (mid := start + h * 8). assert (start <= mid < end_) as Hmid by (unfold mid; lia).
  rewrite (u32_small (mid - 8)), (u32_small (mid + 8)) by lia.
  assert (forall k, (mid + k * 8 - lo) mod 8 = 0) as Hmal.
  { intros k. replace (mid + k * 8 - lo) with (start - lo + (h + k) * 8) by (unfold mid; lia). by rewrite Z.mod_add by lia. }
  pose proof (Hmal (-1)) as H1. pose proof (Hmal 0) as H2. pose proof (Hmal 1) as H3.
  replace (mid + -1 * 8) with (mid - 8) in H1 by lia. replace (mid + 0 * 8) with mid in H2 by lia. replace (mid + 1 * 8) with (mid + 8) in H3 by lia.
  destruct (exidx_key_mapped load base lo hi (mid - 8) Hm) as [kp ->]; [lia|done|]. destruct (exidx_key_mapped load base lo hi mid Hm) as [km ->]; [lia|done|].
  destruct (exidx_key_mapped load base lo hi (mid + 8) Hm) as [kf ->]; [lia|done|].
  destruct ((km <=? key) && (key <=? kf)); [exists mid; split; [done|lia]|].
  destruct ((key <=? km) && (kp <=? key)); [exists (mid - 8); split; [done|lia]|].
  destruct (km <=? key).
  - destruct (IH (mid + 8) end_) as (r & Hr & Hrr); [lia|lia|done|lia|lia|]. exists r. split; [done|]. lia.
  - destruct (key <? km); [|exists 0; auto].
    destruct (IH start (mid - 8)) as (r & Hr & Hrr); [lia|lia|done|lia|lia|]. exists r. split; [done|]. lia.
Qed.

(** C25. The binary search ends for every content of the index, sorted or not,
    and reads nothing but the first words of its entries, of the one in front of
    it and of the one behind it: only these have to be mapped ([load] may be
    undefined everywhere else, and an access there would make the search fail).
    What it returns is 0 or lies in the index, or one entry in front of it. *)
Theorem search_terminates load start end_ base key :
  entries_readable load start end_ -> 8 <= start <= end_ -> end_ < 4294967288 ->
  exists r, search_exidx_value load start end_ base key = Some r /\ (r = 0 \/ start - 8 <= r < end_).
Proof.
  intros Hm Hs He. apply (search_in_total load base key start end_); try done; try lia.
  - by rewrite Z.sub_diag.
  - pose proof (Z.div_mod (end_ - start) 8). pose proof (Z.mod_pos_bound (end_ - start) 8). pose proof (Z.div_pos (end_ - start) 8). lia.
Qed.

(** Only the four words are mapped. *)
Definition index_only (a : Z) : option Z :=
  if (a =? 0x10200) || (a =? 0x10208) || (a =? 0x10210) || (a =? 0x10218) then demo_load a else None.

Lemma index_only_readable : entries_readable index_only 0x10208 0x10218.
Proof.
  intros a Ha Hal. pose proof (Z.div_mod (a - 0x10208) 8 ltac:(lia)) as Hd. set (k := (a - 0x10208) / 8) in *.
  assert (k = -1 \/ k = 0 \/ k = 1 \/ k = 2) as [E|[E|[E|E]]] by lia.
  - replace a with 0x10200 by lia. by eexists.
  - replace a with 0x10208 by lia. by eexists.
  - replace a with 0x10210 by lia. by eexists.
  - replace a with 0x10218 by lia. by eexists.
Qed.

Lemma search_terminates_witness :
  exists r, search_exidx_value index_only 0x10208 0x10218 0x10000 0x1142 = Some r /\ (r = 0 \/ 0x10200 <= r < 0x10218).
Proof.
  apply (search_terminates index_only 0x10208 0x10218 0x10000 0x1142); [exact index_only_readable|lia|lia].
Defined.

(** At the very start of a function the search can return the entry before. *)
Example search_at_function_start :
  search_exidx_value demo_load (entry 0x10200 0) (entry 0x10200 3) 0x10000 (demo_keys 2) = Some (entry 0x10200 1).
Proof. reflexivity. Qed.

(** ** Entries that do not fit *)

(** A long entry with eight or more additional words is written past the
    32 bytes of [buf]. *)
Theorem long_entry_overflows load c kv v hi n b0 b1 bs :
  search_exidx_value load c.(exidx_start_addr) c.(exidx_end_addr) c.(base_addr) c.(pc_offest) = Some kv -> kv <> 0 ->
  load (u32 (kv + 4)) = Some v -> 0 <= v < 2147483648 -> v <> 1 ->
  let tbl := u32 (kv + 4 + get_off_pre31 v) in
  128 <= hi < 256 -> hi mod 16 = 1 \/ hi mod 16 = 2 -> 8 <= Z.of_nat n < 256 -> byte b0 -> byte b1 ->
  load tbl = Some (word hi (Z.of_nat n) b0 b1) -> words_at load (u32 (tbl + 4)) n bs ->
  fst (arm_exidx_step load c) = Stuck.
Proof.
  intros Hs Hkv Hv Hvr Hv1 tbl Hhi Hform Hn H0 H1 Hload Hws.
  assert (length bs = 4 * n)%nat as Hlen by (clear -Hws; induction Hws; cbn; lia).
  assert (byte (Z.of_nat n)) as Hbn by (unfold byte; lia).
  apply (stuck_bind (arm_exidx_extract load)). unfold arm_exidx_extract.
  apply (stuck_bind_later _ _ (fun c' s => c' = c /\ s = c)); [by apply wp_gets|]. intros ? ? [-> ->].
  apply (stuck_bind_later _ _ (fun k s => k = kv /\ s = c)); [by eapply wp_of_option|]. intros ? ? [-> ->].
  rewrite (proj2 (Z.eqb_neq kv 0)) by done.
  apply (stuck_bind_later _ _ (fun k s => k = v /\ s = c)); [by eapply wp_of_option|]. intros ? ? [-> ->].
  unfold ARM_EXIDX_CANT_UNWIND. rewrite (proj2 (Z.eqb_neq v 1)) by done. rewrite test_compact, (proj2 (Z.leb_gt _ _)) by lia.
  cbv zeta. fold tbl. apply (stuck_bind_later _ _ (fun k s => k = word hi (Z.of_nat n) b0 b1 /\ s = c)); [by eapply wp_of_option|]. intros ? ? [-> ->].
  assert (2147483648 <= word hi (Z.of_nat n) b0 b1 < 4294967296) as Hw by (unfold word, byte in *; lia).
  rewrite test_compact, (proj2 (Z.leb_le _ _)) by lia.
  destruct (word_bytes hi (Z.of_nat n) b0 b1) as (_ & E2 & _ & _ & E3); [unfold byte; lia|done|done|done|].
  rewrite E3. change 0x0f with (Z.ones 4). rewrite Z.land_ones by lia. change (2 ^ 4) with 16.
  assert ((hi mod 16 =? 1) || (hi mod 16 =? 2) = true) as -> by (destruct Hform as [-> | ->]; done).
  apply (stuck_bind_later _ _ (fun b s => b = [] /\ s = c)); [by apply wp_ret|]. intros ? ? [-> ->].
  apply (stuck_bind_later _ _ (fun b s => length b = 2%nat /\ s = c)); [by apply wp_put_all|]. intros b ? [Hb ->].
  change 0xff with (Z.ones 8). rewrite Z.land_ones by lia. change (2 ^ 8) with 256. unfold u8 in E2. rewrite E2, Nat2Z.id.
  apply stuck_bind, (more_words_overflows _ _ _ _ Hws); lia.
Qed.

(** ** Functions that cannot be unwound *)

(** For a function that cannot be unwound the step reports success and
    leaves the registers as they were: the caller sees the same frame again. *)
Theorem cant_unwind_repeats load c kv :
  search_exidx_value load c.(exidx_start_addr) c.(exidx_end_addr) c.(base_addr) c.(pc_offest) = Some kv -> kv <> 0 ->
  load (u32 (kv + 4)) = Some ARM_EXIDX_CANT_UNWIND -> c.(step_status) <> STEP_STOP -> c.(step_status) <> STEP_PC_LR ->
  arm_exidx_step load c = (Returns 0, c).
Proof.
  intros Hs Hkv Hv H1 H2. unfold arm_exidx_step, arm_exidx_extract, bind, gets, of_option, ret. rewrite Hs.
  rewrite (proj2 (Z.eqb_neq kv 0)) by done. rewrite Hv. change (ARM_EXIDX_CANT_UNWIND =? ARM_EXIDX_CANT_UNWIND) with true.
  cbv iota beta. change (0 <? 0) with false. cbv iota beta. rewrite (proj2 (Z.eqb_neq _ STEP_STOP)), (proj2 (Z.eqb_neq _ STEP_PC_LR)) by done. done.
Qed.

(** ** Floating-point registers *)

(** The unwind instructions for saved VFP registers do nothing: the words they
    occupy stay on the stack, and whatever is popped next is read from them. *)
Lemma vfp_ignored load n bs c : 0 <= n < 8 ->
  arm_exidx_decode load ((0xb8 + n) :: bs) c = arm_exidx_decode load bs c /\
  arm_exidx_decode load ((0xd0 + n) :: bs) c = arm_exidx_decode load bs c.
Proof.
  intros Hn. unfold arm_exidx_decode. cbn [length].
  assert (forall op m, decode_op op bs = Some (mk_exbuf ARM_EXIDX_CMD_VFP_POP m, bs) ->
    loop (S (S (length bs))) (decode_round load) (op :: bs) c = loop (S (length bs)) (decode_round load) bs c) as H.
  { intros op m Hop. cbn [loop]. unfold decode_round at 1, bind at 1 2 3, of_option. rewrite Hop. done. }
  assert (n = 0 \/ n = 1 \/ n = 2 \/ n = 3 \/ n = 4 \/ n = 5 \/ n = 6 \/ n = 7) as Hcase by lia.
  repeat destruct Hcase as [->|Hcase]; [..|subst n]; (split; eapply H; reflexivity).
Qed.

(** ** Examples *)

(** The memory of the example with a long entry of eight words. *)
Definition demo_long : Z -> option Z :=
  lookup_word ((0x1020c, 0xf4) :: (0x10300, word 0x81 8 0x03 0xab) :: demo_words).

Lemma long_entry_overflows_witness : fst (arm_exidx_step demo_long (frame_cursor demo_frame 0 7 0x10000 0x10200 1 4)) = Stuck.
Proof.
  assert (byte 0) as H0 by (unfold byte; lia).
  apply (long_entry_overflows demo_long _ 0x10208 0xf4 0x81 8 0x03 0xab (replicate 32 0)); try (unfold byte; lia); try reflexivity; try discriminate.
  - left. reflexivity.
  - cbn [replicate]. repeat (eapply words_cons; [exact H0|exact H0|exact H0|exact H0|reflexivity|]). constructor.
Defined.

Lemma cant_unwind_repeats_witness :
  let c := mk_cursor (cursor_regs demo_frame 0) 0x10000 0x1050 7 0x10200 0x10218 in arm_exidx_step demo_load c = (Returns 0, c).
Proof. apply (cant_unwind_repeats demo_load _ 0x10200); try reflexivity; discriminate. Defined.

Lemma unwinding_inverts_prologue_witness :
  exists R', arm_exidx_decode demo_load [0x03; 0xab; 0xb0] (frame_cursor demo_frame 0 7 0x10000 0x10200 1 4) =
      (Returns 0, set_regs R' (frame_cursor demo_frame 0 7 0x10000 0x10200 1 4)) /\
    reg R' 15 = 0x12345 /\ forall i, 0 <= i < 15 -> Z.testbit 0x6ff0 i = true -> reg R' i = reg demo_caller i.
Proof.
  apply (unwinding_inverts_prologue demo_load demo_prologue demo_codes [] demo_kept demo_caller).
  - exact demo_undoes.
  - by apply demo_regs_ok.
  - by apply demo_regs_ok.
  - reflexivity.
  - exact demo_agree.
  - exact demo_stored.
  - reflexivity.
  - discriminate.
Defined.

(** An operand byte 0xb0 at the end is taken for the finish instruction: none is
    added, and the program counter stays where it was. *)
Example finish_missing :
  with_finish [0x03; 0xb3; 0xb0] = [0x03; 0xb3; 0xb0].
Proof. reflexivity. Qed.
