(* ===== verification/Dwarf.v ===== *)
(** * The ARM64 stack unwinder (libcrash_collect/crash/stacktrace/arm64)

    [step64] goes from the registers of a frame to those of its caller with
    the call frame information of the module that holds the program counter:
    it reads the header ([decode_hdr]) and the common entry ([decode_cie]),
    walks over the entries of the functions ([decode_fde]) to the one that has
    the program counter, and runs the instructions of both ([execute_insns]).

    The memory of the process is a parameter: [byte a] is the byte at [a],
    [None] if nothing is mapped there; a read of unmapped memory is [Stuck], as
    is a register number outside [regs].  Addresses have 64 bits. *)

From stdpp Require Import base numbers list list_numbers.
From Stdlib Require Import Lia ZArith.
From S2P Require Import Prelude.

#[local] Open Scope Z_scope.
#[local] Open Scope c_scope.

Definition USE_EXTENDED_LENGTH := 0xFFFFFFFF.
Definition PT_GNU_EH_FRAME := 0x6474e550.
Definition ARM64_SP := 31.
Definition ARM64_PC := 32.
Definition NUM_REGS := 33.

Definition DW_CFA_advance_loc := 0x40.
Definition DW_CFA_offset := 0x80.
Definition DW_CFA_restore := 0xc0.
Definition DW_CFA_nop := 0x00.
Definition DW_CFA_advance_loc1 := 0x02.
Definition DW_CFA_advance_loc2 := 0x03.
Definition DW_CFA_advance_loc4 := 0x04.
Definition DW_CFA_offset_extended := 0x05.
Definition DW_CFA_restore_extended := 0x06.
Definition DW_CFA_undefined := 0x07.
Definition DW_CFA_same_value := 0x08.
Definition DW_CFA_register := 0x09.
Definition DW_CFA_def_cfa := 0x0c.
Definition DW_CFA_def_cfa_register := 0x0d.
Definition DW_CFA_def_cfa_offset := 0x0e.
Definition DW_CFA_offset_extended_sf := 0x11.
Definition DW_CFA_def_cfa_sf := 0x12.
Definition DW_CFA_def_cfa_offset_sf := 0x13.
Definition DW_CFA_val_offset := 0x14.
Definition DW_CFA_val_offset_sf := 0x15.

(** ** Data *)

Record HDR : Type := mk_hdr {
  hdr_version : Z;
  eh_frame_ptr_enc : Z;
  fde_count_enc : Z;
  table_enc : Z;
  eh_frame_ptr : Z;
  fde_count : Z;
  binary_search_table : Z;
  eh_frame_addr : Z
}.

(** Pointers are addresses; [en_data] and the augmentation data are 0 where
    [new] has set them so and nothing else does. *)
Record CIE : Type := mk_cie {
  cie_total_length : Z;
  cie_length : Z;
  CIE_ID : Z;
  cie_version : Z;
  augmentation : Z;
  en_data : Z;
  code_alignment_factor : Z;
  data_alignment_factor : Z;
  return_address_register : Z;
  cie_augmentation_data_length : Z;
  augmentation_data : Z;
  initial_instructions : Z;
  cie_inst_length : Z
}.

Record FDE : Type := mk_fde {
  fde_total_length : Z;
  fde_length : Z;
  CIE_Potnter : Z;
  pc_begin : Z;
  pc_range : Z;
  fde_augmentation_data_length : Z;
  call_frame_instructions : Z;
  fde_inst_length : Z
}.

(** The registers and the frame address; the entries are arguments of the
    operations. *)
Record dwarf_frame : Type := mk_frame {
  regs : list Z;
  cfa : Z;
  cfa_pc : Z;
  cfa_register : Z;
  cfa_offset : Z
}.

Definition set_frame_regs (v : list Z) (f : dwarf_frame) : dwarf_frame := mk_frame v f.(cfa) f.(cfa_pc) f.(cfa_register) f.(cfa_offset).
Definition set_cfa (v : Z) (f : dwarf_frame) : dwarf_frame := mk_frame f.(regs) v f.(cfa_pc) f.(cfa_register) f.(cfa_offset).
Definition set_cfa_pc (v : Z) (f : dwarf_frame) : dwarf_frame := mk_frame f.(regs) f.(cfa) v f.(cfa_register) f.(cfa_offset).
Definition set_cfa_register (v : Z) (f : dwarf_frame) : dwarf_frame := mk_frame f.(regs) f.(cfa) f.(cfa_pc) v f.(cfa_offset).
Definition set_cfa_offset (v : Z) (f : dwarf_frame) : dwarf_frame := mk_frame f.(regs) f.(cfa) f.(cfa_pc) f.(cfa_register) v.

(** [regs], [sp] and [pc] of the signal context are one array of 33 words. *)
Definition copyregs_to_frame (sig_ctx : list Z) (f : dwarf_frame) : dwarf_frame := set_frame_regs (take (Z.to_nat NUM_REGS) sig_ctx) f.
Definition copyregs_to_sigctx64 (f : dwarf_frame) : list Z := f.(regs).

Definition new_frame : dwarf_frame := mk_frame (replicate (Z.to_nat NUM_REGS) 0) 0 0 0 0.

Section Memory.
Context (byte : Z -> option Z).

(** The little-endian integer of [n] bytes at [a]. *)
Fixpoint load_le (n : nat) (a : Z) : option Z :=
  match n with
  | O => Some 0
  | S n =>
      match byte (u64 a), load_le n (a + 1) with
      | Some b, Some v => Some (b + 256 * v)
      | _, _ => None
      end
  end.

(** ** LEB128 (utils/leb128.cpp)

    Both return the value and the number of bytes read.  A shift by 32 or more
    is undefined; a smaller one drops the bits that do not fit. *)

Fixpoint uleb_bytes (fuel : nat) (buffer pos offset value : Z) : option (Z * Z) :=
  match fuel with
  | O => None
  | S fuel =>
      match byte (u64 (buffer + pos)) with
      | None => None
      | Some b =>
          if 32 <=? offset then None
          else
            let value := Z.lor value (u32 (Z.shiftl (Z.land b 0x7F) offset)) in
            if test b 0x80 then uleb_bytes fuel buffer (pos + 1) (offset + 7) value else Some (value, pos + 1)
      end
  end.

(** Five bytes, and the one that is shifted too far. *)
Definition read_uleb128 (buffer : Z) : option (Z * Z) := uleb_bytes 6 buffer 0 0 0.

(** The last byte is kept for the sign. *)
Fixpoint leb_bytes (fuel : nat) (buffer pos offset value : Z) : option (Z * Z * Z * Z) :=
  match fuel with
  | O => None
  | S fuel =>
      match byte (u64 (buffer + pos)) with
      | None => None
      | Some b =>
          if 32 <=? offset then None
          else
            let value := Z.lor value (i32 (Z.shiftl (Z.land b 0x7f) offset)) in
            if test b 0x80 then leb_bytes fuel buffer (pos + 1) (offset + 7) value else Some (value, pos + 1, offset + 7, b)
      end
  end.

Definition read_leb128 (buffer : Z) : option (Z * Z) :=
  match leb_bytes 6 buffer 0 0 0 with
  | Some (value, pos, offset, b) =>
      if test b 0x40 then
        if 32 <=? offset then None else Some (Z.lor value (i32 (- Z.shiftl 1 offset)), pos)
      else Some (value, pos)
  | None => None
  end.

(** ** Strings *)

(** The bytes of the string at [a], of at most [n]. *)
Fixpoint c_string (n : nat) (a : Z) : option (list Z) :=
  match n with
  | O => None
  | S n =>
      match byte (u64 a) with
      | None => None
      | Some b => if b =? 0 then Some [] else match c_string n (a + 1) with Some s => Some (b :: s) | None => None end
      end
  end.

(** [strstr(s, pat) != NULL] *)
Fixpoint has_substring (pat s : list Z) : bool :=
  bool_decide (take (length pat) s = pat) || match s with [] => false | _ :: s => has_substring pat s end.

(** ** The entries (eh_frame.cpp) *)

(** [size] is [sizeof(HDR)] without that of the pointer: 20. *)
Definition decode_hdr (eh_frame_hdr_start : Z) : option HDR :=
  let at_ n off := load_le n (eh_frame_hdr_start + off) in
  match at_ 1%nat 0, at_ 1%nat 1, at_ 1%nat 2, at_ 1%nat 3, at_ 4%nat 4, at_ 4%nat 8, at_ 8%nat 12 with
  | Some v, Some e1, Some e2, Some e3, Some ptr, Some count, Some _ =>
      Some (mk_hdr v e1 e2 e3 (i32 ptr) count (u64 (eh_frame_hdr_start + 20)) (u64 (i32 ptr + eh_frame_hdr_start + 4)))
  | _, _, _, _, _, _, _ => None
  end.

(** The length field: the length, the length of the entry, the address behind it. *)
Definition entry_length (start : Z) : option (Z * Z * Z) :=
  match load_le 4 start with
  | None => None
  | Some len =>
      if len =? USE_EXTENDED_LENGTH then
        match load_le 8 (start + 4) with
        | Some len => Some (len, u64 (len + 12), u64 (start + 12))
        | None => None
        end
      else Some (len, u64 (len + 4), u64 (start + 4))
  end.

(** "z", "zh" *)
Definition AUG_z : list Z := [122].
Definition AUG_zh : list Z := [122; 104].

(** [fuel] bounds the length of the augmentation string. *)
Definition decode_cie (fuel : nat) (eh_frame_start : Z) : option CIE :=
  match entry_length eh_frame_start with
  | None => None
  | Some (len, total, p) =>
      let cie_end := u64 (len + p) in
      match load_le 4 p, load_le 1 (p + 4), c_string fuel (p + 5) with
      | Some id, Some version, Some aug =>
          let p := u64 (p + 5) in
          let q := u64 (p + Z.of_nat (length aug) + 1) in
          let eh := has_substring AUG_zh aug in
          match (if eh then load_le 8 q else Some 0) with
          | None => None
          | Some en =>
              let q := if eh then u64 (q + 8) else q in
              match read_uleb128 q with
              | None => None
              | Some (caf, n1) =>
                  match read_leb128 (q + n1) with
                  | None => None
                  | Some (daf, n2) =>
                      match read_uleb128 (q + n1 + n2) with
                      | None => None
                      | Some (ra, n3) =>
                          let q := u64 (q + n1 + n2 + n3) in
                          if has_substring AUG_z aug then
                            match read_uleb128 q with
                            | None => None
                            | Some (alen, n4) =>
                                let insns := u64 (q + n4 + alen) in
                                Some (mk_cie total len id version p en caf daf ra alen (u64 (q + n4)) insns (u64 (cie_end - insns)))
                            end
                          else Some (mk_cie total len id version p en caf daf ra 0 0 q (u64 (cie_end - q)))
                      end
                  end
              end
          end
      | _, _, _ => None
      end
  end.

Definition decode_fde (fde_start : Z) (cie : CIE) : option FDE :=
  match entry_length fde_start with
  | None => None
  | Some (len, total, p) =>
      if len =? 0 then Some (mk_fde total len 0 0 0 0 0 0)
      else
        let fde_end := u64 (len + p) in
        match load_le 4 p, load_le 4 (p + 4), load_le 4 (p + 8) with
        | Some cp, Some begin, Some range =>
            let begin := u64 (i32 begin + (p + 4)) in
            let q := u64 (p + 12) in
            match (if cie.(augmentation) =? 0 then Some 0 else byte (u64 cie.(augmentation))) with
            | None => None
            | Some a =>
                if a =? 122 then
                  match read_uleb128 q with
                  | None => None
                  | Some (alen, n) =>
                      let q := u64 (q + i32 (n + alen)) in
                      Some (mk_fde total len cp begin range alen q (u64 (fde_end - q)))
                  end
                else Some (mk_fde total len cp begin range 0 q (u64 (fde_end - q)))
            end
        | _, _, _ => None
        end
  end.

(** ** The instructions (ehstep.cpp) *)

Abbreviation FrameM := (M dwarf_frame).

Section Execute.
Context (cie : CIE) (insn_end : Z).

Definition frame_reg (i : Z) : FrameM Z := let! r := gets regs in of_option (aget r i).

Definition set_frame_reg (i v : Z) : FrameM unit :=
  let! r := gets regs in
  let! r := of_option (aset r i v) in
  modify (set_frame_regs r).

(** [frame->regs[r] = *(addr_s * )(frame->cfa + d)] *)
Definition restore_from (r d : Z) : FrameM unit :=
  let! a := gets cfa in
  let! v := of_option (load_le 8 (u64 (a + d))) in
  set_frame_reg r v.

(** [frame->cfa = frame->regs[frame->cfa_register] + frame->cfa_offset] *)
Definition update_cfa : FrameM unit :=
  let! r := gets cfa_register in
  let! v := frame_reg r in
  let! o := gets cfa_offset in
  modify (set_cfa (u64 (v + o))).

Definition advance_pc (n : Z) : FrameM unit :=
  let! pc := gets cfa_pc in
  modify (set_cfa_pc (u64 (pc + u32 (n * cie.(code_alignment_factor))))).

(** A product of two [int]s; one that does not fit is undefined. *)
Definition factored (n : Z) : FrameM Z :=
  let v := n * cie.(data_alignment_factor) in
  if (-2147483648 <=? v) && (v <=? 2147483647) then ret v else stuck.

(** [frame->regs[ARM64_PC] = frame->regs[frame->cie->return_address_register] - 4] *)
Definition set_return : FrameM unit :=
  let! ra := frame_reg cie.(return_address_register) in
  set_frame_reg ARM64_PC (u64 (ra - 4)).

(** One instruction, [op], whose operands are at [p]: the address behind it, or
    [None] for the one that ends the loop. *)
Definition execute_op (op p : Z) : FrameM (option Z) :=
  let uleb a := of_option (read_uleb128 a) in
  let sleb a := of_option (read_leb128 a) in
  if Z.land op 0xc0 =? DW_CFA_advance_loc then advance_pc (Z.land op 0x3f) ;;! ret (Some p)
  else if Z.land op 0xc0 =? DW_CFA_offset then
    let! ' (n, l) := uleb p in
    restore_from (Z.land op 0x3f) (n * cie.(data_alignment_factor)) ;;! ret (Some (p + l))
  else if Z.land op 0xc0 =? DW_CFA_restore then ret (Some p)
  else if op =? DW_CFA_nop then set_return ;;! ret None
  else if op =? DW_CFA_advance_loc1 then
    let! n := of_option (load_le 1 p) in advance_pc n ;;! ret (Some (p + 1))
  else if op =? DW_CFA_advance_loc2 then
    let! n := of_option (load_le 2 p) in advance_pc n ;;! ret (Some (p + 2))
  else if op =? DW_CFA_advance_loc4 then
    let! n := of_option (load_le 4 p) in advance_pc n ;;! ret (Some (p + 4))
  else if op =? DW_CFA_offset_extended then
    let! ' (r, l) := uleb p in
    let! ' (n, l2) := uleb (p + l) in
    restore_from r (n * cie.(data_alignment_factor)) ;;! ret (Some (p + l + l2))
  else if (op =? DW_CFA_restore_extended) || (op =? DW_CFA_undefined) || (op =? DW_CFA_same_value) then
    let! ' (r, l) := uleb p in ret (Some (p + l))
  else if op =? DW_CFA_register then
    let! ' (r, l) := uleb p in
    let! ' (r2, l2) := uleb (p + l) in
    let! v := frame_reg r2 in
    set_frame_reg r v ;;! ret (Some (p + l + l2))
  else if op =? DW_CFA_def_cfa then
    let! ' (r, l) := uleb p in
    let! ' (o, l2) := uleb (p + l) in
    modify (set_cfa_register r) ;;! modify (set_cfa_offset o) ;;! update_cfa ;;! ret (Some (p + l + l2))
  else if op =? DW_CFA_def_cfa_register then
    let! ' (r, l) := uleb p in
    modify (set_cfa_register r) ;;! ret (Some (p + l))
  else if op =? DW_CFA_def_cfa_offset then
    let! ' (o, l) := uleb p in
    modify (set_cfa_offset o) ;;! update_cfa ;;! ret (Some (p + l))
  else if op =? DW_CFA_offset_extended_sf then
    let! ' (r, l) := uleb p in
    let! ' (n, l2) := sleb (p + l) in
    let! d := factored n in
    restore_from r d ;;! ret (Some (p + l + l2))
  else if op =? DW_CFA_def_cfa_sf then
    let! ' (r, l) := uleb p in
    let! ' (n, l2) := sleb (p + l) in
    let! d := factored n in
    modify (set_cfa_register r) ;;! modify (set_cfa_offset d) ;;! update_cfa ;;! ret (Some (p + l + l2))
  else if op =? DW_CFA_def_cfa_offset_sf then
    let! ' (n, l) := sleb p in
    let! d := factored n in
    modify (set_cfa_offset d) ;;! update_cfa ;;! ret (Some (p + l))
  else if op =? DW_CFA_val_offset then
    let! ' (r, l) := uleb p in
    let! ' (n, l2) := uleb (p + l) in
    let! a := gets cfa in
    set_frame_reg r (u64 (a + n * cie.(data_alignment_factor))) ;;! ret (Some (p + l + l2))
  else if op =? DW_CFA_val_offset_sf then
    let! ' (r, l) := uleb p in
    let! ' (n, l2) := sleb (p + l) in
    let! d := factored n in
    let! a := gets cfa in
    set_frame_reg r (u64 (a + d)) ;;! ret (Some (p + l + l2))
  else ret (Some p).

(** [while (current_insn < insn_end && frame->cfa_pc <= frame->regs[ARM64_PC])] *)
Definition insn_round (p : Z) : FrameM (Z + Z) :=
  let! pc := frame_reg ARM64_PC in
  let! loc := gets cfa_pc in
  if (p <? insn_end) && (loc <=? pc) then
    let! op := of_option (byte (u64 p)) in
    let! r := execute_op op (p + 1) in
    match r with Some p => ret (inl p) | None => ret (inr 1) end
  else set_return ;;! ret (inr 1).

(** Every round moves the pointer. *)
Definition execute_insns (insn_start : Z) : FrameM Z :=
  loop (S (Z.to_nat (insn_end - insn_start))) insn_round insn_start.
End Execute.

(** ** A step (backtrace.cpp) *)

(** [dladdr]: the address of the module of the program counter, if it has a
    name that is not one of an [.odex]. *)
Context (dladdr : Z -> option Z).

(** [for (i = e_phnum - 1; i >= 0; i--)], and the test behind the loop. *)
Fixpoint find_phdr64 (n : nat) (pPHdr : Z) : option (option Z) :=
  match n with
  | O => match load_le 4 pPHdr with Some t => Some (if t =? PT_GNU_EH_FRAME then Some pPHdr else None) | None => None end
  | S n =>
      match load_le 4 (pPHdr + 56 * Z.of_nat n) with
      | Some t => if t =? PT_GNU_EH_FRAME then Some (Some (pPHdr + 56 * Z.of_nat n)) else find_phdr64 n pPHdr
      | None => None
      end
  end.

(** [for (;;)]: the entry that has [pc]; [None] for one of length 0. *)
Fixpoint find_fde (fuel : nat) (cie : CIE) (p pc : Z) : option (option FDE) :=
  match fuel with
  | O => None
  | S fuel =>
      match decode_fde p cie with
      | None => None
      | Some fde =>
          if fde.(fde_length) =? 0 then Some None
          else if (pc <? u64 (fde.(pc_begin) + fde.(pc_range))) && (fde.(pc_begin) <=? pc) then Some (Some fde)
          else find_fde fuel cie (u64 (p + fde.(fde_total_length))) pc
      end
  end.

(** The instructions of both entries, from the registers of the context. *)
Definition run_entries (cie : CIE) (fde : FDE) (sig_ctx : list Z) : FrameM (list Z) :=
  modify (copyregs_to_frame sig_ctx) ;;!
  modify (set_cfa_pc fde.(pc_begin)) ;;!
  let! _ := execute_insns cie (cie.(initial_instructions) + cie.(cie_inst_length)) cie.(initial_instructions) in
  let! _ := execute_insns cie (fde.(call_frame_instructions) + fde.(fde_inst_length)) fde.(call_frame_instructions) in
  gets copyregs_to_sigctx64.

(** The result and the registers afterwards. *)
Definition step64 (fuel : nat) (sig_ctx : list Z) : FrameM (Z * list Z) :=
  let! pc := of_option (aget sig_ctx ARM64_PC) in
  match dladdr pc with
  | None => ret (-1, sig_ctx)
  | Some fbase =>
      let! phoff := of_option (load_le 8 (fbase + 32)) in
      let! phnum := of_option (load_le 2 (fbase + 56)) in
      let! phdr := of_option (find_phdr64 (Z.to_nat phnum) (u64 (fbase + phoff))) in
      match phdr with
      | None => ret (-1, sig_ctx)
      | Some phdr =>
          let! paddr := of_option (load_le 8 (phdr + 24)) in
          let! hdr := of_option (decode_hdr (u64 (paddr + fbase))) in
          let! cie := of_option (decode_cie fuel hdr.(eh_frame_addr)) in
          let! fde := of_option (find_fde fuel cie (u64 (hdr.(eh_frame_addr) + cie.(cie_total_length))) pc) in
          match fde with
          | None => ret (-1, sig_ctx)
          | Some fde => let! sig_ctx := run_entries cie fde sig_ctx in ret (1, sig_ctx)
          end
      end
  end.
End Memory.
