(* ===== verification/Leb.v ===== *)
(** * LEB128 numbers in memory (libcrash_collect/utils/leb128.cpp)

    The encoding of the DWARF standard ([uleb], [sleb]) and the readers of
    Dwarf.v: they read it back, as far as 32 bits reach. *)

From stdpp Require Import base numbers list list_numbers.
From Stdlib Require Import Lia ZArith.
From S2P Require Import Prelude Dwarf.

#[local] Open Scope Z_scope.

(** ** The encoding *)

(** Seven bits to a byte, the low ones first; [n] bounds the bytes. *)
Fixpoint uleb_enc (n : nat) (v : Z) : list Z :=
  match n with
  | O => []
  | S n => if v <? 128 then [v] else (v mod 128 + 128) :: uleb_enc n (v / 128)
  end.

Fixpoint sleb_enc (n : nat) (v : Z) : list Z :=
  match n with
  | O => []
  | S n => if (-64 <=? v) && (v <? 64) then [v mod 128] else (v mod 128 + 128) :: sleb_enc n (v / 128)
  end.

Definition uleb (v : Z) : list Z := uleb_enc 5 v.
Definition sleb (v : Z) : list Z := sleb_enc 5 v.

Section Memory.
Context (byte : Z -> option Z).

(** The bytes [l] are at [a]. *)
Definition bytes_at (a : Z) (l : list Z) : Prop := forall i b, l !! i = Some b -> byte (u64 (a + Z.of_nat i)) = Some b.

Lemma bytes_at_cons a b l : bytes_at a (b :: l) <-> byte (u64 a) = Some b /\ bytes_at (a + 1) l.
Proof.
  split.
  - intros H. split; [specialize (H 0%nat b eq_refl); by rewrite Z.add_0_r in H|]. intros i c Hi. specialize (H (S i) c Hi).
    by replace (a + 1 + Z.of_nat i) with (a + Z.of_nat (S i)) by lia.
  - intros [H0 H] [|i] c Hi; [injection Hi as ->; by rewrite Z.add_0_r|]. specialize (H i c Hi).
    by replace (a + Z.of_nat (S i)) with (a + 1 + Z.of_nat i) by lia.
Qed.

Lemma bytes_at_app a l k : bytes_at a (l ++ k) <-> bytes_at a l /\ bytes_at (a + Z.of_nat (length l)) k.
Proof.
  revert a. induction l as [|b l IH]; intros a; cbn [app length].
  - rewrite Z.add_0_r. split; [intros H; split; [by intros i c Hi|done]|by intros [_ H]].
  - rewrite !bytes_at_cons, IH. replace (a + 1 + Z.of_nat (length l)) with (a + Z.of_nat (S (length l))) by lia. tauto.
Qed.

Lemma u64_add_l a b : u64 (u64 a + b) = u64 (a + b).
Proof. unfold u64. by rewrite Zplus_mod_idemp_l. Qed.

Lemma bytes_at_u64 a l : bytes_at (u64 a) l <-> bytes_at a l.
Proof. unfold bytes_at. by setoid_rewrite u64_add_l. Qed.

(** ** Reading it back *)

Lemma low_bits b : 0 <= b < 128 ->
  Z.land b 127 = b /\ Z.land (b + 128) 127 = b /\ test b 128 = false /\ test (b + 128) 128 = true /\ test b 64 = (64 <=? b).
Proof.
  intros Hb. assert (Forall (fun b => Z.land b 127 = b /\ Z.land (b + 128) 127 = b /\ test b 128 = false /\
    test (b + 128) 128 = true /\ test b 64 = (64 <=? b)) (seqZ 0 128)) as HF.
  { refine (bool_decide_unpack _ _). vm_compute. exact I. }
  apply (proj1 (Forall_forall _ _) HF). apply elem_of_seqZ. lia.
Qed.

Lemma uleb_run : forall n v buffer pos offset value fuel,
  (0 < n)%nat -> 0 <= v < 2 ^ (32 - offset) -> v < 2 ^ (7 * Z.of_nat n) -> 0 <= offset < 32 -> 0 <= value < 2 ^ offset -> (n <= fuel)%nat ->
  bytes_at (buffer + pos) (uleb_enc n v) ->
  uleb_bytes byte fuel buffer pos offset value = Some (value + v * 2 ^ offset, pos + Z.of_nat (length (uleb_enc n v))).
Proof.
  induction n as [|n IH]; intros v buffer pos offset value fuel Hn0 Hv Hn Ho Hval Hf Hb; [lia|].
  destruct fuel as [|fuel]; [lia|]. cbn [uleb_enc uleb_bytes] in *.
  assert (forall w, 0 <= w < 128 -> w * 2 ^ offset < 4294967296 -> Z.lor value (u32 (Z.shiftl w offset)) = value + w * 2 ^ offset) as Hor.
  { intros w Hw Hlt. rewrite u32_small by (rewrite Z.shiftl_mul_pow2; lia). rewrite lor_shiftl by lia. lia. }
  assert (2 ^ (32 - offset) * 2 ^ offset = 4294967296) as Hpow by (rewrite <- Z.pow_add_r by lia; by replace (32 - offset + offset) with 32 by lia).
  destruct (Z.ltb_spec v 128) as [Hlt|Hge].
  - apply bytes_at_cons in Hb as [-> _]. rewrite (proj2 (Z.leb_gt _ _)) by lia. destruct (low_bits v) as (H1 & _ & H2 & _); [lia|].
    rewrite H2, H1, Hor by nia. cbn [length]. do 2 f_equal; lia.
  - apply bytes_at_cons in Hb as [-> Hb]. rewrite (proj2 (Z.leb_gt _ _)) by lia. pose proof (Z.mod_pos_bound v 128 ltac:(lia)) as Hm.
    destruct (low_bits (v mod 128) Hm) as (_ & H1 & _ & H2 & _). rewrite H2, H1.
    pose proof (Z.div_mod v 128 ltac:(lia)) as Hdm.
    assert (offset + 7 < 32) as Ho7.
    { destruct (decide (offset + 7 < 32)); [done|]. assert (2 ^ (32 - offset) <= 2 ^ 7) by (apply Z.pow_le_mono_r; lia). lia. }
    assert (2 ^ (32 - offset) = 128 * 2 ^ (32 - (offset + 7))) as Hsplit by (change 128 with (2 ^ 7); rewrite <- Z.pow_add_r by lia; f_equal; lia).
    assert (2 ^ (7 * Z.of_nat (S n)) = 128 * 2 ^ (7 * Z.of_nat n)) as Hsn by (change 128 with (2 ^ 7); rewrite <- Z.pow_add_r by lia; f_equal; lia).
    assert (2 ^ (offset + 7) = 2 ^ offset * 128) as Ho' by (by rewrite Z.pow_add_r by lia).
    rewrite Hor by nia. rewrite (IH (v / 128)); [|destruct n; [cbn in Hn; lia|lia]|nia|nia|lia|nia|lia|by rewrite <- Z.add_assoc in Hb].
    rewrite Ho'. cbn [length]. do 2 f_equal; lia.
Qed.

(** An unsigned number of 32 bits is read back, with its length. *)
Lemma read_uleb_at v a : 0 <= v < 2 ^ 32 -> bytes_at a (uleb v) -> read_uleb128 byte a = Some (v, Z.of_nat (length (uleb v))).
Proof.
  intros Hv Hb. unfold read_uleb128, uleb. rewrite (uleb_run 5 v); [do 2 f_equal; lia|lia|done|lia|lia|lia|lia|by rewrite Z.add_0_r].
Qed.

(** The fifth byte from the end on, with its place. *)
Lemma leb_run : forall n v buffer pos value fuel, let offset := 35 - 7 * Z.of_nat n in
  (0 < n <= 5)%nat -> - 2 ^ (7 * Z.of_nat n - 8) <= v < 2 ^ (7 * Z.of_nat n - 4) -> 0 <= value < 2 ^ offset -> (n <= fuel)%nat ->
  bytes_at (buffer + pos) (sleb_enc n v) ->
  exists k b, leb_bytes byte fuel buffer pos offset value = Some (value + v mod 2 ^ (7 * k) * 2 ^ offset, pos + k, offset + 7 * k, b) /\
    k = Z.of_nat (length (sleb_enc n v)) /\ 0 < k /\ test b 64 = (v <? 0) /\ - 2 ^ (7 * k) <= v < 2 ^ (7 * k) /\ (v < 0 -> offset + 7 * k <= 28).
Proof.
  induction n as [|n IH]; intros v buffer pos value fuel offset Hn Hv Hval Hf Hb; [lia|].
  destruct fuel as [|fuel]; [lia|]. cbn [sleb_enc leb_bytes] in *.
  assert (0 <= offset <= 28) as Ho by lia.
  assert (0 < 2 ^ offset) as Hpos by (apply Z.pow_pos_nonneg; lia).
  assert (2 ^ (7 * Z.of_nat (S n) - 4) * 2 ^ offset = 2147483648) as Hpow
    by (rewrite <- Z.pow_add_r by lia; by replace (7 * Z.of_nat (S n) - 4 + offset) with 31 by lia).
  assert (v < 0 -> offset <= 21 /\ 2 ^ offset <= 2 ^ 21) as Hneg.
  { intros Hv0. destruct n; [cbn in Hv; lia|]. assert (offset <= 21) by lia. split; [done|]. apply Z.pow_le_mono_r; lia. }
  assert (forall w, 0 <= w < 128 -> w * 2 ^ offset < 2147483648 -> Z.lor value (i32 (Z.shiftl w offset)) = value + w * 2 ^ offset) as Hor.
  { intros w Hw Hlt. rewrite i32_small by (rewrite Z.shiftl_mul_pow2; lia). rewrite lor_shiftl by lia. lia. }
  pose proof (Z.mod_pos_bound v 128 ltac:(lia)) as Hm. pose proof (Z.div_mod v 128 ltac:(lia)) as Hdm.
  assert (v mod 128 * 2 ^ offset < 2147483648) as Hfit.
  { destruct (decide (v < 0)) as [Hv0|Hv0]; [destruct (Hneg Hv0); nia|]. assert (v mod 128 <= v) by (apply Z.mod_le; lia). nia. }
  destruct (low_bits (v mod 128) Hm) as (H1 & H2 & H3 & H4 & H5).
  destruct ((-64 <=? v) && (v <? 64)) eqn:Hsmall.
  - apply bytes_at_cons in Hb as [-> _]. rewrite (proj2 (Z.leb_gt _ _)) by lia. rewrite H3, H1, Hor by done.
    exists 1, (v mod 128). split; [done|]. split; [done|]. split; [lia|]. split; [|split; [lia|intros Hv0; destruct (Hneg Hv0); lia]].
    rewrite H5. destruct (Z.leb_spec 64 (v mod 128)), (Z.ltb_spec v 0); (done || lia).
  - apply bytes_at_cons in Hb as [-> Hb]. rewrite (proj2 (Z.leb_gt _ _)) by lia. rewrite H4, H2, Hor by done.
    assert (0 < n)%nat as Hn0 by (destruct n; [cbn in Hv; lia|lia]).
    assert (2 ^ (7 * Z.of_nat (S n) - 4) = 128 * 2 ^ (7 * Z.of_nat n - 4)) as Hhi by (change 128 with (2 ^ 7); rewrite <- Z.pow_add_r by lia; f_equal; lia).
    assert (- 2 ^ (7 * Z.of_nat n - 8) <= v / 128) as Hlo.
    { destruct (decide (v < 0)) as [Hv0|Hv0]; [|pose proof (Z.div_pos v 128); pose proof (Z.pow_nonneg 2 (7 * Z.of_nat n - 8)); lia].
      destruct n as [|[|n]]; [lia|cbn in Hv; lia|]. apply Z.div_le_lower_bound; [lia|].
      replace (7 * Z.of_nat (S (S (S n))) - 8) with (7 + (7 * Z.of_nat (S (S n)) - 8)) in Hv by lia. rewrite Z.pow_add_r in Hv by lia. lia. }
    replace (offset + 7) with (35 - 7 * Z.of_nat n) by lia.
    assert (2 ^ (35 - 7 * Z.of_nat n) = 128 * 2 ^ offset) as Ho7 by (change 128 with (2 ^ 7); rewrite <- Z.pow_add_r by lia; f_equal; lia).
    cbv zeta in IH. destruct (IH (v / 128) buffer (pos + 1) (value + v mod 128 * 2 ^ offset) fuel) as (k & b & Hrun & Hk & Hk0 & Hb' & Hr & Hneg');
      [lia|nia|nia|lia|by rewrite Z.add_assoc|].
    exists (k + 1), b. rewrite Hrun. cbn [length]. rewrite Nat2Z.inj_succ, <- Hk.
    replace (7 * (k + 1)) with (7 + 7 * k) by lia. rewrite Z.pow_add_r by lia. change (2 ^ 7) with 128.
    rewrite (Z.rem_mul_r v 128 (2 ^ (7 * k))) by lia. rewrite Ho7.
    split; [repeat match goal with |- Some _ = Some _ => f_equal | |- (_, _) = (_, _) => f_equal end; lia|]. split; [lia|]. split; [lia|]. split; [|split; [nia|lia]].
    rewrite Hb'. destruct (Z.ltb_spec v 0), (Z.ltb_spec (v / 128) 0); (done || lia).
Qed.

(** A signed number is read back: a negative one of 28 bits, or another of 32. *)
Lemma read_leb_at v a : - 2 ^ 27 <= v < 2 ^ 31 -> bytes_at a (sleb v) -> read_leb128 byte a = Some (v, Z.of_nat (length (sleb v))).
Proof.
  intros Hv Hb. unfold read_leb128. destruct (leb_run 5 v a 0 0 6) as (k & b & Hrun & Hk & Hk0 & Ht & Hr & Hneg); [lia|done|lia|lia|by rewrite Z.add_0_r|].
  change (35 - 7 * Z.of_nat 5) with 0 in *. rewrite Hrun, Ht, !Z.add_0_l, Z.mul_1_r. unfold sleb. rewrite <- Hk.
  destruct (Z.ltb_spec v 0) as [Hlt|Hge]; [|by rewrite Z.mod_small by lia].
  rewrite (proj2 (Z.leb_gt _ _)) by lia. rewrite Z.shiftl_mul_pow2, Z.mul_1_l by lia.
  assert (2 ^ (7 * k) <= 2 ^ 28) as Hle by (apply Z.pow_le_mono_r; lia). rewrite i32_small by lia.
  replace (- 2 ^ (7 * k)) with (Z.shiftl (-1) (7 * k)) by (rewrite Z.shiftl_mul_pow2; lia).
  rewrite lor_shiftl by (try apply Z.mod_pos_bound; lia). do 2 f_equal.
  rewrite <- (Z.mod_add v 1 (2 ^ (7 * k))) by lia. rewrite Z.mod_small by lia. lia.
Qed.
End Memory.

(** LEB128 numbers as DWARF encodes them are read back with their length:
    unsigned ones of 32 bits, signed ones that are not negative, or negative and
    of at most four bytes (the sign of a longer one is shifted too far). *)
Theorem leb128_reads_back byte v a :
  (0 <= v < 2 ^ 32 -> bytes_at byte a (uleb v) -> read_uleb128 byte a = Some (v, Z.of_nat (length (uleb v)))) /\
  (- 2 ^ 27 <= v < 2 ^ 31 -> bytes_at byte a (sleb v) -> read_leb128 byte a = Some (v, Z.of_nat (length (sleb v)))).
Proof. split; [apply read_uleb_at|apply read_leb_at]. Qed.

(** Memory with [l] from address 0 on. *)
Definition memory_of (l : list Z) (a : Z) : option Z := aget l a.

Lemma memory_bytes l : Z.of_nat (length l) < 2 ^ 64 -> bytes_at (memory_of l) 0 l.
Proof.
  intros Hl i b Hi. apply lookup_lt_Some in Hi as Hlt. rewrite u64_small by lia. unfold memory_of. apply aget_lookup; [lia|].
  by rewrite Z.add_0_l, Nat2Z.id.
Qed.

Lemma leb128_reads_back_witness :
  read_uleb128 (memory_of (uleb 4000000000)) 0 = Some (4000000000, 5) /\ read_leb128 (memory_of (sleb (-8))) 0 = Some (-8, 1).
Proof.
  split.
  - apply (leb128_reads_back (memory_of (uleb 4000000000)) 4000000000 0); [lia|]. apply memory_bytes. by vm_compute.
  - apply (leb128_reads_back (memory_of (sleb (-8))) (-8) 0); [lia|]. apply memory_bytes. by vm_compute.
Defined.

(** The least number of 32 bits is not. *)
Example long_negative : read_leb128 (memory_of (sleb (- 2 ^ 31))) 0 = None.
Proof. by vm_compute. Qed.
