(* ===== verification/DwarfRows.v ===== *)
(** * The ARM64 stack unwinder: call frame information and what it means

    The instructions compilers emit ([cfi]) with their encoding, the rule of
    the DWARF standard for a location ([row_at]): where the frame is and where
    the registers of the caller are saved.  The unwinder does not build the
    rule but restores the registers as it reads the instructions; it finds the
    registers of the rule for prologues that settle the frame address before
    they save registers ([orderly]). *)

From stdpp Require Import base numbers list list_numbers.
From Stdlib Require Import Lia ZArith.
From S2P Require Import Prelude Dwarf Leb.

#[local] Open Scope Z_scope.
#[local] Open Scope c_scope.

(** ** Instructions *)

Inductive cfi : Type :=
| Advance (n : Z)
| Advance1 (n : Z)
| Offset (r n : Z)
| OffsetExtended (r n : Z)
| DefCfa (r o : Z)
| DefCfaRegister (r : Z)
| DefCfaOffset (o : Z).

Definition enc (i : cfi) : list Z :=
  match i with
  | Advance n => [0x40 + n]
  | Advance1 n => [DW_CFA_advance_loc1; n]
  | Offset r n => (0x80 + r) :: uleb n
  | OffsetExtended r n => DW_CFA_offset_extended :: uleb r ++ uleb n
  | DefCfa r o => DW_CFA_def_cfa :: uleb r ++ uleb o
  | DefCfaRegister r => DW_CFA_def_cfa_register :: uleb r
  | DefCfaOffset o => DW_CFA_def_cfa_offset :: uleb o
  end.

(** The registers are x0 to x30 and the stack pointer. *)
Definition cfi_ok (i : cfi) : Prop :=
  match i with
  | Advance n => 0 <= n < 64
  | Advance1 n => 0 <= n < 256
  | Offset r n | OffsetExtended r n => 0 <= r < 32 /\ 0 <= n < 2 ^ 32
  | DefCfa r o => 0 <= r < 32 /\ 0 <= o < 2 ^ 32
  | DefCfaRegister r => 0 <= r < 32
  | DefCfaOffset o => 0 <= o < 2 ^ 32
  end.

Definition enc_all (prog : list cfi) : list Z := concat (enc <$> prog).

(** ** The rule of a location *)

(** The frame address is [row_reg] plus [row_off]; [row_saved r] is where
    register [r] is, in units of the data alignment, [None] if it is still in
    its place. *)
Record row : Type := mk_row { row_reg : Z; row_off : Z; row_saved : Z -> option Z }.

Definition apply_cfi (w : row) (i : cfi) : row :=
  match i with
  | Advance _ | Advance1 _ => w
  | Offset r n | OffsetExtended r n => mk_row w.(row_reg) w.(row_off) (fun x => if x =? r then Some n else w.(row_saved) x)
  | DefCfa r o => mk_row r o w.(row_saved)
  | DefCfaRegister r => mk_row r w.(row_off) w.(row_saved)
  | DefCfaOffset o => mk_row w.(row_reg) o w.(row_saved)
  end.

Section Rows.
Context (byte : Z -> option Z) (cie : CIE).

Definition next_loc (loc : Z) (i : cfi) : Z :=
  match i with
  | Advance n | Advance1 n => u64 (loc + u32 (n * cie.(code_alignment_factor)))
  | _ => loc
  end.

(** The instructions up to a location behind [pc]. *)
Fixpoint executed (prog : list cfi) (loc pc : Z) : list cfi :=
  match prog with
  | [] => []
  | i :: prog => if loc <=? pc then i :: executed prog (next_loc loc i) pc else []
  end.

Definition loc_at (prog : list cfi) (loc pc : Z) : Z := fold_left next_loc (executed prog loc pc) loc.
Definition row_at (prog : list cfi) (loc pc : Z) (w : row) : row := fold_left apply_cfi (executed prog loc pc) w.

(** The frame address of a rule, from the registers [R]. *)
Definition cfa_of (R : list Z) (w : row) : Z := u64 (default 0 (aget R w.(row_reg)) + w.(row_off)).

Definition load8 (a : Z) : option Z := load_le byte 8 (u64 a).

(** A register of the caller by a rule. *)
Definition caller_reg (R : list Z) (w : row) (r : Z) : option Z :=
  match w.(row_saved) r with
  | Some n => load8 (cfa_of R w + n * cie.(data_alignment_factor))
  | None => aget R r
  end.

(** The frame address, [A] in the end, is settled when registers are saved. *)
Definition in_order (R : list Z) (A : Z) (w : row) (i : cfi) : Prop :=
  match i with
  | Advance _ | Advance1 _ => True
  | Offset r n | OffsetExtended r n => cfa_of R w = A /\ is_Some (load8 (A + n * cie.(data_alignment_factor)))
  | DefCfa _ _ | DefCfaOffset _ => forall r, w.(row_saved) r = None
  | DefCfaRegister _ => cfa_of R (apply_cfi w i) = cfa_of R w
  end.

Fixpoint orderly (R : list Z) (A : Z) (w : row) (prog : list cfi) : Prop :=
  match prog with
  | [] => cfa_of R w = A
  | i :: prog => in_order R A w i /\ orderly R A (apply_cfi w i) prog
  end.

(** ** One instruction *)

Lemma enc_length i : (0 < length (enc i))%nat.
Proof. destruct i; cbn; lia. Qed.

Lemma enc_all_length prog : (length prog <= length (enc_all prog))%nat.
Proof.
  unfold enc_all. induction prog as [|i prog IH]; [done|]. cbn [fmap list_fmap concat length]. rewrite length_app.
  pose proof (enc_length i). lia.
Qed.

(** What the unwinder has restored by the rule [w] on the way to [A]. *)
Record restored (R : list Z) (A : Z) (w : row) (f : dwarf_frame) : Prop := {
  rs_length : Z.of_nat (length f.(regs)) = NUM_REGS;
  rs_regs : forall r, 0 <= r < 32 ->
    aget f.(regs) r = match w.(row_saved) r with Some n => load8 (A + n * cie.(data_alignment_factor)) | None => aget R r end;
  rs_pc : aget f.(regs) ARM64_PC = aget R ARM64_PC;
  rs_rule : f.(cfa_register) = w.(row_reg) /\ f.(cfa_offset) = w.(row_off);
  rs_cfa : f.(cfa) = cfa_of R w;
  rs_reg : 0 <= w.(row_reg) < 32
}.

Lemma wp_frame_reg i v (Q : Z -> dwarf_frame -> Prop) E f : aget f.(regs) i = Some v -> Q v f -> wp (frame_reg i) Q E f.
Proof. intros Hv HQ. unfold frame_reg. do 2 wp_step. by apply wp_of_option with (1 := Hv). Qed.

Lemma wp_set_frame_reg i v (Q : unit -> dwarf_frame -> Prop) E f : 0 <= i < Z.of_nat (length f.(regs)) ->
  Q tt (set_frame_regs (<[Z.to_nat i := v]> f.(regs)) f) -> wp (set_frame_reg i v) Q E f.
Proof. intros Hi HQ. unfold set_frame_reg. do 2 wp_step. apply wp_bind. apply wp_of_option with (1 := aset_Some _ i v Hi). by wp_step. Qed.

Lemma aget_insert_eq (l : list Z) i v : 0 <= i < Z.of_nat (length l) -> aget (<[Z.to_nat i := v]> l) i = Some v.
Proof. intros Hi. exact (aget_aset_eq _ _ _ _ (aset_Some l i v Hi)). Qed.

Lemma aget_insert_ne (l : list Z) i j v : 0 <= i < Z.of_nat (length l) -> i <> j -> aget (<[Z.to_nat i := v]> l) j = aget l j.
Proof. intros Hi Hne. exact (aget_aset_ne _ _ _ _ _ (aset_Some l i v Hi) Hne). Qed.

(** Saving a register: its word is read at the frame address. *)
Lemma wp_restore_from R A w f r n (Q : unit -> dwarf_frame -> Prop) E :
  restored R A w f -> 0 <= r < 32 -> cfa_of R w = A -> is_Some (load8 (A + n * cie.(data_alignment_factor))) ->
  (forall f', restored R A (apply_cfi w (Offset r n)) f' -> f'.(cfa_pc) = f.(cfa_pc) -> Q tt f') ->
  wp (restore_from byte r (n * cie.(data_alignment_factor))) Q E f.
Proof.
  intros [Hl Hr Hpc Hrule Hcfa Hrr] Hrange HA [v Hv] HQ. unfold restore_from. do 2 wp_step. rewrite Hcfa, HA. apply wp_bind.
  apply wp_of_option with (1 := Hv). unfold NUM_REGS in Hl. apply wp_set_frame_reg; [lia|]. apply HQ; [|done].
  split; cbn [regs set_frame_regs cfa_register cfa_offset cfa apply_cfi row_reg row_off row_saved].
  - by rewrite length_insert.
  - intros x Hx. destruct (Z.eqb_spec x r) as [->|Hne]; [by rewrite aget_insert_eq by lia|]. rewrite aget_insert_ne by lia. by apply Hr.
  - rewrite aget_insert_ne by (unfold ARM64_PC; lia). done.
  - done.
  - done.
  - done.
Qed.

Lemma wp_update_cfa R A w f r o (Q : unit -> dwarf_frame -> Prop) E :
  restored R A w f -> (forall x, w.(row_saved) x = None) -> 0 <= r < 32 -> Z.of_nat (length R) = NUM_REGS ->
  (forall f', restored R A (mk_row r o w.(row_saved)) f' -> f'.(cfa_pc) = f.(cfa_pc) -> Q tt f') ->
  wp update_cfa Q E (set_cfa_offset o (set_cfa_register r f)).
Proof.
  intros [Hl Hr Hpc Hrule Hcfa Hrr] Hnone Hrange HR HQ. unfold update_cfa. do 2 wp_step. cbn [cfa_register set_cfa_offset set_cfa_register].
  assert (aget f.(regs) r = aget R r) as Heq by (by rewrite Hr, Hnone).
  unfold NUM_REGS in *. destruct (aget_Some R r) as [v Hv]; [lia|]. wp_step. apply (wp_frame_reg r v); [by cbn; rewrite Heq|].
  do 2 wp_step. wp_step. apply HQ; [|done].
  split; cbn [regs cfa_register cfa_offset cfa row_reg row_off row_saved set_cfa set_cfa_offset set_cfa_register]; try done.
  unfold cfa_of. cbn [row_reg row_off]. by rewrite Hv.
Qed.

Lemma op_bits b : 0 <= b < 64 ->
  Z.land (0x40 + b) 0xc0 = 0x40 /\ Z.land (0x40 + b) 0x3f = b /\ Z.land (0x80 + b) 0xc0 = 0x80 /\ Z.land (0x80 + b) 0x3f = b.
Proof.
  intros Hb. assert (Forall (fun b => Z.land (0x40 + b) 0xc0 = 0x40 /\ Z.land (0x40 + b) 0x3f = b /\
    Z.land (0x80 + b) 0xc0 = 0x80 /\ Z.land (0x80 + b) 0x3f = b) (seqZ 0 64)) as HF.
  { refine (bool_decide_unpack _ _). vm_compute. exact I. }
  apply (proj1 (Forall_forall _ _) HF). apply elem_of_seqZ. lia.
Qed.

Lemma wp_uleb p v (Q : Z * Z -> dwarf_frame -> Prop) E f : 0 <= v < 2 ^ 32 -> bytes_at byte p (uleb v) ->
  Q (v, Z.of_nat (length (uleb v))) f -> wp (of_option (read_uleb128 byte p)) Q E f.
Proof. intros Hv Hb HQ. by apply wp_of_option with (1 := read_uleb_at byte v p Hv Hb). Qed.

Lemma restored_pc R A w f v : restored R A w f -> restored R A w (set_cfa_pc v f).
Proof. intros [? ? ? ? ? ?]. by split. Qed.

Lemma wp_execute_cfi R A w f i p (Q : option Z -> dwarf_frame -> Prop) E :
  restored R A w f -> Z.of_nat (length R) = NUM_REGS -> cfi_ok i -> bytes_at byte p (enc i) -> in_order R A w i ->
  (forall f', restored R A (apply_cfi w i) f' -> f'.(cfa_pc) = next_loc f.(cfa_pc) i -> Q (Some (p + Z.of_nat (length (enc i)))) f') ->
  exists op, byte (u64 p) = Some op /\ wp (execute_op byte cie op (p + 1)) Q E f.
Proof.
  intros Hf HR Hok Hb Ho HQ. pose proof Hf as [_ _ _ [Hreg Hoff] _ Hrr].
  destruct i as [n|n|r n|r n|r o|r|o]; cbn [enc cfi_ok in_order] in *; apply bytes_at_cons in Hb as [Hop Hb]; eexists; (split; [exact Hop|]); clear Hop.
  - destruct (op_bits n Hok) as (H1 & H2 & _). unfold execute_op. rewrite H1, H2. cbn [Z.eqb Pos.eqb DW_CFA_advance_loc].
    unfold advance_pc. do 3 wp_step. do 2 wp_step. apply HQ; [by apply restored_pc|done].
  - apply bytes_at_cons in Hb as [Hn _]. change (wp (let! n := of_option (load_le byte 1 (p + 1)) in advance_pc cie n ;;! ret (Some (p + 1 + 1))) Q E f).
    cbn [load_le]. rewrite Hn. cbn [of_option]. wp_step. wp_step. unfold advance_pc. do 3 wp_step. do 2 wp_step.
    rewrite Z.mul_0_r, Z.add_0_r. replace (p + 1 + 1) with (p + 2) by lia. apply HQ; [by apply restored_pc|done].
  - destruct Hok as [Hr Hn]. destruct Ho as [HA Hload]. destruct (op_bits r) as (_ & _ & H1 & H2); [lia|]. unfold execute_op. rewrite H1, H2.
    cbn [Z.eqb Pos.eqb DW_CFA_advance_loc DW_CFA_offset]. wp_step. apply (wp_uleb _ n); [done|done|]. wp_step.
    apply (wp_restore_from R A w); [done|done|done|done|]. intros f' Hf' Hpc. wp_step. cbn [length enc] in HQ.
    replace (p + 1 + Z.of_nat (length (uleb n))) with (p + Z.of_nat (S (length (uleb n)))) by lia. by apply HQ.
  - destruct Hok as [Hr Hn]. destruct Ho as [HA Hload]. apply bytes_at_app in Hb as [Hb1 Hb2].
    change (wp (let! ' (r, l) := of_option (read_uleb128 byte (p + 1)) in let! ' (n, l2) := of_option (read_uleb128 byte (p + 1 + l)) in
      restore_from byte r (n * cie.(data_alignment_factor)) ;;! ret (Some (p + 1 + l + l2))) Q E f).
    wp_step. apply (wp_uleb _ r); [lia|done|]. wp_step. apply (wp_uleb _ n); [done|done|]. wp_step.
    apply (wp_restore_from R A w); [done|done|done|done|]. intros f' Hf' Hpc. wp_step. cbn [length enc] in HQ. rewrite length_app in HQ.
    match goal with |- Q (Some ?x) _ => replace x with (p + Z.of_nat (S (length (uleb r) + length (uleb n)))) by lia end. by apply HQ.
  - destruct Hok as [Hr Hn]. apply bytes_at_app in Hb as [Hb1 Hb2].
    change (wp (let! ' (r, l) := of_option (read_uleb128 byte (p + 1)) in let! ' (o, l2) := of_option (read_uleb128 byte (p + 1 + l)) in
      modify (set_cfa_register r) ;;! modify (set_cfa_offset o) ;;! update_cfa ;;! ret (Some (p + 1 + l + l2))) Q E f).
    wp_step. apply (wp_uleb _ r); [lia|done|]. wp_step. apply (wp_uleb _ o); [done|done|]. do 4 wp_step. wp_step.
    apply (wp_update_cfa R A w); [done|done|done|done|]. intros f' Hf' Hpc. wp_step. cbn [length enc] in HQ. rewrite length_app in HQ.
    match goal with |- Q (Some ?x) _ => replace x with (p + Z.of_nat (S (length (uleb r) + length (uleb o)))) by lia end. by apply HQ.
  - change (wp (let! ' (r, l) := of_option (read_uleb128 byte (p + 1)) in modify (set_cfa_register r) ;;! ret (Some (p + 1 + l))) Q E f).
    wp_step. apply (wp_uleb _ r); [lia|done|]. do 3 wp_step. cbn [length enc] in HQ.
    replace (p + 1 + Z.of_nat (length (uleb r))) with (p + Z.of_nat (S (length (uleb r)))) by lia. apply HQ; [|done].
    destruct Hf as [Hl Hregs Hpc _ Hcfa _]. split; cbn; try done. cbn [apply_cfi] in Ho. by rewrite Ho.
  - change (wp (let! ' (o, l) := of_option (read_uleb128 byte (p + 1)) in
      modify (set_cfa_offset o) ;;! update_cfa ;;! ret (Some (p + 1 + l))) Q E f).
    wp_step. apply (wp_uleb _ o); [done|done|]. do 2 wp_step. wp_step.
    assert (set_cfa_offset o f = set_cfa_offset o (set_cfa_register w.(row_reg) f)) as -> by (destruct f; cbn in *; by rewrite Hreg).
    apply (wp_update_cfa R A w); [done|done|done|done|]. intros f' Hf' Hpc. wp_step. cbn [length enc] in HQ.
    replace (p + 1 + Z.of_nat (length (uleb o))) with (p + Z.of_nat (S (length (uleb o)))) by lia. by apply HQ.
Qed.

(** ** A program *)

Lemma wp_set_return R A w f ra (Q : unit -> dwarf_frame -> Prop) E :
  restored R A w f -> 0 <= cie.(return_address_register) < 32 -> aget f.(regs) cie.(return_address_register) = Some ra ->
  Q tt (set_frame_regs (<[Z.to_nat ARM64_PC := u64 (ra - 4)]> f.(regs)) f) -> wp (set_return cie) Q E f.
Proof.
  intros Hf Hr Hra HQ. unfold set_return. wp_step. apply (wp_frame_reg _ ra); [done|].
  apply wp_set_frame_reg; [|done]. rewrite (rs_length _ _ _ _ Hf). unfold ARM64_PC, NUM_REGS. lia.
Qed.

(** The instructions are at [p]; behind them is the end, or a [DW_CFA_nop]. *)
Definition program_at (p : Z) (prog : list cfi) (insn_end : Z) : Prop :=
  let q := p + Z.of_nat (length (enc_all prog)) in
  bytes_at byte p (enc_all prog) /\ (q = insn_end \/ q < insn_end /\ byte (u64 q) = Some DW_CFA_nop).

Lemma program_at_cons p i prog insn_end : program_at p (i :: prog) insn_end ->
  bytes_at byte p (enc i) /\ program_at (p + Z.of_nat (length (enc i))) prog insn_end /\ p < insn_end.
Proof.
  unfold program_at, enc_all. cbn [fmap list_fmap concat]. rewrite bytes_at_app, length_app, Nat2Z.inj_add, Z.add_assoc.
  pose proof (enc_length i). intros ([H1 H2] & H3). split; [done|]. split; [by split|]. lia.
Qed.

Lemma wp_insns R A pc insn_end (Q : Z -> dwarf_frame -> Prop) E : Z.of_nat (length R) = NUM_REGS -> aget R ARM64_PC = Some pc ->
  forall prog w f p fuel, restored R A w f -> Forall cfi_ok prog -> program_at p prog insn_end ->
  orderly R A w (executed prog f.(cfa_pc) pc) -> (length prog < fuel)%nat ->
  (forall f', restored R A (row_at prog f.(cfa_pc) pc w) f' -> f'.(cfa_pc) = loc_at prog f.(cfa_pc) pc -> wp (set_return cie) (fun _ => Q 1) E f') ->
  wp (loop fuel (insn_round byte cie insn_end) p) Q E f.
Proof.
  intros HR Hpc. induction prog as [|i prog IH]; intros w f p fuel Hf Hok Hat Hord Hfuel HQ; (destruct fuel as [|fuel]; [lia|]);
    cbn [loop]; apply wp_bind; unfold insn_round; wp_step; (apply (wp_frame_reg _ pc); [by rewrite (rs_pc _ _ _ _ Hf)|]); do 2 wp_step.
  - destruct Hat as [_ Hend]. cbn [enc_all fmap list_fmap concat length Z.of_nat] in Hend. rewrite Z.add_0_r in Hend.
    destruct ((p <? insn_end) && (f.(cfa_pc) <=? pc)) eqn:Hc.
    + destruct Hend as [->|[_ Hnop]]; [lia|]. wp_step. apply wp_of_option with (1 := Hnop).
      change (execute_op byte cie DW_CFA_nop (p + 1)) with (set_return cie ;;! ret (None : option Z)).
      do 2 wp_step. eapply wp_mono; [apply HQ; done| |done]. intros [] f' HQ'. do 3 wp_step. done.
    + wp_step. eapply wp_mono; [apply HQ; done| |done]. intros [] f' HQ'. do 2 wp_step. done.
  - apply Forall_cons in Hok as [Hi Hok]. apply program_at_cons in Hat as (Hb & Hat & Hlt). rewrite (proj2 (Z.ltb_lt _ _) Hlt). cbn [andb].
    unfold row_at, loc_at in HQ. cbn [executed] in Hord, HQ. destruct (f.(cfa_pc) <=? pc).
    + cbn [orderly fold_left] in Hord, HQ. destruct Hord as [Ho Hord]. cbn [length] in Hfuel.
      destruct (wp_execute_cfi R A w f i p (fun r f' => wp (match r with Some p => ret (inl p) | None => ret (inr 1) end)
        (fun r f' => wp (match r with inl a' => loop fuel (insn_round byte cie insn_end) a' | inr b => ret b end) Q E f') E f') E Hf HR Hi Hb Ho)
        as (op & Hop & Hrun).
      { intros f' Hf' Hloc. wp_step. apply (IH (apply_cfi w i) f'); [done|done|done|by rewrite Hloc|lia|]. unfold row_at, loc_at. by rewrite Hloc. }
      wp_step. apply wp_of_option with (1 := Hop). apply wp_bind. exact Hrun.
    + wp_step. eapply wp_mono; [apply HQ; done| |done]. intros [] f' HQ'. do 2 wp_step. done.
Qed.

(** [execute_insns] finds the registers of the caller. *)
Lemma wp_execute_insns R pc insn_end prog w f p ra (Q : Z -> dwarf_frame -> Prop) E :
  let w' := row_at prog f.(cfa_pc) pc w in
  Z.of_nat (length R) = NUM_REGS -> aget R ARM64_PC = Some pc -> restored R (cfa_of R w') w f -> Forall cfi_ok prog -> program_at p prog insn_end ->
  orderly R (cfa_of R w') w (executed prog f.(cfa_pc) pc) ->
  0 <= cie.(return_address_register) < 32 -> caller_reg R w' cie.(return_address_register) = Some ra ->
  (forall f', restored R (cfa_of R w') w' f' -> Q 1 (set_frame_regs (<[Z.to_nat ARM64_PC := u64 (ra - 4)]> f'.(regs)) f')) ->
  wp (execute_insns byte cie insn_end p) Q E f.
Proof.
  intros w' HR Hpc Hf Hok Hat Hord Hr Hra HQ. unfold execute_insns.
  apply (wp_insns R (cfa_of R w') pc insn_end Q E HR Hpc prog w f p); [done|done|done|done| |].
  - destruct Hat as [_ Hend]. pose proof (enc_all_length prog). lia.
  - intros f' Hf' Hloc. apply (wp_set_return R (cfa_of R w') w' f' ra); [done|done| |by apply HQ].
    by rewrite (rs_regs _ _ _ _ Hf') by done.
Qed.
End Rows.
