(* ===== verification/DwarfStep.v ===== *)
(** * The ARM64 stack unwinder: the entries of a module, and a whole step

    How a module describes its functions: the common entry and the entries of
    the functions as bytes, and the header that leads to them.  [decode_cie]
    and [decode_fde] read them back, [find_fde] finds the entry of a function,
    and [step64] restores the registers of its caller: by the rule that holds
    at the return address, which need not be the one for the program counter. *)

From stdpp Require Import base numbers list list_numbers.
From Stdlib Require Import Lia ZArith.
From S2P Require Import Prelude Dwarf Leb DwarfRows.

#[local] Open Scope Z_scope.
#[local] Open Scope c_scope.

(** ** Bytes *)

Fixpoint le_bytes (n : nat) (v : Z) : list Z :=
  match n with O => [] | S n => v mod 256 :: le_bytes n (v / 256) end.

Lemma le_bytes_length n v : length (le_bytes n v) = n.
Proof. revert v. induction n as [|n IH]; intros v; cbn; [done|]. by rewrite IH. Qed.

(** An entry of a function: where the function is, its augmentation data, its
    instructions and the bytes of padding behind them. *)
Record fn_info : Type := mk_fn { fn_lo : Z; fn_size : Z; fn_adata : list Z; fn_prog : list cfi; fn_pad : nat }.

(** The common entry: the augmentation string without its first letter, "z". *)
Record cie_info : Type := mk_ci {
  ci_aug : list Z; ci_caf : Z; ci_daf : Z; ci_ra : Z; ci_adata : list Z; ci_reg : Z; ci_off : Z; ci_pad : nat
}.

Definition padding (n : nat) : list Z := replicate n DW_CFA_nop.

(** Its instructions say where the frame is at the start of a function. *)
Definition ci_prog (c : cie_info) : list cfi := [DefCfa c.(ci_reg) c.(ci_off)].

Definition cie_head (c : cie_info) : list Z :=
  le_bytes 4 0 ++ [1] ++ (122 :: c.(ci_aug)) ++ [0] ++ uleb c.(ci_caf) ++ sleb c.(ci_daf) ++ uleb c.(ci_ra) ++
  uleb (Z.of_nat (length c.(ci_adata))) ++ c.(ci_adata).
Definition cie_body (c : cie_info) : list Z := cie_head c ++ enc_all (ci_prog c) ++ padding c.(ci_pad).
Definition cie_bytes (c : cie_info) : list Z := le_bytes 4 (Z.of_nat (length (cie_body c))) ++ cie_body c.

(** The entry at [a] of a function, whose place is relative to the field. *)
Definition fde_head (a : Z) (fn : fn_info) : list Z :=
  le_bytes 4 0 ++ le_bytes 4 (u32 (fn.(fn_lo) - (a + 8))) ++ le_bytes 4 fn.(fn_size) ++
  uleb (Z.of_nat (length fn.(fn_adata))) ++ fn.(fn_adata).
Definition fde_body (a : Z) (fn : fn_info) : list Z := fde_head a fn ++ enc_all fn.(fn_prog) ++ padding fn.(fn_pad).
Definition fde_bytes (a : Z) (fn : fn_info) : list Z := le_bytes 4 (Z.of_nat (length (fde_body a fn))) ++ fde_body a fn.

Definition has_no_zero (l : list Z) : Prop := Forall (fun b => b <> 0) l.

Record ci_ok (c : cie_info) : Prop := {
  ok_aug : has_no_zero c.(ci_aug) /\ has_substring AUG_zh (122 :: c.(ci_aug)) = false;
  ok_caf : 0 <= c.(ci_caf) < 2 ^ 32;
  ok_daf : - 2 ^ 27 <= c.(ci_daf) < 2 ^ 31;
  ok_ra : 0 <= c.(ci_ra) < 32;
  ok_rule : 0 <= c.(ci_reg) < 32 /\ 0 <= c.(ci_off) < 2 ^ 32;
  ok_cie_room : Z.of_nat (length (cie_body c)) < 2 ^ 32 - 1
}.

Record fn_ok (a : Z) (fn : fn_info) : Prop := {
  ok_place : 0 <= fn.(fn_lo) /\ fn.(fn_lo) + fn.(fn_size) < 2 ^ 64 /\ - 2 ^ 31 <= fn.(fn_lo) - (a + 8) < 2 ^ 31;
  ok_size : 0 <= fn.(fn_size) < 2 ^ 32;
  ok_prog : Forall cfi_ok fn.(fn_prog);
  ok_fde_room : Z.of_nat (length (fde_body a fn)) < 2 ^ 31 - 16
}.

Section Memory.
Context (byte : Z -> option Z).

Lemma load_le_at n : forall v a, 0 <= v < 256 ^ Z.of_nat n -> bytes_at byte a (le_bytes n v) -> load_le byte n a = Some v.
Proof.
  induction n as [|n IH]; intros v a Hv Hb; cbn [le_bytes load_le] in *; [f_equal; cbn in Hv; lia|].
  apply bytes_at_cons in Hb as [-> Hb]. rewrite Nat2Z.inj_succ, Z.pow_succ_r in Hv by lia.
  rewrite (IH (v / 256)); [|split; [apply Z.div_pos; lia|apply Z.div_lt_upper_bound; lia]|done].
  f_equal. pose proof (Z.div_mod v 256). lia.
Qed.

Lemma load_le_u64 n : forall a, load_le byte n (u64 a) = load_le byte n a.
Proof.
  induction n as [|n IH]; intros a; [done|]. cbn [load_le]. rewrite <- (IH (a + 1)), <- (IH (u64 a + 1)).
  unfold u64. by rewrite Zmod_mod, Zplus_mod_idemp_l.
Qed.

Lemma c_string_at s : forall fuel a, has_no_zero s -> (length s < fuel)%nat -> bytes_at byte a (s ++ [0]) -> c_string byte fuel a = Some s.
Proof.
  induction s as [|b s IH]; intros fuel a Hs Hf Hb; (destruct fuel as [|fuel]; [cbn in Hf; lia|]); cbn [app c_string length] in *;
    apply bytes_at_cons in Hb as [-> Hb]; [done|].
  apply Forall_cons in Hs as [Hb0 Hs]. rewrite (proj2 (Z.eqb_neq b 0) Hb0). by rewrite IH by (done || lia).
Qed.

Lemma length_field a body : Z.of_nat (length body) < 2 ^ 32 - 1 ->
  bytes_at byte a (le_bytes 4 (Z.of_nat (length body)) ++ body) ->
  entry_length byte a = Some (Z.of_nat (length body), u64 (Z.of_nat (length body) + 4), u64 (a + 4)) /\ bytes_at byte (a + 4) body.
Proof.
  intros Hl Hb. apply bytes_at_app in Hb as [Hlen Hb]. rewrite le_bytes_length in Hb. split; [|exact Hb].
  unfold entry_length. rewrite (load_le_at 4 (Z.of_nat (length body))) by (done || (change (256 ^ Z.of_nat 4) with (2 ^ 32); lia)).
  by rewrite (proj2 (Z.eqb_neq _ _)) by (unfold USE_EXTENDED_LENGTH; lia).
Qed.

(** ** The entries, read back *)

Definition cie_of (a : Z) (c : cie_info) : CIE :=
  let p := a + 4 + Z.of_nat (length (cie_head c)) in
  mk_cie (Z.of_nat (length (cie_body c)) + 4) (Z.of_nat (length (cie_body c))) 0 1 (a + 9) 0 c.(ci_caf) c.(ci_daf) c.(ci_ra)
    (Z.of_nat (length c.(ci_adata))) (p - Z.of_nat (length c.(ci_adata))) p (Z.of_nat (length (enc_all (ci_prog c) ++ padding c.(ci_pad)))).

Definition fde_of (a : Z) (fn : fn_info) : FDE :=
  let p := a + 4 + Z.of_nat (length (fde_head a fn)) in
  mk_fde (Z.of_nat (length (fde_body a fn)) + 4) (Z.of_nat (length (fde_body a fn))) 0 fn.(fn_lo) fn.(fn_size)
    (Z.of_nat (length fn.(fn_adata))) p (Z.of_nat (length (enc_all fn.(fn_prog) ++ padding fn.(fn_pad)))).

Lemma decode_cie_back fuel a c : ci_ok c -> 0 <= a -> a + Z.of_nat (length (cie_bytes c)) < 2 ^ 64 -> (length c.(ci_aug) + 1 < fuel)%nat ->
  bytes_at byte a (cie_bytes c) -> decode_cie byte fuel a = Some (cie_of a c).
Proof.
  intros [[Hz Hzh] Hcaf Hdaf Hra _ Hroom] Ha Hend Hfuel Hb. destruct (length_field a (cie_body c) Hroom Hb) as [Hlen Hbody].
  assert (Z.of_nat (length (cie_bytes c)) = 4 + Z.of_nat (length (cie_body c))) as Htot
    by (unfold cie_bytes; rewrite length_app, le_bytes_length; lia).
  unfold decode_cie. rewrite Hlen, (u64_small (a + 4)) by lia.
  assert (Z.of_nat (length (cie_body c)) = 4 + 1 + Z.of_nat (length (122 :: c.(ci_aug))) + 1 + Z.of_nat (length (uleb c.(ci_caf))) +
    Z.of_nat (length (sleb c.(ci_daf))) + Z.of_nat (length (uleb c.(ci_ra))) + Z.of_nat (length (uleb (Z.of_nat (length c.(ci_adata))))) +
    Z.of_nat (length c.(ci_adata)) + Z.of_nat (length (enc_all (ci_prog c) ++ padding c.(ci_pad)))) as Hbl.
  { unfold cie_body, cie_head. rewrite !length_app, le_bytes_length. cbn [length]. lia. }
  assert (Z.of_nat (length (cie_head c)) = Z.of_nat (length (cie_body c)) - Z.of_nat (length (enc_all (ci_prog c) ++ padding c.(ci_pad)))) as Hhl
    by (unfold cie_body; rewrite (length_app (cie_head c)); lia).
  unfold cie_body, cie_head in Hbody. rewrite <- !app_assoc in Hbody. rewrite !bytes_at_app in Hbody. rewrite le_bytes_length in Hbody.
  destruct Hbody as (Hid & Hver & Haug & H0 & Hc & Hd & Hr & Hal & Had & _).
  rewrite (load_le_at 4 0) by (cbn; lia || done). rewrite (load_le_at 1 1) by (done || (cbn; lia)).
  rewrite (c_string_at (122 :: c.(ci_aug))); [|by constructor|cbn [length]; lia|].
  2: { replace (a + 4 + 5) with (a + 4 + Z.of_nat 4 + Z.of_nat (length [1])) by (cbn; lia). apply bytes_at_app. by split. }
  rewrite Hzh. rewrite (u64_small (a + 4 + 5)) by lia.
  set (q := a + 4 + Z.of_nat 4 + Z.of_nat (length [1]) + Z.of_nat (length (122 :: ci_aug c)) + Z.of_nat (length [0])) in *.
  assert (0 <= q < 2 ^ 64) as Hq by (unfold q; cbn [length] in *; lia).
  replace (a + 4 + 5 + Z.of_nat (length (122 :: ci_aug c)) + 1) with q by (unfold q; cbn [length]; lia). rewrite (u64_small q) by done.
  rewrite (read_uleb_at byte _ q Hcaf Hc), (read_leb_at byte _ _ Hdaf Hd), (read_uleb_at byte (ci_ra c)) by (done || lia).
  set (q2 := q + Z.of_nat (length (uleb (ci_caf c))) + Z.of_nat (length (sleb (ci_daf c))) + Z.of_nat (length (uleb (ci_ra c)))) in *.
  assert (0 <= q2 < 2 ^ 64) as Hq2 by (unfold q2, q in *; cbn [length] in *; lia). rewrite (u64_small q2) by done.
  assert (has_substring AUG_z (122 :: ci_aug c) = true) as -> by done.
  rewrite (read_uleb_at byte (Z.of_nat (length (ci_adata c)))) by (done || lia).
  set (al := Z.of_nat (length (uleb (Z.of_nat (length (ci_adata c)))))) in *.
  unfold cie_of. rewrite !u64_small by (unfold q2, q in *; cbn [length] in *; lia).
  f_equal. unfold q2, q in *. cbn [length] in *.
  f_equal; first [lia|rewrite (u64_small (Z.of_nat _ + _)) by lia; rewrite u64_small by lia; lia].
Qed.

Lemma i32_u32 z : - 2 ^ 31 <= z < 2 ^ 31 -> i32 (u32 z) = z.
Proof.
  intros Hz. unfold i32, u32. rewrite Zplus_mod_idemp_l, Z.mod_small by lia. lia.
Qed.

(** The augmentation string of the common entry starts with "z". *)
Definition z_augmented (cie : CIE) : Prop := cie.(augmentation) <> 0 /\ byte (u64 cie.(augmentation)) = Some 122.

Lemma cie_z_augmented a c : 0 <= a -> bytes_at byte a (cie_bytes c) -> z_augmented (cie_of a c).
Proof.
  intros Ha Hb. split; cbn [augmentation cie_of]; [lia|].
  apply bytes_at_app in Hb as [_ Hb]. unfold cie_body, cie_head in Hb. rewrite <- !app_assoc in Hb. cbn [app] in Hb. rewrite !bytes_at_app in Hb.
  rewrite !le_bytes_length in Hb. destruct Hb as (_ & Hb). do 2 apply bytes_at_cons in Hb as [? Hb]. cbn in *.
  by replace (a + 9) with (a + 4 + 4 + 1) by lia.
Qed.

Lemma decode_fde_back a cie fn : z_augmented cie -> fn_ok a fn -> 0 <= a -> a + Z.of_nat (length (fde_bytes a fn)) < 2 ^ 64 ->
  bytes_at byte a (fde_bytes a fn) -> decode_fde byte a cie = Some (fde_of a fn).
Proof.
  intros [Hz0 Hz] [Hplace Hsize _ Hroom] Ha Hend Hb. destruct (length_field a (fde_body a fn) ltac:(lia) Hb) as [Hlen Hbody].
  assert (Z.of_nat (length (fde_bytes a fn)) = 4 + Z.of_nat (length (fde_body a fn))) as Htot
    by (unfold fde_bytes; rewrite length_app, le_bytes_length; lia).
  assert (Z.of_nat (length (fde_body a fn)) = 12 + Z.of_nat (length (uleb (Z.of_nat (length fn.(fn_adata))))) +
    Z.of_nat (length fn.(fn_adata)) + Z.of_nat (length (enc_all fn.(fn_prog) ++ padding fn.(fn_pad)))) as Hbl.
  { unfold fde_body, fde_head. rewrite !length_app, !le_bytes_length. lia. }
  assert (Z.of_nat (length (fde_head a fn)) = Z.of_nat (length (fde_body a fn)) - Z.of_nat (length (enc_all fn.(fn_prog) ++ padding fn.(fn_pad)))) as Hhl
    by (unfold fde_body; rewrite (length_app (fde_head a fn)); lia).
  unfold decode_fde. rewrite Hlen, (u64_small (a + 4)) by lia. rewrite (proj2 (Z.eqb_neq _ 0)) by lia.
  unfold fde_body, fde_head in Hbody. rewrite <- !app_assoc in Hbody. rewrite !bytes_at_app in Hbody. rewrite !le_bytes_length in Hbody.
  destruct Hbody as (Hid & Hbegin & Hrange & Hal & Had & _). change (Z.of_nat 4) with 4 in *.
  rewrite (load_le_at 4 0) by (done || (cbn; lia)). pose proof (u32_range (fn.(fn_lo) - (a + 8))).
  rewrite (load_le_at 4 _ _ (conj (proj1 H) (proj2 H) : 0 <= _ < 256 ^ Z.of_nat 4) Hbegin).
  replace (a + 4 + 8) with (a + 4 + 4 + 4) by lia.
  rewrite (load_le_at 4 fn.(fn_size)) by (done || (change (256 ^ Z.of_nat 4) with (2 ^ 32); lia)).
  rewrite (proj2 (Z.eqb_neq _ _) Hz0), Hz. cbn [Z.eqb Pos.eqb]. rewrite i32_u32 by lia.
  replace (a + 4 + 12) with (a + 4 + 4 + 4 + 4) by lia. rewrite (u64_small (a + 4 + 4 + 4 + 4)) by lia.
  rewrite (read_uleb_at byte (Z.of_nat (length fn.(fn_adata)))) by (done || lia).
  rewrite (i32_small (_ + _)) by lia. unfold fde_of.
  f_equal. f_equal; first [lia|rewrite u64_small by lia; lia|rewrite (u64_small (_ + Z.of_nat _)), (u64_small (Z.of_nat _ + _)), u64_small by lia; lia|idtac].
  all: rewrite ?(u64_small (Z.of_nat _ + (a + 4))), ?(u64_small (a + 4 + 4 + 4 + 4 + _)) by lia; rewrite ?u64_small by lia; lia.
Qed.

(** ** The search *)

Definition fde_size (a : Z) (fn : fn_info) : Z := Z.of_nat (length (fde_bytes a fn)).

(** The entries of the functions from [a] on, and the zero behind them. *)
Fixpoint fdes_at (a : Z) (fns : list fn_info) : Prop :=
  0 <= a /\ a + 4 < 2 ^ 64 /\
  match fns with
  | [] => bytes_at byte a (le_bytes 4 0)
  | fn :: fns => bytes_at byte a (fde_bytes a fn) /\ fn_ok a fn /\ fdes_at (a + fde_size a fn) fns
  end.

Definition contains (fn : fn_info) (pc : Z) : bool := (fn.(fn_lo) <=? pc) && (pc <? fn.(fn_lo) + fn.(fn_size)).

(** The first function with [pc], and the address of its entry. *)
Fixpoint first_with (a : Z) (fns : list fn_info) (pc : Z) : option (Z * fn_info) :=
  match fns with
  | [] => None
  | fn :: fns => if contains fn pc then Some (a, fn) else first_with (a + fde_size a fn) fns pc
  end.

Lemma fdes_at_end a fns : fdes_at a fns -> a < 2 ^ 64.
Proof. destruct fns; cbn [fdes_at]; lia. Qed.

Lemma fde_size_body a fn : fde_size a fn = Z.of_nat (length (fde_body a fn)) + 4.
Proof. unfold fde_size, fde_bytes. rewrite length_app, le_bytes_length. lia. Qed.

Lemma find_fde_spec cie pc : z_augmented cie -> forall fns a fuel, fdes_at a fns -> (length fns < fuel)%nat ->
  find_fde byte fuel cie a pc = Some ((fun x => fde_of (fst x) (snd x)) <$> first_with a fns pc).
Proof.
  intros Hcie. induction fns as [|fn fns IH]; intros a fuel (Ha & Ha4 & Hat) Hf; (destruct fuel as [|fuel]; [lia|]); cbn [find_fde first_with length] in *.
  - unfold decode_fde, entry_length. rewrite (load_le_at 4 0) by (done || (cbn; lia)). cbn [Z.eqb USE_EXTENDED_LENGTH]. done.
  - destruct Hat as (Hb & Hok & Hrest). pose proof (fdes_at_end _ _ Hrest) as Hend. unfold fde_size in Hend. pose proof (fde_size_body a fn) as Hs.
    rewrite (decode_fde_back a cie fn) by done. cbn [fde_of fde_length pc_begin pc_range fde_total_length].
    destruct (ok_place _ _ Hok) as (Hlo & Hhi & _). pose proof (ok_size _ _ Hok).
    assert (12 <= Z.of_nat (length (fde_body a fn))) as H12 by (unfold fde_body, fde_head; rewrite !length_app, !le_bytes_length; lia).
    rewrite (proj2 (Z.eqb_neq _ 0)) by lia. rewrite (u64_small (fn_lo fn + fn_size fn)) by lia.
    unfold contains. rewrite andb_comm. destruct (_ && _); [done|].
    rewrite <- Hs. rewrite u64_small by (unfold fde_size in *; lia). by rewrite IH by (done || lia).
Qed.

(** ** The instructions of both entries *)

Definition ci_row (c : cie_info) : row := mk_row c.(ci_reg) c.(ci_off) (fun _ => None).

Lemma update_cfa_any v g (Q : unit -> dwarf_frame -> Prop) E : wp update_cfa Q E (set_cfa v g) = wp update_cfa Q E g.
Proof.
  unfold update_cfa, frame_reg, wp, bind, gets, of_option, modify, ret, stuck. cbn [cfa_register set_cfa regs].
  by destruct (aget (regs g) (cfa_register g)).
Qed.

(** A program and the padding behind it, as [program_at] has them. *)
Lemma padded_program p prog n : bytes_at byte p (enc_all prog ++ padding n) ->
  program_at byte p prog (p + Z.of_nat (length (enc_all prog ++ padding n))).
Proof.
  intros Hb. apply bytes_at_app in Hb as [Hb Hp]. split; [done|]. rewrite length_app. unfold padding in *. destruct n as [|n]; cbn [replicate length] in *; [left; lia|right].
  apply bytes_at_cons in Hp as [Hp _]. split; [lia|done].
Qed.

Lemma wp_initial_insns cie c R pc lo p n (Q : Z -> dwarf_frame -> Prop) E :
  Z.of_nat (length R) = NUM_REGS -> aget R ARM64_PC = Some pc -> lo <= pc -> ci_ok c -> cie.(return_address_register) = c.(ci_ra) ->
  bytes_at byte p (enc_all (ci_prog c) ++ padding n) ->
  (forall ra f', aget R c.(ci_ra) = Some ra -> restored byte cie R (cfa_of R (ci_row c)) (ci_row c) f' -> f'.(cfa_pc) = lo ->
     Q 1 (set_frame_regs (<[Z.to_nat ARM64_PC := u64 (ra - 4)]> f'.(regs)) f')) ->
  wp (execute_insns byte cie (p + Z.of_nat (length (enc_all (ci_prog c) ++ padding n))) p) Q E (mk_frame R 0 lo 0 0).
Proof.
  intros HR Hpc Hlo [_ _ _ Hra [Hreg Hoff] _] Hcra Hb HQ. set (f0 := mk_frame R 0 lo 0 0).
  set (w0 := mk_row 0 0 (fun _ => None)).
  assert (restored byte cie R (cfa_of R (ci_row c)) w0 (set_cfa (cfa_of R w0) f0)) as Hf0 by (by split).
  pose proof (padded_program _ _ _ Hb) as Hat. apply program_at_cons in Hat as (Hi & Hat & Hlt).
  unfold execute_insns. cbn [loop]. apply wp_bind. unfold insn_round at 1. wp_step. apply (wp_frame_reg _ pc); [done|]. do 2 wp_step.
  rewrite (proj2 (Z.ltb_lt _ _) Hlt). cbn [andb cfa_pc f0]. rewrite (proj2 (Z.leb_le _ _) Hlo).
  cbn [enc ci_prog] in Hi. apply bytes_at_cons in Hi as [Hop Hi]. apply bytes_at_app in Hi as [Hb1 Hb2]. wp_step. apply wp_of_option with (1 := Hop).
  change (wp (let! r := (let! ' (r, l) := of_option (read_uleb128 byte (p + 1)) in let! ' (o, l2) := of_option (read_uleb128 byte (p + 1 + l)) in
    modify (set_cfa_register r) ;;! modify (set_cfa_offset o) ;;! update_cfa ;;! ret (Some (p + 1 + l + l2))) in
    match r with Some p => ret (inl p) | None => ret (inr 1) end)
    (fun r f => wp (match r with inl a' => loop (Z.to_nat (p + Z.of_nat (length (enc_all (ci_prog c) ++ padding n)) - p)) (insn_round byte cie (p + Z.of_nat (length (enc_all (ci_prog c) ++ padding n)))) a'
      | inr b => ret b end) Q E f) E f0).
  do 2 wp_step. apply (wp_uleb byte _ c.(ci_reg)); [lia|done|]. wp_step. apply (wp_uleb byte _ c.(ci_off)); [done|done|].
  do 4 wp_step. wp_step. rewrite <- (update_cfa_any (cfa_of R w0)).
  apply (wp_update_cfa byte cie R (cfa_of R (ci_row c)) w0 (set_cfa (cfa_of R w0) f0) c.(ci_reg) c.(ci_off)); [done|done|done|done|].
  intros f1 Hf1 Hpc1. do 2 wp_step.
  replace (p + 1 + Z.of_nat (length (uleb (ci_reg c))) + Z.of_nat (length (uleb (ci_off c)))) with (p + Z.of_nat (length (enc (DefCfa c.(ci_reg) c.(ci_off)))))
    by (cbn [enc length]; rewrite length_app; lia).
  apply (wp_insns byte cie R (cfa_of R (ci_row c)) pc _ Q E HR Hpc [] (ci_row c) f1); [done|done|done|done| |].
  - rewrite length_app. pose proof (enc_all_length (ci_prog c)). cbn [length ci_prog] in *. lia.
  - intros f' Hf' Hloc. cbn in Hloc. rewrite Hpc1 in Hloc. unfold NUM_REGS in HR. destruct (aget_Some R (ci_ra c)) as [ra Hval]; [lia|].
    apply (wp_set_return byte cie R (cfa_of R (ci_row c)) (ci_row c) f' ra); [done|by rewrite Hcra| |].
    + by rewrite Hcra, (rs_regs _ _ _ _ _ _ Hf') by done.
    + by apply (HQ ra f').
Qed.

(** The registers but for the program counter. *)
Definition with_pc (R : list Z) (v : Z) : list Z := <[Z.to_nat ARM64_PC := v]> R.

Lemma with_pc_reg R v r : Z.of_nat (length R) = NUM_REGS -> 0 <= r < 32 -> aget (with_pc R v) r = aget R r.
Proof. unfold NUM_REGS. intros HR Hr. apply aget_insert_ne; unfold ARM64_PC; lia. Qed.

Lemma cfa_with_pc R v w : Z.of_nat (length R) = NUM_REGS -> 0 <= w.(row_reg) < 32 -> cfa_of (with_pc R v) w = cfa_of R w.
Proof. intros HR Hw. unfold cfa_of. by rewrite with_pc_reg. Qed.

Lemma apply_cfi_reg w i : cfi_ok i -> 0 <= w.(row_reg) < 32 -> 0 <= (apply_cfi w i).(row_reg) < 32.
Proof. destruct i; cbn; lia. Qed.

Lemma executed_ok cie prog : forall loc pc, Forall cfi_ok prog -> Forall cfi_ok (executed cie prog loc pc).
Proof.
  induction prog as [|i prog IH]; intros loc pc Hok; cbn [executed]; [done|]. apply Forall_cons in Hok as [Hi Hok].
  destruct (loc <=? pc); [|done]. constructor; [done|]. by apply IH.
Qed.

Lemma fold_reg is' : forall w, Forall cfi_ok is' -> 0 <= w.(row_reg) < 32 -> 0 <= (fold_left apply_cfi is' w).(row_reg) < 32.
Proof.
  induction is' as [|i is' IH]; intros w Hok Hw; [done|]. apply Forall_cons in Hok as [Hi Hok]. cbn [fold_left]. by apply IH, apply_cfi_reg.
Qed.

Lemma orderly_with_pc cie R v A is' : Z.of_nat (length R) = NUM_REGS -> forall w, Forall cfi_ok is' -> 0 <= w.(row_reg) < 32 ->
  orderly byte cie R A w is' -> orderly byte cie (with_pc R v) A w is'.
Proof.
  intros HR. induction is' as [|i is' IH]; intros w Hok Hw; cbn [orderly]; [by rewrite cfa_with_pc|].
  apply Forall_cons in Hok as [Hi Hok]. pose proof (apply_cfi_reg w i Hi Hw) as Hw'. intros [Ho Hrest]. split; [|by apply IH].
  destruct i; cbn [in_order] in *; rewrite ?cfa_with_pc by done; done.
Qed.

(** The rule that the step applies: the one of the return address. *)
Definition return_row (cie : CIE) (c : cie_info) (fn : fn_info) (ra : Z) : row :=
  row_at cie fn.(fn_prog) fn.(fn_lo) (u64 (ra - 4)) (ci_row c).

Lemma wp_run_entries e a c fn R pc ra ra' (Q : list Z -> dwarf_frame -> Prop) E :
  let cie := cie_of e c in let w := return_row cie c fn ra in
  Z.of_nat (length R) = NUM_REGS -> aget R ARM64_PC = Some pc -> aget R c.(ci_ra) = Some ra -> contains fn pc = true ->
  ci_ok c -> fn_ok a fn -> bytes_at byte e (cie_bytes c) -> bytes_at byte a (fde_bytes a fn) ->
  orderly byte cie R (cfa_of R w) (ci_row c) (executed cie fn.(fn_prog) fn.(fn_lo) (u64 (ra - 4))) ->
  caller_reg byte cie R w c.(ci_ra) = Some ra' ->
  (forall R' f', (forall r, 0 <= r < 32 -> aget R' r = caller_reg byte cie R w r) -> aget R' ARM64_PC = Some (u64 (ra' - 4)) -> Q R' f') ->
  wp (run_entries byte cie (fde_of a fn) R) Q E new_frame.
Proof.
  intros cie w HR Hpc Hra Hin Hc Hfn Hbc Hbf Hord Hra' HQ. unfold run_entries.
  assert (take (Z.to_nat NUM_REGS) R = R) as Htake by (apply take_ge; unfold NUM_REGS in *; lia).
  do 3 wp_step. wp_step. unfold copyregs_to_frame. rewrite Htake. apply wp_bind.
  unfold contains in Hin. pose proof (ok_rule _ Hc) as [Hreg Hoff]. pose proof (ok_ra _ Hc) as Hrar.
  apply bytes_at_app in Hbc as [_ Hbc]. unfold cie_body in Hbc. rewrite le_bytes_length, bytes_at_app in Hbc. destruct Hbc as [_ Hbc].
  apply bytes_at_app in Hbf as [_ Hbf]. unfold fde_body in Hbf. rewrite le_bytes_length, bytes_at_app in Hbf. destruct Hbf as [_ Hbf].
  apply (wp_initial_insns cie c R pc fn.(fn_lo)); [done|done|lia|done|done|exact Hbc|]. intros ra1 f1 Hra1 Hf1 Hloc.
  assert (ra1 = ra) as -> by congruence. fold (with_pc f1.(regs) (u64 (ra - 4))).
  set (v := u64 (ra - 4)) in *. set (f2 := set_frame_regs _ f1).
  assert (Z.of_nat (length (with_pc R v)) = NUM_REGS) as HR2 by (unfold with_pc; by rewrite length_insert).
  assert (0 <= w.(row_reg) < 32) as Hwr by (apply fold_reg; [apply executed_ok, (ok_prog _ _ Hfn)|done]).
  assert (cfa_of (with_pc R v) w = cfa_of R w) as Hcw by (by apply cfa_with_pc).
  assert (restored byte cie (with_pc R v) (cfa_of (with_pc R v) w) (ci_row c) f2) as Hf2.
  { destruct Hf1 as [Hl Hregs Hpc1 Hrule Hcfa Hrr]. split; cbn [regs f2 set_frame_regs cfa_register cfa_offset cfa]; try done.
    - unfold with_pc. by rewrite length_insert.
    - intros r Hr. rewrite !with_pc_reg by done. by apply Hregs.
    - unfold NUM_REGS in *. unfold with_pc. rewrite !aget_insert_eq by (unfold ARM64_PC; lia). done.
    - by rewrite cfa_with_pc. }
  wp_step. apply (wp_execute_insns byte cie (with_pc R v) v _ fn.(fn_prog) (ci_row c) f2 _ ra');
    unfold f2; cbn [cfa_pc set_frame_regs]; rewrite ?Hloc; fold v; change (row_at cie (fn_prog fn) (fn_lo fn) v (ci_row c)) with w.
  - done.
  - unfold with_pc. apply aget_insert_eq. unfold NUM_REGS, ARM64_PC in *. lia.
  - exact Hf2.
  - apply (ok_prog _ _ Hfn).
  - apply padded_program. exact Hbf.
  - rewrite Hcw. apply orderly_with_pc; [done|apply executed_ok, (ok_prog _ _ Hfn)|done|exact Hord].
  - exact Hrar.
  - unfold caller_reg in *. rewrite Hcw. destruct (row_saved w _); [done|]. by rewrite with_pc_reg.
  - intros f3 Hf3. wp_step. unfold copyregs_to_sigctx64. cbn [regs set_frame_regs]. destruct Hf3 as [Hl Hregs _ _ _ _].
    apply HQ; [|apply aget_insert_eq; unfold NUM_REGS, ARM64_PC in *; lia].
    intros r Hr. rewrite aget_insert_ne by (unfold NUM_REGS, ARM64_PC in *; lia). rewrite Hregs by done. rewrite Hcw.
    unfold caller_reg. destruct (row_saved w r); [done|]. by apply with_pc_reg.
Qed.

(** ** A whole step *)

(** The header at [hdr], which leads to the entries at [e]. *)
Definition hdr_bytes (hdr e : Z) (encs table : list Z) (count : Z) : list Z :=
  encs ++ le_bytes 4 (u32 (e - (hdr + 4))) ++ le_bytes 4 count ++ table.

(** The module at [base] has its entries at [e]: the last program header of the
    type of the frame header leads to it. *)
Record module64 (base e : Z) : Prop := {
  m_image : exists phoff phnum i paddr,
    load_le byte 8 (base + 32) = Some phoff /\ load_le byte 2 (base + 56) = Some phnum /\ 0 <= i < phnum /\
    let phdr j := u64 (base + phoff) + 56 * j in
    load_le byte 4 (phdr i) = Some PT_GNU_EH_FRAME /\
    (forall j, i < j < phnum -> exists t, load_le byte 4 (phdr j) = Some t /\ t <> PT_GNU_EH_FRAME) /\
    load_le byte 8 (phdr i + 24) = Some paddr /\
    exists encs table count, let hdr := u64 (paddr + base) in
      length encs = 4%nat /\ length table = 8%nat /\ 0 <= count < 2 ^ 32 /\ - 2 ^ 31 <= e - (hdr + 4) < 2 ^ 31 /\
      bytes_at byte hdr (hdr_bytes hdr e encs table count)
}.

Lemma find_phdr64_last p i : 0 <= i -> load_le byte 4 (p + 56 * i) = Some PT_GNU_EH_FRAME -> forall n, i < Z.of_nat n ->
  (forall j, i < j < Z.of_nat n -> exists t, load_le byte 4 (p + 56 * j) = Some t /\ t <> PT_GNU_EH_FRAME) ->
  find_phdr64 byte n p = Some (Some (p + 56 * i)).
Proof.
  intros Hi Ht. induction n as [|n IH]; intros Hn Hlater; [lia|]. cbn [find_phdr64].
  destruct (decide (i = Z.of_nat n)) as [<-|Hne]; [by rewrite Ht|].
  destruct (Hlater (Z.of_nat n)) as (t & -> & Hne'); [lia|]. rewrite (proj2 (Z.eqb_neq _ _) Hne'). apply IH; [lia|]. intros j Hj. apply Hlater. lia.
Qed.

Lemma load_le_mapped n : forall l a, length l = n -> bytes_at byte a l -> exists v, load_le byte n a = Some v.
Proof.
  induction n as [|n IH]; intros l a Hl Hb; [by exists 0|]. destruct l as [|b l]; [done|]. apply bytes_at_cons in Hb as [Hb0 Hb].
  destruct (IH l (a + 1)) as [v Hv]; [cbn in Hl; lia|done|]. cbn [load_le]. rewrite Hb0, Hv. by eexists.
Qed.

Lemma decode_hdr_back hdr e encs table count : length encs = 4%nat -> length table = 8%nat -> 0 <= count < 2 ^ 32 ->
  - 2 ^ 31 <= e - (hdr + 4) < 2 ^ 31 -> 0 <= e < 2 ^ 64 -> bytes_at byte hdr (hdr_bytes hdr e encs table count) ->
  exists h, decode_hdr byte hdr = Some h /\ h.(eh_frame_addr) = e.
Proof.
  intros He Ht Hcount Hrel Hrange Hb. unfold hdr_bytes in Hb. rewrite !bytes_at_app in Hb. rewrite He, !le_bytes_length in Hb.
  destruct Hb as (H0 & H1 & H2 & H3). destruct encs as [|e0 [|e1 [|e2 [|e3 [|]]]]]; try done.
  do 4 apply bytes_at_cons in H0 as [? H0]. unfold decode_hdr.
  change (Z.of_nat 4) with 4 in *. rewrite (load_le_at 4 _ _ (u32_range _ : 0 <= _ < 256 ^ Z.of_nat 4) H1).
  replace (hdr + 8) with (hdr + 4 + 4) by lia. rewrite (load_le_at 4 _ _ (Hcount : 0 <= _ < 256 ^ Z.of_nat 4) H2).
  replace (hdr + 12) with (hdr + 4 + 4 + 4) by lia. destruct (load_le_mapped 8 table _ Ht H3) as [tv ->].
  destruct (load_le_mapped 1 [e0] (hdr + 0) eq_refl) as [v0 ->]; [apply bytes_at_cons; split; [by rewrite Z.add_0_r|done]|].
  destruct (load_le_mapped 1 [e1] (hdr + 1) eq_refl) as [v1 ->]; [apply bytes_at_cons; by split|].
  destruct (load_le_mapped 1 [e2] (hdr + 2) eq_refl) as [v2 ->]; [apply bytes_at_cons; split; [by replace (hdr + 2) with (hdr + 1 + 1) by lia|done]|].
  destruct (load_le_mapped 1 [e3] (hdr + 3) eq_refl) as [v3 ->]; [apply bytes_at_cons; split; [by replace (hdr + 3) with (hdr + 1 + 1 + 1) by lia|done]|].
  eexists. split; [reflexivity|]. cbn [eh_frame_addr]. rewrite i32_u32 by done. rewrite u64_small; lia.
Qed.

Context (dladdr : Z -> option Z).

(** The entries of a module from [e] on: the common one and the functions. *)
Record entries_at (e : Z) (c : cie_info) (fns : list fn_info) : Prop := {
  en_room : 0 <= e < 2 ^ 64;
  en_cie : bytes_at byte e (cie_bytes c);
  en_cie_ok : ci_ok c;
  en_fdes : fdes_at (e + Z.of_nat (length (cie_bytes c))) fns
}.

Lemma first_with_at a fns pc a' fn : fdes_at a fns -> first_with a fns pc = Some (a', fn) ->
  contains fn pc = true /\ fn_ok a' fn /\ bytes_at byte a' (fde_bytes a' fn).
Proof.
  revert a. induction fns as [|fn0 fns IH]; intros a (_ & _ & Hat); cbn [first_with]; [done|]. destruct Hat as (Hb & Hok & Hrest).
  destruct (contains fn0 pc) eqn:Hc; [intros [= <- <-]; done|]. by apply IH.
Qed.

Lemma bind_Some {S A B} (a : A) (k : A -> M S B) s : bind (of_option (Some a)) k s = k a s.
Proof. done. Qed.

(** The way to the entry of a function. *)
Lemma step64_run fuel R base e c fns pc a fn : Z.of_nat (length R) = NUM_REGS -> aget R ARM64_PC = Some pc ->
  dladdr pc = Some base -> module64 base e -> entries_at e c fns -> first_with (e + Z.of_nat (length (cie_bytes c))) fns pc = Some (a, fn) ->
  (length fns < fuel)%nat -> (length c.(ci_aug) + 1 < fuel)%nat ->
  forall f, step64 byte dladdr fuel R f = (let! sig_ctx := run_entries byte (cie_of e c) (fde_of a fn) R in ret (1, sig_ctx)) f.
Proof.
  intros HR Hpc Hdl [Him] [Hroom Hcie Hcok Hfdes] Hfirst Hf1 Hf2 f.
  destruct Him as (phoff & phnum & i & paddr & Hoff & Hnum & Hi & Him). cbv zeta in Him.
  destruct Him as (Ht & Hlater & Hpaddr & encs & table & count & He & Htab & Hcount & Hrel & Hhdr).
  destruct (decode_hdr_back _ e encs table count He Htab Hcount Hrel Hroom Hhdr) as (h & Hh & Hhe).
  pose proof (fdes_at_end _ _ Hfdes) as Hend. unfold step64. rewrite Hpc, bind_Some, Hdl. rewrite Hoff, bind_Some. rewrite Hnum, bind_Some.
  rewrite (find_phdr64_last _ i ltac:(lia) Ht), bind_Some by (try lia; intros j Hj; apply Hlater; lia).
  rewrite Hpaddr, bind_Some. rewrite Hh, bind_Some, Hhe. rewrite (decode_cie_back fuel e c), bind_Some by (done || lia).
  assert (u64 (e + cie_total_length (cie_of e c)) = e + Z.of_nat (length (cie_bytes c))) as ->.
  { cbn [cie_total_length cie_of]. rewrite u64_small; unfold cie_bytes in *; rewrite length_app, le_bytes_length in *; lia. }
  rewrite (find_fde_spec (cie_of e c) pc (cie_z_augmented e c ltac:(lia) Hcie) fns), bind_Some by done. rewrite Hfirst. done.
Qed.

(** C26. A step to the caller on ARM64, where the module has an .eh_frame_hdr
    and an .eh_frame with one common entry and the entries of its functions as
    a linker writes them ([module64], [entries_at]), the program counter is in
    one of them, the instructions of the entry are advances, saved offsets
    (also the extended form) and definitions of the frame address by a
    register and an offset, with registers below 32, and they are [orderly]:
    the frame address is settled before registers are saved and does not
    change afterwards, and the words they are saved in can be read. Then x0 to
    x30 and the stack pointer are what the rule of the entry gives for the
    return address in its register ([return_row]), and the program counter is
    the return address of the frame that was found, four bytes back. Registers
    from 33 on are written behind the array ([fp_register_overflows]). *)
Theorem step64_restores_caller fuel R base e c fns pc a fn ra ra' :
  let cie := cie_of e c in let w := return_row cie c fn ra in
  Z.of_nat (length R) = NUM_REGS -> aget R ARM64_PC = Some pc -> aget R c.(ci_ra) = Some ra ->
  dladdr pc = Some base -> module64 base e -> entries_at e c fns -> first_with (e + Z.of_nat (length (cie_bytes c))) fns pc = Some (a, fn) ->
  (length fns < fuel)%nat -> (length c.(ci_aug) + 1 < fuel)%nat ->
  orderly byte cie R (cfa_of R w) (ci_row c) (executed cie fn.(fn_prog) fn.(fn_lo) (u64 (ra - 4))) ->
  caller_reg byte cie R w c.(ci_ra) = Some ra' ->
  exists R' f, step64 byte dladdr fuel R new_frame = (Returns (1, R'), f) /\
    (forall r, 0 <= r < 32 -> aget R' r = caller_reg byte cie R w r) /\ aget R' ARM64_PC = Some (u64 (ra' - 4)).
Proof.
  intros cie w HR Hpc Hra Hdl Hmod Hen Hfirst Hf1 Hf2 Hord Hra'. destruct (first_with_at _ _ _ _ _ (en_fdes _ _ _ Hen) Hfirst) as (Hin & Hfn & Hb).
  rewrite (step64_run fuel R base e c fns pc a fn) by done.
  destruct (wp_returns (let! sig_ctx := run_entries byte cie (fde_of a fn) R in ret (1, sig_ctx))
    (fun r _ => exists R', r = (1, R') /\ (forall r, 0 <= r < 32 -> aget R' r = caller_reg byte cie R w r) /\ aget R' ARM64_PC = Some (u64 (ra' - 4)))
    new_frame) as (r & f & Hrun & R' & -> & HR' & Hpc').
  - wp_step. apply (wp_run_entries e a c fn R pc ra ra'); [done..|apply (en_cie_ok _ _ _ Hen)|done|apply (en_cie _ _ _ Hen)|done|done|done|].
    intros R' f' HR' Hpc'. wp_step. by exists R'.
  - by exists R', f.
Qed.
End Memory.
