(* ===== verification/DwarfLimits.v ===== *)
(** * The ARM64 stack unwinder: limits, and a module

    What a step loses: the program counter it was asked for, the stack pointer
    of the caller, and the bounds of its registers.  A module with one function
    at which the theorems are applied. *)

From stdpp Require Import base numbers list list_numbers.
From Stdlib Require Import Lia ZArith.
From S2P Require Import Prelude Dwarf Leb DwarfRows DwarfStep.

#[local] Open Scope Z_scope.
#[local] Open Scope c_scope.

Section Limits.
Context (byte dladdr : Z -> option Z).

(** The instructions of the common entry end with the program counter set
    to the return address, and those of the function are run up to there: a
    caller below the function gets the registers of the function, none of those
    that it saved. *)
Theorem caller_below_function fuel R base e c fns pc a fn ra :
  Z.of_nat (length R) = NUM_REGS -> aget R ARM64_PC = Some pc -> aget R c.(ci_ra) = Some ra ->
  dladdr pc = Some base -> module64 byte base e -> entries_at byte e c fns ->
  first_with (e + Z.of_nat (length (cie_bytes c))) fns pc = Some (a, fn) ->
  (length fns < fuel)%nat -> (length c.(ci_aug) + 1 < fuel)%nat ->
  u64 (ra - 4) < fn.(fn_lo) ->
  exists R' f, step64 byte dladdr fuel R new_frame = (Returns (1, R'), f) /\
    (forall r, 0 <= r < 32 -> aget R' r = aget R r) /\ aget R' ARM64_PC = Some (u64 (ra - 4)).
Proof.
  intros HR Hpc Hra Hdl Hmod Hen Hfirst Hf1 Hf2 Hbelow. destruct (first_with_at _ _ _ _ _ _ (en_fdes _ _ _ _ Hen) Hfirst) as (Hin & Hfn & Hb).
  set (w := return_row (cie_of e c) c fn ra).
  assert (executed (cie_of e c) fn.(fn_prog) fn.(fn_lo) (u64 (ra - 4)) = []) as Hex.
  { destruct (fn_prog fn); [done|]. cbn [executed]. by rewrite (proj2 (Z.leb_gt _ _)) by lia. }
  assert (w = ci_row c) as Hw by (unfold w, return_row, row_at; by rewrite Hex).
  rewrite (step64_run byte dladdr fuel R base e c fns pc a fn) by done.
  destruct (wp_returns (let! sig_ctx := run_entries byte (cie_of e c) (fde_of a fn) R in ret (1, sig_ctx))
    (fun r _ => exists R', r = (1, R') /\ (forall r, 0 <= r < 32 -> aget R' r = aget R r) /\ aget R' ARM64_PC = Some (u64 (ra - 4)))
    new_frame) as (r & f & Hrun & R' & -> & HR' & Hpc').
  - wp_step. apply (wp_run_entries byte e a c fn R pc ra ra);
      [done..|apply (en_cie_ok _ _ _ _ Hen)|done|apply (en_cie _ _ _ _ Hen)|done| | |]; fold w; rewrite ?Hex, Hw.
    + done.
    + done.
    + intros R' f' HR' Hpc'. wp_step. by exists R'.
  - by exists R', f.
Qed.

(** A step never moves the stack pointer: a function has no rule for it, its
    value in the caller being the frame address. *)
Lemma stack_pointer_stays fuel R base e c fns pc a fn ra ra' :
  let cie := cie_of e c in let w := return_row cie c fn ra in
  Z.of_nat (length R) = NUM_REGS -> aget R ARM64_PC = Some pc -> aget R c.(ci_ra) = Some ra ->
  dladdr pc = Some base -> module64 byte base e -> entries_at byte e c fns ->
  first_with (e + Z.of_nat (length (cie_bytes c))) fns pc = Some (a, fn) ->
  (length fns < fuel)%nat -> (length c.(ci_aug) + 1 < fuel)%nat ->
  orderly byte cie R (cfa_of R w) (ci_row c) (executed cie fn.(fn_prog) fn.(fn_lo) (u64 (ra - 4))) ->
  caller_reg byte cie R w c.(ci_ra) = Some ra' -> w.(row_saved) ARM64_SP = None ->
  exists R' f, step64 byte dladdr fuel R new_frame = (Returns (1, R'), f) /\ aget R' ARM64_SP = aget R ARM64_SP.
Proof.
  intros cie w HR Hpc Hra Hdl Hmod Hen Hfirst Hf1 Hf2 Hord Hra' Hsp. destruct (first_with_at _ _ _ _ _ _ (en_fdes _ _ _ _ Hen) Hfirst) as (Hin & Hfn & Hb).
  rewrite (step64_run byte dladdr fuel R base e c fns pc a fn) by done.
  destruct (wp_returns (let! sig_ctx := run_entries byte cie (fde_of a fn) R in ret (1, sig_ctx))
    (fun r _ => exists R', r = (1, R') /\ aget R' ARM64_SP = aget R ARM64_SP) new_frame) as (r & f & Hrun & R' & -> & HR').
  - wp_step. apply (wp_run_entries byte e a c fn R pc ra ra');
      [done..|apply (en_cie_ok _ _ _ _ Hen)|done|apply (en_cie _ _ _ _ Hen)|done|done|done|].
    intros R' f' HR' _. wp_step. exists R'. split; [done|]. rewrite HR' by (unfold ARM64_SP; lia). unfold caller_reg. change (return_row _ c fn ra) with w. by rewrite Hsp.
  - by exists R', f.
Qed.

(** The registers of an instruction are not checked: one that saves a
    register from 33 on, as a floating-point register is, writes behind [regs]. *)
Theorem fp_register_overflows cie r n p f :
  NUM_REGS <= r < 2 ^ 32 -> 0 <= n < 2 ^ 32 -> Z.of_nat (length f.(regs)) = NUM_REGS ->
  bytes_at byte p (uleb r ++ uleb n) ->
  (execute_op byte cie DW_CFA_offset_extended p f).1 = Stuck.
Proof.
  intros Hr Hn Hl Hb. unfold NUM_REGS in *. apply bytes_at_app in Hb as [Hb1 Hb2].
  change (((let! ' (r, l) := of_option (read_uleb128 byte p) in let! ' (n, l2) := of_option (read_uleb128 byte (p + l)) in
      restore_from byte r (n * cie.(data_alignment_factor)) ;;! ret (Some (p + l + l2))) f).1 = Stuck).
  rewrite (read_uleb_at byte r p) by (done || lia). rewrite bind_Some. rewrite (read_uleb_at byte n) by (done || lia). rewrite bind_Some.
  unfold restore_from, set_frame_reg, bind, gets. destruct (load_le byte 8 _); [|done]. cbn [of_option ret].
  unfold aset. rewrite decide_False by lia. done.
Qed.
End Limits.

(** ** A module *)

(** One function of 64 bytes at 0x2000, which saves x29, x30 and x19 and sets
    up a frame pointer. *)
Definition demo_ci : cie_info := mk_ci [82] 4 (-8) 30 [27] 31 0 3.
Definition demo_prog : list cfi :=
  [Advance 1; DefCfaOffset 32; Offset 29 4; Offset 30 3; Advance 1; DefCfaRegister 29; Advance 1; Offset 19 2].
Definition demo_fn : fn_info := mk_fn 0x2000 64 [] demo_prog 2.

Definition demo_base : Z := 0x1000.
Definition demo_entries : Z := 0x1120.
Definition demo_fde : Z := demo_entries + Z.of_nat (length (cie_bytes demo_ci)).

Definition demo_image : list Z :=
  replicate 32 0 ++ le_bytes 8 64 ++ replicate 16 0 ++ le_bytes 2 1 ++ replicate 6 0 ++
  le_bytes 4 PT_GNU_EH_FRAME ++ replicate 20 0 ++ le_bytes 8 0x100 ++ replicate 24 0 ++ replicate 136 0 ++
  hdr_bytes 0x1100 demo_entries [1; 27; 3; 59] (replicate 8 0) 1 ++ replicate 12 0 ++
  cie_bytes demo_ci ++ fde_bytes demo_fde demo_fn ++ le_bytes 4 0.

(** The stack from 0x8000 on: what the function has saved. *)
Definition demo_stack : list Z := le_bytes 8 0x9000 ++ le_bytes 8 0x3010 ++ le_bytes 8 77 ++ le_bytes 8 0.

Definition demo_byte (a : Z) : option Z :=
  if (0x1000 <=? a) && (a <? 0x2000) then aget demo_image (a - 0x1000)
  else if (0x8000 <=? a) && (a <? 0x9000) then aget demo_stack (a - 0x8000) else None.

Definition demo_dladdr (pc : Z) : option Z := if (0x1000 <=? pc) && (pc <? 0x3000) then Some demo_base else None.

(** The registers at 0x2020, with the return address [lr]. *)
Definition demo_regs (lr : Z) : list Z := replicate 29 5 ++ [0x8000; lr; 0x8000; 0x2020].

(** A list of bytes that is in the image. *)
Lemma demo_bytes_at a l : forallb (fun i => bool_decide (demo_byte (u64 (a + Z.of_nat i)) = l !! i)) (seq 0 (length l)) = true ->
  bytes_at demo_byte a l.
Proof.
  intros Hall i b Hi. rewrite forallb_forall in Hall. specialize (Hall i). rewrite bool_decide_eq_true, Hi in Hall. apply Hall.
  apply in_seq. apply lookup_lt_Some in Hi. lia.
Qed.

Lemma demo_module : module64 demo_byte demo_base demo_entries.
Proof.
  split. exists 64, 1, 0, 0x100. split; [by vm_compute|]. split; [by vm_compute|]. split; [lia|]. cbv zeta.
  split; [by vm_compute|]. split; [lia|]. split; [by vm_compute|].
  exists [1; 27; 3; 59], (replicate 8 0), 1. cbv zeta. repeat (split; [by vm_compute|]).
  apply demo_bytes_at. by vm_compute.
Qed.

Lemma demo_entries_at : entries_at demo_byte demo_entries demo_ci [demo_fn].
Proof.
  split.
  - by vm_compute.
  - apply demo_bytes_at. by vm_compute.
  - split; [|by vm_compute..]. split; [by repeat constructor|by vm_compute].
  - cbn [fdes_at]. split; [by vm_compute|]. split; [by vm_compute|]. split; [apply demo_bytes_at; by vm_compute|]. split.
    + split; [by vm_compute|by vm_compute| |by vm_compute]. repeat (apply List.Forall_cons; [by vm_compute|]). apply List.Forall_nil.
    + split; [by vm_compute|]. split; [by vm_compute|]. apply demo_bytes_at. by vm_compute.
Qed.

Definition demo_step (lr : Z) := step64 demo_byte demo_dladdr 5 (demo_regs lr) new_frame.

(** The last call of the function was at 0x2014. *)
Lemma step64_restores_caller_witness :
  exists R' f, demo_step 0x2018 = (Returns (1, R'), f) /\
    (forall r, 0 <= r < 32 -> aget R' r =
      caller_reg demo_byte (cie_of demo_entries demo_ci) (demo_regs 0x2018) (return_row (cie_of demo_entries demo_ci) demo_ci demo_fn 0x2018) r) /\
    aget R' ARM64_PC = Some (u64 (0x3010 - 4)) /\ aget R' 19 = Some 77 /\ aget R' 29 = Some 0x9000 /\ aget R' 30 = Some 0x3010.
Proof.
  destruct (step64_restores_caller demo_byte demo_dladdr 5 (demo_regs 0x2018) demo_base demo_entries demo_ci [demo_fn] 0x2020 demo_fde demo_fn 0x2018 0x3010)
    as (R' & f & H1 & H2 & H3).
  - done.
  - done.
  - done.
  - done.
  - exact demo_module.
  - exact demo_entries_at.
  - by vm_compute.
  - cbn. lia.
  - cbn. lia.
  - vm_compute. repeat split; by eexists.
  - by vm_compute.
  - exists R', f. split; [exact H1|]. split; [exact H2|]. split; [exact H3|]. clear H1 H3. rewrite !H2 by lia. clear. vm_compute. repeat split.
Defined.

(** The function has not called another yet, and its caller is at 0x1804. *)
Lemma caller_below_function_witness :
  exists R' f, demo_step 0x1804 = (Returns (1, R'), f) /\
    (forall r, 0 <= r < 32 -> aget R' r = aget (demo_regs 0x1804) r) /\ aget R' ARM64_PC = Some (u64 (0x1804 - 4)).
Proof.
  apply (caller_below_function demo_byte demo_dladdr 5 (demo_regs 0x1804) demo_base demo_entries demo_ci [demo_fn] 0x2020 demo_fde demo_fn 0x1804).
  - done.
  - done.
  - done.
  - done.
  - exact demo_module.
  - exact demo_entries_at.
  - by vm_compute.
  - cbn. lia.
  - cbn. lia.
  - by vm_compute.
Defined.

(** The rule at the program counter would have restored x19 in both cases. *)
Example below_lost : (caller_reg demo_byte (cie_of demo_entries demo_ci) (demo_regs 0x1804)
    (row_at (cie_of demo_entries demo_ci) demo_prog 0x2000 0x2020 (ci_row demo_ci)) 19 = Some 77) /\ aget (demo_regs 0x1804) 19 = Some 5.
Proof. by vm_compute. Qed.

(** Saving d8, register 72. *)
Lemma fp_register_overflows_witness :
  (execute_op (memory_of (uleb 72 ++ uleb 2)) (cie_of demo_entries demo_ci) DW_CFA_offset_extended 0 new_frame).1 = Stuck.
Proof.
  apply (fp_register_overflows (memory_of (uleb 72 ++ uleb 2)) (cie_of demo_entries demo_ci) 72 2 0 new_frame).
  - unfold NUM_REGS. lia.
  - lia.
  - done.
  - apply memory_bytes. by vm_compute.
Defined.
