(* ===== verification/ElfHook.v ===== *)
(** * libmemcheck: hooks of imported functions (elfHook)

    [elfHook] finds a loaded library by its name in /proc/self/maps
    ([findLibBase], elfio.cpp), reads its dynamic section
    ([getElfInfoBySegmentView]), looks the symbol up in its hash table
    ([findSymByName], elfutils.cpp) and replaces the function in the relocation
    slots of the symbol ([replaceFunc], elfhook.cpp).

    The memory of the process is part of the state.  [ElfInfo] is a local
    variable nothing initialises: a field is [None] until it is set, and
    reading it then is [Stuck].  [exit] is [Fails].  The results of the coming
    calls of [mprotect] are part of the state, too. *)

From stdpp Require Import base numbers list list_numbers.
From Stdlib Require Import Lia ZArith.
From S2P Require Import Prelude Relocate InlineHook.

#[local] Open Scope Z_scope.
#[local] Open Scope c_scope.

Definition PT_DYNAMIC := 2.
Definition DT_PLTRELSZ := 2.
Definition DT_HASH := 4.
Definition DT_STRTAB := 5.
Definition DT_SYMTAB := 6.
Definition DT_REL := 17.
Definition DT_RELSZ := 18.
Definition DT_JMPREL := 23.
Definition R_ARM_ABS32 := 0x02.
Definition R_ARM_GLOB_DAT := 0x15.
Definition R_ARM_JUMP_SLOT := 0x16.

Definition ELF32_R_SYM (info : Z) : Z := Z.shiftr info 8.
Definition ELF32_R_TYPE (info : Z) : Z := Z.land info 0xff.

(** The fields the hook uses. *)
Record ElfInfo : Type := mkElfInfo {
  elf_base : Z;
  sym : option Z;
  symstr : option Z;
  relplt : option Z;
  relpltsz : option Z;
  reldyn : option Z;
  reldynsz : option Z;
  nbucket : option Z;
  nchain : option Z;
  bucket : option Z;
  chain : option Z
}.

Definition new_info (base : Z) : ElfInfo := mkElfInfo base None None None None None None None None None None.

(** The process: its memory, [*old_func], and whether the coming calls of
    [mprotect] succeed. *)
Record elf_process : Type := mkElfProcess { elf_mem : Z -> option Z; old_func : Z; protects : list bool }.

Definition set_elf_mem (v : Z -> option Z) (p : elf_process) : elf_process := mkElfProcess v p.(old_func) p.(protects).
Definition set_old_func (v : Z) (p : elf_process) : elf_process := mkElfProcess p.(elf_mem) v p.(protects).
Definition set_protects (v : list bool) (p : elf_process) : elf_process := mkElfProcess p.(elf_mem) p.(old_func) v.

Abbreviation ElfM := (M elf_process).

Definition get_word (a : Z) : ElfM Z := let! m := gets elf_mem in of_option (load_word m (u32 a)).
Definition get_half (a : Z) : ElfM Z :=
  let! m := gets elf_mem in
  let! bs := of_option (load_bytes 2 (u32 a) m) in
  match bs with [lo; hi] => ret (lo + 256 * hi) | _ => stuck end.

(** ** The library (elfio.cpp) *)

(** [lines]: what [fgets] reads of /proc/self/maps, 255 characters at a time; [soname] is [None] for NULL. *)
Definition findLibBase (lines : list (list Z)) (soname : option (list Z)) : Z :=
  match find (fun line => match soname with None => true | Some n => strstr n line end) lines with
  | Some line => strtoul16 (take 8 line)
  | None => 0
  end.

(** The base, [None] if there is none. *)
Definition openElfBySoname (lines : list (list Z)) (soname : option (list Z)) : option Z :=
  let base := findLibBase lines soname in if base =? 0 then None else Some base.

(** ** Its dynamic section (elfutils.cpp) *)

Fixpoint findSegmentByType_from (n : nat) (phdr type : Z) : ElfM (option Z) :=
  match n with
  | O => ret None
  | S n =>
      let! t := get_word phdr in
      if t =? type then ret (Some phdr) else findSegmentByType_from n (phdr + 32) type
  end.

Definition findSegmentByType (base type : Z) : ElfM (option Z) :=
  let! phoff := get_word (base + 28) in
  let! phnum := get_half (base + 44) in
  findSegmentByType_from (Z.to_nat phnum) (base + phoff) type.

(** The address and the size of a segment in memory; without it, [exit(-1)]. *)
Definition getSegmentInfo (base type : Z) : ElfM (Z * Z) :=
  let! phdr := findSegmentByType base type in
  match phdr with
  | None => fail
  | Some phdr =>
      let! vaddr := get_word (phdr + 8) in
      let! memsz := get_word (phdr + 20) in
      ret (u32 (base + vaddr), memsz)
  end.

(** [switch (dyn->d_tag)] *)
Definition read_dyn (info : ElfInfo) (dyn : Z) : ElfM ElfInfo :=
  let! tag := get_word dyn in
  let! val := get_word (dyn + 4) in
  let 'mkElfInfo base sy str plt pltsz rel relsz nb nc b c := info in
  let ptr := u32 (base + val) in
  if tag =? DT_SYMTAB then ret (mkElfInfo base (Some ptr) str plt pltsz rel relsz nb nc b c)
  else if tag =? DT_STRTAB then ret (mkElfInfo base sy (Some ptr) plt pltsz rel relsz nb nc b c)
  else if tag =? DT_REL then ret (mkElfInfo base sy str plt pltsz (Some ptr) relsz nb nc b c)
  else if tag =? DT_RELSZ then ret (mkElfInfo base sy str plt pltsz rel (Some (val / 8)) nb nc b c)
  else if tag =? DT_JMPREL then ret (mkElfInfo base sy str (Some ptr) pltsz rel relsz nb nc b c)
  else if tag =? DT_PLTRELSZ then ret (mkElfInfo base sy str plt (Some (val / 8)) rel relsz nb nc b c)
  else if tag =? DT_HASH then
    let! n := get_word ptr in
    let! k := get_word (ptr + 4) in
    ret (mkElfInfo base sy str plt pltsz rel relsz (Some n) (Some k) (Some (u32 (ptr + 8))) (Some (u32 (ptr + 8 + 4 * n))))
  else ret info.

Definition getElfInfoBySegmentView (base : Z) : ElfM ElfInfo :=
  let! ' (dyn, size) := getSegmentInfo base PT_DYNAMIC in
  foldM (fun info i => read_dyn info (dyn + 8 * i)) (seqZ 0 (size / 8)) (new_info base).

(** ** The symbol *)

Definition hash_step (h c : Z) : Z :=
  let h := u32 (u32 (Z.shiftl h 4) + c) in
  let g := Z.land h 0xf0000000 in
  let h := Z.lxor h g in
  Z.lxor h (Z.shiftr g 24).

Definition elf_hash (name : list Z) : Z := fold_left hash_step name 0.

(** [!strcmp(a, s)]: the bytes are read up to the first that differs. *)
Fixpoint string_is (a : Z) (s : list Z) : ElfM bool :=
  let! m := gets elf_mem in
  let! b := of_option (m (u32 a)) in
  match s with
  | [] => ret (b =? 0)
  | c :: s => if b =? c then string_is (a + 1) s else ret false
  end.

Definition symbol_is (info : ElfInfo) (symbol : list Z) (index : Z) : ElfM bool :=
  let! symtab := of_option info.(sym) in
  let! str := of_option info.(symstr) in
  let! name := get_word (symtab + 16 * index) in
  string_is (str + name) symbol.

(** [do ... while (index != 0)] *)
Definition chain_round (info : ElfInfo) (symbol : list Z) (index : Z) : ElfM (Z + option Z) :=
  let! c := of_option info.(chain) in
  let! index := get_word (c + 4 * index) in
  let! found := symbol_is info symbol index in
  if found : bool then ret (inr (Some index)) else if index =? 0 then ret (inr None) else ret (inl index).

(** The index of the symbol; [fuel] bounds the chain. *)
Definition findSymByName (fuel : nat) (info : ElfInfo) (symbol : list Z) : ElfM (option Z) :=
  let hash := elf_hash symbol in
  let! b := of_option info.(bucket) in
  let! n := of_option info.(nbucket) in
  if n =? 0 then stuck
  else
    let! index := get_word (b + 4 * (hash mod n)) in
    let! found := symbol_is info symbol index in
    if found : bool then ret (Some index) else loop fuel (chain_round info symbol) index.

(** ** The slots (elfhook.cpp) *)

(** 0 if the slot holds the new function, 1 if its page cannot be made writable. *)
Definition replaceFunc (addr replace_func : Z) : ElfM Z :=
  let! w := get_word addr in
  if w =? replace_func then ret 0
  else
    let! old := gets old_func in
    (if old =? 0 then modify (set_old_func w) else ret tt) ;;!
    let! ps := gets protects in
    modify (set_protects (tail ps)) ;;!
    if default true (head ps) then
      let! m := gets elf_mem in
      let! m := of_option (store_bytes (u32 addr) (word_bytes replace_func) m) in
      modify (set_elf_mem m) ;;! ret 0
    else ret 1.

(** The loop over .rel.plt, which ends with the first slot of the symbol; [true]
    goes on, [false] is [goto fails]. *)
Fixpoint hook_plt (n : nat) (base rel symidx replace_func : Z) : ElfM bool :=
  match n with
  | O => ret true
  | S n =>
      let! info := get_word (rel + 4) in
      if (ELF32_R_SYM info =? symidx) && (ELF32_R_TYPE info =? R_ARM_JUMP_SLOT) then
        let! off := get_word rel in
        let! r := replaceFunc (base + off) replace_func in
        ret (r =? 0)
      else hook_plt n base (rel + 8) symidx replace_func
  end.

Fixpoint hook_dyn (n : nat) (base rel symidx replace_func : Z) : ElfM unit :=
  match n with
  | O => ret tt
  | S n =>
      let! info := get_word (rel + 4) in
      if (ELF32_R_SYM info =? symidx) && ((ELF32_R_TYPE info =? R_ARM_ABS32) || (ELF32_R_TYPE info =? R_ARM_GLOB_DAT)) then
        let! off := get_word rel in
        let! r := replaceFunc (base + off) replace_func in
        if negb (r =? 0) then ret tt else hook_dyn n base (rel + 8) symidx replace_func
      else hook_dyn n base (rel + 8) symidx replace_func
  end.

(** A table: its address is not read when it is empty. *)
Definition table (addr size : option Z) : ElfM (Z * nat) :=
  let! n := of_option size in
  if n =? 0 then ret (0, O) else let! a := of_option addr in ret (a, Z.to_nat n).

Definition elfHook (fuel : nat) (lines : list (list Z)) (soname : option (list Z)) (symbol : list Z) (replace_func : Z) : ElfM Z :=
  match openElfBySoname lines soname with
  | None => ret 0
  | Some base =>
      let! info := getElfInfoBySegmentView base in
      let! symidx := findSymByName fuel info symbol in
      match symidx with
      | None => ret 0
      | Some symidx =>
          let! ' (plt, n) := table info.(relplt) info.(relpltsz) in
          let! ok := hook_plt n base plt symidx replace_func in
          (if ok : bool then
             let! ' (dyn, n) := table info.(reldyn) info.(reldynsz) in
             hook_dyn n base dyn symidx replace_func
           else ret tt) ;;!
          ret 0
      end
  end.
