(* ===== verification/ElfProps.v ===== *)
(** * libmemcheck: hooks of imported functions, correctness

    The tables of a loaded library ([library], [library_at]); the lookup of a
    symbol in its hash table; and the theorem that [elfHook] redirects the
    relocation slots of the symbol, and nothing else. *)

From stdpp Require Import base numbers list list_numbers.
From Stdlib Require Import Lia ZArith.
From S2P Require Import Prelude Relocate InlineHook HookTable HookCycle ElfHook.

#[local] Open Scope Z_scope.
#[local] Open Scope c_scope.

(** ** Reading *)

Lemma wp_get_word a v (Q : Z -> elf_process -> Prop) E s : load_word s.(elf_mem) (u32 a) = Some v -> Q v s -> wp (get_word a) Q E s.
Proof. intros Hv HQ. unfold get_word. do 2 wp_step. by apply wp_of_option with (1 := Hv). Qed.

Lemma load_bytes_ext n : forall a m m', (forall x, a <= x < a + Z.of_nat n -> m' x = m x) -> load_bytes n a m' = load_bytes n a m.
Proof.
  induction n as [|n IH]; intros a m m' He; [done|]. cbn [load_bytes]. rewrite He by lia.
  by rewrite (IH (a + 1) m m') by (intros x Hx; apply He; lia).
Qed.

Lemma load_word_ext a m m' : (forall x, a <= x < a + 4 -> m' x = m x) -> load_word m' a = load_word m a.
Proof. intros He. unfold load_word. by rewrite (load_bytes_ext 4 a m m'). Qed.

(** ** A library *)

(** Its symbols by name, the hash table, and its relocations: an offset and
    [r_info] for each. *)
Record library : Type := mkLibrary {
  lb_names : list (list Z);
  lb_buckets : list Z;
  lb_chains : list Z;
  lb_plt : list (Z * Z);
  lb_dyn : list (Z * Z)
}.

(** The words of a table at [a]. *)
Definition words_at (m : Z -> option Z) (a : Z) (l : list Z) : Prop :=
  forall i w, aget l i = Some w -> load_word m (u32 (a + 4 * i)) = Some w.

(** The pairs of words at [a]: relocations, or entries of the dynamic section. *)
Fixpoint pairs_at (m : Z -> option Z) (a : Z) (l : list (Z * Z)) : Prop :=
  match l with
  | [] => True
  | (v, w) :: l => load_word m (u32 a) = Some v /\ load_word m (u32 (a + 4)) = Some w /\ pairs_at m (a + 8) l
  end.

Definition table_at (m : Z -> option Z) (addr size : option Z) (l : list (Z * Z)) : Prop :=
  size = Some (Z.of_nat (length l)) /\ (l = [] \/ exists a, addr = Some a /\ pairs_at m a l).

Definition string_at (m : Z -> option Z) (a : Z) (s : list Z) : Prop :=
  forall i b, (s ++ [0]) !! i = Some b -> m (u32 (a + Z.of_nat i)) = Some b.

Record library_at (m : Z -> option Z) (info : ElfInfo) (L : library) : Prop := {
  at_hash : exists b c, info.(bucket) = Some b /\ info.(chain) = Some c /\ info.(nbucket) = Some (Z.of_nat (length L.(lb_buckets))) /\
    words_at m b L.(lb_buckets) /\ words_at m c L.(lb_chains);
  at_names : exists symtab str, info.(sym) = Some symtab /\ info.(symstr) = Some str /\
    forall i name, aget L.(lb_names) i = Some name ->
      exists st, load_word m (u32 (symtab + 16 * i)) = Some st /\ string_at m (str + st) name;
  at_plt : table_at m info.(relplt) info.(relpltsz) L.(lb_plt);
  at_dyn : table_at m info.(reldyn) info.(reldynsz) L.(lb_dyn)
}.

(** The symbols of a bucket, from its first one on. *)
Inductive path (chains : list Z) : Z -> list Z -> Prop :=
| path_end : path chains 0 []
| path_next i j p : 0 < i -> aget chains i = Some j -> path chains j p -> path chains i (i :: p).

(** The hash table of the System V ABI: the chain of a bucket has the symbols of
    the bucket; symbol 0 has no name and ends every chain. *)
Record hash_ok (L : library) : Prop := {
  ho_buckets : L.(lb_buckets) <> [];
  ho_first : aget L.(lb_names) 0 = Some [] /\ aget L.(lb_chains) 0 = Some 0;
  ho_strings : Forall (Forall (fun c => 0 < c < 256)) L.(lb_names);
  ho_paths : forall k head, aget L.(lb_buckets) k = Some head -> exists p, path L.(lb_chains) head p /\ NoDup p /\
    Forall (fun i => 0 < i < Z.of_nat (length L.(lb_names))) p;
  ho_complete : forall i name k head p, 0 < i -> aget L.(lb_names) i = Some name ->
    k = elf_hash name mod Z.of_nat (length L.(lb_buckets)) -> aget L.(lb_buckets) k = Some head -> path L.(lb_chains) head p -> In i p
}.

(** ** Strings *)

Lemma wp_string_is s : forall a name (Q : bool -> elf_process -> Prop) E p,
  string_at p.(elf_mem) a name -> Forall (fun c => 0 < c < 256) name -> Forall (fun c => 0 < c < 256) s ->
  Q (bool_decide (name = s)) p -> wp (string_is a s) Q E p.
Proof.
  induction s as [|c s IH]; intros a name Q E p Hat Hname Hs HQ; cbn [string_is]; do 2 wp_step; wp_step.
  - destruct name as [|b name].
    + apply wp_of_option with (a := 0); [specialize (Hat 0%nat 0 eq_refl); by rewrite Z.add_0_r in Hat|]. by wp_step.
    + apply wp_of_option with (a := b); [specialize (Hat 0%nat b eq_refl); by rewrite Z.add_0_r in Hat|].
      apply Forall_cons in Hname as [Hb _]. wp_step. rewrite (proj2 (Z.eqb_neq b 0)) by lia. exact HQ.
  - apply Forall_cons in Hs as [Hc Hs]. destruct name as [|b name].
    + apply wp_of_option with (a := 0); [specialize (Hat 0%nat 0 eq_refl); by rewrite Z.add_0_r in Hat|].
      rewrite (proj2 (Z.eqb_neq 0 c)) by lia. wp_step. exact HQ.
    + apply wp_of_option with (a := b); [specialize (Hat 0%nat b eq_refl); by rewrite Z.add_0_r in Hat|].
      apply Forall_cons in Hname as [Hb Hname]. destruct (Z.eqb_spec b c) as [->|Hne].
      * apply (IH _ name); [|done|done|].
        -- intros i x Hi. specialize (Hat (S i) x Hi). by replace (a + 1 + Z.of_nat i) with (a + Z.of_nat (S i)) by lia.
        -- erewrite bool_decide_ext; [exact HQ|]. split; [by intros ->|by intros [= ->]].
      * wp_step. rewrite bool_decide_eq_false_2 in HQ; [done|]. by intros [= ? ?].
Qed.

Section Lookup.
Context (info : ElfInfo) (L : library) (symbol : list Z) (Hok : hash_ok L).
Context (Hsym : symbol <> [] /\ Forall (fun c => 0 < c < 256) symbol).

Definition named (i : Z) : bool := bool_decide (aget L.(lb_names) i = Some symbol).

Lemma wp_symbol_is i (Q : bool -> elf_process -> Prop) E s : library_at s.(elf_mem) info L -> 0 <= i < Z.of_nat (length L.(lb_names)) ->
  Q (named i) s -> wp (symbol_is info symbol i) Q E s.
Proof.
  intros Hat Hi HQ. destruct (at_names _ _ _ Hat) as (symtab & str & Hs & Hstr & Hnames). destruct (aget_Some L.(lb_names) i Hi) as [name Hname].
  destruct (Hnames i name Hname) as (st & Hst & Hstring). unfold symbol_is. rewrite Hs, Hstr. cbn [of_option]. do 2 wp_step. do 2 wp_step.
  wp_step. apply (wp_get_word _ st); [done|]. apply (wp_string_is symbol _ name); [done| |by destruct Hsym|].
  - exact (aget_Forall _ _ _ _ (ho_strings _ Hok) Hname).
  - unfold named in HQ. rewrite Hname in HQ. erewrite bool_decide_ext; [exact HQ|]. split; [by intros ->|by intros [= ->]].
Qed.

Lemma not_named_0 : named 0 = false.
Proof.
  unfold named. destruct (ho_first _ Hok) as [-> _]. apply bool_decide_eq_false_2. intros [= He]. destruct Hsym as [Hne _]. by symmetry in He.
Qed.

Lemma names_0 : 0 < Z.of_nat (length L.(lb_names)).
Proof. destruct (ho_first _ Hok) as [H0 _]. apply aget_lt in H0. lia. Qed.

(** From a symbol that was looked at, along its chain. *)
Lemma wp_chain p : forall i j fuel (Q : option Z -> elf_process -> Prop) E s, library_at s.(elf_mem) info L ->
  aget L.(lb_chains) i = Some j -> path L.(lb_chains) j p -> Forall (fun i => 0 < i < Z.of_nat (length L.(lb_names))) p ->
  (length p < fuel)%nat -> Q (find named p) s -> wp (loop fuel (chain_round info symbol) i) Q E s.
Proof.
  induction p as [|x p IH]; intros i j fuel Q E s Hat Hij Hp HF Hf HQ; (destruct fuel as [|fuel]; [lia|]); cbn [loop find length] in *;
    apply wp_bind; unfold chain_round at 1; destruct (at_hash _ _ _ Hat) as (b & c & _ & -> & _ & _ & Hchains); cbn [of_option]; wp_step; wp_step; wp_step;
    (apply (wp_get_word _ j); [by apply Hchains|]); wp_step.
  - inversion Hp; subst. apply wp_symbol_is; [done|pose proof names_0; lia|]. rewrite not_named_0. by do 2 wp_step.
  - inversion Hp as [|? y ? Hx0 Hy Hp']; subst. apply Forall_cons in HF as [Hx HF]. apply wp_symbol_is; [done|lia|].
    destruct (named x); [by do 2 wp_step|]. rewrite (proj2 (Z.eqb_neq x 0)) by lia. wp_step. apply (IH x y); (done || lia).
Qed.

(** The lookup finds the symbol of the name, if there is one. *)
Lemma wp_findSymByName fuel (Q : option Z -> elf_process -> Prop) E s : library_at s.(elf_mem) info L ->
  (length L.(lb_names) < fuel)%nat ->
  (forall r, match r with Some i => named i = true | None => forall i, named i = false end -> Q r s) ->
  wp (findSymByName fuel info symbol) Q E s.
Proof.
  intros Hat Hf HQ. destruct (at_hash _ _ _ Hat) as (b & c & Hb & Hc & Hn & Hbuckets & Hchains). unfold findSymByName. rewrite Hb, Hn. cbn [of_option].
  assert (length (lb_buckets L) <> 0%nat) as Hlen by (destruct (lb_buckets L) eqn:E0; [by destruct (ho_buckets _ Hok)|done]).
  set (k := elf_hash symbol mod Z.of_nat (length (lb_buckets L))).
  destruct (aget_Some (lb_buckets L) k) as [head Hhead]; [apply Z.mod_pos_bound; lia|].
  destruct (ho_paths _ Hok k head Hhead) as (p & Hp & Hnd & HF).
  assert (length p <= length (lb_names L))%nat as Hpl.
  { apply Nat.le_trans with (length (seqZ 0 (Z.of_nat (length (lb_names L))))); [|rewrite length_seqZ; lia].
    apply NoDup_incl_length; [by apply NoDup_ListNoDup|]. intros x Hx. apply list_elem_of_In, elem_of_seqZ. rewrite List.Forall_forall in HF. specialize (HF x Hx). lia. }
  assert (forall q, (forall i, In i q -> In i p) -> (forall i, In i p -> named i = true -> In i q) ->
    match find named q with Some i => named i = true | None => forall i, named i = false end) as Hfind.
  { intros q Hqp Hpq. destruct (find named q) as [i|] eqn:Hi; [by apply find_some in Hi as [_ ?]|]. intros i. destruct (named i) eqn:Hni; [|done].
    assert (0 < i) as Hi0. { destruct (decide (i = 0)) as [->|]; [by rewrite not_named_0 in Hni|]. apply bool_decide_eq_true, aget_lt in Hni as ?. lia. }
    assert (In i p) as Hin by (apply (ho_complete _ Hok i symbol k head p Hi0); [by apply bool_decide_eq_true in Hni|done..]).
    pose proof (find_none _ _ Hi i (Hpq i Hin Hni)). congruence. }
  do 2 wp_step. do 2 wp_step. rewrite (proj2 (Z.eqb_neq _ 0)) by lia. wp_step. apply (wp_get_word _ head); [by apply Hbuckets|]. wp_step.
  inversion Hp as [|i j p' Hi0 Hij Hp']; subst.
  - apply wp_symbol_is; [done|pose proof names_0; lia|]. rewrite not_named_0.
    apply (wp_chain [] 0 0); [done|apply (ho_first _ Hok)|done|done|cbn; lia|]. apply HQ. by apply (Hfind []).
  - apply Forall_cons in HF as [Hx HF]. apply wp_symbol_is; [done|lia|]. destruct (named head) eqn:Hh; [by wp_step; apply HQ|].
    apply (wp_chain p' head j); [done|done|done|done|cbn [length] in *; lia|]. apply HQ, Hfind; [by right|]. intros x [->|Hx'] Hnx; [congruence|done].
Qed.
End Lookup.

(** ** The slots *)

Definition is_plt (i : Z) (r : Z * Z) : bool := (ELF32_R_SYM r.2 =? i) && (ELF32_R_TYPE r.2 =? R_ARM_JUMP_SLOT).
Definition is_dyn (i : Z) (r : Z * Z) : bool :=
  (ELF32_R_SYM r.2 =? i) && ((ELF32_R_TYPE r.2 =? R_ARM_ABS32) || (ELF32_R_TYPE r.2 =? R_ARM_GLOB_DAT)).

(** The slots of symbol [i]: the first of .rel.plt, and those of .rel.dyn. *)
Definition plt_slot (base : Z) (L : library) (i : Z) : list Z :=
  match find (is_plt i) L.(lb_plt) with Some r => [base + r.1] | None => [] end.
Definition dyn_slots (base i : Z) (rels : list (Z * Z)) : list Z := (fun r => base + r.1) <$> List.filter (is_dyn i) rels.
Definition slots (base : Z) (L : library) (i : Z) : list Z := plt_slot base L i ++ dyn_slots base i L.(lb_dyn).

Section Slots.
Context (replace_func : Z) (Hreplace : 0 <= replace_func < 4294967296).
Context (s0 : elf_process) (T : list Z).

(** The slots are mapped words. *)
Definition slot_ok (a : Z) : Prop := 0 <= a /\ a + 4 <= 4294967296 /\ a mod 4 = 0 /\ mapped s0.(elf_mem) a 4.
Context (HT : forall a, In a T -> slot_ok a).

Definition word_of (a : Z) : Z := default 0 (load_word s0.(elf_mem) a).

Definition saving (old a : Z) : Z := if word_of a =? replace_func then old else if old =? 0 then word_of a else old.

(** The function that is saved when the slots [l] are replaced in turn. *)
Definition saved_func (l : list Z) : Z :=
  fold_left saving l s0.(old_func).

(** The slots [l] have been replaced. *)
Record hooked (l : list Z) (s : elf_process) : Prop := {
  hk_in : forall a, In a l -> In a T;
  hk_done : forall a, In a l -> load_word s.(elf_mem) a = Some replace_func;
  hk_todo : forall a, In a T -> ~ In a l -> load_word s.(elf_mem) a = load_word s0.(elf_mem) a;
  hk_rest : forall x, (forall a, In a T -> ~ a <= x < a + 4) -> s.(elf_mem) x = s0.(elf_mem) x;
  hk_mapped : forall a, In a T -> mapped s.(elf_mem) a 4;
  hk_old : s.(old_func) = saved_func l;
  hk_protects : Forall (fun b => b = true) s.(protects)
}.

Lemma hooked_nil : Forall (fun b => b = true) s0.(protects) -> hooked [] s0.
Proof. intros Hp. split; try done. intros a Ha. apply HT, Ha. Qed.

Lemma load_word_mapped m a : mapped m a 4 -> is_Some (load_word m a).
Proof.
  intros Hm. unfold load_word. destruct (load_bytes_spec 4 a m Hm) as (bs & -> & Hl & _).
  destruct bs as [|b0 [|b1 [|b2 [|b3 [|]]]]]; try done; by eexists.
Qed.

Lemma word_apart a b x : slot_ok a -> slot_ok b -> a <> b -> b <= x < b + 4 -> ~ a <= x < a + 4.
Proof. intros (_ & _ & Ha & _) (_ & _ & Hb & _) Hne. pose proof (Z.div_mod a 4). pose proof (Z.div_mod b 4). lia. Qed.

Lemma saved_func_snoc l a : saved_func (l ++ [a]) = saving (saved_func l) a.
Proof. unfold saved_func. by rewrite fold_left_app. Qed.

Lemma saving_kept a l : forall old, word_of a <> replace_func -> word_of a <> 0 -> old <> 0 \/ In a l -> fold_left saving l old <> 0.
Proof.
  induction l as [|b l IH]; intros old Hr Hw Hor; cbn [fold_left]; [by destruct Hor|]. apply IH; [done|done|]. unfold saving.
  destruct Hor as [Ho|[->|Hin]]; [left|left|by right].
  - destruct (word_of b =? replace_func); [done|]. by rewrite (proj2 (Z.eqb_neq old 0)).
  - rewrite (proj2 (Z.eqb_neq _ _) Hr). by destruct (Z.eqb_spec old 0).
Qed.

(** A slot that is met again saves nothing. *)
Lemma saved_func_again l a : In a l -> saved_func (l ++ [a]) = saved_func l.
Proof.
  intros Hin. rewrite saved_func_snoc. unfold saving. destruct (Z.eqb_spec (word_of a) replace_func) as [|Hr]; [done|].
  destruct (Z.eqb_spec (saved_func l) 0) as [Hz|]; [|done]. destruct (Z.eq_dec (word_of a) 0) as [->|Hw]; [done|].
  by destruct (saving_kept a l s0.(old_func) Hr Hw (or_intror Hin)).
Qed.

(** A slot that holds the new function already. *)
Lemma hooked_same l a s : hooked l s -> In a T -> load_word s.(elf_mem) a = Some replace_func -> hooked (l ++ [a]) s.
Proof.
  intros [Hin Hdone Htodo Hrest Hmap Hold Hprot] Ha Hw. split; try done.
  - intros b [Hb|[<-|[]]]%in_app_iff; [by apply Hin|done].
  - intros b [Hb|[<-|[]]]%in_app_iff; [by apply Hdone|done].
  - intros b Hb Hn. apply Htodo; [done|]. intros Hl. apply Hn, in_app_iff. by left.
  - rewrite Hold. destruct (in_dec Z.eq_dec a l) as [Hl|Hn]; [by rewrite saved_func_again|]. rewrite saved_func_snoc. unfold saving, word_of.
    by rewrite <- Htodo, Hw, Z.eqb_refl.
Qed.

(** A slot that is written. *)
Lemma hooked_written l a w s m' ps : hooked l s -> In a T -> load_word s.(elf_mem) a = Some w -> w <> replace_func ->
  overwritten a (word_bytes replace_func) s.(elf_mem) m' -> Forall (fun b => b = true) ps ->
  hooked (l ++ [a]) (mkElfProcess m' (if s.(old_func) =? 0 then w else s.(old_func)) ps).
Proof.
  intros [Hin Hdone Htodo Hrest Hmap Hold Hprot] Ha Hw Hne Ho Hps.
  assert (forall x, ~ a <= x < a + 4 -> m' x = s.(elf_mem) x) as Hout by (intros x Hx; rewrite (Ho x), decide_False by (cbn [length word_bytes]; lia); done).
  assert (load_word m' a = Some replace_func) as Hnew.
  { unfold load_word. pose proof (load_overwritten _ _ _ _ Ho) as Hl. cbn [length word_bytes] in Hl. rewrite Hl. by rewrite words_word_bytes. }
  assert (forall b, In b T -> b <> a -> forall x, b <= x < b + 4 -> m' x = s.(elf_mem) x) as Hother.
  { intros b Hb Hba x Hx. apply Hout. apply (word_apart a b x); [by apply HT|by apply HT|congruence|done]. }
  assert (~ In a l) as Hn by (intros Hl; rewrite Hdone in Hw by done; congruence).
  split; cbn [elf_mem old_func protects].
  - intros b [Hb|[<-|[]]]%in_app_iff; [by apply Hin|done].
  - intros b [Hb|[<-|[]]]%in_app_iff; [|done]. destruct (Z.eq_dec b a) as [->|Hba]; [done|].
    rewrite (load_word_ext b s.(elf_mem)) by (by apply Hother, Hba; apply Hin). by apply Hdone.
  - intros b Hb Hnb. assert (b <> a) as Hba by (intros ->; apply Hnb, in_app_iff; right; by left).
    rewrite (load_word_ext b s.(elf_mem)) by (by apply Hother). apply Htodo; [done|]. intros Hl. apply Hnb, in_app_iff. by left.
  - intros x Hx. rewrite Hout by (by apply Hx). by apply Hrest.
  - intros b Hb x Hx. destruct (Z.eq_dec b a) as [->|Hba]; [|rewrite (Hother b Hb Hba x Hx); by apply (Hmap b Hb)].
    rewrite (Ho x), decide_True by (cbn [length word_bytes]; lia). apply lookup_lt_is_Some_2. cbn [length word_bytes]. lia.
  - assert (word_of a = w) as Hwo by (unfold word_of; by rewrite <- Htodo, Hw).
    rewrite saved_func_snoc, Hold. unfold saving. by rewrite Hwo, (proj2 (Z.eqb_neq _ _) Hne).
  - done.
Qed.

Lemma wp_replaceFunc l a (Q : Z -> elf_process -> Prop) E s : hooked l s -> In a T ->
  (forall s', hooked (l ++ [a]) s' -> Q 0 s') -> wp (replaceFunc a replace_func) Q E s.
Proof.
  intros Hs Ha HQ. pose proof (HT a Ha) as (Ha0 & Ha4 & _ & _). destruct (load_word_mapped _ a (hk_mapped _ _ Hs a Ha)) as [w Hw].
  unfold replaceFunc. wp_step. apply (wp_get_word _ w); [by rewrite u32_small by lia|].
  destruct (Z.eqb_spec w replace_func) as [->|Hne]; [wp_step; by apply HQ, hooked_same|].
  do 2 wp_step. apply wp_bind.
  assert (wp (if old_func s =? 0 then modify (set_old_func w) else ret tt)
    (fun _ s1 => s1 = mkElfProcess s.(elf_mem) (if s.(old_func) =? 0 then w else s.(old_func)) s.(protects)) E s) as Hsave
    by (destruct s; cbn; by destruct (_ =? 0)).
  eapply wp_mono; [exact Hsave| |done]. intros [] s1 ->. do 2 wp_step. do 2 wp_step. cbn [protects].
  pose proof (hk_protects _ _ Hs) as Hprot. assert (default true (head s.(protects)) = true) as -> by (destruct Hprot as [|b bs ->]; done).
  do 2 wp_step. cbn [elf_mem set_protects]. rewrite u32_small by lia.
  destruct (store_bytes_spec (word_bytes replace_func) a s.(elf_mem)) as (m' & Hst & Ho); [by apply (hk_mapped _ _ Hs)|].
  wp_step. apply wp_of_option with (1 := Hst). do 3 wp_step. apply HQ.
  apply (hooked_written l a w s m'); [done|done|done|done|done|]. by destruct Hprot.
Qed.
(** The table at [a] lies apart from the slots. *)
Definition table_apart (a : Z) (n : nat) : Prop :=
  forall k x b, 0 <= k < 2 * Z.of_nat n -> u32 (a + 4 * k) <= x < u32 (a + 4 * k) + 4 -> In b T -> ~ b <= x < b + 4.

Lemma table_apart_next a n : table_apart a (S n) -> table_apart (a + 8) n.
Proof. intros Hap k x b Hk. replace (a + 8 + 4 * k) with (a + 4 * (k + 2)) by lia. apply Hap. lia. Qed.

Lemma apart_word l s a n k : hooked l s -> table_apart a n -> 0 <= k < 2 * Z.of_nat n ->
  load_word s.(elf_mem) (u32 (a + 4 * k)) = load_word s0.(elf_mem) (u32 (a + 4 * k)).
Proof. intros Hs Hap Hk. apply load_word_ext. intros x Hx. apply (hk_rest _ _ Hs). intros b Hb. by apply (Hap k x b). Qed.

Section Loops.
Context (base symidx : Z).

Lemma wp_hook_plt rels : forall a (Q : bool -> elf_process -> Prop) E s,
  pairs_at s0.(elf_mem) a rels -> table_apart a (length rels) -> hooked [] s ->
  incl (match find (is_plt symidx) rels with Some r => [base + r.1] | None => [] end) T ->
  (forall s', hooked (match find (is_plt symidx) rels with Some r => [base + r.1] | None => [] end) s' -> Q true s') ->
  wp (hook_plt (length rels) base a symidx replace_func) Q E s.
Proof.
  induction rels as [|[off inf] rels IH]; intros a Q E s Hat Hap Hs Hin HQ; cbn [hook_plt length find] in *; [wp_step; by apply HQ|].
  destruct Hat as (Hoff & Hinf & Hat). wp_step.
  apply (wp_get_word _ inf); [change (a + 4) with (a + 4 * 1); rewrite (apart_word _ _ a (S (length rels)) 1 Hs Hap) by lia; done|].
  unfold is_plt at 1 in Hin. unfold is_plt at 1 in HQ. cbn [snd fst] in *. destruct (_ && _).
  - wp_step. apply (wp_get_word _ off); [rewrite <- (Z.add_0_r a); change 0 with (4 * 0); rewrite (apart_word _ _ a (S (length rels)) 0 Hs Hap) by lia;
      by rewrite Z.add_0_r|]. wp_step.
    apply (wp_replaceFunc []); [done|apply Hin; by left|]. intros s' Hs'. wp_step. by apply HQ.
  - apply IH; [done|by apply table_apart_next|done|done|done].
Qed.

Lemma wp_hook_dyn rels : forall a l (Q : unit -> elf_process -> Prop) E s,
  pairs_at s0.(elf_mem) a rels -> table_apart a (length rels) -> hooked l s -> incl (dyn_slots base symidx rels) T ->
  (forall s', hooked (l ++ dyn_slots base symidx rels) s' -> Q tt s') ->
  wp (hook_dyn (length rels) base a symidx replace_func) Q E s.
Proof.
  unfold dyn_slots. induction rels as [|[off inf] rels IH]; intros a l Q E s Hat Hap Hs Hin HQ; cbn [hook_dyn length List.filter] in *.
  { wp_step. apply HQ. by rewrite app_nil_r. }
  destruct Hat as (Hoff & Hinf & Hat). wp_step.
  apply (wp_get_word _ inf); [change (a + 4) with (a + 4 * 1); rewrite (apart_word _ _ a (S (length rels)) 1 Hs Hap) by lia; done|].
  unfold is_dyn at 1 in Hin. unfold is_dyn at 1 in HQ. cbn [snd fst] in *. destruct (_ && _).
  - wp_step. apply (wp_get_word _ off); [rewrite <- (Z.add_0_r a); change 0 with (4 * 0); rewrite (apart_word _ _ a (S (length rels)) 0 Hs Hap) by lia;
      by rewrite Z.add_0_r|]. wp_step.
    apply (wp_replaceFunc l); [done|apply Hin; by left|]. intros s' Hs'. apply (IH _ (l ++ [base + off])); [done|by apply table_apart_next|done| |].
    + intros b Hb. apply Hin. by right.
    + intros s1 Hs1. apply HQ. by rewrite <- app_assoc in Hs1.
  - by apply (IH _ l); [|apply table_apart_next| | |].
Qed.
End Loops.
End Slots.
