(* ===== verification/ElfRedirect.v ===== *)
(** * libmemcheck: hooks of imported functions, whole

    The dynamic section of an image in memory ([image_at], [info_of]); that
    [elfHook] redirects the slots of the symbol and nothing else
    ([elfHook_redirects]); and that it needs a System V hash table
    ([hash_table_needed]). *)

From stdpp Require Import base numbers list list_numbers.
From Stdlib Require Import Lia ZArith.
From S2P Require Import Prelude Relocate InlineHook HookTable HookCycle ElfHook ElfProps.

#[local] Open Scope Z_scope.
#[local] Open Scope c_scope.

(** ** The image *)

(** The value of the last entry with the tag. *)
Definition dyn_val (ents : list (Z * Z)) (tag : Z) : option Z :=
  fold_left (fun v e => if e.1 =? tag then Some e.2 else v) ents None.

(** What the dynamic section says of the library at [base]. *)
Definition info_of (m : Z -> option Z) (base : Z) (ents : list (Z * Z)) : ElfInfo :=
  let ptr tag := (fun v => u32 (base + v)) <$> dyn_val ents tag in
  let count tag := (fun v => v / 8) <$> dyn_val ents tag in
  let hash := ptr DT_HASH in
  let n := a ← hash; load_word m (u32 a) in
  mkElfInfo base (ptr DT_SYMTAB) (ptr DT_STRTAB) (ptr DT_JMPREL) (count DT_PLTRELSZ) (ptr DT_REL) (count DT_RELSZ)
    n (a ← hash; load_word m (u32 (a + 4))) ((fun a => u32 (a + 8)) <$> hash) (a ← hash; (fun n => u32 (a + 8 + 4 * n)) <$> n).

(** The program headers at [a]: type, address and size in memory. *)
Fixpoint segments_at (m : Z -> option Z) (a : Z) (segs : list (Z * Z * Z)) : Prop :=
  match segs with
  | [] => True
  | (type, vaddr, size) :: segs =>
      load_word m (u32 a) = Some type /\ load_word m (u32 (a + 8)) = Some vaddr /\ load_word m (u32 (a + 20)) = Some size /\
      segments_at m (a + 32) segs
  end.

Definition is_dynamic (g : Z * Z * Z) : bool := g.1.1 =? PT_DYNAMIC.

Record image_at (m : Z -> option Z) (base : Z) (ents : list (Z * Z)) : Prop := {
  im_segs : exists phoff lo hi segs, load_word m (u32 (base + 28)) = Some phoff /\ load_bytes 2 (u32 (base + 44)) m = Some [lo; hi] /\
    lo + 256 * hi = Z.of_nat (length segs) /\ segments_at m (base + phoff) segs /\
    exists g, find is_dynamic segs = Some g /\ g.2 / 8 = Z.of_nat (length ents) /\ pairs_at m (u32 (base + g.1.2)) ents;
  im_hash : forall v, In (DT_HASH, v) ents ->
    is_Some (load_word m (u32 (u32 (base + v)))) /\ is_Some (load_word m (u32 (u32 (base + v) + 4)))
}.

Section Image.
Context (base : Z).

Lemma wp_findSegment segs : forall a (Q : option Z -> elf_process -> Prop) E s g,
  segments_at s.(elf_mem) a segs -> find is_dynamic segs = Some g ->
  (forall phdr, load_word s.(elf_mem) (u32 (phdr + 8)) = Some g.1.2 -> load_word s.(elf_mem) (u32 (phdr + 20)) = Some g.2 -> Q (Some phdr) s) ->
  wp (findSegmentByType_from (length segs) a PT_DYNAMIC) Q E s.
Proof.
  induction segs as [|[[ty va] sz] segs IH]; intros a Q E s g Hat Hg HQ; [done|]. cbn [findSegmentByType_from length find segments_at] in *.
  destruct Hat as (Hty & Hva & Hsz & Hat). wp_step. apply (wp_get_word _ ty); [done|]. unfold is_dynamic at 1 in Hg. cbn [fst snd] in Hg.
  destruct (ty =? PT_DYNAMIC); [injection Hg as <-; wp_step; by apply HQ|by apply (IH _ _ _ _ g)].
Qed.

Lemma dyn_val_snoc ents e tag : dyn_val (ents ++ [e]) tag = if e.1 =? tag then Some e.2 else dyn_val ents tag.
Proof. unfold dyn_val. by rewrite fold_left_app. Qed.

(** An entry of the dynamic section is read. *)
Lemma wp_read_dyn ents e d (Q : ElfInfo -> elf_process -> Prop) E s :
  pairs_at s.(elf_mem) d [e] -> 
  (e.1 = DT_HASH -> is_Some (load_word s.(elf_mem) (u32 (u32 (base + e.2)))) /\ is_Some (load_word s.(elf_mem) (u32 (u32 (base + e.2) + 4)))) ->
  Q (info_of s.(elf_mem) base (ents ++ [e])) s -> wp (read_dyn (info_of s.(elf_mem) base ents) d) Q E s.
Proof.
  destruct e as [tag val]. intros (Htag & Hval & _) Hh HQ. cbn [fst snd] in *. unfold read_dyn. wp_step. apply (wp_get_word _ tag); [done|].
  wp_step. apply (wp_get_word _ val); [done|]. unfold info_of in HQ |- *. rewrite !dyn_val_snoc in HQ. cbn [fst snd] in HQ.
  destruct (Z.eqb_spec tag DT_SYMTAB) as [->|_]; [by wp_step|]. destruct (Z.eqb_spec tag DT_STRTAB) as [->|_]; [by wp_step|].
  destruct (Z.eqb_spec tag DT_REL) as [->|_]; [by wp_step|]. destruct (Z.eqb_spec tag DT_RELSZ) as [->|_]; [by wp_step|].
  destruct (Z.eqb_spec tag DT_JMPREL) as [->|_]; [by wp_step|]. destruct (Z.eqb_spec tag DT_PLTRELSZ) as [->|_]; [by wp_step|].
  destruct (Z.eqb_spec tag DT_HASH) as [->|_]; [|by wp_step]. destruct (Hh eq_refl) as [[n Hn] [k Hk]].
  wp_step. apply (wp_get_word _ n); [done|]. wp_step. apply (wp_get_word _ k); [done|]. wp_step. cbn in HQ. by rewrite Hn, Hk in HQ.
Qed.

Lemma wp_read_all ents : forall i done d (Q : ElfInfo -> elf_process -> Prop) E s,
  pairs_at s.(elf_mem) (d + 8 * i) ents ->
  (forall v, In (DT_HASH, v) ents ->
    is_Some (load_word s.(elf_mem) (u32 (u32 (base + v)))) /\ is_Some (load_word s.(elf_mem) (u32 (u32 (base + v) + 4)))) ->
  Q (info_of s.(elf_mem) base (done ++ ents)) s ->
  wp (foldM (fun info i => read_dyn info (d + 8 * i)) (seqZ i (Z.of_nat (length ents))) (info_of s.(elf_mem) base done)) Q E s.
Proof.
  induction ents as [|e ents IH]; intros i done d Q E s Hat Hh HQ; [by rewrite app_nil_r in HQ|].
  rewrite seqZ_cons by (cbn [length]; lia). cbn [foldM]. wp_step. destruct e as [tag val]. destruct Hat as (Htag & Hval & Hat).
  apply (wp_read_dyn done (tag, val)); [by repeat split|cbn [fst snd]; intros ->; apply Hh; by left|].
  replace (Z.pred (Z.of_nat (length ((tag, val) :: ents)))) with (Z.of_nat (length ents)) by (cbn [length]; lia).
  apply IH; [by replace (d + 8 * Z.succ i) with (d + 8 * i + 8) by lia|intros v Hv; apply Hh; by right|by rewrite <- app_assoc].
Qed.

(** The dynamic section is read. *)
Lemma wp_info ents (Q : ElfInfo -> elf_process -> Prop) E s : image_at s.(elf_mem) base ents -> Q (info_of s.(elf_mem) base ents) s ->
  wp (getElfInfoBySegmentView base) Q E s.
Proof.
  intros [(phoff & lo & hi & segs & Hph & Hnum & Hlen & Hsegs & g & Hg & Hsize & Hents) Hh] HQ.
  unfold getElfInfoBySegmentView, getSegmentInfo, findSegmentByType. do 3 wp_step. apply (wp_get_word _ phoff); [done|]. wp_step.
  unfold get_half. do 2 wp_step. wp_step. apply wp_of_option with (1 := Hnum). wp_step. rewrite Hlen, Nat2Z.id.
  apply (wp_findSegment segs _ _ _ _ g); [done|done|]. intros phdr Hva Hsz. wp_step. apply (wp_get_word _ g.1.2); [done|].
  wp_step. apply (wp_get_word _ g.2); [done|]. wp_step. rewrite Hsize.
  apply (wp_read_all ents 0 []); [by rewrite Z.mul_0_r, Z.add_0_r|done|done].
Qed.
End Image.

(** ** The hook *)

(** The slots of the symbol [i] of a library: mapped words, apart from the tables. *)
Record slots_ok (s : elf_process) (base : Z) (info : ElfInfo) (L : library) (i : Z) : Prop := {
  so_words : forall a, In a (slots base L i) -> slot_ok s a;
  so_plt : forall a, info.(relplt) = Some a -> table_apart (slots base L i) a (length L.(lb_plt));
  so_dyn : forall a, info.(reldyn) = Some a -> table_apart (slots base L i) a (length L.(lb_dyn))
}.

Lemma wp_table m T (Q : Z * nat -> elf_process -> Prop) E s addr size l : table_at m addr size l ->
  (forall a, addr = Some a -> table_apart T a (length l)) ->
  (forall a, pairs_at m a l -> table_apart T a (length l) -> Q (a, length l) s) -> wp (table addr size) Q E s.
Proof.
  intros [-> Hor] Hap HQ. unfold table. cbn [of_option]. do 2 wp_step. destruct (Z.eqb_spec (Z.of_nat (length l)) 0) as [He|].
  - wp_step. destruct l; [|cbn [length] in He; lia]. apply (HQ 0); [done|]. intros k x b Hk. cbn in Hk. lia.
  - destruct Hor as [->|(a & Ha & Hat)]; [done|]. rewrite Ha. cbn [of_option]. do 2 wp_step. wp_step. rewrite Nat2Z.id. apply HQ; [done|by apply Hap].
Qed.

Section Hook.
Context (lines : list (list Z)) (soname : option (list Z)) (symbol : list Z) (replace_func base : Z) (ents : list (Z * Z)) (s : elf_process).
Context (Hopen : openElfBySoname lines soname = Some base) (Himage : image_at s.(elf_mem) base ents).

(** C27. The contract of [elfHook] on a library that is loaded at [base], with
    its symbols, strings and relocations where its dynamic section says
    ([library_at]), and that has a System V hash table in which every symbol
    is on the chain of its bucket ([hash_ok]; without one the call reads
    through a null pointer, see [hash_table_needed]), where every [mprotect]
    succeeds, the name is not empty, the slots are mapped words and do not lie
    in the tables of relocations. It returns 0 in every case; if the library
    has no symbol of the name, the process is as before; if it has, the
    relocation slots of the symbol that are looked at (only the first jump
    slot of .rel.plt, but every absolute and GOT slot of .rel.dyn) hold the
    new function, no other byte of memory has changed, and [*old_func] is what
    the first of them held, unless it was set before, when it is kept. *)
Theorem elfHook_redirects fuel L :
  library_at s.(elf_mem) (info_of s.(elf_mem) base ents) L -> hash_ok L ->
  symbol <> [] -> Forall (fun c => 0 < c < 256) symbol -> 0 <= replace_func < 4294967296 ->
  (length L.(lb_names) < fuel)%nat -> Forall (fun b => b = true) s.(protects) ->
  (forall i, aget L.(lb_names) i = Some symbol -> slots_ok s base (info_of s.(elf_mem) base ents) L i) ->
  exists s', elfHook fuel lines soname symbol replace_func s = (Returns 0, s') /\
    (((forall i, aget L.(lb_names) i <> Some symbol) /\ s' = s) \/
     exists i, aget L.(lb_names) i = Some symbol /\ hooked replace_func s (slots base L i) (slots base L i) s').
Proof.
  intros Hlib Hok Hne Hstr Hr Hf Hprot Hslots.
  set (P r s' := r = 0 /\ (((forall i, aget (lb_names L) i <> Some symbol) /\ s' = s) \/
    exists i, aget (lb_names L) i = Some symbol /\ hooked replace_func s (slots base L i) (slots base L i) s')).
  enough (wp (elfHook fuel lines soname symbol replace_func) P (fun _ => False) s) as (r & s' & Hrun & -> & HP)%wp_returns by eauto.
  unfold elfHook. rewrite Hopen. wp_step. apply (wp_info base ents); [done|]. wp_step.
  apply (wp_findSymByName _ L symbol Hok (conj Hne Hstr)); [done|done|]. intros [i|] Hi.
  2:{ wp_step. split; [done|]. left. split; [|done]. intros i He. specialize (Hi i). by apply bool_decide_eq_false in Hi. }
  apply bool_decide_eq_true in Hi. destruct (Hslots i Hi) as [Hw Hplt Hdyn].
  wp_step. apply (wp_table s.(elf_mem) (slots base L i) _ _ _ _ _ _ (at_plt _ _ _ Hlib) Hplt). intros a Ha Hap. wp_step.
  apply (wp_hook_plt replace_func Hr s (slots base L i) Hw); [done|done|by apply hooked_nil|intros b Hb; apply in_app_iff; by left|].
  intros s1 Hs1. wp_step. wp_step. apply (wp_table s.(elf_mem) (slots base L i) _ _ _ _ _ _ (at_dyn _ _ _ Hlib) Hdyn). intros d Hd Hdap.
  apply (wp_hook_dyn replace_func Hr s (slots base L i) Hw _ _ _ _ (plt_slot base L i)); [done|done|done|intros b Hb; apply in_app_iff; by right|].
  intros s2 Hs2. wp_step. split; [done|]. right. by exists i.
Qed.

(** The hook needs a System V hash table: without a DT_HASH entry (a library
    linked with [--hash-style=gnu]) the bucket table it searches is an
    uninitialised field of a local variable. *)
Theorem hash_table_needed fuel : dyn_val ents DT_HASH = None -> fst (elfHook fuel lines soname symbol replace_func s) = Stuck.
Proof.
  intros Hno. destruct (wp_returns (getElfInfoBySegmentView base) (fun info s' => info = info_of s.(elf_mem) base ents /\ s' = s) s)
    as (info & s' & Hrun & -> & ->); [by apply (wp_info base ents)|].
  unfold elfHook. rewrite Hopen. unfold bind at 1. rewrite Hrun. unfold findSymByName, info_of. rewrite Hno. done.
Qed.
End Hook.

(** ** A library with one symbol, "ab", at 0x8000 *)

Module Demo.
Definition words_of_image : list Z :=
  [0; 0; 0; 0; 0; 0; 0; 52; 0; 0; 0; 1; 0] ++ [2; 0; 84; 0; 0; 64; 0; 0] ++
  [DT_SYMTAB; 148; DT_STRTAB; 180; DT_JMPREL; 204; DT_PLTRELSZ; 8; DT_REL; 212; DT_RELSZ; 8; DT_HASH; 184; 0; 0] ++
  [0; 0; 0; 0; 1; 0; 0; 0] ++ [256 * 97 + 65536 * 98] ++ [1; 2; 1; 0; 0] ++ [220; 256 + R_ARM_JUMP_SLOT] ++ [224; 256 + R_ARM_GLOB_DAT] ++
  [0x1000; 0x1000].
Definition image : list Z := mjoin (word_bytes <$> words_of_image).
Definition mem : Z -> option Z := fun x => aget image (x - 0x8000).
Definition process : elf_process := mkElfProcess mem 0 [true; true].
Definition ents : list (Z * Z) :=
  [(DT_SYMTAB, 148); (DT_STRTAB, 180); (DT_JMPREL, 204); (DT_PLTRELSZ, 8); (DT_REL, 212); (DT_RELSZ, 8); (DT_HASH, 184); (0, 0)].
Definition lib : library := mkLibrary [[]; [97; 98]] [1] [0; 0] [(220, 256 + R_ARM_JUMP_SLOT)] [(224, 256 + R_ARM_GLOB_DAT)].
Definition symbol : list Z := [97; 98].
(** "00008000-00009000 ab" *)
Definition lines : list (list Z) := [[48; 48; 48; 48; 56; 48; 48; 48; 45; 48; 48; 48; 48; 57; 48; 48; 48; 32; 97; 98]].

Lemma demo_image : image_at mem 0x8000 ents.
Proof.
  split.
  - exists 52, 1, 0, [(2, 84, 64)]. do 3 (split; [vm_compute; reflexivity|]). split; [vm_compute; repeat split|].
    exists (2, 84, 64). split; [done|]. split; [done|]. vm_compute. repeat split.
  - intros v Hv. assert (v = 184) as -> by (repeat (destruct Hv as [Hv|Hv]; [by injection Hv|]); destruct Hv). vm_compute. split; by eexists.
Qed.

Lemma cases_2 {A} (x y : A) (i : Z) (w : A) : aget [x; y] i = Some w -> i = 0 /\ w = x \/ i = 1 /\ w = y.
Proof.
  intros Ha. pose proof (aget_lt _ _ _ Ha) as Hi. cbn [length] in Hi. assert (i = 0 \/ i = 1) as [-> | ->] by lia; injection Ha; auto.
Qed.

Lemma cases_1 {A} (x : A) (i : Z) (w : A) : aget [x] i = Some w -> i = 0 /\ w = x.
Proof. intros Ha. pose proof (aget_lt _ _ _ Ha) as Hi. cbn [length] in Hi. assert (i = 0) as -> by lia. by injection Ha. Qed.

Lemma demo_library : library_at mem (info_of mem 0x8000 ents) lib.
Proof.
  split.
  - exists 32960, 32964. do 3 (split; [vm_compute; reflexivity|]). split.
    + by intros i w [-> ->]%cases_1.
    + by intros i w [[-> ->]|[-> ->]]%cases_2.
  - exists 32916, 32948. do 2 (split; [vm_compute; reflexivity|]). intros i name [[-> ->]|[-> ->]]%cases_2; eexists; (split; [vm_compute; reflexivity|]).
    + by intros [|[|]] b Hb.
    + by intros [|[|[|[|]]]] b Hb.
  - split; [vm_compute; reflexivity|]. right. exists 32972. split; [vm_compute; reflexivity|]. vm_compute. repeat split.
  - split; [vm_compute; reflexivity|]. right. exists 32980. split; [vm_compute; reflexivity|]. vm_compute. repeat split.
Qed.

Lemma demo_hash : hash_ok lib.
Proof.
  split; [done|done|by repeat constructor| |].
  - intros k head [-> ->]%cases_1. exists [1]. split; [eapply path_next; [done|done|constructor]|]. split; [by apply NoDup_singleton|]. by repeat constructor.
  - intros i name k head p Hi [[-> ->]|[-> ->]]%cases_2 _ [-> ->]%cases_1 Hp; [done|]. inversion Hp; subst. by left.
Qed.

Lemma demo_slots i : aget (lb_names lib) i = Some symbol -> slots_ok process 0x8000 (info_of mem 0x8000 ents) lib i.
Proof.
  intros [[-> He]|[-> _]]%cases_2; [done|]. assert (slots 0x8000 lib 1 = [32988; 32992]) as Hs by (vm_compute; reflexivity). split; rewrite Hs.
  - intros a [<-|[<-|[]]]; (repeat split; [done|done|]); intros x Hx; (assert (x = 32988 \/ x = 32989 \/ x = 32990 \/ x = 32991 \/
      x = 32992 \/ x = 32993 \/ x = 32994 \/ x = 32995) as Hc by lia); repeat (destruct Hc as [->|Hc]; [vm_compute; by eexists|]); subst; vm_compute; by eexists.
  - intros a [= <-] k x b Hk Hx [<-|[<-|[]]]; cbn [length lb_plt lib] in Hk; change (u32 (32768 + 204)) with 32972 in Hx; rewrite u32_small in Hx by lia; lia.
  - intros a [= <-] k x b Hk Hx [<-|[<-|[]]]; cbn [length lb_dyn lib] in Hk; change (u32 (32768 + 212)) with 32980 in Hx; rewrite u32_small in Hx by lia; lia.
Qed.
End Demo.

Lemma elfHook_redirects_witness : exists s', elfHook 5 Demo.lines (Some Demo.symbol) Demo.symbol 0x2000 Demo.process = (Returns 0, s') /\
  load_word s'.(elf_mem) 32988 = Some 0x2000 /\ load_word s'.(elf_mem) 32992 = Some 0x2000 /\ s'.(old_func) = 0x1000.
Proof.
  destruct (elfHook_redirects Demo.lines (Some Demo.symbol) Demo.symbol 0x2000 0x8000 Demo.ents Demo.process eq_refl Demo.demo_image 5 Demo.lib
    Demo.demo_library Demo.demo_hash ltac:(done) ltac:(by repeat constructor) ltac:(done) ltac:(cbn; lia) ltac:(by repeat constructor) Demo.demo_slots)
    as (s' & Hrun & [[Hno _]|(i & Hi & Hh)]); [by destruct (Hno 1)|].
  assert (i = 1) as -> by (apply Demo.cases_2 in Hi as [[-> He]|[-> _]]; done).
  exists s'. split; [exact Hrun|]. split; [apply (hk_done _ _ _ _ _ Hh); by left|]. split; [apply (hk_done _ _ _ _ _ Hh); right; by left|].
  rewrite (hk_old _ _ _ _ _ Hh). vm_compute. reflexivity.
Defined.

(** The same library, its hash table a GNU one (tag 0x6ffffef5). *)
Definition gnu_image : list Z :=
  mjoin (word_bytes <$> (take 33 Demo.words_of_image ++ [0x6ffffef5] ++ drop 34 Demo.words_of_image)).
Definition gnu_process : elf_process := mkElfProcess (fun x => aget gnu_image (x - 0x8000)) 0 [true; true].
Definition gnu_ents : list (Z * Z) := take 6 Demo.ents ++ [(0x6ffffef5, 184); (0, 0)].

Lemma gnu_image_at : image_at gnu_process.(elf_mem) 0x8000 gnu_ents.
Proof.
  split.
  - exists 52, 1, 0, [(2, 84, 64)]. do 3 (split; [vm_compute; reflexivity|]). split; [vm_compute; repeat split|].
    exists (2, 84, 64). split; [done|]. split; [done|]. vm_compute. repeat split.
  - intros v Hv. exfalso. repeat (destruct Hv as [Hv|Hv]; [done|]). destruct Hv.
Qed.

Lemma hash_table_needed_witness : fst (elfHook 5 Demo.lines (Some Demo.symbol) Demo.symbol 0x2000 gnu_process) = Stuck.
Proof. exact (hash_table_needed Demo.lines (Some Demo.symbol) Demo.symbol 0x2000 0x8000 gnu_ents gnu_process eq_refl gnu_image_at 5 eq_refl). Defined.
