(* ===== verification/Utf.v ===== *)
(** * UTF-16 to UTF-8 (libcrash_collect/utils/utf.cpp)

    The conversion of the strings that Java hands to the crash collector, and
    the two encodings of the Unicode standard ([utf8], [utf16]) it is between. *)

From stdpp Require Import base numbers list list_numbers.
From Stdlib Require Import Lia ZArith.
From S2P Require Import Prelude.

#[local] Open Scope Z_scope.
#[local] Open Scope c_scope.

(** ** The code *)

Definition kFirstByteMark : list Z := [0x00; 0x00; 0xC0; 0xE0; 0xF0].
Definition kByteMask := 0xBF.
Definition kByteMark := 0x80.
Definition kUnicodeSurrogateStart := 0xD800.
Definition kUnicodeSurrogateEnd := 0xDFFF.
Definition kUnicodeMaxCodepoint := 0x10FFFF.

(** One [*--dstP = v], with the character shifted for the next one. *)
Definition put_continuation (p : Z * Z) : M (list Z) (Z * Z) :=
  let '(dstP, srcChar) := p in
  let! d := gets (fun d => d) in
  let! d' := of_option (aset d (dstP - 1) (u8 (Z.land (Z.lor srcChar kByteMark) kByteMask))) in
  modify (fun _ => d') ;;!
  ret (dstP - 1, Z.shiftr srcChar 6).

Definition put_first (bytes : Z) (p : Z * Z) : M (list Z) unit :=
  let '(dstP, srcChar) := p in
  let! mark := of_option (aget kFirstByteMark bytes) in
  let! d := gets (fun d => d) in
  let! d' := of_option (aset d (dstP - 1) (u8 (Z.lor srcChar mark))) in
  modify (fun _ => d').

(** The state is the memory at [dst]; the cases of the switch fall through. *)
Definition utf32_to_utf8 (dstP srcChar bytes : Z) : M (list Z) unit :=
  let p := (dstP + bytes, srcChar) in
  if bytes =? 4 then
    let! p := put_continuation p in let! p := put_continuation p in let! p := put_continuation p in put_first bytes p
  else if bytes =? 3 then
    let! p := put_continuation p in let! p := put_continuation p in put_first bytes p
  else if bytes =? 2 then let! p := put_continuation p in put_first bytes p
  else if bytes =? 1 then put_first bytes p
  else ret tt.

Definition utf32_to_utf8_bytes (srcChar : Z) : Z :=
  if srcChar <? 0x80 then 1
  else if srcChar <? 0x800 then 2
  else if srcChar <? 0x10000 then
    if (srcChar <? kUnicodeSurrogateStart) || (kUnicodeSurrogateEnd <? srcChar) then 3 else 0
  else if srcChar <=? kUnicodeMaxCodepoint then 4
  else 0.

(** The value made of two units, whatever the second is. *)
Definition surrogate_pair (c0 c1 : Z) : Z :=
  u32 (Z.lor (u32 (Z.shiftl (c0 - 0xD800) 10)) (u32 (c1 - 0xDC00)) + 0x10000).

Definition is_high (c : Z) : bool := Z.land c 0xFC00 =? 0xD800.

Definition put_char (cur utf32 : Z) : M (list Z) Z :=
  let len := utf32_to_utf8_bytes utf32 in
  utf32_to_utf8 cur utf32 len ;;!
  ret (cur + len).

Fixpoint utf16_loop (src : list Z) (cur end_ : Z) : M (list Z) Z :=
  match src with
  | [] => ret cur
  | c0 :: src1 =>
      if end_ <=? cur then ret cur else
      match src1 with
      | c1 :: src2 =>
          if is_high c0 then let! cur := put_char cur (surrogate_pair c0 c1) in utf16_loop src2 cur end_
          else let! cur := put_char cur c0 in utf16_loop src1 cur end_
      | [] => let! cur := put_char cur c0 in utf16_loop src1 cur end_
      end
  end.

Definition terminate (cur end_ : Z) : M (list Z) unit :=
  if cur <? end_ then
    let! d := gets (fun d => d) in
    let! d' := of_option (aset d cur 0) in
    modify (fun _ => d')
  else ret tt.

(** [None] is a null pointer; [src] has [src_len] units, the state is [dst]. *)
Definition utf16_to_utf8 (src : option (list Z)) (dst_null : bool) (dst_len : Z) : M (list Z) Z :=
  match src with
  | None => ret 0
  | Some s =>
      if (Z.of_nat (length s) =? 0) || dst_null || (dst_len =? 0) then ret 0
      else
        let! cur := utf16_loop s 0 dst_len in
        terminate cur dst_len ;;!
        ret cur
  end.

(** ** The encodings of the standard *)

(** A Unicode scalar value. *)
Definition scalar (c : Z) : Prop := 0 <= c < 0xD800 \/ 0xE000 <= c <= 0x10FFFF.

Definition utf8 (c : Z) : list Z :=
  if c <? 0x80 then [c]
  else if c <? 0x800 then [0xC0 + c / 64; 0x80 + c mod 64]
  else if c <? 0x10000 then [0xE0 + c / 4096; 0x80 + c / 64 mod 64; 0x80 + c mod 64]
  else [0xF0 + c / 262144; 0x80 + c / 4096 mod 64; 0x80 + c / 64 mod 64; 0x80 + c mod 64].

Definition utf16 (c : Z) : list Z :=
  if c <? 0x10000 then [c] else [0xD800 + (c - 0x10000) / 1024; 0xDC00 + (c - 0x10000) mod 1024].

Definition utf8_string (cs : list Z) : list Z := cs ≫= utf8.
Definition utf16_string (cs : list Z) : list Z := cs ≫= utf16.

(** ** One character *)

Lemma continuation_byte c : 0 <= c -> u8 (Z.land (Z.lor c kByteMark) kByteMask) = 0x80 + c mod 64.
Proof.
  intros Hc. assert (Z.land (Z.lor c 128) 191 = Z.lor (Z.land c 63) (Z.shiftl 1 7)) as H.
  { rewrite Z.land_lor_distr_l. change (Z.land 128 191) with 128. change (Z.shiftl 1 7) with 128.
    change 191 with (Z.lor 63 128) at 1. rewrite Z.land_lor_distr_r, <- Z.lor_assoc. f_equal.
    apply Z.bits_inj'. intros n Hn. rewrite Z.lor_spec, Z.land_spec. by destruct (Z.testbit c n), (Z.testbit 128 n). }
  change 63 with (Z.ones 6) in H. rewrite Z.land_ones in H by lia. change (2 ^ 6) with 64 in H.
  pose proof (Z.mod_pos_bound c 64). unfold kByteMark, kByteMask. rewrite H, lor_shiftl by (change (2 ^ 7) with 128; lia).
  change (2 ^ 7) with 128. rewrite u8_small by lia. lia.
Qed.

Lemma wp_put_continuation pre front x t c (Q : Z * Z -> list Z -> Prop) E p : p = (Z.of_nat (length pre + length front) + 1, c) -> 0 <= c ->
  Q (Z.of_nat (length pre + length front), c / 64) (pre ++ front ++ (0x80 + c mod 64) :: t) ->
  wp (put_continuation p) Q E (pre ++ front ++ x :: t).
Proof.
  intros -> Hc HQ. rewrite <- length_app in *. rewrite app_assoc in *. unfold put_continuation. wp_steps. eapply wp_of_option.
  - rewrite continuation_byte by done. apply aset_behind. lia.
  - wp_steps. rewrite Z.shiftr_div_pow2 by lia. by replace (Z.of_nat (length (pre ++ front)) + 1 - 1) with (Z.of_nat (length (pre ++ front))) by lia.
Qed.

Lemma wp_put_first l x t bytes mark c (Q : unit -> list Z -> Prop) E p : p = (Z.of_nat (length l) + 1, c) ->
  aget kFirstByteMark bytes = Some mark ->
  Q tt (l ++ u8 (Z.lor c mark) :: t) -> wp (put_first bytes p) Q E (l ++ x :: t).
Proof.
  intros -> Hm HQ. unfold put_first. wp_steps. eapply wp_of_option; [done|]. wp_steps.
  eapply wp_of_option; [apply aset_behind; lia|]. by wp_steps.
Qed.

(** The lead byte: the mark has the bits that the character leaves free. *)
Lemma first_byte c mark k : 0 <= k -> 0 <= c < 2 ^ k -> Z.shiftl (Z.shiftr mark k) k = mark -> 0 <= c + mark < 256 ->
  u8 (Z.lor c mark) = mark + c.
Proof.
  intros Hk Hc Hm Hn. rewrite <- Hm, lor_shiftl by lia. rewrite Z.shiftl_mul_pow2 in Hm by lia. rewrite <- Hm in Hn.
  rewrite u8_small by lia. rewrite Z.shiftl_mul_pow2 by lia. lia.
Qed.

Lemma utf8_length c : scalar c -> Z.of_nat (length (utf8 c)) = utf32_to_utf8_bytes c.
Proof.
  unfold scalar, utf8, utf32_to_utf8_bytes, kUnicodeSurrogateStart, kUnicodeSurrogateEnd, kUnicodeMaxCodepoint. intros Hc.
  destruct (Z.ltb_spec c 0x80); [done|]. destruct (Z.ltb_spec c 0x800); [done|]. destruct (Z.ltb_spec c 0x10000).
  - destruct (Z.ltb_spec c 0xD800); [done|]. by rewrite (proj2 (Z.ltb_lt _ _)) by lia.
  - by rewrite (proj2 (Z.leb_le _ _)) by lia.
Qed.

(** The encoding of [c] replaces as many bytes behind [pre]. *)
Lemma wp_utf32_to_utf8 pre old t c (Q : unit -> list Z -> Prop) E : scalar c -> length old = length (utf8 c) ->
  Q tt (pre ++ utf8 c ++ t) -> wp (utf32_to_utf8 (Z.of_nat (length pre)) c (utf32_to_utf8_bytes c)) Q E (pre ++ old ++ t).
Proof.
  intros Hc Hold HQ. pose proof (utf8_length c Hc) as Hlen. unfold utf32_to_utf8. rewrite <- Hlen. revert Hold HQ. unfold utf8.
  assert (0 <= c) by (destruct Hc; lia).
  destruct (Z.ltb_spec c 0x80); [|destruct (Z.ltb_spec c 0x800); [|destruct (Z.ltb_spec c 0x10000)]]; cbn [length]; intros Hold HQ.
  - destruct old as [|a [|]]; try done. change (Z.of_nat 1) with 1. cbn [Z.eqb Pos.eqb app].
    eapply wp_put_first; [done|done|]. by rewrite (first_byte c _ 7) by (done || lia).
  - destruct old as [|a [|b [|]]]; try done. change (Z.of_nat 2) with 2. cbn [Z.eqb Pos.eqb app].
    wp_steps. eapply (wp_put_continuation pre [a]); [cbn [length]; f_equal; lia|done|].
    eapply wp_put_first; [cbn [length]; f_equal; lia|done|].
    pose proof (Z.div_pos c 64). assert (c / 64 < 32) by (apply Z.div_lt_upper_bound; lia).
    by rewrite (first_byte (c / 64) _ 6) by (done || change (2 ^ 6) with 64; lia).
  - destruct old as [|a [|b [|d [|]]]]; try done. change (Z.of_nat 3) with 3. cbn [Z.eqb Pos.eqb app].
    pose proof (Z.div_pos c 64). pose proof (Z.div_pos c 4096). assert (c / 4096 < 16) by (apply Z.div_lt_upper_bound; lia).
    wp_steps. eapply (wp_put_continuation pre [a; b]); [cbn [length]; f_equal; lia|done|].
    wp_steps. eapply (wp_put_continuation pre [a]); [cbn [length]; f_equal; lia|lia|].
    eapply wp_put_first; [cbn [length]; f_equal; lia|done|]. rewrite Z.div_div by lia. change (64 * 64) with 4096.
    by rewrite (first_byte (c / 4096) _ 5) by (done || change (2 ^ 5) with 32; lia).
  - assert (c <= 0x10FFFF) by (destruct Hc; lia).
    destruct old as [|a [|b [|d [|e [|]]]]]; try done. change (Z.of_nat 4) with 4. cbn [Z.eqb Pos.eqb app].
    pose proof (Z.div_pos c 64). pose proof (Z.div_pos c 4096). pose proof (Z.div_pos c 262144).
    assert (c / 262144 < 8) by (apply Z.div_lt_upper_bound; lia).
    wp_steps. eapply (wp_put_continuation pre [a; b; d]); [cbn [length]; f_equal; lia|done|].
    wp_steps. eapply (wp_put_continuation pre [a; b]); [cbn [length]; f_equal; lia|lia|].
    wp_steps. rewrite Z.div_div by lia. change (64 * 64) with 4096.
    eapply (wp_put_continuation pre [a]); [cbn [length]; f_equal; lia|lia|].
    eapply wp_put_first; [cbn [length]; f_equal; lia|done|]. rewrite Z.div_div by lia. change (4096 * 64) with 262144.
    by rewrite (first_byte (c / 262144) _ 4) by (done || change (2 ^ 4) with 16; lia).
Qed.

(** ** Surrogates *)

Lemma is_high_spec c : 0 <= c < 0x10000 -> is_high c = (0xD800 <=? c) && (c <? 0xDC00).
Proof.
  intros Hc. unfold is_high.
  assert (Z.land c 0xFC00 = 1024 * (c / 1024)) as -> by (apply (land_high_bits c 10 6); change (2 ^ (10 + 6)) with 0x10000; lia).
  pose proof (Z.mod_pos_bound c 1024). pose proof (Z.div_mod c 1024).
  destruct (Z.eqb_spec (1024 * (c / 1024)) 0xD800), (Z.leb_spec 0xD800 c), (Z.ltb_spec c 0xDC00); cbn [andb]; (done || lia).
Qed.

(** The halves of a supplementary character. *)
Lemma utf16_halves c : 0x10000 <= c <= 0x10FFFF ->
  exists h l, 0 <= h < 1024 /\ 0 <= l < 1024 /\ c = 0x10000 + 1024 * h + l /\ utf16 c = [0xD800 + h; 0xDC00 + l].
Proof.
  intros Hc. exists ((c - 0x10000) / 1024), ((c - 0x10000) mod 1024).
  pose proof (Z.mod_pos_bound (c - 0x10000) 1024). pose proof (Z.div_mod (c - 0x10000) 1024).
  split; [split; [apply Z.div_pos|apply Z.div_lt_upper_bound]; lia|]. split; [lia|]. split; [lia|].
  unfold utf16. by rewrite (proj2 (Z.ltb_ge _ _)) by lia.
Qed.

Lemma surrogate_pair_halves h l : 0 <= h < 1024 -> 0 <= l < 1024 ->
  surrogate_pair (0xD800 + h) (0xDC00 + l) = 0x10000 + 1024 * h + l.
Proof.
  intros Hh Hl. unfold surrogate_pair. replace (0xD800 + h - 0xD800) with h by lia. replace (0xDC00 + l - 0xDC00) with l by lia.
  rewrite (u32_small (Z.shiftl h 10)), (u32_small l) by (try rewrite Z.shiftl_mul_pow2 by lia; lia).
  rewrite Z.lor_comm, lor_shiftl by (change (2 ^ 10) with 1024; lia). change (2 ^ 10) with 1024. rewrite u32_small by lia. lia.
Qed.

Lemma wp_put_char pre old t c (Q : Z -> list Z -> Prop) E : scalar c -> length old = length (utf8 c) ->
  Q (Z.of_nat (length (pre ++ utf8 c))) ((pre ++ utf8 c) ++ t) -> wp (put_char (Z.of_nat (length pre)) c) Q E (pre ++ old ++ t).
Proof.
  intros Hc Hold HQ. unfold put_char. wp_steps. eapply wp_utf32_to_utf8; [done..|]. wp_steps.
  rewrite <- utf8_length by done. by rewrite length_app, Nat2Z.inj_add, <- app_assoc in HQ.
Qed.

Lemma utf8_nonempty c : (0 < length (utf8 c))%nat.
Proof. unfold utf8. repeat destruct (_ <? _); cbn [length]; lia. Qed.

(** One round of the loop takes one character of a well-formed string. *)
Lemma utf16_loop_char c src cur end_ : scalar c -> cur < end_ ->
  utf16_loop (utf16 c ++ src) cur end_ = (let! cur := put_char cur c in utf16_loop src cur end_).
Proof.
  intros Hc Hlt. destruct (decide (c < 0x10000)) as [Hs|Hs].
  - unfold utf16. rewrite (proj2 (Z.ltb_lt _ _)) by lia. cbn [app utf16_loop]. rewrite (proj2 (Z.leb_gt _ _)) by lia.
    destruct src as [|c1 src2]; [done|]. rewrite is_high_spec by (destruct Hc; lia).
    replace ((0xD800 <=? c) && (c <? 0xDC00)) with false; [done|]. symmetry.
    destruct (Z.leb_spec 0xD800 c), (Z.ltb_spec c 0xDC00); try done. destruct Hc; lia.
  - destruct (utf16_halves c) as (h & l & Hh & Hl & Heq & ->); [destruct Hc; lia|].
    cbn [app utf16_loop]. rewrite (proj2 (Z.leb_gt _ _)) by lia. rewrite is_high_spec by lia.
    rewrite (proj2 (Z.leb_le _ _)), (proj2 (Z.ltb_lt _ _)) by lia. cbn [andb]. by rewrite surrogate_pair_halves, <- Heq by lia.
Qed.

Lemma utf16_loop_run cs : forall src pre rest end_, Forall scalar cs ->
  Z.of_nat (length (pre ++ utf8_string cs)) <= end_ -> end_ <= Z.of_nat (length (pre ++ rest)) ->
  utf16_loop (utf16_string cs ++ src) (Z.of_nat (length pre)) end_ (pre ++ rest) =
    utf16_loop src (Z.of_nat (length (pre ++ utf8_string cs))) end_ ((pre ++ utf8_string cs) ++ drop (length (utf8_string cs)) rest).
Proof.
  induction cs as [|c cs IH]; intros src pre rest end_ Hcs Hle Hend.
  - cbn. by rewrite app_nil_r.
  - apply Forall_cons in Hcs as [Hc Hcs]. unfold utf16_string, utf8_string in *. rewrite !bind_cons in *. pose proof (utf8_nonempty c).
    rewrite <- app_assoc. rewrite !length_app in Hle. rewrite length_app in Hend.
    rewrite utf16_loop_char by (done || lia). unfold bind at 1. rewrite <- (take_drop (length (utf8 c)) rest) at 1.
    rewrite (wp_exact _ (Z.of_nat (length (pre ++ utf8 c))) _ ((pre ++ utf8 c) ++ drop (length (utf8 c)) rest))
      by (apply wp_put_char; [done|rewrite length_take; lia|done]).
    rewrite IH; [|done|rewrite !length_app; lia|rewrite !length_app, length_drop; lia].
    by rewrite drop_drop, <- (app_assoc pre), <- length_app.
Qed.

(** What is in the buffer afterwards: the string and, if there is room, the
    terminating zero. *)
Definition with_string (s dst : list Z) (dst_len : Z) : list Z :=
  s ++ (if Z.of_nat (length s) <? dst_len then 0 :: drop (S (length s)) dst else drop (length s) dst).

Lemma wp_terminate pre dst end_ (Q : unit -> list Z -> Prop) E :
  end_ <= Z.of_nat (length dst) -> Z.of_nat (length pre) <= end_ ->
  Q tt (with_string pre dst end_) -> wp (terminate (Z.of_nat (length pre)) end_) Q E (pre ++ drop (length pre) dst).
Proof.
  intros Hend Hpre HQ. unfold terminate, with_string in *. destruct (Z.ltb_spec (Z.of_nat (length pre)) end_); [|by apply wp_ret].
  destruct (drop (length pre) dst) as [|x t] eqn:Hd.
  - apply (f_equal length) in Hd. rewrite length_drop in Hd. cbn [length] in Hd. lia.
  - wp_steps. eapply wp_of_option; [by apply aset_behind|]. wp_steps.
    assert (drop (S (length pre)) dst = t) as <-; [|done].
    replace (S (length pre)) with (length pre + 1)%nat by lia. by rewrite <- drop_drop, Hd.
Qed.

Lemma utf16_to_utf8_run cs dst dst_len :
  Forall scalar cs -> cs <> [] -> 0 < dst_len <= Z.of_nat (length dst) -> Z.of_nat (length (utf8_string cs)) <= dst_len ->
  utf16_to_utf8 (Some (utf16_string cs)) false dst_len dst =
    (Returns (Z.of_nat (length (utf8_string cs))), with_string (utf8_string cs) dst dst_len).
Proof.
  intros Hcs Hne Hdst Hfit. apply wp_exact. unfold utf16_to_utf8.
  assert (0 < length (utf16_string cs))%nat as Hsrc.
  { destruct cs as [|c cs]; [done|]. unfold utf16_string, utf16. rewrite bind_cons, length_app. destruct (_ <? _); cbn [length]; lia. }
  rewrite (proj2 (Z.eqb_neq _ _)), (proj2 (Z.eqb_neq dst_len _)) by lia. cbn [orb]. wp_steps.
  unfold wp. rewrite <- (app_nil_r (utf16_string cs)), (utf16_loop_run cs [] [] dst) by (done || cbn; lia). cbn [app utf16_loop].
  apply wp_ret, wp_bind, wp_terminate; [lia|done|]. by wp_steps.
Qed.

(** C37. A well-formed UTF-16 string that is not empty and whose UTF-8 form
    fits into [dst_len] bytes (and these into the buffer) is converted to the
    UTF-8 encoding of the same characters, zero-terminated if there is room
    behind it, and the result is its length. For what does not fit see
    [utf16_to_utf8_overruns]; for an empty string nothing is written, not even
    a zero. *)
Theorem utf16_to_utf8_encodes cs dst dst_len :
  Forall scalar cs -> cs <> [] -> 0 < dst_len <= Z.of_nat (length dst) -> Z.of_nat (length (utf8_string cs)) <= dst_len ->
  utf16_to_utf8 (Some (utf16_string cs)) false dst_len dst =
    (Returns (Z.of_nat (length (utf8_string cs))), with_string (utf8_string cs) dst dst_len).
Proof. apply utf16_to_utf8_run. Qed.

(** Latin, Greek, a euro sign and a supplementary character. *)
Lemma utf16_to_utf8_encodes_witness :
  utf16_to_utf8 (Some [0x41; 0x3B1; 0x20AC; 0xD83D; 0xDE00]) false 12 (replicate 12 0xFF) =
    (Returns 10, [0x41; 0xCE; 0xB1; 0xE2; 0x82; 0xAC; 0xF0; 0x9F; 0x98; 0x80; 0; 0xFF]).
Proof.
  apply (utf16_to_utf8_encodes [0x41; 0x3B1; 0x20AC; 0x1F600] (replicate 12 0xFF) 12).
  - repeat constructor; unfold scalar; lia.
  - done.
  - cbn. lia.
  - vm_compute. discriminate.
Defined.

(** The conversion stops where the buffer counts as full; the last character
    may reach beyond [dst_len]. *)
Lemma utf16_to_utf8_full cs c src dst dst_len : Forall scalar (cs ++ [c]) ->
  (length (utf8_string cs) < dst_len <= length (utf8_string (cs ++ [c])))%nat -> (length (utf8_string (cs ++ [c])) <= length dst)%nat ->
  utf16_to_utf8 (Some (utf16_string (cs ++ [c]) ++ src)) false (Z.of_nat dst_len) dst =
    (Returns (Z.of_nat (length (utf8_string (cs ++ [c])))), utf8_string (cs ++ [c]) ++ drop (length (utf8_string (cs ++ [c]))) dst).
Proof.
  intros [Hcs Hc]%Forall_app Hlen Hfit. apply Forall_cons in Hc as [Hc _]. unfold utf16_to_utf8.
  assert (utf16_string (cs ++ [c]) ++ src = utf16_string cs ++ utf16 c ++ src) as ->
    by (unfold utf16_string; by rewrite bind_app, bind_cons, <- !app_assoc).
  assert (utf8_string (cs ++ [c]) = utf8_string cs ++ utf8 c) as Heq by (unfold utf8_string; by rewrite bind_app, bind_cons, app_nil_r).
  rewrite Heq in *. rewrite !length_app in *.
  assert (0 < length (utf16 c))%nat by (unfold utf16; destruct (_ <? _); cbn [length]; lia).
  rewrite (proj2 (Z.eqb_neq _ _)), (proj2 (Z.eqb_neq _ _)) by (rewrite ?length_app; lia). cbn [orb].
  unfold bind at 1. rewrite (utf16_loop_run cs _ [] dst) by (done || cbn; lia). cbn [app].
  rewrite utf16_loop_char by (done || lia). unfold bind at 1.
  rewrite <- (take_drop (length (utf8 c)) (drop (length (utf8_string cs)) dst)) at 1.
  rewrite (wp_exact _ (Z.of_nat (length (utf8_string cs ++ utf8 c))) _ ((utf8_string cs ++ utf8 c) ++ drop (length (utf8 c)) (drop (length (utf8_string cs)) dst)))
    by (apply wp_put_char; [done|rewrite length_take, length_drop; lia|done]).
  rewrite drop_drop, length_app.
  assert (forall s cur end_, end_ <= cur -> utf16_loop s cur end_ = ret cur) as Hstop
    by (intros [|x s] cur end_ Hle; [done|]; cbn [utf16_loop]; by rewrite (proj2 (Z.leb_le _ _))).
  rewrite Hstop by lia. unfold ret, bind, terminate. by rewrite (proj2 (Z.ltb_ge _ _)) by lia.
Qed.

(** ** What the conversion gets wrong *)

Lemma put_continuation_stuck p s : (forall v, aset s (p.1 - 1) v = None) -> stuck_at (put_continuation p) s.
Proof. destruct p as [d c]. cbn [fst]. intros H. unfold put_continuation, stuck_at, bind, gets, of_option. by rewrite H. Qed.

Lemma put_first_stuck bytes p s : (forall v, aset s (p.1 - 1) v = None) -> stuck_at (put_first bytes p) s.
Proof.
  destruct p as [d c]. cbn [fst]. intros H. unfold put_first, stuck_at, bind, gets, of_option.
  destruct (aget kFirstByteMark bytes); cbn; [by rewrite H|done].
Qed.

Lemma put_char_overruns pre short c : scalar c -> (length short < length (utf8 c))%nat ->
  stuck_at (put_char (Z.of_nat (length pre)) c) (pre ++ short).
Proof.
  intros Hc Hshort. pose proof (utf8_length c Hc) as Hlen. unfold put_char. apply stuck_bind.
  assert (forall v, aset (pre ++ short) (Z.of_nat (length pre) + utf32_to_utf8_bytes c - 1) v = None) as Hout.
  { intros v. unfold aset. rewrite decide_False; [done|]. rewrite length_app. lia. }
  assert (1 <= utf32_to_utf8_bytes c <= 4) as Hb.
  { rewrite <- Hlen. unfold utf8. repeat destruct (_ <? _); cbn [length]; lia. }
  unfold utf32_to_utf8. destruct (Z.eqb_spec (utf32_to_utf8_bytes c) 4); [by apply stuck_bind, put_continuation_stuck|].
  destruct (Z.eqb_spec (utf32_to_utf8_bytes c) 3); [by apply stuck_bind, put_continuation_stuck|].
  destruct (Z.eqb_spec (utf32_to_utf8_bytes c) 2); [by apply stuck_bind, put_continuation_stuck|].
  destruct (Z.eqb_spec (utf32_to_utf8_bytes c) 1); [by apply put_first_stuck|lia].
Qed.

(** The loop compares the place with the end, but not the length of the
    character: a character that fits in part is written past the buffer. *)
Lemma utf16_to_utf8_overruns cs c src dst dst_len : Forall scalar (cs ++ [c]) ->
  (length (utf8_string cs) < dst_len <= length dst)%nat -> (length dst < length (utf8_string cs) + length (utf8 c))%nat ->
  stuck_at (utf16_to_utf8 (Some (utf16_string (cs ++ [c]) ++ src)) false (Z.of_nat dst_len)) dst.
Proof.
  intros [Hcs Hc]%Forall_app Hlen Hshort. apply Forall_cons in Hc as [Hc _]. unfold utf16_to_utf8.
  assert (utf16_string (cs ++ [c]) ++ src = utf16_string cs ++ utf16 c ++ src) as ->
    by (unfold utf16_string; by rewrite bind_app, bind_cons, <- !app_assoc).
  assert (0 < length (utf16 c))%nat by (unfold utf16; destruct (_ <? _); cbn [length]; lia).
  rewrite (proj2 (Z.eqb_neq _ _)), (proj2 (Z.eqb_neq _ _)) by (rewrite ?length_app; lia). cbn [orb].
  apply stuck_bind. unfold stuck_at.
  rewrite (utf16_loop_run cs _ [] dst) by (done || cbn; lia). cbn [app].
  rewrite utf16_loop_char by (done || lia). apply stuck_bind, put_char_overruns; [done|]. rewrite length_drop. lia.
Qed.

(** A high surrogate without its partner takes the next unit with it: the two
    come out as a character that neither of them is. *)
Lemma unpaired_surrogate_garbles c1 : 0 <= c1 < 0xB400 -> surrogate_pair 0xD800 c1 = c1 + 0x2400.
Proof.
  intros Hc. unfold surrogate_pair. change (u32 (Z.shiftl (0xD800 - 0xD800) 10)) with 0. rewrite Z.lor_0_l.
  unfold u32. rewrite Zplus_mod_idemp_l. replace (c1 - 0xDC00 + 0x10000) with (c1 + 0x2400) by lia. apply Z.mod_small. lia.
Qed.

(** The letter A comes out as U+2441. *)
Lemma unpaired_surrogate_garbles_witness :
  utf16_to_utf8 (Some [0xD800; 0x41]) false 8 (replicate 8 0) = (Returns 3, utf8 0x2441 ++ replicate 5 0).
Proof. vm_compute. reflexivity. Qed.
