(* ===== verification/MemCheck.v ===== *)
(** * Readable memory (libcrash_collect/utils/memcheck.cpp)

    Before it reads memory for a report the crash collector looks the address
    up in the mappings of the process.  The lines of /proc/self/maps are those
    of ProcMaps.v. *)

From stdpp Require Import base numbers list list_numbers.
From Stdlib Require Import Lia ZArith.
From S2P Require Import Prelude InlineHook ProcMaps.

#[local] Open Scope Z_scope.
#[local] Open Scope c_scope.

(** ** The code *)

(** [t_pairMemory]: from the first address to the one behind the last. *)
Record t_pairMemory : Type := mkPair { m_pStart : Z; m_pEnd : Z }.

(** [g_bInited] and [g_memBlock]. *)
Record mem_state : Type := mkMem { g_bInited : bool; g_memBlock : list t_pairMemory }.

(** [%x]: a number and what follows it; the sign or [0x] it may also have do not
    occur in the file. *)
Fixpoint scan_digits (s : list Z) (acc : Z) : Z * list Z :=
  match s with
  | c :: s' => match hex_digit c with Some d => scan_digits s' (16 * acc + d) | None => (acc, s) end
  | [] => (acc, [])
  end.

Definition scan_hex (s : list Z) : option (Z * list Z) :=
  let s := skip_while is_space s in
  match s with
  | c :: _ => match hex_digit c with Some _ => let '(v, r) := scan_digits s 0 in Some (u32 v, r) | None => None end
  | [] => None
  end.

(** [sscanf(buff, "%x-%x %c", ...)]: the variables keep their values from where
    the line does not match on. *)
Definition sscanf_maps (buff : list Z) (vars : Z * Z * Z) : Z * Z * Z :=
  let '(start_addr, end_addr, access) := vars in
  match scan_hex buff with
  | None => vars
  | Some (start_addr, r) =>
      match r with
      | 45 :: r =>
          match scan_hex r with
          | None => (start_addr, end_addr, access)
          | Some (end_addr, r) =>
              match skip_while is_space r with
              | access :: _ => (start_addr, end_addr, access)
              | [] => (start_addr, end_addr, access)
              end
          end
      | _ => (start_addr, end_addr, access)
      end
  end.

(** The loop of [init_mem_block]; a line is what one [fgets] returns, and the
    variables before the first one are uninitialised. *)
Fixpoint read_blocks (lines : list (list Z)) (vars : Z * Z * Z) : list t_pairMemory :=
  match lines with
  | [] => []
  | buff :: lines =>
      let vars := sscanf_maps buff vars in
      let '(start_addr, end_addr, access) := vars in
      if negb (114 =? access) then read_blocks lines vars
      else mkPair start_addr end_addr :: read_blocks lines vars
  end.

(** [maps]: the lines of the file, [None] if it cannot be opened; [vars] what
    the uninitialised variables hold. *)
Definition init_mem_block (maps : option (list (list Z))) (vars : Z * Z * Z) : M mem_state Z :=
  match maps with
  | None => ret (-1)
  | Some lines =>
      modify (fun s => mkMem s.(g_bInited) (s.(g_memBlock) ++ read_blocks lines vars)) ;;!
      ret 0
  end.

Fixpoint check_blocks (blocks : list t_pairMemory) (addr len nLen : Z) : Z :=
  match blocks with
  | [] => nLen
  | mkPair start_addr end_addr :: blocks =>
      if addr <? start_addr then nLen
      else if addr <? end_addr then
        if u32 (addr + len) <? end_addr then i32 (nLen + len)
        else
          let last_addr := end_addr in
          let len := i32 (len - u32 (end_addr - addr)) in
          let addr := last_addr in
          let nLen := i32 (nLen + u32 (end_addr - addr)) in
          check_blocks blocks addr len nLen
      else check_blocks blocks addr len nLen
  end.

Definition check_mem_readable (maps : option (list (list Z))) (vars : Z * Z * Z) (addr len : Z) : M mem_state Z :=
  let! inited := gets g_bInited in
  (if negb inited then
     modify (fun s => mkMem true s.(g_memBlock)) ;;!
     let! _ := init_mem_block maps vars in
     ret tt
   else ret tt) ;;!
  let! blocks := gets g_memBlock in
  ret (check_blocks blocks addr len 0).

Section RealPc.
Context (maps : option (list (list Z))) (vars : Z * Z * Z).
(** The words of memory; an unaligned one is read as any other. *)
Context (load : Z -> option Z).

(** The address of the call a return address belongs to. *)
Definition get_real_pc (pc : Z) : M mem_state Z :=
  let! readable := check_mem_readable maps vars pc 4 in
  if readable =? 0 then ret pc
  else if test pc 1 then
    let! readable := check_mem_readable maps vars (u32 (pc - 5)) 4 in
    if readable =? 0 then ret pc
    else
      let! code := of_option (load (u32 (pc - 5))) in
      if 0xE0000000 <? Z.land code 0xF8000000 then ret (u32 (pc - 4)) else ret (u32 (pc - 2))
  else ret (u32 (pc - 4)).
End RealPc.

(** ** The mappings *)

Definition in_pair (a : Z) (b : t_pairMemory) : Prop := b.(m_pStart) <= a < b.(m_pEnd).
Definition readable (blocks : list t_pairMemory) (a : Z) : Prop := Exists (in_pair a) blocks.

(** In the order of their addresses, apart, and not in the last page, which the
    kernel keeps free. *)
Fixpoint blocks_ok (lo : Z) (blocks : list t_pairMemory) : Prop :=
  match blocks with
  | [] => True
  | mkPair s e :: blocks => lo <= s /\ s < e /\ e <= 0xFFFFF000 /\ blocks_ok e blocks
  end.

Lemma readable_above lo blocks a : blocks_ok lo blocks -> readable blocks a -> lo <= a < 0xFFFFF000.
Proof.
  revert lo. induction blocks as [|[s e] bs IH]; intros lo Hok Hr; [by apply Exists_nil in Hr|].
  destruct Hok as (Hlo & Hse & He & Hok). apply Exists_cons in Hr as [[H1 H2]|Hr]; cbn in *; [lia|].
  specialize (IH e Hok Hr). lia.
Qed.

Lemma readable_first lo s e blocks a : blocks_ok lo (mkPair s e :: blocks) -> a < e -> readable (mkPair s e :: blocks) a -> s <= a.
Proof.
  intros (_ & _ & _ & Hok) Ha Hr. apply Exists_cons in Hr as [[H _]|Hr]; [done|].
  pose proof (readable_above _ _ _ Hok Hr). lia.
Qed.

Lemma readable_later s e blocks a : e <= a -> readable (mkPair s e :: blocks) a <-> readable blocks a.
Proof.
  intros Ha. unfold readable. rewrite Exists_cons. split; [intros [[_ H]|H]; [cbn in H; lia|done]|auto].
Qed.

(** What the check decides: all bytes of the range can be read, and the one
    behind it is in the mapping of the last one. *)
Definition seen_readable (blocks : list t_pairMemory) (addr len : Z) : Prop :=
  (forall a, addr <= a < addr + len -> readable blocks a) /\
  Exists (fun b => b.(m_pStart) <= addr + len - 1 /\ addr + len < b.(m_pEnd)) blocks.

Lemma check_blocks_empty blocks : forall lo addr, blocks_ok lo blocks -> 0 <= addr <= 0xFFFFF000 -> check_blocks blocks addr 0 0 = 0.
Proof.
  induction blocks as [|[s e] bs IH]; intros lo addr Hok Ha; [done|]. destruct Hok as (? & ? & ? & Hok). cbn [check_blocks].
  destruct (Z.ltb_spec addr s); [done|]. destruct (Z.ltb_spec addr e); [|by eapply IH].
  rewrite Z.add_0_r, u32_small by lia. by rewrite (proj2 (Z.ltb_lt _ _)) by lia.
Qed.

Lemma check_blocks_spec blocks : forall lo addr len, blocks_ok lo blocks -> 0 <= addr -> 0 < len < 2 ^ 31 -> addr + len < 2 ^ 32 ->
  0 <= check_blocks blocks addr len 0 <= len /\ (0 < check_blocks blocks addr len 0 <-> seen_readable blocks addr len).
Proof.
  change (2 ^ 31) with 2147483648. change (2 ^ 32) with 4294967296.
  induction blocks as [|[s e] bs IH]; intros lo addr len Hok Ha Hlen Hsum; cbn [check_blocks].
  { split; [lia|]. split; [lia|]. intros [_ H]. by apply Exists_nil in H. }
  pose proof Hok as (Hlo & Hse & He & Hok').
  destruct (Z.ltb_spec addr s) as [Hs|Hs].
  { split; [lia|]. split; [lia|]. intros [Hr _].
    pose proof (readable_first _ _ _ _ addr Hok ltac:(lia) (Hr addr ltac:(lia))). lia. }
  destruct (Z.ltb_spec addr e) as [Hin|Hout].
  - rewrite u32_small by lia. destruct (Z.ltb_spec (addr + len) e) as [Hfit|Hcross].
    + rewrite i32_small by lia. split; [lia|]. split; [|lia]. intros _. split.
      * intros a Hra. apply Exists_cons. left. unfold in_pair. cbn. lia.
      * apply Exists_cons. left. cbn. lia.
    + rewrite Z.sub_diag, (u32_small (e - addr)), (u32_small 0), (i32_small (len - _)), (i32_small (0 + 0)), Z.add_0_r by lia.
      assert (seen_readable (mkPair s e :: bs) addr len <-> seen_readable bs e (len - (e - addr)) /\ addr + len <> e) as ->.
      { unfold seen_readable. replace (e + (len - (e - addr))) with (addr + len) by lia. rewrite Exists_cons. cbn [m_pStart m_pEnd].
        split.
        - intros [Hr [[_ ?]|Hb]]; [lia|]. split; [split|].
          + intros a Hra. apply (readable_later s e); [lia|]. apply Hr. lia.
          + done.
          + intros Heq. apply Exists_exists in Hb as (b & Hb & H1 & H2).
            assert (readable bs (e - 1)) as Hx by (apply Exists_exists; exists b; split; [done|unfold in_pair; lia]).
            pose proof (readable_above _ _ _ Hok' Hx). lia.
        - intros [[Hr Hb] Hne]. split; [|by right]. intros a Hra. destruct (decide (a < e)).
          + apply Exists_cons. left. unfold in_pair. cbn. lia.
          + apply readable_later; [lia|]. apply Hr. lia. }
      destruct (decide (addr + len = e)) as [Heq|Hne].
      * replace (len - (e - addr)) with 0 by lia. rewrite (check_blocks_empty bs e) by (done || lia).
        split; [lia|]. split; [lia|]. by intros [_ ?].
      * destruct (IH e e (len - (e - addr)) Hok') as [Hb Hiff]; [lia..|]. split; [lia|]. rewrite Hiff. tauto.
  - destruct (IH e addr len Hok') as [Hb Hiff]; [lia..|]. split; [done|]. rewrite Hiff. unfold seen_readable.
    rewrite Exists_cons. cbn [m_pStart m_pEnd]. split.
    + intros [Hr Hx]. split; [|by right]. intros a Hra. apply readable_later; [lia|]. apply Hr. lia.
    + intros [Hr [?|Hx]]; [lia|]. split; [|done]. intros a Hra. apply (readable_later s e); [lia|]. apply Hr. lia.
Qed.

(** ** The mappings of the kernel *)

Lemma scan_digits_hex s t acc : Forall digit_char s -> (forall c t', t = c :: t' -> hex_digit c = None) ->
  scan_digits (s ++ t) acc = (hex_value s acc, t).
Proof.
  intros Hs Ht. revert acc. induction Hs as [|c s (_ & (d & Hd) & _) _ IH]; intros acc; cbn [app scan_digits hex_value].
  - destruct t as [|c t]; [done|]. cbn [scan_digits]. by rewrite (Ht c t eq_refl).
  - by rewrite Hd.
Qed.

Lemma scan_hex_spaces s c t v : Forall (fun c => is_space c = true) s -> hex_digit c = None -> 0 <= v < 2 ^ 32 ->
  scan_hex (s ++ hex 8 v ++ c :: t) = Some (v, c :: t).
Proof.
  intros Hs Hc Hv. unfold scan_hex.
  assert (skip_while is_space (s ++ hex 8 v ++ c :: t) = hex 8 v ++ c :: t) as ->.
  { induction Hs as [|x s Hx _ IH]; cbn [app skip_while]; [|by rewrite Hx].
    destruct (hex_cons 7 v) as (y & r & -> & (Hsp & _) & _). cbn [app skip_while]. by rewrite Hsp. }
  rewrite scan_digits_hex by (apply hex_chars || by intros ? ? [= -> _]). rewrite hex_value_hex by lia.
  destruct (hex_cons 7 v) as (y & r & -> & (_ & (d & Hd) & _) & _). cbn [app]. rewrite Hd.
  change (16 ^ Z.of_nat 8) with 4294967296. rewrite Z.mod_small, Z.mul_0_l, Z.add_0_l, u32_small by lia. done.
Qed.

(** A mapping as the kernel prints it: addresses of 32 bits, and permissions
    that begin with a letter or a dash. *)
Definition mapping_ok (r : region) : Prop :=
  0 <= r.(start) < 2 ^ 32 /\ 0 <= r.(finish) < 2 ^ 32 /\
  match r.(perms) with c :: _ => is_space c = false | [] => False end.

Definition can_read (r : region) : bool := match r.(perms) with c :: _ => c =? 114 | [] => false end.
Definition pair_of (r : region) : t_pairMemory := mkPair r.(start) r.(finish).

Lemma sscanf_render r vars : mapping_ok r -> exists c, hd_error r.(perms) = Some c /\ sscanf_maps (render r) vars = (r.(start), r.(finish), c).
Proof.
  intros (Hs & Hf & Hp). destruct (perms r) as [|c p] eqn:Hperms; [done|]. exists c. split; [done|].
  unfold sscanf_maps, render. destruct vars as [[v1 v2] v3]. rewrite Hperms.
  pose proof (scan_hex_spaces [] 45 (hex 8 (finish r) ++ 32 :: (c :: p) ++ rest r) (start r)) as H1. cbn [app] in H1 |- *. rewrite H1 by done.
  pose proof (scan_hex_spaces [] 32 ((c :: p) ++ rest r) (finish r)) as H2. cbn [app] in H2. cbn [app]. rewrite H2 by done.
  cbn [skip_while]. change (is_space 32) with true. cbv iota. by rewrite Hp.
Qed.

Lemma read_blocks_render rs vars : Forall mapping_ok rs -> read_blocks (render <$> rs) vars = pair_of <$> filter (fun r => can_read r = true) rs.
Proof.
  intros H. revert vars. induction H as [|r rs Hr _ IH]; intros vars; [done|]. cbn [fmap list_fmap read_blocks].
  destruct (sscanf_render r vars Hr) as (c & Hc & ->). rewrite filter_cons.
  assert (can_read r = (c =? 114)) as Hcr by (unfold can_read; destruct (perms r); [done|]; by injection Hc as ->).
  rewrite Z.eqb_sym. destruct (c =? 114); cbn [negb]; [rewrite decide_True by done|rewrite decide_False by congruence]; cbn; by rewrite IH.
Qed.

(** ** What the check says *)

Section Properties.
(** A process whose readable mappings are [blocks]. *)
Context (rs : list region) (vars : Z * Z * Z).
Context (Hrs : Forall mapping_ok rs).
Let blocks := pair_of <$> filter (fun r => can_read r = true) rs.
Context (Hblocks : blocks_ok 0 blocks).

(** The state before and after the first check. *)
Definition mem_ready (s : mem_state) : Prop := s = mkMem false [] \/ s = mkMem true blocks.

Lemma check_mem_ready s addr len : mem_ready s ->
  check_mem_readable (Some (render <$> rs)) vars addr len s = (Returns (check_blocks blocks addr len 0), mkMem true blocks).
Proof.
  intros [->| ->]; [|done]. unfold check_mem_readable, init_mem_block, bind, gets, modify, ret. cbn.
  by rewrite read_blocks_render.
Qed.
End Properties.

(** C33. The check reads the mappings the kernel prints, once, and answers with
    a positive number exactly for the ranges whose bytes are all readable and
    that do not reach the end of a mapping: never for one it must not read,
    and not for the last bytes of a mapping. *)
Theorem check_mem_readable_exact rs vars s addr len :
  let blocks := pair_of <$> filter (fun r => can_read r = true) rs in
  Forall mapping_ok rs -> blocks_ok 0 blocks -> mem_ready rs s ->
  0 <= addr -> 0 < len < 2 ^ 31 -> addr + len < 2 ^ 32 ->
  exists r, check_mem_readable (Some (render <$> rs)) vars addr len s = (Returns r, mkMem true blocks) /\
    0 <= r <= len /\ (0 < r <-> seen_readable blocks addr len).
Proof.
  intros blocks Hrs Hblocks Hs Ha Hlen Hsum. exists (check_blocks blocks addr len 0).
  split; [by apply check_mem_ready|]. by apply check_blocks_spec with (lo := 0).
Qed.

(** "00008000-00009000 r-xp" and "00020000-00021000 rw-p": the word at 0x8ffc is
    readable, and the check denies it. *)
Lemma check_mem_readable_exact_witness : exists r,
  check_mem_readable (Some (render <$> demo_regions)) (0, 0, 0) 0x8ffc 4 (mkMem false []) =
    (Returns r, mkMem true [mkPair 0x8000 0x9000; mkPair 0x20000 0x21000]) /\ ~ 0 < r.
Proof.
  destruct (check_mem_readable_exact demo_regions (0, 0, 0) (mkMem false []) 0x8ffc 4) as (r & Hr & _ & Hiff).
  - repeat (constructor; [split; [cbn; lia|split; [cbn; lia|done]]|]). constructor.
  - change (blocks_ok 0 [mkPair 0x8000 0x9000; mkPair 0x20000 0x21000]). cbn. lia.
  - by left.
  - lia.
  - lia.
  - lia.
  - exists r. split; [exact Hr|]. intros H. apply Hiff in H as [_ H].
    change (pair_of <$> _) with [mkPair 0x8000 0x9000; mkPair 0x20000 0x21000] in H.
    apply Exists_exists in H as (b & Hb & H1 & H2). apply elem_of_cons in Hb as [->|Hb]; cbn in *; [lia|].
    apply list_elem_of_singleton in Hb as ->. cbn in *. lia.
Defined.

(** ** Return addresses *)

Section RealPcProperties.
Context (rs : list region) (vars : Z * Z * Z) (load : Z -> option Z).
Let blocks := pair_of <$> filter (fun r => can_read r = true) rs.
Context (Hrs : Forall mapping_ok rs) (Hblocks : blocks_ok 0 blocks).

Lemma check_mem_readable_seen s addr : mem_ready rs s -> 0 <= addr < 2 ^ 32 - 4 -> seen_readable blocks addr 4 ->
  exists r, check_mem_readable (Some (render <$> rs)) vars addr 4 s = (Returns r, mkMem true blocks) /\ (r =? 0) = false.
Proof.
  intros Hs Ha Hseen. exists (check_blocks blocks addr 4 0). split; [by apply check_mem_ready|].
  destruct (check_blocks_spec blocks 0 addr 4 Hblocks) as [Hb Hiff]; [lia..|]. apply Hiff in Hseen. lia.
Qed.

(** Half-words from 0xE800 on begin an instruction of 32 bits. *)
Definition wide (h : Z) : bool := 0xE800 <=? h.

(** Where the call is looked for: four bytes before the return address, or two
    if the half-word before a Thumb return address does not look like one of a
    wide instruction.  The lowest bit stays set. *)
Lemma get_real_pc_spec s pc low high : mem_ready rs s -> 8 <= pc < 2 ^ 32 - 4 -> seen_readable blocks pc 4 ->
  (Z.odd pc = true -> seen_readable blocks (pc - 5) 4 /\ load (pc - 5) = Some (low + 65536 * high) /\
    0 <= low < 65536 /\ 0 <= high < 65536) ->
  get_real_pc (Some (render <$> rs)) vars load pc s =
    (Returns (if Z.odd pc && negb (wide high) then pc - 2 else pc - 4), mkMem true blocks).
Proof.
  intros Hs Hpc Hseen Hthumb. change (2 ^ 32) with 4294967296 in Hpc. unfold get_real_pc, bind at 1.
  destruct (check_mem_readable_seen s pc Hs) as (r & -> & ->); [lia|done|].
  assert (test pc 1 = Z.odd pc) as ->.
  { unfold test. change 1 with (Z.ones 1). rewrite Z.land_ones by lia. change (2 ^ 1) with 2. rewrite Zmod_odd. by destruct (Z.odd pc). }
  destruct (Z.odd pc) eqn:Hodd; cbn [andb]; [|by rewrite u32_small by lia].
  destruct (Hthumb eq_refl) as (Hseen' & Hload & Hlow & Hhigh). rewrite !u32_small by lia. unfold bind at 1.
  destruct (check_mem_readable_seen (mkMem true blocks) (pc - 5)) as (r' & -> & ->); [by right|lia|done|].
  rewrite Hload. unfold bind, of_option, ret at 1.
  assert (Z.land (low + 65536 * high) 0xF8000000 = 134217728 * ((low + 65536 * high) / 134217728)) as ->
    by (apply (land_high_bits _ 27 5); change (2 ^ (27 + 5)) with 4294967296; lia).
  assert ((low + 65536 * high) / 134217728 = high / 2048) as ->.
  { change 134217728 with (65536 * 2048). rewrite <- Z.div_div by lia. f_equal. rewrite Z.mul_comm, Z.div_add, Z.div_small by lia. lia. }
  unfold wide. pose proof (Z.div_mod high 2048). pose proof (Z.mod_pos_bound high 2048).
  destruct (Z.ltb_spec 0xE0000000 (134217728 * (high / 2048))), (Z.leb_spec 0xE800 high); cbn [negb]; (done || lia).
Qed.
End RealPcProperties.

(** The second half-word of a BL has its bit 13 clear if the call goes eight
    megabytes or farther, and then it counts as an instruction of 16 bits: the
    address found is in the middle of it. *)
Lemma far_call_not_wide j2 imm11 : 0 <= j2 < 2 -> 0 <= imm11 < 2048 -> wide (0xD000 + 2048 * j2 + imm11) = false.
Proof. intros. unfold wide. apply Z.leb_gt. lia. Qed.
