(* ===== verification/CrashExidx.v ===== *)
(** * The ARM unwinder of the crash collector
      (libcrash_collect/crash/stacktrace/arm/exidxstep.cpp, backtrace.cpp)

    A later copy of the unwinder of libmemcheck.  The routines that are the
    same, token for token, are those of Exidx.v: the search in the index, the
    decoder of unwind instructions, the way through the program headers.  What
    differs is here: entries that cannot be unwound stop the walk, entries with
    a personality routine are read, and the caller is looked up by the address
    of its call (MemCheck.v). *)

From stdpp Require Import base numbers list list_numbers.
From Stdlib Require Import Lia ZArith.
From S2P Require Import Prelude InlineHook ProcMaps MemCheck Exidx ExidxFrame ExidxTable.

#[local] Open Scope Z_scope.
#[local] Open Scope c_scope.

(** ** The code *)

(** The words from [arm_r0] on in the signal context: the registers and CPSR. *)
Record crash_frame : Type := mkFrame { uc : list Z; memory : mem_state }.

Definition set_uc (v : list Z) (s : crash_frame) : crash_frame := mkFrame v s.(memory).

Section Memory.
Context (load half : Z -> option Z).

(** The instructions of an entry with a personality routine: the word behind
    the routine, of which the first byte counts. *)
Definition generic_model (tbl : Z) : StepM (list Z) :=
  let! ext := of_option (load (u32 (tbl + 4))) in
  let n_add_insn := Z.shiftr ext 24 in
  let n_tmp := if 3 <? n_add_insn then 3 else n_add_insn in
  let! buf := put_all ((fun i => Z.shiftr ext (16 - i * 8)) <$> seqZ 0 n_tmp) [] in
  more_words load (Z.to_nat (n_add_insn - n_tmp)) (u32 (tbl + 8)) buf.

Definition arm_exidx_extract : StepM (Z * list Z) :=
  let! c := gets (fun c => c) in
  let! kv := of_option (search_exidx_value load c.(exidx_start_addr) c.(exidx_end_addr) c.(base_addr) c.(pc_offest)) in
  if kv =? 0 then modify (set_step_status STEP_STOP) ;;! ret (0, [])
  else
    let! value := of_option (load (u32 (kv + 4))) in
    if value =? ARM_EXIDX_CANT_UNWIND then modify (set_step_status STEP_STOP) ;;! ret (0, [])
    else if test value ARM_EXIDX_COMPACT then
      let! buf := put_all [Z.shiftr value 16; Z.shiftr value 8; value] [] in
      let! buf := add_finish buf in
      ret (Z.of_nat (length buf), buf)
    else
      let tbl := u32 (kv + 4 + get_off_pre31 value) in
      let! ext := of_option (load tbl) in
      if test ext ARM_EXIDX_COMPACT then
        let idx := Z.land (Z.shiftr ext 24) 0x0f in
        let long := (idx =? 1) || (idx =? 2) in
        let! buf := (if long then ret [] else put_all [Z.shiftr ext 16] []) in
        let! buf := put_all [Z.shiftr ext 8; ext] buf in
        let! buf := (if long then more_words load (Z.to_nat (Z.land (Z.shiftr ext 16) 0xff)) (u32 (tbl + 4)) buf
                     else ret buf) in
        let! buf := add_finish buf in
        ret (Z.of_nat (length buf), buf)
      else
        let! buf := generic_model tbl in
        let! buf := add_finish buf in
        ret (Z.of_nat (length buf), buf).

Definition arm_exidx_step : StepM Z :=
  let! ' (r, buf) := arm_exidx_extract in
  let! r := (if 0 <? r then arm_exidx_decode load buf else ret r) in
  let! st := gets step_status in
  if st =? STEP_STOP then ret (-3)
  else if r =? -1 then ret (-1)
  else if st =? STEP_PC_LR then ret (-2)
  else ret 0.

Context (maps : option (list (list Z))) (vars : Z * Z * Z).

Definition real_pc (pc : Z) : M crash_frame Z := fun s =>
  let '(o, m) := get_real_pc maps vars load pc s.(memory) in (o, mkFrame s.(uc) m).

(** [step]: the result, and the registers it leaves in the signal context,
    whatever the result.  [dladdr pc] is the base of the module with [pc] ([None]:
    no name is found), [status] what the uninitialised field of the cursor
    holds. *)
Definition step (dladdr : Z -> option Z) (status : Z) (bNextCode : bool) : M crash_frame Z :=
  let! regs0 := gets uc in
  let! pc := of_option (aget regs0 ARM_PC) in
  match dladdr pc with
  | None => ret (-1)
  | Some base =>
      let! e_phoff := of_option (load (u32 (base + 28))) in
      let! e_phnum := of_option (half (u32 (base + 44))) in
      let! pPHdr := of_option (find_phdr load (Z.to_nat e_phnum) (u32 (base + e_phoff))) in
      let! p_type := of_option (load pPHdr) in
      if negb (p_type =? ARM_EXIDX) then ret (-1)
      else
        let! pc := (if bNextCode then real_pc pc else ret pc) in
        let! p_paddr := of_option (load (u32 (pPHdr + 12))) in
        let exidx_start := u32 (p_paddr + base) in
        let! p_memsz := of_option (load (u32 (pPHdr + 20))) in
        let! valid := of_option (move_to_valid_addr load (Z.to_nat (p_memsz / 8)) exidx_start) in
        let cursor := mk_cursor regs0 base (u32 (pc - base)) status valid (u32 (exidx_start + p_memsz - 8)) in
        match arm_exidx_step cursor with
        | (Returns r, c) => modify (set_uc c.(regs)) ;;! ret r
        | (Fails, _) => fail
        | (Stuck, _) => stuck
        end
  end.
End Memory.

(** ** Where the two unwinders agree *)

Lemma bind_of_option {S A B} (o : option A) (k : A -> M S B) s :
  bind (of_option o) k s = match o with Some a => k a s | None => (Stuck, s) end.
Proof. by destruct o. Qed.

(** An entry of the compact model is read as before. *)
Lemma extract_agrees load c r buf c' : Exidx.arm_exidx_extract load c = (Returns (r, buf), c') -> 0 < r ->
  arm_exidx_extract load c = (Returns (r, buf), c').
Proof.
  intros H Hr. revert H. unfold Exidx.arm_exidx_extract, arm_exidx_extract.
  change (bind (gets (fun c => c)) ?k c) with (k c c). cbv beta. rewrite !bind_of_option.
  destruct (search_exidx_value _ _ _ _ _) as [kv|]; [|done]. destruct (kv =? 0); [done|]. rewrite !bind_of_option.
  destruct (load (u32 (kv + 4))) as [value|]; [|done].
  destruct (value =? ARM_EXIDX_CANT_UNWIND); [intros [= <- _ _]; lia|].
  destruct (test value ARM_EXIDX_COMPACT); [done|]. cbv zeta. rewrite !bind_of_option.
  destruct (load (u32 (kv + 4 + get_off_pre31 value))) as [ext|]; [|done].
  destruct (test ext ARM_EXIDX_COMPACT); [done|]. rewrite bind_of_option.
  destruct (load _); [|done]. unfold bind. destruct (put_all _ _ _) as [[l| |] c2]; intros [=]. lia.
Qed.

(** Reading an entry changes the cursor only to stop the walk. *)
Section Kept.
Context (load : Z -> option Z) (c : t_cursor).
Definition kept (s : t_cursor) : Prop := s = c \/ s.(step_status) = STEP_STOP.

Lemma keeps_stop : keeps kept (modify (set_step_status STEP_STOP)).
Proof. intros s _. right. reflexivity. Qed.

Lemma keeps_put_all vs buf : keeps kept (put_all vs buf).
Proof. apply keeps_foldM. intros b v. unfold put. keep. Qed.

#[local] Hint Resolve keeps_stop keeps_put_all : keeps.

Lemma keeps_more_words n : forall a buf, keeps kept (more_words load n a buf).
Proof. induction n as [|n IH]; intros a buf; cbn [more_words]; keep. Qed.

Lemma keeps_add_finish buf : keeps kept (add_finish buf).
Proof. unfold add_finish, put. keep. Qed.

#[local] Hint Resolve keeps_more_words keeps_add_finish : keeps.

Lemma keeps_extract : keeps kept (Exidx.arm_exidx_extract load).
Proof. unfold Exidx.arm_exidx_extract. keep. Qed.
End Kept.

(** A step that gets somewhere is the same step. *)
Lemma step_agrees load c c' : Exidx.arm_exidx_step load c = (Returns 0, c') -> c' <> c ->
  arm_exidx_step load c = (Returns 0, c').
Proof.
  intros H Hne. revert H. unfold Exidx.arm_exidx_step, arm_exidx_step. unfold bind at 1.
  pose proof (keeps_extract load c c (or_introl eq_refl)) as Hkept.
  destruct (Exidx.arm_exidx_extract load c) as [[[r buf]| |] c1] eqn:He; [|done|done]. cbn [snd] in Hkept.
  destruct (Z.ltb_spec 0 r) as [Hr|Hr].
  - unfold bind at 3. rewrite (extract_agrees load c r buf c1) by done.
    rewrite (proj2 (Z.ltb_lt _ _)) by done. unfold bind. destruct (arm_exidx_decode load buf c1) as [[d| |] c2]; [|done|done].
    unfold gets. destruct (Z.eqb_spec (step_status c2) STEP_STOP); cbn [orb]; [done|]. done.
  - intros Hstep. exfalso. unfold bind, gets, ret at 1 in Hstep. destruct Hkept as [->|Hstop].
    + apply Hne. revert Hstep. destruct (_ || _); [done|]. by destruct (_ =? _); intros [=].
    + rewrite Hstop in Hstep. done.
Qed.

(** ** A step *)

(** The address a frame is looked up by. *)
Definition call_pc (load : Z -> option Z) (maps : option (list (list Z))) (vars : Z * Z * Z) (bNextCode : bool) (s : mem_state) (pc : Z) : outcome Z * mem_state :=
  if bNextCode then get_real_pc maps vars load pc s else (Returns pc, s).

(** C31. A step of the crash collector goes from a frame to its caller, for a
    function that the index of its module has with a compact entry or one with
    a table of its own, of at most 31 bytes ([unwindable]; not for entries
    with a personality routine, see [generic_entry_lost]), whose prologue
    pushes registers, moves the stack pointer or sets a frame pointer and is
    described by the unwind instructions of the entry ([undoes]), whose pushed
    words are on the stack, which saved or kept the link register, and whose
    return address is not the program counter itself, when no step before has
    stopped the walk: the signal context gets the registers the caller had at
    the call, as far as the function saved or preserved them, and the return
    address as the program counter. The entry of the function is that of the
    address of the call. *)
Theorem crash_step_reaches_caller load half maps vars dladdr base tbl n v i keys codes pad ps K R sig cpsr status bNextCode m pc m' :
  dladdr sig.(arm_pc) = Some base ->
  call_pc load maps vars bNextCode m sig.(arm_pc) = (Returns pc, m') ->
  unwindable load half base tbl n v i pc keys (concat (rev codes)) pad ->
  Forall2 undoes ps codes -> regs_ok (cursor_regs sig cpsr) -> regs_ok R -> can_undo_all ps K = true ->
  agree K (cursor_regs sig cpsr) (enter_all ps R) -> stored_all load ps R ->
  Z.testbit (known_all ps K) ARM_LR = true -> sig.(arm_pc) <> reg R ARM_LR ->
  status <> STEP_STOP -> status <> STEP_PC_LR ->
  exists R', step load half maps vars dladdr status bNextCode (mkFrame (cursor_regs sig cpsr) m) = (Returns 0, mkFrame R' m') /\
    reg R' ARM_PC = reg R ARM_LR /\ forall i, 0 <= i < 15 -> Z.testbit (known_all ps K) i = true -> reg R' i = reg R i.
Proof.
  intros Hdl Hpc Huw Hund Hc HR Hcan Hag Hst Hlr Hne Hst1 Hst2.
  pose proof (wp_exidx_step_at load half base tbl n v i _ keys _ pad ps codes K R sig cpsr status (fun _ => False)
    Huw eq_refl Hund Hc HR Hcan Hag Hst Hlr Hne Hst1 Hst2) as Hstep.
  destruct (wp_returns _ _ _ Hstep) as (r & c' & Hrun & -> & R' & HR' & Hok & Hpc' & Hag'). clear Hstep.
  destruct Huw as [[(phoff & num & j & paddr & Hoff & Hnum & Hj & Htype & Hlast & Hpa & Hms & ->)] Hia Hval (Hvi & Hin & _) _ _ _ _].
  set (ph := u32 (base + phoff)) in *. set (tbl := u32 (paddr + base)) in *.
  destruct (ia_place _ _ _ _ _ Hia) as [Ht1 Ht2]. pose proof Hval as (Hv0 & _).
  assert (aget (cursor_regs sig cpsr) ARM_PC = Some sig.(arm_pc)) as Hget by done.
  apply step_agrees in Hrun; [|intros ->; apply Hne; rewrite <- Hpc', <- HR'; done].
  exists R'. split; [|done]. unfold step, bind at 1, gets. cbn [uc]. rewrite bind_of_option, Hget, Hdl. rewrite !bind_of_option.
  rewrite Hoff, bind_of_option, Hnum, bind_of_option. fold ph.
  rewrite (find_phdr_last load ph j (Z.to_nat num)) by (done || lia || (intros k Hk; apply Hlast; lia)).
  rewrite bind_of_option, Htype. change (negb (ARM_EXIDX =? ARM_EXIDX)) with false. cbv iota.
  assert ((if bNextCode then real_pc load maps vars (arm_pc sig) else ret (arm_pc sig)) (mkFrame (cursor_regs sig cpsr) m) =
    (Returns pc, mkFrame (cursor_regs sig cpsr) m')) as Hreal.
  { unfold call_pc in Hpc. destruct bNextCode; [unfold real_pc; cbn [memory]; by rewrite Hpc|by injection Hpc as -> ->]. }
  unfold bind at 1. rewrite Hreal. rewrite bind_of_option, Hpa, bind_of_option, Hms. fold tbl.
  rewrite Z.mul_comm, Z.div_mul by lia. rewrite bind_of_option.
  rewrite (move_to_first_valid load tbl v) by (done || unfold entry in *; lia).
  assert (u32 (tbl + n * 8 - 8) = entry tbl (n - 1)) as -> by (unfold entry in *; rewrite u32_small; lia).
  rewrite Hrun. unfold bind, modify, ret. cbn. by rewrite HR'.
Qed.

(** The frame of the example with the address of its call. *)
Lemma demo_unwindable_call :
  unwindable demo_load demo_half 0x10000 0x10200 4 1 1 0x1113e demo_keys (concat (rev demo_codes)) [0xb0].
Proof.
  destruct demo_unwindable as [? ? ? _ ? ? ? ?]. split; [done..| |done|done|done|done]. change (u32 (0x1113e - 0x10000)) with 0x113e. unfold demo_keys. lia.
Qed.

(** "00010000-00012000 r-xp" *)
Definition demo_text : list region := [mkRegion 0x10000 0x12000 R_XP [32; 48; 10]].

Lemma crash_step_reaches_caller_witness : exists R',
  step demo_load demo_half (Some (render <$> demo_text)) (0, 0, 0) (fun _ => Some 0x10000) 7 true (mkFrame (cursor_regs demo_frame 0) (mkMem false [])) =
    (Returns 0, mkFrame R' (mkMem true [mkPair 0x10000 0x12000])) /\
  reg R' ARM_PC = 0x12345 /\ forall i, 0 <= i < 15 -> Z.testbit 0x6ff0 i = true -> reg R' i = reg demo_caller i.
Proof.
  apply (crash_step_reaches_caller demo_load demo_half (Some (render <$> demo_text)) (0, 0, 0) (fun _ => Some 0x10000) 0x10000 0x10200 4 1 1
    demo_keys demo_codes [0xb0] demo_prologue demo_kept demo_caller demo_frame 0 7 true (mkMem false []) 0x1113e).
  - reflexivity.
  - vm_compute. reflexivity.
  - exact demo_unwindable_call.
  - exact demo_undoes.
  - by apply demo_regs_ok.
  - by apply demo_regs_ok.
  - reflexivity.
  - exact demo_agree.
  - exact demo_stored.
  - reflexivity.
  - discriminate.
  - discriminate.
  - discriminate.
Defined.

(** ** Entries that say how a function is not unwound *)

(** A function that cannot be unwound ends the walk with a result of its own,
    and its registers stay: the loop of the older unwinder is gone. *)
Lemma cant_unwind_stops load c kv :
  search_exidx_value load c.(exidx_start_addr) c.(exidx_end_addr) c.(base_addr) c.(pc_offest) = Some kv -> kv <> 0 ->
  load (u32 (kv + 4)) = Some ARM_EXIDX_CANT_UNWIND ->
  arm_exidx_step load c = (Returns (-3), set_step_status STEP_STOP c).
Proof.
  intros Hs Hkv Hv. unfold arm_exidx_step, bind at 1.
  assert (arm_exidx_extract load c = (Returns (0, []), set_step_status STEP_STOP c)) as ->; [|reflexivity].
  unfold arm_exidx_extract. change (bind (gets (fun c => c)) ?k c) with (k c c). cbv beta. rewrite bind_of_option, Hs.
  by rewrite (proj2 (Z.eqb_neq kv 0)), bind_of_option, Hv by done.
Qed.

(** An entry with a personality routine whose table has no additional words,
    as a C++ function of few instructions has: its three instructions are in
    the first word [word 0 b0 b1 b2]. *)
Record generic_entry (load : Z -> option Z) (c : t_cursor) (b0 b1 b2 : Z) : Prop := {
  ge_found : exists kv v routine, search_exidx_value load c.(exidx_start_addr) c.(exidx_end_addr) c.(base_addr) c.(pc_offest) = Some kv /\
    kv <> 0 /\ load (u32 (kv + 4)) = Some v /\ v <> 1 /\ 0 <= v < 2147483648 /\
    load (u32 (kv + 4 + get_off_pre31 v)) = Some routine /\ 0 <= routine < 2147483648 /\
    load (u32 (u32 (kv + 4 + get_off_pre31 v) + 4)) = Some (word 0 b0 b1 b2);
  ge_bytes : byte b0 /\ byte b1 /\ byte b2
}.

(** The number of additional words is taken for the number of instruction
    bytes: the instructions of such an entry are dropped, and the step reports
    success with the registers as they were, so that the walk shows the same
    frame over and over. *)
Lemma generic_entry_lost load c b0 b1 b2 : generic_entry load c b0 b1 b2 ->
  c.(step_status) <> STEP_STOP -> c.(step_status) <> STEP_PC_LR -> arm_exidx_step load c = (Returns 0, c).
Proof.
  intros [(kv & v & routine & Hs & Hkv & Hv & Hv1 & Hvr & Hr & Hrr & Hw) (H0 & H1 & H2)] Hst1 Hst2.
  unfold arm_exidx_step, bind at 1.
  assert (arm_exidx_extract load c = (Returns (0, []), c)) as ->.
  { unfold arm_exidx_extract. change (bind (gets (fun c => c)) ?k c) with (k c c). cbv beta. rewrite bind_of_option, Hs.
    rewrite (proj2 (Z.eqb_neq kv 0)), bind_of_option, Hv by done. unfold ARM_EXIDX_CANT_UNWIND. rewrite (proj2 (Z.eqb_neq v 1)) by done.
    rewrite test_compact, (proj2 (Z.leb_gt _ _)) by lia. cbv zeta. rewrite bind_of_option, Hr.
    rewrite test_compact, (proj2 (Z.leb_gt _ _)) by lia. unfold bind at 1, generic_model. rewrite bind_of_option, Hw.
    destruct (word_bytes 0 b0 b1 b2) as (_ & _ & _ & _ & E3); [unfold byte; lia|done..|]. by rewrite E3. }
  change (0 <? 0) with false. unfold bind, gets, ret. cbv iota.
  by rewrite (proj2 (Z.eqb_neq _ STEP_STOP)), (proj2 (Z.eqb_neq _ STEP_PC_LR)) by done.
Qed.

(** A function with the personality routine at 0x11f00 and the instructions
    that [crash_step_reaches_caller_witness] follows. *)
Definition demo_generic_words : list (Z * Z) :=
  [(0x1020c, 0x10300 - 0x1020c); (0x10300, 0x1c00); (0x10304, word 0 0x03 0xab 0xb0)] ++
  filter (fun p => p.1 <> 0x1020c) demo_words.

Lemma generic_entry_lost_witness :
  let c := frame_cursor demo_frame 0 7 0x10000 0x10200 1 4 in
  arm_exidx_step (lookup_word demo_generic_words) c = (Returns 0, c).
Proof.
  intros c. apply (generic_entry_lost _ c 0x03 0xab 0xb0).
  - split; [|unfold byte; lia]. exists 0x10208, (0x10300 - 0x1020c), 0x1c00. vm_compute. repeat split; discriminate.
  - discriminate.
  - discriminate.
Defined.
