(* ===== verification/CrashReport.v ===== *)
(** * The crash report (libcrash_collect/crash/crash_handler.cpp)

    On ARM: the memory around a register and the backtrace.  The report is the
    list of its lines; the registers of the crash are in the signal context,
    which the unwinder of CrashExidx.v changes from frame to frame. *)

From stdpp Require Import base numbers list list_numbers.
From Stdlib Require Import Lia ZArith.
From S2P Require Import Prelude InlineHook ProcMaps MemCheck Exidx ExidxFrame ExidxTable CrashExidx.

#[local] Open Scope Z_scope.
#[local] Open Scope c_scope.

Definition MAX_STEP := 30.
Definition MAX_STACK := 768.

(** What [dladdr] finds: file, base address and symbol. *)
Record Dl_info : Type := mkInfo { dli_fname : option (list Z); dli_fbase : Z; dli_sname : option (list Z) }.

(** The fixed lines. *)
Inductive title : Type := Version | JavaReport | NativeReport | RegistersTitle | MemoryTitle | BacktraceTitle | ReportEnd.

(** One line of the report, with what is printed in it. *)
Inductive report_line : Type :=
| Title (t : title)
| Time_ (break : bool) (t : list Z)
| HeadInfo (s : list Z)
| Keyboard (state : Z)
| JavaStack (s : list Z)
| ErrorCode (fname : option (list Z)) (offset : Z)
| SignalInfo (signo code errno addr : Z)
| AllRegisters (regs : list Z)
| Memory (cur : bool) (addr word : Z)
| Illegal (cur : bool) (addr : Z)
| Frame (no offset : Z) (fname : option (list Z))
| FrameLr (no offset : Z) (fname : option (list Z))
| FrameStack (no offset : Z) (fname sname : option (list Z))
| Symbol (sname : list Z)
| Register (i v : Z)
| Registers (regs : list Z).

(** The signal context with the table of mappings, the buffer for memory that
    is read, the answer of [dladdr], and the lines written so far. *)
Record report : Type := mkReport { frame : crash_frame; local : Z; dlip : Dl_info; lines : list report_line }.

Definition set_frame (v : crash_frame) (s : report) : report := mkReport v s.(local) s.(dlip) s.(lines).
Definition set_local (v : Z) (s : report) : report := mkReport s.(frame) v s.(dlip) s.(lines).
Definition set_dlip (v : Dl_info) (s : report) : report := mkReport s.(frame) s.(local) v s.(lines).
Definition add_line (l : report_line) (s : report) : report := mkReport s.(frame) s.(local) s.(dlip) (s.(lines) ++ [l]).

Definition Write (l : report_line) : M report unit := modify (add_line l).

(** A routine on the signal context. *)
Definition on_frame {A} (m : M crash_frame A) : M report A := fun s =>
  let '(o, f) := m s.(frame) in (o, set_frame f s).

(** A routine on the table of mappings. *)
Definition on_memory {A} (m : M mem_state A) : M report A :=
  on_frame (fun f => let '(o, b) := m f.(memory) in (o, mkFrame f.(uc) b)).

Section Memory.
Context (load half : Z -> option Z).
Context (maps : option (list (list Z))) (vars : Z * Z * Z).
Context (dladdr : Z -> option Dl_info).

(** ** Memory around an address *)

Definition IsReadable (addr size_in_byte : Z) : M report bool :=
  let! n := on_memory (check_mem_readable maps vars addr size_in_byte) in ret (0 <? n).

(** Four bytes; [false] is the null pointer, which is the result for the address
    zero. *)
Definition read_memory (src : Z) : M report bool :=
  if src =? 0 then ret false
  else
    let! w := of_option (load src) in
    modify (set_local w) ;;!
    ret true.

(** [sizeof(memLine)] is the size of a pointer: a line has one word. *)
Definition wordLineBytes := 4.

Definition memory_line (cur : bool) (addr_pt : Z) : M report unit :=
  let! _ := read_memory addr_pt in
  let! w := gets local in
  Write (Memory cur addr_pt w).

(** [n] lines from [addr_pt] on; the address behind them, unless one of them
    ends the report. *)
Fixpoint memory_lines (n : nat) (addr_pt : Z) : M report (option Z) :=
  match n with
  | O => ret (Some addr_pt)
  | S n =>
      let! ok := IsReadable addr_pt wordLineBytes in
      if ok then memory_line false addr_pt ;;! memory_lines n (u32 (addr_pt + wordLineBytes))
      else Write (Illegal false addr_pt) ;;! ret None
  end.

Definition WriteMemoryNearby (addr ctx_before ctx_after : Z) : M report unit :=
  let ctx_before := if addr <? u32 (ctx_before * wordLineBytes) then addr - addr mod wordLineBytes
                    else u32 (ctx_before * wordLineBytes) in
  let ctx_after := u32 (ctx_after * wordLineBytes) in
  modify (set_local 0) ;;!
  let! p := memory_lines (Z.to_nat (ctx_before / wordLineBytes)) (addr - ctx_before) in
  match p with
  | None => ret tt
  | Some addr_pt =>
      let! ok := IsReadable addr wordLineBytes in
      if negb ok then Write (Illegal true addr)
      else
        memory_line true addr_pt ;;!
        let! _ := memory_lines (Z.to_nat (ctx_after / wordLineBytes)) (u32 (addr_pt + wordLineBytes)) in
        ret tt
  end.

(** ** The backtrace *)

(** [memset(dlip, 0, sizeof(dlip))] clears as much as a pointer: the name of the
    file.  [dladdr] fills the record if it finds the address. *)
Definition find_module (pc : Z) : M report unit :=
  modify (fun s => set_dlip (mkInfo None s.(dlip).(dli_fbase) s.(dlip).(dli_sname)) s) ;;!
  match dladdr pc with
  | Some i => modify (set_dlip i)
  | None => ret tt
  end.

Definition get_uc (i : Z) : M report Z := let! f := gets frame in of_option (aget f.(uc) i).

Definition set_uc_reg (i v : Z) : M report unit :=
  let! f := gets frame in
  let! r := of_option (aset f.(uc) i v) in
  modify (set_frame (set_uc r f)).

Definition report_real_pc (pc : Z) : M report Z := on_memory (get_real_pc maps vars load pc).

(** What [step] of the unwinder asks [dladdr] for. *)
Definition module_base (pc : Z) : option Z :=
  match dladdr pc with
  | Some i => match i.(dli_fname) with Some _ => Some i.(dli_fbase) | None => None end
  | None => None
  end.

(** The words from [sp] on that are addresses of code; [n] words are left. *)
Fixpoint scan_stack (n : nat) (sp stack_offset step : Z) : M report Z :=
  match n with
  | O => ret step
  | S n =>
      if MAX_STEP <=? step then ret step
      else
        let! ok := read_memory (u32 (sp + stack_offset * 4)) in
        if negb ok then ret step
        else
          let! data := gets local in
          let! pc_real := report_real_pc data in
          find_module pc_real ;;!
          let! d := gets dlip in
          match d.(dli_fname) with
          | Some _ =>
              Write (FrameStack step (u32 (pc_real - d.(dli_fbase))) d.(dli_fname) d.(dli_sname)) ;;!
              scan_stack n sp (stack_offset + 1) (step + 1)
          | None => scan_stack n sp (stack_offset + 1) step
          end
  end.

(** The first such word becomes the program counter; the result says whether
    there is one. *)
Fixpoint resume_from_stack (n : nat) (sp stack_offset step : Z) : M report (Z * bool) :=
  match n with
  | O => ret (step, false)
  | S n =>
      if MAX_STEP <=? step then ret (step, false)
      else
        let! ok := read_memory (u32 (sp + stack_offset * 4)) in
        if negb ok then ret (step, false)
        else
          let! data := gets local in
          let! pc_real := report_real_pc data in
          find_module pc_real ;;!
          let! d := gets dlip in
          match d.(dli_fname) with
          | Some _ =>
              let! arm_sp := get_uc ARM_SP in
              set_uc_reg ARM_SP (u32 (arm_sp + (stack_offset * 4 + 4))) ;;!
              set_uc_reg ARM_PC data ;;!
              Write (FrameStack step (u32 (pc_real - d.(dli_fbase))) d.(dli_fname) d.(dli_sname)) ;;!
              ret (step + 1, true)
          | None => resume_from_stack n sp (stack_offset + 1) step
          end
  end.

(** "__pthread_clone" *)
Definition pthread_clone : list Z := [95; 95; 112; 116; 104; 114; 101; 97; 100; 95; 99; 108; 111; 110; 101].

Definition is_none {A} (o : option A) : bool := match o with Some _ => false | None => true end.

(** The first correction: the program counter of the crash is in no module, and
    the caller is where the link register points. *)
Definition correct_by_lr (no : Z) : M report Z :=
  let! d := gets dlip in
  if (no =? 1) && is_none d.(dli_fname) then
    let! lr := get_uc ARM_LR in
    set_uc_reg ARM_PC lr ;;!
    let! pc_real := report_real_pc lr in
    find_module pc_real ;;!
    let! d := gets dlip in
    match d.(dli_fname) with
    | Some _ => Write (FrameLr no (u32 (pc_real - d.(dli_fbase))) d.(dli_fname)) ;;! ret (no + 1)
    | None => ret no
    end
  else ret no.

(** One round of the loop: [inl] is the next line number and the result of the
    step, [inr] the [break].  [pc] and [sp] are those of the crash; [status] is
    what the uninitialised field of the cursor holds. *)
Definition backtrace_round (pc sp status : Z) (bFirst : bool) (no : Z) : M report (Z * Z + Z) :=
  let! pc_real := (if bFirst then ret pc else let! arm_pc := get_uc ARM_PC in report_real_pc arm_pc) in
  find_module pc_real ;;!
  let! d := gets dlip in
  Write (Frame no (u32 (pc_real - d.(dli_fbase))) d.(dli_fname)) ;;!
  let! no := correct_by_lr (no + 1) in
  let! d := gets dlip in
  if (no <=? 2) && is_none d.(dli_fname) then
    let! no := scan_stack (Z.to_nat MAX_STACK) sp 0 no in
    ret (inr no)
  else
    match d.(dli_sname) with Some n => Write (Symbol n) | None => ret tt end ;;!
    let! f := gets frame in
    Write (Registers (take 10 (drop 4 f.(uc)))) ;;!
    let! no := (if bool_decide (d.(dli_sname) = Some pthread_clone)
                then let! ' (no, _) := resume_from_stack (Z.to_nat MAX_STACK) sp 0 no in ret no
                else ret no) in
    let! r := on_frame (step load half maps vars module_base status (negb bFirst)) in
    if r =? -2 then
      let! arm_sp := get_uc ARM_SP in
      let! ' (no, found) := resume_from_stack (Z.to_nat MAX_STACK) arm_sp 0 no in
      ret (inl (no, if (found : bool) then 1 else r))
    else ret (inl (no, r)).

(** The loop; every round writes a numbered line. *)
Fixpoint backtrace_loop (fuel : nat) (pc sp status : Z) (bFirst : bool) (no r : Z) : M report Z :=
  match fuel with
  | O => stuck
  | S fuel =>
      if (0 <=? r) && (no <? MAX_STEP) then
        let! x := backtrace_round pc sp status bFirst no in
        match x with
        | inl (no, r) => backtrace_loop fuel pc sp status false no r
        | inr no => ret no
        end
      else ret no
  end.

Definition backtrace (status : Z) : M report Z :=
  let! pc := get_uc ARM_PC in
  let! sp := get_uc ARM_SP in
  backtrace_loop (S (Z.to_nat MAX_STEP)) pc sp status true 0 1.

(** ** The registers *)

Definition REGISTER_CONTEXT_BEFORE := 5.
Definition REGISTER_CONTEXT_AFTER := 10.

(** The memory around each of the sixteen registers. *)
Definition register_memory : M report unit :=
  for_each (fun i => let! v := get_uc i in Write (Register i v) ;;! WriteMemoryNearby v REGISTER_CONTEXT_BEFORE REGISTER_CONTEXT_AFTER) (seqZ 0 16).

(** What the handler gets of the signal. *)
Record siginfo : Type := mkSiginfo { si_signo : Z; si_code : Z; si_errno : Z; si_addr : Z }.

(** The lines above the registers: [time] is what [get_current_data] returns. *)
Definition report_head (head_info dump_java_info : option (list Z)) (keyboard_state : Z) (time : list Z) : M report unit :=
  Write (Title Version) ;;!
  Write (Time_ false time) ;;!
  match head_info with Some s => Write (HeadInfo s) | None => ret tt end ;;!
  (if 0 <=? keyboard_state then Write (Keyboard keyboard_state) else ret tt) ;;!
  match dump_java_info with Some s => Write (Title JavaReport) ;;! Write (JavaStack s) | None => ret tt end ;;!
  Write (Title NativeReport).

(** [handle_crash] on ARM, behind the opening of the report; [status] is what
    the uninitialised field of the cursor holds. *)
Definition handle_crash (head_info dump_java_info : option (list Z)) (keyboard_state : Z) (time : list Z) (info : siginfo) (status : Z) : M report unit :=
  report_head head_info dump_java_info keyboard_state time ;;!
  let! pc := get_uc ARM_PC in
  find_module pc ;;!
  let! d := gets dlip in
  Write (ErrorCode d.(dli_fname) (u32 (pc - d.(dli_fbase)))) ;;!
  Write (SignalInfo info.(si_signo) info.(si_code) info.(si_errno) info.(si_addr)) ;;!
  Write (Title RegistersTitle) ;;!
  let! f := gets frame in
  Write (AllRegisters (take 16 f.(uc))) ;;!
  Write (Title MemoryTitle) ;;!
  register_memory ;;!
  Write (Title BacktraceTitle) ;;!
  let! _ := backtrace status in
  Write (Title ReportEnd).
End Memory.

(** ** What is written about memory *)

Section ReportMemory.
Context (load : Z -> option Z) (rs : list region) (vars : Z * Z * Z).
Let blocks := pair_of <$> filter (fun r => can_read r = true) rs.
Let maps := Some (render <$> rs).
Context (Hrs : Forall mapping_ok rs) (Hblocks : blocks_ok 0 blocks).
(** Address zero is never mapped, and a word can be read if its bytes are in
    readable mappings. *)
Context (Hzero : ~ readable blocks 0).
Context (Hload : forall a, (forall b, a <= b < a + 4 -> readable blocks b) -> exists w, load a = Some w).

Definition word_at (a : Z) : Z := default 0 (load a).

Definition shows (a : Z) : bool := 0 <? check_blocks blocks a 4 0.

(** The lines for the given words, up to the first that cannot be read. *)
Fixpoint listing (todo : list (bool * Z)) : list report_line :=
  match todo with
  | [] => []
  | (cur, a) :: todo => if shows a then Memory cur a (word_at a) :: listing todo else [Illegal cur a]
  end.

(** The table of mappings was read before the first of the lines [l]. *)
Definition table_read (m m' : mem_state) (l : list report_line) : Prop := m' = mkMem true blocks \/ m' = m /\ l = [].

(** The report [s'] is [s] with the lines [l]; the signal context and the answer
    of [dladdr] are the same, the table of mappings is there. *)
Definition wrote (s s' : report) (l : list report_line) : Prop :=
  s'.(lines) = s.(lines) ++ l /\ (s'.(frame).(uc) = s.(frame).(uc) /\ table_read s.(frame).(memory) s'.(frame).(memory) l) /\
  s'.(dlip) = s.(dlip) /\ mem_ready rs s'.(frame).(memory).

Lemma table_read_trans m1 m2 m3 l1 l2 : table_read m1 m2 l1 -> table_read m2 m3 l2 -> table_read m1 m3 (l1 ++ l2).
Proof. intros H1 [->|[-> ->]]; [by left|]. by rewrite app_nil_r. Qed.

Lemma wrote_trans s1 s2 s3 l1 l2 : wrote s1 s2 l1 -> wrote s2 s3 l2 -> wrote s1 s3 (l1 ++ l2).
Proof.
  intros (H1 & [H2 Ht1] & H3 & _) (H4 & [H5 Ht2] & H6 & H7). split; [by rewrite H4, H1, app_assoc|].
  split; [split; [by rewrite H5|by eapply table_read_trans]|]. by rewrite H6.
Qed.

Lemma wp_IsReadable addr (Q : bool -> report -> Prop) E s : mem_ready rs s.(frame).(memory) ->
  (forall s', wrote s s' [] -> s'.(frame).(memory) = mkMem true blocks -> Q (shows addr) s') -> wp (IsReadable maps vars addr 4) Q E s.
Proof.
  intros Hm HQ. unfold IsReadable. apply wp_bind. unfold wp, on_memory, on_frame.
  unfold maps. rewrite (check_mem_ready rs vars Hrs) by done. cbv beta iota. apply wp_ret. apply HQ; [|done].
  split; [cbn; by rewrite app_nil_r|]. split; [split; [done|by left]|]. split; [done|by right].
Qed.

Lemma shows_reads addr : 0 <= addr < 2 ^ 32 - 4 -> shows addr = true -> addr <> 0 /\ exists w, load addr = Some w.
Proof.
  intros Ha Hs. unfold shows in Hs. apply Z.ltb_lt in Hs.
  apply (check_blocks_spec blocks 0 addr 4 Hblocks) in Hs as [Hr _]; [|lia..].
  split; [intros ->; apply Hzero, Hr; lia|]. apply Hload. intros b Hb. apply Hr. lia.
Qed.

(** No mapping reaches the last page. *)
Lemma shows_top addr : 2 ^ 32 - 4 <= addr < 2 ^ 32 -> shows addr = false.
Proof.
  change (2 ^ 32) with 4294967296. intros Ha. unfold shows. apply Z.ltb_ge. revert Hblocks. generalize 0 at 1 as lo. generalize blocks as bs.
  induction bs as [|[s e] bs IH]; intros lo Hok; cbn [check_blocks]; [lia|]. destruct Hok as (_ & Hse & He & Hok).
  destruct (Z.ltb_spec addr s); [lia|]. rewrite (proj2 (Z.ltb_ge _ _)) by lia. by eapply IH.
Qed.

(** A line after the check. *)
Lemma wrote_line s l : s.(frame).(memory) = mkMem true blocks -> wrote s (add_line l s) [l].
Proof. intros Hm. split; [done|]. split; [split; [done|by left]|]. split; [done|by right]. Qed.

Lemma wp_memory_line cur addr (Q : unit -> report -> Prop) E s : s.(frame).(memory) = mkMem true blocks -> 0 <= addr < 2 ^ 32 -> shows addr = true ->
  (forall s', wrote s s' [Memory cur addr (word_at addr)] -> Q tt s') -> wp (memory_line load cur addr) Q E s.
Proof.
  intros Hm Ha Hs HQ. destruct (decide (addr < 2 ^ 32 - 4)); [|rewrite shows_top in Hs by lia; done].
  destruct (shows_reads addr) as [Hne [w Hw]]; [lia|done|]. unfold memory_line, read_memory.
  rewrite (proj2 (Z.eqb_neq addr 0)) by done. wp_steps. eapply wp_of_option; [exact Hw|]. unfold Write. wp_steps.
  unfold word_at in HQ. rewrite Hw in HQ. apply HQ. by apply (wrote_line (set_local w s)).
Qed.

(** [n] words from [a] on. *)
Definition window (n : nat) (a : Z) : list (bool * Z) := (fun i => (false, u32 (a + 4 * i))) <$> seqZ 0 (Z.of_nat n).

Definition all_shown (todo : list (bool * Z)) : bool := forallb (fun p => shows p.2) todo.

Lemma window_cons n a : window (S n) a = (false, u32 a) :: window n (u32 (a + 4)).
Proof.
  unfold window. rewrite seqZ_cons by lia. cbn [fmap list_fmap]. rewrite Z.mul_0_r, Z.add_0_r. f_equal.
  replace (Z.pred (Z.of_nat (S n))) with (Z.of_nat n) by lia. change (Z.succ 0) with (1 + 0).
  rewrite <- (fmap_add_seqZ 1 0), <- list_fmap_compose. apply list_fmap_ext. intros i x _. cbn.
  f_equal. rewrite u32_add_l. f_equal. lia.
Qed.

Lemma wp_memory_lines n : forall a (Q : option Z -> report -> Prop) E s, mem_ready rs s.(frame).(memory) -> 0 <= a < 2 ^ 32 ->
  (forall s', wrote s s' (listing (window n a)) -> Q (if all_shown (window n a) then Some (u32 (a + 4 * Z.of_nat n)) else None) s') ->
  wp (memory_lines load maps vars n a) Q E s.
Proof.
  induction n as [|n IH]; intros a Q E s Hm Ha HQ; cbn [memory_lines].
  - apply wp_ret. cbn in HQ. rewrite Z.add_0_r, u32_small in HQ by lia. apply HQ. split; [by rewrite app_nil_r|]. split; [split; [done|by right]|done].
  - change wordLineBytes with 4. apply wp_bind, wp_IsReadable; [done|]. intros s1 H1 Hb1.
    rewrite window_cons in HQ. cbn [listing all_shown forallb snd] in HQ. rewrite (u32_small a) in HQ by lia.
    destruct (shows a) eqn:Hs; cbn [andb] in HQ.
    + apply wp_bind, wp_memory_line; [done..|]. intros s2 H2. pose proof H2 as (_ & _ & _ & Hm2). apply IH; [done|apply u32_range|].
      intros s3 H3.
      rewrite u32_add_l. replace (a + 4 + 4 * Z.of_nat n) with (a + 4 * Z.of_nat (S n)) by lia. apply HQ.
      apply (wrote_trans s s1 s3 []); [done|]. by apply (wrote_trans s1 s2 s3 [_]).
    + apply wp_bind. unfold Write. apply wp_modify, wp_ret, HQ. apply (wrote_trans s s1 _ [] [_]); [done|]. by apply wrote_line.
Qed.

Lemma listing_app l1 l2 : listing (l1 ++ l2) = listing l1 ++ (if all_shown l1 then listing l2 else []).
Proof.
  induction l1 as [|[cur a] l1 IH]; [done|]. cbn [app listing all_shown forallb snd]. destruct (shows a); [|done]. cbn. by rewrite IH.
Qed.

(** The words asked for: [before] ones below the address, as far as there are
    any, its own, and [after] ones above. *)
Definition around (addr before after : Z) : list (bool * Z) :=
  let n := Z.min before (addr / 4) in
  window (Z.to_nat n) (addr - 4 * n) ++ (true, addr) :: window (Z.to_nat after) (u32 (addr + 4)).

Lemma wp_WriteMemoryNearby addr before after (Q : unit -> report -> Prop) E s : mem_ready rs s.(frame).(memory) ->
  0 <= addr < 2 ^ 32 -> 0 <= before < 2 ^ 30 -> 0 <= after < 2 ^ 30 ->
  (forall s', wrote s s' (listing (around addr before after)) -> Q tt s') ->
  wp (WriteMemoryNearby load maps vars addr before after) Q E s.
Proof.
  change (2 ^ 32) with 4294967296. change (2 ^ 30) with 1073741824. intros Hm Ha Hb Haf HQ.
  unfold WriteMemoryNearby, wordLineBytes, around in *. rewrite !(u32_small (_ * 4)) by lia. rewrite (Z.div_mul after) by lia.
  set (n := Z.min before (addr / 4)) in *. pose proof (Z.div_mod addr 4). pose proof (Z.mod_pos_bound addr 4).
  assert (0 <= n /\ 4 * n <= addr) as Hn by lia.
  assert ((if addr <? before * 4 then addr - addr mod 4 else before * 4) = 4 * n) as -> by (destruct (Z.ltb_spec addr (before * 4)); lia).
  cbv zeta. replace (4 * n / 4) with n by (rewrite Z.mul_comm, Z.div_mul; lia).
  apply wp_bind, wp_modify, wp_bind, wp_memory_lines; [done|lia|]. intros s1 H1.
  change (wrote s s1 (listing (window (Z.to_nat n) (addr - 4 * n)))) in H1.
  pose proof H1 as (_ & _ & _ & Hm1). rewrite listing_app in HQ.
  destruct (all_shown _); [|rewrite app_nil_r in HQ; apply wp_ret, HQ; exact H1].
  rewrite Z2Nat.id by lia. replace (addr - 4 * n + 4 * n) with addr by lia. rewrite (u32_small addr) by lia.
  apply wp_bind, wp_IsReadable; [done|]. intros s2 H2 Hb2. cbn [listing] in HQ.
  destruct (shows addr) eqn:Hs; cbn [negb].
  - apply wp_bind, wp_memory_line; [done|lia|done|]. intros s3 H3. pose proof H3 as (_ & _ & _ & Hm3).
    apply wp_bind, wp_memory_lines; [done|apply u32_range|]. intros s4 H4. apply wp_ret, HQ.
    eapply wrote_trans; [exact H1|]. apply (wrote_trans s1 s2 s4 []); [done|]. by apply (wrote_trans s2 s3 s4 [_]).
  - unfold Write. apply wp_modify, HQ. eapply wrote_trans; [exact H1|]. apply (wrote_trans s1 s2 _ [] [_]); [done|]. by apply wrote_line.
Qed.
End ReportMemory.

(** Whatever an address is, the report lists the words around it up to the
    first that the mappings of the process do not show as readable, and reads
    no other: the crash handler does not crash again. *)
Theorem WriteMemoryNearby_lists load rs vars addr before after s :
  let blocks := pair_of <$> filter (fun r => can_read r = true) rs in
  Forall mapping_ok rs -> blocks_ok 0 blocks -> ~ readable blocks 0 ->
  (forall a, (forall b, a <= b < a + 4 -> readable blocks b) -> exists w, load a = Some w) ->
  mem_ready rs s.(frame).(memory) -> 0 <= addr < 2 ^ 32 -> 0 <= before < 2 ^ 30 -> 0 <= after < 2 ^ 30 ->
  exists s', WriteMemoryNearby load (Some (render <$> rs)) vars addr before after s = (Returns tt, s') /\
    wrote rs s s' (listing load rs (around addr before after)).
Proof.
  intros blocks Hrs Hblocks Hzero Hload Hm Ha Hb Haf.
  assert (wp (WriteMemoryNearby load (Some (render <$> rs)) vars addr before after)
    (fun _ s' => wrote rs s s' (listing load rs (around addr before after))) (fun _ => False) s) as Hwp
    by (apply wp_WriteMemoryNearby; auto).
  destruct (wp_returns _ _ _ Hwp) as ([] & s' & Hrun & Hw). by exists s'.
Qed.

(** "00008000-00009000 r-xp" and "00020000-00021000 rw-p", every word of which
    is its address: the report around 0x8ff4 ends with the last word of the
    mapping, which counts as unreadable. *)
Definition demo_report : report := mkReport (mkFrame [] (mkMem false [])) 0 (mkInfo None 0 None) [].

Lemma WriteMemoryNearby_lists_witness : exists s',
  WriteMemoryNearby (fun a => Some a) (Some (render <$> demo_regions)) (0, 0, 0) 0x8ff4 2 10 demo_report = (Returns tt, s') /\
  wrote demo_regions demo_report s'
    [Memory false 0x8fec 0x8fec; Memory false 0x8ff0 0x8ff0; Memory true 0x8ff4 0x8ff4; Memory false 0x8ff8 0x8ff8; Illegal false 0x8ffc].
Proof.
  apply (WriteMemoryNearby_lists (fun a => Some a) demo_regions (0, 0, 0) 0x8ff4 2 10 demo_report).
  - repeat (constructor; [split; [cbn; lia|split; [cbn; lia|done]]|]). constructor.
  - change (blocks_ok 0 [mkPair 0x8000 0x9000; mkPair 0x20000 0x21000]). cbn. lia.
  - intros H. pose proof (readable_above 0x8000 [mkPair 0x8000 0x9000; mkPair 0x20000 0x21000] 0 ltac:(cbn; lia) H). lia.
  - eauto.
  - by left.
  - lia.
  - lia.
  - lia.
Defined.

(** ** The numbered lines of the backtrace *)

Definition number_of (l : report_line) : option Z :=
  match l with Frame no _ _ | FrameLr no _ _ | FrameStack no _ _ _ => Some no | _ => None end.

Definition numbers (l : list report_line) : list Z := omap number_of l.

(** What holds of the outcome if there is one. *)
Definition post {S A} (m : M S A) (Q : A -> S -> Prop) (s : S) : Prop := forall a s', m s = (Returns a, s') -> Q a s'.

Lemma post_bind {S A B} (m : M S A) (k : A -> M S B) Q s : post m (fun a s' => post (k a) Q s') s -> post (bind m k) Q s.
Proof. intros H b s'. unfold bind. destruct (m s) as [[a| |] s1] eqn:Hm; [|done|done]. exact (H a s1 Hm b s'). Qed.

Lemma post_ret {S A} (a : A) (Q : A -> S -> Prop) s : Q a s -> post (ret a) Q s.
Proof. by intros H ? ? [= <- <-]. Qed.

Lemma post_gets {S A} (f : S -> A) (Q : A -> S -> Prop) s : Q (f s) s -> post (gets f) Q s.
Proof. by intros H ? ? [= <- <-]. Qed.

Lemma post_keeps {S A} (P : S -> Prop) (m : M S A) (Q : A -> S -> Prop) s : keeps P m -> P s -> (forall a s', P s' -> Q a s') -> post m Q s.
Proof. intros Hm Hs HQ a s' Hrun. apply HQ. specialize (Hm s Hs). by rewrite Hrun in Hm. Qed.

Section Backtrace.
Context (load half : Z -> option Z) (maps : option (list (list Z))) (vars : Z * Z * Z) (dladdr : Z -> option Dl_info).

(** Routines that write no line. *)
Section Silent.
Context (L : list report_line).
Definition same_lines (s : report) : Prop := s.(lines) = L.

Lemma keeps_on_frame {A} (m : M crash_frame A) : keeps same_lines (on_frame m).
Proof. intros s Hs. unfold on_frame. by destruct (m s.(frame)) as [o f]. Qed.

Lemma keeps_set_local v : keeps same_lines (modify (set_local v)).
Proof. by intros s Hs. Qed.

Lemma keeps_read_memory a : keeps same_lines (read_memory load a).
Proof. unfold read_memory. pose proof keeps_set_local. keep. Qed.

Lemma keeps_find_module pc : keeps same_lines (find_module dladdr pc).
Proof.
  unfold find_module. apply keeps_bind; [by intros s Hs|]. intros _. destruct (dladdr pc); [|apply keeps_ret]. by intros s Hs.
Qed.

Lemma keeps_get_uc i : keeps same_lines (get_uc i).
Proof. unfold get_uc. keep. Qed.

Lemma keeps_set_uc_reg i v : keeps same_lines (set_uc_reg i v).
Proof. unfold set_uc_reg. apply keeps_bind; [intros s Hs; exact Hs|]. intros f. apply keeps_bind; [apply keeps_of_option|]. by intros r s Hs. Qed.
End Silent.

(** The lines up to [no] are written, behind those of [L0]. *)
Definition numbered (L0 : list Z) (no : Z) (s : report) : Prop := 0 <= no <= MAX_STEP /\ numbers s.(lines) = L0 ++ seqZ 0 no.

Lemma post_silent {A} (m : M report A) (Q : A -> report -> Prop) s L0 no : (forall L, keeps (same_lines L) m) -> numbered L0 no s ->
  (forall a s', numbered L0 no s' -> Q a s') -> post m Q s.
Proof.
  intros Hm [Hno Hs] HQ. apply (post_keeps (same_lines s.(lines))); [apply Hm|done|]. intros a s' Hl. apply HQ.
  split; [done|]. by rewrite Hl.
Qed.

Lemma post_numbered_line l (Q : unit -> report -> Prop) s L0 no : number_of l = Some no -> no < MAX_STEP -> numbered L0 no s ->
  (forall s', numbered L0 (no + 1) s' -> Q tt s') -> post (Write l) Q s.
Proof.
  intros Hl Hlt [Hno Hs] HQ [] s' [= <-]. apply HQ. split; [unfold MAX_STEP in *; lia|].
  unfold add_line. cbn [lines]. unfold numbers in *. rewrite omap_app, Hs. cbn. rewrite Hl. rewrite <- app_assoc. f_equal.
  rewrite (seqZ_app 0 no 1) by lia. done.
Qed.

Lemma post_other_line l (Q : unit -> report -> Prop) s L0 no : number_of l = None -> numbered L0 no s ->
  (forall s', numbered L0 no s' -> Q tt s') -> post (Write l) Q s.
Proof.
  intros Hl [Hno Hs] HQ [] s' [= <-]. apply HQ. split; [done|]. unfold add_line, numbers in *. cbn [lines].
  by rewrite omap_app, Hs; cbn; rewrite Hl, app_nil_r.
Qed.

#[local] Hint Resolve keeps_on_frame keeps_read_memory keeps_find_module keeps_get_uc keeps_set_uc_reg : keeps.

Lemma keeps_real_pc L pc : keeps (same_lines L) (report_real_pc load maps vars pc).
Proof. apply keeps_on_frame. Qed.

#[local] Hint Resolve keeps_real_pc : keeps.

(** A routine that writes numbered lines only, from [no] on: [f] is the next
    number in its result. *)
Definition counts {A} (f : A -> Z) (L0 : list Z) (no : Z) (m : M report A) : Prop :=
  forall s, numbered L0 no s -> post m (fun a s' => no <= f a /\ numbered L0 (f a) s') s.

Lemma post_counts {A} (f : A -> Z) L0 no (m : M report A) Q s : counts f L0 no m -> numbered L0 no s ->
  (forall a s', no <= f a -> numbered L0 (f a) s' -> Q a s') -> post m Q s.
Proof. intros Hm Hs HQ a s' Hrun. destruct (Hm s Hs a s' Hrun). by apply HQ. Qed.

Lemma counts_scan_stack sp n : forall off no L0, counts (fun z => z) L0 no (scan_stack load maps vars dladdr n sp off no).
Proof.
  induction n as [|n IH]; intros off no L0 s Hs; cbn [scan_stack]; [apply post_ret; split; [lia|done]|].
  destruct (Z.leb_spec MAX_STEP no) as [Hmax|Hlt]; [apply post_ret; split; [lia|done]|].
  apply post_bind. eapply post_silent; [auto with keeps|done|]. intros ok s1 H1. destruct ok; cbn [negb]; [|apply post_ret; split; [lia|done]].
  apply post_bind, post_gets, post_bind. eapply post_silent; [auto with keeps|done|]. intros pc s2 H2.
  apply post_bind. eapply post_silent; [auto with keeps|done|]. intros _ s3 H3. apply post_bind, post_gets.
  destruct (dli_fname _); [|exact (IH _ _ _ _ H3)].
  apply post_bind. eapply post_numbered_line; [done|done|exact H3|]. intros s4 H4.
  eapply post_counts; [apply IH|exact H4|]. cbv beta. intros no' s5 Hle H5. split; [lia|done].
Qed.

Lemma counts_resume sp n : forall off no L0, counts fst L0 no (resume_from_stack load maps vars dladdr n sp off no).
Proof.
  induction n as [|n IH]; intros off no L0 s Hs; cbn [resume_from_stack]; [apply post_ret; split; [cbn; lia|done]|].
  destruct (Z.leb_spec MAX_STEP no) as [Hmax|Hlt]; [apply post_ret; split; [cbn; lia|done]|].
  apply post_bind. eapply post_silent; [auto with keeps|done|]. intros ok s1 H1. destruct ok; cbn [negb]; [|apply post_ret; split; [cbn; lia|done]].
  apply post_bind, post_gets, post_bind. eapply post_silent; [auto with keeps|done|]. intros pc s2 H2.
  apply post_bind. eapply post_silent; [auto with keeps|done|]. intros _ s3 H3. apply post_bind, post_gets.
  destruct (dli_fname _); [|exact (IH _ _ _ _ H3)].
  apply post_bind. eapply post_silent; [auto with keeps|exact H3|]. intros r s4 H4.
  apply post_bind. eapply post_silent; [auto with keeps|exact H4|]. intros _ s5 H5.
  apply post_bind. eapply post_silent; [auto with keeps|exact H5|]. intros _ s6 H6.
  apply post_bind. eapply post_numbered_line; [done|done|exact H6|]. intros s7 H7. apply post_ret. split; [cbn; lia|done].
Qed.

Lemma counts_correct no L0 : no <= MAX_STEP -> counts (fun z => z) L0 no (correct_by_lr load maps vars dladdr no).
Proof.
  intros Hmax s Hs. unfold correct_by_lr. apply post_bind, post_gets.
  destruct (Z.eqb_spec no 1) as [->|]; cbn [andb]; [|apply post_ret; split; [lia|done]].
  destruct (is_none _); [|apply post_ret; split; [lia|done]].
  apply post_bind. eapply post_silent; [auto with keeps|exact Hs|]. intros r s1 H1.
  apply post_bind. eapply post_silent; [auto with keeps|exact H1|]. intros _ s2 H2.
  apply post_bind. eapply post_silent; [auto with keeps|exact H2|]. intros pc s3 H3.
  apply post_bind. eapply post_silent; [auto with keeps|exact H3|]. intros _ s4 H4. apply post_bind, post_gets.
  destruct (dli_fname _); [|apply post_ret; split; [lia|done]].
  apply post_bind. eapply post_numbered_line; [done|unfold MAX_STEP; lia|exact H4|]. intros s5 H5. apply post_ret. split; [lia|done].
Qed.

(** The next number, whether the loop goes on or not. *)
Definition next_number (x : Z * Z + Z) : Z := match x with inl (no, _) => no | inr no => no end.

Lemma post_round pc sp status bFirst no L0 s : no < MAX_STEP -> numbered L0 no s ->
  post (backtrace_round load half maps vars dladdr pc sp status bFirst no) (fun x s' => no < next_number x /\ numbered L0 (next_number x) s') s.
Proof.
  intros Hlt Hs. unfold backtrace_round.
  apply post_bind. eapply post_silent; [destruct bFirst; intros; keep|exact Hs|]. intros real s1 H1.
  apply post_bind. eapply post_silent; [auto with keeps|exact H1|]. intros _ s2 H2. apply post_bind, post_gets, post_bind.
  eapply post_numbered_line; [done|done|exact H2|]. intros s3 H3.
  apply post_bind. eapply post_counts; [apply counts_correct; lia|exact H3|]. cbv beta. intros no1 s4 Hle1 H4. apply post_bind, post_gets.
  destruct (_ && _).
  { apply post_bind. eapply post_counts; [apply counts_scan_stack|exact H4|]. cbv beta. intros no2 s5 Hle2 H5. apply post_ret. cbn. split; [lia|done]. }
  apply post_bind.
  assert (forall Q, (forall s', numbered L0 no1 s' -> Q tt s') ->
    post match dli_sname (dlip s4) with Some n => Write (Symbol n) | None => ret tt end Q s4) as Hsym.
  { intros Q HQ. destruct (dli_sname (dlip s4)); [by eapply post_other_line|by apply post_ret, HQ]. }
  apply Hsym. intros s5 H5. apply post_bind, post_gets, post_bind. eapply post_other_line; [done|exact H5|]. intros s6 H6.
  apply post_bind.
  assert (forall Q, (forall no2 s', no1 <= no2 -> numbered L0 no2 s' -> Q no2 s') ->
    post (if bool_decide (dli_sname (dlip s4) = Some pthread_clone)
      then let! ' (no, _) := resume_from_stack load maps vars dladdr (Z.to_nat MAX_STACK) sp 0 no1 in ret no else ret no1) Q s6) as Hclone.
  { intros Q HQ. destruct (bool_decide _); [|apply post_ret, HQ; [lia|done]].
    apply post_bind. eapply post_counts; [apply counts_resume|exact H6|]. intros [no2 b] s7 Hle2 H7. by apply post_ret, HQ. }
  apply Hclone. intros no2 s7 Hle2 H7. apply post_bind. eapply post_silent; [auto with keeps|exact H7|]. intros r s8 H8.
  destruct (r =? -2); [|apply post_ret; cbn; split; [lia|done]].
  apply post_bind. eapply post_silent; [auto with keeps|exact H8|]. intros arm_sp s9 H9.
  apply post_bind. eapply post_counts; [apply counts_resume|exact H9|]. intros [no3 b] s10 Hle3 H10. apply post_ret. cbn in *. split; [lia|done].
Qed.

Lemma loop_enough fuel : forall pc sp status bFirst no r L0 s more, (Z.to_nat (MAX_STEP - no) < fuel)%nat -> numbered L0 no s ->
  backtrace_loop load half maps vars dladdr (fuel + more) pc sp status bFirst no r s =
    backtrace_loop load half maps vars dladdr fuel pc sp status bFirst no r s /\
  post (backtrace_loop load half maps vars dladdr fuel pc sp status bFirst no r) (fun no' s' => numbered L0 no' s') s.
Proof.
  induction fuel as [|fuel IH]; intros pc sp status bFirst no r L0 s more Hf Hs; [lia|]. cbn [Nat.add backtrace_loop].
  destruct (0 <=? r); cbn [andb]; [|split; [done|by apply post_ret]].
  destruct (Z.ltb_spec no MAX_STEP) as [Hlt|Hge]; [|split; [done|by apply post_ret]].
  pose proof (post_round pc sp status bFirst no L0 s Hlt Hs) as Hround. unfold post in *. unfold bind.
  destruct (backtrace_round load half maps vars dladdr pc sp status bFirst no s) as [[x| |] s1]; [|done|done].
  destruct (Hround x s1 eq_refl) as [Hno H1]. destruct x as [[no' r']|no']; cbn in *; [|split; [done|]; by intros ? ? [= <- <-]].
  apply IH; [|done]. lia.
Qed.
End Backtrace.

(** C32. The backtrace ends: 31 rounds of the loop are enough on every memory
    and every stack, and the lines it writes are numbered one by one from zero
    up to at most 29. *)
Theorem backtrace_bounded load half maps vars dladdr pc sp status s more :
  backtrace_loop load half maps vars dladdr (S (Z.to_nat MAX_STEP) + more) pc sp status true 0 1 s =
    backtrace_loop load half maps vars dladdr (S (Z.to_nat MAX_STEP)) pc sp status true 0 1 s /\
  forall no s', backtrace_loop load half maps vars dladdr (S (Z.to_nat MAX_STEP)) pc sp status true 0 1 s = (Returns no, s') ->
    0 <= no <= MAX_STEP /\ numbers s'.(lines) = numbers s.(lines) ++ seqZ 0 no.
Proof.
  apply (loop_enough load half maps vars dladdr _ pc sp status true 0 1 (numbers s.(lines)) s more); [unfold MAX_STEP; lia|].
  split; [unfold MAX_STEP; lia|]. by rewrite app_nil_r.
Qed.

(** A crash outside every module: the lines stop where the stack does. *)
Example backtrace_no_module :
  let s := mkReport (mkFrame (replicate 17 0) (mkMem true [])) 0 (mkInfo None 0 None) [] in
  fst (backtrace (fun _ => None) (fun _ => None) None (0, 0, 0) (fun _ => None) 0 s) = Returns 1.
Proof. reflexivity. Qed.

(** ** The frames of a backtrace *)

Section Walk.
Context (load half : Z -> option Z) (maps : option (list (list Z))) (vars : Z * Z * Z) (dladdr : Z -> option Dl_info) (status : Z).

(** The address a frame is shown with: that of the crash, or of the call. *)
Definition located (bFirst : bool) (f : crash_frame) (pc : Z) (m : mem_state) : Prop :=
  exists p, aget f.(uc) ARM_PC = Some p /\ call_pc load maps vars (negb bFirst) f.(memory) p = (Returns pc, m).

(** The frames from [f] on, as the unwinder finds them: each in a module, with
    its address, what [dladdr] says of it, and its registers; the walk ends
    where the unwinder reports an error. *)
Inductive walk : bool -> crash_frame -> list (Z * Dl_info * list Z) -> Prop :=
| walk_step b f pc m i n r f' ws : located b f pc m -> dladdr pc = Some i -> i.(dli_fname) = Some n ->
    i.(dli_sname) <> Some pthread_clone ->
    step load half maps vars (module_base dladdr) status (negb b) (mkFrame f.(uc) m) = (Returns r, f') ->
    0 <= r -> walk false f' ws -> walk b f ((pc, i, f.(uc)) :: ws)
| walk_end b f pc m i n r f' : located b f pc m -> dladdr pc = Some i -> i.(dli_fname) = Some n ->
    i.(dli_sname) <> Some pthread_clone ->
    step load half maps vars (module_base dladdr) status (negb b) (mkFrame f.(uc) m) = (Returns r, f') ->
    r < 0 -> r <> -2 -> walk b f [(pc, i, f.(uc))].

(** The lines for them. *)
Definition frame_lines (no : Z) (w : Z * Dl_info * list Z) : list report_line :=
  let '(pc, i, uc) := w in
  Frame no (u32 (pc - i.(dli_fbase))) i.(dli_fname) ::
  match i.(dli_sname) with Some n => [Symbol n] | None => [] end ++ [Registers (take 10 (drop 4 uc))].

Fixpoint listed (no : Z) (ws : list (Z * Dl_info * list Z)) : list report_line :=
  match ws with
  | [] => []
  | w :: ws => frame_lines no w ++ listed (no + 1) ws
  end.

Lemma wp_on_frame {A} (m : M crash_frame A) a f' (Q : A -> report -> Prop) E s :
  m s.(frame) = (Returns a, f') -> Q a (set_frame f' s) -> wp (on_frame m) Q E s.
Proof. intros Hm HQ. unfold wp, on_frame. by rewrite Hm. Qed.

Lemma wp_located b pc m (Q : Z -> report -> Prop) E s p0 : located b s.(frame) pc m -> (b = true -> aget s.(frame).(uc) ARM_PC = Some p0) ->
  Q pc (set_frame (mkFrame s.(frame).(uc) m) s) ->
  wp (if b then ret p0 else let! arm_pc := get_uc ARM_PC in report_real_pc load maps vars arm_pc) Q E s.
Proof.
  intros (p & Hp & Hpc) Hb HQ. destruct b; cbn [negb] in *.
  - rewrite Hb in Hp by done. injection Hp as ->. injection Hpc as -> <-. apply wp_ret. by destruct s as [[? ?] ? ? ?].
  - unfold get_uc. wp_steps. eapply wp_of_option; [exact Hp|]. unfold report_real_pc, on_memory.
    eapply wp_on_frame; [cbn in Hpc; by rewrite Hpc|exact HQ].
Qed.

(** A round for a frame of a walk. *)
Lemma wp_backtrace_round b pc0 sp no pc m i n r f' (Q : Z * Z + Z -> report -> Prop) E s :
  located b s.(frame) pc m -> (b = true -> aget s.(frame).(uc) ARM_PC = Some pc0) -> dladdr pc = Some i -> i.(dli_fname) = Some n ->
  i.(dli_sname) <> Some pthread_clone ->
  step load half maps vars (module_base dladdr) status (negb b) (mkFrame s.(frame).(uc) m) = (Returns r, f') -> r <> -2 ->
  (forall s', s'.(frame) = f' -> s'.(lines) = s.(lines) ++ frame_lines no (pc, i, s.(frame).(uc)) -> Q (inl (no + 1, r)) s') ->
  wp (backtrace_round load half maps vars dladdr pc0 sp status b no) Q E s.
Proof.
  intros Hloc Hb Hi Hn Hclone Hstep Hr HQ. unfold backtrace_round.
  apply wp_bind. eapply wp_located; [exact Hloc|done|]. unfold find_module. rewrite Hi. wp_steps. unfold Write. wp_steps.
  unfold correct_by_lr. apply wp_bind, wp_gets. cbn [dlip set_dlip add_line]. rewrite Hn. cbn [is_none]. rewrite andb_false_r.
  apply wp_ret, wp_bind, wp_gets. cbn [dlip set_dlip add_line]. rewrite Hn. cbn [is_none]. rewrite andb_false_r.
  rewrite bool_decide_false by done.
  assert (forall Q' s1, (forall s', s'.(frame) = s1.(frame) ->
      s'.(lines) = s1.(lines) ++ match dli_sname i with Some n => [Symbol n] | None => [] end -> Q' tt s') ->
    wp (match dli_sname i with Some n => Write (Symbol n) | None => ret tt end) Q' E s1) as Hsym.
  { intros Q' s1 HQ'. destruct (dli_sname i); unfold Write; wp_steps; apply HQ'; try done. by rewrite app_nil_r. }
  apply wp_bind, Hsym. intros s1 Hf1 Hl1. cbn [frame lines set_frame set_dlip add_line] in Hf1, Hl1.
  apply wp_bind, wp_gets, wp_bind, wp_modify, wp_bind, wp_ret, wp_bind.
  eapply wp_on_frame; [cbn [frame add_line]; rewrite Hf1; exact Hstep|]. rewrite (proj2 (Z.eqb_neq r (-2))) by done.
  apply wp_ret, HQ; [done|]. cbn [lines set_frame add_line]. rewrite Hl1, Hf1. unfold frame_lines. cbn [uc]. by rewrite <- !app_assoc, Hn.
Qed.

Lemma wp_walk b f ws : walk b f ws -> forall fuel pc0 sp no r s (Q : Z -> report -> Prop) E, s.(frame) = f ->
  (b = true -> aget f.(uc) ARM_PC = Some pc0) -> 0 <= r -> 0 <= no <= MAX_STEP -> (Z.to_nat (MAX_STEP - no) < fuel)%nat ->
  (forall s', s'.(lines) = s.(lines) ++ listed no (take (Z.to_nat (MAX_STEP - no)) ws) -> Q (Z.min MAX_STEP (no + Z.of_nat (length ws))) s') ->
  wp (backtrace_loop load half maps vars dladdr fuel pc0 sp status b no r) Q E s.
Proof.
  induction 1 as [b f pc m i n r' f' ws Hloc Hi Hn Hclone Hstep Hr' Hw IH|b f pc m i n r' f' Hloc Hi Hn Hclone Hstep Hr' Hne];
    intros fuel pc0 sp no r s Q E <- Hb Hr Hno Hf HQ; (destruct fuel as [|fuel]; [lia|]); cbn [backtrace_loop length] in *;
    rewrite (proj2 (Z.leb_le _ _)) by done; cbn [andb];
    (destruct (Z.ltb_spec no MAX_STEP) as [Hlt|Hge];
      [|assert (no = MAX_STEP) as -> by lia; apply wp_ret; rewrite Z.sub_diag in HQ; cbn [Z.to_nat take listed] in HQ;
        rewrite Z.min_l in HQ by lia; apply HQ; by rewrite app_nil_r]);
    assert (Z.to_nat (MAX_STEP - no) = S (Z.to_nat (MAX_STEP - (no + 1)))) as Hn30 by lia; rewrite Hn30 in HQ; cbn [take listed] in HQ.
  - apply wp_bind. eapply wp_backtrace_round; [exact Hloc|exact Hb|exact Hi|exact Hn|done|exact Hstep|lia|]. intros s1 Hf1 Hl1.
    apply IH; [done|done|done|lia|lia|]. intros s2 Hl2. replace (no + 1 + Z.of_nat (length ws)) with (no + Z.of_nat (S (length ws))) by lia.
    apply HQ. by rewrite Hl2, Hl1, <- app_assoc.
  - apply wp_bind. eapply wp_backtrace_round; [exact Hloc|exact Hb|exact Hi|exact Hn|done|exact Hstep|done|]. intros s1 Hf1 Hl1.
    destruct fuel as [|fuel]; [lia|]. cbn [backtrace_loop]. rewrite (proj2 (Z.leb_gt _ _)) by lia. cbn [andb]. apply wp_ret.
    replace (no + 1) with (Z.min MAX_STEP (no + Z.of_nat 1)) by lia. apply HQ. rewrite Hl1. rewrite take_nil. cbn [listed]. by rewrite app_nil_r.
Qed.
End Walk.

(** The whole backtrace. *)
Lemma wp_backtrace load half maps vars dladdr status s ws p sp (Q : Z -> report -> Prop) E :
  walk load half maps vars dladdr status true s.(frame) ws -> aget s.(frame).(uc) ARM_PC = Some p -> aget s.(frame).(uc) ARM_SP = Some sp ->
  (forall s', s'.(lines) = s.(lines) ++ listed 0 (take 30 ws) -> Q (Z.min 30 (Z.of_nat (length ws))) s') ->
  wp (backtrace load half maps vars dladdr status) Q E s.
Proof.
  intros Hw Hp Hsp HQ. unfold backtrace, get_uc. wp_steps. eapply wp_of_option; [exact Hp|]. wp_steps. eapply wp_of_option; [exact Hsp|].
  eapply wp_walk; [exact Hw|done|done|lia|unfold MAX_STEP; lia|unfold MAX_STEP; lia|exact HQ].
Qed.

(** The backtrace shows the frames the unwinder walks through, one
    after the other from the crash on: for each its number, the offset of its
    address in its module, the module, the function if it has a name, and the
    registers it had; the first thirty of them. *)
Theorem backtrace_lists_frames load half maps vars dladdr status s ws p sp :
  walk load half maps vars dladdr status true s.(frame) ws -> aget s.(frame).(uc) ARM_PC = Some p -> aget s.(frame).(uc) ARM_SP = Some sp ->
  exists s', backtrace load half maps vars dladdr status s = (Returns (Z.min 30 (Z.of_nat (length ws))), s') /\
    s'.(lines) = s.(lines) ++ listed 0 (take 30 ws).
Proof.
  intros Hw Hp Hsp.
  assert (wp (backtrace load half maps vars dladdr status)
    (fun no s' => no = Z.min 30 (Z.of_nat (length ws)) /\ s'.(lines) = s.(lines) ++ listed 0 (take 30 ws)) (fun _ => False) s) as Hwp
    by (eapply wp_backtrace; [exact Hw|exact Hp|exact Hsp|auto]).
  destruct (wp_returns _ _ _ Hwp) as (no & s' & Hrun & -> & Hl). by exists s'.
Qed.

(** The frame of CrashExidx.v and its caller, in a module called "m". *)
Definition demo_info : Dl_info := mkInfo (Some [109]) 0x10000 None.
Definition demo_crash : report :=
  mkReport (mkFrame (cursor_regs demo_frame 0) (mkMem false [])) 0 (mkInfo None 0 None) [].
Definition demo_step (bNextCode : bool) (f : crash_frame) : outcome Z * crash_frame :=
  step demo_load demo_half (Some (render <$> demo_text)) (0, 0, 0) (module_base (fun _ => Some demo_info)) 7 bNextCode f.
Definition demo_frame2 : crash_frame := Eval cbv in snd (demo_step false demo_crash.(frame)).

Lemma backtrace_lists_frames_witness : exists s',
  backtrace demo_load demo_half (Some (render <$> demo_text)) (0, 0, 0) (fun _ => Some demo_info) 7 demo_crash = (Returns 2, s') /\
  s'.(lines) = [] ++ listed 0 [(0x11142, demo_info, cursor_regs demo_frame 0); (0x12345, demo_info, demo_frame2.(uc))].
Proof.
  apply (backtrace_lists_frames demo_load demo_half (Some (render <$> demo_text)) (0, 0, 0) (fun _ => Some demo_info) 7 demo_crash
    [(0x11142, demo_info, cursor_regs demo_frame 0); (0x12345, demo_info, demo_frame2.(uc))] 0x11142 0x6fdc).
  - apply (walk_step _ _ _ _ _ _ true demo_crash.(frame) 0x11142 (mkMem false []) demo_info [109] 0 demo_frame2
      [(0x12345, demo_info, demo_frame2.(uc))]).
    + by exists 0x11142.
    + reflexivity.
    + reflexivity.
    + discriminate.
    + vm_compute. reflexivity.
    + lia.
    + apply (walk_end _ _ _ _ _ _ false demo_frame2 0x12345 (mkMem true [mkPair 0x10000 0x12000]) demo_info [109] (-3)
        (snd (demo_step true (mkFrame demo_frame2.(uc) (mkMem true [mkPair 0x10000 0x12000]))))).
      * exists 0x12345. split; vm_compute; reflexivity.
      * reflexivity.
      * reflexivity.
      * discriminate.
      * vm_compute. reflexivity.
      * lia.
      * lia.
  - reflexivity.
  - reflexivity.
Defined.
