(* ===== verification/CrashWhole.v ===== *)
(** * A whole crash report (libcrash_collect/crash/crash_handler.cpp)

    The report of a crash on ARM, from its head over the registers and the
    memory around them to the backtrace, put together from the parts of
    CrashReport.v; and the report on ARM64, whose backtrace is a loop over the
    step of Dwarf.v. *)

From stdpp Require Import base numbers list list_numbers.
From Stdlib Require Import Lia ZArith.
From S2P Require Import Prelude InlineHook ProcMaps MemCheck Exidx ExidxFrame ExidxTable CrashExidx CrashReport Dwarf.

#[local] Open Scope Z_scope.
#[local] Open Scope c_scope.

(** ** On ARM *)

Definition head_lines (head_info dump_java_info : option (list Z)) (keyboard_state : Z) (time : list Z) : list report_line :=
  [Title Version; Time_ false time] ++ match head_info with Some s => [HeadInfo s] | None => [] end ++
  (if 0 <=? keyboard_state then [Keyboard keyboard_state] else []) ++
  match dump_java_info with Some s => [Title JavaReport; JavaStack s] | None => [] end ++ [Title NativeReport].

Lemma wp_report_head head dump kb time (Q : unit -> report -> Prop) E s :
  (forall s', s'.(frame) = s.(frame) -> s'.(dlip) = s.(dlip) -> s'.(lines) = s.(lines) ++ head_lines head dump kb time -> Q tt s') ->
  wp (report_head head dump kb time) Q E s.
Proof.
  intros HQ. unfold report_head, Write, head_lines in *.
  destruct head, dump, (0 <=? kb); wp_steps; apply HQ; try done; cbn [lines add_line]; by rewrite <- !app_assoc.
Qed.

Section Registers.
Context (load : Z -> option Z) (rs : list region) (vars : Z * Z * Z).
Let blocks := pair_of <$> filter (fun r => can_read r = true) rs.
Let maps := Some (render <$> rs).
Context (Hrs : Forall mapping_ok rs) (Hblocks : blocks_ok 0 blocks) (Hzero : ~ readable blocks 0).
Context (Hload : forall a, (forall b, a <= b < a + 4 -> readable blocks b) -> exists w, load a = Some w).

(** A register, and the memory around the address in it. *)
Definition register_lines (R : list Z) (i : Z) : list report_line :=
  let v := reg R i in Register i v :: listing load rs (around v REGISTER_CONTEXT_BEFORE REGISTER_CONTEXT_AFTER).

Lemma listing_around v : listing load rs (around v REGISTER_CONTEXT_BEFORE REGISTER_CONTEXT_AFTER) <> [].
Proof.
  assert (forall todo, listing load rs todo = [] -> todo = []) as H by (intros [|[cur a] todo]; [done|]; cbn; by destruct (shows rs a)).
  intros Hl. apply H in Hl. unfold around in Hl. by apply app_eq_nil in Hl as [_ ?].
Qed.

(** A register after the other. *)
Lemma wp_register_memory_from R l : regs_ok R -> Forall (fun i => 0 <= i < 16) l ->
  forall s (Q : unit -> report -> Prop) E, s.(frame).(uc) = R -> mem_ready rs s.(frame).(memory) ->
  (forall s', wrote rs s s' (l ≫= register_lines R) -> Q tt s') ->
  wp (for_each (fun i => let! v := get_uc i in Write (Register i v) ;;!
    WriteMemoryNearby load maps vars v REGISTER_CONTEXT_BEFORE REGISTER_CONTEXT_AFTER) l) Q E s.
Proof.
  intros HR Hl. induction Hl as [|i l Hi _ IH]; intros s Q E Hs Hm HQ; cbn [for_each].
  - apply wp_ret, HQ. split; [by rewrite app_nil_r|]. split; [split; [done|by right]|done].
  - unfold get_uc. wp_steps. rewrite Hs. eapply wp_of_option; [apply aget_reg; [done|lia]|]. unfold Write. wp_steps.
    apply wp_WriteMemoryNearby; [done..|change (2 ^ 32) with 4294967296; apply reg_range; [done|lia]|unfold REGISTER_CONTEXT_BEFORE; lia|unfold REGISTER_CONTEXT_AFTER; lia|].
    intros s1 (Hl1 & [Hs1 Ht1] & Hd1 & Hm1). apply IH; [by rewrite Hs1|done|]. intros s2 H2. apply HQ.
    rewrite bind_cons. eapply wrote_trans; [|exact H2]. split; [rewrite Hl1; cbn; by rewrite <- app_assoc|].
    split; [split; [done|]|done]. left. destruct Ht1 as [?|[_ He]]; [done|]. by apply listing_around in He.
Qed.
End Registers.

(** The report of a crash has, one after the other and whatever the
    registers hold: the head, the place of the crash and the signal, the
    sixteen registers, for each of them the memory around its address as far as
    it can be read, and the frames of the backtrace; nothing on the way fails. *)
Lemma crash_report_complete load half rs vars dladdr head dump kb time info status s R pc i ws :
  let blocks := pair_of <$> filter (fun r => can_read r = true) rs in
  Forall mapping_ok rs -> blocks_ok 0 blocks -> ~ readable blocks 0 ->
  (forall a, (forall b, a <= b < a + 4 -> readable blocks b) -> exists w, load a = Some w) ->
  s.(frame).(uc) = R -> mem_ready rs s.(frame).(memory) -> regs_ok R ->
  walk load half (Some (render <$> rs)) vars dladdr status true (mkFrame R (mkMem true blocks)) ((pc, i, R) :: ws) ->
  exists s', handle_crash load half (Some (render <$> rs)) vars dladdr head dump kb time info status s = (Returns tt, s') /\
    s'.(lines) = s.(lines) ++ head_lines head dump kb time ++
      [ErrorCode i.(dli_fname) (u32 (pc - i.(dli_fbase))); SignalInfo info.(si_signo) info.(si_code) info.(si_errno) info.(si_addr);
       Title RegistersTitle; AllRegisters (take 16 R); Title MemoryTitle] ++
      (seqZ 0 16 ≫= register_lines load rs R) ++ [Title BacktraceTitle] ++ listed 0 (take 30 ((pc, i, R) :: ws)) ++ [Title ReportEnd].
Proof.
  intros blocks Hrs Hblocks Hzero Hload HR Hm Hok Hwalk. set (ws' := (pc, i, R) :: ws) in *.
  assert (dladdr pc = Some i /\ reg R ARM_PC = pc) as [Hi Hpc].
  { assert (forall f m p, located load (Some (render <$> rs)) vars true (mkFrame R m) p f -> reg R ARM_PC = p) as Hloc.
    { intros f m p (p' & Hp & [= -> _]). rewrite aget_reg in Hp by done. by injection Hp. }
    inversion Hwalk; subst; eauto. }
  enough (wp (handle_crash load half (Some (render <$> rs)) vars dladdr head dump kb time info status)
    (fun _ s' => s'.(lines) = s.(lines) ++ head_lines head dump kb time ++
      [ErrorCode i.(dli_fname) (u32 (pc - i.(dli_fbase))); SignalInfo info.(si_signo) info.(si_code) info.(si_errno) info.(si_addr);
       Title RegistersTitle; AllRegisters (take 16 R); Title MemoryTitle] ++
      (seqZ 0 16 ≫= register_lines load rs R) ++ [Title BacktraceTitle] ++ listed 0 (take 30 ws') ++ [Title ReportEnd]) (fun _ => False) s) as Hwp.
  { destruct (wp_returns _ _ _ Hwp) as ([] & s' & Hrun & H). by exists s'. }
  unfold handle_crash. apply wp_bind, wp_report_head. intros s1 Hf1 Hd1 Hl1.
  unfold get_uc, find_module, Write. wp_steps. rewrite Hf1, HR. eapply wp_of_option; [by apply aget_reg|]. rewrite Hpc, Hi. wp_steps.
  unfold register_memory. eapply (wp_register_memory_from load rs vars Hrs Hblocks Hzero Hload R);
    [done|apply Forall_forall; intros k Hk; apply elem_of_seqZ in Hk; lia|cbn; by rewrite Hf1|cbn; by rewrite Hf1|].
  intros s2 (Hl2 & [HR2 Ht2] & _ & _). cbn [frame lines add_line set_dlip uc] in *. rewrite Hf1 in HR2. wp_steps.
  assert (s2.(frame) = mkFrame R (mkMem true blocks)) as Hf2.
  { destruct Ht2 as [Ht2|[_ He]]; [destruct (s2.(frame)) as [u m]; cbn in *; f_equal; [by rewrite HR2|exact Ht2]|]. by rewrite seqZ_cons in He by lia. }
  eapply wp_backtrace; [cbn; by rewrite Hf2|cbn; rewrite Hf2; by apply aget_reg|cbn; rewrite Hf2; by apply aget_reg|].
  intros s3 Hl3. wp_steps. cbn [lines add_line dlip set_dlip] in *. rewrite Hl3, Hl2, Hl1, Hf1, HR.
  by rewrite <- !app_assoc.
Qed.

(** The crash of CrashReport.v, with zeros in the memory it says nothing of. *)
Definition whole_load (a : Z) : option Z := Some (default 0 (demo_load a)).
Definition whole_step (bNextCode : bool) (f : crash_frame) : outcome Z * crash_frame :=
  CrashExidx.step whole_load demo_half (Some (render <$> demo_text)) (0, 0, 0) (module_base (fun _ => Some demo_info)) 7 bNextCode f.
Definition demo_table : mem_state := mkMem true [mkPair 0x10000 0x12000].
Definition whole_frame2 : crash_frame := Eval vm_compute in snd (whole_step false (mkFrame (cursor_regs demo_frame 0) demo_table)).

Lemma whole_walk : walk whole_load demo_half (Some (render <$> demo_text)) (0, 0, 0) (fun _ => Some demo_info) 7 true
  (mkFrame (cursor_regs demo_frame 0) demo_table)
  [(0x11142, demo_info, cursor_regs demo_frame 0); (0x12345, demo_info, whole_frame2.(uc))].
Proof.
  apply (walk_step _ _ _ _ _ _ true (mkFrame (cursor_regs demo_frame 0) demo_table) 0x11142 demo_table demo_info [109] 0 whole_frame2
    [(0x12345, demo_info, whole_frame2.(uc))]).
  - by exists 0x11142.
  - reflexivity.
  - reflexivity.
  - discriminate.
  - vm_compute. reflexivity.
  - lia.
  - apply (walk_end _ _ _ _ _ _ false whole_frame2 0x12345 demo_table demo_info [109] (-3) (snd (whole_step true (mkFrame whole_frame2.(uc) demo_table)))).
    + exists 0x12345. split; vm_compute; reflexivity.
    + reflexivity.
    + reflexivity.
    + discriminate.
    + vm_compute. reflexivity.
    + lia.
    + lia.
Qed.

(** ** On ARM64 *)

Section Arm64.
Context (byte : Z -> option Z) (dladdr : Z -> option Dl_info) (fuel : nat).

(** What the step of the ARM64 unwinder does to the signal context, of which the
    33 registers are in [uc] here. *)
Definition Step64 : M report Z := fun s =>
  match step64 byte (module_base dladdr) fuel s.(frame).(uc) new_frame with
  | (Returns (r, regs), _) => (Returns r, set_frame (set_uc regs s.(frame)) s)
  | (Fails, _) => (Fails, s)
  | (Stuck, _) => (Stuck, s)
  end.

(** The loop, with a round for each line that is left of thirty. *)
Fixpoint backtrace64 (n : nat) (r step : Z) : M report Z :=
  match n with
  | O => ret step
  | S n =>
      if 0 <? r then
        let! pc := get_uc ARM64_PC in
        find_module dladdr pc ;;!
        let! d := gets dlip in
        Write (Frame step (u64 (pc - d.(dli_fbase))) d.(dli_fname)) ;;!
        let! r := Step64 in
        backtrace64 n r (step + 1)
      else ret step
  end.

Definition handle_crash64 (head_info dump_java_info : option (list Z)) (keyboard_state : Z) (time time' : list Z) (info : siginfo) : M report unit :=
  report_head head_info dump_java_info keyboard_state time ;;!
  let! pc := get_uc ARM64_PC in
  find_module dladdr pc ;;!
  let! d := gets dlip in
  Write (ErrorCode d.(dli_fname) (u64 (pc - d.(dli_fbase)))) ;;!
  Write (Time_ true time') ;;!
  Write (SignalInfo info.(si_signo) info.(si_code) info.(si_errno) info.(si_addr)) ;;!
  Write (Title RegistersTitle) ;;!
  let! f := gets frame in
  Write (AllRegisters f.(uc)) ;;!
  Write (Title BacktraceTitle) ;;!
  let! _ := backtrace64 (Z.to_nat MAX_STEP) 1 0 in
  Write (Title ReportEnd).

(** The frames the ARM64 unwinder walks through from the given registers on. *)
Inductive walk64 : list Z -> list (Z * Dl_info) -> Prop :=
| walk64_step R pc i r R' f ws : aget R ARM64_PC = Some pc -> dladdr pc = Some i ->
    step64 byte (module_base dladdr) fuel R new_frame = (Returns (r, R'), f) -> 0 < r -> walk64 R' ws -> walk64 R ((pc, i) :: ws)
| walk64_end R pc i r R' f : aget R ARM64_PC = Some pc -> dladdr pc = Some i ->
    step64 byte (module_base dladdr) fuel R new_frame = (Returns (r, R'), f) -> r <= 0 -> walk64 R [(pc, i)].

Definition frame_line64 (no : Z) (w : Z * Dl_info) : report_line := Frame no (u64 (w.1 - w.2.(dli_fbase))) w.2.(dli_fname).

Fixpoint listed64 (no : Z) (ws : list (Z * Dl_info)) : list report_line :=
  match ws with
  | [] => []
  | w :: ws => frame_line64 no w :: listed64 (no + 1) ws
  end.

Lemma wp_backtrace64 R ws : walk64 R ws -> forall n r no s (Q : Z -> report -> Prop) E, s.(frame).(uc) = R -> 0 < r ->
  (forall s', s'.(lines) = s.(lines) ++ listed64 no (take n ws) -> Q (no + Z.of_nat (length (take n ws))) s') ->
  wp (backtrace64 n r no) Q E s.
Proof.
  induction 1 as [R pc i r' R' f ws Hpc Hi Hstep Hr' _ IH|R pc i r' R' f Hpc Hi Hstep Hr']; intros n r no s Q E HR Hr HQ;
    (destruct n as [|n]; [apply wp_ret; rewrite <- (Z.add_0_r no); apply HQ; by rewrite app_nil_r|]); cbn [backtrace64 take listed64 length] in *;
    rewrite (proj2 (Z.ltb_lt 0 r)) by done; unfold get_uc, find_module, Write; wp_steps; rewrite HR; (eapply wp_of_option; [exact Hpc|]);
    rewrite Hi; wp_steps; unfold Step64, wp; cbn [frame uc set_dlip add_line]; rewrite HR, Hstep; cbv beta iota.
  - apply IH; [done|done|]. intros s' Hl. cbn [lines set_frame add_line dlip set_dlip] in Hl.
    replace (no + 1 + Z.of_nat (length (take n ws))) with (no + Z.of_nat (S (length (take n ws)))) by lia. apply HQ.
    rewrite Hl, <- app_assoc. done.
  - destruct n as [|n]; cbn [backtrace64]; [|rewrite (proj2 (Z.ltb_ge 0 r')) by done]; apply wp_ret; rewrite ?take_nil in HQ; apply HQ; done.
Qed.
End Arm64.

(** The report on ARM64 lists the frames the unwinder walks through, and no
    more than thirty. *)
Lemma crash_report64_complete byte dladdr fuel head dump kb time time' info s R pc i ws :
  s.(frame).(uc) = R -> walk64 byte dladdr fuel R ((pc, i) :: ws) ->
  exists s', handle_crash64 byte dladdr fuel head dump kb time time' info s = (Returns tt, s') /\
    s'.(lines) = s.(lines) ++ head_lines head dump kb time ++
      [ErrorCode i.(dli_fname) (u64 (pc - i.(dli_fbase))); Time_ true time'; SignalInfo info.(si_signo) info.(si_code) info.(si_errno) info.(si_addr);
       Title RegistersTitle; AllRegisters R; Title BacktraceTitle] ++ listed64 0 (take 30 ((pc, i) :: ws)) ++ [Title ReportEnd].
Proof.
  intros HR Hwalk. set (ws' := (pc, i) :: ws) in *.
  assert (aget R ARM64_PC = Some pc /\ dladdr pc = Some i) as [Hpc Hi] by (inversion Hwalk; subst; auto).
  enough (wp (handle_crash64 byte dladdr fuel head dump kb time time' info)
    (fun _ s' => s'.(lines) = s.(lines) ++ head_lines head dump kb time ++
      [ErrorCode i.(dli_fname) (u64 (pc - i.(dli_fbase))); Time_ true time'; SignalInfo info.(si_signo) info.(si_code) info.(si_errno) info.(si_addr);
       Title RegistersTitle; AllRegisters R; Title BacktraceTitle] ++ listed64 0 (take 30 ws') ++ [Title ReportEnd]) (fun _ => False) s) as Hwp.
  { destruct (wp_returns _ _ _ Hwp) as ([] & s' & Hrun & H). by exists s'. }
  unfold handle_crash64. apply wp_bind, wp_report_head. intros s1 Hf1 Hd1 Hl1.
  unfold get_uc, find_module, Write. wp_steps. rewrite Hf1, HR. eapply wp_of_option; [exact Hpc|]. rewrite Hi. wp_steps.
  eapply wp_backtrace64; [exact Hwalk|cbn; by rewrite Hf1|lia|]. intros s2 Hl2. wp_steps.
  cbn [lines add_line dlip set_dlip frame] in *. rewrite Hl2, Hl1, Hf1, HR. by rewrite <- !app_assoc.
Qed.
