(* ===== verification/ReportWriter.v ===== *)
(** * The text of a report (libcrash_collect/utils/report_writer.cpp)

    The lines of CrashReport.v as they are printed: [ReportWriter::Write]
    formats its arguments into a buffer of 255 bytes on the stack and appends
    it to the file.  The formats are those of crash_handler.cpp. *)

From Stdlib Require Import Lia ZArith String Ascii.
From stdpp Require Import base numbers list list_numbers.
From S2P Require Import Prelude InlineHook ProcMaps MemCheck Exidx ExidxFrame ExidxTable CrashExidx CrashReport CrashWhole.

#[local] Open Scope Z_scope.
#[local] Open Scope c_scope.
#[local] Abbreviation length := Datatypes.length.

Definition MAX_FILE_SIZE := 50 * 1024.
Definition BUF_SIZE := 255.

(** The characters of a string; a new line is 10. *)
Definition chars (s : string) : list Z := (fun a => Z.of_N (N_of_ascii a)) <$> list_ascii_of_string s.

(** ** [vsprintf] *)

Inductive arg : Type := Num (v : Z) | Str (s : option (list Z)).

(** The digits of a number that is not negative; no number has more than 20. *)
Fixpoint digits (fuel : nat) (base v : Z) (acc : list Z) : list Z :=
  match fuel with
  | O => acc
  | S fuel =>
      let d := v mod base in
      let acc := (if d <? 10 then 48 + d else 87 + d) :: acc in
      if v / base =? 0 then acc else digits fuel base (v / base) acc
  end.

Definition pad (zero : bool) (width : Z) (t : list Z) : list Z :=
  replicate (Z.to_nat (width - Z.of_nat (length t))) (if zero then 48 else 32) ++ t.

Definition null_string : list Z := chars "(null)".

(** Between conversions, or behind a [%] with its flag and width. *)
Inductive mode : Type := Literal | Directive (zero : bool) (width : Z).

(** [%d], [%x] and [%s] with a flag 0, a width and a size; [None] if the format
    is not one of these or an argument is missing or of another type. *)
Fixpoint format (m : mode) (fmt : list Z) (args : list arg) : option (list Z) :=
  match fmt with
  | [] => match m with Literal => Some [] | Directive _ _ => None end
  | c :: fmt =>
      match m with
      | Literal => if c =? 37 then format (Directive false 0) fmt args else cons c <$> format Literal fmt args
      | Directive zero width =>
          if c =? 37 then cons 37 <$> format Literal fmt args
          else if (c =? 48) && (width =? 0) then format (Directive true width) fmt args
          else if (48 <=? c) && (c <=? 57) then format (Directive zero (10 * width + (c - 48))) fmt args
          else if c =? 108 then format (Directive zero width) fmt args
          else
            match args with
            | Num v :: args =>
                if c =? 100 then
                  app (if v <? 0 then 45 :: pad zero (width - 1) (digits 20 10 (- v) []) else pad zero width (digits 20 10 v []))
                    <$> format Literal fmt args
                else if c =? 120 then app (pad zero width (digits 20 16 v [])) <$> format Literal fmt args
                else None
            | Str s :: args => if c =? 115 then app (default null_string s) <$> format Literal fmt args else None
            | [] => None
            end
      end
  end.

(** ** The writer *)

(** Whether the file is open, and what is in it. *)
Record writer : Type := mkWriter { open_success : bool; contents : list Z }.

Definition add_text (t : list Z) (w : writer) : writer := mkWriter w.(open_success) (w.(contents) ++ t).

(** [can_open]: [open] succeeds; [size] is what [GetFileSize] returns. *)
Definition OpenReportFile (can_open : bool) (size : Z) (old : list Z) : writer :=
  if can_open then if MAX_FILE_SIZE <? size then mkWriter true [] else mkWriter true old
  else mkWriter false [].

(** [Write]; a text that does not fit into the buffer is written behind it. *)
Definition Write (content : list Z) (args : list arg) : M writer unit :=
  let! ok := gets open_success in
  if ok : bool then
    let! buf := of_option (format Literal content args) in
    if BUF_SIZE <=? Z.of_nat (length buf) then stuck else modify (add_text buf)
  else ret tt.

Definition WriteString (content : list Z) : M writer unit :=
  let! ok := gets open_success in
  if ok : bool then modify (add_text content) else ret tt.

(** ** The lines *)

Definition nl : list Z := [10].

(** One call of the writer. *)
Inductive output : Type := Formatted (content : list Z) (args : list arg) | Raw (s : list Z).

Definition title_text (t : title) : list Z :=
  match t with
  | Version => nl ++ nl ++ chars "[crashcollect version] 1.0  " ++ nl
  | JavaReport => nl ++ chars "******Java backtrace Report******" ++ nl
  | NativeReport => nl ++ chars "******Native Crash Report******" ++ nl
  | RegistersTitle => nl ++ nl ++ chars "[Registers]  " ++ nl
  | MemoryTitle => nl ++ nl ++ chars "[Memory]  " ++ nl
  | BacktraceTitle => nl ++ nl ++ chars "[Backtrace]  " ++ nl
  | ReportEnd => nl ++ chars "******Native Crash Report End******" ++ nl
  end.

Definition register_names : list (list Z) :=
  [chars "r0"; chars "r1"; chars "r2"; chars "r3"; chars "r4"; chars "r5"; chars "r6"; chars "r7";
   chars "r8"; chars "r9"; chars "sl"; chars "fp"; chars "ip"; chars "sp"; chars "lr"; chars "pc"].

Definition register_name (i : Z) : list Z := default [] (register_names !! Z.to_nat i).

(** Four registers to a line. *)
Definition register_output (i v : Z) : output :=
  Formatted ((if i mod 4 =? 0 then chars "  " else []) ++ register_name i ++ chars " %08x  " ++ (if (i mod 4 =? 3) && (i <? 15) then nl else [])) [Num v].

(** Those of a frame: from r4 to sp on one line. *)
Definition frame_output (i v : Z) : output :=
  Formatted ((if i =? 4 then chars "               " else []) ++ register_name i ++ (if i =? 13 then chars " %08x" ++ nl ++ nl else chars " %08x  ")) [Num v].

(** Three registers of ARM64 to a line: the numbered ones, then sp and pc. *)
Fixpoint outputs64 (names : list (list Z)) (regs : list Z) : list output :=
  match names, regs with
  | n1 :: n2 :: n3 :: names, v1 :: v2 :: v3 :: regs =>
      Formatted (chars "  " ++ n1 ++ chars " %016llx  " ++ n2 ++ chars " %016llx  " ++ n3 ++ chars " %016llx  " ++ nl) [Num v1; Num v2; Num v3] :: outputs64 names regs
  | _, _ => []
  end.

Definition names64 : list (list Z) :=
  ((fun i => 120 :: pad true 2 (digits 20 10 i [])) <$> seqZ 0 31) ++ [chars "sp"; chars "pc"].

(** The calls for a line, on ARM or on ARM64. *)
Definition outputs (arm64 : bool) (l : report_line) : list output :=
  match l with
  | Title t => [Formatted (title_text t) []]
  | Time_ b t => [Formatted ((if b then nl else []) ++ chars "[Time] %s  ") [Str (Some t)]]
  | HeadInfo s => [Formatted s []]
  | Keyboard state => [Formatted (nl ++ chars "[Keyboard Show State] %d  " ++ nl) [Num state]]
  | JavaStack s => [Raw s]
  | ErrorCode fname offset => [Formatted (nl ++ chars "[Error Code] %s_%x  " ++ nl) [Str fname; Num offset]]
  | SignalInfo signo code errno addr =>
      [Formatted (nl ++ chars "[Signal number] %d  [Signal code] %d  [Signal errno] %d  [Fault addr] %08x") [Num signo; Num code; Num errno; Num addr]]
  | AllRegisters regs => if arm64 then outputs64 names64 regs else imap (fun i v => register_output (Z.of_nat i) v) regs
  | Memory cur addr word =>
      [Formatted (if cur then chars "--> %08x" else chars "    %08x") [Num addr]; Formatted (chars " %08x") [Num word]; Formatted nl []]
  | Illegal cur addr => [Formatted ((if cur then chars "--> " else chars "    ") ++ chars "%08x ----Illegal Address----" ++ nl) [Num addr]]
  | Frame no offset fname =>
      [Formatted (if arm64 then chars "  #%02d %016llx %s " ++ nl else chars "  #%02d %08x %s " ++ nl) [Num no; Num offset; Str fname]]
  | FrameLr no offset fname => [Formatted (chars "  $%02d %08x %s" ++ nl) [Num no; Num offset; Str fname]]
  | FrameStack no offset fname sname => [Formatted (chars "  $%02d %08x %s %s  " ++ nl) [Num no; Num offset; Str fname; Str sname]]
  | Symbol sname => [Formatted (chars "               %s" ++ nl) [Str (Some sname)]]
  | Register i v => [Formatted (register_name i ++ chars " %08x  " ++ nl) [Num v]]
  | Registers regs => imap (fun i v => frame_output (4 + Z.of_nat i) v) regs
  end.

Definition put_output (o : output) : M writer unit :=
  match o with Formatted content args => Write content args | Raw s => WriteString s end.

Definition put_lines (arm64 : bool) (ls : list report_line) : M writer unit := for_each put_output (ls ≫= outputs arm64).

(** ** How long a text is *)

Lemma digits_length fuel base : forall v acc, (length (digits fuel base v acc) <= fuel + length acc)%nat.
Proof.
  induction fuel as [|fuel IH]; intros v acc; cbn [digits]; [lia|]. destruct (v / base =? 0); cbn [length]; [lia|].
  etransitivity; [apply IH|]. cbn [length]. lia.
Qed.

Lemma pad_length zero width t : (length (pad zero width t) <= Nat.max (Z.to_nat width) (length t))%nat.
Proof. unfold pad. rewrite length_app, length_replicate. lia. Qed.

(** What is known of an argument: a number, or a string of at most [n]
    characters. *)
Inductive kind : Type := KNum | KStr (n : nat).

Definition of_kind (a : arg) (k : kind) : Prop :=
  match a, k with
  | Num _, KNum => True
  | Str s, KStr n => (length (default null_string s) <= n)%nat
  | _, _ => False
  end.

(** An upper bound of the length, for arguments of the given kinds. *)
Fixpoint shape (m : mode) (fmt : list Z) (ks : list kind) : option nat :=
  match fmt with
  | [] => match m with Literal => Some 0%nat | Directive _ _ => None end
  | c :: fmt =>
      match m with
      | Literal => if c =? 37 then shape (Directive false 0) fmt ks else S <$> shape Literal fmt ks
      | Directive zero width =>
          if c =? 37 then S <$> shape Literal fmt ks
          else if (c =? 48) && (width =? 0) then shape (Directive true width) fmt ks
          else if (48 <=? c) && (c <=? 57) then shape (Directive zero (10 * width + (c - 48))) fmt ks
          else if c =? 108 then shape (Directive zero width) fmt ks
          else
            match ks with
            | KNum :: ks => if (c =? 100) || (c =? 120) then Nat.add (Nat.max (S (Z.to_nat width)) 21) <$> shape Literal fmt ks else None
            | KStr n :: ks => if c =? 115 then Nat.add n <$> shape Literal fmt ks else None
            | [] => None
            end
      end
  end.

(** The text of a format whose bound is known. *)
Definition fits (m : mode) (fmt : list Z) (args : list arg) (b : nat) : Prop := exists t, format m fmt args = Some t /\ (length t <= b)%nat.

Lemma fits_app m fmt args b m' fmt' args' x n : fits m fmt args b -> format m' fmt' args' = app x <$> format m fmt args -> (length x <= n)%nat ->
  fits m' fmt' args' (n + b).
Proof. intros (t & Ht & Hb) He Hx. exists (x ++ t). rewrite He, Ht. split; [done|]. rewrite length_app. lia. Qed.

Lemma shape_sound fmt : forall m args ks b, Forall2 of_kind args ks -> shape m fmt ks = Some b -> fits m fmt args b.
Proof.
  induction fmt as [|c fmt IH]; intros m args ks b Hk Hs; cbn [shape] in Hs.
  - destruct m; [|done]. injection Hs as <-. by exists [].
  - destruct m as [|zero width].
    + destruct (c =? 37) eqn:E; [|].
      * unfold fits. cbn [format]. rewrite E. by eapply IH.
      * apply fmap_Some in Hs as (b' & Hs & ->). eapply (fits_app Literal fmt args b' _ _ _ [c] 1); [by eapply IH|cbn [format]; by rewrite E|done].
    + destruct (c =? 37) eqn:E37.
      { apply fmap_Some in Hs as (b' & Hs & ->). eapply (fits_app Literal fmt args b' _ _ _ [37] 1); [by eapply IH|cbn [format]; by rewrite E37|done]. }
      destruct ((c =? 48) && (width =? 0)) eqn:E48; [unfold fits; cbn [format]; rewrite E37, E48; by eapply IH|].
      destruct ((48 <=? c) && (c <=? 57)) eqn:E9; [unfold fits; cbn [format]; rewrite E37, E48, E9; by eapply IH|].
      destruct (c =? 108) eqn:El; [unfold fits; cbn [format]; rewrite E37, E48, E9, El; by eapply IH|].
      destruct ks as [|[|n] ks]; [done| |].
      * apply Forall2_cons_inv_r in Hk as ([v|] & args' & Hv & Hk & ->); [|done].
        destruct ((c =? 100) || (c =? 120)) eqn:Ec; [|done]. apply fmap_Some in Hs as (b' & Hs & ->).
        pose proof (IH _ _ _ _ Hk Hs) as Hfit. destruct (c =? 100) eqn:Ed; cbn [orb] in Ec.
        -- eapply fits_app; [exact Hfit|cbn [format]; by rewrite E37, E48, E9, El, Ed|].
           destruct (v <? 0); cbn [length]; [pose proof (pad_length zero (width - 1) (digits 20 10 (- v) []))|pose proof (pad_length zero width (digits 20 10 v []))];
             [pose proof (digits_length 20 10 (- v) [])|pose proof (digits_length 20 10 v [])]; cbn [length] in *; lia.
        -- eapply fits_app; [exact Hfit|cbn [format]; by rewrite E37, E48, E9, El, Ed, Ec|].
           pose proof (pad_length zero width (digits 20 16 v [])). pose proof (digits_length 20 16 v []). cbn [length] in *. lia.
      * apply Forall2_cons_inv_r in Hk as ([|s] & args' & Hv & Hk & ->); [done|].
        destruct (c =? 115) eqn:Ec; [|done]. apply fmap_Some in Hs as (b' & Hs & ->).
        eapply fits_app; [by eapply IH|cbn [format]; by rewrite E37, E48, E9, El, Ec|exact Hv].
Qed.

(** ** Lines that fit *)

(** A name of at most 100 characters. *)
Definition short_name (s : option (list Z)) : Prop := (length (default null_string s) <= 100)%nat.

(** What a line needs to fit into the buffer. *)
Definition short_line (arm64 : bool) (l : report_line) : Prop :=
  match l with
  | Time_ _ t => short_name (Some t)
  | HeadInfo s => (length s < 255)%nat /\ 37 ∉ s
  | ErrorCode fname _ | Frame _ _ fname | FrameLr _ _ fname => short_name fname
  | FrameStack _ _ fname sname => short_name fname /\ short_name sname
  | Symbol sname => short_name (Some sname)
  | AllRegisters regs => arm64 = true \/ (length regs <= 16)%nat
  | Register i _ => 0 <= i < 16
  | Registers regs => (length regs <= 10)%nat
  | _ => True
  end.

Definition small (o : output) : Prop :=
  match o with Formatted content args => exists t, format Literal content args = Some t /\ Z.of_nat (length t) < BUF_SIZE | Raw _ => True end.

Definition small_shape (content : list Z) (ks : list kind) : bool :=
  match shape Literal content ks with Some b => (b <? 255)%nat | None => false end.

Lemma small_of_shape content args ks : Forall2 of_kind args ks -> small_shape content ks = true -> small (Formatted content args).
Proof.
  intros Hk Hs. unfold small_shape in Hs. destruct (shape Literal content ks) as [b|] eqn:E; [|done]. apply Nat.ltb_lt in Hs.
  destruct (shape_sound _ _ _ _ _ Hk E) as (t & Ht & Hb). exists t. split; [done|]. unfold BUF_SIZE. lia.
Qed.

(** The lines with a register each. *)
Lemma small_imap (f : nat -> Z -> output) (n : nat) (fmt : nat -> list Z) regs :
  (forall i v, f i v = Formatted (fmt i) [Num v]) -> forallb (fun i => small_shape (fmt i) [KNum]) (seq 0 n) = true ->
  (length regs <= n)%nat -> Forall small (imap f regs).
Proof.
  intros Hf Hall Hlen. apply Forall_lookup. intros i o Ho. apply list_lookup_imap_Some in Ho as (v & Hv & ->). rewrite Hf.
  apply (small_of_shape _ _ [KNum]); [by repeat constructor|]. apply lookup_lt_Some in Hv.
  rewrite forallb_forall in Hall. apply (Hall i), in_seq. lia.
Qed.

Fixpoint small_names (names : list (list Z)) : bool :=
  match names with
  | n1 :: n2 :: n3 :: names =>
      small_shape (chars "  " ++ n1 ++ chars " %016llx  " ++ n2 ++ chars " %016llx  " ++ n3 ++ chars " %016llx  " ++ nl) [KNum; KNum; KNum] && small_names names
  | _ => true
  end.

Lemma small_outputs64 n : forall names regs, (length names <= n)%nat -> small_names names = true -> Forall small (outputs64 names regs).
Proof.
  induction n as [|n IH]; intros names regs Hn Hs; [by destruct names; [destruct regs|cbn in Hn; lia]|].
  destruct names as [|n1 [|n2 [|n3 names]]]; try (destruct regs; constructor). destruct regs as [|v1 [|v2 [|v3 regs]]]; try constructor.
  - cbn [small_names] in Hs. apply andb_prop in Hs as [Hs _]. by apply (small_of_shape _ _ [KNum; KNum; KNum]); [repeat constructor|].
  - apply andb_prop in Hs as [_ Hs]. apply IH; [cbn in Hn; lia|done].
Qed.

(** A format of literal characters. *)
Lemma format_literal s : 37 ∉ s -> format Literal s [] = Some s.
Proof.
  induction s as [|c s IH]; intros H; [done|]. apply not_elem_of_cons in H as [Hc H]. cbn [format].
  by rewrite (proj2 (Z.eqb_neq c 37)), IH by done.
Qed.

Lemma small_register i v : 0 <= i < 16 -> small (Formatted (register_name i ++ chars " %08x  " ++ nl) [Num v]).
Proof.
  intros Hi. apply (small_of_shape _ _ [KNum]); [by repeat constructor|].
  assert (forallb (fun k => small_shape (register_name (Z.of_nat k) ++ chars " %08x  " ++ nl) [KNum]) (seq 0 16) = true) as H by (by vm_compute).
  rewrite forallb_forall in H. specialize (H (Z.to_nat i)). rewrite Z2Nat.id in H by lia. apply H, in_seq. lia.
Qed.

Ltac by_shape ks := apply (small_of_shape _ _ ks); [by repeat first [apply List.Forall2_nil | apply List.Forall2_cons]|by vm_compute].

Lemma short_fits arm64 l : short_line arm64 l -> Forall small (outputs arm64 l).
Proof.
  destruct l as [t|b t|s|n|s|fname off|sg cd er ad|regs|cur a w|cur a|no off fname|no off fname|no off fname sname|sname|i v|regs];
    cbn [outputs short_line]; intros H.
  - constructor; [|constructor]. destruct t; by_shape ([] : list kind).
  - constructor; [|constructor]. destruct b; by_shape [KStr 100].
  - constructor; [|constructor]. destruct H as [Hl H]. exists s. split; [by apply format_literal|]. unfold BUF_SIZE. lia.
  - constructor; [|constructor]. by_shape [KNum].
  - by repeat constructor.
  - constructor; [|constructor]. by_shape [KStr 100; KNum].
  - constructor; [|constructor]. by_shape [KNum; KNum; KNum; KNum].
  - destruct arm64; [by apply (small_outputs64 33); [|vm_compute]|]. destruct H as [?|H]; [done|].
    by eapply (small_imap _ 16); [reflexivity|vm_compute|].
  - constructor; [|constructor; [|constructor; [|constructor]]]; [destruct cur; by_shape [KNum]|by_shape [KNum]|by_shape ([] : list kind)].
  - constructor; [|constructor]. destruct cur; by_shape [KNum].
  - constructor; [|constructor]. destruct arm64; by_shape [KNum; KNum; KStr 100].
  - constructor; [|constructor]. by_shape [KNum; KNum; KStr 100].
  - constructor; [|constructor]. destruct H. by_shape [KNum; KNum; KStr 100; KStr 100].
  - constructor; [|constructor]. by_shape [KStr 100].
  - constructor; [|constructor]. by apply small_register.
  - by eapply (small_imap _ 10); [reflexivity|vm_compute|].
Qed.

(** ** Writing a report *)

(** What a call of the writer adds to the file. *)
Definition output_text (o : output) : list Z :=
  match o with Formatted content args => default [] (format Literal content args) | Raw s => s end.

Definition report_text (arm64 : bool) (ls : list report_line) : list Z := (ls ≫= outputs arm64) ≫= output_text.

Lemma wp_put_outputs os : Forall small os -> forall c (Q : unit -> writer -> Prop) E,
  Q tt (mkWriter true (c ++ (os ≫= output_text))) -> wp (for_each put_output os) Q E (mkWriter true c).
Proof.
  induction 1 as [|o os Ho _ IH]; intros c Q E HQ; cbn [for_each].
  - apply wp_ret. by rewrite app_nil_r in HQ.
  - rewrite bind_cons, app_assoc in HQ. apply wp_bind. destruct o as [content args|s]; cbn [put_output output_text small] in *.
    + destruct Ho as (t & Ht & Hlen). unfold Write. rewrite Ht in HQ. apply wp_bind, wp_gets, wp_bind. cbn [open_success].
      eapply wp_of_option; [exact Ht|]. rewrite (proj2 (Z.leb_gt _ _)) by done. by apply wp_modify, IH.
    + unfold WriteString. apply wp_bind, wp_gets. cbn [open_success]. by apply wp_modify, IH.
Qed.

(** A report is appended to its file as it is, line by line: as long as
    the names in it have at most 100 characters, and the head information of the
    application less than 255 and no percent sign, no number that is printed
    makes a text too long for the buffer. *)
Theorem report_lines_printed arm64 ls c : Forall (short_line arm64) ls ->
  put_lines arm64 ls (mkWriter true c) = (Returns tt, mkWriter true (c ++ report_text arm64 ls)).
Proof.
  intros Hls. apply wp_exact. apply wp_put_outputs; [|done]. apply Forall_bind. eapply Forall_impl; [exact Hls|]. intros l. apply short_fits.
Qed.

Lemma report_lines_printed_witness :
  put_lines false [Frame 3 0x1142 (Some (chars "libm.so")); Symbol (chars "pow"); Register 13 0xbeef0123] (mkWriter true []) =
    (Returns tt, mkWriter true (chars "  #03 00001142 libm.so " ++ nl ++ chars "               pow" ++ nl ++ chars "sp beef0123  " ++ nl)).
Proof.
  apply (report_lines_printed false [Frame 3 0x1142 (Some (chars "libm.so")); Symbol (chars "pow"); Register 13 0xbeef0123] []).
  constructor; [|constructor; [|constructor; [|constructor]]].
  - apply Nat.leb_le. reflexivity.
  - apply Nat.leb_le. reflexivity.
  - split; lia.
Defined.

(** *** The report of a crash *)

Definition short_info (i : Dl_info) : Prop :=
  short_name i.(dli_fname) /\ match i.(dli_sname) with Some n => short_name (Some n) | None => True end.

Lemma listing_short load rs todo : Forall (short_line false) (listing load rs todo).
Proof. induction todo as [|[cur a] todo IH]; cbn [listing]; [constructor|]. destruct (shows rs a); constructor; done || by constructor. Qed.

Lemma registers_short load rs R : Forall (short_line false) (seqZ 0 16 ≫= register_lines load rs R).
Proof.
  apply Forall_bind, Forall_forall. intros i Hi. apply elem_of_seqZ in Hi. constructor; [cbn; lia|]. apply listing_short.
Qed.

Lemma listed_short ws : Forall (fun w => short_info w.1.2) ws -> forall no, Forall (short_line false) (listed no ws).
Proof.
  induction 1 as [|[[pc i] uc] ws [Hf Hs] _ IH]; intros no; cbn [listed]; [constructor|]. apply Forall_app. split; [|apply IH].
  cbn [fst snd] in *. constructor; [done|]. apply Forall_app. split; [destruct (dli_sname i); [by constructor; [|constructor]|constructor]|].
  constructor; [|constructor]. cbn [short_line]. rewrite length_take. lia.
Qed.

Lemma head_short head dump kb time : short_name (Some time) -> (forall s, head = Some s -> (length s < 255)%nat /\ 37 ∉ s) ->
  Forall (short_line false) (head_lines head dump kb time).
Proof.
  intros Ht Hh. unfold head_lines. repeat (apply Forall_app; split).
  - constructor; [done|]. by constructor; [|constructor].
  - destruct head as [s|]; [|constructor]. constructor; [by apply Hh|constructor].
  - destruct (0 <=? kb); by repeat constructor.
  - destruct dump; by repeat constructor.
  - by repeat constructor.
Qed.

(** C29. After a crash on ARM the file gets a whole report, whatever the
    registers hold, if the unwinder gets through ([walk]: the program counter
    of the crash and of each frame lies in a module that [dladdr] knows with
    its name, no frame is in pthread's clone, and each step of the unwinder
    returns, the last one with an error), and if the texts are short: the time
    and the names of at most 100 characters, the information for the head of
    less than 255 and without a percent sign. The lines are the head, the
    place of the crash and the signal, the registers, for each of them the
    memory around its address as far as the map of the process says that it
    can be read, and the first thirty frames of the walk, and they are written
    to the file one behind the other: no text is too long for the buffer. For
    the memory around the registers nothing is read that the map does not list
    as readable (words of such memory can be read, and address 0 is not in
    it). A call through a null pointer is no [walk]. *)
Theorem crash_report_written load half rs vars dladdr head dump kb time info status s R pc i ws c :
  let blocks := pair_of <$> filter (fun r => can_read r = true) rs in
  Forall mapping_ok rs -> blocks_ok 0 blocks -> ~ readable blocks 0 ->
  (forall a, (forall b, a <= b < a + 4 -> readable blocks b) -> exists w, load a = Some w) ->
  s.(frame).(uc) = R -> mem_ready rs s.(frame).(memory) -> regs_ok R -> s.(lines) = [] ->
  walk load half (Some (render <$> rs)) vars dladdr status true (mkFrame R (mkMem true blocks)) ((pc, i, R) :: ws) ->
  short_name (Some time) -> (forall h, head = Some h -> (length h < 255)%nat /\ 37 ∉ h) ->
  Forall (fun w => short_info w.1.2) ((pc, i, R) :: ws) ->
  exists s', handle_crash load half (Some (render <$> rs)) vars dladdr head dump kb time info status s = (Returns tt, s') /\
    s'.(lines) = head_lines head dump kb time ++
      [ErrorCode i.(dli_fname) (u32 (pc - i.(dli_fbase))); SignalInfo info.(si_signo) info.(si_code) info.(si_errno) info.(si_addr);
       Title RegistersTitle; AllRegisters (take 16 R); Title MemoryTitle] ++
      (seqZ 0 16 ≫= register_lines load rs R) ++ [Title BacktraceTitle] ++ listed 0 (take 30 ((pc, i, R) :: ws)) ++ [Title ReportEnd] /\
    put_lines false s'.(lines) (mkWriter true c) = (Returns tt, mkWriter true (c ++ report_text false s'.(lines))).
Proof.
  intros blocks Hrs Hblocks Hzero Hload HR Hm Hok Hl Hwalk Ht Hh Hws.
  destruct (crash_report_complete load half rs vars dladdr head dump kb time info status s R pc i ws) as (s' & Hrun & Hl'); [done..|].
  rewrite Hl, app_nil_l in Hl'. exists s'. split; [done|]. split; [exact Hl'|]. apply wp_exact, wp_put_outputs; [|done]. apply Forall_bind.
  eapply (Forall_impl (short_line false)); [|apply short_fits]. rewrite Hl'. pose proof Hws as Hi. apply Forall_cons in Hi as [[Hi _] _].
  apply Forall_app. split; [by apply head_short|]. apply Forall_app. split.
  { repeat (constructor; [done|]). constructor; [right; rewrite length_take; lia|by repeat constructor]. }
  apply Forall_app. split; [apply registers_short|]. apply Forall_app. split; [by repeat constructor|].
  apply Forall_app. split; [by apply listed_short, Forall_take|by repeat constructor].
Qed.

Lemma crash_report_written_witness : exists s',
  handle_crash whole_load demo_half (Some (render <$> demo_text)) (0, 0, 0) (fun _ => Some demo_info) None None (-1) [] (mkSiginfo 11 1 0 0) 7 demo_crash
    = (Returns tt, s') /\
  s'.(lines) = [Title Version; Time_ false []; Title NativeReport; ErrorCode (Some [109]) 0x1142; SignalInfo 11 1 0 0;
      Title RegistersTitle; AllRegisters (take 16 (cursor_regs demo_frame 0)); Title MemoryTitle] ++
    (seqZ 0 16 ≫= register_lines whole_load demo_text (cursor_regs demo_frame 0)) ++ [Title BacktraceTitle] ++
    listed 0 [(0x11142, demo_info, cursor_regs demo_frame 0); (0x12345, demo_info, whole_frame2.(uc))] ++ [Title ReportEnd] /\
  put_lines false s'.(lines) (mkWriter true []) = (Returns tt, mkWriter true (report_text false s'.(lines))).
Proof.
  apply (crash_report_written whole_load demo_half demo_text (0, 0, 0) (fun _ => Some demo_info) None None (-1) [] (mkSiginfo 11 1 0 0) 7 demo_crash
    (cursor_regs demo_frame 0) 0x11142 demo_info [(0x12345, demo_info, whole_frame2.(uc))] []).
  - constructor; [|constructor]. split; [cbn; lia|split; [cbn; lia|done]].
  - change (blocks_ok 0 [mkPair 0x10000 0x12000]). cbn. lia.
  - intros H. pose proof (readable_above 0x10000 [mkPair 0x10000 0x12000] 0 ltac:(cbn; lia) H). lia.
  - intros a _. eexists. reflexivity.
  - reflexivity.
  - by left.
  - by apply demo_regs_ok.
  - reflexivity.
  - exact whole_walk.
  - apply Nat.leb_le. reflexivity.
  - discriminate.
  - constructor; [|constructor; [|constructor]]; (split; [apply Nat.leb_le; reflexivity|exact I]).
Defined.

(** The name of a function of 239 characters or more, as those of C++ that
    are mangled can have, is written behind the buffer: the handler of the crash
    destroys its own stack. *)
Theorem long_symbol_overflows arm64 sname w ls : w.(open_success) = true -> (239 <= length sname)%nat ->
  fst (put_lines arm64 (Symbol sname :: ls) w) = Stuck.
Proof.
  intros Hw Hlen. unfold put_lines. rewrite bind_cons. cbn [outputs app for_each put_output]. unfold bind at 1, Write, bind, gets, ret. rewrite Hw.
  assert (format Literal (chars "               %s" ++ nl) [Str (Some sname)] = Some (chars "               " ++ sname ++ nl)) as -> by reflexivity.
  cbn [of_option ret]. rewrite (proj2 (Z.leb_le _ _)); [done|]. unfold BUF_SIZE. rewrite !length_app. cbn [length chars]. change (length (chars "               ")) with 15%nat.
  cbn [length nl]. lia.
Qed.

Lemma long_symbol_overflows_witness : fst (put_lines false [Symbol (replicate 239 95)] (mkWriter true [])) = Stuck.
Proof. apply long_symbol_overflows; [reflexivity|]. apply (bool_decide_unpack _). vm_compute. exact I. Defined.

(** The head information is printed as a format: "50%s" reads an argument that
    is not there. *)
Example head_info_format : fst (put_lines false [HeadInfo (chars "50%s")] (mkWriter true [])) = Stuck.
Proof. reflexivity. Qed.
