(* ===== verification/EventQueue.v ===== *)
(** * The queue of file events (libcrash_collect/anr/event_queue.cpp)

    A singly linked list with a head and a tail pointer, in a heap of entries.
    It implements a list: entries are taken out in the order they were put in,
    and an entry that is freed is not in the list any more. *)

From stdpp Require Import base numbers list list_numbers gmap.
From Stdlib Require Import Lia ZArith.
From S2P Require Import Prelude.

#[local] Open Scope Z_scope.
#[local] Open Scope c_scope.

(** ** The code *)

(** An event of the kernel; [name] is the field with its padding. *)
Record inotify_event : Type := mkEvent { wd : Z; mask : Z; cookie : Z; len : Z; name : list Z }.

Record queue_entry : Type := mkEntry { next_ptr : Z; inot_ev : inotify_event }.

Record queue_struct : Type := mkQueue { head : Z; tail : Z }.

(** The entries in the heap (a pointer is an address, the null pointer zero),
    the queue, and the addresses the coming allocations return: zero for one
    that fails. *)
Record heap_state : Type := mkHeap { entries : gmap Z queue_entry; queue : option queue_struct; coming : list Z }.

Definition set_entries (v : gmap Z queue_entry) (s : heap_state) : heap_state := mkHeap v s.(queue) s.(coming).
Definition set_queue (v : option queue_struct) (s : heap_state) : heap_state := mkHeap s.(entries) v s.(coming).

Definition HeapM := M heap_state.

Definition malloc : HeapM Z := fun s =>
  match s.(coming) with
  | [] => (Stuck, s)
  | a :: l => (Returns a, mkHeap s.(entries) s.(queue) l)
  end.

Definition get_entry (a : Z) : HeapM queue_entry := let! h := gets entries in of_option (h !! a).

(** Writes to an entry that is there. *)
Definition set_next (a n : Z) : HeapM unit :=
  let! e := get_entry a in
  modify (fun s => set_entries (<[a := mkEntry n e.(inot_ev)]> s.(entries)) s).

Definition free (a : Z) : HeapM unit :=
  let! _ := get_entry a in
  modify (fun s => set_entries (delete a s.(entries)) s).

Definition get_queue : HeapM queue_struct := let! q := gets queue in of_option q.
Definition set_head (v : Z) : HeapM unit := let! q := get_queue in modify (set_queue (Some (mkQueue v q.(tail)))).
Definition set_tail (v : Z) : HeapM unit := let! q := get_queue in modify (set_queue (Some (mkQueue q.(head) v))).

Definition queue_empty : HeapM bool := let! q := get_queue in ret (q.(head) =? 0).

Definition queue_create : HeapM unit := modify (set_queue (Some (mkQueue 0 0))).

Definition queue_enqueue (d : Z) : HeapM unit :=
  set_next d 0 ;;!
  let! q := get_queue in
  if negb (q.(tail) =? 0) then set_next q.(tail) d ;;! set_tail d
  else modify (set_queue (Some (mkQueue d d))).

Definition queue_dequeue : HeapM Z :=
  let! q := get_queue in
  let first := q.(head) in
  if negb (first =? 0) then
    let! e := get_entry first in
    set_head e.(next_ptr) ;;!
    (if e.(next_ptr) =? 0 then set_tail 0 else ret tt) ;;!
    set_next first 0 ;;!
    ret first
  else ret first.

(** The loop frees the entries that are left; [fuel] bounds their number. *)
Fixpoint destroy_loop (fuel : nat) : HeapM unit :=
  match fuel with
  | O => stuck
  | S fuel =>
      let! q := get_queue in
      if negb (q.(head) =? 0) then
        let next := q.(head) in
        let! e := get_entry next in
        set_head e.(next_ptr) ;;!
        set_next next 0 ;;!
        free next ;;!
        destroy_loop fuel
      else ret tt
  end.

Definition queue_destroy : HeapM unit :=
  let! q := gets queue in
  match q with
  | None => ret tt
  | Some _ =>
      let! h := gets entries in
      destroy_loop (S (size h)) ;;!
      modify (set_queue None)
  end.

(** ** The list a queue stands for *)

(** The entries from [p] on are those of [l], with their addresses. *)
Fixpoint chain (h : gmap Z queue_entry) (p : Z) (l : list (Z * inotify_event)) : Prop :=
  match l with
  | [] => p = 0
  | (a, e) :: l => p = a /\ a <> 0 /\ exists n, h !! a = Some (mkEntry n e) /\ chain h n l
  end.

(** The queue holds [l]. *)
Definition holds (s : heap_state) (l : list (Z * inotify_event)) : Prop :=
  exists q, s.(queue) = Some q /\ chain s.(entries) q.(head) l /\ NoDup l.*1 /\ q.(tail) = default 0 (last l.*1).

Lemma chain_other h p l a e : a ∉ l.*1 -> chain h p l -> chain (<[a := e]> h) p l.
Proof.
  revert p. induction l as [|[b f] l IH]; intros p Ha Hc; [done|]. cbn [fmap list_fmap fst] in Ha. apply not_elem_of_cons in Ha as [Hne Ha].
  destruct Hc as (-> & Hb & n & Hn & Hc). split; [done|]. split; [done|]. exists n. by rewrite lookup_insert_ne by done; auto.
Qed.

Lemma chain_delete h p l a : a ∉ l.*1 -> chain h p l -> chain (delete a h) p l.
Proof.
  revert p. induction l as [|[b f] l IH]; intros p Ha Hc; [done|]. cbn [fmap list_fmap fst] in Ha. apply not_elem_of_cons in Ha as [Hne Ha].
  destruct Hc as (-> & Hb & n & Hn & Hc). split; [done|]. split; [done|]. exists n. by rewrite lookup_delete_ne by done; auto.
Qed.

Lemma chain_dom h p l a : chain h p l -> a ∈ l.*1 -> a <> 0 /\ is_Some (h !! a).
Proof.
  revert p. induction l as [|[b f] l IH]; intros p Hc Ha; [by apply elem_of_nil in Ha|].
  destruct Hc as (-> & Hb & n & Hn & Hc). cbn in Ha. apply elem_of_cons in Ha as [->|Ha]; [by eauto|by eapply IH].
Qed.

(** Linking an entry behind the last one. *)
Lemma chain_snoc h p l b f a e : chain h p (l ++ [(b, f)]) -> NoDup ((l ++ [(b, f)]).*1) -> a ∉ (l ++ [(b, f)]).*1 -> a <> 0 ->
  h !! a = Some (mkEntry 0 e) -> chain (<[b := mkEntry a f]> h) p (l ++ [(b, f); (a, e)]).
Proof.
  intros Hc Hnd Hnotin Ha He. assert (a <> b) as Hab.
  { intros ->. apply Hnotin. rewrite fmap_app. apply elem_of_app. right. by left. }
  revert p Hc. induction l as [|[c g] l IH]; intros p Hc; cbn [app fmap list_fmap fst] in *.
  - destruct Hc as (-> & Hb & n & Hn & Hc). split; [done|]. split; [done|]. exists a. rewrite lookup_insert_eq. split; [done|].
    split; [done|]. split; [done|]. exists 0. by rewrite lookup_insert_ne by done.
  - destruct Hc as (-> & Hb & n & Hn & Hc). apply NoDup_cons in Hnd as [Hcn Hnd]. apply not_elem_of_cons in Hnotin as [Hca Hnotin].
    split; [done|]. split; [done|]. exists n. split; [|by apply IH].
    rewrite lookup_insert_ne; [done|]. intros <-. apply Hcn. rewrite fmap_app. apply elem_of_app. right. by left.
Qed.

(** ** The operations *)

(** No entry is allocated or freed. *)
Definition same_room (s s' : heap_state) : Prop := dom s'.(entries) = dom s.(entries) /\ s'.(coming) = s.(coming).

Lemma wp_get_entry a e (Q : queue_entry -> heap_state -> Prop) E s : s.(entries) !! a = Some e -> Q e s -> wp (get_entry a) Q E s.
Proof. intros He HQ. unfold get_entry. wp_steps. by eapply wp_of_option. Qed.

Lemma wp_set_next a n e (Q : unit -> heap_state -> Prop) E s : s.(entries) !! a = Some e ->
  Q tt (set_entries (<[a := mkEntry n e.(inot_ev)]> s.(entries)) s) -> wp (set_next a n) Q E s.
Proof. intros He HQ. unfold set_next. apply wp_bind. eapply wp_get_entry; [done|]. by wp_steps. Qed.

Lemma wp_get_queue q (Q : queue_struct -> heap_state -> Prop) E s : s.(queue) = Some q -> Q q s -> wp get_queue Q E s.
Proof. intros Hq HQ. unfold get_queue. wp_steps. by eapply wp_of_option. Qed.

Lemma wp_queue_create (Q : unit -> heap_state -> Prop) E s :
  (forall s', holds s' [] -> s'.(entries) = s.(entries) -> s'.(coming) = s.(coming) -> Q tt s') -> wp queue_create Q E s.
Proof. intros HQ. unfold queue_create. wp_steps. apply HQ; [|done|done]. exists (mkQueue 0 0). repeat split; constructor. Qed.

Lemma wp_queue_empty l (Q : bool -> heap_state -> Prop) E s : holds s l ->
  Q (match l with [] => true | _ => false end) s -> wp queue_empty Q E s.
Proof.
  intros (q & Hq & Hc & _) HQ. unfold queue_empty. apply wp_bind. eapply wp_get_queue; [done|]. wp_steps.
  destruct l as [|[a e] l]; cbn [chain] in Hc; [by rewrite Hc|]. destruct Hc as (-> & Ha & _). by rewrite (proj2 (Z.eqb_neq a 0)).
Qed.

(** An entry of the heap that is not in the queue goes to its end. *)
Lemma wp_queue_enqueue a e n l (Q : unit -> heap_state -> Prop) E s : holds s l -> a <> 0 -> a ∉ l.*1 -> s.(entries) !! a = Some (mkEntry n e) ->
  (forall s', holds s' (l ++ [(a, e)]) -> same_room s s' -> Q tt s') -> wp (queue_enqueue a) Q E s.
Proof.
  intros (q & Hq & Hc & Hnd & Ht) Ha Hnotin He HQ. unfold queue_enqueue.
  apply wp_bind. eapply wp_set_next; [done|]. apply wp_bind. eapply wp_get_queue; [done|]. cbn [inot_ev].
  set (h := <[a := mkEntry 0 e]> s.(entries)).
  assert (NoDup ((l ++ [(a, e)]).*1)) as Hnd'.
  { rewrite fmap_app. apply NoDup_app. split; [done|]. split; [|apply NoDup_singleton]. intros x Hx ->%list_elem_of_singleton. done. }
  assert (dom h = dom s.(entries)) as Hdom by (subst h; rewrite dom_insert_lookup_L; [done|by eexists]).
  assert (last (l ++ [(a, e)]).*1 = Some a) as Hlast by (rewrite fmap_app; cbn; apply last_snoc).
  apply (chain_other _ _ _ a (mkEntry 0 e)) in Hc; [|done]. fold h in Hc.
  destruct l as [|[b f] l0 _] using rev_ind.
  - rewrite Ht. cbn [default last fmap list_fmap Z.eqb negb id]. wp_steps. apply HQ; [|done].
    exists (mkQueue a a). cbn. split; [done|]. split; [|done]. split; [done|]. split; [done|]. exists 0. split; [apply lookup_insert_eq|done].
  - rewrite fmap_app in Ht. cbn in Ht. rewrite last_snoc in Ht. cbn [default id] in Ht.
    assert (b <> 0 /\ is_Some (h !! b)) as [Hb0 _] by (eapply chain_dom; [exact Hc|]; rewrite fmap_app; apply elem_of_app; right; by left).
    assert (h !! b = Some (mkEntry 0 f)) as Hbf.
    { clear -Hc. revert Hc. generalize (q.(head)). induction l0 as [|[c g] l0 IH]; intros p Hc; cbn [app chain] in Hc.
      - destruct Hc as (_ & _ & m & Hm & ->). done.
      - destruct Hc as (_ & _ & m & _ & Hc). by eapply IH. }
    rewrite Ht, (proj2 (Z.eqb_neq b 0)) by done. cbn [negb]. apply wp_bind. eapply wp_set_next; [exact Hbf|].
    unfold set_tail. apply wp_bind. eapply wp_get_queue; [done|]. wp_steps. apply HQ.
    + eexists. split; [reflexivity|]. cbn [entries set_queue set_entries head tail inot_ev]. split; [|by rewrite Hlast].
      rewrite <- app_assoc. apply chain_snoc; [done|done|done|done|]. subst h. by rewrite lookup_insert_eq.
    + split; [|done]. cbn [entries set_queue set_entries]. rewrite dom_insert_lookup_L by (by eexists). done.
Qed.

(** The first entry comes out, and is in the heap, but not in the queue. *)
Lemma wp_queue_dequeue a e l (Q : Z -> heap_state -> Prop) E s : holds s ((a, e) :: l) ->
  (forall s', holds s' l -> same_room s s' -> a <> 0 -> a ∉ l.*1 -> s'.(entries) !! a = Some (mkEntry 0 e) -> Q a s') -> wp queue_dequeue Q E s.
Proof.
  intros (q & Hq & (Hh & Ha & n & Hn & Hc) & Hnd & Ht) HQ. apply NoDup_cons in Hnd as [Hnotin Hnd].
  unfold queue_dequeue. apply wp_bind. eapply wp_get_queue; [done|]. rewrite Hh, (proj2 (Z.eqb_neq a 0)) by done. cbn [negb].
  apply wp_bind. eapply wp_get_entry; [done|]. cbn [next_ptr]. unfold set_head. apply wp_bind, wp_bind. eapply wp_get_queue; [done|]. wp_steps.
  - unfold set_tail. apply wp_bind. eapply wp_get_queue; [reflexivity|]. wp_steps. eapply wp_set_next; [exact Hn|]. wp_steps.
    assert (n = 0) as -> by lia. destruct l as [|[b f] l]; [|destruct Hc as (<- & Hb & _); done].
    apply HQ; [|split; [|done]|done|done|].
    + eexists. split; [reflexivity|]. repeat split. constructor.
    + cbn. rewrite dom_insert_lookup_L; [done|by eexists].
    + cbn. by rewrite lookup_insert_eq.
  - eapply wp_set_next; [exact Hn|]. wp_steps. destruct l as [|[b f] l]; [cbn in Hc; lia|].
    apply HQ; [|split; [|done]|done|done|].
    + eexists. split; [reflexivity|]. cbn [entries set_queue set_entries head tail inot_ev]. split; [by apply chain_other|]. split; [done|].
      rewrite Ht. done.
    + cbn. rewrite dom_insert_lookup_L; [done|by eexists].
    + cbn. by rewrite lookup_insert_eq.
Qed.

Lemma wp_free a e l (Q : unit -> heap_state -> Prop) E s : holds s l -> a ∉ l.*1 -> s.(entries) !! a = Some e ->
  (forall s', holds s' l -> dom s'.(entries) = dom s.(entries) ∖ {[a]} -> s'.(coming) = s.(coming) -> Q tt s') -> wp (free a) Q E s.
Proof.
  intros (q & Hq & Hc & Hnd & Ht) Hnotin He HQ. unfold free. apply wp_bind. eapply wp_get_entry; [done|]. wp_steps.
  apply HQ; [|cbn; by rewrite dom_delete_L|done]. exists q. split; [done|]. split; [by apply chain_delete|done].
Qed.

(** ** A first-in-first-out queue *)

(** The heap has the entries of the queue and those at [others]. *)
Definition owns (others : gset Z) (s : heap_state) (l : list (Z * inotify_event)) : Prop :=
  holds s l /\ dom s.(entries) = others ∪ list_to_set l.*1 /\ others ## list_to_set l.*1.

(** [n] allocations succeed, with new addresses. *)
Definition fresh_room (n : nat) (s : heap_state) : Prop :=
  (n <= length s.(coming))%nat /\ NoDup s.(coming) /\ Forall (fun a => a <> 0 /\ a ∉ dom s.(entries)) s.(coming).

Lemma fresh_room_less n s s' : fresh_room n s -> dom s'.(entries) ⊆ dom s.(entries) -> s'.(coming) = s.(coming) -> fresh_room n s'.
Proof.
  intros (Hn & Hnd & Hf) Hsub Hc. unfold fresh_room. rewrite Hc. split; [done|]. split; [done|]. eapply Forall_impl; [exact Hf|]. cbn. intros a [H1 H2]. split; [done|set_solver].
Qed.

(** A new entry with [e]; its link is not set yet ([junk]). *)
Definition new_entry (junk : Z) (e : inotify_event) : HeapM Z :=
  let! a := malloc in
  if a =? 0 then stuck else modify (fun s => set_entries (<[a := mkEntry junk e]> s.(entries)) s) ;;! ret a.

Lemma wp_new_entry_enqueue {A} junk e l others n (Q : A -> heap_state -> Prop) (k : Z -> HeapM A) E s :
  owns others s l -> fresh_room (S n) s ->
  (forall a s', owns others s' (l ++ [(a, e)]) -> fresh_room n s' -> wp (k a) Q E s') ->
  wp (let! a := new_entry junk e in queue_enqueue a ;;! k a) Q E s.
Proof.
  intros (Hh & Hdom & Hdisj) (Hlen & Hnd & Hf) HQ. destruct s as [h q [|a cs]]; [cbn in Hlen; lia|]. cbn [coming entries] in *.
  apply NoDup_cons in Hnd as [Hac Hnd]. apply Forall_cons in Hf as [[Ha0 Had] Hf].
  unfold new_entry. apply wp_bind, wp_bind. unfold malloc, wp at 1. cbn [coming entries queue]. rewrite (proj2 (Z.eqb_neq a 0)) by done.
  wp_steps. cbn [set_entries entries]. rewrite Hdom in Had.
  assert (a ∉ l.*1) as Hal by (clear -Had; set_solver).
  destruct Hh as (q' & Hq & Hc & Hndl & Ht). cbn [queue entries] in *.
  apply (wp_queue_enqueue a e junk l); [|done|done|by apply lookup_insert_eq|].
  { exists q'. split; [done|]. split; [by apply chain_other|done]. }
  intros s' Hh' [Hd' Hc']. cbn [entries coming set_entries] in Hd', Hc'. rewrite dom_insert_L in Hd'. apply HQ.
  - split; [done|]. rewrite fmap_app, list_to_set_app_L, Hd', Hdom. cbn. clear -Hdisj Had. split; set_solver.
  - cbn [length] in Hlen. split; [rewrite Hc'; lia|]. split; [by rewrite Hc'|]. rewrite Hc', Hd'.
    apply Forall_forall. intros b Hb. pose proof (proj1 (Forall_forall _ _) Hf b Hb) as [Hb0 Hbd]. split; [done|].
    assert (b <> a) as Hba by (intros ->; done). clear -Hbd Hba. set_solver.
Qed.

(** The operations of a client: an event goes in, or the oldest comes out. *)
Inductive op : Type := Put (e : inotify_event) | Take.

Definition run_op (junk : Z) (o : op) : HeapM (option inotify_event) :=
  match o with
  | Put e => let! a := new_entry junk e in queue_enqueue a ;;! ret None
  | Take =>
      let! first := queue_dequeue in
      if first =? 0 then ret None
      else let! e := get_entry first in free first ;;! ret (Some e.(inot_ev))
  end.

(** What they do to a list. *)
Definition fifo_op (l : list inotify_event) (o : op) : option inotify_event * list inotify_event :=
  match o, l with
  | Put e, l => (None, l ++ [e])
  | Take, [] => (None, [])
  | Take, e :: l => (Some e, l)
  end.

Fixpoint run_ops (junk : Z) (os : list op) : HeapM (list (option inotify_event)) :=
  match os with
  | [] => ret []
  | o :: os => let! r := run_op junk o in let! rs := run_ops junk os in ret (r :: rs)
  end.

Fixpoint fifo_ops (l : list inotify_event) (os : list op) : list (option inotify_event) * list inotify_event :=
  match os with
  | [] => ([], l)
  | o :: os => let '(r, l) := fifo_op l o in let '(rs, l) := fifo_ops l os in (r :: rs, l)
  end.

(** The allocations they make. *)
Fixpoint puts (os : list op) : nat :=
  match os with
  | [] => O
  | Put _ :: os => S (puts os)
  | Take :: os => puts os
  end.

Lemma wp_run_op junk o l others n (Q : option inotify_event -> heap_state -> Prop) E s :
  owns others s l -> fresh_room (match o with Put _ => S n | Take => n end) s ->
  (forall s' l', owns others s' l' -> l'.*2 = (fifo_op l.*2 o).2 -> fresh_room n s' -> Q (fifo_op l.*2 o).1 s') ->
  wp (run_op junk o) Q E s.
Proof.
  intros Ho Hr HQ. destruct o as [e|]; cbn [run_op fifo_op] in *.
  - apply (wp_new_entry_enqueue junk e l others n Q (fun _ => ret None)); [exact Ho|exact Hr|]. intros a s' Ho' Hr'. apply wp_ret. eapply HQ; [exact Ho'| |done].
    by rewrite fmap_app.
  - destruct Ho as (Hh & Hdom & Hdisj). destruct l as [|[a e] l]; cbn [fmap list_fmap fifo_op snd fst] in *.
    + destruct Hh as (q & Hq & Hc & Hnd & Ht). cbn [chain] in Hc. apply wp_bind. unfold queue_dequeue. apply wp_bind. eapply wp_get_queue; [done|].
      rewrite Hc. change (negb (0 =? 0)) with false. apply wp_ret. change (0 =? 0) with true. apply wp_ret, (HQ s []); [|done|done].
      split; [by exists q|done].
    + apply wp_bind. eapply wp_queue_dequeue; [exact Hh|]. intros s1 Hh1 [Hd1 Hc1] Ha Hal Hea. rewrite (proj2 (Z.eqb_neq a 0)) by done.
      apply wp_bind. eapply wp_get_entry; [exact Hea|]. apply wp_bind. eapply wp_free; [exact Hh1|done|exact Hea|].
      intros s2 Hh2 Hd2 Hc2. apply wp_ret.
      assert (a ∉ (list_to_set l.*1 : gset Z)) as Hals by (clear -Hal; set_solver).
      apply (HQ s2 l); [|done|].
      * split; [done|]. rewrite Hd2, Hd1, Hdom. cbn in Hdisj |- *. clear -Hdisj Hals. split; set_solver.
      * eapply fresh_room_less; [exact Hr| |by rewrite Hc2]. rewrite Hd2, Hd1. clear. set_solver.
Qed.

Lemma wp_run_ops junk os : forall l others n (Q : list (option inotify_event) -> heap_state -> Prop) E s,
  owns others s l -> fresh_room (puts os + n) s ->
  (forall s' l', owns others s' l' -> l'.*2 = (fifo_ops l.*2 os).2 -> fresh_room n s' -> Q (fifo_ops l.*2 os).1 s') ->
  wp (run_ops junk os) Q E s.
Proof.
  induction os as [|o os IH]; intros l others n Q E s Ho Hr HQ; cbn [run_ops]; [apply wp_ret; by apply (HQ s l)|].
  apply wp_bind. apply (wp_run_op junk o l others (puts os + n)); [done|by destruct o|]. intros s1 l1 Ho1 Hl1 Hr1.
  apply wp_bind. eapply IH; [exact Ho1|exact Hr1|]. intros s2 l2 Ho2 Hl2 Hr2. apply wp_ret.
  cbn [fifo_ops] in HQ. destruct (fifo_op l.*2 o) as [r l1'] eqn:E1. cbn [fst snd] in *. subst l1'.
  destruct (fifo_ops l1.*2 os) as [rs l2'] eqn:E2. cbn [fst snd] in *. by apply (HQ s2 l2).
Qed.

Lemma wp_destroy_loop fuel : forall l others q (Q : unit -> heap_state -> Prop) E s, s.(queue) = Some q -> chain s.(entries) q.(head) l -> NoDup l.*1 ->
  dom s.(entries) = others ∪ list_to_set l.*1 -> others ## list_to_set l.*1 -> (length l < fuel)%nat ->
  (forall s', dom s'.(entries) = others -> s'.(coming) = s.(coming) -> Q tt s') -> wp (destroy_loop fuel) Q E s.
Proof.
  induction fuel as [|fuel IH]; intros l others q Q E s Hq Hc Hnd Hdom Hdisj Hf HQ; [lia|]. cbn [destroy_loop].
  apply wp_bind. eapply wp_get_queue; [done|].
  destruct l as [|[a e] l]; cbn [chain length fmap list_fmap fst] in *.
  { rewrite Hc. change (negb (0 =? 0)) with false. apply wp_ret, HQ; [|done]. rewrite Hdom. clear. set_solver. }
  destruct Hc as (Hhd & Ha & n & Hn & Hc). rewrite Hhd, (proj2 (Z.eqb_neq a 0)) by done. cbn [negb].
  apply NoDup_cons in Hnd as [Hal Hnd].
  apply wp_bind. eapply wp_get_entry; [done|]. cbn [next_ptr]. unfold set_head. apply wp_bind, wp_bind. eapply wp_get_queue; [done|]. wp_steps.
  eapply wp_set_next; [exact Hn|]. unfold free. wp_steps. eapply wp_get_entry; [cbn; apply lookup_insert_eq|]. wp_steps.
  apply (IH l others (mkQueue n q.(tail))); [done| |done| | |lia|].
  - cbn. apply chain_delete, chain_other; [done..|exact Hc].
  - cbn. rewrite dom_delete_L, dom_insert_lookup_L by (by eexists). rewrite Hdom. cbn in Hdisj |- *.
    assert (a ∉ (list_to_set l.*1 : gset Z)) as Hals by (clear -Hal; set_solver). clear -Hdisj Hals. set_solver.
  - cbn in Hdisj. clear -Hdisj. set_solver.
  - intros s' Hd' Hc'. by apply HQ.
Qed.

(** The queue can be taken down, and leaves the rest of the heap. *)
Lemma wp_queue_destroy l others (Q : unit -> heap_state -> Prop) E s : owns others s l ->
  (forall s', dom s'.(entries) = others -> s'.(queue) = None -> Q tt s') -> wp queue_destroy Q E s.
Proof.
  intros ((q & Hq & Hc & Hnd & Ht) & Hdom & Hdisj) HQ. unfold queue_destroy. wp_steps. rewrite Hq. wp_steps.
  eapply wp_destroy_loop; [exact Hq|exact Hc|done|exact Hdom|done| |].
  - assert (length l.*1 <= size s.(entries))%nat as Hle; [|rewrite length_fmap in Hle; lia].
    rewrite <- size_dom, Hdom. rewrite <- (size_list_to_set (C := gset Z) l.*1) by done. apply subseteq_size. clear. set_solver.
  - intros s' Hd' Hc'. wp_steps. by apply HQ.
Qed.

(** C34. The linked queue implements a list: whatever is put in and taken out,
    the oldest event comes out first and none is lost or changed; what is still
    in the queue at the end is freed, and so is every entry that was allocated. *)
Theorem queue_refines_fifo junk os s : fresh_room (puts os) s ->
  exists s', (queue_create ;;! let! rs := run_ops junk os in queue_destroy ;;! ret rs) s = (Returns (fifo_ops [] os).1, s') /\
    dom s'.(entries) = dom s.(entries) /\ s'.(queue) = None.
Proof.
  intros Hr.
  assert (wp (queue_create ;;! let! rs := run_ops junk os in queue_destroy ;;! ret rs)
    (fun rs s' => rs = (fifo_ops [] os).1 /\ dom s'.(entries) = dom s.(entries) /\ s'.(queue) = None) (fun _ => False) s) as Hwp.
  { apply wp_bind, wp_queue_create. intros s1 Hh1 He1 Hc1. apply wp_bind, (wp_run_ops junk os [] (dom s.(entries)) 0).
    - split; [done|]. rewrite He1. cbn. clear. split; set_solver.
    - rewrite Nat.add_0_r. eapply fresh_room_less; [exact Hr|by rewrite He1|done].
    - intros s2 l2 Ho2 Hl2 Hr2. apply wp_bind. eapply wp_queue_destroy; [exact Ho2|]. intros s3 Hd3 Hq3. by apply wp_ret. }
  destruct (wp_returns _ _ _ Hwp) as (rs & s' & Hrun & -> & Hd & Hq). by exists s'.
Qed.

Definition demo_event (m : Z) : inotify_event := mkEvent 1 m 0 0 [].

Lemma queue_refines_fifo_witness : exists s',
  (queue_create ;;! let! rs := run_ops 0 [Put (demo_event 1); Put (demo_event 2); Take; Put (demo_event 3); Take; Put (demo_event 4)] in
   queue_destroy ;;! ret rs) (mkHeap ∅ None [16; 64; 32; 48]) =
    (Returns [None; None; Some (demo_event 1); None; Some (demo_event 2); None], s') /\
  dom s'.(entries) = dom (∅ : gmap Z queue_entry) /\ s'.(queue) = None.
Proof.
  apply (queue_refines_fifo 0 [Put (demo_event 1); Put (demo_event 2); Take; Put (demo_event 3); Take; Put (demo_event 4)] (mkHeap ∅ None [16; 64; 32; 48])).
  split; [cbn; lia|]. split.
  - apply (bool_decide_unpack (NoDup [16; 64; 32; 48])). vm_compute. exact I.
  - cbn. repeat (constructor; [split; [done|set_solver]|]). constructor.
Defined.
