(* ===== verification/Anr.v ===== *)
(** * The watcher for ANR traces (libcrash_collect/anr/inotify_utils.cpp)

    The system writes the stacks of an application that does not respond into
    a file of /data/anr.  The watcher reads the events of that directory from
    the kernel, queues them (EventQueue.v), and copies the file when it was
    written and is about this application. *)

From stdpp Require Import base numbers list list_numbers gmap.
From Stdlib Require Import Lia ZArith.
From S2P Require Import Prelude InlineHook EventQueue.

#[local] Open Scope Z_scope.
#[local] Open Scope c_scope.

(** ** Constants *)

Definition IN_CLOSE_WRITE := 0x8.
Definition IN_CREATE := 0x100.
Definition IN_ALL_EVENTS := 0xfff.
Definition IN_UNMOUNT := 0x2000.
Definition IN_Q_OVERFLOW := 0x4000.
Definition IN_IGNORED := 0x8000.
Definition IN_ISDIR := 0x40000000.

Definition BUFFER_LENGTH := 1024.
Definition ANR_IME_MAX_LINE_NUM := 10.

(** "-- end", "Cmd line", "/data/anr/", "anr", "traces", "ime info : ", "(null)" *)
Definition anr_end_flag : list Z := [45; 45; 32; 101; 110; 100].
Definition cmd_line_flag : list Z := [67; 109; 100; 32; 108; 105; 110; 101].
Definition ANR_FILE_DIR : list Z := [47; 100; 97; 116; 97; 47; 97; 110; 114].
Definition anr_name : list Z := [97; 110; 114].
Definition traces_name : list Z := [116; 114; 97; 99; 101; 115].
Definition info_prefix : list Z := [105; 109; 101; 32; 105; 110; 102; 111; 32; 58; 32].
Definition null_text : list Z := [40; 110; 117; 108; 108; 41].

(** ** State *)

(** What the watcher uses of the members of [ExceptionHandler]. *)
Record config : Type := mkConfig {
  anr_save_path : option (list Z);
  package_name : option (list Z);
  head_info : option (list Z);
  collect_anr_on : bool
}.

(** [has_copy_anr_file], [watched_items] and the files. *)
Record anr_data : Type := mkAnr { has_copy_anr_file : Z; watched_items : Z; files : gmap (list Z) (list Z) }.

Definition set_copied (v : Z) (s : anr_data) : anr_data := mkAnr v s.(watched_items) s.(files).
Definition set_watched (v : Z) (s : anr_data) : anr_data := mkAnr s.(has_copy_anr_file) v s.(files).
Definition set_file (p v : list Z) (s : anr_data) : anr_data := mkAnr s.(has_copy_anr_file) s.(watched_items) (<[p := v]> s.(files)).

(** A C string in a buffer ends at the first zero. *)
Fixpoint cstr (s : list Z) : list Z :=
  match s with
  | [] => []
  | c :: s => if c =? 0 then [] else c :: cstr s
  end.

Definition contains (s sub : list Z) : bool := strstr sub (cstr s).

(** [fgets]: to the end of the line, or [n] characters. *)
Fixpoint fgets (n : nat) (s : list Z) : list Z * list Z :=
  match n, s with
  | S n, c :: s => if c =? 10 then ([c], s) else let '(l, r) := fgets n s in (c :: l, r)
  | _, _ => ([], s)
  end.

(** What the calls of [fgets] on a file return one after the other. *)
Fixpoint chunks (fuel : nat) (s : list Z) : list (list Z) :=
  match fuel, s with
  | S fuel, _ :: _ => let '(l, r) := fgets (Z.to_nat (BUFFER_LENGTH - 1)) s in l :: chunks fuel r
  | _, _ => []
  end.

Definition file_lines (s : list Z) : list (list Z) := chunks (length s) s.

Section Watcher.
Context (c : config).
(** Whether a file can be opened for writing. *)
Context (can_write : list Z -> bool).

(** ** Copying a file *)

(** [sprintf(anr_file_path, "%s/%s", ANR_FILE_DIR, anr_file)] into 100 bytes. *)
Definition anr_file_path (anr_file : list Z) : M anr_data (list Z) :=
  let p := ANR_FILE_DIR ++ 47 :: anr_file in
  if 100 <=? Z.of_nat (length p) then stuck else ret p.

(** [sprintf(data, "ime info : %s \n", head_info)] *)
Definition info_line : list Z := info_prefix ++ default null_text c.(head_info) ++ [32; 10].

(** The loop over the lines: what the target has at its end, unless the line
    of information does not fit into [data]. *)
Fixpoint copy_lines (package : list Z) (ls : list (list Z)) (out : list Z) (hasWriteExtInfo : bool) : option (list Z) :=
  match ls with
  | [] => Some out
  | data :: ls =>
      let out := out ++ cstr data in
      if negb hasWriteExtInfo && (contains data cmd_line_flag && contains data package) then
        if BUFFER_LENGTH <=? Z.of_nat (length info_line) then None
        else copy_lines package ls (out ++ info_line) true
      else if contains data anr_end_flag then Some out
      else copy_lines package ls out hasWriteExtInfo
  end.

(** The file for the copy is not the trace itself. *)
Definition copy_anr_file (anr_file : list Z) : M anr_data Z :=
  match c.(anr_save_path), c.(package_name) with
  | Some target, Some package =>
      if negb c.(collect_anr_on) then ret (-1)
      else
        modify (set_copied 0) ;;!
        let! path := anr_file_path anr_file in
        let! fs := gets files in
        let src_file := fs !! path in
        (if can_write target then modify (set_file target []) else ret tt) ;;!
        match src_file with
        | None => ret (-1)
        | Some text =>
            if negb (can_write target) then ret (-1)
            else
              let! out := of_option (copy_lines package (file_lines text) [] false) in
              modify (set_file target out) ;;!
              modify (set_copied 1) ;;!
              ret 0
        end
  | _, _ => ret (-1)
  end.

(** The loop that looks for the application; [ime_line_number] lines were
    read. *)
Fixpoint search_package (package : list Z) (ls : list (list Z)) (ime_line_number : Z) : Z :=
  match ls with
  | [] => -1
  | buffer :: ls =>
      if ANR_IME_MAX_LINE_NUM <? ime_line_number then -1
      else if contains buffer package then 0
      else search_package package ls (ime_line_number + 1)
  end.

Definition has_anr_file_contain_ime_info (anr_file : list Z) : M anr_data Z :=
  match c.(package_name) with
  | None => ret (-1)
  | Some package =>
      let! path := anr_file_path anr_file in
      let! fs := gets files in
      match fs !! path with
      | None => ret (-1)
      | Some text => ret (search_package package (file_lines text) 0)
      end
  end.

Definition handle_anr_file_close_write (anr_file : list Z) : M anr_data unit :=
  let! copied := gets has_copy_anr_file in
  if copied =? 0 then
    let! r := has_anr_file_contain_ime_info anr_file in
    if r =? 0 then let! _ := copy_anr_file anr_file in ret tt else ret tt
  else ret tt.

Definition handle_anr_file_create : M anr_data unit := modify (set_copied 0).

(** ** An event *)

Definition handle_event (e : inotify_event) : M anr_data unit :=
  let cur_event_filename := if e.(len) =? 0 then None else Some (cstr e.(name)) in
  if test e.(mask) IN_ISDIR then ret tt
  else
    match cur_event_filename with
    | None => ret tt
    | Some f =>
        if negb (strstr anr_name f) && negb (strstr traces_name f) then ret tt
        else
          let m := Z.land e.(mask) (Z.lor IN_ALL_EVENTS (Z.lor IN_UNMOUNT (Z.lor IN_Q_OVERFLOW IN_IGNORED))) in
          if m =? IN_CLOSE_WRITE then handle_anr_file_close_write f
          else if m =? IN_CREATE then handle_anr_file_create
          else if m =? IN_IGNORED then
            let! w := gets watched_items in modify (set_watched (w - 1))
          else ret tt
    end.

(** ** The queue *)

Record watcher : Type := mkWatcher { heap : heap_state; anr : anr_data }.

Definition on_heap {A} (m : HeapM A) : M watcher A := fun s =>
  let '(o, h) := m s.(heap) in (o, mkWatcher h s.(anr)).
Definition on_anr {A} (m : M anr_data A) : M watcher A := fun s =>
  let '(o, a) := m s.(anr) in (o, mkWatcher s.(heap) a).

(** The loop takes the events out, one after the other; [fuel] bounds them. *)
Fixpoint events_loop (fuel : nat) : M watcher unit :=
  match fuel with
  | O => stuck
  | S fuel =>
      let! empty := on_heap queue_empty in
      if negb empty then
        let! event := on_heap queue_dequeue in
        let! e := on_heap (get_entry event) in
        on_anr (handle_event e.(inot_ev)) ;;!
        on_heap (free event) ;;!
        events_loop fuel
      else ret tt
  end.

Definition handle_events : M watcher unit :=
  let! h := on_heap (gets entries) in
  events_loop (S (base.size h)).

(** Four bytes, the lowest first. *)
Definition le32 (b : list Z) : option (Z * list Z) :=
  match b with
  | b0 :: b1 :: b2 :: b3 :: b => Some (b0 + 256 * (b1 + 256 * (b2 + 256 * b3)), b)
  | _ => None
  end.

(** The event at the start of [b], and what follows it. *)
Definition parse_event (b : list Z) : option (inotify_event * list Z) :=
  match le32 b with
  | None => None
  | Some (wd, b) =>
      match le32 b with
      | None => None
      | Some (mask, b) =>
          match le32 b with
          | None => None
          | Some (cookie, b) =>
              match le32 b with
              | None => None
              | Some (len, b) =>
                  if Z.of_nat (length b) <? len then None
                  else Some (mkEvent wd mask cookie len (take (Z.to_nat len) b), drop (Z.to_nat len) b)
              end
          end
      end
  end.

(** The loop of [read_events] over the bytes that were read; [junk] is in the
    links of new entries.  An event is 16 bytes at least. *)
Fixpoint read_loop (junk : Z) (fuel : nat) (buffer : list Z) (count : Z) : HeapM Z :=
  match fuel with
  | O => stuck
  | S fuel =>
      match buffer with
      | [] => ret count
      | _ =>
          let! ' (pevent, rest) := of_option (parse_event buffer) in
          let! event := new_entry junk pevent in
          queue_enqueue event ;;!
          read_loop junk fuel rest (count + 1)
      end
  end.

(** [r]: what [read] returns; the bytes are in [buffer]. *)
Definition read_events (junk r : Z) (buffer : list Z) : HeapM Z :=
  if r <=? 0 then ret r
  else read_loop junk (S (length buffer)) buffer 0.

(** ** The loop of the watcher *)

(** One round: what [select] and [read] return. *)
Record round : Type := mkRound { select_result : Z; read_result : Z; read_buffer : list Z }.

(** [true] if the loop has ended, [false] if it waits for the next event;
    [keep_running] stays 1. *)
Fixpoint process_inotify_events (junk : Z) (rounds : list round) : M watcher bool :=
  let! a := on_anr (gets (fun a => a)) in
  if negb (0 <? a.(watched_items)) then ret true
  else
    match rounds with
    | [] => ret false
    | r :: rounds =>
        if 0 <? r.(select_result) then
          let! n := on_heap (read_events junk r.(read_result) r.(read_buffer)) in
          if n <? 0 then ret true
          else handle_events ;;! process_inotify_events junk rounds
        else process_inotify_events junk rounds
    end.

(** [InitANRFileNotify]: [fd] and [wd] are what [inotify_init] and
    [inotify_add_watch] return. *)
Definition open_inotify_fd : M anr_data unit := modify (set_watched 0).
Definition close_inotify_fd : M anr_data unit := modify (set_watched 0).

Definition watch_dir (wd : Z) : M anr_data Z :=
  if wd <? 0 then ret wd else let! w := gets watched_items in modify (set_watched (w + 1)) ;;! ret wd.

Definition InitANRFileNotify (junk fd wd : Z) (rounds : list round) : M watcher bool :=
  on_anr open_inotify_fd ;;!
  if 0 <? fd then
    on_heap queue_create ;;!
    let! wd := on_anr (watch_dir wd) in
    let! ended := (if 0 <? wd then process_inotify_events junk rounds else ret true) in
    if ended : bool then on_anr close_inotify_fd ;;! on_heap queue_destroy ;;! ret true else ret false
  else ret true.
End Watcher.

(** ** Events as the kernel writes them *)

Definition le32_bytes (v : Z) : list Z := [v mod 256; v / 256 mod 256; v / 65536 mod 256; v / 16777216 mod 256].

Definition encode_event (e : inotify_event) : list Z :=
  le32_bytes e.(wd) ++ le32_bytes e.(mask) ++ le32_bytes e.(cookie) ++ le32_bytes e.(len) ++ e.(name).

(** 32-bit fields, and as many bytes for the name as the length says. *)
Definition event_ok (e : inotify_event) : Prop :=
  0 <= e.(wd) < 2 ^ 32 /\ 0 <= e.(mask) < 2 ^ 32 /\ 0 <= e.(cookie) < 2 ^ 32 /\ e.(len) = Z.of_nat (length e.(name)) /\ e.(len) < 2 ^ 32.

Lemma le32_back v b : 0 <= v < 2 ^ 32 -> le32 (le32_bytes v ++ b) = Some (v, b).
Proof.
  change (2 ^ 32) with 4294967296. intros Hv. cbn [le32_bytes app le32]. f_equal. f_equal.
  change 65536 with (256 * 256). change 16777216 with (256 * 256 * 256). rewrite <- !Z.div_div by lia.
  pose proof (Z.div_mod v 256 ltac:(lia)). pose proof (Z.div_mod (v / 256) 256 ltac:(lia)).
  pose proof (Z.div_mod (v / 256 / 256) 256 ltac:(lia)).
  rewrite (Z.mod_small (v / 256 / 256 / 256)); [lia|]. rewrite !Z.div_div by lia.
  split; [apply Z.div_pos; lia|apply Z.div_lt_upper_bound; lia].
Qed.

Lemma parse_encode e b : event_ok e -> parse_event (encode_event e ++ b) = Some (e, b).
Proof.
  intros (Hw & Hm & Hc & Hl & Hl32). unfold parse_event, encode_event. rewrite <- !app_assoc.
  rewrite !le32_back by (done || lia). rewrite length_app, (proj2 (Z.ltb_ge _ _)) by lia.
  rewrite Hl, Nat2Z.id, take_app_length, drop_app_length. rewrite <- Hl. by destruct e.
Qed.

Definition encode_events (es : list inotify_event) : list Z := es ≫= encode_event.

Lemma encode_length e : (16 <= length (encode_event e))%nat.
Proof. unfold encode_event. rewrite !length_app. cbn [le32_bytes length]. lia. Qed.

(** ** Reading and handling *)

Lemma wp_read_loop junk es : forall l others n fuel count (Q : Z -> heap_state -> Prop) E s, Forall event_ok es ->
  owns others s l -> fresh_room (length es + n) s -> (length (encode_events es) < fuel)%nat ->
  (forall s' l', owns others s' l' -> l'.*2 = l.*2 ++ es -> fresh_room n s' -> Q (count + Z.of_nat (length es)) s') ->
  wp (read_loop junk fuel (encode_events es) count) Q E s.
Proof.
  induction es as [|e es IH]; intros l others n fuel count Q E s Hes Ho Hr Hf HQ; (destruct fuel as [|fuel]; [lia|]); cbn [read_loop].
  - change (encode_events []) with (@nil Z). apply wp_ret. specialize (HQ s l). rewrite Z.add_0_r, app_nil_r in HQ. by apply HQ.
  - apply Forall_cons in Hes as [He Hes]. unfold encode_events in *. rewrite bind_cons in *. pose proof (encode_length e) as Hlen.
    rewrite length_app in Hf. destruct (encode_event e ++ (es ≫= encode_event)) as [|b0 bs] eqn:Hb.
    { apply (f_equal length) in Hb. rewrite length_app in Hb. cbn in Hb. lia. }
    rewrite <- Hb. apply wp_bind. eapply wp_of_option; [by apply parse_encode|]. cbv beta iota.
    apply (wp_new_entry_enqueue junk e l others (length es + n) Q (fun _ => read_loop junk fuel (es ≫= encode_event) (count + 1)));
      [done|done|]. intros a s1 Ho1 Hr1. eapply IH; [done|exact Ho1|exact Hr1|lia|]. intros s2 l2 Ho2 Hl2 Hr2.
    replace (count + 1 + Z.of_nat (length es)) with (count + Z.of_nat (length (e :: es))) by (cbn [length]; lia).
    eapply HQ; [exact Ho2| |done]. rewrite Hl2, fmap_app, <- app_assoc. done.
Qed.

Section Handling.
Context (c : config) (can_write : list Z -> bool).

(** The handler for one event after the other. *)
Fixpoint handle_all (es : list inotify_event) : M anr_data unit :=
  match es with
  | [] => ret tt
  | e :: es => handle_event c can_write e ;;! handle_all es
  end.

Lemma wp_on_heap {A} (m : HeapM A) (Q : A -> watcher -> Prop) E w :
  wp m (fun a h => Q a (mkWatcher h w.(anr))) (fun h => E (mkWatcher h w.(anr))) w.(heap) -> wp (on_heap m) Q E w.
Proof. unfold wp, on_heap. by destruct (m w.(heap)) as [[a| |] h]. Qed.

Lemma wp_on_anr {A} (m : M anr_data A) (Q : A -> watcher -> Prop) E w :
  wp m (fun a x => Q a (mkWatcher w.(heap) x)) (fun x => E (mkWatcher w.(heap) x)) w.(anr) -> wp (on_anr m) Q E w.
Proof. unfold wp, on_anr. by destruct (m w.(anr)) as [[a| |] h]. Qed.

Lemma wp_events_loop l : forall others n fuel (Q : unit -> watcher -> Prop) E w, owns others w.(heap) l -> fresh_room n w.(heap) -> (length l < fuel)%nat ->
  wp (handle_all l.*2) (fun _ a => forall h, owns others h [] -> fresh_room n h -> Q tt (mkWatcher h a)) (fun _ => False) w.(anr) ->
  wp (events_loop c can_write fuel) Q E w.
Proof.
  induction l as [|[a e] l IH]; intros others n fuel Q E w Ho Hr Hf HQ; (destruct fuel as [|fuel]; [cbn in Hf; lia|]); cbn [events_loop].
  - apply wp_bind, wp_on_heap. destruct Ho as (Hh & Hd). eapply wp_queue_empty; [exact Hh|]. cbn [negb]. apply wp_ret.
    cbn in HQ. apply (HQ w.(heap)); [by split|done].
  - cbn [length fmap list_fmap snd handle_all] in *. destruct Ho as (Hh & Hd & Hdisj).
    apply wp_bind, wp_on_heap. eapply wp_queue_empty; [exact Hh|]. cbn [negb heap anr].
    apply wp_bind, wp_on_heap. cbn [heap anr]. eapply wp_queue_dequeue; [exact Hh|]. intros h1 Hh1 [Hd1 Hc1] Ha Hal Hea.
    apply wp_bind, wp_on_heap. cbn [heap anr]. eapply wp_get_entry; [exact Hea|]. cbn [inot_ev].
    apply wp_bind, wp_on_anr. cbn [heap anr]. unfold wp in HQ |- *. unfold bind at 1 in HQ.
    destruct (handle_event c can_write e (anr w)) as [[[]| |] x]; [|done|done]. fold (wp (A := unit) (S := anr_data)) in HQ.
    apply wp_bind, wp_on_heap. cbn [heap anr]. eapply wp_free; [exact Hh1|done|exact Hea|]. intros h2 Hh2 Hd2 Hc2.
    apply (IH others n); [| |lia|exact HQ]; cbn [heap].
    + split; [done|]. cbn in Hd, Hdisj. rewrite Hd2, Hd1, Hd. assert (a ∉ (list_to_set l.*1 : gset Z)) as Hals by (clear -Hal; set_solver).
      clear -Hdisj Hals. split; set_solver.
    + eapply fresh_room_less; [exact Hr| |by rewrite Hc2]. rewrite Hd2, Hd1. clear. set_solver.
Qed.
End Handling.

(** C35. What the kernel reports is handled: the events in the bytes of a
    [read] are taken apart, queued, and handled one after the other in their
    order, and afterwards the queue is empty and its entries are freed. *)
Theorem events_handled_in_order c can_write junk es others w a' :
  Forall event_ok es -> es <> [] -> owns others w.(heap) [] -> fresh_room (length es) w.(heap) ->
  handle_all c can_write es w.(anr) = (Returns tt, a') ->
  exists w', (let! n := on_heap (read_events junk (Z.of_nat (length (encode_events es))) (encode_events es)) in
              handle_events c can_write ;;! ret n) w = (Returns (Z.of_nat (length es)), w') /\
    w'.(anr) = a' /\ owns others w'.(heap) [].
Proof.
  intros Hes Hne Ho Hr Hall.
  assert (wp (let! n := on_heap (read_events junk (Z.of_nat (length (encode_events es))) (encode_events es)) in handle_events c can_write ;;! ret n)
    (fun n w' => n = Z.of_nat (length es) /\ w'.(anr) = a' /\ owns others w'.(heap) []) (fun _ => False) w) as Hwp.
  { apply wp_bind, wp_on_heap. unfold read_events.
    assert (0 < length (encode_events es))%nat as Hpos.
    { destruct es as [|e es]; [done|]. unfold encode_events. rewrite bind_cons, length_app. pose proof (encode_length e). lia. }
    rewrite (proj2 (Z.leb_gt _ _)) by lia. apply (wp_read_loop junk es [] others 0); [done|done|by rewrite Nat.add_0_r|lia|].
    intros h1 l1 Ho1 Hl1 Hr1. cbn [app fmap list_fmap] in Hl1. cbn [heap anr].
    apply wp_bind. unfold handle_events. apply wp_bind, wp_on_heap. cbn [heap anr]. wp_steps.
    apply (wp_events_loop c can_write l1 others 0); [exact Ho1|done| |].
    - destruct Ho1 as ((q & Hq & Hc & Hnd & Ht) & Hdom & Hdisj). cbn [heap].
      assert (length l1.*1 <= base.size h1.(entries))%nat as Hle; [|rewrite length_fmap in Hle; lia].
      rewrite <- size_dom, Hdom. rewrite <- (size_list_to_set (C := gset Z) l1.*1) by done. apply subseteq_size. clear. set_solver.
    - cbn [heap anr]. rewrite Hl1. unfold wp. rewrite Hall. intros h2 Ho2 _. by apply wp_ret. }
  destruct (wp_returns _ _ _ Hwp) as (n & w' & Hrun & -> & Ha & Hw). by exists w'.
Qed.

(** ** The lines of a file *)

Lemma fgets_app n s l r : fgets n s = (l, r) -> l ++ r = s.
Proof.
  revert s l r. induction n as [|n IH]; intros s l r; cbn [fgets]; [by intros [= <- <-]|]. destruct s as [|c s]; [by intros [= <- <-]|].
  destruct (c =? 10); [by intros [= <- <-]|]. destruct (fgets n s) as [l1 r1] eqn:Hf. intros [= <- <-]. cbn. f_equal. by apply IH.
Qed.

Lemma fgets_nonempty n c s : (fgets (S n) (c :: s)).1 <> [].
Proof. cbn [fgets]. destruct (c =? 10); [done|]. by destruct (fgets n s). Qed.

Lemma chunks_concat fuel : forall s, (length s <= fuel)%nat -> concat (chunks fuel s) = s.
Proof.
  induction fuel as [|fuel IH]; intros s Hs; [by destruct s; [|cbn in Hs; lia]|]. destruct s as [|c s]; [done|].
  unfold chunks; fold chunks. destruct (fgets (Z.to_nat (BUFFER_LENGTH - 1)) (c :: s)) as [l r] eqn:Hf.
  pose proof (fgets_app _ _ _ _ Hf) as Happ. cbn [concat]. rewrite IH; [done|].
  destruct l as [|x l]; [|apply (f_equal length) in Happ; rewrite length_app in Happ; cbn in *; lia].
  exfalso. apply (fgets_nonempty (Z.to_nat (BUFFER_LENGTH - 1) - 1) c s).
  replace (S (Z.to_nat (BUFFER_LENGTH - 1) - 1)) with (Z.to_nat (BUFFER_LENGTH - 1)) by (unfold BUFFER_LENGTH; lia). by rewrite Hf.
Qed.

Lemma file_lines_concat s : concat (file_lines s) = s.
Proof. by apply chunks_concat. Qed.

(** Text without zeros is copied as it is. *)
Definition text (s : list Z) : Prop := Forall (fun c => c <> 0) s.

Lemma cstr_text s : text s -> cstr s = s.
Proof. induction 1 as [|c s Hc _ IH]; [done|]. cbn [cstr]. rewrite (proj2 (Z.eqb_neq c 0)) by done. by rewrite IH. Qed.

Lemma cstr_lines ls : text (concat ls) -> concat (cstr <$> ls) = concat ls.
Proof.
  induction ls as [|l ls IH]; intros H; [done|]. apply Forall_app in H as [Hl Hls]. cbn. by rewrite cstr_text, IH.
Qed.

(** ** The copy *)

Section Copy.
Context (c : config) (can_write : list Z -> bool).

(** A line that names the application. *)
Definition names_app (package data : list Z) : Prop := contains data cmd_line_flag = true /\ contains data package = true.

Definition no_end (data : list Z) : Prop := contains data anr_end_flag = false.

(** The lines [ls1] are followed by [ls2], and copying stops between them: behind
    the first line with the end mark, or at the end of the file if none has it. *)
Definition stop_after (ls1 ls2 : list (list Z)) : Prop :=
  (exists front l, ls1 = front ++ [l] /\ contains l anr_end_flag = true /\ Forall no_end front) \/
  (ls2 = [] /\ Forall no_end ls1).

(** What a copy [out] of the lines [ls] has.  If no line up to the first with
    the end mark names the application, these lines, or all if none has the mark.
    Otherwise the lines up to the first that names it, the line of information,
    and the following lines up to the first of them with the end mark, or all of
    them: behind the line of information the buffer is cleared before the mark is
    looked for in it, so a mark on the line that names the application does not
    count. *)
Definition copy_of (package : list Z) (ls : list (list Z)) (out : list Z) : Prop :=
  (exists ls1 ls2, ls = ls1 ++ ls2 /\ stop_after ls1 ls2 /\ Forall (fun l => ~ names_app package l) ls1 /\
     out = concat (cstr <$> ls1)) \/
  (exists l1 l ls1 ls2, ls = l1 ++ l :: ls1 ++ ls2 /\ names_app package l /\
     Forall (fun l => ~ names_app package l /\ no_end l) l1 /\ stop_after ls1 ls2 /\
     out = concat (cstr <$> l1 ++ [l]) ++ info_line c ++ concat (cstr <$> ls1)).

Lemma stop_after_cons l ls1 ls2 : no_end l -> stop_after ls1 ls2 -> stop_after (l :: ls1) ls2.
Proof.
  intros Hl [(front & x & -> & Hx & Hf)|[-> Hall]].
  - left. exists (l :: front), x. split; [done|]. split; [done|by constructor].
  - right. split; [done|by constructor].
Qed.

Lemma copy_lines_rest package ls : forall out0, exists ls1 ls2,
  ls = ls1 ++ ls2 /\ stop_after ls1 ls2 /\ copy_lines c package ls out0 true = Some (out0 ++ concat (cstr <$> ls1)).
Proof.
  induction ls as [|l ls IH]; intros out0; cbn [copy_lines negb andb].
  - exists [], []. split; [done|]. split; [by right|]. cbn. by rewrite app_nil_r.
  - destruct (contains l anr_end_flag) eqn:He.
    + exists [l], ls. split; [done|]. split; [left; by exists [], l|]. cbn. by rewrite app_nil_r.
    + destruct (IH (out0 ++ cstr l)) as (ls1 & ls2 & -> & Hend & ->). exists (l :: ls1), ls2. split; [done|].
      split; [by apply stop_after_cons|]. cbn. by rewrite app_assoc.
Qed.

Lemma copy_lines_spec package ls : Z.of_nat (length (info_line c)) < BUFFER_LENGTH -> forall out0,
  exists out, copy_lines c package ls out0 false = Some (out0 ++ out) /\ copy_of package ls out.
Proof.
  intros Hinfo. induction ls as [|l ls IH]; intros out0; cbn [copy_lines negb andb].
  - exists []. rewrite app_nil_r. split; [done|]. left. exists [], []. split; [done|]. split; [by right|]. by split.
  - destruct (contains l cmd_line_flag && contains l package) eqn:Hn.
    + rewrite (proj2 (Z.leb_gt _ _)) by done. apply andb_prop in Hn as Hnames.
      destruct (copy_lines_rest package ls ((out0 ++ cstr l) ++ info_line c)) as (ls1 & ls2 & -> & Hend & ->).
      exists (cstr l ++ info_line c ++ concat (cstr <$> ls1)). split; [by rewrite <- !app_assoc|].
      right. exists [], l, ls1, ls2. split; [done|]. split; [done|]. split; [constructor|]. split; [done|]. cbn. by rewrite app_nil_r.
    + assert (~ names_app package l) as Hnot by (intros [H1 H2]; by rewrite H1, H2 in Hn).
      destruct (contains l anr_end_flag) eqn:He.
      * exists (cstr l). split; [done|]. left. exists [l], ls. split; [done|]. split; [left; by exists [], l|].
        split; [by constructor|]. cbn. by rewrite app_nil_r.
      * destruct (IH (out0 ++ cstr l)) as (out & -> & Hout). exists (cstr l ++ out). split; [by rewrite app_assoc|].
        destruct Hout as [(ls1 & ls2 & -> & Hend & Hall & ->)|(l1 & x & ls1 & ls2 & -> & Hx & Hall & Hend & ->)].
        { left. exists (l :: ls1), ls2. split; [done|]. split; [by apply stop_after_cons|]. split; [by constructor|done]. }
        right. exists (l :: l1), x, ls1, ls2. split; [done|]. split; [done|]. split; [by constructor|]. split; [done|]. cbn. by rewrite <- !app_assoc.
Qed.

(** The path of a trace file. *)
Definition trace_path (f : list Z) : list Z := ANR_FILE_DIR ++ 47 :: f.

(** An event for a file of the directory, with the padding of its name. *)
Definition file_event (m : Z) (e : inotify_event) (f : list Z) : Prop :=
  e.(len) <> 0 /\ cstr e.(name) = f /\ e.(mask) = m /\ (strstr anr_name f = true \/ strstr traces_name f = true).

Lemma handle_file_event m e f a : file_event m e f -> m = IN_CLOSE_WRITE \/ m = IN_CREATE ->
  handle_event c can_write e a = (if m =? IN_CLOSE_WRITE then handle_anr_file_close_write c can_write f else handle_anr_file_create) a.
Proof.
  intros (Hl & Hn & Hm & Hname) Hcase. unfold handle_event. rewrite (proj2 (Z.eqb_neq _ 0)), Hn, Hm by done.
  assert (negb (strstr anr_name f) && negb (strstr traces_name f) = false) as ->.
  { destruct Hname as [-> | ->]; [done|]. by rewrite andb_false_r. }
  by destruct Hcase as [-> | ->].
Qed.
End Copy.

(** The application is looked for in the first eleven lines. *)
Lemma search_package_spec package ls : forall n, 0 <= n <= 11 ->
  search_package package ls n = 0 <-> Exists (fun l => contains l package = true) (take (Z.to_nat (11 - n)) ls).
Proof.
  induction ls as [|l ls IH]; intros n Hn; cbn [search_package].
  - rewrite take_nil. split; [done|]. intros H. by apply Exists_nil in H.
  - unfold ANR_IME_MAX_LINE_NUM. destruct (Z.ltb_spec 10 n) as [Hgt|Hle].
    + assert (n = 11) as -> by lia. cbn. split; [done|]. intros H. by apply Exists_nil in H.
    + assert (Z.to_nat (11 - n) = S (Z.to_nat (11 - (n + 1)))) as -> by lia. cbn [take]. rewrite Exists_cons.
      destruct (contains l package); [split; auto|]. rewrite IH by lia. split; [auto|by intros [?|]].
Qed.

(** C36. When a file whose name contains "anr" or "traces" was closed after
    writing, names the application in one of its first eleven lines, and none was
    copied since the last one was created, it is copied, if collecting is on, the
    target is set, can be written and is another file, the path of the trace fits
    into its 100 bytes and the line of information into its 1024.  The copy is
    exactly [copy_of]: the lines up to and with the first that has the end mark
    (all of them if none has), with the line of information behind the first line
    that names the application in a "Cmd line"; the file is marked as copied and
    nothing else changes. *)
Theorem close_write_saves c can_write e f a target package t :
  file_event IN_CLOSE_WRITE e f -> a.(has_copy_anr_file) = 0 -> c.(anr_save_path) = Some target -> c.(package_name) = Some package ->
  c.(collect_anr_on) = true -> can_write target = true -> target <> trace_path f -> Z.of_nat (length (trace_path f)) < 100 ->
  a.(files) !! trace_path f = Some t -> Exists (fun l => contains l package = true) (take 11 (file_lines t)) ->
  Z.of_nat (length (info_line c)) < BUFFER_LENGTH ->
  exists out, handle_event c can_write e a = (Returns tt, mkAnr 1 a.(watched_items) (<[target := out]> a.(files))) /\
    copy_of c package (file_lines t) out.
Proof.
  intros Hev Hcopied Htarget Hpackage Hon Hw _ Hlen Hfile Hfound Hinfo.
  destruct (copy_lines_spec c package (file_lines t) Hinfo []) as (out & Hcopy & Hspec). exists out. split; [|done].
  rewrite (handle_file_event c can_write IN_CLOSE_WRITE e f) by auto. change (IN_CLOSE_WRITE =? IN_CLOSE_WRITE) with true. cbv iota.
  apply wp_exact. unfold handle_anr_file_close_write. wp_steps; [|lia]. unfold has_anr_file_contain_ime_info, anr_file_path. rewrite Hpackage.
  fold (trace_path f). rewrite (proj2 (Z.leb_gt _ _)) by done. wp_steps. rewrite Hfile. apply wp_ret.
  assert (search_package package (file_lines t) 0 = 0) as -> by (apply search_package_spec; [lia|exact Hfound]).
  change (0 =? 0) with true. cbv iota. unfold copy_anr_file, anr_file_path. rewrite Htarget, Hpackage, Hon. cbn [negb].
  fold (trace_path f). rewrite (proj2 (Z.leb_gt _ _)) by done. rewrite Hw. wp_steps. cbn [negb]. cbn [files set_copied]. rewrite Hfile. wp_steps.
  cbn [negb]. eapply wp_of_option; [exact Hcopy|]. wp_steps. split; [done|].
  unfold set_copied, set_file. cbn. by rewrite insert_insert_eq.
Qed.

(** ** What the watcher misses *)

(** The kernel reports with an event without a name that a watch is gone;
    the watcher drops it before it could count the watch: the loop waits for
    events that do not come any more. *)
Lemma nameless_event_dropped c can_write e a : e.(len) = 0 -> handle_event c can_write e a = (Returns tt, a).
Proof. intros Hl. unfold handle_event. rewrite Hl. change (0 =? 0) with true. by destruct (test e.(mask) IN_ISDIR). Qed.

(** A trace that was copied is not copied again, whatever is written to the
    file, until a file is created. *)
Lemma second_trace_ignored c can_write e f a : file_event IN_CLOSE_WRITE e f -> a.(has_copy_anr_file) <> 0 ->
  handle_event c can_write e a = (Returns tt, a).
Proof.
  intros Hev Hc. rewrite (handle_file_event c can_write IN_CLOSE_WRITE e f) by auto. change (IN_CLOSE_WRITE =? IN_CLOSE_WRITE) with true. cbv iota.
  unfold handle_anr_file_close_write, bind, gets. by rewrite (proj2 (Z.eqb_neq _ 0)).
Qed.

(** The saved report is truncated before it is known that there is a trace. *)
Lemma missing_trace_erases c can_write f a target package : c.(anr_save_path) = Some target -> c.(package_name) = Some package ->
  c.(collect_anr_on) = true -> can_write target = true -> Z.of_nat (length (trace_path f)) < 100 -> a.(files) !! trace_path f = None ->
  copy_anr_file c can_write f a = (Returns (-1), mkAnr 0 a.(watched_items) (<[target := []]> a.(files))).
Proof.
  intros Ht Hp Hon Hw Hlen Hf. unfold copy_anr_file, anr_file_path. rewrite Ht, Hp, Hon, Hw. fold (trace_path f).
  rewrite (proj2 (Z.leb_gt _ _)) by done. cbn [negb]. unfold bind, modify, gets, ret. cbn [files set_copied]. by rewrite Hf.
Qed.

(** The path is written into 100 bytes: a name of ninety characters, of the 255
    a file may have, is too long. *)
Lemma long_name_overflows c can_write e f a : file_event IN_CLOSE_WRITE e f -> a.(has_copy_anr_file) = 0 -> c.(package_name) <> None ->
  (90 <= length f)%nat -> fst (handle_event c can_write e a) = Stuck.
Proof.
  intros Hev Hc Hp Hlen. rewrite (handle_file_event c can_write IN_CLOSE_WRITE e f) by auto. change (IN_CLOSE_WRITE =? IN_CLOSE_WRITE) with true. cbv iota.
  unfold handle_anr_file_close_write, bind, gets. rewrite Hc. change (0 =? 0) with true. cbv iota.
  unfold has_anr_file_contain_ime_info, anr_file_path. destruct (package_name c); [|done].
  rewrite (proj2 (Z.leb_le _ _)); [done|]. rewrite length_app. cbn [ANR_FILE_DIR length]. lia.
Qed.

(** ** An example *)

(** "traces.txt", with its padding. *)
Definition demo_name : list Z := [116; 114; 97; 99; 101; 115; 46; 116; 120; 116].
Definition demo_file_event (m : Z) : inotify_event := mkEvent 1 m 0 16 (demo_name ++ replicate 6 0).

(** The application "com.a"; the report goes to "r". *)
Definition demo_config : config := mkConfig (Some [114]) (Some [99; 111; 109; 46; 97]) None true.

(** "Cmd line: com.a", "at x" and "-- end", and a trace behind it. *)
Definition demo_trace : list Z :=
  cmd_line_flag ++ [58; 32; 99; 111; 109; 46; 97; 10] ++ [97; 116; 32; 120; 10] ++ anr_end_flag ++ [10] ++ [121; 10].

Definition demo_anr : anr_data := mkAnr 0 1 {[ trace_path demo_name := demo_trace ]}.

Lemma close_write_saves_witness : exists out,
  handle_event demo_config (fun _ => true) (demo_file_event IN_CLOSE_WRITE) demo_anr = (Returns tt, mkAnr 1 1 (<[[114] := out]> demo_anr.(files))) /\
  copy_of demo_config [99; 111; 109; 46; 97] (file_lines demo_trace) out.
Proof.
  apply (close_write_saves demo_config (fun _ => true) (demo_file_event IN_CLOSE_WRITE) demo_name demo_anr [114] [99; 111; 109; 46; 97] demo_trace).
  - split; [done|]. split; [reflexivity|]. split; [done|]. by right.
  - reflexivity.
  - reflexivity.
  - reflexivity.
  - reflexivity.
  - reflexivity.
  - discriminate.
  - vm_compute. reflexivity.
  - apply lookup_singleton_eq.
  - apply Exists_cons. left. vm_compute. reflexivity.
  - vm_compute. reflexivity.
Defined.

Definition demo_watcher : watcher := mkWatcher (mkHeap ∅ (Some (mkQueue 0 0)) [16; 64]) (mkAnr 1 1 {[ trace_path demo_name := demo_trace ]}).
Definition demo_final : anr_data :=
  snd (handle_all demo_config (fun _ => true) [demo_file_event IN_CREATE; demo_file_event IN_CLOSE_WRITE] demo_watcher.(anr)).

Lemma events_handled_in_order_witness : exists w',
  (let! n := on_heap (read_events 0 64 (encode_events [demo_file_event IN_CREATE; demo_file_event IN_CLOSE_WRITE])) in
   handle_events demo_config (fun _ => true) ;;! ret n) demo_watcher = (Returns 2, w') /\
  w'.(anr) = demo_final /\ owns ∅ w'.(heap) [].
Proof.
  apply (events_handled_in_order demo_config (fun _ => true) 0 [demo_file_event IN_CREATE; demo_file_event IN_CLOSE_WRITE] ∅ demo_watcher demo_final).
  - repeat (constructor; [unfold event_ok, IN_CREATE, IN_CLOSE_WRITE; cbn; lia|]). constructor.
  - discriminate.
  - split; [by exists (mkQueue 0 0); repeat split; constructor|]. cbn. split; [by rewrite dom_empty_L, (right_id_L ∅ (∪))|set_solver].
  - split; [cbn; lia|]. split; [apply (bool_decide_unpack (NoDup [16; 64])); vm_compute; exact I|].
    cbn. repeat (constructor; [split; [done|rewrite dom_empty_L; apply not_elem_of_empty]|]). constructor.
  - vm_compute. reflexivity.
Defined.
