(* ===== verification/CrashSetup.v ===== *)
(** * Setting the crash collector up (libcrash_collect/exception_handler.cpp)

    The strings the application sets, in blocks of the heap; and the signals:
    the handlers that were there are saved, and called after a crash. *)

From stdpp Require Import base numbers list list_numbers gmap.
From Stdlib Require Import Lia ZArith.
From S2P Require Import Prelude InlineHook EventQueue Anr Utf.

#[local] Open Scope Z_scope.
#[local] Open Scope c_scope.

(** ** The strings *)

(** The members that are pointers to strings (zero is the null pointer), the
    blocks of the heap, and the addresses the coming allocations return. *)
Record handler_state : Type := mkHandler {
  crash_save_path : Z;
  anr_save_path_p : Z;
  package_name_p : Z;
  head_info_p : Z;
  dump_java_info : Z;
  blocks : gmap Z (list Z);
  addresses : list Z
}.

Definition set_blocks (v : gmap Z (list Z)) (s : handler_state) : handler_state :=
  mkHandler s.(crash_save_path) s.(anr_save_path_p) s.(package_name_p) s.(head_info_p) s.(dump_java_info) v s.(addresses).
Definition set_addresses (v : list Z) (s : handler_state) : handler_state :=
  mkHandler s.(crash_save_path) s.(anr_save_path_p) s.(package_name_p) s.(head_info_p) s.(dump_java_info) s.(blocks) v.
Definition set_crash_path (v : Z) (s : handler_state) : handler_state :=
  mkHandler v s.(anr_save_path_p) s.(package_name_p) s.(head_info_p) s.(dump_java_info) s.(blocks) s.(addresses).
Definition set_anr_path (v : Z) (s : handler_state) : handler_state :=
  mkHandler s.(crash_save_path) v s.(package_name_p) s.(head_info_p) s.(dump_java_info) s.(blocks) s.(addresses).
Definition set_package (v : Z) (s : handler_state) : handler_state :=
  mkHandler s.(crash_save_path) s.(anr_save_path_p) v s.(head_info_p) s.(dump_java_info) s.(blocks) s.(addresses).
Definition set_head (v : Z) (s : handler_state) : handler_state :=
  mkHandler s.(crash_save_path) s.(anr_save_path_p) s.(package_name_p) v s.(dump_java_info) s.(blocks) s.(addresses).

(** [delete]: nothing for the null pointer, else the block has to be there. *)
Definition delete_block (p : Z) : M handler_state unit :=
  if p =? 0 then ret tt
  else
    let! b := gets blocks in
    let! _ := of_option (b !! p) in
    modify (set_blocks (delete p b)).

(** [new char[n]] with [memset]. *)
Definition new_block (n : Z) : M handler_state Z :=
  let! l := gets addresses in
  match l with
  | [] => stuck
  | p :: l =>
      modify (set_addresses l) ;;!
      modify (fun s => set_blocks (<[p := replicate (Z.to_nat n) 0]> s.(blocks)) s) ;;!
      ret p
  end.

(** [utf16_to_utf8(str16, size, p, size)] with the block at [p]. *)
Definition convert_into (str16 : option (list Z)) (p size : Z) : M handler_state unit :=
  let! b := gets blocks in
  let! buf := of_option (b !! p) in
  match utf16_to_utf8 str16 false size buf with
  | (Returns _, buf) => modify (set_blocks (<[p := buf]> b))
  | (Fails, _) => fail
  | (Stuck, _) => stuck
  end.

(** One setter: [get] and [set] are its member; [str16] has [size] units. *)
Definition set_string (get : handler_state -> Z) (set : Z -> handler_state -> handler_state) (str16 : option (list Z)) (size : Z) : M handler_state unit :=
  let! old := gets get in
  (if negb (old =? 0) then delete_block old else ret tt) ;;!
  let! p := new_block (size + 1) in
  modify (set p) ;;!
  convert_into str16 p size.

Definition SetAnrLogSavePath := set_string anr_save_path_p set_anr_path.
Definition SetCrashLogSavePath := set_string crash_save_path set_crash_path.
Definition SetPackageName := set_string package_name_p set_package.
Definition SetHeadInfo := set_string head_info_p set_head.

(** The destructor. *)
Definition destroy_handler : M handler_state unit :=
  let! s := gets (fun s => s) in
  delete_block s.(crash_save_path) ;;!
  delete_block s.(anr_save_path_p) ;;!
  delete_block s.(head_info_p) ;;!
  delete_block s.(package_name_p) ;;!
  delete_block s.(dump_java_info) ;;!
  delete_block s.(head_info_p).

(** The switches and the state of the keyboard. *)
Definition CRASH_SWITCH := 1.
Definition ANR_SWITCH := 2.

Record switches : Type := mkSwitches { collect_crash : bool; collect_anr : bool; keyboard_state : Z }.

Definition SetCollectSwitch (which : Z) (state : bool) (s : switches) : switches :=
  if which =? CRASH_SWITCH then mkSwitches state s.(collect_anr) s.(keyboard_state)
  else if which =? ANR_SWITCH then mkSwitches s.(collect_crash) state s.(keyboard_state)
  else s.

Definition SetKeyboardShownState (state : Z) (s : switches) : switches := mkSwitches s.(collect_crash) s.(collect_anr) state.

(** ** Signals *)

(** SIGSEGV, SIGABRT, SIGFPE, SIGILL, SIGBUS and SIGTRAP *)
Definition mExceptionSignals : list Z := [11; 6; 8; 4; 7; 5].

(** A handler: that of the collector, or another. *)
Inductive handler : Type := HandleSignal_ | Other (id : Z).

(** The handlers of the process, [old_handlers], and whether the coming calls
    of [sigaction] succeed. *)
Record signal_state : Type := mkSignals { actions : Z -> handler; old_handlers : list handler; results : list bool }.

Definition sigaction_get (sig : Z) : M signal_state (option handler) := fun s =>
  match s.(results) with
  | [] => (Returns (Some (s.(actions) sig)), s)
  | b :: l => (Returns (if b then Some (s.(actions) sig) else None), mkSignals s.(actions) s.(old_handlers) l)
  end.

Definition sigaction_set (sig : Z) (h : handler) : M signal_state unit := fun s =>
  match s.(results) with
  | [] => (Returns tt, mkSignals (fun x => if x =? sig then h else s.(actions) x) s.(old_handlers) [])
  | b :: l => (Returns tt, mkSignals (if b then (fun x => if x =? sig then h else s.(actions) x) else s.(actions)) s.(old_handlers) l)
  end.

(** The loop that saves the handlers, from the [i]-th on; [false] if one cannot
    be asked for. *)
Fixpoint save_handlers (sigs : list Z) (i : Z) : M signal_state bool :=
  match sigs with
  | [] => ret true
  | sig :: sigs =>
      let! h := sigaction_get sig in
      match h with
      | None => ret false
      | Some h =>
          let! l := gets old_handlers in
          let! l := of_option (aset l i h) in
          modify (fun s => mkSignals s.(actions) l s.(results)) ;;!
          save_handlers sigs (i + 1)
      end
  end.

Definition InstallHandlersLocked : M signal_state bool :=
  let! ok := save_handlers mExceptionSignals 0 in
  if negb ok then ret false
  else for_each (fun sig => sigaction_set sig HandleSignal_) mExceptionSignals ;;! ret true.

(** The end of [HandleSignal]: the handler that is called after the report. *)
Definition old_handler (sig : Z) : M signal_state handler :=
  let! l := gets old_handlers in of_option (aget l sig).

(** ** Properties of the strings *)

(** A setter: what it reads and writes of the state. *)
Record member (get : handler_state -> Z) (set : Z -> handler_state -> handler_state) : Prop := {
  mb_get_set v s : get (set v s) = v;
  mb_blocks v s : (set v s).(blocks) = s.(blocks);
  mb_others v s : get (set_blocks v s) = get s
}.

Lemma members : member anr_save_path_p set_anr_path /\ member crash_save_path set_crash_path /\
  member package_name_p set_package /\ member head_info_p set_head.
Proof. repeat split. Qed.

(** The member is unset or has a block; the next block is at [p]. *)
Definition ready (get : handler_state -> Z) (s : handler_state) (p : Z) : Prop :=
  (get s = 0 \/ is_Some (s.(blocks) !! get s)) /\ hd_error s.(addresses) = Some p.

Section Setter.
Context (get : handler_state -> Z) (set : Z -> handler_state -> handler_state) (Hm : member get set).

(** The heap without the block of the member. *)
Definition freed (s : handler_state) : gmap Z (list Z) := if get s =? 0 then s.(blocks) else delete (get s) s.(blocks).

(** The member points to a block of its own with [buf]; the old one is freed. *)
Definition now_set (s s' : handler_state) (p : Z) (buf : list Z) : Prop := get s' = p /\ s'.(blocks) = <[p := buf]> (freed s).

(** Running a setter comes down to the conversion into a block of zeros. *)
Lemma set_string_run str16 size s p : ready get s p -> exists s1,
  now_set s s1 p (replicate (Z.to_nat (size + 1)) 0) /\ set_string get set str16 size s = convert_into str16 p size s1.
Proof.
  intros [Hold Hp]. destruct (addresses s) as [|p' l] eqn:Es; [done|]. injection Hp as ->.
  assert (exists s0, (if negb (get s =? 0) then delete_block (get s) else ret tt) s = (Returns tt, s0) /\ s0.(blocks) = freed s /\ s0.(addresses) = p :: l) as (s0 & Hdel & Hb & Haddr).
  { unfold freed, delete_block. destruct (Z.eqb_spec (get s) 0) as [Hz|Hz]; cbn [negb]; [by exists s|].
    destruct Hold as [?|[x Hx]]; [done|]. exists (set_blocks (delete (get s) s.(blocks)) s). unfold bind, gets, of_option, modify, ret.
    by rewrite Hx. }
  exists (set p (set_blocks (<[p := replicate (Z.to_nat (size + 1)) 0]> s0.(blocks)) (set_addresses l s0))). split.
  - split; [apply Hm|]. rewrite (mb_blocks _ _ Hm). cbn. by rewrite Hb.
  - unfold set_string, new_block. unfold bind at 1, gets at 1. unfold bind at 1. rewrite Hdel. unfold bind, gets, modify, ret. by rewrite Haddr.
Qed.

Lemma set_string_returns str16 size s p n buf : ready get s p ->
  utf16_to_utf8 str16 false size (replicate (Z.to_nat (size + 1)) 0) = (Returns n, buf) ->
  exists s', set_string get set str16 size s = (Returns tt, s') /\ now_set s s' p buf.
Proof.
  intros Hr Hconv. destruct (set_string_run str16 size s p Hr) as (s1 & [Hg Hb] & ->).
  exists (set_blocks (<[p := buf]> s1.(blocks)) s1). unfold convert_into, bind, gets, of_option. rewrite Hb, lookup_insert_eq. unfold ret. rewrite Hconv.
  split; [done|]. split; [by rewrite (mb_others _ _ Hm)|]. cbn. by rewrite insert_insert_eq.
Qed.

Lemma set_string_stuck str16 size s p : ready get s p -> stuck_at (utf16_to_utf8 str16 false size) (replicate (Z.to_nat (size + 1)) 0) ->
  fst (set_string get set str16 size s) = Stuck.
Proof.
  intros Hr Hconv. destruct (set_string_run str16 size s p Hr) as (s1 & [Hg Hb] & ->).
  unfold convert_into, bind, gets, of_option. rewrite Hb, lookup_insert_eq. unfold ret. unfold stuck_at in Hconv.
  by destruct (utf16_to_utf8 _ _ _ _) as [[| |] b].
Qed.
End Setter.

Lemma ascii_same cs : Forall (fun c => 0 < c < 128) cs -> utf16_string cs = cs /\ utf8_string cs = cs /\ Forall scalar cs.
Proof.
  induction 1 as [|c cs Hc _ (IH1 & IH2 & IH3)]; [done|]. unfold utf16_string, utf8_string in *. rewrite !bind_cons, IH1, IH2.
  unfold utf16, utf8. rewrite !(proj2 (Z.ltb_lt _ _)) by lia. split; [done|]. split; [done|]. constructor; [unfold scalar; lia|done].
Qed.

(** A setter stores an ASCII string as it is, with its terminating zero,
    in a new block, and frees the string that was set before. *)
Theorem setter_stores_ascii get set cs s p : member get set -> ready get s p -> Forall (fun c => 0 < c < 128) cs -> cs <> [] ->
  exists s', set_string get set (Some cs) (Z.of_nat (length cs)) s = (Returns tt, s') /\ now_set get s s' p (cs ++ [0]).
Proof.
  intros Hm Hr Hcs Hne. destruct (ascii_same cs Hcs) as (H16 & H8 & Hsc). assert (0 < length cs)%nat by (destruct cs; [done|cbn; lia]).
  eapply set_string_returns; [done|done|]. rewrite <- H16 at 1. rewrite utf16_to_utf8_run by (rewrite ?H8, ?length_replicate; done || lia).
  rewrite H8. f_equal. unfold with_string. rewrite Z.ltb_irrefl. rewrite drop_replicate. f_equal. by replace (_ - _)%nat with 1%nat by lia.
Qed.

Definition demo_handler : handler_state := mkHandler 0 0 16 0 0 {[ 16 := [120; 0] ]} [32].

Lemma setter_stores_ascii_witness : exists s',
  SetPackageName (Some [99; 111; 109]) 3 demo_handler = (Returns tt, s') /\ now_set package_name_p demo_handler s' 32 [99; 111; 109; 0].
Proof.
  apply (setter_stores_ascii package_name_p set_package [99; 111; 109] demo_handler 32).
  - apply members.
  - split; [|reflexivity]. right. eexists. apply lookup_singleton_eq.
  - repeat (constructor; [lia|]). constructor.
  - discriminate.
Defined.

(** ** Strings of characters of three bytes *)

Definition wide_char (c : Z) : Prop := scalar c /\ 0x800 <= c < 0x10000.

Lemma wide_lengths cs : Forall wide_char cs -> Forall scalar cs /\ length (utf16_string cs) = length cs /\ length (utf8_string cs) = (3 * length cs)%nat.
Proof.
  induction 1 as [|c cs [Hs Hc] _ (IH1 & IH2 & IH3)]; [done|]. unfold utf16_string, utf8_string in *. rewrite !bind_cons, !length_app, IH2, IH3.
  unfold utf16, utf8. rewrite (proj2 (Z.ltb_lt c 0x10000)) by lia. rewrite !(proj2 (Z.ltb_ge _ _)) by lia. cbn [length]. split; [by constructor|]. lia.
Qed.

(** The parts of a string before and behind its [k]-th character. *)
Lemma split_at_char k (cs : list Z) : (k < length cs)%nat -> exists c, take (S k) cs = take k cs ++ [c] /\ cs = take (S k) cs ++ drop (S k) cs.
Proof.
  intros Hk. destruct (lookup_lt_is_Some_2 cs k Hk) as [c Hc]. exists c. split; [by apply take_S_r|]. by rewrite take_drop.
Qed.

(** C38. A string of characters that take three bytes in UTF-8, such as Chinese
    ones, does not fit: the block has one byte for each.  With 3 k + 1 characters
    the last one written reaches behind the block; with 3 k + 2 the string has
    no terminating zero; otherwise a third of it is left. *)
Theorem setter_wide_string get set cs s p : member get set -> ready get s p -> Forall wide_char cs -> cs <> [] ->
  let n := length cs in
  ((n mod 3)%nat = 1%nat -> fst (set_string get set (Some (utf16_string cs)) (Z.of_nat n) s) = Stuck) /\
  ((n mod 3)%nat = 2%nat -> exists s', set_string get set (Some (utf16_string cs)) (Z.of_nat n) s = (Returns tt, s') /\
     now_set get s s' p (utf8_string (take (S (n / 3)%nat) cs))) /\
  ((n mod 3)%nat = 0%nat -> exists s', set_string get set (Some (utf16_string cs)) (Z.of_nat n) s = (Returns tt, s') /\
     now_set get s s' p (utf8_string (take (n / 3)%nat cs) ++ [0])).
Proof.
  intros Hm Hr Hcs Hne n. pose proof (Nat.div_mod n 3 ltac:(lia)) as Hdiv. set (k := (n / 3)%nat) in *.
  assert (0 < n)%nat by (subst n; destruct cs; [done|cbn; lia]).
  assert (forall j, Forall wide_char (take j cs)) as Htake by (intros j; by apply Forall_take).
  assert (forall j, (j <= n)%nat -> length (utf8_string (take j cs)) = (3 * j)%nat) as Hlen.
  { intros j Hj. destruct (wide_lengths _ (Htake j)) as (_ & _ & ->). rewrite length_take. fold n. lia. }
  assert (length (replicate (Z.to_nat (Z.of_nat n + 1)) 0) = S n) as Hrep by (rewrite length_replicate; lia).
  assert (forall j, (j < n)%nat -> exists c src, Forall scalar (take j cs ++ [c]) /\ take (S j) cs = take j cs ++ [c] /\ length (utf8 c) = 3%nat /\
    utf16_string cs = utf16_string (take j cs ++ [c]) ++ src) as Hsplit.
  { intros j Hj. destruct (split_at_char j cs Hj) as (c & Hc & Hcs'). exists c, (utf16_string (drop (S j) cs)).
    destruct (wide_lengths _ (Htake (S j))) as (Hsc & _ & _). rewrite <- Hc. split; [done|]. split; [done|]. split.
    - pose proof (Hlen (S j) ltac:(lia)) as H1. rewrite Hc in H1. unfold utf8_string in H1. rewrite bind_app, length_app in H1.
      pose proof (Hlen j ltac:(lia)) as H2. unfold utf8_string in H2. rewrite H2 in H1. cbn in H1. rewrite app_nil_r in H1. lia.
    - rewrite Hcs' at 1. unfold utf16_string. by rewrite bind_app. }
  split; [|split].
  - intros Hmod. destruct (Hsplit k) as (c & src & Hsc & Hc & Hl & ->); [lia|].
    eapply set_string_stuck; [done|done|]. apply utf16_to_utf8_overruns; [done|rewrite Hlen, Hrep by lia; lia|rewrite Hlen, Hrep, Hl by lia; lia].
  - intros Hmod. destruct (Hsplit k) as (c & src & Hsc & Hc & Hl & ->); [lia|]. pose proof (Hlen (S k) ltac:(lia)) as HSk.
    eapply set_string_returns; [done|done|]. rewrite Hc in *. rewrite utf16_to_utf8_full; [|done|rewrite HSk, Hlen by lia; lia|rewrite HSk, Hrep; lia].
    rewrite HSk, drop_ge, app_nil_r by (rewrite Hrep; lia). done.
  - intros Hmod. destruct k as [|k]; [lia|]. destruct (Hsplit k) as (c & src & Hsc & Hc & Hl & ->); [lia|]. pose proof (Hlen (S k) ltac:(lia)) as HSk.
    eapply set_string_returns; [done|done|]. rewrite Hc in *. rewrite utf16_to_utf8_full; [|done|rewrite HSk, Hlen by lia; lia|rewrite HSk, Hrep; lia].
    rewrite HSk, drop_replicate. f_equal. f_equal. by replace (Z.to_nat (Z.of_nat n + 1) - 3 * S k)%nat with 1%nat by lia.
Qed.

(** The one character U+4E2D: three bytes in a block of two. *)
Lemma setter_wide_string_witness : fst (SetPackageName (Some [0x4E2D]) 1 demo_handler) = Stuck.
Proof.
  apply (setter_wide_string package_name_p set_package [0x4E2D] demo_handler 32).
  - apply members.
  - split; [|reflexivity]. right. eexists. apply lookup_singleton_eq.
  - constructor; [|constructor]. split; [left|]; lia.
  - discriminate.
  - reflexivity.
Defined.

(** ** The destructor *)

(** It frees the head information twice. *)
Lemma destructor_frees_twice s : s.(head_info_p) <> 0 -> fst (destroy_handler s) = Stuck.
Proof.
  intros Hh. unfold destroy_handler. change (bind (gets (fun s => s)) ?k s) with (k s s). cbv beta.
  set (p := head_info_p s) in *.
  assert (forall q s1 s2, delete_block q s1 = (Returns tt, s2) -> s2.(blocks) ⊆ s1.(blocks)) as Hsub.
  { intros q s1 s2. unfold delete_block, bind, gets, of_option, modify, ret. destruct (q =? 0); [by intros [= <-]|].
    destruct (blocks s1 !! q); [|done]. intros [= <-]. cbn. apply delete_subseteq. }
  assert (forall q s1, fst (delete_block q s1) <> Fails) as Hnf.
  { intros q s1. unfold delete_block, bind, gets, of_option, modify, ret. destruct (q =? 0); [done|]. by destruct (blocks s1 !! q). }
  assert (forall (q : Z) (k : M handler_state unit) s1, (forall s2, s2.(blocks) ⊆ s1.(blocks) -> fst (k s2) = Stuck) -> fst ((delete_block q ;;! k) s1) = Stuck) as Hstep.
  { intros q k s1 Hk. unfold bind. destruct (delete_block q s1) as [[[]| |] s2] eqn:Hd; [apply Hk, (Hsub _ _ _ Hd)| |done].
    exfalso. apply (Hnf q s1). by rewrite Hd. }
  apply Hstep. intros s1 _. apply Hstep. intros s2 _. unfold bind at 1.
  destruct (delete_block p s2) as [[[]| |] s3] eqn:Hd; [|by exfalso; apply (Hnf p s2); rewrite Hd|done].
  assert (s3.(blocks) !! p = None) as Hnone.
  { revert Hd. unfold delete_block, bind, gets, of_option, modify, ret. rewrite (proj2 (Z.eqb_neq p 0)) by done.
    destruct (blocks s2 !! p); [|done]. intros [= <-]. apply lookup_delete_eq. }
  apply Hstep. intros s4 H4. apply Hstep. intros s5 H5. unfold delete_block. rewrite (proj2 (Z.eqb_neq p 0)) by done.
  unfold bind, gets, of_option. assert (s5.(blocks) !! p = None) as ->; [|done].
  eapply lookup_weaken_None; [exact Hnone|]. by transitivity (blocks s4).
Qed.

Lemma destructor_frees_twice_witness : fst (destroy_handler (mkHandler 0 0 0 16 0 {[ 16 := [120; 0] ]} [])) = Stuck.
Proof. apply destructor_frees_twice. discriminate. Defined.

(** ** The handlers that were there *)

(** What the collector does with a signal after its report. *)
Definition chained (s' : signal_state) (sig : Z) : outcome handler := fst (old_handler sig s').

(** The handlers of six signals are replaced, and the old ones saved in the
    order of the table; but the one that is called after a crash is looked up by
    the number of the signal.  SIGTRAP gets its own old handler, SIGILL that of
    SIGBUS, and the others, among them the segmentation fault, read behind the
    table. *)
Theorem old_handlers_confused s : s.(results) = [] -> length s.(old_handlers) = 6%nat ->
  exists s', InstallHandlersLocked s = (Returns true, s') /\
    (forall sig, sig ∈ mExceptionSignals -> s'.(actions) sig = HandleSignal_) /\
    (forall sig, sig ∉ mExceptionSignals -> s'.(actions) sig = s.(actions) sig) /\
    s'.(old_handlers) = s.(actions) <$> mExceptionSignals /\
    chained s' 5 = Returns (s.(actions) 5) /\ chained s' 4 = Returns (s.(actions) 7) /\
    forall sig, sig ∈ [11; 6; 8; 7] -> chained s' sig = Stuck.
Proof.
  destruct s as [acts old res]. cbn [results old_handlers actions]. intros -> Hlen.
  do 6 (destruct old as [|? old]; [done|]). destruct old; [|done].
  eexists. split; [reflexivity|]. cbn [actions old_handlers]. split; [|split].
  - intros sig Hsig. unfold mExceptionSignals in Hsig.
    repeat (apply elem_of_cons in Hsig as [->|Hsig]; [reflexivity|]). by apply elem_of_nil in Hsig.
  - intros sig Hsig. unfold mExceptionSignals in Hsig. repeat (apply not_elem_of_cons in Hsig as [? Hsig]).
    repeat (rewrite (proj2 (Z.eqb_neq sig _)) by done). done.
  - split; [reflexivity|]. split; [reflexivity|]. split; [reflexivity|]. intros sig Hsig.
    repeat (apply elem_of_cons in Hsig as [->|Hsig]; [reflexivity|]). by apply elem_of_nil in Hsig.
Qed.

Lemma old_handlers_confused_witness : exists s',
  InstallHandlersLocked (mkSignals Other (replicate 6 (Other 0)) []) = (Returns true, s') /\ chained s' 4 = Returns (Other 7) /\ chained s' 11 = Stuck.
Proof.
  destruct (old_handlers_confused (mkSignals Other (replicate 6 (Other 0)) [])) as (s' & H & _ & _ & _ & _ & H4 & H11); [reflexivity|reflexivity|].
  exists s'. split; [exact H|]. split; [exact H4|]. apply H11. left.
Defined.
