(* ===== verification/DumpJava.v ===== *)
(** * The two threads of a crash (libcrash_collect/exception_handler.cpp)

    [HandleSignal] runs in the thread that crashed.  It wakes the thread that
    [RegisterJavaDumpThread] made, which asks Java for the stack of the crashed
    thread, waits for it up to five seconds, and writes the report.  The two
    communicate through two mutexes with a condition variable each, the number
    of the crashed thread and the pointer to the text.  A state has where each
    thread is; a run is an interleaving of their steps. *)

From stdpp Require Import base numbers list.
From Stdlib Require Import Lia ZArith.
From S2P Require Import Prelude.

#[local] Open Scope Z_scope.

(** ** States *)

(** Where the crashed thread is: before the call it is named for; [h_report]
    reads the pointer, [h_print] the text.  [h_waiting] is inside [pthread_cond_timedwait], [h_relock] where that call
    takes the mutex again; [woken] says whether a signal or the time ended
    it. *)
Inductive h_pc : Type :=
| h_start | h_check | h_lock | h_signal | h_unlock
| h_lock_finish | h_timedwait | h_waiting | h_relock (woken : bool) | h_unlock_finish (woken : bool)
| h_report (woken : option bool) | h_print (woken : option bool) | h_end (woken : option bool).

(** Where the dump thread is. *)
Inductive d_pc : Type :=
| d_start | d_lock | d_test | d_waiting | d_relock
| d_call | d_new (ss : list Z) | d_memset (ss : list Z) | d_memcpy (ss : list Z) | d_unlock
| d_lock_finish | d_signal_finish | d_unlock_finish | d_end.

Inductive thread : Type := Crashed | Dump.

(** What the pointer [dump_java_info] points to. *)
Inductive text : Type := Uninitialised | Zeros | Text (s : list Z).

(** [spurious]: how many wake-ups without a signal are to come; [shown] is what
    the report was given. *)
Record state : Type := mkState {
  h_at : h_pc;
  d_at : d_pc;
  mutex : option thread;
  mutex_finish : option thread;
  ms_tidCrash : Z;
  dump_info : option text;
  spurious : nat;
  shown : option (option text)
}.

(** What the answer of Java is: a string, the null pointer, or none at all. *)
Inductive java_answer : Type := Answers (ss : option (list Z)) | Hangs.

Record setting : Type := mkSetting {
  collect_crash_on : bool;
  ntid : bool; (* the dump thread was made *)
  attached : bool; (* the virtual machine lets it in *)
  gettid : Z;
  java : java_answer
}.

(** ** Steps *)

Definition at_h (v : h_pc) (s : state) : state :=
  mkState v s.(d_at) s.(mutex) s.(mutex_finish) s.(ms_tidCrash) s.(dump_info) s.(spurious) s.(shown).
Definition at_d (v : d_pc) (s : state) : state :=
  mkState s.(h_at) v s.(mutex) s.(mutex_finish) s.(ms_tidCrash) s.(dump_info) s.(spurious) s.(shown).
Definition with_mutex (v : option thread) (s : state) : state :=
  mkState s.(h_at) s.(d_at) v s.(mutex_finish) s.(ms_tidCrash) s.(dump_info) s.(spurious) s.(shown).
Definition with_finish (v : option thread) (s : state) : state :=
  mkState s.(h_at) s.(d_at) s.(mutex) v s.(ms_tidCrash) s.(dump_info) s.(spurious) s.(shown).
Definition with_tid (v : Z) (s : state) : state :=
  mkState s.(h_at) s.(d_at) s.(mutex) s.(mutex_finish) v s.(dump_info) s.(spurious) s.(shown).
Definition with_info (v : option text) (s : state) : state :=
  mkState s.(h_at) s.(d_at) s.(mutex) s.(mutex_finish) s.(ms_tidCrash) v s.(spurious) s.(shown).
Definition with_spurious (v : nat) (s : state) : state :=
  mkState s.(h_at) s.(d_at) s.(mutex) s.(mutex_finish) s.(ms_tidCrash) s.(dump_info) v s.(shown).
Definition with_shown (v : option (option text)) (s : state) : state :=
  mkState s.(h_at) s.(d_at) s.(mutex) s.(mutex_finish) s.(ms_tidCrash) s.(dump_info) s.(spurious) v.

(** A mutex can be taken by one thread; who waits for it has no step. *)
Definition lock (m : option thread) (k : state) : option state := match m with None => Some k | Some _ => None end.

(** [pthread_cond_signal]: a thread that waits goes on to take its mutex again;
    otherwise nothing happens. *)
Definition signal_cond (s : state) : state := match s.(d_at) with d_waiting => at_d d_relock s | _ => s end.
Definition signal_cond_finish (s : state) : state := match s.(h_at) with h_waiting => at_h (h_relock true) s | _ => s end.

Section Setting.
Context (c : setting).

(** The next step of [HandleSignal] and [WaitDumpJava]. *)
Definition handler_step (s : state) : option state :=
  match s.(h_at) with
  | h_start => Some (if c.(collect_crash_on) then at_h h_check (with_tid c.(gettid) s) else at_h (h_end None) s)
  | h_check => Some (at_h (if c.(ntid) then h_lock else h_report None) s)
  | h_lock => lock s.(mutex) (at_h h_signal (with_mutex (Some Crashed) s))
  | h_signal => Some (signal_cond (at_h h_unlock s))
  | h_unlock => Some (at_h h_lock_finish (with_mutex None s))
  | h_lock_finish => lock s.(mutex_finish) (at_h h_timedwait (with_finish (Some Crashed) s))
  | h_timedwait => Some (at_h h_waiting (with_finish None s))
  | h_waiting => None
  | h_relock w => lock s.(mutex_finish) (at_h (h_unlock_finish w) (with_finish (Some Crashed) s))
  | h_unlock_finish w => Some (at_h (h_report (Some w)) (with_finish None s))
  | h_report w =>
      Some (match s.(dump_info) with None => at_h (h_end w) (with_shown (Some None) s) | Some _ => at_h (h_print w) s end)
  | h_print w => Some (at_h (h_end w) (with_shown (Some s.(dump_info)) s))
  | h_end _ => None
  end.

(** The next step of [DumpJavaThreadInfo] and [SetDumpJavaFinish]. *)
Definition dump_step (s : state) : option state :=
  match s.(d_at) with
  | d_start => Some (at_d (if c.(attached) then d_lock else d_end) s)
  | d_lock => lock s.(mutex) (at_d d_test (with_mutex (Some Dump) s))
  | d_test => Some (if s.(ms_tidCrash) =? 0 then at_d d_waiting (with_mutex None s) else at_d d_call s)
  | d_waiting => None
  | d_relock => lock s.(mutex) (at_d d_test (with_mutex (Some Dump) s))
  | d_call =>
      match c.(java) with
      | Answers (Some ss) => Some (at_d (d_new ss) s)
      | Answers None => Some (at_d d_unlock s)
      | Hangs => None
      end
  | d_new ss => Some (at_d (d_memset ss) (with_info (Some Uninitialised) s))
  | d_memset ss => Some (at_d (d_memcpy ss) (with_info (Some Zeros) s))
  | d_memcpy ss => Some (at_d d_unlock (with_info (Some (Text ss)) s))
  | d_unlock => Some (at_d d_lock_finish (with_mutex None s))
  | d_lock_finish => lock s.(mutex_finish) (at_d d_signal_finish (with_finish (Some Dump) s))
  | d_signal_finish => Some (signal_cond_finish (at_d d_unlock_finish s))
  | d_unlock_finish => Some (at_d d_end (with_finish None s))
  | d_end => None
  end.

(** What can happen: a step of a thread, the end of the five seconds, a
    wake-up without a signal. *)
Inductive action : Type := Handler | Dumper | Timeout | Spurious.

Definition act (a : action) (s : state) : option state :=
  match a with
  | Handler => handler_step s
  | Dumper => dump_step s
  | Timeout => match s.(h_at) with h_waiting => Some (at_h (h_relock false) s) | _ => None end
  | Spurious =>
      match s.(d_at), s.(spurious) with
      | d_waiting, S n => Some (at_d d_relock (with_spurious n s))
      | _, _ => None
      end
  end.

(** Before the crash; the dump thread may have come anywhere up to its wait. *)
Definition initial (n : nat) : state :=
  mkState h_start (if c.(ntid) then d_start else d_end) None None 0 None n None.

Inductive run (n : nat) : nat -> state -> Prop :=
| run_start : run n 0 (initial n)
| run_act a k s s' : run n k s -> act a s = Some s' -> run n (S k) s'.

Definition execute (l : list action) (s : state) : option state := foldl (fun o a => o ≫= act a) (Some s) l.
End Setting.

(** ** What holds in every state *)

Section Invariant.
Context (c : setting).

(** Who holds the two mutexes, by where the threads are. *)
Definition holds_mutex (h : h_pc) (d : d_pc) : option thread :=
  match h with
  | h_signal | h_unlock => Some Crashed
  | _ => match d with d_test | d_call | d_new _ | d_memset _ | d_memcpy _ | d_unlock => Some Dump | _ => None end
  end.
Definition holds_finish (h : h_pc) (d : d_pc) : option thread :=
  match h with
  | h_timedwait | h_unlock_finish _ => Some Crashed
  | _ => match d with d_signal_finish | d_unlock_finish => Some Dump | _ => None end
  end.

(** Not both threads are where a mutex has to be held. *)
Definition exclusive (h : h_pc) (d : d_pc) : bool :=
  match h, d with
  | (h_signal | h_unlock), (d_test | d_call | d_new _ | d_memset _ | d_memcpy _ | d_unlock) => false
  | (h_timedwait | h_unlock_finish _), (d_signal_finish | d_unlock_finish) => false
  | _, _ => true
  end.

(** The dump thread waits only as long as it has not been signalled. *)
Definition not_lost (h : h_pc) (d : d_pc) : bool :=
  match d with
  | d_waiting => match h with h_start | h_check | h_lock | h_signal => true | h_end None => negb c.(collect_crash_on) | _ => false end
  | _ => true
  end.

(** What it was woken for is there. *)
Definition woken_late (h : h_pc) (d : d_pc) : bool :=
  match h with
  | h_relock true | h_unlock_finish true | h_report (Some true) | h_print (Some true) | h_end (Some true) =>
      match d with d_unlock_finish => true | d_end => c.(attached) | _ => false end
  | _ => true
  end.

(** The path of the crashed thread. *)
Definition on_path (h : h_pc) : bool :=
  match h with
  | h_start => true
  | h_end None => negb (c.(collect_crash_on) && c.(ntid))
  | h_check => c.(collect_crash_on)
  | h_report None | h_print None => c.(collect_crash_on) && negb c.(ntid)
  | _ => c.(collect_crash_on) && c.(ntid)
  end.

(** The dump thread is not there, or was not let in. *)
Definition d_path (d : d_pc) : bool :=
  match d with
  | d_end => true
  | d_start => c.(ntid)
  | _ => c.(ntid) && c.(attached)
  end.

(** The text that Java gave. *)
Definition answer : option (list Z) := match c.(java) with Answers ss => ss | Hangs => None end.

(** What the pointer points to, by where the dump thread is. *)
Definition info_at (d : d_pc) : option text :=
  match d with
  | d_memset _ => Some Uninitialised
  | d_memcpy _ => Some Zeros
  | d_unlock | d_lock_finish | d_signal_finish | d_unlock_finish => Text <$> answer
  | d_end => if c.(ntid) && c.(attached) then Text <$> answer else None
  | _ => None
  end.

Definition has_answer (d : d_pc) : Prop :=
  match d with
  | d_new ss | d_memset ss | d_memcpy ss => answer = Some ss
  | _ => True
  end.

(** What the report was given. *)
Definition shown_at (h : h_pc) (r : option (option text)) : Prop :=
  match h with
  | h_end None => r = if c.(collect_crash_on) then Some None else None
  | h_end (Some true) => r = Some (Text <$> answer)
  | h_end (Some false) => is_Some r
  | _ => r = None
  end.

Record invariant (s : state) : Prop := {
  inv_mutex : s.(mutex) = holds_mutex s.(h_at) s.(d_at);
  inv_finish : s.(mutex_finish) = holds_finish s.(h_at) s.(d_at);
  inv_exclusive : exclusive s.(h_at) s.(d_at) = true;
  inv_lost : not_lost s.(h_at) s.(d_at) = true;
  inv_late : woken_late s.(h_at) s.(d_at) = true;
  inv_h : on_path s.(h_at) = true;
  inv_d : d_path s.(d_at) = true;
  inv_answer : has_answer s.(d_at);
  inv_info : s.(dump_info) = info_at s.(d_at);
  inv_tid : s.(ms_tidCrash) = match s.(h_at) with h_start => 0 | h_end None => if c.(collect_crash_on) then c.(gettid) else 0 | _ => c.(gettid) end;
  inv_shown : shown_at s.(h_at) s.(shown)
}.

Lemma invariant_initial n : invariant (initial c n).
Proof. unfold initial. split; cbn; try done; destruct (ntid c) eqn:E; cbn; by rewrite ?E. Qed.

Context (Hgettid : c.(gettid) <> 0).

(** All combinations of the places of the threads, the setting and the answer. *)
Ltac all_places h d :=
  destruct h as [| | | | | | | |[]|[]|[[]|]|[[]|]|[[]|]], d; try done; cbn in *; try discriminate;
  destruct (collect_crash_on c) eqn:Eon, (ntid c) eqn:Ent, (attached c) eqn:Eat; cbn in *; try discriminate;
  unfold answer in *; try destruct (java c) as [[]|] eqn:Ej; cbn in *; try discriminate.

Lemma invariant_act a s s' : invariant s -> act c a s = Some s' -> invariant s'.
Proof.
  pose proof (proj2 (Z.eqb_neq c.(gettid) 0) Hgettid) as Htid.
  destruct s as [h d m mf tid info sp sh]. intros [H1 H2 H3 H4 H5 H6 H7 H8 H9 H10 H11] Hact. cbn in *. subst m mf info tid.
  destruct a; cbn in Hact; unfold handler_step, dump_step, lock, signal_cond, signal_cond_finish in Hact; cbn in Hact;
    all_places h d; rewrite ?Htid in Hact; try destruct sp; try discriminate;
    injection Hact as <-; split; cbn; rewrite ?Eon, ?Ent, ?Eat, ?Ej, ?Htid; cbn; unfold answer; rewrite ?Ej; (done || by injection H8 as ->).
Qed.

(** ** Every run ends *)

Definition h_left (h : h_pc) : nat :=
  match h with
  | h_start => 14 | h_check => 13 | h_lock => 12 | h_signal => 11 | h_unlock => 8 | h_lock_finish => 7 | h_timedwait => 6
  | h_waiting => 5 | h_relock _ => 4 | h_unlock_finish _ => 3 | h_report _ => 2 | h_print _ => 1 | h_end _ => 0
  end.

Definition d_left (d : d_pc) : nat :=
  match d with
  | d_start => 12 | d_lock => 11 | d_test => 10 | d_waiting => 9 | d_relock => 11 | d_call => 8 | d_new _ => 7 | d_memset _ => 6
  | d_memcpy _ => 5 | d_unlock => 4 | d_lock_finish => 3 | d_signal_finish => 2 | d_unlock_finish => 1 | d_end => 0
  end.

(** An upper bound of the actions that are still to come. *)
Definition left_over (s : state) : nat := h_left s.(h_at) + d_left s.(d_at) + 3 * s.(spurious).

Lemma act_left a s s' : act c a s = Some s' -> (left_over s' < left_over s)%nat.
Proof.
  destruct s as [h d m mf tid info sp sh]. intros Hact.
  destruct a; cbn in Hact; unfold handler_step, dump_step, lock, signal_cond, signal_cond_finish in Hact; cbn in Hact.
  - destruct h; try discriminate; try destruct m; try destruct mf; try discriminate; injection Hact as <-;
      try destruct (collect_crash_on c); try destruct (ntid c); try destruct info; try destruct d; unfold left_over; cbn; lia.
  - destruct d; try discriminate; try destruct m; try destruct mf; try destruct (java c) as [[]|]; try discriminate; injection Hact as <-;
      try destruct (attached c); try destruct (tid =? 0); try destruct h; unfold left_over; cbn; lia.
  - destruct h; try discriminate. injection Hact as <-. unfold left_over. cbn. lia.
  - destruct d, sp; try discriminate. injection Hact as <-. unfold left_over. cbn. lia.
Qed.

Lemma run_left n k s : run c n k s -> (k + left_over s <= 26 + 3 * n)%nat.
Proof.
  induction 1 as [|a k s s' _ IH Hact]; [unfold left_over; cbn; destruct (ntid c); cbn; lia|].
  apply act_left in Hact. lia.
Qed.

(** Nothing can happen any more. *)
Definition quiet (s : state) : Prop := forall a, act c a s = None.

Lemma quiet_done s : invariant s -> c.(java) <> Hangs -> quiet s -> 
  exists w, s.(h_at) = h_end w /\ (c.(collect_crash_on) = true -> s.(d_at) = d_end).
Proof.
  destruct s as [h d m mf tid info sp sh]. intros [H1 H2 H3 H4 H5 H6 H7 H8 H9 H10 H11] Hj Hq. cbn in *. subst m mf info tid.
  pose proof (Hq Handler) as Qh. pose proof (Hq Dumper) as Qd. pose proof (Hq Timeout) as Qt. clear Hq.
  unfold act, handler_step, dump_step, lock in Qh, Qd, Qt; cbn in Qh, Qd, Qt.
  all_places h d; try (destruct (_ =? 0); discriminate); try congruence; by (eexists; split; [reflexivity|congruence]).
Qed.

Lemma invariant_run n k s : run c n k s -> invariant s.
Proof. induction 1; [apply invariant_initial|by eapply invariant_act]. Qed.
End Invariant.

(** ** The report *)

(** C30. If Java answers or refuses ([java <> Hangs]), thread numbers are not
    zero and crashes are collected, the report is written whatever the order
    in which the crashed thread and the dump thread run, with time-outs and
    spurious wake-ups: every run ends, after at most 26 actions and three for
    each spurious wake-up, and where nothing can happen any more the crashed
    thread is through with its report, and the dump thread has ended too: no
    signal it needs is lost. If the call into Java hangs, the crashed thread
    can wait for ever for the mutex ([java_hang_blocks_report]). *)
Theorem report_is_written c n k s : c.(gettid) <> 0 -> c.(java) <> Hangs -> run c n k s ->
  (k <= 26 + 3 * n)%nat /\
  (quiet c s -> c.(collect_crash_on) = true -> (exists w, s.(h_at) = h_end w) /\ is_Some s.(shown) /\ s.(d_at) = d_end).
Proof.
  intros Htid Hj Hr. split; [pose proof (run_left c n k s Hr); lia|]. intros Hq Hon.
  pose proof (invariant_run c Htid n k s Hr) as Hinv. destruct (quiet_done c s Hinv Hj Hq) as (w & Hw & Hd).
  split; [by exists w|]. split; [|by apply Hd]. pose proof (inv_shown c s Hinv) as H. rewrite Hw in H. cbn in H.
  destruct w as [[]|]; rewrite ?Hon in H; [by rewrite H|done|by rewrite H].
Qed.

(** What the two threads share: each mutex has at most one holder, and a
    crashed thread that was woken by the dump thread, not by the clock, shows
    the whole answer of Java. *)
Theorem woken_report_complete c n k s : c.(gettid) <> 0 -> run c n k s ->
  s.(mutex) = holds_mutex s.(h_at) s.(d_at) /\ s.(mutex_finish) = holds_finish s.(h_at) s.(d_at) /\ exclusive s.(h_at) s.(d_at) = true /\
  (s.(h_at) = h_end (Some true) -> s.(shown) = Some (Text <$> answer c)).
Proof.
  intros Htid Hr. pose proof (invariant_run c Htid n k s Hr) as [H1 H2 H3 _ _ _ _ _ _ _ H11].
  split; [done|]. split; [done|]. split; [done|]. intros Hw. by rewrite Hw in H11.
Qed.

Lemma execute_runs c n l : forall k s s', run c n k s -> execute c l s = Some s' -> run c n (k + length l) s'.
Proof.
  induction l as [|a l IH]; intros k s s' Hr; unfold execute; cbn.
  - intros [= <-]. by rewrite Nat.add_0_r.
  - destruct (act c a s) as [s1|] eqn:Ha; cbn.
    + intros He. rewrite Nat.add_succ_r, <- Nat.add_succ_l. eapply IH; [by eapply run_act|exact He].
    + intros He. exfalso. clear -He. induction l as [|b l IH]; cbn in *; [discriminate|by apply IH].
Qed.

(** The dump thread waits, the other wakes it and is woken; Java answers "ok". *)
Definition demo_setting : setting := mkSetting true true true 7 (Answers (Some [111; 107])).
Definition demo_order : list action := replicate 3 Dumper ++ replicate 7 Handler ++ replicate 10 Dumper ++ replicate 4 Handler.
Definition demo_final : state := mkState (h_end (Some true)) d_end None None 7 (Some (Text [111; 107])) 0 (Some (Some (Text [111; 107]))).

Lemma demo_run : run demo_setting 0 24 demo_final.
Proof. apply (execute_runs demo_setting 0 demo_order 0 (initial demo_setting 0)); [apply run_start|reflexivity]. Qed.

Lemma report_is_written_witness : (24 <= 26)%nat /\ (exists w, demo_final.(h_at) = h_end w) /\ is_Some demo_final.(shown) /\ demo_final.(d_at) = d_end.
Proof.
  destruct (report_is_written demo_setting 0 24 demo_final) as [H1 H2]; [discriminate|discriminate|apply demo_run|].
  split; [exact H1|]. apply H2; [|reflexivity]. intros []; reflexivity.
Defined.

Lemma woken_report_complete_witness : demo_final.(mutex) = None /\ demo_final.(shown) = Some (Some (Text [111; 107])).
Proof.
  destruct (woken_report_complete demo_setting 0 24 demo_final) as (H1 & _ & _ & H4); [discriminate|apply demo_run|].
  split; [exact H1|]. apply H4. reflexivity.
Defined.

(** ** What the threads can do to each other *)

(** The dump thread comes to its lock only when the number of the crashed thread
    is set: it asks Java with the mutex held, and if there is no answer the
    crashed thread, which has not begun to count its five seconds, never writes
    its report. *)
Definition hang_setting : setting := mkSetting true true true 7 Hangs.
Definition hang_state : state := mkState h_lock d_call (Some Dump) None 7 None 0 None.

Lemma java_hang_blocks_report : run hang_setting 0 5 hang_state /\ quiet hang_setting hang_state.
Proof.
  split; [|by intros []].
  apply (execute_runs hang_setting 0 [Handler; Handler; Dumper; Dumper; Dumper] 0 (initial hang_setting 0)); [apply run_start|].
  vm_compute. reflexivity.
Qed.

(** The text is there before the crashed thread begins to wait: the signal is
    lost, and only the end of the five seconds wakes it. *)
Definition late_state : state := mkState h_waiting d_end None None 7 (Some (Text [111; 107])) 0 None.

Lemma finished_before_wait : run demo_setting 0 20 late_state /\ forall a, a <> Timeout -> act demo_setting a late_state = None.
Proof.
  split; [|by intros []].
  apply (execute_runs demo_setting 0 (replicate 3 Dumper ++ replicate 5 Handler ++ replicate 10 Dumper ++ replicate 2 Handler) 0
    (initial demo_setting 0)); [apply run_start|].
  vm_compute. reflexivity.
Qed.

(** When the time is over while the dump thread copies the text, the report is
    given memory that was never written. *)
Definition garbled_state : state := mkState (h_end (Some false)) (d_memset [111; 107]) (Some Dump) None 7 (Some Uninitialised) 0 (Some (Some Uninitialised)).

Lemma timed_out_report_garbled : run demo_setting 0 19 garbled_state.
Proof.
  apply (execute_runs demo_setting 0 (replicate 3 Dumper ++ replicate 7 Handler ++ replicate 4 Dumper ++ Timeout :: replicate 4 Handler) 0
    (initial demo_setting 0)); [apply run_start|].
  vm_compute. reflexivity.
Qed.
