(* ===== verification/MemLeak.v ===== *)
(** * Leaks (libmemcheck/backtrace.cpp, memcheck_jni.cpp)

    The hooks of [malloc], [realloc] and [free] call [show_stack], which walks
    up the stack with the unwinder of Exidx.v and notes what the frames of the
    library under test allocate and free. *)

From stdpp Require Import base numbers list list_numbers.
From Stdlib Require Import Lia ZArith.
From S2P Require Import Prelude InlineHook Exidx ExidxFrame ExidxTable.

#[local] Open Scope Z_scope.
#[local] Open Scope c_scope.

(** ** The code *)

(** What [dladdr] fills in; null pointers are [None]. *)
Record Dl_info : Type := mkInfo { dli_fname : option (list Z); dli_fbase : Z; dli_sname : option (list Z) }.

(** "libsogouime.so", "memcheck", "Znwj" *)
Definition CHECK_LIST : list Z := [108; 105; 98; 115; 111; 103; 111; 117; 105; 109; 101; 46; 115; 111].
Definition memcheck_name : list Z := [109; 101; 109; 99; 104; 101; 99; 107].
Definition new_name : list Z := [90; 110; 119; 106].

Inductive op : Type := MALLOC | REALLOC | FREE.

(** [multimap<int, int>]: in the order of the keys, and of the insertions. *)
Fixpoint multimap_insert (k v : Z) (m : list (Z * Z)) : list (Z * Z) :=
  match m with
  | [] => [(k, v)]
  | (k', v') :: m' => if k' <=? k then (k', v') :: multimap_insert k v m' else (k, v) :: m
  end.

Definition multimap_erase (k : Z) (m : list (Z * Z)) : list (Z * Z) := filter (fun p => p.1 <> k) m.

(** [memleak] and what [show_leak] has printed. *)
Record leak_state : Type := mkLeaks { memleak : list (Z * Z); printed : list (Z * Z) }.

Definition set_memleak (v : list (Z * Z)) (s : leak_state) : leak_state := mkLeaks v s.(printed).

Definition is_set (o : option (list Z)) (sub : list Z) : bool := match o with Some s => strstr sub s | None => false end.

Section Memory.
Context (load half : Z -> option Z).
Context (dladdr : Z -> option Dl_info).
(** What uninitialised fields of the unwinder's cursor hold. *)
Context (cpsr status : Z).

(** The record of a call that finds nothing stays zero. *)
Definition find_info (pc : Z) : Dl_info := default (mkInfo None 0 None) (dladdr pc).

(** The module of an address, for the unwinder. *)
Definition module_base (pc : Z) : option Z :=
  match (find_info pc).(dli_fname) with Some _ => Some (find_info pc).(dli_fbase) | None => None end.

(** What is noted for a frame of the library. *)
Definition note_frame (o : op) (old_addr new_addr offset : Z) : M leak_state unit :=
  match o with
  | MALLOC => modify (fun s => set_memleak (multimap_insert (i32 new_addr) (i32 offset) s.(memleak)) s)
  | REALLOC => ret tt
  | FREE => modify (fun s => set_memleak (multimap_erase (i32 old_addr) s.(memleak)) s)
  end.

(** The loop of [show_stack]: [n] rounds are left of [step < 6]. *)
Fixpoint show_loop (n : nat) (sigctx : sigcontext) (o : op) (old_addr new_addr : Z) : M leak_state unit :=
  match n with
  | O => ret tt
  | S n =>
      match Step load half module_base cpsr status sigctx with
      | (Returns r, sigctx) =>
          let info := find_info sigctx.(arm_pc) in
          let next := if 0 <? r then show_loop n sigctx o old_addr new_addr else ret tt in
          if is_set info.(dli_fname) memcheck_name then next
          else if is_set info.(dli_fname) CHECK_LIST then
            if is_set info.(dli_sname) new_name then next
            else note_frame o old_addr new_addr (u32 (sigctx.(arm_pc) - info.(dli_fbase))) ;;! next
          else next
      | (Fails, _) => fail
      | (Stuck, _) => stuck
      end
  end.

(** [sigctx]: the registers at the call. *)
Definition show_stack (sigctx : sigcontext) (old_addr new_addr : Z) (o : op) : M leak_state unit :=
  show_loop 5 sigctx o old_addr new_addr.

(** The hooks; [pRet] is what the function that is hooked returns. *)
Definition my_malloc (sigctx : sigcontext) (pRet : Z) : M leak_state Z :=
  show_stack sigctx 0 pRet MALLOC ;;! ret pRet.

Definition my_realloc (sigctx : sigcontext) (ptr pRet : Z) : M leak_state Z :=
  show_stack sigctx ptr pRet REALLOC ;;! ret pRet.

Definition my_free (sigctx : sigcontext) (ptr : Z) : M leak_state unit :=
  show_stack sigctx ptr 0 FREE.

Definition show_leak : M leak_state unit :=
  modify (fun s => mkLeaks [] (s.(printed) ++ s.(memleak))).

(** ** Histories *)

(** One call of a hooked function. *)
Inductive call : Type :=
| Malloc (sigctx : sigcontext) (pRet : Z)
| Realloc (sigctx : sigcontext) (ptr pRet : Z)
| Free (sigctx : sigcontext) (ptr : Z).

Definition run_call (k : call) : M leak_state unit :=
  match k with
  | Malloc sigctx p => my_malloc sigctx p ;;! ret tt
  | Realloc sigctx p q => my_realloc sigctx p q ;;! ret tt
  | Free sigctx p => my_free sigctx p
  end.

Fixpoint run_calls (ks : list call) : M leak_state unit :=
  match ks with
  | [] => ret tt
  | k :: ks => run_call k ;;! run_calls ks
  end.

(** ** The frames a call is put down to *)

(** The offsets of the frames of the library that are not [operator new],
    among the five above the hook; [None] if the unwinder does not get
    through. *)
Fixpoint blamed (n : nat) (sigctx : sigcontext) : option (list Z) :=
  match n with
  | O => Some []
  | S n =>
      match Step load half module_base cpsr status sigctx with
      | (Returns r, sigctx) =>
          let info := find_info sigctx.(arm_pc) in
          match (if 0 <? r then blamed n sigctx else Some []) with
          | None => None
          | Some fs =>
              if is_set info.(dli_fname) CHECK_LIST && negb (is_set info.(dli_fname) memcheck_name) && negb (is_set info.(dli_sname) new_name)
              then Some (i32 (u32 (sigctx.(arm_pc) - info.(dli_fbase))) :: fs)
              else Some fs
          end
      | _ => None
      end
  end.

Definition blame (sigctx : sigcontext) : option (list Z) := blamed 5 sigctx.

Definition effect (o : op) (old_addr new_addr : Z) (fs : list Z) (m : list (Z * Z)) : list (Z * Z) :=
  match o with
  | MALLOC => fold_left (fun m f => multimap_insert (i32 new_addr) f m) fs m
  | REALLOC => m
  | FREE => match fs with [] => m | _ => multimap_erase (i32 old_addr) m end
  end.

Lemma erase_twice k m : multimap_erase k (multimap_erase k m) = multimap_erase k m.
Proof.
  apply filter_all, Forall_forall. intros p Hp. unfold multimap_erase in Hp. by apply list_elem_of_filter in Hp as [? _].
Qed.

Lemma show_loop_effect o old_addr new_addr n : forall sigctx fs s, blamed n sigctx = Some fs ->
  show_loop n sigctx o old_addr new_addr s = (Returns tt, set_memleak (effect o old_addr new_addr fs s.(memleak)) s).
Proof.
  induction n as [|n IH]; intros sigctx fs s; cbn [blamed show_loop].
  - intros [= <-]. by destruct o, s.
  - destruct (Step load half module_base cpsr status sigctx) as [[r| |] sig']; [|done|done].
    set (info := find_info (arm_pc sig')).
    destruct (if 0 <? r then blamed n sig' else Some []) as [fs'|] eqn:Hrest; [|done].
    assert (forall s, (if 0 <? r then show_loop n sig' o old_addr new_addr else ret tt) s =
      (Returns tt, set_memleak (effect o old_addr new_addr fs' s.(memleak)) s)) as Hnext.
    { intros t. destruct (0 <? r); [by apply IH|]. injection Hrest as <-. by destruct o, t. }
    destruct (is_set (dli_fname info) memcheck_name); cbn [negb andb]; [rewrite andb_false_r; intros [= <-]; apply Hnext|].
    rewrite andb_true_r. destruct (is_set (dli_fname info) CHECK_LIST); cbn [andb]; [|intros [= <-]; apply Hnext].
    destruct (is_set (dli_sname info) new_name); cbn [negb]; [intros [= <-]; apply Hnext|]. intros [= <-].
    unfold note_frame, bind. destruct o; cbn [modify ret]; rewrite Hnext; [done|done|].
    f_equal. unfold set_memleak. cbn. f_equal. destruct fs'; [done|]. apply erase_twice.
Qed.

(** ** What is reported *)

Definition call_sig (k : call) : sigcontext := match k with Malloc g _ => g | Realloc g _ _ => g | Free g _ => g end.

(** The unwinder gets through from the stack of the call. *)
Definition traced (k : call) : Prop := is_Some (blame (call_sig k)).

Definition call_effect (m : list (Z * Z)) (k : call) : list (Z * Z) :=
  let fs := default [] (blame (call_sig k)) in
  match k with
  | Malloc _ p => effect MALLOC 0 p fs m
  | Realloc _ p q => effect REALLOC p q fs m
  | Free _ p => effect FREE p 0 fs m
  end.

Lemma run_call_effect k s : traced k -> run_call k s = (Returns tt, set_memleak (call_effect s.(memleak) k) s).
Proof.
  intros [fs Hfs]. unfold call_effect. rewrite Hfs. cbn [default]. unfold blame in Hfs.
  destruct k; cbn [run_call call_sig] in *; unfold my_malloc, my_realloc, my_free, show_stack, bind;
    by rewrite (show_loop_effect _ _ _ 5 _ fs) by done.
Qed.

Lemma run_calls_effect ks : forall s, Forall traced ks -> run_calls ks s = (Returns tt, set_memleak (fold_left call_effect ks s.(memleak)) s).
Proof.
  induction ks as [|k ks IH]; intros s Hks; [by destruct s|]. apply Forall_cons in Hks as [Hk Hks]. cbn [run_calls fold_left].
  unfold bind. rewrite run_call_effect by done. by rewrite IH.
Qed.

Lemma elem_of_multimap_insert k v m x : x ∈ multimap_insert k v m <-> x = (k, v) \/ x ∈ m.
Proof.
  induction m as [|[k' v'] m IH]; cbn [multimap_insert]; [by rewrite list_elem_of_singleton, elem_of_nil; tauto|].
  destruct (k' <=? k); rewrite !elem_of_cons; [rewrite IH|]; tauto.
Qed.

Lemma elem_of_inserts k fs : forall m x, x ∈ fold_left (fun m f => multimap_insert k f m) fs m <-> (x.1 = k /\ x.2 ∈ fs) \/ x ∈ m.
Proof.
  induction fs as [|f fs IH]; intros m x; cbn [fold_left]; [rewrite elem_of_nil; tauto|].
  rewrite IH, elem_of_multimap_insert, elem_of_cons. destruct x as [a b]. cbn. split.
  - intros [[-> ?]|[[= -> ->]|?]]; auto.
  - intros [[-> [->|?]]|?]; auto.
Qed.

(** A call that frees [k] and is put down to the library. *)
Definition frees (k : Z) (c : call) : Prop :=
  match c with Free g p => i32 p = k /\ default [] (blame g) <> [] | _ => False end.

(** A block at [k] that the frame [v] of the library has allocated, and that
    the library has not freed since. *)
Definition leaked (ks : list call) (k v : Z) : Prop :=
  exists ks1 g p ks2, ks = ks1 ++ Malloc g p :: ks2 /\ i32 p = k /\ v ∈ default [] (blame g) /\ Forall (fun c => ~ frees k c) ks2.

Lemma leaked_snoc ks c k v : leaked (ks ++ [c]) k v <->
  (match c with Malloc g p => i32 p = k /\ v ∈ default [] (blame g) | _ => False end) \/ leaked ks k v /\ ~ frees k c.
Proof.
  split.
  - intros (ks1 & g & p & ks2 & Heq & Hp & Hv & Hf). destruct ks2 as [|c2 ks2 _] using rev_ind.
    + apply app_inj_tail in Heq as [-> ->]. left. done.
    + change (Malloc g p :: ks2 ++ [c2]) with ((Malloc g p :: ks2) ++ [c2]) in Heq. rewrite app_assoc in Heq.
      apply app_inj_tail in Heq as [-> ->]. apply Forall_app in Hf as [Hf Hc]. apply Forall_cons in Hc as [Hc _].
      right. split; [|done]. by exists ks1, g, p, ks2.
  - intros [H|[(ks1 & g & p & ks2 & -> & Hp & Hv & Hf) Hc]].
    + destruct c as [g p| |]; [|done|done]. destruct H as [Hp Hv]. exists ks, g, p, []. by repeat split.
    + exists ks1, g, p, (ks2 ++ [c]). split; [by rewrite <- app_assoc|]. split; [done|]. split; [done|].
      apply Forall_app. split; [done|]. by constructor.
Qed.

Lemma fold_effects ks k v : (k, v) ∈ fold_left call_effect ks [] <-> leaked ks k v.
Proof.
  induction ks as [|c ks IH] using rev_ind.
  - cbn. rewrite elem_of_nil. split; [done|]. by intros ([|] & ? & ? & ? & ? & _).
  - rewrite fold_left_app, leaked_snoc, <- IH. cbn [fold_left]. unfold call_effect at 1.
    destruct c as [g p|g p q|g p]; cbn [call_sig effect frees].
    + rewrite elem_of_inserts. cbn. intuition.
    + tauto.
    + destruct (default [] (blame g)) as [|f fs]; [tauto|]. unfold multimap_erase. rewrite list_elem_of_filter. cbn.
      split; [intros [Hne Hin]; right; split; [done|]; intros [Heq _]; by apply Hne|].
      intros [[]|[Hin Hnot]]. split; [|done]. intros Heq. by apply Hnot.
Qed.
End Memory.

(** C39. The report names a block and a frame exactly if the frame has
    allocated the block and the library has not freed it since: whatever calls
    of the three functions come before it, as long as the unwinder gets through
    their stacks. *)
Theorem leak_report_exact load half dladdr cpsr status ks : Forall (traced load half dladdr cpsr status) ks ->
  exists s', (run_calls load half dladdr cpsr status ks ;;! show_leak) (mkLeaks [] []) = (Returns tt, s') /\
    s'.(memleak) = [] /\ forall k v, (k, v) ∈ s'.(printed) <-> leaked load half dladdr cpsr status ks k v.
Proof.
  intros Hks. eexists. unfold bind. rewrite run_calls_effect by done. split; [reflexivity|]. split; [done|].
  intros k v. cbn. apply fold_effects.
Qed.

(** The frame of the example in ExidxTable.v, whose caller is in the library
    under test. *)
Definition demo_lib (_ : Z) : option Dl_info := Some (mkInfo (Some CHECK_LIST) 0x10000 None).
Definition demo_calls : list call := [Malloc demo_frame 0x500; Malloc demo_frame 0x600; Free demo_frame 0x500].

Lemma leak_report_exact_witness : exists s',
  (run_calls demo_load demo_half demo_lib 0 7 demo_calls ;;! show_leak) (mkLeaks [] []) = (Returns tt, s') /\
  s'.(memleak) = [] /\ forall k v, (k, v) ∈ s'.(printed) <-> leaked demo_load demo_half demo_lib 0 7 demo_calls k v.
Proof.
  apply (leak_report_exact demo_load demo_half demo_lib 0 7 demo_calls).
  assert (is_Some (blame demo_load demo_half demo_lib 0 7 demo_frame)) as H by (vm_compute; by eexists).
  repeat constructor; exact H.
Defined.

(** ** What is reported wrongly *)

(** The walk looks at the frame once more when the unwinder has given up: the
    frame is noted twice for the same block. *)
Example last_frame_twice : blame demo_load demo_half demo_lib 0 7 demo_frame = Some [0x2345; 0x2345].
Proof. vm_compute. reflexivity. Qed.

(** A block that [realloc] has moved stays in the report, though its new place
    was freed; and the new place, if it is not freed, is not in it. *)
Lemma realloc_not_tracked load half dladdr cpsr status g g1 g2 p q v :
  v ∈ default [] (blame load half dladdr cpsr status g) -> i32 q <> i32 p ->
  leaked load half dladdr cpsr status [Malloc g p; Realloc g1 p q; Free g2 q] (i32 p) v /\
  ~ leaked load half dladdr cpsr status [Malloc g p; Realloc g1 p q] (i32 q) v.
Proof.
  intros Hv Hne. split.
  - exists [], g, p, [Realloc g1 p q; Free g2 q]. split; [done|]. split; [done|]. split; [done|].
    constructor; [by intros []|]. constructor; [by intros [? _]|constructor].
  - intros H. apply (leaked_snoc _ _ _ _ _ [Malloc g p]) in H as [[]|[H _]].
    apply (leaked_snoc _ _ _ _ _ []) in H as [[Heq _]|[H _]]; [by apply Hne|].
    destruct H as (ks1 & ? & ? & ? & Heq & _). by destruct ks1.
Qed.
